(* ===== verification/_CoqProject ===== *)
-Q . S2P
Prelude.v
Floats.v
Models.v
Env.v
Bytes.v
Crypto.v
Keys.v
Config.v
TxCodec.v
TxWire.v
TxRoundtrip.v
BlockCodec.v
Wallet.v
Rules.v
RulesFacts.v
BlockVerify.v
Round.v
Tree.v
Storage.v
StorageFacts.v
Reads.v
Deltas.v
TokenFlow.v
Chain.v
ChainFacts.v
ChainRounds.v
Sync.v
SyncFacts.v
SyncBalance.v
AntiSpam.v
Mempool.v
MempoolFacts.v
Intake.v
Guard.v
Builder.v
BuilderFacts.v
PushServer.v
NodePool.v
PeerHealth.v
NetAddr.v
IrohPeers.v
AddrBook.v
AddrBookFacts.v
RelayGuard.v
LegacyWire.v
CatchUp.v
CatchUpFacts.v
Finality.v
FinalityFacts.v
Ledger.v
ReadsFacts.v
Render.v
Snapshot.v
StoreAudit.v
Api.v
AuditFacts.v
RestSync.v
Live.v
Gossip.v
LegacyServer.v
FollowLive.v
Watchdog.v
Forger.v
ForgerFacts.v
Node.v
Process.v
GossipFacts.v
SnapshotFacts.v
WalletApi.v
ChainDemo.v
SyncDemo.v
MempoolDemo.v
DelegateDemo.v
NetworkDemo.v
ForgerDemo.v
LegacyServerDemo.v
StoreDemo.v
ProcessDemo.v
SnapshotDemo.v
ApiDemo.v
