(* ===== verification/Prelude.v ===== *)
(** * SmartHoldem Core PQ: a verification library

    The node of [src/] is a delegated proof-of-stake blockchain in Rust: transactions with a binary wire format (up to
    version 3, which carries post-quantum signature blocks), blocks produced in turn by the most voted delegates, wallets
    with votes, SmartObjects, native tokens and an order market, a sled key/value tree that holds the chain and its
    indexes, a transaction pool, a forger, a finality gadget, two peer-to-peer layers (the legacy WebSocket one and iroh),
    snapshots, and a read API for wallets.  This library models all of these down to the calls of other crates.

    ** How the parts fit

    A block arrives as bytes ([BlockCodec], [TxCodec]), is verified on its own ([BlockVerify]), against the wallets and the
    transactions before it ([Sync], with the rules of [Rules]), and is then applied ([Chain]): the tip check ([Storage]),
    the wallet changes of its transactions ([Deltas]), the wallet write with its undo record and the vote index ([Wallet],
    [Storage]), the block record, the round snapshot ([Round], [Storage]) and the statistics.  A rollback reads the record
    and the undo data back.  [Config] says what is in force at a height and is read by all of them.

    Blocks come in on many paths: pushed by a legacy peer ([PushServer], [LegacyServer]), heard over gossip ([Live],
    [Gossip]), pulled while following ([FollowLive]), catching up ([CatchUp]) or over the REST API ([RestSync]), forged here
    ([Forger]), or out of a snapshot ([Snapshot]); two watchdogs undo blocks ([Watchdog]), a block of an earlier slot takes the place of the tip
    ([Intake]), and the finality tracker writes certificates and bans ([Finality]).  [Ledger] is the abstract
    specification of what all of them may do to the chain: accept a batch, roll back, swap the tip, write for the finality
    tracker.  [Node] shows that each handler keeps to it, [Process] composes them with every interleaving and draws the
    consequences, [GossipFacts] adds the gossip tasks, [SnapshotFacts] the import.  What is pending is in the pool
    ([Mempool], with the budgets of [AntiSpam]), from which the forger builds a block ([Builder]) when its quorum looks
    right and the guard against a second node with the same key ([Guard]) lets it.  Whom a node asks is decided by
    [NodePool], [PeerHealth], [IrohPeers], [AddrBook] and [RelayGuard].  What it shows is read through [Reads], rendered
    by [Render], listed by [Api], and served to wallets over iroh by [WalletApi]; [StoreAudit] recomputes the wallets
    from the blocks.

    ** Files

    Foundations.
    - [Prelude]: results and the crate's [Error] ([src/src/error.rs]); machine integers as [Z] with their wrap-around,
      saturation and casts; lemmas on lists, maps, ordered folds and stable sorting; tactics.  [Floats]: binary64 by the
      Standard Library's specification of IEEE 754, for shares, scores and fees per byte.
    - [Env]: the third-party primitives (digests, curve, ML-DSA, base58, hex, serde's text codecs) as a class, the
      documented behaviour the proofs use as [EnvLaws], and [TestEnv], an instance that satisfies all laws.
    - [Models]: [models/transaction.rs], [models/block.rs].  [Bytes]: [crypto/bytes.rs].  [Crypto]: the verifying side of
      [crypto/] and the typed views of an asset.  [Keys]: key pairs and signing.  [Config]: [config.rs].
    Codecs.
    - [TxCodec], [TxWire], [TxRoundtrip]: the two transaction serializers, what the wire can carry, the round trip.
      [BlockCodec]: the block serializers and the stored record.
    Ledger.
    - [BlockVerify], [Rules], [RulesFacts]: [verify_block], [rules.rs].  [Round]: [delegate/round.rs].
    - [Tree], [Wallet], [Storage], [StorageFacts], [Deltas], [TokenFlow], [Chain], [ChainFacts], [ChainRounds]: the writing
      half of [storage.rs].  [Reads], [ReadsFacts], [StoreAudit], [AuditFacts]: its listings, searches and audit.
    - [Sync], [SyncFacts], [SyncBalance]: the acceptance of batches in [sync.rs].  [RestSync]: its [Syncer], the REST client.
    - [Ledger]: the abstract chain.  [Snapshot], [SnapshotFacts]: [snapshot.rs], [genesis.rs].
    Pool and block production.
    - [AntiSpam], [Mempool], [MempoolFacts]: [antispam.rs], [mempool.rs].  [Guard]: [delegate/guard.rs].  [Builder],
      [BuilderFacts]: [delegate/block_builder.rs].  [Forger], [ForgerFacts]: [delegate/forger.rs].
    - [Finality], [FinalityFacts]: [p2p_iroh/finality.rs].
    Network.
    - [NodePool]: [node_pool.rs].  [PeerHealth], [LegacyWire], [PushServer], [LegacyServer], [CatchUp], [CatchUpFacts],
      [FollowLive]: [p2p_legacy/].  [Intake], [Watchdog]: [intake.rs] and the orphan watchdog.
    - [NetAddr], [IrohPeers], [AddrBook], [AddrBookFacts], [RelayGuard], [Gossip], [GossipFacts]: [p2p_iroh/].
    - [Live]: the shared state and the handlers of new blocks.  [Node], [Process]: the node as a whole.
    What is shown.
    - [Render], [Api]: [api/].  [WalletApi]: [p2p_iroh/wallet_api.rs].
    Concrete inputs for the witnesses, and examples of odd behaviour: the files whose names end in [Demo].

    ** How state and operations are modelled

    The sled tree is the record [Store] of [Tree]: one finite map for each key prefix, its key the tuple the key bytes are
    built from.  The prefixes are the source's and none is a prefix of another ([prefixes_apart]); the address book is a
    map of its own in [AddrBook].  A sled transaction is a function from a store to a store or an error; an error leaves
    the store of before.  Functions that commit more than once ([apply_blocks], [rollback_to], the statistics after a
    commit) return the store they leave behind together with how they ended ([Done], [Failed], [Panicked]), so what was
    committed before a failure stays visible.  The apply lock makes those calls sequential.

    A [BTreeMap] is a [gmap] read in key order ([bt_entries]); a [HashMap] is a [gmap], and where the code iterates one,
    the order is an argument that is only known to be a permutation.  [sort_by] sorts stably, as [slice::sort_by] does.
    An integer of any width is a [Z] with the cast written out where the code casts or saturates; the [i128] sums of a
    delta and of the audit are exact, since a chain cannot reach that range.  Values stored as JSON are stored as the
    values; the lossless codec is serde's.

    Tasks are step functions: one turn of a loop, or one message, is one step.  Where a task waits, what the others do to
    the shared state meanwhile is an argument of the step (the [pause] of [Live]), as are the clocks and what peers answer;
    the theorems hold for all of them.  Mutexes are held for one step.  Two exceptions are named where they matter: the pool
    is proved for calls one at a time ([add_one_at] is the step with others in between), and [acquire] ends for a caller
    alone.

    ** What the theorems show

    - Codecs: transactions, headers, stored and pushed blocks, frames and answers are read back as they were written
      ([transaction_roundtrip], [block_record_roundtrip], [full_block_roundtrip], [pulled_blocks_in_sequence],
      [answer_accepted]).
    - Verification: [verify_block] reports nothing exactly for blocks that are valid by a declarative definition
      ([verify_block_iff]); second and quantum keys are enforced ([second_key_enforced]).
    - Value: the deltas of a block conserve coins and tokens; the sum of the balances follows the blocks
      ([supply_follows_block]); an accepted batch whose sell orders are new conserves every token
      ([accepted_batch_conserves_tokens]) and, without claims, refunds and purchases of objects, overdraws nobody
      ([no_overdraft]); the audit, a second bookkeeping, agrees with the first ([audit_finds_no_drift]).
    - Store: a block is applied once and only at the tip; the vote index is the sum of the voters' weights; a rollback
      restores ([rollback_restores]) and succeeds ([rollback_succeeds]); rounds, ranking and the shuffle are what they
      should be ([round_snapshot], [active_delegates_top], [shuffle_correct]).
    - The node: every run is a sequence of the four changes of the ledger ([node_refines]); its chain has no gap
      ([chain_gapless]); in hard finality mode its certificates carry a quorum of valid votes for its own blocks
      ([certificates_attest]) and the history under one is kept ([certified_history_kept]).
    - Snapshots: an import writes linked chunks of verified blocks only ([import_refines]), may be interrupted ([interrupted_import_resumes])
      and gives back the chain that was dumped ([dump_then_import]).
    - Pool and forger: limits and solvency of the pool, for each spelling of a key ([pool_invariant], [pool_solvent]), a forged block verifies
      ([forged_block_verifies]), a slot is used once ([one_block_per_slot]) and on a quorum ([forge_needs_quorum]), a node
      votes once for a height ([one_vote_per_height]) and two certificates convict somebody ([certificates_convict]).
    - Network: request rates are bounded ([pool_rate_bounded]) and a request gets its turn ([acquire_returns]); a range is
      fetched from any node that has it ([range_fetched]); the range
      the tip waits for is never lost ([needed_range_awaited]); the address book holds signed records only, the newest of
      each node ([address_book_sound]); a proof is passed on once ([proofs_relayed_once]); the relay guard removes what it
      should ([relay_guard_exact]).
    - What is shown: searches by time ([heights_for_timestamps_exact]), listings ([listing_exact], [pages_partition],
      [block_page_exact], [candles_exact], [service_nodes_exclusive]), the calendar ([civil_is_calendar]), and what a wallet
      missed ([subscribe_replays]).
    - Behaviour that looks unintended is stated as it is.  Of the ledger: a lock is paid again by a second claim
      ([claim_pays_without_lock]), the missed-slot index panics in a short round ([missed_slots_short_round]), the cap
      check of a mint saturates ([mint_cap_saturates]), a mint before a hand-over is lost
      ([handover_drops_pending_supply]), a rolled back registration leaves its name behind
      ([ChainDemo.ghost_delegate_after_rollback]).  Of what is accepted: a transfer twice, and a block of somebody who is
      no delegate ([acceptance_gaps]); a sell order twice ([repeated_sell_destroys_tokens]); a refund that names two locks
      ([refund_of_two_locks]); one key under two spellings ([two_spellings_two_senders]) and one nonce in two calls
      ([two_calls_one_nonce]); a swap of the tip for an unverified block ([tip_swap_unchecked]); an evaded ban
      ([ban_evaded]); an address record with a moved end ([record_end_unsigned]).  Of progress: a missing nonce is refused
      ([missing_nonce_refused]), a race stops the catch-up ([race_stops_catch_up]), a truncated
      page the sync ([truncated_page_stops_sync]), a node is parked for another's answer ([answering_node_parked]), both halves of a network forge
      ([both_halves_forge]), a claimed id silences a transaction ([claimed_id_silences]).  Of what is shown or repaired:
      [repair_takes_coins], [ascending_by_generator], [until_the_end_of_time], [shorter_snapshot_located].

    ** Fuel and bounds

    A function that is not structural recurses on fuel.  [fmt_u] prints at most forty decimal digits, and a [u128] has
    thirty-nine.  [decode_transactions], [r_pq_blocks], [be_frames_go] and the trimming of texts consume at least one byte a
    turn and get the bytes there are, [load_go] and [import_go] at least the four of a length prefix; [pq_blocks_terminate]
    proves that enough for the signature blocks, [block_record_roundtrip] that a written record never runs out.  The
    shuffle takes at most one turn for each element ([shuffle_correct]).  [rollback_to] gets the height of the tip, and each
    turn lowers it by one ([rollback_to_reaches]).  [search] halves an interval of [u64] and has 65 turns
    ([heights_for_timestamps_exact]).  [acquire] is proved to end for a number of turns that depends on the state only
    ([acquire_returns]).  [drain] takes one pending batch away a turn.  [by_generator_go] and
    [delegate_blocks_go] go down one height a turn.  [passes] leaves fewer candidates after
    every pass but the last.  [fetch_range_go] has the attempts of the configuration.

    ** Parameters

    Code of other crates is a class, with its documented behaviour as laws where a proof needs it, and each has an
    instance that satisfies them: [Env] and [EnvLaws]; [Signer] and [SignerLaws] (scalars and the curve, ML-DSA keys);
    [IrohKeys] and [IrohKeysLaws] (Ed25519, node ids); [Proto] and [Messages] (prost); [Archive] (gzip, MessagePack);
    [JsonText] and [JsonTextLaws] (serde_json's text and derives); [WalletWire] (MessagePack, base64).  [HashOrder],
    [PeerOrder] and [BookOrder] are the orders in which hash maps iterate.  No law says that a digest has no collisions,
    or that signatures cannot be forged.  [TokenView] is a trait of the source, so the theorems on the rules hold for
    every view.  The router behind the wallet protocol is an argument.

    ** Not modelled

    - Process start-up, command line, terminal and operating system glue: [main.rs] but for the two audit commands,
      [cli.rs], [bin/], [node.rs], [console.rs], [banner.rs], [doctor.rs], [mem.rs], [ntp.rs], [audit_client.rs],
      [alerts.rs]; the generator of private networks [newnet.rs].
    - The iroh endpoint, its discovery services and the local WebSocket bridge ([p2p_iroh/mod.rs] but for rejoining,
      [ws_bridge.rs]): they configure iroh.
    - Of the API: routing, CORS and the HTTP server, and the status views [node.rs], [ntfry.rs] and [status_page.rs], which
      show configuration and counters.  Caches are what they cache.
    - Mnemonic word lists ([crypto/mnemonic.rs]); the reading and merging of configuration files; the
      downloading and unpacking of archives; sockets, the size limits of the WebSocket library ([client.rs] connects with its
      defaults, which could refuse a very large answer), event channels, log lines, alerts and durations;
      the vendored iroh. *)

From Stdlib Require Export ZArith Lia Bool.
From Stdlib Require Export Strings.Byte Strings.Ascii Strings.String.
From stdpp Require Export base gmap strings list fin_maps sorting.

#[global] Open Scope Z_scope.

(** ** Results

    Every fallible function of the crate returns [Result<T, Error>] ([src/src/error.rs]) or, for
    the transaction rules, [Result<T, String>].  Both are the type below. *)

Inductive result (A E : Type) : Type :=
| Ok (a : A)
| Err (e : E).
Arguments Ok {A E} a.
Arguments Err {A E} e.

Definition rbind {A B E} (m : result A E) (k : A -> result B E) : result B E :=
  match m with Ok a => k a | Err e => Err e end.

Definition rmap {A B E} (f : A -> B) (m : result A E) : result B E :=
  match m with Ok a => Ok (f a) | Err e => Err e end.

(** [Result::map_err]. *)
Definition map_err {A E F} (f : E -> F) (m : result A E) : result A F :=
  match m with Ok a => Ok a | Err e => Err (f e) end.

(** [Option::ok_or]. *)
Definition ok_or {A E} (o : option A) (e : E) : result A E :=
  match o with Some a => Ok a | None => Err e end.

(** [Result::ok]. *)
Definition res_ok {A E} (m : result A E) : option A :=
  match m with Ok a => Some a | Err _ => None end.

Definition is_ok {A E} (m : result A E) : bool :=
  match m with Ok _ => true | Err _ => false end.

Declare Scope sth_scope.
Delimit Scope sth_scope with sth.
#[global] Open Scope sth_scope.

(** The [?] operator. *)
Notation "'let?' x := e 'in' k" := (rbind e (fun x => k))
  (at level 10, x pattern, e at level 100, k at level 200) : sth_scope.

(** An early return [if c { return Err(e) }]. *)
Notation "'guard' c 'else' e 'in' k" := (if c then k else Err e)
  (at level 10, c at level 100, e at level 100, k at level 200) : sth_scope.

(** A loop whose body may fail, left to right. *)
Fixpoint rfold {A B E} (f : A -> B -> result A E) (l : list B) (a : A) : result A E :=
  match l with
  | [] => Ok a
  | x :: l => let? a' := f a x in rfold f l a'
  end.

(** [collect::<Result<Vec<_>, _>>]. *)
Fixpoint rmapM {A B E} (f : A -> result B E) (l : list A) : result (list B) E :=
  match l with
  | [] => Ok []
  | x :: l => let? y := f x in let? ys := rmapM f l in Ok (y :: ys)
  end.

(** The crate's error enum. *)
Inductive Error : Type :=
| EHex
| EAddress (s : string)
| EPublicKey (s : string)
| ESignature (s : string)
| ESerialization (s : string)
| EStorage (s : string)
| EJson (s : string)
| EBlockValidation (s : string)
| ENotFound (s : string)
| EOverflow (s : string)
| EHttp (s : string)
| ESync (s : string)
| EStaleTip (s : string)
| EFutureBlock (s : string)
| EConfig (s : string).

Abbreviation Res A := (result A Error).

Lemma rbind_ok_inv {A B E} (m : result A E) (k : A -> result B E) b :
  rbind m k = Ok b -> exists a, m = Ok a /\ k a = Ok b.
Proof. destruct m; cbn; [eauto | discriminate]. Qed.

Lemma Ok_inj {A E} (a b : A) : @Ok A E a = Ok b -> a = b.
Proof. by intros [= ->]. Qed.

Lemma rbind_assoc {A B C E} (m : result A E) (f : A -> result B E) (g : B -> result C E) :
  rbind (rbind m f) g = rbind m (fun a => rbind (f a) g).
Proof. by destruct m. Qed.

Section result_lemmas.
  Context {A B E : Type}.

Lemma rfold_app (f : A -> B -> result A E) l1 l2 a :
    rfold f (l1 ++ l2) a = rbind (rfold f l1 a) (rfold f l2).
  Proof.
    revert a; induction l1 as [|x l1 IH]; intros a; cbn; [done|].
    destruct (f a x); cbn; auto.
  Qed.

  (** The loop rule: an invariant kept by the body holds at the end. *)
Lemma rfold_inv (P : A -> Prop) (f : A -> B -> result A E) l a a' :
    (forall x y y', x ∈ l -> P y -> f y x = Ok y' -> P y') ->
    P a -> rfold f l a = Ok a' -> P a'.
  Proof.
    revert a; induction l as [|x l IH]; intros a Hstep Ha H; cbn in H.
    { by injection H as <-. }
    apply rbind_ok_inv in H as (y & Hy & H).
    eapply IH; [| |exact H].
    - intros z w w' Hz. apply Hstep. by right.
    - eapply Hstep; [by left|exact Ha|exact Hy].
  Qed.

Lemma rmapM_length (f : A -> result B E) l l' :
    rmapM f l = Ok l' -> length l' = length l.
  Proof.
    revert l'; induction l as [|x l IH]; intros l' H; cbn in H.
    { by injection H as <-. }
    apply rbind_ok_inv in H as (y & _ & H). apply rbind_ok_inv in H as (ys & Hys & H).
    injection H as <-. cbn. by rewrite (IH _ Hys).
  Qed.
End result_lemmas.

(** Turns every successful [let?] in the context into equations. *)
Ltac inv_ok :=
  repeat match goal with
  | H : rbind _ _ = Ok _ |- _ =>
      let a := fresh "a" in let Ha := fresh "Ha" in
      apply rbind_ok_inv in H as (a & Ha & H); cbn beta in H
  | H : Ok _ = Ok _ |- _ => injection H as H; try subst
  | H : Err _ = Ok _ |- _ => discriminate H
  | H : Ok _ = Err _ |- _ => discriminate H
  | H : ok_or ?o _ = Ok _ |- _ => destruct o eqn:?; cbn in H; [|discriminate H]
  end.

(** Case analysis on the condition of every [if] of a hypothesis. *)
Ltac split_ifs H :=
  repeat match type of H with
  | context [if ?c then _ else _] => destruct c eqn:?
  end.

(** ** Machine integers

    [u8] .. [u64], [i64], [i128] and [usize] are [Z]; the operations that can leave the range are
    written with their behaviour: wrap-around for the plain operators (the release profile of
    [Cargo.toml] does not enable overflow checks), [checked_*], [saturating_*] and [as] casts. *)

Definition u8_max : Z := 255.
Definition u16_max : Z := 65535.
Definition u32_max : Z := 4294967295.
Definition u64_max : Z := 18446744073709551615.
Definition i64_max : Z := 9223372036854775807.
Definition i64_min : Z := -9223372036854775808.

Definition in_u8 (x : Z) : Prop := 0 <= x <= u8_max.
Definition in_u16 (x : Z) : Prop := 0 <= x <= u16_max.
Definition in_u32 (x : Z) : Prop := 0 <= x <= u32_max.
Definition in_u64 (x : Z) : Prop := 0 <= x <= u64_max.
Definition in_i64 (x : Z) : Prop := i64_min <= x <= i64_max.

Definition as_u8 (x : Z) : Z := x mod 256.
Definition as_u16 (x : Z) : Z := x mod 65536.
Definition as_u32 (x : Z) : Z := x mod 4294967296.
Definition as_u64 (x : Z) : Z := x mod 18446744073709551616.
Definition as_i64 (x : Z) : Z := (x + 9223372036854775808) mod 18446744073709551616 - 9223372036854775808.

Definition sat_add_u64 (x y : Z) : Z := Z.min (x + y) u64_max.
Definition sat_mul_u64 (x y : Z) : Z := Z.min (x * y) u64_max.
Definition sat_sub (x y : Z) : Z := Z.max (x - y) 0.

(** [i64::try_from] on an [i128]. *)
Definition try_i64 (x : Z) : option Z :=
  if (i64_min <=? x) && (x <=? i64_max) then Some x else None.

Definition checked_add_u64 (x y : Z) : option Z :=
  if x + y <=? u64_max then Some (x + y) else None.

Ltac bounds :=
  unfold in_u8, in_u16, in_u32, in_u64, in_i64, as_u8, as_u16, as_u32, as_u64, as_i64,
    sat_add_u64, sat_mul_u64, sat_sub, u8_max, u16_max, u32_max, u64_max, i64_max, i64_min in *.

Lemma as_u64_id x : in_u64 x -> as_u64 x = x.
Proof. bounds. intros. apply Z.mod_small. lia. Qed.
Lemma as_u32_id x : in_u32 x -> as_u32 x = x.
Proof. bounds. intros. apply Z.mod_small. lia. Qed.

Lemma as_u64_range x : in_u64 (as_u64 x).
Proof. bounds. pose proof (Z.mod_pos_bound x 18446744073709551616). lia. Qed.

Lemma sat_add_range x y : 0 <= x -> 0 <= y -> in_u64 (sat_add_u64 x y).
Proof. bounds. lia. Qed.

Lemma try_i64_Some x y : try_i64 x = Some y <-> y = x /\ in_i64 x.
Proof.
  unfold try_i64. destruct (Z.leb_spec i64_min x), (Z.leb_spec x i64_max); cbn;
    unfold in_i64; split; intros; try discriminate; destruct_and?; simplify_eq; try lia; auto.
Qed.

(** ** Text *)

#[export] Instance byte_eq_dec : EqDecision byte := Byte.byte_eq_dec.

Definition bytes_of (s : string) : list byte := String.list_byte_of_string s.
Definition str_of (b : list byte) : string := String.string_of_list_byte b.
#[global] Arguments bytes_of s : simpl never.
#[global] Arguments str_of b : simpl never.
Definition slen (s : string) : Z := Z.of_nat (String.length s).

Lemma str_of_bytes_of s : str_of (bytes_of s) = s.
Proof. apply String.string_of_list_byte_of_string. Qed.

Lemma bytes_of_str_of b : bytes_of (str_of b) = b.
Proof. apply String.list_byte_of_string_of_list_byte. Qed.

Lemma length_bytes_of s : length (bytes_of s) = String.length s.
Proof. unfold bytes_of. induction s; cbn; auto. Qed.

(** [str::starts_with], [str::strip_prefix], [str::contains]. *)
Definition starts_with (p s : string) : bool := String.prefix p s.
Definition strip_prefix (p s : string) : option string :=
  if String.prefix p s
  then Some (String.substring (String.length p) (String.length s - String.length p) s)
  else None.
Fixpoint str_contains (s p : string) : bool :=
  String.prefix p s || match s with String _ s' => str_contains s' p | EmptyString => false end.

(** [str::split_once] on a character. *)
Fixpoint split_once (c : ascii) (s : string) : option (string * string) :=
  match s with
  | EmptyString => None
  | String a s' =>
      if Ascii.eqb a c then Some (EmptyString, s')
      else match split_once c s' with Some (x, y) => Some (String a x, y) | None => None end
  end.

(** [str::split] on a character: always at least one piece. *)
Fixpoint str_split (c : ascii) (s : string) : list string :=
  match s with
  | EmptyString => [EmptyString]
  | String a s' =>
      if Ascii.eqb a c then EmptyString :: str_split c s'
      else match str_split c s' with
           | [] => [String a EmptyString]
           | x :: l => String a x :: l
           end
  end.

Fixpoint str_forall (f : Z -> bool) (s : string) : bool :=
  match s with
  | EmptyString => true
  | String a s' => f (Z.of_N (Ascii.N_of_ascii a)) && str_forall f s'
  end.

Definition is_digit (c : Z) : bool := (48 <=? c) && (c <=? 57).
Definition is_upper (c : Z) : bool := (65 <=? c) && (c <=? 90).
Definition is_lower (c : Z) : bool := (97 <=? c) && (c <=? 122).
Definition is_alnum (c : Z) : bool := is_digit c || is_upper c || is_lower c.
Definition is_hexdigit (c : Z) : bool :=
  is_digit c || ((65 <=? c) && (c <=? 70)) || ((97 <=? c) && (c <=? 102)).

(** [str::to_ascii_lowercase]. *)
Fixpoint ascii_lower (s : string) : string :=
  match s with
  | EmptyString => EmptyString
  | String a s' =>
      let c := Z.of_N (Ascii.N_of_ascii a) in
      String (if is_upper c then Ascii.ascii_of_N (Z.to_N (c + 32)) else a) (ascii_lower s')
  end.

(** [chars().any(char::is_control)] on the UTF-8 bytes: C0, DEL, and C1 (two bytes from [C2 80]). *)
Fixpoint has_control (s : string) : bool :=
  match s with
  | EmptyString => false
  | String a s' =>
      let c := Z.of_N (Ascii.N_of_ascii a) in
      (c <? 32) || (c =? 127)
      || match s' with
         | String b _ => (c =? 194) && (Z.of_N (Ascii.N_of_ascii b) <? 160)
         | EmptyString => false
         end
      || has_control s'
  end.

(** Decimal text of an unsigned integer ([u64::to_string]); 40 digits cover every width used. *)
Definition digit_char (d : Z) : ascii := Ascii.ascii_of_N (Z.to_N (48 + d)).
Fixpoint dec_go (fuel : nat) (n : Z) (acc : string) : string :=
  match fuel with
  | O => acc
  | S f =>
      let acc' := String (digit_char (n mod 10)) acc in
      if n <? 10 then acc' else dec_go f (n / 10) acc'
  end.
Definition fmt_u (n : Z) : string := dec_go 40 n "".

(** Display of a signed integer. *)
Definition fmt_i (n : Z) : string :=
  if n <? 0 then String (Ascii.ascii_of_N 45) (fmt_u (- n)) else fmt_u n.

Fixpoint dec_digits (s : string) (acc : Z) : option Z :=
  match s with
  | EmptyString => Some acc
  | String a s' =>
      let c := Z.of_N (Ascii.N_of_ascii a) in
      if is_digit c then dec_digits s' (acc * 10 + (c - 48)) else None
  end.

(** [str::parse::<u64>]: an optional plus sign, at least one digit, no overflow. *)
Definition parse_u64 (s : string) : option Z :=
  let digits := match s with
                | String a s' => if Ascii.eqb a (Ascii.ascii_of_N 43) then s' else s
                | EmptyString => s
                end in
  match digits with
  | EmptyString => None
  | _ => match dec_digits digits 0 with
         | Some v => if v <=? u64_max then Some v else None
         | None => None
         end
  end.

Lemma digit_char_code d : 0 <= d <= 9 -> Z.of_N (Ascii.N_of_ascii (digit_char d)) = 48 + d.
Proof.
  intros Hd. unfold digit_char. rewrite Ascii.N_ascii_embedding by lia. lia.
Qed.

Lemma dec_go_parse fuel n acc :
  0 <= n < 10 ^ Z.of_nat fuel ->
  dec_digits (dec_go fuel n acc) 0 = dec_digits acc n.
Proof.
  revert n acc; induction fuel as [|f IH]; intros n acc Hn.
  { cbn in *. assert (n = 0) as -> by lia. done. }
  assert (Hd : 0 <= n mod 10 <= 9) by (pose proof (Z.mod_pos_bound n 10); lia).
  assert (Hchar : forall a, dec_digits (String (digit_char (n mod 10)) acc) a
                    = dec_digits acc (a * 10 + n mod 10)).
  { intros a. cbn [dec_digits]. rewrite digit_char_code by done.
    unfold is_digit.
    destruct (Z.leb_spec 48 (48 + n mod 10)), (Z.leb_spec (48 + n mod 10) 57); try lia.
    cbn. f_equal. lia. }
  cbn [dec_go]. destruct (Z.ltb_spec n 10) as [Hlt|Hge].
  - rewrite Hchar. f_equal. rewrite Z.mod_small by lia. lia.
  - rewrite IH.
    + rewrite Hchar. f_equal. pose proof (Z.div_mod n 10). lia.
    + split; [apply Z.div_pos; lia|]. apply Z.div_lt_upper_bound; [lia|].
      rewrite Nat2Z.inj_succ, Z.pow_succ_r in Hn by lia. lia.
Qed.

Lemma dec_go_S fuel n acc : exists d s, dec_go (S fuel) n acc = String (digit_char d) s /\ 0 <= d <= 9.
Proof.
  revert n acc; induction fuel as [|f IH]; intros n acc.
  - exists (n mod 10), acc. cbn. pose proof (Z.mod_pos_bound n 10).
    destruct (n <? 10); split; (done || lia).
  - cbn [dec_go]. destruct (n <? 10).
    + exists (n mod 10), acc. pose proof (Z.mod_pos_bound n 10). split; [done|lia].
    + apply (IH (n / 10) (String (digit_char (n mod 10)) acc)).
Qed.

Lemma parse_fmt_u n : in_u64 n -> parse_u64 (fmt_u n) = Some n.
Proof.
  intros Hn. pose proof (dec_go_S 39 n "") as (d & s & Hs & Hd).
  pose proof (dec_go_parse 40 n "") as Hp.
  assert (H10 : 0 <= n < 10 ^ Z.of_nat 40) by (bounds; change (10 ^ Z.of_nat 40) with (10 ^ 40); lia).
  specialize (Hp H10). unfold parse_u64, fmt_u. rewrite Hs in *.
  destruct (Ascii.eqb_spec (digit_char d) (Ascii.ascii_of_N 43)) as [He|_].
  { apply (f_equal (fun a => Z.of_N (Ascii.N_of_ascii a))) in He.
    rewrite digit_char_code in He by done. cbn in He. lia. }
  rewrite Hp. cbn [dec_digits]. destruct (Z.leb_spec n u64_max); [done|bounds; lia].
Qed.

(** ** Sorting

    [slice::sort_by] and its kin are stable: elements neither of which comes before the other stay in the order they
    had. *)

Fixpoint sort_insert {A} (R : A -> A -> Prop) `{forall x y, Decision (R x y)} (x : A) (l : list A) : list A :=
  match l with
  | [] => [x]
  | y :: l' => if decide (R x y) then x :: l else y :: sort_insert R x l'
  end.
Definition sort_by {A} (R : A -> A -> Prop) `{forall x y, Decision (R x y)} (l : list A) : list A := foldr (sort_insert R) [] l.

Section sorting.
Context {A : Type} (R : A -> A -> Prop) `{forall x y, Decision (R x y)}.

Lemma sort_insert_perm x l : sort_insert R x l ≡ₚ x :: l.
Proof.
  induction l as [|y l IH]; cbn [sort_insert]; [done|]. destruct (decide (R x y)); [done|]. rewrite IH. apply Permutation_swap.
Qed.

Lemma sort_by_Permutation l : sort_by R l ≡ₚ l.
Proof. induction l as [|x l IH]; cbn; [done|]. by rewrite sort_insert_perm, IH. Qed.

Lemma Sorted_sort_by `{!Total R} l : Sorted R (sort_by R l).
Proof.
  induction l as [|x l IH]; cbn; [constructor|]. fold (sort_by R l). revert IH. generalize (sort_by R l). clear l.
  induction 1 as [|y l Hl IH Hy]; cbn [sort_insert]; [repeat constructor|].
  destruct (decide (R x y)) as [Hxy|Hxy]; [by repeat constructor|]. constructor; [done|].
  destruct Hy as [|z l Hz]; cbn [sort_insert]; [constructor; by destruct (total R x y)|].
  destruct (decide (R x z)); constructor; [by destruct (total R x y)|done].
Qed.

Lemma StronglySorted_sort_by `{!Transitive R, !Total R} l : StronglySorted R (sort_by R l).
Proof. apply Sorted_StronglySorted; [done|apply Sorted_sort_by]. Qed.

Lemma sort_by_sorted l : StronglySorted R l -> sort_by R l = l.
Proof.
  induction 1 as [|x l _ IH Hx]; [done|]. cbn. fold (sort_by R l). rewrite IH. destruct Hx as [|y l Hy _]; [done|]. cbn [sort_insert]. by rewrite decide_True.
Qed.

(** The elements of one class of a predicate that does not tell equivalent ones apart keep their order. *)
Lemma sort_by_stable (P : A -> Prop) `{forall x, Decision (P x)} l :
  (forall x y, P x -> P y -> R x y) -> filter P (sort_by R l) = filter P l.
Proof.
  intros HP. assert (Hi : forall x k, filter P (sort_insert R x k) = filter P (x :: k)).
  { intros x k. induction k as [|y k IH]; cbn [sort_insert]; [done|]. destruct (decide (R x y)) as [|Hxy]; [done|].
    rewrite (filter_cons P y), IH, !filter_cons. destruct (decide (P y)) as [Hy|]; [|done].
    destruct (decide (P x)) as [Hx|]; [|done]. destruct Hxy. by apply HP. }
  induction l as [|x l IH]; [done|]. change (sort_by R (x :: l)) with (sort_insert R x (sort_by R l)). rewrite Hi, !filter_cons.
  by rewrite IH.
Qed.
End sorting.

(** ** Ordered maps

    A [BTreeMap<String, T>] is a [gmap string T]; code that iterates over it visits the entries
    in ascending key order, which [bt_entries] reproduces. *)

Definition key_le {A} (x y : string * A) : Prop := String.leb x.1 y.1 = true.
#[export] Instance key_le_dec {A} (x y : string * A) : Decision (key_le x y).
Proof. unfold key_le. apply _. Defined.

Definition bt_entries {A} (m : gmap string A) : list (string * A) :=
  sort_by key_le (map_to_list m).

Lemma bt_entries_perm {A} (m : gmap string A) : bt_entries m ≡ₚ map_to_list m.
Proof. apply sort_by_Permutation. Qed.

Lemma elem_of_bt_entries {A} (m : gmap string A) k x :
  (k, x) ∈ bt_entries m <-> m !! k = Some x.
Proof. rewrite bt_entries_perm. apply elem_of_map_to_list. Qed.

Lemma NoDup_bt_entries {A} (m : gmap string A) : NoDup (bt_entries m).*1.
Proof. rewrite bt_entries_perm. apply NoDup_fst_map_to_list. Qed.

(** ** Sums over finite maps *)

Definition map_sum {K A} `{Countable K} (f : A -> Z) (m : gmap K A) : Z :=
  map_fold (fun _ x acc => f x + acc) 0 m.

Section map_sum.
  Context {K A : Type} `{Countable K}.
  Implicit Types (m : gmap K A) (f g : A -> Z).

Lemma map_sum_empty f : map_sum f (∅ : gmap K A) = 0.
  Proof. apply map_fold_empty. Qed.

Lemma map_sum_insert_new f m k x :
    m !! k = None -> map_sum f (<[k:=x]> m) = f x + map_sum f m.
  Proof.
    intros Hk. unfold map_sum. rewrite map_fold_insert_L; [done| |done].
    intros. lia.
  Qed.

Lemma map_sum_delete f m k x :
    m !! k = Some x -> map_sum f (delete k m) = map_sum f m - f x.
  Proof.
    intros Hk. rewrite <-(insert_delete_id m k x Hk) at 2.
    rewrite map_sum_insert_new by apply lookup_delete_eq. lia.
  Qed.

  (** The general update rule: what was stored under the key is replaced. *)
Lemma map_sum_insert f m k x :
    map_sum f (<[k:=x]> m) = map_sum f m + f x - default 0 (f <$> m !! k).
  Proof.
    destruct (m !! k) as [y|] eqn:Hk; cbn.
    - rewrite <-(insert_delete_eq m k x), map_sum_insert_new by apply lookup_delete_eq.
      rewrite (map_sum_delete _ _ _ _ Hk). lia.
    - rewrite map_sum_insert_new by done. lia.
  Qed.

Lemma map_sum_delete_default f m k :
    map_sum f (delete k m) = map_sum f m - default 0 (f <$> m !! k).
  Proof.
    destruct (m !! k) as [y|] eqn:Hk; cbn.
    - by apply map_sum_delete.
    - rewrite delete_id by done. lia.
  Qed.

Lemma map_sum_nonneg f m : (forall k x, m !! k = Some x -> 0 <= f x) -> 0 <= map_sum f m.
  Proof.
    induction m as [|k x m Hk IH] using map_ind; intros Hf.
    - by rewrite map_sum_empty.
    - rewrite map_sum_insert_new by done.
      assert (0 <= f x) by (apply (Hf k); apply lookup_insert_eq).
      assert (0 <= map_sum f m); [|lia].
      apply IH. intros k' x' Hk'. apply (Hf k').
      rewrite lookup_insert_ne; [done|]. intros ->. congruence.
  Qed.

Lemma map_sum_le_lookup f m k x :
    (forall k x, m !! k = Some x -> 0 <= f x) -> m !! k = Some x -> f x <= map_sum f m.
  Proof.
    intros Hf Hk. rewrite <-(insert_delete_id m k x Hk).
    rewrite map_sum_insert_new by apply lookup_delete_eq.
    enough (0 <= map_sum f (delete k m)) by lia.
    apply map_sum_nonneg. intros k' x' Hk'. apply lookup_delete_Some in Hk' as [_ Hk'].
    by apply (Hf k').
  Qed.

Lemma map_sum_ext f g m :
    (forall k x, m !! k = Some x -> f x = g x) -> map_sum f m = map_sum g m.
  Proof.
    induction m as [|k x m Hk IH] using map_ind; intros Hf.
    - by rewrite !map_sum_empty.
    - rewrite !map_sum_insert_new by done. f_equal.
      + apply (Hf k), lookup_insert_eq.
      + apply IH. intros k' x' Hk'. apply (Hf k').
        rewrite lookup_insert_ne; [done|]. intros ->. congruence.
  Qed.
End map_sum.

#[global] Opaque map_sum.

(** Sum of a list of integers ([Iterator::sum] before any width is imposed). *)
Fixpoint zsum (l : list Z) : Z :=
  match l with [] => 0 | x :: l => x + zsum l end.

Lemma zsum_app l1 l2 : zsum (l1 ++ l2) = zsum l1 + zsum l2.
Proof. induction l1; cbn; lia. Qed.

Lemma zsum_nonneg l : Forall (Z.le 0) l -> 0 <= zsum l.
Proof. induction 1; cbn; lia. Qed.

Lemma foldl_add_zsum {A} (f : A -> Z) l a : foldl (fun acc x => acc + f x) a l = a + zsum (f <$> l).
Proof. revert a; induction l as [|x l IH]; intros a; cbn; [lia|]. rewrite IH. cbn. lia. Qed.

Lemma find_app {A} (f : A -> bool) l1 l2 :
  List.find f (l1 ++ l2) = match List.find f l1 with Some x => Some x | None => List.find f l2 end.
Proof. induction l1 as [|x l1 IH]; cbn; [done|]. by destruct (f x). Qed.

(** ** Automation *)

Create HintDb sth.
#[export] Hint Resolve as_u64_range sat_add_range : sth.
#[export] Hint Rewrite @map_sum_empty @map_sum_insert @map_sum_delete_default : map_sum.
#[export] Hint Rewrite @lookup_insert_eq @lookup_empty @lookup_delete_eq : map_sum.
