(* ===== verification/Floats.v ===== *)
(** * Binary64 numbers

    The few places of the crate that compute with [f64] (fees per byte, seconds in a message) use
    the standard library's executable specification of IEEE 754: [u64 as f64], division, comparison
    and [{:.k}] formatting (ties to even). *)

From Stdlib Require Import Floats.SpecFloat.
From S2P Require Import Prelude.

Definition F64 : Type := spec_float.

(** [x as f64] of a non-negative integer. *)
Definition f64_of (x : Z) : F64 := binary_normalize 53 1024 x 0 false.
Definition f64_div (x y : F64) : F64 := SFdiv 53 1024 x y.
Definition f64_ltb (x y : F64) : bool := SFltb x y.
Definition f64_leb (x y : F64) : bool := SFleb x y.

Definition f64_mul (x y : F64) : F64 := SFmul 53 1024 x y.
Definition f64_add (x y : F64) : F64 := SFadd 53 1024 x y.
Definition f64_sub (x y : F64) : F64 := SFsub 53 1024 x y.

(** [f64::clamp]; not a number stays what it is. *)
Definition f64_clamp (lo hi x : F64) : F64 :=
  let x := if f64_ltb x lo then lo else x in if f64_ltb hi x then hi else x.

(** [x.ceil() as usize]: the cast saturates, and takes what is not a number to zero. *)
Definition f64_ceil_usize (x : F64) : Z :=
  match x with
  | S754_finite false m e => Z.min (if 0 <=? e then Z.pos m * 2 ^ e else - (- Z.pos m / 2 ^ (- e))) u64_max
  | S754_infinity false => u64_max
  | _ => 0
  end.

(** [num / den], ties to even. *)
Definition div_even (num den : Z) : Z :=
  let q := num / den in
  let r := num mod den in
  if (2 * r <? den) || ((2 * r =? den) && Z.even q) then q else q + 1.

(** Decimal digits of the fraction, with leading zeros. *)
Fixpoint frac_digits (k : nat) (x : Z) (acc : string) : string :=
  match k with
  | O => acc
  | S k => frac_digits k (x / 10) (String (digit_char (x mod 10)) acc)
  end.

(** [{:.k}] of a non-negative number. *)
Definition fmt_f64 (k : nat) (x : F64) : string :=
  match x with
  | S754_zero _ => "0." +:+ frac_digits k 0 ""
  | S754_infinity _ => "inf"
  | S754_nan => "NaN"
  | S754_finite _ m e =>
      let scaled := Z.pos m * 10 ^ Z.of_nat k in
      let v := if 0 <=? e then scaled * 2 ^ e else div_even scaled (2 ^ (- e)) in
      fmt_u (v / 10 ^ Z.of_nat k) +:+ "." +:+ frac_digits k (v mod 10 ^ Z.of_nat k) ""
  end.

Example fmt_f64_ties :
  (fmt_f64 1 (f64_div (f64_of 1250) (f64_of 1000)), fmt_f64 1 (f64_div (f64_of 1350) (f64_of 1000)),
   fmt_f64 2 (f64_div (f64_of 2) (f64_of 3))) = ("1.2", "1.4", "0.67")%string.
Proof. vm_compute. reflexivity. Qed.

Example f64_shares :
  ((fun k => f64_ceil_usize (f64_mul (f64_of k) (f64_div (f64_of 1) (f64_of 2)))) <$> seqZ 0 9,
   f64_ceil_usize (f64_mul (f64_of 10) (f64_div (f64_of 7) (f64_of 10)))) = ([0; 1; 1; 2; 2; 3; 3; 4; 4], 7).
Proof. vm_compute. reflexivity. Qed.
