(* ===== verification/Models.v ===== *)
(** * The data model

    Transactions, assets and blocks as [src/src/models/transaction.rs] and
    [src/src/models/block.rs] declare them, with the methods that need no third-party code.
    A Rust [String] is a [string] of bytes, an integer of any width a [Z]. *)

From S2P Require Import Prelude.

(** ** Constants *)

Module tx_type.
Definition TRANSFER : Z := 0.
Definition SECOND_SIGNATURE : Z := 1.
Definition DELEGATE_REGISTRATION : Z := 2.
Definition VOTE : Z := 3.
Definition MULTI_SIGNATURE : Z := 4.
Definition IPFS : Z := 5.
Definition MULTI_PAYMENT : Z := 6.
Definition DELEGATE_RESIGNATION : Z := 7.
Definition HTLC_LOCK : Z := 8.
Definition HTLC_CLAIM : Z := 9.
Definition HTLC_REFUND : Z := 10.
End tx_type.

Definition TYPE_GROUP_CORE : Z := 1.
Definition TYPE_GROUP_SOBJ : Z := 2.
Definition TYPE_GROUP_TOKEN : Z := 3.

Module token.
Definition INIT : Z := 0.
Definition TRANSFER : Z := 1.
Definition MINT : Z := 2.
Definition BURN : Z := 3.
Definition META : Z := 4.
Definition SELL : Z := 5.
Definition BUY : Z := 6.
Definition CANCEL : Z := 7.
Definition LAST : Z := CANCEL.
Definition FLAG_MINTABLE : Z := 1.
Definition FLAG_BURNABLE : Z := 2.
Definition FLAG_FROZEN_CAP : Z := 4.
Definition TICKER_SOBJ_TYPE : Z := 5.
Definition MAX_DECIMALS : Z := 8.
Definition MAX_MEMO : Z := 64.
Definition META_MAX_NAME : Z := 64.
Definition META_MAX_DESCRIPTION : Z := 512.
Definition META_MAX_WEBSITE : Z := 128.
Definition META_MAX_LOGO : Z := 8192.
Definition LOGO_NONE : Z := 0.
Definition LOGO_SVG : Z := 1.
Definition LOGO_PNG : Z := 2.
End token.

(** ** Assets *)

Record TokenMeta : Type := mkMeta {
  tm_name : string;
  tm_description : option string;
  tm_website : option string;
  tm_logo_type : option string;
  tm_logo : option string
}.

Record TokenTransferItem : Type := mkItem {
  ti_recipient_id : string;
  ti_amount : Z
}.

Record TokenAsset : Type := mkToken {
  ta_id : string;
  ta_decimals : option Z;
  ta_flags : option Z;
  ta_initial_supply : option Z;
  ta_supply_cap : option Z;
  ta_transfers : option (list TokenTransferItem);
  ta_memo : option string;
  ta_amount : option Z;
  ta_recipient_id : option string;
  ta_meta : option TokenMeta;
  ta_price : option Z;
  ta_order_id : option string
}.

Module sobj.
Definition TYPE : Z := 6.
Definition ACTION_REGISTER : Z := 0.
Definition ACTION_UPDATE : Z := 1.
Definition ACTION_RESIGN : Z := 2.
Definition ACTION_TRANSFER : Z := 3.
Definition ACTION_SELL : Z := 4.
Definition ACTION_BUY : Z := 5.
Definition TYPE_DELEGATE : Z := 4.
Definition TYPE_SERVICE_NODE : Z := 7.
Definition FEE_REGISTER : Z := 5000000000.
Definition FEE_UPDATE : Z := 500000000.
Definition FEE_RESIGN : Z := 500000000.
Definition FEE_TRANSFER : Z := 500000000.
Definition FEE_SELL : Z := 100000000.
Definition FEE_BUY : Z := 100000000.

  (** Exact static fee of an action. *)
Definition static_fee (action : Z) : option Z :=
    if action =? ACTION_REGISTER then Some FEE_REGISTER
    else if action =? ACTION_UPDATE then Some FEE_UPDATE
    else if action =? ACTION_RESIGN then Some FEE_RESIGN
    else if action =? ACTION_TRANSFER then Some FEE_TRANSFER
    else if action =? ACTION_SELL then Some FEE_SELL
    else if action =? ACTION_BUY then Some FEE_BUY
    else None.
End sobj.

Record SmartObjectData : Type := mkSobjData {
  sd_name : option string;
  sd_ntfry_data : option string
}.

Record SmartObjectAsset : Type := mkSobjAsset {
  sa_type_ : Z;
  sa_sub_type : Z;
  sa_action : Z;
  sa_registration_id : option string;
  sa_recipient_id : option string;
  sa_price : option Z;
  sa_data : SmartObjectData
}.

Record PqSignatureBlock : Type := mkPqBlock {
  pb_algorithm : Z;
  pb_signature : string
}.

Record DelegateAsset : Type := mkDelegate { da_username : string }.

Record SecondSignatureAsset : Type := mkSecondSig {
  ss_public_key : string;
  ss_algorithm : option Z
}.

Record MultiSignatureAsset : Type := mkMultiSig {
  ms_min : Z;
  ms_public_keys : list string
}.

Record Payment : Type := mkPayment {
  p_amount : Z;
  p_recipient_id : string
}.

Record HtlcExpiration : Type := mkExpiration {
  he_type_ : Z;
  he_value : Z
}.

Record HtlcLockAsset : Type := mkLockAsset {
  hl_secret_hash : string;
  hl_expiration : HtlcExpiration
}.

Record HtlcClaimAsset : Type := mkClaim {
  hc_lock_transaction_id : string;
  hc_unlock_secret : string
}.

Record HtlcRefundAsset : Type := mkRefund { hr_lock_transaction_id : string }.

(** [serde_json::Value]: the JSON tree the [extra] keys of an asset are kept in. *)
Inductive Value : Type :=
| VNull
| VBool (b : bool)
| VNumber (n : Z)
| VFloat (repr : string)
| VString (s : string)
| VArray (l : list Value)
| VObject (l : list (string * Value)).

(** [pub struct TransactionAsset]; [extra] holds the keys serde does not know, verbatim. *)
Record TransactionAsset : Type := mkAsset {
  as_votes : option (list string);
  as_delegate : option DelegateAsset;
  as_signature : option SecondSignatureAsset;
  as_multi_signature : option MultiSignatureAsset;
  as_payments : option (list Payment);
  as_ipfs : option string;
  as_lock : option HtlcLockAsset;
  as_claim : option HtlcClaimAsset;
  as_refund : option HtlcRefundAsset;
  as_extra : gmap string Value
}.

Definition as_set_votes (v : option (list string)) (r : TransactionAsset) : TransactionAsset :=
    mkAsset v r.(as_delegate) r.(as_signature) r.(as_multi_signature) r.(as_payments) r.(as_ipfs)
    r.(as_lock) r.(as_claim) r.(as_refund) r.(as_extra).

Definition as_set_delegate (v : option DelegateAsset) (r : TransactionAsset) : TransactionAsset :=
    mkAsset r.(as_votes) v r.(as_signature) r.(as_multi_signature) r.(as_payments) r.(as_ipfs)
    r.(as_lock) r.(as_claim) r.(as_refund) r.(as_extra).

Definition as_set_signature (v : option SecondSignatureAsset) (r : TransactionAsset) : TransactionAsset :=
    mkAsset r.(as_votes) r.(as_delegate) v r.(as_multi_signature) r.(as_payments) r.(as_ipfs)
    r.(as_lock) r.(as_claim) r.(as_refund) r.(as_extra).

Definition as_set_multi_signature (v : option MultiSignatureAsset) (r : TransactionAsset) : TransactionAsset :=
    mkAsset r.(as_votes) r.(as_delegate) r.(as_signature) v r.(as_payments) r.(as_ipfs)
    r.(as_lock) r.(as_claim) r.(as_refund) r.(as_extra).

Definition as_set_payments (v : option (list Payment)) (r : TransactionAsset) : TransactionAsset :=
    mkAsset r.(as_votes) r.(as_delegate) r.(as_signature) r.(as_multi_signature) v r.(as_ipfs)
    r.(as_lock) r.(as_claim) r.(as_refund) r.(as_extra).

Definition as_set_ipfs (v : option string) (r : TransactionAsset) : TransactionAsset :=
    mkAsset r.(as_votes) r.(as_delegate) r.(as_signature) r.(as_multi_signature) r.(as_payments) v
    r.(as_lock) r.(as_claim) r.(as_refund) r.(as_extra).

Definition as_set_lock (v : option HtlcLockAsset) (r : TransactionAsset) : TransactionAsset :=
    mkAsset r.(as_votes) r.(as_delegate) r.(as_signature) r.(as_multi_signature) r.(as_payments)
    r.(as_ipfs) v r.(as_claim) r.(as_refund) r.(as_extra).

Definition as_set_claim (v : option HtlcClaimAsset) (r : TransactionAsset) : TransactionAsset :=
    mkAsset r.(as_votes) r.(as_delegate) r.(as_signature) r.(as_multi_signature) r.(as_payments)
    r.(as_ipfs) r.(as_lock) v r.(as_refund) r.(as_extra).

Definition as_set_refund (v : option HtlcRefundAsset) (r : TransactionAsset) : TransactionAsset :=
    mkAsset r.(as_votes) r.(as_delegate) r.(as_signature) r.(as_multi_signature) r.(as_payments)
    r.(as_ipfs) r.(as_lock) r.(as_claim) v r.(as_extra).

Definition as_set_extra (v : gmap string Value) (r : TransactionAsset) : TransactionAsset :=
    mkAsset r.(as_votes) r.(as_delegate) r.(as_signature) r.(as_multi_signature) r.(as_payments)
    r.(as_ipfs) r.(as_lock) r.(as_claim) r.(as_refund) v.

(** [TransactionAsset::default()]. *)
Definition asset_default : TransactionAsset :=
  mkAsset None None None None None None None None None ∅.

(** ** Transactions *)

Definition VERSION_PQ : Z := 3.

(** [pub struct Transaction]: the JSON mirror of the legacy [ITransactionData]. *)
Record Transaction : Type := mkTx {
  tx_version : Z;
  tx_network : option Z;
  tx_type_group : Z;
  tx_type_ : Z;
  tx_nonce : option Z;
  tx_sender_public_key : string;
  tx_fee : Z;
  tx_amount : Z;
  tx_vendor_field : option string;
  tx_expiration : option Z;
  tx_recipient_id : option string;
  tx_asset : option TransactionAsset;
  tx_signature : option string;
  tx_second_signature : option string;
  tx_sign_signature : option string;
  tx_signatures : option (list string);
  tx_second_signatures : option (list PqSignatureBlock);
  tx_timestamp : option Z;
  tx_id : option string;
  tx_block_id : option string;
  tx_block_height : option Z;
  tx_sequence : option Z
}.

Definition tx_set_amount (v : Z) (r : Transaction) : Transaction :=
    mkTx r.(tx_version) r.(tx_network) r.(tx_type_group) r.(tx_type_) r.(tx_nonce)
    r.(tx_sender_public_key) r.(tx_fee) v r.(tx_vendor_field) r.(tx_expiration)
    r.(tx_recipient_id) r.(tx_asset) r.(tx_signature) r.(tx_second_signature)
    r.(tx_sign_signature) r.(tx_signatures) r.(tx_second_signatures) r.(tx_timestamp) r.(tx_id)
    r.(tx_block_id) r.(tx_block_height) r.(tx_sequence).

Definition tx_set_vendor_field (v : option string) (r : Transaction) : Transaction :=
    mkTx r.(tx_version) r.(tx_network) r.(tx_type_group) r.(tx_type_) r.(tx_nonce)
    r.(tx_sender_public_key) r.(tx_fee) r.(tx_amount) v r.(tx_expiration) r.(tx_recipient_id)
    r.(tx_asset) r.(tx_signature) r.(tx_second_signature) r.(tx_sign_signature) r.(tx_signatures)
    r.(tx_second_signatures) r.(tx_timestamp) r.(tx_id) r.(tx_block_id) r.(tx_block_height)
    r.(tx_sequence).

Definition tx_set_expiration (v : option Z) (r : Transaction) : Transaction :=
    mkTx r.(tx_version) r.(tx_network) r.(tx_type_group) r.(tx_type_) r.(tx_nonce)
    r.(tx_sender_public_key) r.(tx_fee) r.(tx_amount) r.(tx_vendor_field) v r.(tx_recipient_id)
    r.(tx_asset) r.(tx_signature) r.(tx_second_signature) r.(tx_sign_signature) r.(tx_signatures)
    r.(tx_second_signatures) r.(tx_timestamp) r.(tx_id) r.(tx_block_id) r.(tx_block_height)
    r.(tx_sequence).

Definition tx_set_recipient_id (v : option string) (r : Transaction) : Transaction :=
    mkTx r.(tx_version) r.(tx_network) r.(tx_type_group) r.(tx_type_) r.(tx_nonce)
    r.(tx_sender_public_key) r.(tx_fee) r.(tx_amount) r.(tx_vendor_field) r.(tx_expiration) v
    r.(tx_asset) r.(tx_signature) r.(tx_second_signature) r.(tx_sign_signature) r.(tx_signatures)
    r.(tx_second_signatures) r.(tx_timestamp) r.(tx_id) r.(tx_block_id) r.(tx_block_height)
    r.(tx_sequence).

Definition tx_set_asset (v : option TransactionAsset) (r : Transaction) : Transaction :=
    mkTx r.(tx_version) r.(tx_network) r.(tx_type_group) r.(tx_type_) r.(tx_nonce)
    r.(tx_sender_public_key) r.(tx_fee) r.(tx_amount) r.(tx_vendor_field) r.(tx_expiration)
    r.(tx_recipient_id) v r.(tx_signature) r.(tx_second_signature) r.(tx_sign_signature)
    r.(tx_signatures) r.(tx_second_signatures) r.(tx_timestamp) r.(tx_id) r.(tx_block_id)
    r.(tx_block_height) r.(tx_sequence).

Definition tx_set_signature (v : option string) (r : Transaction) : Transaction :=
    mkTx r.(tx_version) r.(tx_network) r.(tx_type_group) r.(tx_type_) r.(tx_nonce)
    r.(tx_sender_public_key) r.(tx_fee) r.(tx_amount) r.(tx_vendor_field) r.(tx_expiration)
    r.(tx_recipient_id) r.(tx_asset) v r.(tx_second_signature) r.(tx_sign_signature)
    r.(tx_signatures) r.(tx_second_signatures) r.(tx_timestamp) r.(tx_id) r.(tx_block_id)
    r.(tx_block_height) r.(tx_sequence).

Definition tx_set_second_signature (v : option string) (r : Transaction) : Transaction :=
    mkTx r.(tx_version) r.(tx_network) r.(tx_type_group) r.(tx_type_) r.(tx_nonce)
    r.(tx_sender_public_key) r.(tx_fee) r.(tx_amount) r.(tx_vendor_field) r.(tx_expiration)
    r.(tx_recipient_id) r.(tx_asset) r.(tx_signature) v r.(tx_sign_signature) r.(tx_signatures)
    r.(tx_second_signatures) r.(tx_timestamp) r.(tx_id) r.(tx_block_id) r.(tx_block_height)
    r.(tx_sequence).

Definition tx_set_signatures (v : option (list string)) (r : Transaction) : Transaction :=
    mkTx r.(tx_version) r.(tx_network) r.(tx_type_group) r.(tx_type_) r.(tx_nonce)
    r.(tx_sender_public_key) r.(tx_fee) r.(tx_amount) r.(tx_vendor_field) r.(tx_expiration)
    r.(tx_recipient_id) r.(tx_asset) r.(tx_signature) r.(tx_second_signature)
    r.(tx_sign_signature) v r.(tx_second_signatures) r.(tx_timestamp) r.(tx_id) r.(tx_block_id)
    r.(tx_block_height) r.(tx_sequence).

Definition tx_set_second_signatures (v : option (list PqSignatureBlock)) (r : Transaction) : Transaction :=
    mkTx r.(tx_version) r.(tx_network) r.(tx_type_group) r.(tx_type_) r.(tx_nonce)
    r.(tx_sender_public_key) r.(tx_fee) r.(tx_amount) r.(tx_vendor_field) r.(tx_expiration)
    r.(tx_recipient_id) r.(tx_asset) r.(tx_signature) r.(tx_second_signature)
    r.(tx_sign_signature) r.(tx_signatures) v r.(tx_timestamp) r.(tx_id) r.(tx_block_id)
    r.(tx_block_height) r.(tx_sequence).

Definition tx_set_id (v : option string) (r : Transaction) : Transaction :=
    mkTx r.(tx_version) r.(tx_network) r.(tx_type_group) r.(tx_type_) r.(tx_nonce)
    r.(tx_sender_public_key) r.(tx_fee) r.(tx_amount) r.(tx_vendor_field) r.(tx_expiration)
    r.(tx_recipient_id) r.(tx_asset) r.(tx_signature) r.(tx_second_signature)
    r.(tx_sign_signature) r.(tx_signatures) r.(tx_second_signatures) r.(tx_timestamp) v
    r.(tx_block_id) r.(tx_block_height) r.(tx_sequence).

Definition tx_set_block_id (v : option string) (r : Transaction) : Transaction :=
    mkTx r.(tx_version) r.(tx_network) r.(tx_type_group) r.(tx_type_) r.(tx_nonce)
    r.(tx_sender_public_key) r.(tx_fee) r.(tx_amount) r.(tx_vendor_field) r.(tx_expiration)
    r.(tx_recipient_id) r.(tx_asset) r.(tx_signature) r.(tx_second_signature)
    r.(tx_sign_signature) r.(tx_signatures) r.(tx_second_signatures) r.(tx_timestamp) r.(tx_id) v
    r.(tx_block_height) r.(tx_sequence).

Definition tx_set_block_height (v : option Z) (r : Transaction) : Transaction :=
    mkTx r.(tx_version) r.(tx_network) r.(tx_type_group) r.(tx_type_) r.(tx_nonce)
    r.(tx_sender_public_key) r.(tx_fee) r.(tx_amount) r.(tx_vendor_field) r.(tx_expiration)
    r.(tx_recipient_id) r.(tx_asset) r.(tx_signature) r.(tx_second_signature)
    r.(tx_sign_signature) r.(tx_signatures) r.(tx_second_signatures) r.(tx_timestamp) r.(tx_id)
    r.(tx_block_id) v r.(tx_sequence).

Definition tx_set_sequence (v : option Z) (r : Transaction) : Transaction :=
    mkTx r.(tx_version) r.(tx_network) r.(tx_type_group) r.(tx_type_) r.(tx_nonce)
    r.(tx_sender_public_key) r.(tx_fee) r.(tx_amount) r.(tx_vendor_field) r.(tx_expiration)
    r.(tx_recipient_id) r.(tx_asset) r.(tx_signature) r.(tx_second_signature)
    r.(tx_sign_signature) r.(tx_signatures) r.(tx_second_signatures) r.(tx_timestamp) r.(tx_id)
    r.(tx_block_id) r.(tx_block_height) v.

(** Whether this type carries a vendorField on the wire. *)
Definition has_vendor_field (tx : Transaction) : bool :=
  (tx.(tx_type_group) =? TYPE_GROUP_CORE)
  && ((tx.(tx_type_) =? tx_type.TRANSFER) || (tx.(tx_type_) =? tx_type.MULTI_PAYMENT)
      || (tx.(tx_type_) =? tx_type.HTLC_LOCK)).

(** Second signature under either field name. *)
Definition second_signature_any (tx : Transaction) : option string :=
  match tx.(tx_second_signature) with Some s => Some s | None => tx.(tx_sign_signature) end.

Definition is_pq (tx : Transaction) : bool := tx.(tx_version) =? VERSION_PQ.

Definition pq_blocks (tx : Transaction) : list PqSignatureBlock :=
  default [] tx.(tx_second_signatures).

(** Extra fee of a version-3 transaction: [feePerByte] times the bytes of its signature blocks. *)
Definition pq_surcharge (tx : Transaction) (fee_per_byte : Z) : Z :=
  if negb (is_pq tx) then 0
  else
    let bytes := zsum ((fun b => 3 + slen b.(pb_signature) / 2) <$> pq_blocks tx) in
    sat_mul_u64 fee_per_byte bytes.

Definition is_sobj (tx : Transaction) : bool :=
  (tx.(tx_type_group) =? TYPE_GROUP_SOBJ) && (tx.(tx_type_) =? sobj.TYPE).

Definition is_token (tx : Transaction) : bool :=
  (tx.(tx_type_group) =? TYPE_GROUP_TOKEN) && (tx.(tx_type_) <=? token.LAST).

(** ** Blocks *)

(** [pub struct Block]: header and embedded transactions. *)
Record Block : Type := mkBlock {
  b_id : option string;
  b_version : Z;
  b_timestamp : Z;
  b_previous_block : string;
  b_height : Z;
  b_number_of_transactions : Z;
  b_total_amount : Z;
  b_total_fee : Z;
  b_reward : Z;
  b_payload_length : Z;
  b_payload_hash : string;
  b_generator_public_key : string;
  b_block_signature : option string;
  b_pq_signature : option PqSignatureBlock;
  b_transactions : list Transaction
}.

Definition b_set_id (v : option string) (r : Block) : Block :=
    mkBlock v r.(b_version) r.(b_timestamp) r.(b_previous_block) r.(b_height)
    r.(b_number_of_transactions) r.(b_total_amount) r.(b_total_fee) r.(b_reward)
    r.(b_payload_length) r.(b_payload_hash) r.(b_generator_public_key) r.(b_block_signature)
    r.(b_pq_signature) r.(b_transactions).

Definition b_set_payload_hash (v : string) (r : Block) : Block :=
    mkBlock r.(b_id) r.(b_version) r.(b_timestamp) r.(b_previous_block) r.(b_height)
    r.(b_number_of_transactions) r.(b_total_amount) r.(b_total_fee) r.(b_reward)
    r.(b_payload_length) v r.(b_generator_public_key) r.(b_block_signature) r.(b_pq_signature)
    r.(b_transactions).

Definition b_set_block_signature (v : option string) (r : Block) : Block :=
    mkBlock r.(b_id) r.(b_version) r.(b_timestamp) r.(b_previous_block) r.(b_height)
    r.(b_number_of_transactions) r.(b_total_amount) r.(b_total_fee) r.(b_reward)
    r.(b_payload_length) r.(b_payload_hash) r.(b_generator_public_key) v r.(b_pq_signature)
    r.(b_transactions).

Definition b_set_pq_signature (v : option PqSignatureBlock) (r : Block) : Block :=
    mkBlock r.(b_id) r.(b_version) r.(b_timestamp) r.(b_previous_block) r.(b_height)
    r.(b_number_of_transactions) r.(b_total_amount) r.(b_total_fee) r.(b_reward)
    r.(b_payload_length) r.(b_payload_hash) r.(b_generator_public_key) r.(b_block_signature) v
    r.(b_transactions).

Definition b_set_transactions (v : list Transaction) (r : Block) : Block :=
    mkBlock r.(b_id) r.(b_version) r.(b_timestamp) r.(b_previous_block) r.(b_height)
    r.(b_number_of_transactions) r.(b_total_amount) r.(b_total_fee) r.(b_reward)
    r.(b_payload_length) r.(b_payload_hash) r.(b_generator_public_key) r.(b_block_signature)
    r.(b_pq_signature) v.

Definition BLOCK_VERSION_PQ : Z := 1.

(** Header copy without transactions ([Block::header]). *)
Definition b_header (b : Block) : Block := b_set_transactions [] b.

(** ** Facts shared by the components *)

Lemma is_sobj_group tx : is_sobj tx = true -> tx.(tx_type_group) = TYPE_GROUP_SOBJ /\ tx.(tx_type_) = sobj.TYPE.
Proof. unfold is_sobj. rewrite andb_true_iff, !Z.eqb_eq. done. Qed.

Lemma is_token_group tx : is_token tx = true -> tx.(tx_type_group) = TYPE_GROUP_TOKEN.
Proof. unfold is_token. rewrite andb_true_iff, Z.eqb_eq. tauto. Qed.

Lemma core_not_sobj tx : tx.(tx_type_group) = TYPE_GROUP_CORE -> is_sobj tx = false.
Proof. unfold is_sobj. intros ->. done. Qed.

Lemma core_not_token tx : tx.(tx_type_group) = TYPE_GROUP_CORE -> is_token tx = false.
Proof. unfold is_token. intros ->. done. Qed.

Lemma token_not_sobj tx : is_token tx = true -> is_sobj tx = false.
Proof. intros H. apply is_token_group in H. unfold is_sobj. rewrite H. done. Qed.

Lemma pq_surcharge_range tx f : 0 <= f -> in_u64 (pq_surcharge tx f).
Proof.
  intros Hf. unfold pq_surcharge. destruct (negb (is_pq tx)); [bounds; lia|].
  assert (0 <= zsum ((fun b => 3 + slen b.(pb_signature) / 2) <$> pq_blocks tx)).
  { apply zsum_nonneg, Forall_fmap, Forall_true. intros b. cbn.
    assert (0 <= slen b.(pb_signature) / 2) by (apply Z.div_pos; unfold slen; lia). lia. }
  bounds. nia.
Qed.

#[export] Hint Resolve core_not_sobj core_not_token token_not_sobj : sth.
