(* ===== verification/Env.v ===== *)
(** * Third-party code

    The crate calls hashing ([sha2], [ripemd]), text codecs ([hex], [bs58], [base64]), elliptic
    curve arithmetic ([k256]), ML-DSA ([ml_dsa]) and serde's derived JSON codecs.  None of that code
    is in the repository, so it enters the model as the operations of the class [Env]; the
    documented behaviour the proofs rely on is the class [EnvLaws].  [TestEnv] is a concrete
    instance that satisfies every law; the witnesses of the development evaluate in it. *)

From S2P Require Import Prelude Models.

Class Env : Type := {
  (** [hex::decode] / [hex::encode] *)
  hex_decode : string -> option (list byte);
  hex_encode : list byte -> string;
  (** [Sha256::digest], [Ripemd160::digest] *)
  sha256 : list byte -> list byte;
  ripemd160 : list byte -> list byte;
  (** [bs58::encode(..).with_check()], [bs58::decode(..).with_check(None)], and without check *)
  b58check_encode : list byte -> string;
  b58check_decode : string -> option (list byte);
  b58_encode : list byte -> string;
  b58_decode : string -> option (list byte);
  (** [base64::engine::general_purpose::STANDARD] *)
  base64_encode : list byte -> string;
  base64_decode : string -> option (list byte);
  (** [String::from_utf8], [String::from_utf8_lossy], [str::to_lowercase] *)
  from_utf8 : list byte -> option string;
  from_utf8_lossy : list byte -> string;
  to_lowercase : string -> string;
  (** [k256::ecdsa]: parse a DER signature, low-S test, parse a SEC1 key, verify a prehash *)
  ecdsa_from_der : list byte -> option (list byte);
  ecdsa_is_low_s : list byte -> bool;
  secp_public_key : list byte -> option (list byte);
  ecdsa_verify_prehash : list byte -> list byte -> list byte -> bool;
  (** [k256] field arithmetic behind the bip-schnorr check: canonical field element, canonical
      non-zero scalar, quadratic residue, and [s*G - e*A] as affine coordinates *)
  secp_field_ok : list byte -> bool;
  secp_scalar_ok : list byte -> bool;
  secp_is_qr : list byte -> bool;
  secp_lincomb : list byte -> list byte -> list byte -> option (list byte * list byte);
  (** [k256]: public key of a private key, sum of points (none at the identity) *)
  secp_derive : list byte -> option (list byte);
  secp_sum : list (list byte) -> option (list byte);
  (** [ml_dsa]: decode a signature, verify under a context string *)
  mldsa_decode : list byte -> option (list byte);
  mldsa_verify : list byte -> list byte -> list byte -> list byte -> bool;
  (** serde-derived JSON codecs of the two assets kept in the [extra] map *)
  token_from_value : Value -> option TokenAsset;
  token_to_value : TokenAsset -> Value;
  sobj_from_map : gmap string Value -> option SmartObjectAsset;
  sobj_into_map : SmartObjectAsset -> gmap string Value
}.

(** Well-formed UTF-8: what every Rust [String] is. *)
Class EnvLaws (E : Env) : Prop := {
  hex_decode_encode : forall b, hex_decode (hex_encode b) = Some b;
  hex_encode_length : forall b, String.length (hex_encode b) = (2 * length b)%nat;
  b58check_decode_encode : forall b, b58check_decode (b58check_encode b) = Some b;
  b58_decode_encode : forall b, b58_decode (b58_encode b) = Some b;
  base64_decode_encode : forall b, base64_decode (base64_encode b) = Some b;
  base64_encode_decode : forall s b, base64_decode s = Some b -> base64_encode b = s;
  sha256_length : forall b, length (sha256 b) = 32%nat;
  ripemd160_length : forall b, length (ripemd160 b) = 20%nat;
  from_utf8_bytes : forall b s, from_utf8 b = Some s -> b = bytes_of s;
  from_utf8_lossy_ok : forall b s, from_utf8 b = Some s -> from_utf8_lossy b = s;
  from_utf8_ascii : forall s, str_forall (fun c => c <? 128) s = true -> from_utf8 (bytes_of s) = Some s;
  token_value_roundtrip : forall a, token_from_value (token_to_value a) = Some a;
  sobj_map_roundtrip : forall a, sobj_from_map (sobj_into_map a) = Some a
}.

Section canonical.
  Context `{E : Env}.

  (** Text forms the wire decoder produces: lower-case hex of a fixed number of bytes, a checked
      21-byte address, a UTF-8 string. *)
Definition hex_str (n : nat) (s : string) : Prop :=
    exists b, length b = n /\ s = hex_encode b.
Definition hex_any (s : string) : Prop := exists b, s = hex_encode b.
Definition addr_str (s : string) : Prop :=
    exists b, length b = 21%nat /\ s = b58check_encode b.
Definition utf8_str (s : string) : Prop := from_utf8 (bytes_of s) = Some s.

  Context `{L : !EnvLaws E}.

Lemma hex_str_any n s : hex_str n s -> hex_any s.
  Proof. intros (b & _ & ->). by exists b. Qed.

Lemma hex_encode_inj b1 b2 : hex_encode b1 = hex_encode b2 -> b1 = b2.
  Proof. intros H. apply (f_equal hex_decode) in H. rewrite !hex_decode_encode in H. congruence. Qed.

Lemma hex_str_slen n s : hex_str n s -> slen s = 2 * Z.of_nat n.
  Proof. intros (b & <- & ->). unfold slen. rewrite hex_encode_length. lia. Qed.

Lemma utf8_str_lossy s : utf8_str s -> from_utf8_lossy (bytes_of s) = s.
  Proof. intros H. by apply from_utf8_lossy_ok. Qed.
End canonical.

(** ** A concrete environment

    Hex is written out; base58 and base64 are stood for by the same injective text form, the
    digests by a fixed-length projection, and the JSON codecs by an explicit tree.  The laws are
    proved below, so every hypothesis on [Env] in this development is satisfiable. *)

Module TestEnv.
Definition nib (n : Z) : ascii :=
    Ascii.ascii_of_N (Z.to_N (if n <? 10 then 48 + n else 87 + n)).
Definition unnib (a : ascii) : option Z :=
    let c := Z.of_N (Ascii.N_of_ascii a) in
    if (48 <=? c) && (c <=? 57) then Some (c - 48)
    else if (97 <=? c) && (c <=? 102) then Some (c - 87)
    else if (65 <=? c) && (c <=? 70) then Some (c - 55)
    else None.

Definition byte_z (b : byte) : Z := Z.of_N (Byte.to_N b).
Definition z_byte (z : Z) : byte := default x00 (Byte.of_N (Z.to_N z)).

Fixpoint enc (b : list byte) : string :=
    match b with
    | [] => EmptyString
    | x :: b => String (nib (byte_z x / 16)) (String (nib (byte_z x mod 16)) (enc b))
    end.

Fixpoint dec (s : string) : option (list byte) :=
    match s with
    | EmptyString => Some []
    | String _ EmptyString => None
    | String h (String l s) =>
        match unnib h, unnib l, dec s with
        | Some h, Some l, Some b => Some (z_byte (16 * h + l) :: b)
        | _, _, _ => None
        end
    end.

Definition utf8 (b : list byte) : option string :=
    if forallb (fun x => byte_z x <? 128) b then Some (str_of b) else None.

Fixpoint lower (s : string) : string :=
    match s with
    | EmptyString => EmptyString
    | String a s =>
        let c := Z.of_N (Ascii.N_of_ascii a) in
        String (if is_upper c then Ascii.ascii_of_N (Z.to_N (c + 32)) else a) (lower s)
    end.

Definition fixed (n : nat) (b : list byte) : list byte := take n (b ++ replicate n x00).

Definition v_opt {A} (f : A -> Value) (o : option A) : Value :=
    match o with Some x => VArray [f x] | None => VNull end.
Definition u_opt {A} (f : Value -> option A) (v : Value) : option (option A) :=
    match v with
    | VNull => Some None
    | VArray [x] => match f x with Some a => Some (Some a) | None => None end
    | _ => None
    end.
Definition u_str (v : Value) : option string := match v with VString s => Some s | _ => None end.
Definition u_num (v : Value) : option Z := match v with VNumber n => Some n | _ => None end.

Definition v_item (i : TokenTransferItem) : Value :=
    VArray [VString i.(ti_recipient_id); VNumber i.(ti_amount)].
Definition u_item (v : Value) : option TokenTransferItem :=
    match v with VArray [VString r; VNumber n] => Some (mkItem r n) | _ => None end.
Fixpoint u_items (l : list Value) : option (list TokenTransferItem) :=
    match l with
    | [] => Some []
    | v :: l => match u_item v, u_items l with Some i, Some rest => Some (i :: rest) | _, _ => None end
    end.
Definition v_items (l : list TokenTransferItem) : Value := VArray (v_item <$> l).
Definition u_items_v (v : Value) : option (list TokenTransferItem) :=
    match v with VArray l => u_items l | _ => None end.

Definition v_meta (m : TokenMeta) : Value :=
    VArray [VString m.(tm_name); v_opt VString m.(tm_description); v_opt VString m.(tm_website);
            v_opt VString m.(tm_logo_type); v_opt VString m.(tm_logo)].
Definition u_meta (v : Value) : option TokenMeta :=
    match v with
    | VArray [VString n; d; w; t; l] =>
        match u_opt u_str d, u_opt u_str w, u_opt u_str t, u_opt u_str l with
        | Some d, Some w, Some t, Some l => Some (mkMeta n d w t l)
        | _, _, _, _ => None
        end
    | _ => None
    end.

Definition tok_to (a : TokenAsset) : Value :=
    VArray [VString a.(ta_id); v_opt VNumber a.(ta_decimals); v_opt VNumber a.(ta_flags);
            v_opt VNumber a.(ta_initial_supply); v_opt VNumber a.(ta_supply_cap);
            v_opt v_items a.(ta_transfers); v_opt VString a.(ta_memo); v_opt VNumber a.(ta_amount);
            v_opt VString a.(ta_recipient_id); v_opt v_meta a.(ta_meta);
            v_opt VNumber a.(ta_price); v_opt VString a.(ta_order_id)].
Definition tok_from (v : Value) : option TokenAsset :=
    match v with
    | VArray [VString i; d; f; s; c; t; m; a; r; me; p; o] =>
        match u_opt u_num d, u_opt u_num f, u_opt u_num s, u_opt u_num c, u_opt u_items_v t,
              u_opt u_str m, u_opt u_num a, u_opt u_str r, u_opt u_meta me, u_opt u_num p,
              u_opt u_str o with
        | Some d, Some f, Some s, Some c, Some t, Some m, Some a, Some r, Some me, Some p, Some o =>
            Some (mkToken i d f s c t m a r me p o)
        | _, _, _, _, _, _, _, _, _, _, _ => None
        end
    | _ => None
    end.

Definition sobj_to (a : SmartObjectAsset) : gmap string Value :=
    {[ "sobj"%string := VArray [VNumber a.(sa_type_); VNumber a.(sa_sub_type); VNumber a.(sa_action);
         v_opt VString a.(sa_registration_id); v_opt VString a.(sa_recipient_id);
         v_opt VNumber a.(sa_price); v_opt VString a.(sa_data).(sd_name);
         v_opt VString a.(sa_data).(sd_ntfry_data)] ]}.
Definition sobj_from (m : gmap string Value) : option SmartObjectAsset :=
    match m !! "sobj"%string with
    | Some (VArray [VNumber t; VNumber st; VNumber ac; reg; rc; pr; nm; nd]) =>
        match u_opt u_str reg, u_opt u_str rc, u_opt u_num pr, u_opt u_str nm, u_opt u_str nd with
        | Some reg, Some rc, Some pr, Some nm, Some nd =>
            Some (mkSobjAsset t st ac reg rc pr (mkSobjData nm nd))
        | _, _, _, _, _ => None
        end
    | _ => None
    end.

Definition env : Env := {|
    hex_decode := dec; hex_encode := enc;
    sha256 := fixed 32; ripemd160 := fun b => fixed 20 (drop 1 b);
    b58check_encode := enc; b58check_decode := dec;
    b58_encode := enc; b58_decode := dec;
    base64_encode := str_of; base64_decode := fun s => Some (bytes_of s);
    from_utf8 := utf8; from_utf8_lossy := str_of; to_lowercase := lower;
    ecdsa_from_der := fun b => Some b; ecdsa_is_low_s := fun _ => true;
    secp_public_key := fun b => Some b; ecdsa_verify_prehash := fun _ _ _ => true;
    secp_field_ok := fun _ => true; secp_scalar_ok := fun _ => true; secp_is_qr := fun _ => true;
    secp_lincomb := fun s _ _ => Some (s, s);
    secp_derive := fun b => if (length b =? 32)%nat then Some (x02 :: b) else None; secp_sum := fun l => head l;
    mldsa_decode := fun b => Some b; mldsa_verify := fun _ _ _ _ => true;
    token_from_value := tok_from; token_to_value := tok_to;
    sobj_from_map := sobj_from; sobj_into_map := sobj_to
  |}.

Lemma unnib_nib n : 0 <= n < 16 -> unnib (nib n) = Some n.
  Proof.
    intros Hn. unfold unnib, nib. destruct (Z.ltb_spec n 10).
    - rewrite Ascii.N_ascii_embedding by lia. rewrite Z2N.id by lia.
      destruct (Z.leb_spec 48 (48 + n)), (Z.leb_spec (48 + n) 57); try lia. cbn. f_equal. lia.
    - rewrite Ascii.N_ascii_embedding by lia. rewrite Z2N.id by lia.
      destruct (Z.leb_spec 48 (87 + n)), (Z.leb_spec (87 + n) 57); try lia. cbn.
      destruct (Z.leb_spec 97 (87 + n)), (Z.leb_spec (87 + n) 102); try lia. cbn. f_equal. lia.
  Qed.

Lemma byte_z_range b : 0 <= byte_z b < 256.
  Proof. unfold byte_z. pose proof (Byte.to_N_bounded b). lia. Qed.

Lemma z_byte_byte_z b : z_byte (byte_z b) = b.
  Proof. unfold z_byte, byte_z. rewrite N2Z.id, Byte.of_to_N. done. Qed.

Lemma dec_enc b : dec (enc b) = Some b.
  Proof.
    induction b as [|x b IH]; [done|]. cbn [enc dec].
    pose proof (byte_z_range x). pose proof (Z.div_mod (byte_z x) 16).
    pose proof (Z.mod_pos_bound (byte_z x) 16).
    rewrite !unnib_nib, IH by (split; [try apply Z.div_pos|try apply Z.div_lt_upper_bound]; lia).
    replace (16 * (byte_z x / 16) + byte_z x mod 16) with (byte_z x) by lia.
    by rewrite z_byte_byte_z.
  Qed.

Lemma enc_length b : String.length (enc b) = (2 * length b)%nat.
  Proof. induction b; cbn in *; lia. Qed.

Lemma fixed_length n b : length (fixed n b) = n.
  Proof. unfold fixed. rewrite length_take, length_app, length_replicate. lia. Qed.

Lemma u_v_opt {A} (f : A -> Value) (g : Value -> option A) o :
    (forall a, g (f a) = Some a) -> u_opt g (v_opt f o) = Some o.
  Proof. intros H. destruct o; cbn; [by rewrite H|done]. Qed.

Lemma u_v_items l : u_items_v (v_items l) = Some l.
  Proof. cbn. induction l as [|[r n] l IH]; cbn in *; [done|]. by rewrite IH. Qed.

Lemma u_v_meta m : u_meta (v_meta m) = Some m.
  Proof. destruct m. cbn. by rewrite !u_v_opt by done. Qed.

Lemma tok_roundtrip a : tok_from (tok_to a) = Some a.
  Proof.
    destruct a. cbn. by rewrite !u_v_opt by (done || apply u_v_items || apply u_v_meta).
  Qed.

Lemma sobj_roundtrip a : sobj_from (sobj_to a) = Some a.
  Proof.
    unfold sobj_from, sobj_to. rewrite lookup_singleton_eq.
    destruct a as [? ? ? ? ? ? []]. cbn. by rewrite !u_v_opt by done.
  Qed.

Lemma utf8_ascii s : str_forall (fun c => c <? 128) s = true -> utf8 (bytes_of s) = Some s.
  Proof.
    intros H. unfold utf8. enough (forallb (fun x => byte_z x <? 128) (bytes_of s) = true) as ->.
    { by rewrite str_of_bytes_of. }
    induction s as [|a s IH]; [done|]. cbn [str_forall] in H.
    apply andb_true_iff in H as [Ha Hs].
    change (bytes_of (String a s)) with (Ascii.byte_of_ascii a :: bytes_of s).
    cbn [forallb]. rewrite (IH Hs), andb_true_r.
    unfold byte_z. enough (Byte.to_N (Ascii.byte_of_ascii a) = Ascii.N_of_ascii a) as -> by done.
    by destruct a as [[] [] [] [] [] [] [] []].
  Qed.

Lemma laws : EnvLaws env.
  Proof.
    split; cbn.
    - apply dec_enc.
    - apply enc_length.
    - apply dec_enc.
    - apply dec_enc.
    - intros b. f_equal. apply bytes_of_str_of.
    - intros s b [= <-]. apply str_of_bytes_of.
    - apply fixed_length.
    - intros. apply fixed_length.
    - intros b s. unfold utf8. destruct (forallb _ _); [|done]. intros [= <-].
      symmetry. apply bytes_of_str_of.
    - intros b s. unfold utf8. destruct (forallb _ _); [|done]. by intros [= <-].
    - apply utf8_ascii.
    - apply tok_roundtrip.
    - apply sobj_roundtrip.
  Qed.
End TestEnv.
