(* ===== verification/Bytes.v ===== *)
(** * Byte buffers

    [src/src/crypto/bytes.rs]: the little-endian [ByteWriter] and the [ByteReader] cursor, with
    the round trip of every width and the error of a read past the end. *)

From S2P Require Import Prelude Models Env.

(** ** Integers as bytes *)

Definition Z_of_byte (b : byte) : Z := Z.of_N (Byte.to_N b).
(** [x as u8]. *)
Definition byte_of_Z (z : Z) : byte := default x00 (Byte.of_N (Z.to_N (z mod 256))).

(** [to_le_bytes] and [from_le_bytes] of an [n]-byte integer. *)
Fixpoint le_bytes (n : nat) (v : Z) : list byte :=
  match n with O => [] | S n => byte_of_Z v :: le_bytes n (v / 256) end.
Fixpoint le_value (b : list byte) : Z :=
  match b with [] => 0 | x :: b => Z_of_byte x + 256 * le_value b end.

(** [to_be_bytes] and [from_be_bytes]. *)
Definition be_bytes (n : nat) (v : Z) : list byte := rev (le_bytes n v).
Definition be_value (b : list byte) : Z := le_value (rev b).

Lemma Z_of_byte_range b : 0 <= Z_of_byte b < 256.
Proof. unfold Z_of_byte. pose proof (Byte.to_N_bounded b). lia. Qed.

Lemma Z_of_byte_of_Z z : Z_of_byte (byte_of_Z z) = z mod 256.
Proof.
  unfold Z_of_byte, byte_of_Z. pose proof (Z.mod_pos_bound z 256).
  pose proof (Byte.to_of_N_option_map (Z.to_N (z mod 256))) as Ho.
  destruct (N.leb_spec (Z.to_N (z mod 256)) 255); [|lia].
  destruct (Byte.of_N (Z.to_N (z mod 256))) as [b|]; cbn in *; [|discriminate].
  injection Ho as ->. lia.
Qed.

Lemma byte_of_Z_of_byte b : byte_of_Z (Z_of_byte b) = b.
Proof.
  unfold byte_of_Z. rewrite Z.mod_small by apply Z_of_byte_range.
  unfold Z_of_byte. rewrite N2Z.id, Byte.of_to_N. done.
Qed.

Lemma Z_of_byte_inj b1 b2 : Z_of_byte b1 = Z_of_byte b2 -> b1 = b2.
Proof. intros H. rewrite <-(byte_of_Z_of_byte b1), H. apply byte_of_Z_of_byte. Qed.

Lemma le_bytes_length n v : length (le_bytes n v) = n.
Proof. revert v; induction n; intros; cbn; auto. Qed.

Lemma be_bytes_length n v : length (be_bytes n v) = n.
Proof. unfold be_bytes. by rewrite length_rev, le_bytes_length. Qed.

Lemma le_value_bytes n v : le_value (le_bytes n v) = v mod 256 ^ Z.of_nat n.
Proof.
  revert v; induction n as [|n IH]; intros v; cbn [le_bytes le_value].
  - by rewrite Z.mod_1_r.
  - rewrite IH, Z_of_byte_of_Z, Nat2Z.inj_succ, Z.pow_succ_r by lia.
    rewrite Z.rem_mul_r by (try apply Z.pow_pos_nonneg; lia). lia.
Qed.

Lemma le_value_range b : 0 <= le_value b < 256 ^ Z.of_nat (length b).
Proof.
  induction b as [|x b IH]; [cbn; lia|]. cbn [le_value length].
  rewrite Nat2Z.inj_succ, Z.pow_succ_r by lia. pose proof (Z_of_byte_range x). lia.
Qed.

Lemma le_bytes_value b : le_bytes (length b) (le_value b) = b.
Proof.
  induction b as [|x b IH]; [done|]. cbn [le_value length le_bytes].
  pose proof (Z_of_byte_range x). f_equal.
  - rewrite <-(byte_of_Z_of_byte x) at 2. unfold byte_of_Z.
    rewrite Z.mul_comm, Z.mod_add by lia. done.
  - rewrite Z.mul_comm, Z.div_add, (Z.div_small (Z_of_byte x)) by lia.
    rewrite Z.add_0_l. apply IH.
Qed.

Lemma be_value_bytes n v : be_value (be_bytes n v) = v mod 256 ^ Z.of_nat n.
Proof. unfold be_value, be_bytes. rewrite rev_involutive. apply le_value_bytes. Qed.

(** ** The writer *)

Record ByteWriter : Type := mkWriter { w_buf : list byte }.

Definition w_new : ByteWriter := mkWriter [].
Definition w_put (b : list byte) (w : ByteWriter) : ByteWriter := mkWriter (w.(w_buf) ++ b).
Definition w_u8 (v : Z) (w : ByteWriter) : ByteWriter := w_put [byte_of_Z v] w.
Definition w_u16_le (v : Z) (w : ByteWriter) : ByteWriter := w_put (le_bytes 2 v) w.
Definition w_u32_le (v : Z) (w : ByteWriter) : ByteWriter := w_put (le_bytes 4 v) w.
Definition w_u64_le (v : Z) (w : ByteWriter) : ByteWriter := w_put (le_bytes 8 v) w.
Definition w_bytes (b : list byte) (w : ByteWriter) : ByteWriter := w_put b w.
Definition w_into_inner (w : ByteWriter) : list byte := w.(w_buf).

(** [hex::decode(h)?] with the [From<FromHexError>] conversion. *)
Definition hex_dec `{Env} (h : string) : Res (list byte) := ok_or (hex_decode h) EHex.

Definition w_hex `{Env} (h : string) (w : ByteWriter) : Res ByteWriter :=
  let? b := hex_dec h in Ok (w_put b w).

(** ** The reader *)

Record ByteReader : Type := mkReader { r_buf : list byte; r_pos : nat }.

Definition r_new (b : list byte) : ByteReader := mkReader b 0.
Definition r_remaining (r : ByteReader) : nat := (length r.(r_buf) - r.(r_pos))%nat.
Definition r_position (r : ByteReader) : nat := r.(r_pos).

Definition r_bytes (n : nat) (r : ByteReader) : Res (list byte * ByteReader) :=
  if (r_remaining r <? n)%nat
  then Err (ESerialization ("unexpected end of bytes: need " +:+ fmt_u (Z.of_nat n) +:+ " at offset "
              +:+ fmt_u (Z.of_nat r.(r_pos)) +:+ ", have " +:+ fmt_u (Z.of_nat (r_remaining r))))
  else Ok (take n (drop r.(r_pos) r.(r_buf)), mkReader r.(r_buf) (r.(r_pos) + n)).

Definition r_hex `{Env} (n : nat) (r : ByteReader) : Res (string * ByteReader) :=
  let? (b, r) := r_bytes n r in Ok (hex_encode b, r).

Definition r_peek_u8 (ahead : nat) (r : ByteReader) : option Z :=
  Z_of_byte <$> r.(r_buf) !! (r.(r_pos) + ahead)%nat.

Definition r_le (n : nat) (r : ByteReader) : Res (Z * ByteReader) :=
  let? (b, r) := r_bytes n r in Ok (le_value b, r).
Definition r_u8 (r : ByteReader) : Res (Z * ByteReader) := r_le 1 r.
Definition r_u16_le (r : ByteReader) : Res (Z * ByteReader) := r_le 2 r.
Definition r_u32_le (r : ByteReader) : Res (Z * ByteReader) := r_le 4 r.
Definition r_u64_le (r : ByteReader) : Res (Z * ByteReader) := r_le 8 r.

Definition r_rest (r : ByteReader) : list byte * ByteReader :=
  (drop r.(r_pos) r.(r_buf), mkReader r.(r_buf) (length r.(r_buf))).

(** Raw window of the buffer, clamped. *)
Definition r_slice (start stop : nat) (r : ByteReader) : list byte :=
  let stop := Nat.min stop (length r.(r_buf)) in
  let start := Nat.min start stop in
  take (stop - start) (drop start r.(r_buf)).

(** ** Reading what was written

    [rd pre suf] is a cursor that has consumed [pre] and has [suf] ahead: the shape every lemma
    about the decoders is stated in. *)

Definition rd (pre suf : list byte) : ByteReader := mkReader (pre ++ suf) (length pre).

Lemma r_new_rd b : r_new b = rd [] b.
Proof. done. Qed.

Lemma r_remaining_rd pre suf : r_remaining (rd pre suf) = length suf.
Proof. unfold r_remaining, rd. cbn. rewrite length_app. lia. Qed.

Lemma r_bytes_rd n pre b suf :
  length b = n -> r_bytes n (rd pre (b ++ suf)) = Ok (b, rd (pre ++ b) suf).
Proof.
  intros <-. unfold r_bytes. rewrite r_remaining_rd, length_app.
  destruct (Nat.ltb_spec (length b + length suf) (length b)); [lia|].
  unfold rd; cbn. rewrite drop_app_length, take_app_length, length_app, <-app_assoc. done.
Qed.

Lemma r_bytes_short n pre suf :
  (length suf < n)%nat -> exists e, r_bytes n (rd pre suf) = Err (ESerialization e).
Proof.
  intros H. unfold r_bytes. rewrite r_remaining_rd.
  destruct (Nat.ltb_spec (length suf) n); [eauto|lia].
Qed.

(** A successful read splits the buffer at the cursor. *)
Lemma r_bytes_inv n pre suf b r :
  r_bytes n (rd pre suf) = Ok (b, r) ->
  exists suf', suf = b ++ suf' /\ length b = n /\ r = rd (pre ++ b) suf'.
Proof.
  unfold r_bytes. rewrite r_remaining_rd.
  destruct (Nat.ltb_spec (length suf) n); [discriminate|]. intros [= <- <-].
  unfold rd; cbn. rewrite drop_app_length. exists (drop n suf).
  rewrite take_drop, length_take_le by lia. split; [done|]. split; [done|].
  rewrite length_app, length_take_le, <-app_assoc, take_drop by lia. done.
Qed.

Lemma r_le_rd n pre v suf :
  0 <= v < 256 ^ Z.of_nat n ->
  r_le n (rd pre (le_bytes n v ++ suf)) = Ok (v, rd (pre ++ le_bytes n v) suf).
Proof.
  intros Hv. unfold r_le. rewrite r_bytes_rd by apply le_bytes_length. cbn.
  by rewrite le_value_bytes, Z.mod_small.
Qed.

Lemma r_u8_rd pre v suf :
  in_u8 v -> r_u8 (rd pre ([byte_of_Z v] ++ suf)) = Ok (v, rd (pre ++ [byte_of_Z v]) suf).
Proof. intros Hv. apply (r_le_rd 1). bounds. lia. Qed.

Lemma r_u16_rd pre v suf :
  in_u16 v -> r_u16_le (rd pre (le_bytes 2 v ++ suf)) = Ok (v, rd (pre ++ le_bytes 2 v) suf).
Proof. intros Hv. apply r_le_rd. bounds. lia. Qed.

Lemma r_u32_rd pre v suf :
  in_u32 v -> r_u32_le (rd pre (le_bytes 4 v ++ suf)) = Ok (v, rd (pre ++ le_bytes 4 v) suf).
Proof. intros Hv. apply r_le_rd. bounds. lia. Qed.

Lemma r_u64_rd pre v suf :
  in_u64 v -> r_u64_le (rd pre (le_bytes 8 v ++ suf)) = Ok (v, rd (pre ++ le_bytes 8 v) suf).
Proof. intros Hv. apply r_le_rd. bounds. lia. Qed.

Lemma r_hex_rd `{Env} n pre b suf :
  length b = n -> r_hex n (rd pre (b ++ suf)) = Ok (hex_encode b, rd (pre ++ b) suf).
Proof. intros Hn. unfold r_hex. by rewrite r_bytes_rd. Qed.

Lemma r_peek_u8_rd pre b suf : r_peek_u8 0 (rd pre (b :: suf)) = Some (Z_of_byte b).
Proof.
  unfold r_peek_u8, rd; cbn. rewrite Nat.add_0_r.
  by rewrite lookup_app_r, Nat.sub_diag by lia.
Qed.

Lemma r_slice_rd pre b suf :
  r_slice (length pre) (length (pre ++ b)) (rd (pre ++ b) suf) = b.
Proof.
  unfold r_slice, rd; cbn. rewrite !length_app.
  replace (Nat.min (length pre + length b) (length pre + length b + length suf))
    with (length pre + length b)%nat by lia.
  replace (Nat.min (length pre) (length pre + length b)) with (length pre) by lia.
  rewrite <-app_assoc, drop_app_length.
  replace (length pre + length b - length pre)%nat with (length b) by lia.
  apply take_app_length.
Qed.

Lemma hex_dec_encode `{EnvLaws} b : hex_dec (hex_encode b) = Ok b.
Proof. unfold hex_dec. by rewrite hex_decode_encode. Qed.

Lemma w_hex_encode `{EnvLaws} b w : w_hex (hex_encode b) w = Ok (w_put b w).
Proof. unfold w_hex. by rewrite hex_dec_encode. Qed.

Lemma w_put_put a b w : w_put b (w_put a w) = w_put (a ++ b) w.
Proof. unfold w_put. cbn. by rewrite app_assoc. Qed.

Create HintDb wire.
#[export] Hint Rewrite @r_remaining_rd @w_put_put : wire.
