(* ===== verification/Crypto.v ===== *)
(** * Signatures, addresses and typed assets

    The repository's own code around the third-party primitives: the strict DER check and the two
    signature schemes ([src/src/crypto/ecdsa.rs], [schnorr.rs], [mod.rs]), addresses
    ([address.rs], [keys.rs]), ML-DSA verification and the stage-A commitment ([pq.rs]), and the
    typed views of a transaction's asset ([src/src/models/transaction.rs]). *)

From S2P Require Import Prelude Models Env Bytes.

Section crypto.
  Context `{E : Env}.

(** ** ECDSA *)

(** [sig[i]]; the callers below have checked the length. *)
Definition byte_at (b : list byte) (i : nat) : Z := default 0 (Z_of_byte <$> b !! i).
(** [b as i8 < 0]. *)
Definition neg_i8 (z : Z) : bool := 128 <=? z.

Definition der_is_strict (sig : list byte) : bool :=
  if (length sig <? 8)%nat || negb (byte_at sig 0 =? 48) then false else
  let sig_len := byte_at sig 1 in
  let r_len := byte_at sig 3 in
  let n := Z.of_nat (length sig) in
  let s_len_idx := 4 + r_len + 1 in
  if n <=? s_len_idx then false else
  let s_len := byte_at sig (Z.to_nat s_len_idx) in
  if negb (n =? 4 + r_len + 2 + s_len) || negb (sig_len =? 2 + r_len + 2 + s_len) || (127 <? sig_len)
  then false else
  if (r_len =? 0) || (s_len =? 0) then false else
  let r_first := byte_at sig 4 in
  let s_first := byte_at sig (Z.to_nat (4 + r_len + 2)) in
  if neg_i8 r_first || neg_i8 s_first then false else
  if (r_first =? 0) && ((r_len <? 2) || negb (neg_i8 (byte_at sig 5))) then false else
  if (s_first =? 0) && ((s_len <? 2) || negb (neg_i8 (byte_at sig (Z.to_nat (4 + r_len + 3))))) then false
  else true.

Definition verify_ecdsa (hash der_signature : list byte) (public_key_hex : string) : Res bool :=
  if negb (der_is_strict der_signature) then Ok false else
  match ecdsa_from_der der_signature with
  | None => Ok false
  | Some sig =>
      if negb (ecdsa_is_low_s sig) then Ok false else
      let? pk := hex_dec public_key_hex in
      let? vk := ok_or (secp_public_key pk) (EPublicKey "invalid secp256k1 public key") in
      Ok (ecdsa_verify_prehash vk hash sig)
  end.

(** ** Legacy bip-schnorr *)

Definition verify_schnorr_legacy (hash signature : list byte) (public_key_hex : string) : Res bool :=
  if negb (length signature =? 64)%nat then Ok false else
  let r_x := take 32 signature in
  let s_bytes := drop 32 signature in
  if negb (secp_field_ok r_x) then Ok false else
  if negb (secp_scalar_ok s_bytes) then Ok false else
  let? a_comp := hex_dec public_key_hex in
  let? a := ok_or (secp_public_key a_comp) (EPublicKey "invalid secp256k1 public key") in
  let e := sha256 (r_x ++ a_comp ++ hash) in
  match secp_lincomb s_bytes a e with
  | None => Ok false
  | Some (x, y) => if negb (secp_is_qr y) then Ok false else Ok (bool_decide (x = r_x))
  end.

(** 64 raw bytes are schnorr, anything else DER ECDSA. *)
Definition verify_signature (hash : list byte) (signature_hex public_key_hex : string) : Res bool :=
  let? sig := hex_dec signature_hex in
  if (length sig =? 64)%nat
  then verify_schnorr_legacy hash sig public_key_hex
  else verify_ecdsa hash sig public_key_hex.

(** ** Addresses *)

Definition address_from_public_key (public_key_hex : string) (network_byte : Z) : Res string :=
  let? pk := hex_dec public_key_hex in
  if negb (length pk =? 33)%nat
  then Err (EPublicKey ("expected 33-byte compressed key, got " +:+ fmt_u (Z.of_nat (length pk)) +:+ " bytes"))
  else Ok (b58check_encode (byte_of_Z network_byte :: ripemd160 pk)).

Definition address_from_bytes (b : list byte) : string := b58check_encode b.

Definition address_to_bytes (address : string) : Res (list byte) :=
  let? raw := ok_or (b58check_decode address) (EAddress address) in
  if (length raw =? 21)%nat then Ok raw
  else Err (EAddress (address +:+ ": expected 21 bytes, got " +:+ fmt_u (Z.of_nat (length raw)))).

Definition validate_address (address : string) (network_byte : Z) : bool :=
  match address_to_bytes address with
  | Ok b => byte_at b 0 =? network_byte
  | Err _ => false
  end.

(** [KeyPair::from_passphrase(..).public_key_hex()]. *)
Definition public_key_from_passphrase (passphrase : string) : Res string :=
  let? pk := ok_or (secp_derive (sha256 (bytes_of passphrase))) (EPublicKey "private key out of range") in
  Ok (hex_encode pk).

(** Two lower-case hex digits of a byte, [format!("{:02x}")]. *)
Definition fmt_02x (v : Z) : string := hex_encode [byte_of_Z v].

Definition address_from_multi_signature (asset : MultiSignatureAsset) (network_byte : Z) : Res string :=
  let? min_key := public_key_from_passphrase (fmt_02x asset.(ms_min)) in
  let? points := rmapM (fun h => let? b := hex_dec h in
                                 ok_or (secp_public_key b) (EPublicKey h))
                       (min_key :: asset.(ms_public_keys)) in
  let? combined := ok_or (secp_sum points) (EPublicKey "multisig point") in
  address_from_public_key (hex_encode combined) network_byte.

(** ** Quantum Shield *)

Definition ALG_ML_DSA_44 : Z := 1.
Definition PK_LEN : Z := 1312.
Definition SIG_LEN : Z := 2420.
Definition PQ_CTX : list byte := bytes_of "sth-pq-v1".
Definition BLOCK_CTX : list byte := bytes_of "sth-pq-block-v1".
Definition COMMITMENT_PREFIX : string := "sthpq1:".

Definition commitment_hash (public_key : list byte) : list byte := sha256 public_key.
Definition commitment_for_public_key (public_key : list byte) : string :=
  COMMITMENT_PREFIX +:+ fmt_02x ALG_ML_DSA_44 +:+ ":" +:+ hex_encode (commitment_hash public_key).

Definition pq_verify_with_ctx (public_key message signature ctx : list byte) : Res bool :=
  if negb (Z.of_nat (length public_key) =? PK_LEN) || negb (Z.of_nat (length signature) =? SIG_LEN)
  then Ok false
  else match mldsa_decode signature with
       | None => Ok false
       | Some sig => Ok (mldsa_verify public_key message sig ctx)
       end.
Definition pq_verify (public_key message signature : list byte) : Res bool :=
  pq_verify_with_ctx public_key message signature PQ_CTX.

Record PqKey : Type := mkPqKey { pk_algorithm : Z; pk_public_key : string; pk_since : Z }.
Record PqCommitment : Type := mkPqCommitment { pc_algorithm : Z; pc_commitment : string; pc_height : Z }.

(** [u8::from_str_radix(s, 16)]: an optional plus sign, then hex digits, at most 255. *)
Definition hex_digit_value (c : Z) : option Z :=
  if is_digit c then Some (c - 48)
  else if (97 <=? c) && (c <=? 102) then Some (c - 87)
  else if (65 <=? c) && (c <=? 70) then Some (c - 55)
  else None.
Fixpoint hex_digits (s : string) (acc : Z) : option Z :=
  match s with
  | EmptyString => Some acc
  | String a s' => match hex_digit_value (Z.of_N (Ascii.N_of_ascii a)) with
                   | Some d => hex_digits s' (acc * 16 + d)
                   | None => None
                   end
  end.
Definition parse_u8_hex (s : string) : option Z :=
  let digits := match s with
                | String a s' => if Ascii.eqb a (Ascii.ascii_of_N 43) then s' else s
                | EmptyString => s
                end in
  match digits with
  | EmptyString => None
  | _ => match hex_digits digits 0 with
         | Some v => if v <=? u8_max then Some v else None
         | None => None
         end
  end.

Definition colon : ascii := Ascii.ascii_of_N 58.

Definition parse_commitment (vendor_field : string) : option (Z * string) :=
  match strip_prefix COMMITMENT_PREFIX vendor_field with
  | None => None
  | Some rest =>
      match split_once colon rest with
      | None => None
      | Some (alg, hash) =>
          if negb (slen alg =? 2) || negb (slen hash =? 64)
             || negb (str_forall (fun c => is_hexdigit c && negb (is_upper c)) hash)
          then None
          else match parse_u8_hex alg with
               | None => None
               | Some alg => if alg =? ALG_ML_DSA_44 then Some (alg, hash) else None
               end
      end
  end.

(** ** Typed assets *)

(** [asset.token] of a typeGroup-3 transaction. *)
Definition token_asset (tx : Transaction) : option TokenAsset :=
  if negb (is_token tx) then None else
  match tx.(tx_asset) with
  | None => None
  | Some a => match a.(as_extra) !! "token"%string with
              | None => None
              | Some v => token_from_value v
              end
  end.

(** Asset of a SmartObject transaction. *)
Definition sobj_asset (tx : Transaction) : option SmartObjectAsset :=
  if negb (is_sobj tx) then None else
  match tx.(tx_asset) with None => None | Some a => sobj_from_map a.(as_extra) end.

Definition logo_type_byte (m : TokenMeta) : Z :=
  match m.(tm_logo_type) with
  | Some s => if String.eqb s "svg" then token.LOGO_SVG
              else if String.eqb s "png" then token.LOGO_PNG else token.LOGO_NONE
  | None => token.LOGO_NONE
  end.
Definition logo_type_name (b : Z) : option string :=
  if b =? token.LOGO_SVG then Some "svg"%string
  else if b =? token.LOGO_PNG then Some "png"%string else None.
Definition logo_bytes (m : TokenMeta) : option (list byte) :=
  match m.(tm_logo) with None => None | Some l => base64_decode l end.

(** *** SHIP-42 service node pointer *)

Definition SERVICE_ROLES : list string := ["relay"; "seeder"; "messenger"; "microblog"; "provider"]%string.

Record ServiceNode : Type := mkServiceNode {
  sn_roles : list string; sn_api : option string; sn_storage : option Z
}.

(** [v.parse::<u32>()]. *)
Definition parse_u32 (s : string) : option Z :=
  match parse_u64 s with Some v => if v <=? u32_max then Some v else None | None => None end.

Definition service_param (n : ServiceNode) (kv : string) : option ServiceNode :=
  match split_once (Ascii.ascii_of_N 61) kv with
  | None => None
  | Some (k, v) =>
      if String.eqb k "roles" then
        Some (mkServiceNode
                (ascii_lower <$> filter (fun r => r <> EmptyString) (str_split (Ascii.ascii_of_N 44) v))
                n.(sn_api) n.(sn_storage))
      else if String.eqb k "api" then Some (mkServiceNode n.(sn_roles) (Some v) n.(sn_storage))
      else if String.eqb k "storage" then
        match parse_u32 v with
        | Some g => Some (mkServiceNode n.(sn_roles) n.(sn_api) (Some g))
        | None => None
        end
      else None
  end.

Fixpoint service_params (n : ServiceNode) (l : list string) : option ServiceNode :=
  match l with
  | [] => Some n
  | kv :: l => match service_param n kv with Some n => service_params n l | None => None end
  end.

Definition parse_service_node (data : string) : option (string * ServiceNode) :=
  match strip_prefix "iroh://" data with
  | None => None
  | Some rest =>
      let '(id, query) := match split_once (Ascii.ascii_of_N 63) rest with
                          | Some (a, b) => (a, b)
                          | None => (rest, EmptyString)
                          end in
      if negb (slen id =? 64) || negb (str_forall is_hexdigit id) then None else
      match service_params (mkServiceNode [] None None)
              (filter (fun s => s <> EmptyString) (str_split (Ascii.ascii_of_N 38) query)) with
      | None => None
      | Some n =>
          if bool_decide (n.(sn_roles) = [])
             || existsb (fun r => negb (existsb (String.eqb r) SERVICE_ROLES)) n.(sn_roles)
          then None
          else Some (ascii_lower id, n)
      end
  end.

(** ** Facts *)

Context `{L : !EnvLaws E}.

Lemma address_to_bytes_from b : length b = 21%nat -> address_to_bytes (address_from_bytes b) = Ok b.
Proof.
  intros Hb. unfold address_to_bytes, address_from_bytes. rewrite b58check_decode_encode. cbn.
  by rewrite Hb.
Qed.

(** Every derived address is a checked 21-byte address of the network. *)
Lemma address_from_public_key_valid pk net a :
  address_from_public_key pk net = Ok a -> addr_str a /\ (in_u8 net -> validate_address a net = true).
Proof.
  unfold address_from_public_key. intros H. inv_ok. destruct (length _ =? 33)%nat; cbn in H; [|done].
  injection H as <-. split.
  - eexists; split; [|done]. cbn. by rewrite ripemd160_length.
  - intros Hn. unfold validate_address.
    change (b58check_encode ?b) with (address_from_bytes b).
    rewrite address_to_bytes_from by (cbn; by rewrite ripemd160_length).
    cbn. unfold byte_at. cbn. rewrite Z_of_byte_of_Z. apply Z.eqb_eq. bounds.
    apply Z.mod_small. lia.
Qed.

End crypto.

Arguments token_asset {E} tx : simpl never.
Arguments sobj_asset {E} tx : simpl never.
