(* ===== verification/Keys.v ===== *)
(** * Key pairs and signing

    [src/src/crypto/keys.rs], the signing halves of [ecdsa.rs] and [schnorr.rs], and the quantum
    key pair of [pq.rs].  The scalar and signature operations of [k256] and [ml_dsa] are the class
    [Signer]; what their documentation promises is [SignerLaws].  A signature made with a key is
    accepted by the verifiers of [Crypto]. *)

From S2P Require Import Prelude Models Env Bytes Crypto.

(** ** The signing side of the third-party code *)

Class Signer : Type := {
  (** [Scalar::reduce], [Scalar::is_zero], [-k], [k + e * a], [to_bytes] being implicit *)
  scalar_reduce : list byte -> list byte;
  scalar_is_zero : list byte -> bool;
  scalar_neg : list byte -> list byte;
  scalar_mul_add : list byte -> list byte -> list byte -> list byte;
  (** affine coordinates of [k * G], none at infinity *)
  secp_base_mul : list byte -> option (list byte * list byte);
  (** [SigningKey::sign_prehash], [Signature::normalize_s], [Signature::to_der] *)
  ecdsa_sign_prehash : list byte -> list byte -> option (list byte);
  ecdsa_normalize_s : list byte -> list byte;
  ecdsa_to_der : list byte -> list byte;
  (** [SigningKey::<MlDsa44>::from_seed]: encoded public key, deterministic signature *)
  mldsa_public_key : list byte -> list byte;
  mldsa_sign : list byte -> list byte -> list byte -> option (list byte)
}.

(** A DER signature as X.690 prescribes it: two minimal positive integers in a short sequence. *)
Definition der_integer (i : list byte) : Prop :=
  exists x rest, i = x :: rest /\ (length i <= 33)%nat /\ Z_of_byte x < 128 /\
    (Z_of_byte x = 0 -> exists y rest', rest = y :: rest' /\ 128 <= Z_of_byte y).
Definition der_encoded (b : list byte) : Prop :=
  exists r s, der_integer r /\ der_integer s /\
    b = byte_of_Z 48 :: byte_of_Z (4 + Z.of_nat (length r + length s)) :: byte_of_Z 2 :: byte_of_Z (Z.of_nat (length r))
        :: r ++ byte_of_Z 2 :: byte_of_Z (Z.of_nat (length s)) :: s.

Class SignerLaws (E : Env) (SG : Signer) : Prop := {
  (** SEC1: a derived key is 33 bytes and parses *)
  derive_length : forall a pk, secp_derive a = Some pk -> length pk = 33%nat;
  derive_parses : forall a pk, secp_derive a = Some pk -> is_Some (secp_public_key pk);
  (** coordinates are canonical 32-byte field elements; [-k] mirrors the point; [p = 3 mod 4], so of
      [y] and [-y] one is a square *)
  base_mul_x : forall k x y, secp_base_mul k = Some (x, y) -> length x = 32%nat /\ secp_field_ok x = true;
  base_mul_neg : forall k x y, secp_base_mul k = Some (x, y) -> secp_is_qr y = false ->
    exists y', secp_base_mul (scalar_neg k) = Some (x, y') /\ secp_is_qr y' = true;
  (** scalars are 32 bytes, canonical, and only zero is refused *)
  mul_add_length : forall k e a, length (scalar_mul_add k e a) = 32%nat;
  mul_add_ok : forall k e a, secp_scalar_ok (scalar_mul_add k e a) = negb (scalar_is_zero (scalar_mul_add k e a));
  (** the group law: [(k + e*a)*G - e*(a*G) = k*G], the digest being reduced inside *)
  lincomb_group : forall a pk point k e, secp_derive a = Some pk -> secp_public_key pk = Some point ->
    secp_lincomb (scalar_mul_add k (scalar_reduce e) a) point e = secp_base_mul k;
  (** ECDSA: a signature verifies under its key, so does its low-S form, whose DER text is minimal and is read back *)
  ecdsa_verifies : forall a pk point h sig, secp_derive a = Some pk -> secp_public_key pk = Some point ->
    ecdsa_sign_prehash a h = Some sig -> ecdsa_verify_prehash point h (ecdsa_normalize_s sig) = true;
  ecdsa_low_s : forall a h sig, ecdsa_sign_prehash a h = Some sig -> ecdsa_is_low_s (ecdsa_normalize_s sig) = true;
  ecdsa_der : forall a h sig, ecdsa_sign_prehash a h = Some sig ->
    der_encoded (ecdsa_to_der (ecdsa_normalize_s sig)) /\
    ecdsa_from_der (ecdsa_to_der (ecdsa_normalize_s sig)) = Some (ecdsa_normalize_s sig);
  (** FIPS 204: sizes of ML-DSA-44, and a signature verifies *)
  mldsa_public_key_length : forall seed, Z.of_nat (length (mldsa_public_key seed)) = PK_LEN;
  mldsa_signs : forall seed m ctx sig, mldsa_sign seed m ctx = Some sig ->
    Z.of_nat (length sig) = SIG_LEN /\ exists d, mldsa_decode sig = Some d /\ mldsa_verify (mldsa_public_key seed) m d ctx = true
}.

Section keys.
Context `{E : Env} `{SG : Signer}.

(** ** Key pairs *)

Record KeyPair : Type := mkKeyPair { kp_private_key : list byte; kp_public_key : list byte }.

Definition from_private_key (private_key : list byte) : Res KeyPair :=
  let? public_key := ok_or (secp_derive private_key) (EPublicKey "invalid private key") in
  if (length public_key =? 33)%nat then Ok (mkKeyPair private_key public_key)
  else Err (EPublicKey "unexpected public key length").

Definition from_passphrase (passphrase : string) : Res KeyPair := from_private_key (sha256 (bytes_of passphrase)).

Definition from_private_key_hex (hex_key : string) : Res KeyPair :=
  let? b := hex_dec hex_key in
  if (length b =? 32)%nat then from_private_key b else Err (EPublicKey "private key must be 32 bytes").

Definition private_key_hex (k : KeyPair) : string := hex_encode k.(kp_private_key).
Definition public_key_hex (k : KeyPair) : string := hex_encode k.(kp_public_key).
Definition kp_address (k : KeyPair) (network_byte : Z) : Res string := address_from_public_key (public_key_hex k) network_byte.

(** ** Signatures *)

Definition sign_schnorr_legacy (hash private_key : list byte) : Res string :=
  let? a_comp := ok_or (secp_derive private_key) (ESignature "invalid private key") in
  let k0 := scalar_reduce (sha256 (private_key ++ hash)) in
  if scalar_is_zero k0 then Err (ESignature "schnorr nonce is zero") else
  let? (r_x, r_y) := ok_or (secp_base_mul k0) (ESignature "degenerate R point") in
  let k := if secp_is_qr r_y then k0 else scalar_neg k0 in
  let e := scalar_reduce (sha256 (r_x ++ a_comp ++ hash)) in
  let s := scalar_mul_add k e private_key in
  Ok (hex_encode (r_x ++ s)).

(** [normalize_s] gives nothing for a signature that is low already. *)
Definition sign_ecdsa (hash private_key : list byte) : Res string :=
  let? _ := ok_or (secp_derive private_key) (ESignature "invalid private key") in
  let? sig := ok_or (ecdsa_sign_prehash private_key hash) (ESignature "ecdsa signing failed") in
  Ok (hex_encode (ecdsa_to_der (ecdsa_normalize_s sig))).

(** ** Quantum keys *)

Record PqKeyPair : Type := mkPqKeyPair { pq_seed : list byte }.

Definition pq_from_passphrase (passphrase : string) : PqKeyPair := mkPqKeyPair (sha256 (PQ_CTX ++ bytes_of passphrase)).
Definition pq_public_key (k : PqKeyPair) : list byte := mldsa_public_key k.(pq_seed).
Definition pq_public_key_hex (k : PqKeyPair) : string := hex_encode (pq_public_key k).
Definition pq_sign_with_ctx (k : PqKeyPair) (message ctx : list byte) : Res (list byte) :=
  ok_or (mldsa_sign k.(pq_seed) message ctx) (ESerialization "ml-dsa sign").
Definition pq_sign (k : PqKeyPair) (message : list byte) : Res (list byte) := pq_sign_with_ctx k message PQ_CTX.
Definition pq_commitment_of (k : PqKeyPair) : string := commitment_for_public_key (pq_public_key k).

(** ** What is signed is accepted *)

Context `{L : !EnvLaws E} `{LS : !SignerLaws E SG}.

Lemma byte_at_app_r b1 b2 i : byte_at (b1 ++ b2) (length b1 + i) = byte_at b2 i.
Proof. unfold byte_at. rewrite lookup_app_r by lia. do 3 f_equal. lia. Qed.

Lemma byte_at_head x b : byte_at (x :: b) 0 = Z_of_byte x.
Proof. done. Qed.

(** The first-byte rules of one integer. *)
Lemma der_integer_first i rest : der_integer i ->
  (1 <= length i <= 33)%nat /\ neg_i8 (byte_at (i ++ rest) 0) = false /\
  (byte_at (i ++ rest) 0 =? 0) && ((Z.of_nat (length i) <? 2) || negb (neg_i8 (byte_at (i ++ rest) 1))) = false.
Proof.
  intros (x & r & -> & Hl & Hx & H0). cbn [length] in *. split; [lia|]. rewrite <-app_comm_cons, byte_at_head.
  unfold neg_i8 at 1. split; [by apply Z.leb_gt|]. destruct (Z.eqb_spec (Z_of_byte x) 0) as [Hz|]; [|done].
  destruct (H0 Hz) as (y & r' & -> & Hy). cbn [length andb] in *. apply orb_false_iff. split; [apply Z.ltb_ge; lia|].
  change (byte_at (x :: (y :: r') ++ rest) 1) with (Z_of_byte y). unfold neg_i8. by destruct (Z.leb_spec 128 (Z_of_byte y)); [|lia].
Qed.

Lemma der_encoded_strict b : der_encoded b -> der_is_strict b = true.
Proof.
  intros (r & s & Hr & Hs & ->).
  destruct (der_integer_first r (byte_of_Z 2 :: byte_of_Z (Z.of_nat (length s)) :: s) Hr) as (Hrl & Hr1 & Hr2).
  destruct (der_integer_first s [] Hs) as (Hsl & Hs1 & Hs2). rewrite app_nil_r in Hs1, Hs2.
  set (tail := byte_of_Z 2 :: byte_of_Z (Z.of_nat (length s)) :: s) in *.
  set (head := [byte_of_Z 48; byte_of_Z (4 + Z.of_nat (length r + length s)); byte_of_Z 2; byte_of_Z (Z.of_nat (length r))]).
  change (_ :: _ :: _ :: _ :: r ++ tail) with (head ++ r ++ tail).
  assert (Hlen : length (head ++ r ++ tail) = (6 + length r + length s)%nat) by (rewrite !length_app; cbn; lia).
  assert (H0 : byte_at (head ++ r ++ tail) 0 = 48) by done.
  assert (H1 : byte_at (head ++ r ++ tail) 1 = 4 + Z.of_nat (length r + length s)).
  { change (Z_of_byte (byte_of_Z (4 + Z.of_nat (length r + length s))) = 4 + Z.of_nat (length r + length s)). rewrite Z_of_byte_of_Z. apply Z.mod_small. lia. }
  assert (H3 : byte_at (head ++ r ++ tail) 3 = Z.of_nat (length r)).
  { change (Z_of_byte (byte_of_Z (Z.of_nat (length r))) = Z.of_nat (length r)). rewrite Z_of_byte_of_Z. apply Z.mod_small. lia. }
  assert (Hb : forall i, byte_at (head ++ r ++ tail) (4 + i) = byte_at (r ++ tail) i) by (intros i; apply (byte_at_app_r head)).
  assert (Ht : forall i, byte_at (head ++ r ++ tail) (4 + (length r + i)) = byte_at tail i) by (intros i; rewrite Hb; apply byte_at_app_r).
  unfold der_is_strict. rewrite Hlen, H0, H1, H3.
  replace (Z.to_nat (4 + Z.of_nat (length r) + 1)) with (4 + (length r + 1))%nat by lia.
  replace (Z.to_nat (4 + Z.of_nat (length r) + 2)) with (4 + (length r + 2))%nat by lia.
  replace (Z.to_nat (4 + Z.of_nat (length r) + 3)) with (4 + (length r + 3))%nat by lia.
  pose proof (Hb 0%nat) as H4. pose proof (Hb 1%nat) as H5. cbn [Nat.add] in H4, H5. rewrite !Ht, H4, H5.
  assert (Hsb : byte_at tail 1 = Z.of_nat (length s)).
  { change (Z_of_byte (byte_of_Z (Z.of_nat (length s))) = Z.of_nat (length s)). rewrite Z_of_byte_of_Z. apply Z.mod_small. lia. }
  change (byte_at tail 2) with (byte_at s 0). change (byte_at tail 3) with (byte_at s 1).
  rewrite Hsb, Hr1, Hs1, Hr2, Hs2. change (48 =? 48) with true. cbn [negb orb].
  destruct (Nat.ltb_spec (6 + length r + length s) 8); [lia|]. cbn [orb].
  repeat match goal with
  | |- context [Z.leb ?x ?y] => destruct (Z.leb_spec x y); [lia|]
  | |- context [Z.ltb 127 ?y] => destruct (Z.ltb_spec 127 y); [lia|]
  | |- context [negb (Z.eqb ?x ?y)] => destruct (Z.eqb_spec x y); [|lia]; cbn [negb orb]
  | |- context [Z.eqb ?x ?y] => destruct (Z.eqb_spec x y); [lia|]; cbn [negb orb]
  end.
  done.
Qed.

(** The verifier refuses one thing the signer does not look for: a zero [s]. *)
Lemma schnorr_signed hash sk pk sg : secp_derive sk = Some pk -> sign_schnorr_legacy hash sk = Ok sg ->
  exists b, hex_decode sg = Some b /\ length b = 64%nat /\
    verify_schnorr_legacy hash b (hex_encode pk) = Ok (negb (scalar_is_zero (drop 32 b))).
Proof.
  intros Hk H. unfold sign_schnorr_legacy in H. rewrite Hk in H. cbn [ok_or rbind] in H.
  set (k0 := scalar_reduce _) in H. destruct (scalar_is_zero k0); [done|].
  destruct (secp_base_mul k0) as [[x y]|] eqn:Hx; [|done]. cbn [ok_or rbind] in H. apply Ok_inj in H as <-.
  set (k := if secp_is_qr y then k0 else scalar_neg k0). set (e := sha256 (x ++ pk ++ hash)).
  destruct (base_mul_x _ _ _ Hx) as [Hl Hf].
  assert (Hp : exists y', secp_base_mul k = Some (x, y') /\ secp_is_qr y' = true).
  { subst k. destruct (secp_is_qr y) eqn:Hq; [by exists y|by eapply base_mul_neg]. }
  destruct Hp as (y' & Hy & Hq). set (s := scalar_mul_add k (scalar_reduce e) sk).
  assert (Hs : length s = 32%nat) by apply mul_add_length.
  exists (x ++ s). split; [apply hex_decode_encode|]. split; [rewrite length_app; lia|].
  unfold verify_schnorr_legacy. rewrite length_app, Hl, Hs. cbn [Nat.add Nat.eqb negb].
  rewrite take_app_length', drop_app_length' by done. rewrite Hf. cbn [negb].
  unfold s at 1. rewrite mul_add_ok. fold s. destruct (scalar_is_zero s); [done|]. cbn [negb].
  rewrite hex_dec_encode. cbn [rbind]. destruct (derive_parses _ _ Hk) as [point Hpt]. rewrite Hpt. cbn [ok_or rbind].
  fold e. unfold s. rewrite (lincomb_group sk pk point) by done. rewrite Hy, Hq. cbn [negb]. by rewrite bool_decide_true.
Qed.

(** A DER signature made with a key is accepted for its public key. *)
Lemma ecdsa_sign_verify hash sk pk sg : secp_derive sk = Some pk -> sign_ecdsa hash sk = Ok sg ->
  exists b, hex_decode sg = Some b /\ verify_ecdsa hash b (hex_encode pk) = Ok true.
Proof.
  intros Hk H. unfold sign_ecdsa in H. rewrite Hk in H. cbn [ok_or rbind] in H.
  destruct (ecdsa_sign_prehash sk hash) as [sig|] eqn:Hs; [|done]. cbn [ok_or rbind] in H. apply Ok_inj in H as <-.
  eexists. split; [apply hex_decode_encode|]. destruct (ecdsa_der _ _ _ Hs) as [Hd Hf]. unfold verify_ecdsa.
  rewrite der_encoded_strict, Hf by done. rewrite (ecdsa_low_s _ _ _ Hs). cbn [negb]. rewrite hex_dec_encode. cbn [rbind].
  destruct (derive_parses _ _ Hk) as [point Hpt]. rewrite Hpt. cbn [ok_or rbind]. by rewrite (ecdsa_verifies _ _ _ _ _ Hk Hpt Hs).
Qed.

Lemma pq_sign_verify k m ctx sg : pq_sign_with_ctx k m ctx = Ok sg ->
  Z.of_nat (length sg) = SIG_LEN /\ pq_verify_with_ctx (pq_public_key k) m sg ctx = Ok true.
Proof.
  unfold pq_sign_with_ctx. destruct (mldsa_sign _ _ _) as [x|] eqn:Hs; [|done]. cbn [ok_or]. intros H. apply Ok_inj in H as ->.
  destruct (mldsa_signs _ _ _ _ Hs) as (Hl & d & Hd & Hv). split; [done|]. unfold pq_verify_with_ctx, pq_public_key.
  rewrite mldsa_public_key_length, Hl, Hd, !Z.eqb_refl. cbn [negb orb]. by rewrite Hv.
Qed.

Lemma key_pair_derive sk k : from_private_key sk = Ok k -> kp_private_key k = sk /\ secp_derive sk = Some (kp_public_key k).
Proof.
  unfold from_private_key. destruct (secp_derive sk) as [pk|]; [|done]. cbn [ok_or rbind]. destruct (_ =? 33)%nat; [|done].
  intros H. by apply Ok_inj in H as <-.
Qed.

(** What a key signs is accepted for it.  A key pair made from a private key has the public key of
    that private key; an ECDSA signature it makes passes the strict DER, low-S verifier; a legacy
    schnorr signature passes unless its [s] is zero, the one case the verifier refuses and the signer
    does not look for; a quantum signature has the exact length and passes under the same context. *)
Theorem signatures_accepted sk k hash (Hk : from_private_key sk = Ok k) :
  (forall sg, sign_ecdsa hash (kp_private_key k) = Ok sg ->
     exists b, hex_decode sg = Some b /\ verify_ecdsa hash b (public_key_hex k) = Ok true) /\
  (forall sg, sign_schnorr_legacy hash (kp_private_key k) = Ok sg ->
     exists b, hex_decode sg = Some b /\ verify_schnorr_legacy hash b (public_key_hex k) = Ok (negb (scalar_is_zero (drop 32 b)))) /\
  (forall q ctx b, pq_sign_with_ctx q hash ctx = Ok b ->
     Z.of_nat (length b) = SIG_LEN /\ pq_verify_with_ctx (pq_public_key q) hash b ctx = Ok true).
Proof.
  apply key_pair_derive in Hk as [-> Hd]. split_and!; [intros sg; by apply ecdsa_sign_verify| |intros q ctx b; by apply pq_sign_verify].
  intros sg Hs. destruct (schnorr_signed _ _ _ _ Hd Hs) as (b & Hb & _ & Hv). by exists b.
Qed.
End keys.

(** ** A concrete signer

    In the concrete environment every signature verifies; the signer makes ones of the right shape. *)

Module TestSigner.
#[local] Existing Instance TestEnv.env.

Definition der_one : list byte := byte_of_Z <$> [48; 6; 2; 1; 1; 2; 1; 1].

Definition signer : Signer := {|
  scalar_reduce := TestEnv.fixed 32; scalar_is_zero := fun _ => false; scalar_neg := fun k => k;
  scalar_mul_add := fun k _ _ => TestEnv.fixed 32 k;
  secp_base_mul := fun k => Some (TestEnv.fixed 32 k, TestEnv.fixed 32 k);
  ecdsa_sign_prehash := fun _ _ => Some der_one; ecdsa_normalize_s := fun sig => sig; ecdsa_to_der := fun sig => sig;
  mldsa_public_key := fun _ => replicate 1312 (byte_of_Z 0); mldsa_sign := fun _ _ _ => Some (replicate 2420 (byte_of_Z 0))
|}.

Lemma der_one_encoded : der_encoded der_one.
Proof.
  assert (H : der_integer [byte_of_Z 1]).
  { exists (byte_of_Z 1), []. split_and!; [done|cbn; lia|done|done]. }
  by exists [byte_of_Z 1], [byte_of_Z 1].
Qed.

Lemma signer_laws : SignerLaws TestEnv.env signer.
Proof.
  split; cbn.
  - intros a pk. destruct (Nat.eqb_spec (length a) 32); [|done]. intros [= <-]. cbn. lia.
  - intros. by eexists.
  - intros k x y [= <- <-]. split; [apply TestEnv.fixed_length|done].
  - done.
  - intros. apply TestEnv.fixed_length.
  - done.
  - done.
  - done.
  - done.
  - intros a h sig [= <-]. split; [apply der_one_encoded|done].
  - reflexivity.
  - intros seed m ctx sig [= <-]. split; [vm_compute; reflexivity|by eexists].
Qed.
End TestSigner.

Lemma signatures_accepted_witness :
  let k := mkKeyPair (replicate 32 x00) (x02 :: replicate 32 x00) in
  exists b, sign_ecdsa (E := TestEnv.env) (SG := TestSigner.signer) [] (kp_private_key k) = Ok (TestEnv.enc b) /\
    verify_ecdsa (E := TestEnv.env) [] b (public_key_hex (E := TestEnv.env) k) = Ok true.
Proof.
  cbv zeta. set (k := mkKeyPair _ _).
  assert (Hk : from_private_key (E := TestEnv.env) (replicate 32 x00) = Ok k) by (vm_compute; reflexivity).
  destruct (signatures_accepted (SG := TestSigner.signer) (L := TestEnv.laws) (LS := TestSigner.signer_laws) _ _ [] Hk) as (H & _ & _).
  assert (Hs : sign_ecdsa (E := TestEnv.env) (SG := TestSigner.signer) [] (kp_private_key k) = Ok (TestEnv.enc TestSigner.der_one))
    by (vm_compute; reflexivity).
  destruct (H _ Hs) as (b & Hb & Hv). exists TestSigner.der_one. split; [exact Hs|].
  change (TestEnv.dec (TestEnv.enc TestSigner.der_one) = Some b) in Hb. rewrite TestEnv.dec_enc in Hb. injection Hb as <-. exact Hv.
Defined.
