(* ===== verification/Config.v ===== *)
(** * Network configuration

    [src/src/config.rs]: milestones, their fees, the lookup of the milestone in effect at a
    height, the block versions it allows and the supply calculator.  The JSON files are read by
    serde; the model starts from the parsed values. *)

From S2P Require Import Prelude.

Definition SMARTOSHI : Z := 100000000.

Record FinalityParams : Type := mkFinality {
  fp_active : bool;
  fp_quorum : Z;
  fp_slashing : bool;
  fp_slashing_rounds : Z
}.

Record PqParams : Type := mkPqParams {
  pq_active : bool;
  pq_fee_per_byte : Z;
  pq_commitment_grace : Z;
  pq_blocks_on : bool;
  pq_blocks_grace : Z
}.

Record TokenFees : Type := mkTokenFees {
  tf_init : Z;
  tf_transfer : Z;
  tf_transfer_per_recipient : Z;
  tf_mint : Z;
  tf_burn : Z;
  tf_meta : Z;
  tf_init_burn_percent : Z;
  tf_sell : Z;
  tf_buy : Z;
  tf_cancel : Z
}.

Record MasternodeParams : Type := mkMasternodes {
  mn_enabled : bool;
  mn_collateral_amount : Z
}.

Record TokenMarketParams : Type := mkMarket {
  mk_enabled : bool;
  mk_max_open_orders : Z
}.

Record BlockParams : Type := mkBlockParams {
  bp_version : Z;
  bp_id_full_sha256 : bool;
  bp_max_transactions : Z;
  bp_max_payload : Z
}.

Record Milestone : Type := mkMilestone {
  m_height : Z;
  m_reward : Z;
  m_active_delegates : Z;
  m_blocktime : Z;
  m_block : BlockParams;
  m_epoch : string;
  m_static_fees : gmap string Z;
  m_vendor_field_length : Z;
  m_multi_payment_limit : Z;
  m_htlc_enabled : bool;
  m_block_burn_address : bool;
  m_tx_v2 : bool;
  m_sobj_active : bool;
  m_schnorr_blocks : bool;
  m_tokens : bool;
  m_token_fees : TokenFees;
  m_token_transfer_max_recipients : Z;
  m_token_market : TokenMarketParams;
  m_masternodes : MasternodeParams;
  m_sobj_v2 : bool;
  m_strict_balance : bool;
  m_min_core_version : string;
  m_pq : PqParams;
  m_finality : FinalityParams
}.

(** ** Defaults *)

Definition pq_params_default : PqParams := mkPqParams false 10000 86400 false 43200.
Definition token_fees_default : TokenFees :=
  mkTokenFees 50000000000 10000000 1000000 100000000 10000000 100000000 50
    100000000 10000000 10000000.
Definition masternodes_default : MasternodeParams := mkMasternodes false 1000000000000.
Definition block_params_default : BlockParams := mkBlockParams 0 true 500 84000000.
Definition milestone_default : Milestone :=
  mkMilestone 1 0 21 8 block_params_default "2023-08-29T00:00:00.000Z" ∅ 255 256 true true true
    false false false token_fees_default 64 (mkMarket false 0) masternodes_default false false ""
    pq_params_default (mkFinality false 0 false 0).

(** ** Methods *)

Definition slashing_rounds (f : FinalityParams) : Z :=
  if f.(fp_slashing_rounds) =? 0 then 30 else f.(fp_slashing_rounds).

(** Finality quorum: more than two thirds of the active set unless overridden. *)
Definition finality_quorum (m : Milestone) : Z :=
  if 0 <? m.(m_finality).(fp_quorum) then m.(m_finality).(fp_quorum)
  else as_u32 (as_u32 (m.(m_active_delegates) * 2) / 3 + 1).

(** Smartoshi burned per TokenInit. *)
Definition init_burn (f : TokenFees) : Z :=
  as_u64 (f.(tf_init) * Z.min f.(tf_init_burn_percent) 100) / 100.

Definition FEE_NAMES : list (string * Z) :=
  [("transfer", 0); ("secondSignature", 1); ("delegateRegistration", 2); ("vote", 3);
   ("multiSignature", 4); ("ipfs", 5); ("multiPayment", 6); ("delegateResignation", 7);
   ("htlcLock", 8); ("htlcClaim", 9); ("htlcRefund", 10)]%string.

Definition static_fee (m : Milestone) (name : string) : Z := default 0 (m.(m_static_fees) !! name).

(** Static fee of a core transaction type id, 0 for unknown types. *)
Definition static_fee_for_type (m : Milestone) (type_ : Z) : Z :=
  match List.find (fun p => p.2 =? type_) FEE_NAMES with
  | Some (name, _) => static_fee m name
  | None => 0
  end.

(** ** Network

    [milestones[0]] is split off: [from_json] rejects an empty array. *)

Record Network : Type := mkNetwork {
  n_pubkey_hash : Z;
  n_nethash : string;
  n_genesis_block_id : string;
  n_genesis_total_amount : Z;
  n_burn_address : string;
  n_epoch_unix : Z;
  n_milestone0 : Milestone;
  n_milestones_rest : list Milestone
}.

Definition milestones (n : Network) : list Milestone := n.(n_milestone0) :: n.(n_milestones_rest).

(** Milestone in effect at a height: the last one whose height is not above it. *)
Definition milestone (n : Network) (height : Z) : Milestone :=
  let h := Z.max height 1 in
  default n.(n_milestone0) (List.find (fun m => m.(m_height) <=? h) (rev (milestones n))).

Definition pq_activation_height (n : Network) : option Z :=
  m_height <$> List.find (fun m => m.(m_pq).(pq_active)) (milestones n).

Definition pq_blocks_activation_height (n : Network) : option Z :=
  m_height <$> List.find (fun m => m.(m_pq).(pq_blocks_on)) (milestones n).

(** Block versions accepted at a height: (version 1 allowed, version 0 allowed). *)
Definition block_versions_allowed (n : Network) (height : Z) : bool * bool :=
  let m := milestone n height in
  if negb m.(m_pq).(pq_blocks_on) then (false, true)
  else
    let grace_end := sat_add_u64 (default height (pq_blocks_activation_height n)) m.(m_pq).(pq_blocks_grace) in
    (true, height <? grace_end).

(** Circulating supply: genesis amount plus the rewards of every height up to [height], summed
    one milestone interval at a time. *)
Fixpoint supply_go (height : Z) (ms : list Milestone) (total : Z) : Z :=
  match ms with
  | [] => total
  | m :: rest =>
      let total' :=
        if m.(m_reward) =? 0 then total
        else
          let start := Z.max m.(m_height) 1 in
          let stop := Z.min (match rest with
                             | n :: _ => sat_sub n.(m_height) 1
                             | [] => u64_max
                             end) height in
          if start <=? stop
          then sat_add_u64 total (sat_mul_u64 m.(m_reward) (stop - start + 1))
          else total in
      supply_go height rest total'
  end.

Definition supply (n : Network) (height : Z) : Z :=
  supply_go height (milestones n) n.(n_genesis_total_amount).

Definition epoch_to_unix (n : Network) (epoch : Z) : Z := n.(n_epoch_unix) + epoch.
Definition unix_to_epoch (n : Network) (unix : Z) : Z := as_u32 (Z.max (unix - n.(n_epoch_unix)) 0).

Definition static_fees (n : Network) (height : Z) : list (string * Z * Z) :=
  let m := milestone n height in
  (fun p => (p.1, p.2, static_fee m p.1)) <$> FEE_NAMES.

(** Network byte of [Network::mainnet_ref()] ([network/mainnet/network.json]). *)
Definition MAINNET_PUBKEY_HASH : Z := 63.

(** ** The milestone table *)

Definition by_height (m1 m2 : Milestone) : Prop := m1.(m_height) <= m2.(m_height).

(** What [from_json] establishes: sorted by height, first milestone in force from the start. *)
Record wf_network (n : Network) : Prop := {
  wf_sorted : StronglySorted by_height (milestones n);
  wf_first : n.(n_milestone0).(m_height) <= 1;
  wf_heights : Forall (fun m => in_u64 m.(m_height) /\ in_u64 m.(m_reward)) (milestones n);
  wf_delegates : Forall (fun m => 1 <= m.(m_active_delegates) <= u32_max) (milestones n)
}.

Lemma find_rev_last {A} (f : A -> bool) l x :
  List.find f (rev l) = Some x ->
  exists l1 l2, l = l1 ++ x :: l2 /\ f x = true /\ Forall (fun y => f y = false) l2.
Proof.
  induction l as [|y l IH] using rev_ind; [done|].
  rewrite rev_app_distr. cbn. destruct (f y) eqn:Hy.
  - intros [= <-]. exists l, []. split_and!; auto.
  - intros H. destruct (IH H) as (l1 & l2 & -> & Hx & Hl2).
    exists l1, (l2 ++ [y]). rewrite <-app_assoc. cbn. split_and!; auto.
    apply Forall_app; auto.
Qed.

(** The milestone found is in the table, in force, and no later one is. *)
Lemma milestone_split n height :
  wf_network n ->
  exists l1 l2, milestones n = l1 ++ milestone n height :: l2 /\
    m_height (milestone n height) <= Z.max height 1 /\
    Forall (fun m => Z.max height 1 < m.(m_height)) l2.
Proof.
  intros W. unfold milestone.
  destruct (List.find _ (rev (milestones n))) as [m|] eqn:Hf; cbn.
  - apply find_rev_last in Hf as (l1 & l2 & -> & Hm & Hl2).
    exists l1, l2. split_and!; [done|by apply Z.leb_le|].
    eapply Forall_impl; [exact Hl2|]. intros m'. cbn. rewrite Z.leb_gt. done.
  - exfalso. eapply find_none in Hf; [|apply in_rev; rewrite rev_involutive; by left].
    pose proof (wf_first _ W). cbn in Hf. apply Z.leb_gt in Hf. lia.
Qed.

Lemma milestone_in n height : wf_network n -> milestone n height ∈ milestones n.
Proof. intros W. destruct (milestone_split n height W) as (l1 & l2 & -> & _). set_solver. Qed.

Lemma milestone_active_delegates n height :
  wf_network n -> 1 <= (milestone n height).(m_active_delegates) <= u32_max.
Proof.
  intros W. pose proof (wf_delegates _ W) as H. rewrite Forall_forall in H.
  apply H, milestone_in, W.
Qed.

(** Reference definition of the supply: one reward per height. *)
Fixpoint rewards_upto (n : Network) (k : nat) : Z :=
  match k with
  | O => 0
  | S k' => rewards_upto n k' + (milestone n (Z.of_nat k)).(m_reward)
  end.

(** Rewards paid in one milestone's own interval, and by all milestones, without any width. *)
Definition interval_end (height : Z) (rest : list Milestone) : Z :=
  Z.min (match rest with n :: _ => sat_sub n.(m_height) 1 | [] => u64_max end) height.

Fixpoint rewards_in (height : Z) (ms : list Milestone) : Z :=
  match ms with
  | [] => 0
  | m :: rest =>
      m.(m_reward) * Z.max 0 (interval_end height rest - Z.max m.(m_height) 1 + 1)
      + rewards_in height rest
  end.

Definition nonneg_rewards (ms : list Milestone) : Prop :=
  Forall (fun m => in_u64 m.(m_height) /\ in_u64 m.(m_reward)) ms.

Lemma rewards_in_nonneg height ms : nonneg_rewards ms -> 0 <= rewards_in height ms.
Proof. induction 1 as [|m rest [_ Hm] _ IH]; cbn [rewards_in]; [lia|]. bounds. nia. Qed.

Lemma supply_go_sum height ms total :
  nonneg_rewards ms -> 0 <= total <= u64_max ->
  supply_go height ms total = Z.min (total + rewards_in height ms) u64_max.
Proof.
  intros Hms. revert total.
  induction Hms as [|m rest [Hh Hm] Hrest IH]; intros total Ht; cbn [supply_go rewards_in].
  { bounds. lia. }
  pose proof (rewards_in_nonneg height rest Hrest) as Hr. fold (interval_end height rest).
  destruct (Z.eqb_spec (m_reward m) 0) as [->|Hne]; [rewrite IH by done; f_equal; lia|].
  destruct (Z.leb_spec (Z.max (m_height m) 1) (interval_end height rest)).
  - set (len := interval_end height rest - Z.max (m_height m) 1 + 1).
    replace (Z.max 0 len) with len by (unfold len; lia).
    assert (0 <= m_reward m * len) by (bounds; nia).
    rewrite IH by (bounds; lia). bounds. lia.
  - rewrite IH by done. f_equal. rewrite Z.max_l by lia. lia.
Qed.

(** Compares the lengths of one interval at two consecutive heights, then finishes linearly. *)
Ltac interval_step d :=
  unfold interval_end in *; bounds;
  match goal with
  | |- context [m_reward ?m * Z.max 0 ?x] =>
      match goal with
      | |- context [m_reward m * Z.max 0 ?y] =>
          assert_fails (constr_eq x y);
          replace (Z.max 0 x) with (Z.max 0 y + d) by lia; lia
      end
  end.

(** The step from one height to the next pays exactly the last milestone in force. *)
Lemma rewards_in_step height m rest :
  0 <= height < u64_max ->
  StronglySorted by_height (m :: rest) ->
  rewards_in (height + 1) (m :: rest) - rewards_in height (m :: rest)
  = if Z.max m.(m_height) 1 <=? height + 1
    then (default m (List.find (fun m => m.(m_height) <=? height + 1) (rev (m :: rest)))).(m_reward)
    else 0.
Proof.
  intros Hh. revert m; induction rest as [|n rest IH]; intros m Hs.
  - cbn -[Z.leb Z.max Z.min]. unfold interval_end.
    destruct (Z.leb_spec (Z.max (m_height m) 1) (height + 1)).
    + destruct (Z.leb_spec (m_height m) (height + 1)); [|lia]. cbn. interval_step 1.
    + interval_step 0.
  - apply StronglySorted_inv in Hs as [Hs Hall].
    apply Forall_cons in Hall as [Hmn Hall]. unfold by_height in Hmn.
    specialize (IH n Hs). cbn [rewards_in] in *.
    set (A := rewards_in (height + 1) rest) in *. set (B := rewards_in height rest) in *.
    change (rev (m :: n :: rest)) with (rev (n :: rest) ++ [m]).
    destruct (Z.leb_spec (Z.max (m_height n) 1) (height + 1)) as [Hle|Hgt].
    + assert (Hf : exists x, List.find (fun m0 => m_height m0 <=? height + 1) (rev (n :: rest)) = Some x).
      { destruct (List.find _ (rev (n :: rest))) eqn:Hf; [eauto|]. exfalso.
        eapply find_none in Hf; [|apply in_rev; rewrite rev_involutive; by left].
        cbn in Hf. apply Z.leb_gt in Hf. lia. }
      destruct Hf as [x Hx].
      rewrite find_app, Hx. rewrite Hx in IH. cbn [default] in *.
      destruct (Z.leb_spec (Z.max (m_height m) 1) (height + 1)); [|lia].
      interval_step 0.
    + assert (Hf : List.find (fun m0 => m_height m0 <=? height + 1) (rev (n :: rest)) = None).
      { destruct (List.find _ (rev (n :: rest))) as [x|] eqn:Hx; [|done]. exfalso.
        apply List.find_some in Hx as [Hin Hx]. apply Z.leb_le in Hx.
        apply in_rev in Hin. destruct Hin as [<-|Hin]; [lia|].
        apply StronglySorted_inv in Hs as [_ Hn].
        rewrite List.Forall_forall in Hn. specialize (Hn x Hin). unfold by_height in Hn. lia. }
      rewrite find_app, Hf. cbn -[Z.leb Z.max Z.min].
      destruct (Z.leb_spec (Z.max (m_height m) 1) (height + 1)).
      * destruct (Z.leb_spec (m_height m) (height + 1)); [|lia]. cbn. interval_step 1.
      * interval_step 0.
Qed.

Lemma rewards_in_upto n k :
  wf_network n -> Z.of_nat k <= u64_max ->
  rewards_in (Z.of_nat k) (milestones n) = rewards_upto n k.
Proof.
  intros W. induction k as [|k IH]; intros Hk.
  - cbn [rewards_upto]. enough (forall ms, nonneg_rewards ms -> rewards_in 0 ms = 0) as H.
    { apply H, (wf_heights _ W). }
    induction 1 as [|m rest [? ?] _ IH]; cbn [rewards_in]; [done|].
    change (Z.of_nat 0) with 0. rewrite IH.
    rewrite Z.max_l; [lia|]. unfold interval_end. destruct rest; bounds; lia.
  - cbn [rewards_upto]. rewrite <-IH by lia.
    pose proof (rewards_in_step (Z.of_nat k) (n_milestone0 n) (n_milestones_rest n)) as Hs.
    fold (milestones n) in Hs. rewrite Nat2Z.inj_succ in *. unfold Z.succ in *.
    pose proof (wf_first _ W). specialize (Hs ltac:(bounds; lia) (wf_sorted _ W)).
    destruct (Z.leb_spec (Z.max (m_height (n_milestone0 n)) 1) (Z.of_nat k + 1)); [|lia].
    unfold milestone. replace (Z.max (Z.of_nat k + 1) 1) with (Z.of_nat k + 1) by lia. lia.
Qed.

(** ** Properties *)

(** The milestone in effect at a height is the last one of the table that has started: it is in
    the table, has started, and no other started milestone starts later. *)
Theorem milestone_spec n height (W : wf_network n) :
  milestone n height ∈ milestones n /\
  (milestone n height).(m_height) <= Z.max height 1 /\
  forall m, m ∈ milestones n -> m.(m_height) <= Z.max height 1 -> m.(m_height) <= (milestone n height).(m_height).
Proof.
  destruct (milestone_split n height W) as (l1 & l2 & Hs & Hle & Hl2). split_and!; [by apply milestone_in|done|].
  intros m Hm Hmh. pose proof (wf_sorted _ W) as Hsort. rewrite Hs in Hm, Hsort.
  apply elem_of_app in Hm as [Hm|Hm].
  - rewrite list_elem_of_In in Hm. clear -Hsort Hm.
    induction l1 as [|x l1 IH]; [done|]. cbn in Hsort. apply StronglySorted_inv in Hsort as [Hsort Hall].
    destruct Hm as [->|Hm]; [|by apply IH]. rewrite Forall_forall in Hall. apply Hall. set_solver.
  - apply elem_of_cons in Hm as [->|Hm]; [done|]. rewrite Forall_forall in Hl2. specialize (Hl2 m Hm). lia.
Qed.

(** The supply calculator, which adds one product per milestone interval, gives the genesis amount
    plus one reward per height, saturated at the largest [u64]. *)
Theorem supply_correct n k (W : wf_network n) (Hg : in_u64 n.(n_genesis_total_amount)) (Hk : Z.of_nat k <= u64_max) :
  supply n (Z.of_nat k) = Z.min (n.(n_genesis_total_amount) + rewards_upto n k) u64_max.
Proof.
  unfold supply. rewrite supply_go_sum; [|apply (wf_heights _ W)|bounds; lia]. by rewrite rewards_in_upto.
Qed.

(** The finality quorum is safe and reachable: without an override it is more than two thirds of
    the active delegates and never more than all of them, so two quorums always share more than a
    third of the set. *)
Theorem finality_quorum_safe m (H0 : m.(m_finality).(fp_quorum) = 0) (Hn : 1 <= m.(m_active_delegates) <= 2147483647) :
  2 * m.(m_active_delegates) < 3 * finality_quorum m /\ finality_quorum m <= m.(m_active_delegates) /\
  m.(m_active_delegates) < 3 * (2 * finality_quorum m - m.(m_active_delegates)).
Proof.
  unfold finality_quorum. rewrite H0. cbn [Z.ltb Z.compare]. set (n := m_active_delegates m) in *.
  unfold as_u32. rewrite (Z.mod_small (n * 2)) by lia.
  pose proof (Z.div_mod (n * 2) 3). pose proof (Z.mod_pos_bound (n * 2) 3).
  rewrite Z.mod_small by lia. lia.
Qed.

Definition demo_table : Network :=
  mkNetwork 63 "" "" 1000 "" 0 milestone_default
    [mkMilestone 3 7 21 8 block_params_default "" ∅ 255 256 true true true false false false token_fees_default 64
       (mkMarket false 0) masternodes_default false false "" pq_params_default (mkFinality false 0 false 0)].

Lemma demo_table_wf : wf_network demo_table.
Proof.
  split; cbn.
  - repeat constructor. unfold by_height. cbn. lia.
  - lia.
  - repeat constructor; cbn; bounds; lia.
  - repeat constructor; cbn; bounds; lia.
Qed.

Lemma milestone_spec_witness : (milestone demo_table 5).(m_height) <= Z.max 5 1 /\ (milestone demo_table 5).(m_reward) = 7.
Proof. split; [exact (proj1 (proj2 (milestone_spec demo_table 5 demo_table_wf)))|reflexivity]. Defined.

Lemma supply_correct_witness : supply demo_table (Z.of_nat 4) = Z.min (1000 + rewards_upto demo_table 4) u64_max.
Proof. apply (supply_correct demo_table 4 demo_table_wf); cbn; bounds; lia. Defined.

Lemma finality_quorum_safe_witness : 2 * 21 < 3 * finality_quorum milestone_default.
Proof. exact (proj1 (finality_quorum_safe milestone_default eq_refl ltac:(cbn; lia))). Defined.
