(* ===== verification/TxCodec.v ===== *)
(** * Transaction wire format

    [src/src/crypto/tx_serializer.rs] and [tx_deserializer.rs]: the SHIP-11 bytes of a
    transaction, their parser, and the ids and hashes derived from them. *)

From S2P Require Import Prelude Models Env Bytes Crypto Config.

Section codec.
Context `{E : Env}.

(** ** Serialiser *)

Record SerializeOptions : Type := mkOpts {
  exclude_signature : bool;
  exclude_second_signature : bool;
  exclude_multi_signature : bool
}.
Definition opts_default : SerializeOptions := mkOpts false false false.
Definition for_signing : SerializeOptions := mkOpts true true false.

Definition ser_err (s : string) : Error := ESerialization s.

(** [hex::decode(s).map_err(|e| Error::Serialization(..))]. *)
Definition hex_or (h what : string) : Res (list byte) := ok_or (hex_decode h) (ser_err what).

Definition asset_of (tx : Transaction) (what : string) : Res TransactionAsset :=
  ok_or tx.(tx_asset) (ser_err ("missing asset for " +:+ what)).

Definition write_address (address : string) (w : ByteWriter) : Res ByteWriter :=
  let? b := address_to_bytes address in Ok (w_put b w).

Definition serialize_sobj (tx : Transaction) (w : ByteWriter) : Res ByteWriter :=
  let? e := ok_or (sobj_asset tx) (ser_err "missing sObject asset") in
  let? reg := match e.(sa_registration_id) with
              | Some r => hex_or r "bad registrationId"
              | None => Ok []
              end in
  let name := bytes_of (default ""%string e.(sa_data).(sd_name)) in
  let slot := if e.(sa_action) =? sobj.ACTION_TRANSFER then e.(sa_recipient_id)
              else if e.(sa_action) =? sobj.ACTION_SELL then fmt_u <$> e.(sa_price)
              else e.(sa_data).(sd_ntfry_data) in
  let ipfs := bytes_of (default ""%string slot) in
  if (255 <? Z.of_nat (length reg)) || (255 <? Z.of_nat (length name)) || (255 <? Z.of_nat (length ipfs))
  then Err (ser_err "sObject field longer than 255 bytes")
  else
    let w := w_u8 e.(sa_action) (w_u8 e.(sa_sub_type) (w_u8 e.(sa_type_) w)) in
    let w := w_bytes reg (w_u8 (Z.of_nat (length reg)) w) in
    let w := w_bytes name (w_u8 (Z.of_nat (length name)) w) in
    Ok (w_bytes ipfs (w_u8 (Z.of_nat (length ipfs)) w)).

Definition serialize_item (w : ByteWriter) (it : TokenTransferItem) : Res ByteWriter :=
  write_address it.(ti_recipient_id) (w_u64_le it.(ti_amount) w).

Definition serialize_meta (m : TokenMeta) (w : ByteWriter) : Res ByteWriter :=
  let name := bytes_of m.(tm_name) in
  let desc := bytes_of (default ""%string m.(tm_description)) in
  let site := bytes_of (default ""%string m.(tm_website)) in
  let? logo := match m.(tm_logo) with
               | Some _ => ok_or (logo_bytes m) (ser_err "logo is not base64")
               | None => Ok []
               end in
  if (255 <? Z.of_nat (length name)) || (u16_max <? Z.of_nat (length desc))
     || (255 <? Z.of_nat (length site)) || (u16_max <? Z.of_nat (length logo))
  then Err (ser_err "token meta field too long")
  else
    let w := w_bytes name (w_u8 (Z.of_nat (length name)) w) in
    let w := w_bytes desc (w_u16_le (Z.of_nat (length desc)) w) in
    let w := w_bytes site (w_u8 (Z.of_nat (length site)) w) in
    Ok (w_bytes logo (w_u16_le (Z.of_nat (length logo)) (w_u8 (logo_type_byte m) w))).

Definition serialize_token (tx : Transaction) (w : ByteWriter) : Res ByteWriter :=
  let? a := ok_or (token_asset tx) (ser_err "missing token asset") in
  let? id := hex_or a.(ta_id) "bad token id" in
  if negb (length id =? 32)%nat then Err (ser_err "token id must be 32 bytes") else
  let w := w_bytes id w in
  let amount := default 0 a.(ta_amount) in
  if tx.(tx_type_) =? token.INIT then
    Ok (w_u64_le (default 0 a.(ta_supply_cap)) (w_u64_le (default 0 a.(ta_initial_supply))
         (w_u8 (default 0 a.(ta_flags)) (w_u8 (default 0 a.(ta_decimals)) w))))
  else if tx.(tx_type_) =? token.TRANSFER then
    let items := default [] a.(ta_transfers) in
    let memo := bytes_of (default ""%string a.(ta_memo)) in
    if (u16_max <? Z.of_nat (length items)) || (255 <? Z.of_nat (length memo))
    then Err (ser_err "token transfer too large")
    else
      let? w := rfold serialize_item items (w_u16_le (Z.of_nat (length items)) w) in
      Ok (w_bytes memo (w_u8 (Z.of_nat (length memo)) w))
  else if tx.(tx_type_) =? token.MINT then
    let w := w_u64_le amount w in
    let? r := ok_or a.(ta_recipient_id) (ser_err "missing recipientId") in
    write_address r w
  else if tx.(tx_type_) =? token.SELL then
    Ok (w_u64_le (default 0 a.(ta_price)) (w_u64_le amount w))
  else if (tx.(tx_type_) =? token.BUY) || (tx.(tx_type_) =? token.CANCEL) then
    let? oid := hex_or (default ""%string a.(ta_order_id)) "bad orderId" in
    if negb (length oid =? 32)%nat then Err (ser_err "orderId must be 32 bytes") else
    let w := w_bytes oid w in
    Ok (if tx.(tx_type_) =? token.BUY then w_u64_le amount w else w)
  else if tx.(tx_type_) =? token.META then
    let? m := ok_or a.(ta_meta) (ser_err "missing token meta") in
    serialize_meta m w
  else Ok (w_u64_le amount w).

(** [split_at_checked(1)]: the first byte must be a whole character. *)
Definition split_sign (v : string) : option (bool * string) :=
  match v with
  | EmptyString => None
  | String a pk => if 127 <? Z.of_N (Ascii.N_of_ascii a) then None
                   else Some (Ascii.eqb a (Ascii.ascii_of_N 43), pk)
  end.

Definition serialize_vote (w : ByteWriter) (v : string) : Res ByteWriter :=
  let? (plus, pk) := ok_or (split_sign v) (ser_err ("bad vote " +:+ v)) in
  w_hex pk (w_u8 (if plus : bool then 1 else 0) w).

Definition serialize_payment (w : ByteWriter) (p : Payment) : Res ByteWriter :=
  write_address p.(p_recipient_id) (w_u64_le p.(p_amount) w).

Definition write_recipient (tx : Transaction) (w : ByteWriter) : Res ByteWriter :=
  match tx.(tx_recipient_id) with Some r => write_address r w | None => Ok w end.

Definition serialize_second_signature (tx : Transaction) (w : ByteWriter) : Res ByteWriter :=
  let? a := asset_of tx "secondSignature" in
  let? sig := ok_or a.(as_signature) (ser_err "missing asset.signature") in
  if is_pq tx then
    let? pk := hex_or sig.(ss_public_key) "bad PQ public key" in
    if u16_max <? Z.of_nat (length pk) then Err (ser_err "PQ public key too long") else
    Ok (w_bytes pk (w_u16_le (Z.of_nat (length pk)) (w_u8 (default 0 sig.(ss_algorithm)) w)))
  else w_hex sig.(ss_public_key) w.

Definition serialize_htlc_lock (tx : Transaction) (w : ByteWriter) : Res ByteWriter :=
  let w := w_u64_le tx.(tx_amount) w in
  let? w := match tx.(tx_asset) ≫= as_lock with
            | Some lock =>
                let? w := w_hex lock.(hl_secret_hash) w in
                Ok (w_u32_le lock.(hl_expiration).(he_value) (w_u8 lock.(hl_expiration).(he_type_) w))
            | None => Ok w
            end in
  write_recipient tx w.

Definition serialize_core (tx : Transaction) (w : ByteWriter) : Res ByteWriter :=
  let t := tx.(tx_type_) in
  if t =? tx_type.TRANSFER then
    write_recipient tx (w_u32_le (default 0 tx.(tx_expiration)) (w_u64_le tx.(tx_amount) w))
  else if t =? tx_type.SECOND_SIGNATURE then serialize_second_signature tx w
  else if t =? tx_type.DELEGATE_REGISTRATION then
    let? a := asset_of tx "delegateRegistration" in
    let? d := ok_or a.(as_delegate) (ser_err "missing asset.delegate") in
    let name := bytes_of d.(da_username) in
    Ok (w_bytes name (w_u8 (Z.of_nat (length name)) w))
  else if t =? tx_type.VOTE then
    let? a := asset_of tx "vote" in
    let? votes := ok_or a.(as_votes) (ser_err "missing asset.votes") in
    rfold serialize_vote votes (w_u8 (Z.of_nat (length votes)) w)
  else if t =? tx_type.MULTI_SIGNATURE then
    let? a := asset_of tx "multiSignature" in
    let? ms := ok_or a.(as_multi_signature) (ser_err "missing asset.multiSignature") in
    rfold (fun w pk => w_hex pk w) ms.(ms_public_keys)
          (w_u8 (Z.of_nat (length ms.(ms_public_keys))) (w_u8 ms.(ms_min) w))
  else if t =? tx_type.IPFS then
    let? a := asset_of tx "ipfs" in
    let? ipfs := ok_or a.(as_ipfs) (ser_err "missing asset.ipfs") in
    let? raw := ok_or (b58_decode ipfs) (ser_err "bad ipfs hash") in
    Ok (w_bytes raw w)
  else if t =? tx_type.MULTI_PAYMENT then
    let? a := asset_of tx "multiPayment" in
    let? payments := ok_or a.(as_payments) (ser_err "missing asset.payments") in
    rfold serialize_payment payments (w_u16_le (Z.of_nat (length payments)) w)
  else if t =? tx_type.DELEGATE_RESIGNATION then Ok w
  else if t =? tx_type.HTLC_LOCK then serialize_htlc_lock tx w
  else if t =? tx_type.HTLC_CLAIM then
    match tx.(tx_asset) ≫= as_claim with
    | Some c => let? w := w_hex c.(hc_lock_transaction_id) w in w_hex c.(hc_unlock_secret) w
    | None => Ok w
    end
  else if t =? tx_type.HTLC_REFUND then
    match tx.(tx_asset) ≫= as_refund with
    | Some r => w_hex r.(hr_lock_transaction_id) w
    | None => Ok w
    end
  else Err (ser_err ("unsupported transaction type " +:+ fmt_u t)).

Definition serialize_type_payload (tx : Transaction) (w : ByteWriter) : Res ByteWriter :=
  if is_sobj tx then serialize_sobj tx w
  else if is_token tx then serialize_token tx w
  else if negb (tx.(tx_type_group) =? TYPE_GROUP_CORE)
  then Err (ser_err ("unsupported typeGroup " +:+ fmt_u tx.(tx_type_group)))
  else serialize_core tx w.

(** [serializeCommon]. *)
Definition serialize_common (tx : Transaction) (pubkey_hash : Z) (w : ByteWriter) : Res ByteWriter :=
  let w := w_u8 (default pubkey_hash tx.(tx_network)) (w_u8 tx.(tx_version) (w_u8 255 w)) in
  let w := w_u16_le tx.(tx_type_) (w_u32_le tx.(tx_type_group) w) in
  let w := match tx.(tx_nonce) with Some nonce => w_u64_le nonce w | None => w end in
  let? w := w_hex tx.(tx_sender_public_key) w in
  Ok (w_u64_le tx.(tx_fee) w).

(** [serializeVendorField]. *)
Definition serialize_vendor_field (tx : Transaction) (w : ByteWriter) : Res ByteWriter :=
  match tx.(tx_vendor_field) with
  | Some vf =>
      if has_vendor_field tx && negb (slen vf =? 0) then
        let b := bytes_of vf in
        if 255 <? Z.of_nat (length b) then Err (ser_err "vendorField exceeds 255 bytes")
        else Ok (w_bytes b (w_u8 (Z.of_nat (length b)) w))
      else Ok (w_u8 0 w)
  | None => Ok (w_u8 0 w)
  end.

(** [if let (Some(sig), false) = (sig, excluded) { w.hex(sig)?; }]. *)
Definition write_opt_hex (sig : option string) (excluded : bool) (w : ByteWriter) : Res ByteWriter :=
  match sig, excluded with Some s, false => w_hex s w | _, _ => Ok w end.

Definition serialize_pq_block (w : ByteWriter) (b : PqSignatureBlock) : Res ByteWriter :=
  let? sig := hex_or b.(pb_signature) "bad PQ signature" in
  if u16_max <? Z.of_nat (length sig) then Err (ser_err "PQ signature too long")
  else Ok (w_bytes sig (w_u16_le (Z.of_nat (length sig)) (w_u8 b.(pb_algorithm) w))).

Definition write_hexes (l : list string) (w : ByteWriter) : Res ByteWriter :=
  rfold (fun w s => w_hex s w) l w.

(** [serializeSignatures], both versions. *)
Definition serialize_signatures (tx : Transaction) (opts : SerializeOptions) (w : ByteWriter) : Res ByteWriter :=
  let? w := write_opt_hex tx.(tx_signature) opts.(exclude_signature) w in
  if is_pq tx then
    let? w := if negb opts.(exclude_second_signature) then rfold serialize_pq_block (pq_blocks tx) w else Ok w in
    match tx.(tx_signatures), opts.(exclude_multi_signature) with
    | Some sigs, false =>
        if negb (bool_decide (sigs = [])) then write_hexes sigs (w_u8 255 w) else Ok w
    | _, _ => Ok w
    end
  else
    let? w := write_opt_hex (second_signature_any tx) opts.(exclude_second_signature) w in
    match tx.(tx_signatures), opts.(exclude_multi_signature) with
    | Some sigs, false => write_hexes sigs w
    | _, _ => Ok w
    end.

(** Full wire bytes; of the network only the address byte is used. *)
Definition serialize_transaction (tx : Transaction) (opts : SerializeOptions) (pubkey_hash : Z) : Res (list byte) :=
  if tx.(tx_version) =? 1
  then Err (ser_err "legacy v1 transactions are not supported on this chain")
  else
    let? w := serialize_common tx pubkey_hash w_new in
    let? w := serialize_vendor_field tx w in
    let? w := serialize_type_payload tx w in
    let? w := serialize_signatures tx opts w in
    Ok (w_into_inner w).

(** ** Ids and signature checks *)

Definition transaction_id (tx : Transaction) : Res string :=
  let? b := serialize_transaction tx opts_default MAINNET_PUBKEY_HASH in Ok (hex_encode (sha256 b)).

Definition transaction_signing_hash (tx : Transaction) : Res (list byte) :=
  let? b := serialize_transaction tx for_signing MAINNET_PUBKEY_HASH in Ok (sha256 b).

Definition verify_transaction_signature (tx : Transaction) : Res bool :=
  match tx.(tx_signature) with
  | None => Ok false
  | Some sig =>
      let? hash := transaction_signing_hash tx in
      verify_signature hash sig tx.(tx_sender_public_key)
  end.

Definition transaction_pq_message (tx : Transaction) : Res (list byte) :=
  let? b := serialize_transaction tx (mkOpts false true true) MAINNET_PUBKEY_HASH in Ok (sha256 b).

Definition verify_transaction_second_signature (tx : Transaction) (second_public_key_hex : string) : Res bool :=
  match second_signature_any tx with
  | None => Ok false
  | Some sig =>
      let? b := serialize_transaction tx (mkOpts false true false) MAINNET_PUBKEY_HASH in
      verify_signature (sha256 b) sig second_public_key_hex
  end.

(** ** Deserialiser *)

Definition read_address (r : ByteReader) : Res (string * ByteReader) :=
  let? (b, r) := r_bytes 21 r in Ok (address_from_bytes b, r).

(** [asset_mut]: get or insert the default, then change. *)
Definition asset_mut (f : TransactionAsset -> TransactionAsset) (tx : Transaction) : Transaction :=
  tx_set_asset (Some (f (default asset_default tx.(tx_asset)))) tx.

(** A counted loop [for _ in 0..n]. *)
Fixpoint r_repeat {A} (n : nat) (f : ByteReader -> Res (A * ByteReader)) (r : ByteReader) : Res (list A * ByteReader) :=
  match n with
  | O => Ok ([], r)
  | S n => let? (x, r) := f r in let? (xs, r) := r_repeat n f r in Ok (x :: xs, r)
  end.

(** [(n > 0).then(|| r.hex(n)).transpose()?]. *)
Definition r_opt_hex (n : Z) (r : ByteReader) : Res (option string * ByteReader) :=
  if 0 <? n then let? (h, r) := r_hex (Z.to_nat n) r in Ok (Some h, r) else Ok (None, r).
(** [(n > 0).then(|| r.bytes(n).map(String::from_utf8_lossy)).transpose()?]. *)
Definition r_opt_text (n : Z) (r : ByteReader) : Res (option string * ByteReader) :=
  if 0 <? n then let? (b, r) := r_bytes (Z.to_nat n) r in Ok (Some (from_utf8_lossy b), r) else Ok (None, r).

Definition deserialize_sobj (tx : Transaction) (r : ByteReader) : Res (Transaction * ByteReader) :=
  let? (type_, r) := r_u8 r in
  let? (sub_type, r) := r_u8 r in
  let? (action, r) := r_u8 r in
  let? (reg_len, r) := r_u8 r in
  let? (registration_id, r) := r_opt_hex reg_len r in
  let? (name_len, r) := r_u8 r in
  let? (name, r) := r_opt_text name_len r in
  let? (ipfs_len, r) := r_u8 r in
  let? (slot, r) := r_opt_text ipfs_len r in
  let transfer := action =? sobj.ACTION_TRANSFER in
  let sell := action =? sobj.ACTION_SELL in
  let? price := if sell
                then let? p := ok_or (parse_u64 (default "0"%string slot)) (ser_err "sObject price is not a number") in
                     Ok (Some p)
                else Ok None in
  let e := mkSobjAsset type_ sub_type action registration_id
             (if transfer then slot else None) price
             (mkSobjData name (if transfer || sell then None else slot)) in
  Ok (asset_mut (as_set_extra (sobj_into_map e)) tx, r).

Definition deserialize_item (r : ByteReader) : Res (TokenTransferItem * ByteReader) :=
  let? (amount, r) := r_u64_le r in
  let? (a, r) := read_address r in
  Ok (mkItem a amount, r).

(** The [text] closure of the META arm: lossy text, absent when empty. *)
Definition r_text (n : Z) (r : ByteReader) : Res (option string * ByteReader) :=
  let? (b, r) := r_bytes (Z.to_nat n) r in
  let s := from_utf8_lossy b in
  Ok (if slen s =? 0 then None else Some s, r).

Definition deserialize_meta (r : ByteReader) : Res (TokenMeta * ByteReader) :=
  let? (nl, r) := r_u8 r in
  let? (name, r) := r_text nl r in
  let? (dl, r) := r_u16_le r in
  let? (description, r) := r_text dl r in
  let? (sl, r) := r_u8 r in
  let? (website, r) := r_text sl r in
  let? (lt, r) := r_u8 r in
  let? (ll, r) := r_u16_le r in
  let? (logo_raw, r) := r_bytes (Z.to_nat ll) r in
  Ok (mkMeta (default ""%string name) description website (logo_type_name lt)
        (if 0 <? ll then Some (base64_encode logo_raw) else None), r).

(** The empty [TokenAsset { id, ..Default::default() }]. *)
Definition token_default (id : string) : TokenAsset :=
  mkToken id None None None None None None None None None None None.

Definition deserialize_token_asset (type_ : Z) (r : ByteReader) : Res (TokenAsset * ByteReader) :=
  let? (id, r) := r_hex 32 r in
  if type_ =? token.INIT then
    let? (d, r) := r_u8 r in
    let? (f, r) := r_u8 r in
    let? (s, r) := r_u64_le r in
    let? (c, r) := r_u64_le r in
    Ok (mkToken id (Some d) (Some f) (Some s) (Some c) None None None None None None None, r)
  else if type_ =? token.TRANSFER then
    let? (n, r) := r_u16_le r in
    let? (items, r) := r_repeat (Z.to_nat n) deserialize_item r in
    let? (ml, r) := r_u8 r in
    let? (b, r) := r_bytes (Z.to_nat ml) r in
    let memo := from_utf8_lossy b in
    Ok (mkToken id None None None None (Some items) (if slen memo =? 0 then None else Some memo)
          None None None None None, r)
  else if type_ =? token.MINT then
    let? (n, r) := r_u64_le r in
    let? (a, r) := read_address r in
    Ok (mkToken id None None None None None None (Some n) (Some a) None None None, r)
  else if type_ =? token.SELL then
    let? (n, r) := r_u64_le r in
    let? (p, r) := r_u64_le r in
    Ok (mkToken id None None None None None None (Some n) None None (Some p) None, r)
  else if (type_ =? token.BUY) || (type_ =? token.CANCEL) then
    let? (oid, r) := r_hex 32 r in
    if type_ =? token.BUY
    then let? (n, r) := r_u64_le r in
         Ok (mkToken id None None None None None None (Some n) None None None (Some oid), r)
    else Ok (mkToken id None None None None None None None None None None (Some oid), r)
  else if type_ =? token.META then
    let? (m, r) := deserialize_meta r in
    Ok (mkToken id None None None None None None None None (Some m) None None, r)
  else
    let? (n, r) := r_u64_le r in
    Ok (mkToken id None None None None None None (Some n) None None None None, r).

Definition deserialize_token (tx : Transaction) (r : ByteReader) : Res (Transaction * ByteReader) :=
  let? (a, r) := deserialize_token_asset tx.(tx_type_) r in
  Ok (asset_mut (fun s => as_set_extra (<["token"%string := token_to_value a]> s.(as_extra)) s) tx, r).

Definition deserialize_vote (r : ByteReader) : Res (string * ByteReader) :=
  let? (s, r) := r_u8 r in
  let? (h, r) := r_hex 33 r in
  Ok ((if s =? 1 then "+" else "-") +:+ h, r).

Definition deserialize_payment (r : ByteReader) : Res (Payment * ByteReader) :=
  let? (amount, r) := r_u64_le r in
  let? (a, r) := read_address r in
  Ok (mkPayment amount a, r).

Definition deserialize_core (tx : Transaction) (r : ByteReader) : Res (Transaction * ByteReader) :=
  let t := tx.(tx_type_) in
  if t =? tx_type.TRANSFER then
    let? (amount, r) := r_u64_le r in
    let? (e, r) := r_u32_le r in
    let? (a, r) := read_address r in
    Ok (tx_set_recipient_id (Some a) (tx_set_expiration (Some e) (tx_set_amount amount tx)), r)
  else if t =? tx_type.SECOND_SIGNATURE then
    if is_pq tx then
      let? (algorithm, r) := r_u8 r in
      let? (len, r) := r_u16_le r in
      let? (public_key, r) := r_hex (Z.to_nat len) r in
      Ok (asset_mut (as_set_signature (Some (mkSecondSig public_key (Some algorithm)))) tx, r)
    else
      let? (public_key, r) := r_hex 33 r in
      Ok (asset_mut (as_set_signature (Some (mkSecondSig public_key None))) tx, r)
  else if t =? tx_type.DELEGATE_REGISTRATION then
    let? (len, r) := r_u8 r in
    let? (b, r) := r_bytes (Z.to_nat len) r in
    let? username := ok_or (from_utf8 b) (ser_err "delegate username is not utf-8") in
    Ok (asset_mut (as_set_delegate (Some (mkDelegate username))) tx, r)
  else if t =? tx_type.VOTE then
    let? (count, r) := r_u8 r in
    let? (votes, r) := r_repeat (Z.to_nat count) deserialize_vote r in
    Ok (asset_mut (as_set_votes (Some votes)) tx, r)
  else if t =? tx_type.MULTI_SIGNATURE then
    let? (min, r) := r_u8 r in
    let? (count, r) := r_u8 r in
    let? (public_keys, r) := r_repeat (Z.to_nat count) (r_hex 33) r in
    Ok (asset_mut (as_set_multi_signature (Some (mkMultiSig min public_keys))) tx, r)
  else if t =? tx_type.IPFS then
    let start := r_position r in
    let? (_, r) := r_u8 r in
    let? (len, r) := r_u8 r in
    let? (_, r) := r_bytes (Z.to_nat len) r in
    let raw := r_slice start (r_position r) r in
    Ok (asset_mut (as_set_ipfs (Some (b58_encode raw))) tx, r)
  else if t =? tx_type.MULTI_PAYMENT then
    let? (count, r) := r_u16_le r in
    let? (payments, r) := r_repeat (Z.to_nat count) deserialize_payment r in
    Ok (asset_mut (as_set_payments (Some payments)) (tx_set_amount 0 tx), r)
  else if t =? tx_type.DELEGATE_RESIGNATION then Ok (tx, r)
  else if t =? tx_type.HTLC_LOCK then
    let? (amount, r) := r_u64_le r in
    let? (secret_hash, r) := r_hex 32 r in
    let? (type_, r) := r_u8 r in
    let? (value, r) := r_u32_le r in
    let? (a, r) := read_address r in
    Ok (asset_mut (as_set_lock (Some (mkLockAsset secret_hash (mkExpiration type_ value))))
          (tx_set_recipient_id (Some a) (tx_set_amount amount tx)), r)
  else if t =? tx_type.HTLC_CLAIM then
    let? (id, r) := r_hex 32 r in
    let? (secret, r) := r_hex 32 r in
    Ok (asset_mut (as_set_claim (Some (mkClaim id secret))) tx, r)
  else if t =? tx_type.HTLC_REFUND then
    let? (id, r) := r_hex 32 r in
    Ok (asset_mut (as_set_refund (Some (mkRefund id))) tx, r)
  else Err (ser_err ("unsupported transaction type " +:+ fmt_u t)).

Definition deserialize_type_payload (tx : Transaction) (r : ByteReader) : Res (Transaction * ByteReader) :=
  if is_sobj tx then deserialize_sobj tx r
  else if is_token tx then deserialize_token tx r
  else if negb (tx.(tx_type_group) =? TYPE_GROUP_CORE)
  then Err (ser_err ("unsupported typeGroup " +:+ fmt_u tx.(tx_type_group)))
  else deserialize_core tx r.

(** *** Signatures *)

Definition detect_schnorr (remaining : nat) : bool :=
  let n := Z.of_nat remaining in
  (n =? 64) || (n =? 128) || (n mod 65 =? 0)
  || ((64 <=? n) && ((n - 64) mod 65 =? 0))
  || ((128 <=? n) && ((n - 128) mod 65 =? 0)).

(** [while r.remaining() > 0 && r.peek_u8(0) != Some(0xff)]: every turn consumes at least three
    bytes, so the bytes left bound the number of turns. *)
Fixpoint r_pq_blocks (fuel : nat) (r : ByteReader) : Res (list PqSignatureBlock * ByteReader) :=
  match fuel with
  | O => Ok ([], r)
  | S fuel =>
      if (0 <? r_remaining r)%nat && negb (bool_decide (r_peek_u8 0 r = Some 255)) then
        let? (algorithm, r) := r_u8 r in
        let? (len, r) := r_u16_le r in
        let? (sig, r) := r_hex (Z.to_nat len) r in
        let? (bs, r) := r_pq_blocks fuel r in
        Ok (mkPqBlock algorithm sig :: bs, r)
      else Ok ([], r)
  end.

Definition deserialize_signatures_v3 (tx : Transaction) (r : ByteReader) : Res (Transaction * ByteReader) :=
  if (r_remaining r =? 0)%nat then Ok (tx, r) else
  let? (sig, r) := r_hex 64 r in
  let tx := tx_set_signature (Some sig) tx in
  let? (blocks, r) := r_pq_blocks (r_remaining r) r in
  let tx := if negb (bool_decide (blocks = [])) then tx_set_second_signatures (Some blocks) tx else tx in
  if (0 <? r_remaining r)%nat then
    let? (_, r) := r_u8 r in
    if negb (Z.of_nat (r_remaining r) mod 65 =? 0)
    then Err (ser_err "v3 multisignature buffer not exhausted")
    else
      let? (sigs, r) := r_repeat (r_remaining r / 65) (r_hex 65) r in
      Ok (tx_set_signatures (Some sigs) tx, r)
  else Ok (tx, r).

Definition can_read_single (r : ByteReader) : bool :=
  let n := Z.of_nat (r_remaining r) in (0 <? n) && ((n mod 64 =? 0) || negb (n mod 65 =? 0)).

(** The participant loop: each part starts with the two hex digits of its participant. *)
Fixpoint r_multisig (n : nat) (seen : gset string) (r : ByteReader) : Res (list string * ByteReader) :=
  match n with
  | O => Ok ([], r)
  | S n =>
      let? (part, r) := r_hex 65 r in
      let key := String.substring 0 2 part in
      if bool_decide (key ∈ seen) then Err (ser_err "duplicate participant in multi signature")
      else let? (ps, r) := r_multisig n ({[key]} ∪ seen) r in Ok (part :: ps, r)
  end.

Definition der_len (r : ByteReader) : Res nat :=
  match r_peek_u8 1 r with
  | Some l => Ok (Z.to_nat l + 2)%nat
  | None => Err (ser_err "truncated DER signature")
  end.

Definition deserialize_schnorr (tx : Transaction) (r : ByteReader) : Res (Transaction * ByteReader) :=
  let? (tx, r) := if can_read_single r
                  then let? (s, r) := r_hex 64 r in Ok (tx_set_signature (Some s) tx, r)
                  else Ok (tx, r) in
  let? (tx, r) := if can_read_single r
                  then let? (s, r) := r_hex 64 r in Ok (tx_set_second_signature (Some s) tx, r)
                  else Ok (tx, r) in
  if (0 <? r_remaining r)%nat then
    if negb (Z.of_nat (r_remaining r) mod 65 =? 0) then Err (ser_err "signature buffer not exhausted")
    else let? (sigs, r) := r_multisig (r_remaining r / 65) ∅ r in Ok (tx_set_signatures (Some sigs) tx, r)
  else Ok (tx, r).

Definition deserialize_ecdsa (tx : Transaction) (r : ByteReader) : Res (Transaction * ByteReader) :=
  let? (tx, r) := if (0 <? r_remaining r)%nat
                  then let? n := der_len r in
                       let? (s, r) := r_hex n r in Ok (tx_set_signature (Some s) tx, r)
                  else Ok (tx, r) in
  let? (tx, r) := if (0 <? r_remaining r)%nat && negb (bool_decide (r_peek_u8 0 r = Some 255))
                  then let? n := der_len r in
                       let? (s, r) := r_hex n r in Ok (tx_set_second_signature (Some s) tx, r)
                  else Ok (tx, r) in
  let? (tx, r) := if (0 <? r_remaining r)%nat && bool_decide (r_peek_u8 0 r = Some 255)
                  then let? (_, r) := r_u8 r in
                       let '(rest, r) := r_rest r in
                       Ok (tx_set_signatures (Some [hex_encode rest]) tx, r)
                  else Ok (tx, r) in
  if (0 <? r_remaining r)%nat then Err (ser_err "signature buffer not exhausted") else Ok (tx, r).

Definition deserialize_signatures (tx : Transaction) (r : ByteReader) : Res (Transaction * ByteReader) :=
  if is_pq tx then deserialize_signatures_v3 tx r
  else if detect_schnorr (r_remaining r) then deserialize_schnorr tx r
  else deserialize_ecdsa tx r.

(** The record the decoder starts from. *)
Definition tx_head (version network type_group type_ nonce : Z) (sender : string) (fee : Z) : Transaction :=
  mkTx version (Some network) type_group type_ (Some nonce) sender fee 0 None None None None None None
    None None None None None None None None.

Definition deserialize_vendor_field (tx : Transaction) (r : ByteReader) : Res (Transaction * ByteReader) :=
  let? (vf_len, r) := r_u8 r in
  if 0 <? vf_len then
    let? (raw, r) := r_bytes (Z.to_nat vf_len) r in
    Ok (if has_vendor_field tx then tx_set_vendor_field (Some (from_utf8_lossy raw)) tx else tx, r)
  else Ok (tx, r).

Definition deserialize_common (r : ByteReader) : Res (Transaction * ByteReader) :=
  let? (marker, r) := r_u8 r in
  if negb (marker =? 255) then Err (ser_err "missing 0xff transaction marker") else
  let? (version, r) := r_u8 r in
  let? (network, r) := r_u8 r in
  if version =? 1 then Err (ser_err "legacy v1 transactions are not supported on this chain") else
  let? (type_group, r) := r_u32_le r in
  let? (type_, r) := r_u16_le r in
  let? (nonce, r) := r_u64_le r in
  let? (sender, r) := r_hex 33 r in
  let? (fee, r) := r_u64_le r in
  Ok (tx_head version network type_group type_ nonce sender fee, r).

Definition deserialize_transaction (b : list byte) : Res Transaction :=
  let? (tx, r) := deserialize_common (r_new b) in
  let? (tx, r) := deserialize_vendor_field tx r in
  let? (tx, r) := deserialize_type_payload tx r in
  let? (tx, _) := deserialize_signatures tx r in
  Ok (tx_set_id (Some (hex_encode (sha256 b))) tx).

End codec.
