(* ===== verification/TxWire.v ===== *)
(** * Round trip of the transaction wire format

    The class of transactions the decoder of [TxCodec] produces, as inductive relations that follow
    the decoder's three stages (head and vendor field, type payload, signatures), and the proof
    that each stage reads back exactly what the encoder wrote. *)

From S2P Require Import Prelude Models Env Bytes Crypto Config TxCodec.

Section wire.
Context `{E : Env} `{L : !EnvLaws E}.

(** ** Codecs

    [codec enc dec x]: [enc] appends a fixed string of bytes, and [dec] at a cursor in front of
    those bytes returns [x] and stops right behind them, whatever surrounds them. *)

Definition codec {A} (enc : ByteWriter -> Res ByteWriter) (dec : ByteReader -> Res (A * ByteReader)) (x : A) : Prop :=
  exists p, (forall w, enc w = Ok (w_put p w)) /\
            forall pre suf, dec (rd pre (p ++ suf)) = Ok (x, rd (pre ++ p) suf).

Lemma w_put_nil w : w_put [] w = w.
Proof. destruct w. unfold w_put. cbn. by rewrite app_nil_r. Qed.

(** Loops of codecs. *)
Lemma codec_repeat {A} (enc : ByteWriter -> A -> Res ByteWriter) dec (l : list A) :
  Forall (fun x => codec (fun w => enc w x) dec x) l ->
  codec (rfold enc l) (r_repeat (length l) dec) l.
Proof.
  induction 1 as [|x l (p & Hw & Hr) _ (q & Hws & Hrs)]; cbn [rfold length r_repeat].
  - exists []. split; intros; [by rewrite w_put_nil|]. by rewrite app_nil_r.
  - exists (p ++ q). split.
    + intros w. rewrite Hw. cbn. by rewrite Hws, w_put_put.
    + intros pre suf. rewrite <-app_assoc, Hr. cbn. rewrite Hrs. cbn. by rewrite <-app_assoc.
Qed.

Lemma codec_address a : addr_str a -> codec (write_address a) read_address a.
Proof.
  intros (b & Hb & ->). exists b. unfold write_address, read_address. split.
  - intros w. change (b58check_encode b) with (address_from_bytes b).
    by rewrite address_to_bytes_from.
  - intros pre suf. by rewrite r_bytes_rd.
Qed.

Lemma codec_hex n s : hex_str n s -> codec (w_hex s) (r_hex n) s.
Proof.
  intros (b & Hb & ->). exists b. split; intros.
  - apply w_hex_encode.
  - by apply r_hex_rd.
Qed.

(** A byte string that fits its length prefix. *)
Definition fits (n : Z) (s : string) : Prop := Z.of_nat (length (bytes_of s)) <= n.
Definition text_str (n : Z) (s : string) : Prop := utf8_str s /\ fits n s.
(** Optional text: present only when not empty. *)
Definition otext (n : Z) (o : option string) : Prop :=
  match o with Some s => text_str n s /\ s <> EmptyString | None => True end.

Lemma slen_zero s : (slen s =? 0) = bool_decide (s = EmptyString).
Proof. destruct s; [done|]. unfold slen. cbn [String.length]. rewrite bool_decide_false by done. apply Z.eqb_neq. lia. Qed.

Lemma r_text_rd n o pre suf :
  otext n o ->
  r_text (Z.of_nat (length (bytes_of (default EmptyString o)))) (rd pre (bytes_of (default EmptyString o) ++ suf))
  = Ok (o, rd (pre ++ bytes_of (default EmptyString o)) suf).
Proof.
  intros Ho. unfold r_text. rewrite Nat2Z.id, r_bytes_rd by done. cbn [rbind].
  rewrite slen_zero. destruct o as [s|]; cbn [default].
  - destruct Ho as [[Hu _] Hne]. unfold default, id. cbn. rewrite utf8_str_lossy by done.
    by rewrite bool_decide_false.
  - unfold default. rewrite (utf8_str_lossy EmptyString) by (by apply from_utf8_ascii). done.
Qed.

Lemma bytes_of_pos s : s <> EmptyString -> 0 < Z.of_nat (length (bytes_of s)).
Proof. destruct s; [done|]. rewrite length_bytes_of. cbn [String.length]. lia. Qed.

Lemma r_opt_text_rd n o pre suf :
  otext n o ->
  r_opt_text (Z.of_nat (length (bytes_of (default EmptyString o)))) (rd pre (bytes_of (default EmptyString o) ++ suf))
  = Ok (o, rd (pre ++ bytes_of (default EmptyString o)) suf).
Proof.
  intros Ho. unfold r_opt_text. destruct o as [s|]; unfold default, id in *.
  - destruct Ho as [[Hu _] Hne]. pose proof (bytes_of_pos s Hne).
    destruct (Z.ltb_spec 0 (Z.of_nat (length (bytes_of s)))); [|lia].
    rewrite Nat2Z.id, r_bytes_rd by done. cbn. by rewrite utf8_str_lossy.
  - cbn. by rewrite app_nil_r.
Qed.

Lemma otext_fits n o : 0 <= n -> otext n o -> Z.of_nat (length (bytes_of (default EmptyString o))) <= n.
Proof. intros Hn. destruct o as [s|]; cbn; [|done]. intros [[_ ?] _]. done. Qed.
End wire.

(** ** Tactics: run a writer, and step a reader over the bytes in front of it *)

Ltac run_writer :=
  cbn [rbind]; unfold w_u8, w_u16_le, w_u32_le, w_u64_le, w_bytes; rewrite ?w_put_put; reflexivity.

Ltac step_reader :=
  repeat (first
    [ rewrite r_u8_rd by (bounds; lia)
    | rewrite r_u16_rd by (bounds; lia)
    | rewrite r_u32_rd by (bounds; lia)
    | rewrite r_u64_rd by (bounds; lia)
    | match goal with H : forall pre suf, _ (rd pre (_ ++ suf)) = Ok _ |- _ => rewrite H end
    | rewrite Nat2Z.id
    | rewrite r_hex_rd by done
    | rewrite r_bytes_rd by done ];
    cbn [rbind]).

(** A codec made of fixed fields only. *)
Ltac codec_run :=
  eexists; split;
  [ intros w; cbn [rbind Nat.eqb negb]; run_writer
  | intros pre suf; rewrite <-?app_assoc; step_reader; rewrite <-?app_assoc; reflexivity ].

(** ** Items of the counted loops *)

Section items.
Context `{E : Env} `{L : !EnvLaws E}.

Definition wire_payment (p : Payment) : Prop := in_u64 p.(p_amount) /\ addr_str p.(p_recipient_id).
Definition wire_item (i : TokenTransferItem) : Prop := in_u64 i.(ti_amount) /\ addr_str i.(ti_recipient_id).
Definition wire_vote (v : string) : Prop :=
  exists sign pk, (sign = "+" \/ sign = "-")%string /\ hex_str 33 pk /\ v = sign +:+ pk.

Lemma codec_payment p : wire_payment p -> codec (fun w => serialize_payment w p) deserialize_payment p.
Proof.
  destruct p as [n a]. intros [Hn Ha]. cbn in *. destruct (codec_address a Ha) as (q & Hw & Hr).
  eexists. split; [intros w; unfold serialize_payment; cbn; rewrite Hw; run_writer|].
  intros pre suf. unfold deserialize_payment. rewrite <-!app_assoc. step_reader.
  by rewrite <-!app_assoc.
Qed.

Lemma codec_item i : wire_item i -> codec (fun w => serialize_item w i) deserialize_item i.
Proof.
  destruct i as [a n]. intros [Hn Ha]. cbn in *. destruct (codec_address a Ha) as (q & Hw & Hr).
  eexists. split; [intros w; unfold serialize_item; cbn; rewrite Hw; run_writer|].
  intros pre suf. unfold deserialize_item. rewrite <-!app_assoc. step_reader.
  by rewrite <-!app_assoc.
Qed.

Lemma codec_vote v : wire_vote v -> codec (fun w => serialize_vote w v) deserialize_vote v.
Proof.
  intros (sign & pk & Hs & Hpk & ->). destruct (codec_hex 33 pk Hpk) as (q & Hw & Hr).
  assert (exists b : bool, split_sign (sign +:+ pk) = Some (b, pk) /\ sign = (if b then "+" else "-")%string) as (b & Hsp & ->).
  { destruct Hs as [-> | ->]; [exists true|exists false]; done. }
  eexists. split.
  - intros w. unfold serialize_vote. rewrite Hsp. cbn [rbind ok_or]. rewrite Hw. run_writer.
  - intros pre suf. unfold deserialize_vote. rewrite <-!app_assoc.
    rewrite r_u8_rd by (destruct b; bounds; lia). cbn [rbind]. step_reader.
    rewrite <-!app_assoc. by destruct b.
Qed.

(** Token metadata. *)
Record wire_meta (m : TokenMeta) : Prop := {
  wm_name : text_str u8_max m.(tm_name);
  wm_description : otext u16_max m.(tm_description);
  wm_website : otext u8_max m.(tm_website);
  wm_logo_type : m.(tm_logo_type) = None \/ m.(tm_logo_type) = Some "svg"%string \/ m.(tm_logo_type) = Some "png"%string;
  wm_logo : match m.(tm_logo) with
            | Some l => exists b, 0 < Z.of_nat (length b) <= u16_max /\ l = base64_encode b
            | None => True
            end
}.

Lemma logo_name_byte m :
  (m.(tm_logo_type) = None \/ m.(tm_logo_type) = Some "svg"%string \/ m.(tm_logo_type) = Some "png"%string) ->
  in_u8 (logo_type_byte m) /\ logo_type_name (logo_type_byte m) = m.(tm_logo_type).
Proof. unfold logo_type_byte. intros [H|[H|H]]; rewrite H; cbn; split; (done || bounds; lia). Qed.

Lemma r_text_name n s pre suf :
  text_str n s ->
  r_text (Z.of_nat (length (bytes_of s))) (rd pre (bytes_of s ++ suf))
  = Ok (if bool_decide (s = EmptyString) then None else Some s, rd (pre ++ bytes_of s) suf).
Proof.
  intros [Hu _]. unfold r_text. rewrite Nat2Z.id, r_bytes_rd by done. cbn [rbind].
  rewrite utf8_str_lossy by done. rewrite slen_zero. by destruct (bool_decide _).
Qed.

Lemma leb_ltb_false x y : x <= y -> (y <? x) = false.
Proof. lia. Qed.

Lemma codec_meta m : wire_meta m -> codec (serialize_meta m) deserialize_meta m.
Proof.
  intros [Hn Hd Hs Ht Hl]. destruct (logo_name_byte m Ht) as [Hb Htn].
  pose proof (otext_fits u16_max _ ltac:(done) Hd) as Fd. pose proof (otext_fits u8_max _ ltac:(done) Hs) as Fs.
  pose proof (proj2 Hn) as Fn. unfold fits in Fn.
  assert (exists lb, (match m.(tm_logo) with Some _ => ok_or (logo_bytes m) (ser_err "logo is not base64") | None => Ok [] end) = Ok lb
             /\ Z.of_nat (length lb) <= u16_max
             /\ (if 0 <? Z.of_nat (length lb) then Some (base64_encode lb) else None) = m.(tm_logo)) as (lb & Hlb & Flb & Hlo).
  { unfold logo_bytes. destruct (tm_logo m) as [l|]; [|exists []; done].
    destruct Hl as (b & Hlen & ->). exists b. rewrite base64_decode_encode. split; [done|]. split; [lia|].
    by destruct (Z.ltb_spec 0 (Z.of_nat (length b))); [|lia]. }
  eexists. split.
  - intros w. unfold serialize_meta. rewrite Hlb. cbn [rbind].
    change u8_max with 255 in Fn, Fs.
    rewrite (leb_ltb_false _ _ Fn), (leb_ltb_false _ _ Fd), (leb_ltb_false _ _ Fs), (leb_ltb_false _ _ Flb).
    cbn [orb]. run_writer.
  - intros pre suf. unfold deserialize_meta. rewrite <-!app_assoc.
    rewrite r_u8_rd by (bounds; lia). cbn [rbind]. rewrite (r_text_name _ _ _ _ Hn). cbn [rbind].
    rewrite r_u16_rd by (bounds; lia). cbn [rbind]. rewrite (r_text_rd _ _ _ _ Hd). cbn [rbind].
    rewrite r_u8_rd by (bounds; lia). cbn [rbind]. rewrite (r_text_rd _ _ _ _ Hs). cbn [rbind].
    step_reader. rewrite Htn, Hlo, <-!app_assoc. destruct m as [nm ? ? ? ?]. cbn.
    by destruct (bool_decide_reflect (nm = EmptyString)) as [->|].
Qed.

Definition wire_block (b : PqSignatureBlock) : Prop :=
  0 <= b.(pb_algorithm) < 255 /\ exists s, Z.of_nat (length s) <= u16_max /\ b.(pb_signature) = hex_encode s.

(** The token asset of each transaction type. *)
Inductive wire_token : Z -> TokenAsset -> Prop :=
| wt_init id d f s c :
    hex_str 32 id -> in_u8 d -> in_u8 f -> in_u64 s -> in_u64 c ->
    wire_token token.INIT (mkToken id (Some d) (Some f) (Some s) (Some c) None None None None None None None)
| wt_transfer id items memo :
    hex_str 32 id -> Forall wire_item items -> Z.of_nat (length items) <= u16_max -> otext u8_max memo ->
    wire_token token.TRANSFER (mkToken id None None None None (Some items) memo None None None None None)
| wt_mint id n a :
    hex_str 32 id -> in_u64 n -> addr_str a ->
    wire_token token.MINT (mkToken id None None None None None None (Some n) (Some a) None None None)
| wt_burn id n :
    hex_str 32 id -> in_u64 n ->
    wire_token token.BURN (mkToken id None None None None None None (Some n) None None None None)
| wt_meta id m :
    hex_str 32 id -> wire_meta m ->
    wire_token token.META (mkToken id None None None None None None None None (Some m) None None)
| wt_sell id n p :
    hex_str 32 id -> in_u64 n -> in_u64 p ->
    wire_token token.SELL (mkToken id None None None None None None (Some n) None None (Some p) None)
| wt_buy id n oid :
    hex_str 32 id -> in_u64 n -> hex_str 32 oid ->
    wire_token token.BUY (mkToken id None None None None None None (Some n) None None None (Some oid))
| wt_cancel id oid :
    hex_str 32 id -> hex_str 32 oid ->
    wire_token token.CANCEL (mkToken id None None None None None None None None None None (Some oid)).

Lemma hex_or_encode b what : hex_or (hex_encode b) what = Ok b.
Proof. unfold hex_or. by rewrite hex_decode_encode. Qed.

Lemma utf8_lossy_memo o :
  otext u8_max o ->
  (if slen (from_utf8_lossy (bytes_of (default EmptyString o))) =? 0 then None
   else Some (from_utf8_lossy (bytes_of (default EmptyString o)))) = o.
Proof.
  intros Ho. rewrite slen_zero. destruct o as [s|]; unfold default, id in *.
  - destruct Ho as [[Hu _] Hne]. rewrite utf8_str_lossy by done. by rewrite bool_decide_false.
  - by rewrite (utf8_str_lossy EmptyString) by (by apply from_utf8_ascii).
Qed.

Lemma codec_token tx a :
  token_asset tx = Some a -> wire_token tx.(tx_type_) a ->
  codec (serialize_token tx) (deserialize_token_asset tx.(tx_type_)) a.
Proof.
  intros Ha Hw. unfold serialize_token, deserialize_token_asset. rewrite Ha.
  remember (tx_type_ tx) as ty eqn:Hty. clear Hty Ha.
  destruct Hw as [id d f s c (b & Hb & ->)|id items memo (b & Hb & ->) Hit Hlen Hm
                 |id n r (b & Hb & ->) Hn Hr|id n (b & Hb & ->) Hn|id m (b & Hb & ->) Hm
                 |id n p (b & Hb & ->) Hn Hp|id n oid (b & Hb & ->) Hn (o & Ho & ->)|id oid (b & Hb & ->) (o & Ho & ->)];
    cbn -[hex_or Nat.eqb bytes_of]; rewrite hex_or_encode; cbn [rbind]; rewrite Hb; cbn [Nat.eqb negb].
  - codec_run.
  - destruct (codec_repeat serialize_item deserialize_item items) as (q & Hws & Hrs).
    { eapply Forall_impl; [exact Hit|]. apply codec_item. }
    pose proof (otext_fits u8_max memo ltac:(done) Hm) as Fm. change u8_max with 255 in Fm.
    eexists. split.
    + intros w. rewrite (leb_ltb_false _ _ Hlen), (leb_ltb_false _ _ Fm). cbn [orb].
      rewrite Hws. run_writer.
    + intros pre suf. rewrite <-!app_assoc. step_reader.
      rewrite (utf8_lossy_memo memo Hm), <-!app_assoc. done.
  - destruct (codec_address r Hr) as (q & Hws & Hrs).
    eexists. split; [intros w; cbn [rbind]; rewrite Hws; run_writer|].
    intros pre suf. rewrite <-!app_assoc. step_reader. by rewrite <-!app_assoc.
  - codec_run.
  - destruct (codec_meta m Hm) as (q & Hws & Hrs).
    eexists. split; [intros w; cbn [rbind]; rewrite Hws; run_writer|].
    intros pre suf. rewrite <-!app_assoc. step_reader. by rewrite <-!app_assoc.
  - codec_run.
  - rewrite hex_or_encode. cbn [rbind]. rewrite Ho. codec_run.
  - rewrite hex_or_encode. cbn [rbind]. rewrite Ho. codec_run.
Qed.

(** *** SmartObject assets *)

Lemma dec_go_digits fuel n acc :
  0 <= n -> str_forall (fun c => c <? 128) acc = true -> str_forall (fun c => c <? 128) (dec_go fuel n acc) = true.
Proof.
  revert n acc; induction fuel as [|f IH]; intros n acc Hn Ha; cbn [dec_go]; [done|].
  assert (Hs : str_forall (fun c => c <? 128) (String (digit_char (n mod 10)) acc) = true).
  { cbn [str_forall]. rewrite Ha, andb_true_r, digit_char_code by (pose proof (Z.mod_pos_bound n 10); lia).
    pose proof (Z.mod_pos_bound n 10). apply Z.ltb_lt. lia. }
  destruct (n <? 10); [done|]. apply IH; [apply Z.div_pos; lia|done].
Qed.

Lemma dec_go_length fuel n acc : (String.length (dec_go fuel n acc) <= fuel + String.length acc)%nat.
Proof.
  revert n acc; induction fuel as [|f IH]; intros n acc; cbn [dec_go]; [lia|].
  destruct (n <? 10); cbn [String.length]; [lia|].
  etrans; [apply IH|]. cbn [String.length]. lia.
Qed.

Lemma fmt_u_text n : 0 <= n -> otext u8_max (Some (fmt_u n)).
Proof.
  intros Hn. split; [split|].
  - apply from_utf8_ascii, dec_go_digits; done.
  - unfold fits. rewrite length_bytes_of. pose proof (dec_go_length 40 n "") as H. cbn [String.length] in H.
    unfold fmt_u. bounds. lia.
  - unfold fmt_u. destruct (dec_go_S 39 n "") as (d & s & -> & _). done.
Qed.

(** The third text of the payload: recipient, price or data, by action. *)
Inductive wire_sobj : SmartObjectAsset -> Prop :=
| ws_transfer t st reg rc nm :
    wire_sobj (mkSobjAsset t st sobj.ACTION_TRANSFER reg rc None (mkSobjData nm None))
| ws_sell t st reg p nm :
    in_u64 p ->
    wire_sobj (mkSobjAsset t st sobj.ACTION_SELL reg None (Some p) (mkSobjData nm None))
| ws_other t st ac reg nm nd :
    ac <> sobj.ACTION_TRANSFER -> ac <> sobj.ACTION_SELL ->
    wire_sobj (mkSobjAsset t st ac reg None None (mkSobjData nm nd)).

Record wire_sobj_fields (e : SmartObjectAsset) : Prop := {
  wsf_type : in_u8 e.(sa_type_);
  wsf_sub : in_u8 e.(sa_sub_type);
  wsf_action : in_u8 e.(sa_action);
  wsf_reg : match e.(sa_registration_id) with
            | Some r => exists b, 0 < Z.of_nat (length b) <= u8_max /\ r = hex_encode b
            | None => True
            end;
  wsf_recipient : otext u8_max e.(sa_recipient_id);
  wsf_name : otext u8_max e.(sa_data).(sd_name);
  wsf_data : otext u8_max e.(sa_data).(sd_ntfry_data)
}.

Definition sobj_slot (e : SmartObjectAsset) : option string :=
  if e.(sa_action) =? sobj.ACTION_TRANSFER then e.(sa_recipient_id)
  else if e.(sa_action) =? sobj.ACTION_SELL then fmt_u <$> e.(sa_price)
  else e.(sa_data).(sd_ntfry_data).

Lemma sobj_slot_text e : wire_sobj e -> wire_sobj_fields e -> otext u8_max (sobj_slot e).
Proof.
  intros [t st reg rc nm|t st reg p nm Hp|t st ac reg nm nd H3 H4] []; unfold sobj_slot.
  - done.
  - apply fmt_u_text. bounds. lia.
  - cbn. by rewrite (proj2 (Z.eqb_neq _ _) H3), (proj2 (Z.eqb_neq _ _) H4).
Qed.

(** What the reader makes of the slot. *)
Definition sobj_of_slot (t st ac : Z) (reg nm slot : option string) : Res SmartObjectAsset :=
  let transfer := ac =? sobj.ACTION_TRANSFER in
  let sell := ac =? sobj.ACTION_SELL in
  let? price := if sell
                then let? p := ok_or (parse_u64 (default "0"%string slot)) (ser_err "sObject price is not a number") in
                     Ok (Some p)
                else Ok None in
  Ok (mkSobjAsset t st ac reg (if transfer then slot else None) price
        (mkSobjData nm (if transfer || sell then None else slot))).

Lemma sobj_of_slot_id e :
  wire_sobj e ->
  sobj_of_slot e.(sa_type_) e.(sa_sub_type) e.(sa_action) e.(sa_registration_id) e.(sa_data).(sd_name) (sobj_slot e) = Ok e.
Proof.
  intros [t st reg rc nm|t st reg p nm Hp|t st ac reg nm nd H3 H4]; unfold sobj_of_slot, sobj_slot; cbn -[fmt_u parse_u64].
  - done.
  - by rewrite parse_fmt_u.
  - by rewrite (proj2 (Z.eqb_neq _ _) H3), (proj2 (Z.eqb_neq _ _) H4).
Qed.

Lemma codec_sobj tx base e :
  sobj_asset tx = Some e -> wire_sobj e -> wire_sobj_fields e ->
  codec (serialize_sobj tx) (deserialize_sobj base) (asset_mut (as_set_extra (sobj_into_map e)) base).
Proof.
  intros Ha He Hf. pose proof (sobj_slot_text e He Hf) as Hslot. pose proof (sobj_of_slot_id e He) as Hid.
  destruct Hf as [Ht Hst Hac Hreg _ Hnm _].
  assert (exists rb, (match e.(sa_registration_id) with Some r => hex_or r "bad registrationId" | None => Ok [] end) = Ok rb
    /\ Z.of_nat (length rb) <= 255
    /\ forall pre suf, r_opt_hex (Z.of_nat (length rb)) (rd pre (rb ++ suf)) = Ok (e.(sa_registration_id), rd (pre ++ rb) suf))
    as (rb & Hrb & Frb & Rrb).
  { destruct (sa_registration_id e) as [r|]; [|exists []; split_and!; [done|cbn; lia|intros; by rewrite app_nil_r]].
    destruct Hreg as (b & Hb & ->). exists b. rewrite hex_or_encode. split_and!; [done|bounds; lia|].
    intros. unfold r_opt_hex. destruct (Z.ltb_spec 0 (Z.of_nat (length b))); [|lia].
    by rewrite Nat2Z.id, r_hex_rd. }
  pose proof (otext_fits 255 _ ltac:(done) Hnm) as Fnm. pose proof (otext_fits 255 _ ltac:(done) Hslot) as Fsl.
  eexists. split.
  - intros w. unfold serialize_sobj. rewrite Ha. cbn [rbind ok_or]. rewrite Hrb. cbn [rbind]. fold (sobj_slot e).
    rewrite (leb_ltb_false _ _ Frb), (leb_ltb_false _ _ Fnm), (leb_ltb_false _ _ Fsl). cbn [orb]. run_writer.
  - intros pre suf. unfold deserialize_sobj. rewrite <-!app_assoc. step_reader.
    rewrite (r_opt_text_rd _ _ _ _ Hnm). cbn [rbind]. step_reader.
    rewrite (r_opt_text_rd _ _ _ _ Hslot). cbn [rbind]. unfold sobj_of_slot in Hid.
    apply rbind_ok_inv in Hid as (pr & -> & Hid). cbn [rbind]. injection Hid as Hid. rewrite Hid, <-!app_assoc. done.
Qed.

End items.

(** ** The type payload *)

Section payload.
Context `{E : Env} `{L : !EnvLaws E}.

(** [wire_core base tx]: [tx] is [base] with the payload of its core type filled in. *)
Inductive wire_core (base : Transaction) : Transaction -> Prop :=
| wc_transfer amount e a :
    base.(tx_type_) = tx_type.TRANSFER -> in_u64 amount -> in_u32 e -> addr_str a ->
    wire_core base (tx_set_recipient_id (Some a) (tx_set_expiration (Some e) (tx_set_amount amount base)))
| wc_second pk :
    base.(tx_type_) = tx_type.SECOND_SIGNATURE -> is_pq base = false -> hex_str 33 pk ->
    wire_core base (asset_mut (as_set_signature (Some (mkSecondSig pk None))) base)
| wc_second_pq alg b :
    base.(tx_type_) = tx_type.SECOND_SIGNATURE -> is_pq base = true -> in_u8 alg ->
    Z.of_nat (length b) <= u16_max ->
    wire_core base (asset_mut (as_set_signature (Some (mkSecondSig (hex_encode b) (Some alg)))) base)
| wc_delegate name :
    base.(tx_type_) = tx_type.DELEGATE_REGISTRATION -> text_str u8_max name ->
    wire_core base (asset_mut (as_set_delegate (Some (mkDelegate name))) base)
| wc_vote votes :
    base.(tx_type_) = tx_type.VOTE -> Forall wire_vote votes -> Z.of_nat (length votes) <= u8_max ->
    wire_core base (asset_mut (as_set_votes (Some votes)) base)
| wc_multi min keys :
    base.(tx_type_) = tx_type.MULTI_SIGNATURE -> in_u8 min -> Forall (hex_str 33) keys ->
    Z.of_nat (length keys) <= u8_max ->
    wire_core base (asset_mut (as_set_multi_signature (Some (mkMultiSig min keys))) base)
| wc_ipfs code b :
    base.(tx_type_) = tx_type.IPFS -> in_u8 code -> Z.of_nat (length b) <= u8_max ->
    wire_core base (asset_mut (as_set_ipfs (Some (b58_encode
      (byte_of_Z code :: byte_of_Z (Z.of_nat (length b)) :: b)))) base)
| wc_payments ps :
    base.(tx_type_) = tx_type.MULTI_PAYMENT -> Forall wire_payment ps -> Z.of_nat (length ps) <= u16_max ->
    wire_core base (asset_mut (as_set_payments (Some ps)) (tx_set_amount 0 base))
| wc_resignation :
    base.(tx_type_) = tx_type.DELEGATE_RESIGNATION -> wire_core base base
| wc_lock amount h ty v a :
    base.(tx_type_) = tx_type.HTLC_LOCK -> in_u64 amount -> hex_str 32 h -> in_u8 ty -> in_u32 v -> addr_str a ->
    wire_core base (asset_mut (as_set_lock (Some (mkLockAsset h (mkExpiration ty v))))
      (tx_set_recipient_id (Some a) (tx_set_amount amount base)))
| wc_claim i s :
    base.(tx_type_) = tx_type.HTLC_CLAIM -> hex_str 32 i -> hex_str 32 s ->
    wire_core base (asset_mut (as_set_claim (Some (mkClaim i s))) base)
| wc_refund i :
    base.(tx_type_) = tx_type.HTLC_REFUND -> hex_str 32 i ->
    wire_core base (asset_mut (as_set_refund (Some (mkRefund i))) base).

Inductive wire_payload (base : Transaction) : Transaction -> Prop :=
| wp_sobj e :
    is_sobj base = true -> wire_sobj e -> wire_sobj_fields e ->
    wire_payload base (asset_mut (as_set_extra (sobj_into_map e)) base)
| wp_token a :
    is_token base = true -> wire_token base.(tx_type_) a ->
    wire_payload base (asset_mut (fun s => as_set_extra (<["token"%string := token_to_value a]> s.(as_extra)) s) base)
| wp_core tx :
    base.(tx_type_group) = TYPE_GROUP_CORE -> wire_core base tx -> wire_payload base tx.

Lemma codec_hexes n l :
  Forall (hex_str n) l -> codec (rfold (fun w s => w_hex s w) l) (r_repeat (length l) (r_hex n)) l.
Proof.
  intros H. apply codec_repeat. eapply Forall_impl; [exact H|]. intros s Hs. apply codec_hex, Hs.
Qed.

Lemma codec_map {A B} (f : A -> B) enc (dec : ByteReader -> Res (A * ByteReader)) x :
  codec enc dec x -> codec enc (fun r => let? (y, r) := dec r in Ok (f y, r)) (f x).
Proof. intros (p & Hw & Hr). exists p. split; [done|]. intros. by rewrite Hr. Qed.

(** A counted loop behind a prefix that was already read. *)
Lemma codec_ext {A} enc enc' (dec dec' : ByteReader -> Res (A * ByteReader)) x :
  codec enc dec x -> (forall w, enc' w = enc w) -> (forall r, dec' r = dec r) -> codec enc' dec' x.
Proof. intros (p & Hw & Hr) H1 H2. exists p. split; intros; [by rewrite H1|by rewrite H2]. Qed.

End payload.

Ltac codec_seq q Hws Hrs :=
  eexists; split;
  [ intros w; cbn [rbind ok_or]; rewrite ?Hws; run_writer
  | intros pre suf; rewrite <-?app_assoc; step_reader; rewrite <-?app_assoc; reflexivity ].

Section payload_codec.
Context `{E : Env} `{L : !EnvLaws E}.

Lemma codec_core base tx :
  base.(tx_asset) = None -> wire_core base tx -> codec (serialize_core tx) (deserialize_core base) tx.
Proof.
  intros Hnone [amount e a Hty Ha He Had|pk Hty Hpq Hpk|alg b Hty Hpq Ha Hb|name Hty [Hn Hl]|votes Hty Hv Hl
    |min keys Hty Hm Hk Hl|code b Hty Hc Hl|ps Hty Hp Hl|Hty|amount h ty v a Hty Ha Hh Hy Hv Had
    |i s Hty Hi Hs|i Hty Hi];
  unfold serialize_core, deserialize_core; cbn -[Z.eqb r_slice r_position]; rewrite Hty, ?Hnone; cbn -[bytes_of Nat.eqb r_slice].
  - destruct (codec_address a Had) as (q & Hws & Hrs). codec_seq q Hws Hrs.
  - destruct (codec_hex 33 pk Hpk) as (q & Hws & Hrs).
    change (is_pq (asset_mut _ base)) with (is_pq base). rewrite Hpq. codec_seq q Hws Hrs.
  - change (is_pq (asset_mut _ base)) with (is_pq base). rewrite Hpq, hex_or_encode. cbn [rbind].
    rewrite (leb_ltb_false _ _ Hb). codec_run.
  - eexists. split; [intros w; run_writer|]. intros pre suf. rewrite <-!app_assoc. unfold fits in Hl.
    step_reader. rewrite Hn. cbn [rbind ok_or]. by rewrite <-!app_assoc.
  - destruct (codec_repeat serialize_vote deserialize_vote votes) as (q & Hws & Hrs).
    { eapply Forall_impl; [exact Hv|]. apply codec_vote. } codec_seq q Hws Hrs.
  - destruct (codec_hexes 33 keys Hk) as (q & Hws & Hrs). codec_seq q Hws Hrs.
  - exists (byte_of_Z code :: byte_of_Z (Z.of_nat (length b)) :: b). rewrite b58_decode_encode. split.
    { intros w. done. }
    intros pre suf.
    change ((byte_of_Z code :: byte_of_Z (Z.of_nat (length b)) :: b) ++ suf)
      with ([byte_of_Z code] ++ [byte_of_Z (Z.of_nat (length b))] ++ b ++ suf).
    step_reader. rewrite <-!app_assoc. do 6 f_equal. apply (r_slice_rd pre (_ :: _ :: b)).
  - destruct (codec_repeat serialize_payment deserialize_payment ps) as (q & Hws & Hrs).
    { eapply Forall_impl; [exact Hp|]. apply codec_payment. } codec_seq q Hws Hrs.
  - exists []. split; intros; [by rewrite w_put_nil|by rewrite app_nil_r].
  - destruct (codec_address a Had) as (q & Hws & Hrs). destruct (codec_hex 32 h Hh) as (q' & Hws' & Hrs').
    unfold serialize_htlc_lock. cbn -[w_hex write_address].
    eexists; split; [intros w; rewrite Hws'; cbn [rbind]; unfold write_recipient; cbn -[w_hex write_address]; rewrite Hws; run_writer|].
    intros pre suf; rewrite <-!app_assoc; step_reader; by rewrite <-!app_assoc.
  - destruct (codec_hex 32 i Hi) as (q & Hws & Hrs). destruct (codec_hex 32 s Hs) as (q' & Hws' & Hrs').
    eexists; split; [intros w; rewrite Hws; cbn [rbind]; rewrite Hws'; run_writer|].
    intros pre suf; rewrite <-!app_assoc; step_reader; by rewrite <-!app_assoc.
  - destruct (codec_hex 32 i Hi) as (q & Hws & Hrs). codec_seq q Hws Hrs.
Qed.
End payload_codec.

