(* ===== verification/TxRoundtrip.v ===== *)
(** * Round trip of whole transactions

    The type payload stage, the signature stage and the composition of the three stages of
    [deserialize_transaction], on top of the codecs of [TxWire]. *)

From S2P Require Import Prelude Models Env Bytes Crypto Config TxCodec TxWire.

Section payload_stage.
Context `{E : Env} `{L : !EnvLaws E}.

Lemma codec_payload base tx :
  base.(tx_asset) = None -> wire_payload base tx ->
  codec (serialize_type_payload tx) (deserialize_type_payload base) tx.
Proof.
  intros Hnone [e Hs He Hf|a Ht Ha|tx' Hg Hc]; unfold serialize_type_payload, deserialize_type_payload.
  - set (tx' := asset_mut _ base). change (is_sobj tx') with (is_sobj base). rewrite Hs.
    apply codec_sobj; [|done|done]. unfold sobj_asset. change (is_sobj tx') with (is_sobj base). rewrite Hs.
    apply sobj_map_roundtrip.
  - set (tx' := asset_mut _ base). change (is_sobj tx') with (is_sobj base).
    change (is_token tx') with (is_token base). rewrite (token_not_sobj _ Ht), Ht.
    unfold deserialize_token. subst tx'.
    apply (codec_map (fun a => asset_mut (fun s => as_set_extra (<["token"%string := token_to_value a]> s.(as_extra)) s) base)).
    set (tx' := asset_mut _ base). change (tx_type_ base) with (tx_type_ tx').
    apply codec_token; [|done]. unfold token_asset. change (is_token tx') with (is_token base). rewrite Ht.
    subst tx'. unfold asset_mut. cbn. rewrite lookup_insert_eq. apply token_value_roundtrip.
  - assert (Hg' : tx'.(tx_type_group) = TYPE_GROUP_CORE) by (destruct Hc; done).
    rewrite (core_not_sobj _ Hg), (core_not_token _ Hg), (core_not_sobj _ Hg'), (core_not_token _ Hg'), Hg, Hg'.
    by apply codec_core.
Qed.

(** The payload leaves the head, the vendor field and the signatures alone. *)
Lemma payload_frame base tx :
  wire_payload base tx ->
  serialize_common tx = serialize_common base /\ serialize_vendor_field tx = serialize_vendor_field base /\
  tx.(tx_version) = base.(tx_version) /\
  (tx.(tx_signature), tx.(tx_second_signature), tx.(tx_sign_signature), tx.(tx_signatures), tx.(tx_second_signatures))
  = (base.(tx_signature), base.(tx_second_signature), base.(tx_sign_signature), base.(tx_signatures), base.(tx_second_signatures)).
Proof. intros [|? ? ?|? ? []]; split_and!; reflexivity. Qed.
End payload_stage.

(** ** Signatures

    This stage reads to the end of the buffer. *)

Section signatures.
Context `{E : Env} `{L : !EnvLaws E}.

Definition codec_end (enc : ByteWriter -> Res ByteWriter) (dec : ByteReader -> Res (Transaction * ByteReader))
    (tx : Transaction) : Prop :=
  exists p, (forall w, enc w = Ok (w_put p w)) /\ forall pre, exists r, dec (rd pre p) = Ok (tx, r).

Definition unsigned (tx : Transaction) : Prop :=
  (tx.(tx_signature), tx.(tx_second_signature), tx.(tx_sign_signature), tx.(tx_signatures), tx.(tx_second_signatures))
  = (None, None, None, None, None).

Definition with_signature (o : option string) (tx : Transaction) : Transaction :=
  match o with Some s => tx_set_signature (Some s) tx | None => tx end.
Definition with_second_signature (o : option string) (tx : Transaction) : Transaction :=
  match o with Some s => tx_set_second_signature (Some s) tx | None => tx end.
Definition with_blocks (l : list PqSignatureBlock) (tx : Transaction) : Transaction :=
  match l with [] => tx | _ => tx_set_second_signatures (Some l) tx end.
Definition with_signatures (l : list string) (tx : Transaction) : Transaction :=
  match l with [] => tx | _ => tx_set_signatures (Some l) tx end.

(** A DER signature announces its own length in its second byte and never starts with the
    multi-signature marker. *)
Definition der_shape (d : list byte) : Prop :=
  exists h l rest, d = h :: l :: rest /\ Z_of_byte l = Z.of_nat (length rest) /\ Z_of_byte h <> 255.

Definition part_key (s : string) : string := String.substring 0 2 s.

Inductive wire_signatures (base : Transaction) : Transaction -> Prop :=
| wsig_schnorr s1 s2 parts :
    is_pq base = false ->
    from_option (hex_str 64) True s1 -> from_option (hex_str 64) True s2 -> (s1 = None -> s2 = None) ->
    Forall (hex_str 65) parts -> NoDup (part_key <$> parts) -> (length parts <= 63)%nat ->
    wire_signatures base (with_signatures parts (with_second_signature s2 (with_signature s1 base)))
| wsig_ecdsa d1 :
    is_pq base = false -> der_shape d1 -> detect_schnorr (length d1) = false ->
    wire_signatures base (tx_set_signature (Some (hex_encode d1)) base)
| wsig_ecdsa2 d1 d2 :
    is_pq base = false -> der_shape d1 -> der_shape d2 -> detect_schnorr (length (d1 ++ d2)) = false ->
    wire_signatures base (tx_set_second_signature (Some (hex_encode d2)) (tx_set_signature (Some (hex_encode d1)) base))
| wsig_pq_none : is_pq base = true -> wire_signatures base base
| wsig_pq s blocks parts :
    is_pq base = true -> hex_str 64 s -> Forall wire_block blocks -> Forall (hex_str 65) parts ->
    wire_signatures base (with_signatures parts (with_blocks blocks (tx_set_signature (Some s) base))).

(** *** Loops *)

Lemma write_hexes_parts n l :
  Forall (hex_str n) l ->
  exists p, length p = (n * length l)%nat /\ (forall w, write_hexes l w = Ok (w_put p w)) /\
    (forall pre suf, r_repeat (length l) (r_hex n) (rd pre (p ++ suf)) = Ok (l, rd (pre ++ p) suf)) /\
    (forall seen pre suf, n = 65%nat -> NoDup (part_key <$> l) -> (forall s, s ∈ part_key <$> l -> s ∉ seen) ->
       r_multisig (length l) seen (rd pre (p ++ suf)) = Ok (l, rd (pre ++ p) suf)).
Proof.
  induction 1 as [|x l (b & Hb & ->) _ (p & Hlen & Hw & Hr & Hm)]; cbn [length r_repeat r_multisig].
  { exists []. split_and!; intros; rewrite ?app_nil_r; [cbn; lia|by rewrite w_put_nil|done|done]. }
  exists (b ++ p). split_and!.
  - rewrite length_app, Hb, Hlen. lia.
  - intros w. unfold write_hexes in *. cbn [rfold]. rewrite w_hex_encode. cbn [rbind]. by rewrite Hw, w_put_put.
  - intros pre suf. rewrite <-app_assoc, r_hex_rd by done. cbn [rbind]. rewrite Hr. cbn [rbind]. by rewrite <-app_assoc.
  - intros seen pre suf -> Hnd Hs. rewrite fmap_cons in Hnd, Hs. apply NoDup_cons in Hnd as [Hx Hnd].
    rewrite <-app_assoc, r_hex_rd by done. cbn [rbind]. fold (part_key (hex_encode b)).
    rewrite bool_decide_false by (apply Hs; by left).
    rewrite Hm; [cbn [rbind]; by rewrite <-app_assoc|done|done|].
    intros s Hin. rewrite not_elem_of_union, not_elem_of_singleton. split; [by intros ->|]. apply Hs. by right.
Qed.

Lemma pq_blocks_codec blocks :
  Forall wire_block blocks ->
  exists p, (length blocks <= length p)%nat /\ (forall w, rfold serialize_pq_block blocks w = Ok (w_put p w)) /\
    forall fuel pre suf, (length blocks <= fuel)%nat -> (suf = [] \/ exists t, suf = byte_of_Z 255 :: t) ->
      r_pq_blocks fuel (rd pre (p ++ suf)) = Ok (blocks, rd (pre ++ p) suf).
Proof.
  induction 1 as [|[alg sig] l [Ha (s & Hs & Hsig)] _ (p & Hlen & Hw & Hr)].
  { exists []. split_and!; [cbn; lia|intros; by rewrite w_put_nil|].
    intros fuel pre suf _ Hsuf. rewrite app_nil_r. cbn [app]. destruct fuel; [done|]. cbn [r_pq_blocks].
    rewrite r_remaining_rd. destruct Hsuf as [->|[t ->]]; [done|]. rewrite r_peek_u8_rd, Z_of_byte_of_Z. done. }
  cbn in Ha, Hsig. subst sig. exists ([byte_of_Z alg] ++ le_bytes 2 (Z.of_nat (length s)) ++ s ++ p). split_and!.
  - rewrite !length_app. cbn. lia.
  - intros w. cbn [rfold]. unfold serialize_pq_block at 1. cbn [pb_signature pb_algorithm].
    rewrite hex_or_encode. cbn [rbind]. rewrite (leb_ltb_false _ _ Hs). cbn [rbind]. rewrite Hw.
    run_writer.
  - intros [|fuel] pre suf Hf Hsuf; [cbn in Hf; lia|]. cbn [r_pq_blocks]. rewrite r_remaining_rd, <-!app_assoc.
    cbn [app length]. rewrite r_peek_u8_rd, Z_of_byte_of_Z, Z.mod_small by lia.
    rewrite bool_decide_false by (intros [= ->]; lia). cbn [Nat.ltb Nat.leb negb andb].
    change (byte_of_Z alg :: ?x) with ([byte_of_Z alg] ++ x). step_reader.
    rewrite Hr; [|cbn in Hf; lia|done]. cbn [rbind]. by rewrite <-!app_assoc.
Qed.

(** *** The length tests of the schnorr layout *)

Lemma detect_schnorr_true n a k :
  Z.of_nat n = 64 * a + 65 * k -> 0 <= a <= 2 -> 0 <= k -> detect_schnorr n = true.
Proof.
  intros Hn Ha Hk. unfold detect_schnorr. rewrite Hn.
  assert (a = 0 \/ a = 1 \/ a = 2) as [->|[-> | ->]] by lia.
  - replace (64 * 0 + 65 * k) with (k * 65) by lia. rewrite Z.mod_mul by lia. by rewrite !orb_true_r.
  - replace (64 * 1 + 65 * k - 64) with (k * 65) by lia. rewrite Z.mod_mul by lia.
    apply orb_true_iff. left. apply orb_true_iff. right. apply andb_true_iff. split; [apply Z.leb_le; lia|done].
  - replace (64 * 2 + 65 * k - 128) with (k * 65) by lia. rewrite Z.mod_mul by lia.
    apply orb_true_iff. right. apply andb_true_iff. split; [apply Z.leb_le; lia|done].
Qed.

Lemma can_read_single_true pre suf a k :
  Z.of_nat (length suf) = 64 * a + 65 * k -> 1 <= a <= 2 -> 0 <= k -> can_read_single (rd pre suf) = true.
Proof.
  intros Hn Ha Hk. unfold can_read_single. rewrite r_remaining_rd, Hn.
  replace (64 * a + 65 * k) with (65 - a + (a + k - 1) * 65) at 3 by lia.
  rewrite Z.mod_add, (Z.mod_small (65 - a)) by lia.
  rewrite andb_true_iff, orb_true_iff, negb_true_iff, Z.ltb_lt, (Z.eqb_neq (65 - a)). lia.
Qed.

Lemma can_read_single_false pre suf k :
  Z.of_nat (length suf) = 65 * k -> 0 <= k <= 63 -> can_read_single (rd pre suf) = false.
Proof.
  intros Hn Hk. unfold can_read_single. rewrite r_remaining_rd, Hn.
  replace (65 * k) with (k * 65) at 3 by lia. rewrite Z.mod_mul by lia.
  replace (65 * k) with (k + k * 64) at 2 by lia. rewrite Z.mod_add, Z.mod_small by lia.
  destruct (Z.ltb_spec 0 (65 * k)), (Z.eqb_spec k 0); cbn; done || lia.
Qed.

Lemma part_count n k : n = (65 * k)%nat -> (Z.of_nat n mod 65 =? 0) = true /\ (n / 65)%nat = k.
Proof.
  intros ->. split.
  - replace (Z.of_nat (65 * k)) with (Z.of_nat k * 65) by lia. by rewrite Z.mod_mul.
  - rewrite Nat.mul_comm. by apply Nat.div_mul.
Qed.

(** *** The three layouts *)

Definition opt_count (o : option string) : Z := match o with Some _ => 1 | None => 0 end.

Lemma optional_single (o : option string) :
  from_option (hex_str 64) True o ->
  exists q, Z.of_nat (length q) = 64 * opt_count o /\ (forall w, write_opt_hex o false w = Ok (w_put q w)) /\
    forall (set : option string -> Transaction -> Transaction) tx pre suf,
      can_read_single (rd pre (q ++ suf)) = negb (opt_count o =? 0) ->
      (if can_read_single (rd pre (q ++ suf))
       then let? (s, r) := r_hex 64 (rd pre (q ++ suf)) in Ok (set (Some s) tx, r)
       else Ok (tx, rd pre (q ++ suf)))
      = Ok (match o with Some s => set (Some s) tx | None => tx end, rd (pre ++ q) suf).
Proof.
  destruct o as [s|]; cbn [from_option opt_count].
  - intros (b & Hb & ->). exists b. split_and!; [rewrite Hb; done|intros; apply w_hex_encode|].
    intros set tx pre suf ->. cbn [Z.eqb negb]. by rewrite r_hex_rd.
  - intros _. exists []. split_and!; [done|intros; by rewrite w_put_nil|].
    intros set tx pre suf ->. cbn. by rewrite app_nil_r.
Qed.

Lemma with_frame base s1 s2 parts :
  unsigned base ->
  let tx := with_signatures parts (with_second_signature s2 (with_signature s1 base)) in
  is_pq tx = is_pq base /\ tx.(tx_signature) = s1 /\ second_signature_any tx = s2 /\
  tx.(tx_signatures) = match parts with [] => None | _ => Some parts end.
Proof.
  intros [= H1 H2 H3 H4 H5]. unfold second_signature_any.
  by destruct s1, s2, parts; cbn; rewrite ?H1, ?H2, ?H3, ?H4.
Qed.

Lemma schnorr_codec base s1 s2 parts :
  unsigned base -> is_pq base = false ->
  from_option (hex_str 64) True s1 -> from_option (hex_str 64) True s2 -> (s1 = None -> s2 = None) ->
  Forall (hex_str 65) parts -> NoDup (part_key <$> parts) -> (length parts <= 63)%nat ->
  let tx := with_signatures parts (with_second_signature s2 (with_signature s1 base)) in
  codec_end (serialize_signatures tx opts_default) (deserialize_signatures base) tx.
Proof.
  intros Hu Hpq H1 H2 H12 Hp Hnd Hk tx. destruct (with_frame base s1 s2 parts Hu) as (Fp & F1 & F2 & F3).
  fold tx in Fp, F1, F2, F3.
  destruct (optional_single s1 H1) as (q1 & L1 & W1 & R1).
  destruct (optional_single s2 H2) as (q2 & L2 & W2 & R2).
  destruct (write_hexes_parts 65 parts Hp) as (q & Lq & Wq & _ & Rq).
  assert (Hc1 : 0 <= opt_count s1 <= 1) by (destruct s1; cbn; lia).
  assert (Hc2 : 0 <= opt_count s2 <= opt_count s1).
  { destruct s1, s2; cbn; try lia. by specialize (H12 eq_refl). }
  exists (q1 ++ q2 ++ q). split.
  - intros w. unfold serialize_signatures. rewrite Fp, F1, F2, F3, Hpq. cbn [opts_default exclude_signature exclude_second_signature exclude_multi_signature].
    rewrite W1. cbn [rbind]. rewrite W2. cbn [rbind]. destruct parts.
    + destruct q; [|cbn in Lq; lia]. by rewrite app_nil_r, !w_put_put.
    + by rewrite Wq, !w_put_put, <-?app_assoc.
  - intros pre. unfold deserialize_signatures. rewrite Hpq, r_remaining_rd.
    rewrite (detect_schnorr_true _ (opt_count s1 + opt_count s2) (Z.of_nat (length parts))) by (rewrite ?length_app; lia).
    unfold deserialize_schnorr. rewrite (R1 tx_set_signature).
    2:{ destruct (Z.eqb_spec (opt_count s1) 0).
        - apply (can_read_single_false _ _ (Z.of_nat (length parts))); rewrite ?length_app; lia.
        - apply (can_read_single_true _ _ (opt_count s1 + opt_count s2) (Z.of_nat (length parts))); rewrite ?length_app; lia. }
    cbn [rbind]. rewrite (R2 tx_set_second_signature).
    2:{ destruct (Z.eqb_spec (opt_count s2) 0).
        - apply (can_read_single_false _ _ (Z.of_nat (length parts))); rewrite ?length_app; lia.
        - apply (can_read_single_true _ _ (opt_count s2) (Z.of_nat (length parts))); rewrite ?length_app; lia. }
    cbn [rbind]. fold (with_signature s1 base). fold (with_second_signature s2 (with_signature s1 base)).
    rewrite r_remaining_rd. destruct (part_count (length q) (length parts) Lq) as [-> ->].
    subst tx. destruct parts as [|x l]; cbn [with_signatures].
    + destruct q; [|cbn in Lq; lia]. by eexists.
    + rewrite (proj2 (Nat.ltb_lt 0 (length q))) by (cbn in Lq; lia). cbn [negb].
      rewrite <-(app_nil_r q). rewrite Rq; [|done|done|set_solver]. cbn [rbind]. by eexists.
Qed.

Lemma der_len_rd pre d suf : der_shape d -> der_len (rd pre (d ++ suf)) = Ok (length d).
Proof.
  intros (h & l & rest & -> & Hl & _). unfold der_len, r_peek_u8, rd. cbn [r_buf r_pos app].
  rewrite lookup_app_r by lia. replace (length pre + 1 - length pre)%nat with 1%nat by lia. cbn.
  rewrite Hl, Nat2Z.id. f_equal. lia.
Qed.

Lemma der_shape_start d : der_shape d ->
  (0 < length d)%nat /\ forall pre suf, bool_decide (r_peek_u8 0 (rd pre (d ++ suf)) = Some 255) = false.
Proof.
  intros (h & l & rest & -> & _ & Hh). split; [cbn; lia|]. intros pre suf. cbn [app].
  rewrite r_peek_u8_rd. apply bool_decide_false. by intros [= ?].
Qed.

(** The conditional read of one DER signature. *)
Lemma der_read (set : option string -> Transaction -> Transaction) tx pre d suf :
  der_shape d ->
  (let? n := der_len (rd pre (d ++ suf)) in
   let? (s, r) := r_hex n (rd pre (d ++ suf)) in Ok (set (Some s) tx, r))
  = Ok (set (Some (hex_encode d)) tx, rd (pre ++ d) suf).
Proof. intros Hd. rewrite der_len_rd by done. cbn [rbind]. by rewrite r_hex_rd. Qed.

Lemma ecdsa_codec base d1 :
  unsigned base -> is_pq base = false -> der_shape d1 -> detect_schnorr (length d1) = false ->
  let tx := tx_set_signature (Some (hex_encode d1)) base in
  codec_end (serialize_signatures tx opts_default) (deserialize_signatures base) tx.
Proof.
  intros Hu Hpq Hd Hs tx. injection Hu as U1 U2 U3 U4 U5. exists d1. split.
  - intros w. unfold serialize_signatures. change (is_pq tx) with (is_pq base). rewrite Hpq.
    unfold second_signature_any. cbn. by rewrite w_hex_encode, U2, U3, U4.
  - intros pre. unfold deserialize_signatures. rewrite Hpq, r_remaining_rd, Hs.
    destruct (der_shape_start d1 Hd) as [Hp _].
    unfold deserialize_ecdsa. rewrite r_remaining_rd, (proj2 (Nat.ltb_lt _ _) Hp).
    rewrite <-(app_nil_r d1), (der_read tx_set_signature) by done. cbn [rbind]. rewrite r_remaining_rd. cbn [length Nat.ltb Nat.leb andb rbind].
    rewrite r_remaining_rd. cbn [length Nat.ltb Nat.leb andb rbind]. rewrite r_remaining_rd. by eexists.
Qed.

Lemma ecdsa2_codec base d1 d2 :
  unsigned base -> is_pq base = false -> der_shape d1 -> der_shape d2 -> detect_schnorr (length (d1 ++ d2)) = false ->
  let tx := tx_set_second_signature (Some (hex_encode d2)) (tx_set_signature (Some (hex_encode d1)) base) in
  codec_end (serialize_signatures tx opts_default) (deserialize_signatures base) tx.
Proof.
  intros Hu Hpq Hd1 Hd2 Hs tx. injection Hu as U1 U2 U3 U4 U5. exists (d1 ++ d2). split.
  - intros w. unfold serialize_signatures. change (is_pq tx) with (is_pq base). rewrite Hpq.
    unfold second_signature_any. cbn. rewrite w_hex_encode. cbn. rewrite w_hex_encode. cbn. by rewrite U4, w_put_put.
  - intros pre. unfold deserialize_signatures. rewrite Hpq, r_remaining_rd, Hs.
    destruct (der_shape_start d1 Hd1) as [Hp1 _], (der_shape_start d2 Hd2) as [Hp2 Hk2].
    unfold deserialize_ecdsa. rewrite r_remaining_rd, (proj2 (Nat.ltb_lt _ _)) by (rewrite length_app; lia).
    rewrite <-(app_nil_r d2), (der_read tx_set_signature) by done. cbn [rbind].
    rewrite Hk2, r_remaining_rd, app_nil_r, (proj2 (Nat.ltb_lt _ _) Hp2). cbn [negb andb].
    rewrite <-(app_nil_r d2), (der_read tx_set_second_signature) by done. cbn [rbind].
    rewrite r_remaining_rd. cbn [length Nat.ltb Nat.leb andb rbind]. rewrite r_remaining_rd. by eexists.
Qed.

Lemma pq_frame base s blocks parts :
  unsigned base ->
  let tx := with_signatures parts (with_blocks blocks (tx_set_signature (Some s) base)) in
  is_pq tx = is_pq base /\ tx.(tx_signature) = Some s /\ pq_blocks tx = blocks /\
  tx.(tx_signatures) = match parts with [] => None | _ => Some parts end.
Proof.
  intros [= H1 H2 H3 H4 H5]. unfold pq_blocks.
  by destruct blocks, parts; cbn; rewrite ?H4, ?H5.
Qed.

Lemma pq_codec base s blocks parts :
  unsigned base -> is_pq base = true -> hex_str 64 s -> Forall wire_block blocks -> Forall (hex_str 65) parts ->
  let tx := with_signatures parts (with_blocks blocks (tx_set_signature (Some s) base)) in
  codec_end (serialize_signatures tx opts_default) (deserialize_signatures base) tx.
Proof.
  intros Hu Hpq Hs Hb Hp tx. destruct (pq_frame base s blocks parts Hu) as (Fp & F1 & F2 & F3).
  fold tx in Fp, F1, F2, F3.
  destruct (codec_hex 64 s Hs) as (q1 & W1 & R1).
  assert (L1 : length q1 = 64%nat).
  { destruct Hs as (b & Hb64 & ->). specialize (W1 (mkWriter [])). rewrite w_hex_encode in W1.
    injection W1 as <-. done. }
  destruct (pq_blocks_codec blocks Hb) as (qb & Lb & Wb & Rb).
  destruct (write_hexes_parts 65 parts Hp) as (q & Lq & Wq & Rq & _).
  set (tail := match parts with [] => [] | _ => [byte_of_Z 255] ++ q end).
  exists (q1 ++ qb ++ tail). split.
  - intros w. unfold serialize_signatures. rewrite Fp, F1, F2, F3, Hpq. cbn [opts_default exclude_signature exclude_second_signature exclude_multi_signature write_opt_hex].
    rewrite W1. cbn [rbind negb]. rewrite Wb. cbn [rbind]. unfold tail. destruct parts.
    + by rewrite app_nil_r, w_put_put.
    + cbn [bool_decide negb]. rewrite bool_decide_false by done. cbn [negb]. rewrite Wq.
      unfold w_u8. by rewrite !w_put_put, <-?app_assoc.
  - intros pre. unfold deserialize_signatures. rewrite Hpq. unfold deserialize_signatures_v3.
    rewrite r_remaining_rd, (proj2 (Nat.eqb_neq _ 0)) by (rewrite length_app; lia).
    rewrite R1. cbn [rbind]. rewrite r_remaining_rd.
    rewrite Rb; [|rewrite length_app; lia|unfold tail; destruct parts; [by left|right; by eexists]].
    cbn [rbind]. rewrite r_remaining_rd.
    assert (Hbl : (if negb (bool_decide (blocks = [])) then tx_set_second_signatures (Some blocks) (tx_set_signature (Some s) base)
             else tx_set_signature (Some s) base) = with_blocks blocks (tx_set_signature (Some s) base)) by (by destruct blocks).
    rewrite Hbl. unfold tail, tx. destruct parts as [|x l]; [by eexists|].
    cbn [with_signatures length app Nat.ltb Nat.leb].
    change (byte_of_Z 255 :: q) with ([byte_of_Z 255] ++ q). rewrite r_u8_rd by (bounds; lia). cbn [rbind].
    rewrite r_remaining_rd. destruct (part_count (length q) _ Lq) as [-> ->]. cbn [negb].
    rewrite <-(app_nil_r q), Rq. cbn [rbind]. by eexists.
Qed.

Lemma codec_signatures base tx :
  unsigned base -> wire_signatures base tx ->
  codec_end (serialize_signatures tx opts_default) (deserialize_signatures base) tx.
Proof.
  intros Hu [s1 s2 parts|d1|d1 d2|Hpq|s blocks parts].
  - by apply schnorr_codec.
  - by apply ecdsa_codec.
  - by apply ecdsa2_codec.
  - injection Hu as U1 U2 U3 U4 U5. exists []. split.
    + intros w. unfold serialize_signatures. rewrite Hpq, U1. unfold pq_blocks. rewrite U5, U4. cbn. by rewrite w_put_nil.
    + intros pre. unfold deserialize_signatures, deserialize_signatures_v3. rewrite Hpq, r_remaining_rd. by eexists.
  - by apply pq_codec.
Qed.

End signatures.

(** ** Whole transactions *)

Section whole.
Context `{E : Env} `{L : !EnvLaws E}.

Definition with_vendor_field (o : option string) (tx : Transaction) : Transaction :=
  match o with Some s => tx_set_vendor_field (Some s) tx | None => tx end.

Inductive wire_base : Transaction -> Prop :=
| wire_base_intro version network tg ty nonce sender fee vf :
    in_u8 version -> version <> 1 -> in_u8 network -> in_u32 tg -> in_u16 ty -> in_u64 nonce ->
    hex_str 33 sender -> in_u64 fee ->
    otext u8_max vf ->
    (vf <> None -> has_vendor_field (tx_head version network tg ty nonce sender fee) = true) ->
    wire_base (with_vendor_field vf (tx_head version network tg ty nonce sender fee)).

(** The transactions the wire format can carry. *)
Inductive wire_tx : Transaction -> Prop :=
| wire_tx_intro base mid tx :
    wire_base base -> wire_payload base mid -> wire_signatures mid tx -> wire_tx tx.

Lemma wire_base_blank base : wire_base base -> base.(tx_asset) = None /\ unsigned base /\ base.(tx_id) = None.
Proof. intros [? ? ? ? ? ? ? [vf|]]; done. Qed.

Lemma codec_common version network tg ty nonce sender fee net :
  in_u8 version -> version <> 1 -> in_u8 network -> in_u32 tg -> in_u16 ty -> in_u64 nonce ->
  hex_str 33 sender -> in_u64 fee ->
  codec (serialize_common (tx_head version network tg ty nonce sender fee) net) deserialize_common
    (tx_head version network tg ty nonce sender fee).
Proof.
  intros Hv H1 Hn Hg Hy Hc Hs Hf. destruct (codec_hex 33 sender Hs) as (q & Hws & Hrs).
  eexists. split.
  - intros w. unfold serialize_common, tx_head. cbn [tx_version tx_network tx_type_group tx_type_ tx_nonce tx_sender_public_key tx_fee default from_option].
    rewrite Hws. run_writer.
  - intros pre suf. unfold deserialize_common. rewrite <-!app_assoc.
    rewrite r_u8_rd by (bounds; lia). cbn [rbind negb]. rewrite Z.eqb_refl. cbn [negb].
    rewrite r_u8_rd by done. cbn [rbind]. rewrite r_u8_rd by done. cbn [rbind].
    rewrite (proj2 (Z.eqb_neq _ _) H1). step_reader. by rewrite <-!app_assoc.
Qed.

Lemma codec_vendor_field head vf :
  head.(tx_vendor_field) = None -> otext u8_max vf -> (vf <> None -> has_vendor_field head = true) ->
  codec (serialize_vendor_field (with_vendor_field vf head)) (deserialize_vendor_field head) (with_vendor_field vf head).
Proof.
  intros Hh Ho Hv. destruct vf as [s|]; unfold serialize_vendor_field, with_vendor_field.
  - destruct Ho as [[Hu Hfit] Hne]. unfold fits in Hfit. change u8_max with 255 in Hfit.
    specialize (Hv ltac:(done)). cbn [tx_vendor_field tx_set_vendor_field].
    change (has_vendor_field (tx_set_vendor_field (Some s) head)) with (has_vendor_field head).
    rewrite Hv, slen_zero, bool_decide_false by done. cbn [negb andb].
    eexists. split.
    + intros w. rewrite (leb_ltb_false _ _ Hfit). run_writer.
    + intros pre suf. unfold deserialize_vendor_field. rewrite <-!app_assoc.
      pose proof (bytes_of_pos s Hne). rewrite r_u8_rd by (bounds; lia). cbn [rbind].
      rewrite (proj2 (Z.ltb_lt _ _) H). step_reader. rewrite Hv, utf8_str_lossy, <-!app_assoc by done. done.
  - rewrite Hh. eexists. split; [intros w; run_writer|].
    intros pre suf. unfold deserialize_vendor_field. rewrite r_u8_rd by (bounds; lia). done.
Qed.

Lemma signatures_frame base tx :
  wire_signatures base tx ->
  serialize_common tx = serialize_common base /\ serialize_vendor_field tx = serialize_vendor_field base /\
  serialize_type_payload tx = serialize_type_payload base /\ tx.(tx_version) = base.(tx_version) /\
  tx.(tx_id) = base.(tx_id).
Proof.
  intros [s1 s2 parts|d1|d1 d2|Hpq|s blocks parts].
  - by destruct parts, s1, s2.
  - done.
  - done.
  - done.
  - by destruct parts, blocks.
Qed.

Lemma payload_id base mid : wire_payload base mid -> mid.(tx_id) = base.(tx_id).
Proof. by intros [|? ? ?|? ? []]. Qed.

Lemma wire_roundtrip tx net :
  wire_tx tx ->
  exists b, serialize_transaction tx opts_default net = Ok b /\
            deserialize_transaction b = Ok (tx_set_id (Some (hex_encode (sha256 b))) tx).
Proof.
  intros [base mid tx' Hbase Hpay Hsig].
  destruct (wire_base_blank base Hbase) as (Hnone & Hun & _).
  destruct (payload_frame base mid Hpay) as (P1 & P2 & P3 & P4).
  assert (Hun' : unsigned mid) by (unfold unsigned in *; by rewrite P4).
  destruct (signatures_frame mid tx' Hsig) as (S1 & S2 & S3 & S4 & _).
  destruct (codec_payload base mid Hnone Hpay) as (p3 & W3 & R3).
  destruct (codec_signatures mid tx' Hun' Hsig) as (p4 & W4 & R4).
  destruct Hbase as [version network tg ty nonce sender fee vf Hv H1 Hn Hg Hy Hc Hs Hf Ho Hvf].
  set (head := tx_head version network tg ty nonce sender fee) in *.
  destruct (codec_common version network tg ty nonce sender fee net Hv H1 Hn Hg Hy Hc Hs Hf) as (p1 & W1 & R1).
  fold head in W1, R1.
  destruct (codec_vendor_field head vf eq_refl Ho Hvf) as (p2 & W2 & R2).
  exists (p1 ++ p2 ++ p3 ++ p4). split.
  - unfold serialize_transaction. rewrite S4, P3.
    replace (tx_version (with_vendor_field vf head)) with version by (by destruct vf).
    rewrite (proj2 (Z.eqb_neq _ _) H1), S1, S2, S3, P1, P2.
    replace (serialize_common (with_vendor_field vf head)) with (serialize_common head) by (by destruct vf).
    rewrite W1. cbn [rbind]. rewrite W2. cbn [rbind]. rewrite W3. cbn [rbind]. rewrite W4. cbn [rbind].
    by rewrite !w_put_put, <-?app_assoc.
  - unfold deserialize_transaction. rewrite r_new_rd, R1. cbn [rbind]. rewrite R2. cbn [rbind].
    rewrite R3. cbn [rbind]. destruct (R4 ((([] ++ p1) ++ p2) ++ p3)) as [r ->]. done.
Qed.

Lemma wire_tx_id tx : wire_tx tx -> tx.(tx_id) = None.
Proof.
  intros [base mid tx' Hbase Hpay Hsig]. destruct (signatures_frame mid tx' Hsig) as (_ & _ & _ & _ & ->).
  rewrite (payload_id base mid Hpay). apply wire_base_blank, Hbase.
Qed.

Lemma tx_set_id_None t1 t2 x :
  tx_set_id x t1 = tx_set_id x t2 -> t1.(tx_id) = None -> t2.(tx_id) = None -> t1 = t2.
Proof.
  assert (H : forall t, t.(tx_id) = None -> tx_set_id None (tx_set_id x t) = t).
  { intros []. cbn. by intros ->. }
  intros Heq H1 H2. by rewrite <-(H t1 H1), <-(H t2 H2), Heq.
Qed.

(** C15: every transaction the wire format can carry, of any type group, payload type and signature
    layout, is read back from its own bytes unchanged, with its id set to the hash of the bytes. *)
Theorem transaction_roundtrip tx net (Hw : wire_tx tx) :
  exists b, serialize_transaction tx opts_default net = Ok b /\
            deserialize_transaction b = Ok (tx_set_id (Some (hex_encode (sha256 b))) tx).
Proof. by apply wire_roundtrip. Qed.

(** The encoding is unambiguous: two different transactions never share their wire bytes. *)
Theorem serialize_transaction_inj t1 t2 net1 net2 b (H1 : wire_tx t1) (H2 : wire_tx t2)
    (Hb1 : serialize_transaction t1 opts_default net1 = Ok b)
    (Hb2 : serialize_transaction t2 opts_default net2 = Ok b) : t1 = t2.
Proof.
  destruct (wire_roundtrip t1 net1 H1) as (b1 & E1 & D1), (wire_roundtrip t2 net2 H2) as (b2 & E2 & D2).
  rewrite E1 in Hb1. rewrite E2 in Hb2. injection Hb1 as ->. injection Hb2 as ->.
  rewrite D1 in D2. apply Ok_inj, tx_set_id_None in D2; [done|by apply wire_tx_id..].
Qed.

(** The loop that reads quantum signature blocks is bounded: any fuel of at least the number
    of bytes left gives the same result, and a success stops at the end or at the marker. *)
Theorem pq_blocks_terminate n m pre suf (Hn : (length suf <= n)%nat) (Hm : (length suf <= m)%nat) :
  r_pq_blocks n (rd pre suf) = r_pq_blocks m (rd pre suf) /\
  forall bs r, r_pq_blocks n (rd pre suf) = Ok (bs, r) ->
    r_remaining r = 0%nat \/ r_peek_u8 0 r = Some 255.
Proof.
  revert m pre suf Hn Hm; induction n as [|n IH]; intros m pre suf Hn Hm.
  { destruct suf; [|cbn in Hn; lia]. split.
    - destruct m; [done|]. cbn [r_pq_blocks]. by rewrite r_remaining_rd.
    - intros bs r [= <- <-]. left. apply r_remaining_rd. }
  destruct suf as [|x suf].
  { cbn [r_pq_blocks]. rewrite r_remaining_rd. cbn [length Nat.ltb Nat.leb andb]. split.
    - destruct m; [done|]. cbn [r_pq_blocks]. by rewrite r_remaining_rd.
    - intros bs r [= <- <-]. left. apply r_remaining_rd. }
  destruct m as [|m]; [cbn in Hm; lia|]. cbn [r_pq_blocks]. rewrite r_remaining_rd. cbn [length Nat.ltb Nat.leb andb].
  destruct (bool_decide_reflect (r_peek_u8 0 (rd pre (x :: suf)) = Some 255)) as [Hp|Hp]; cbn [negb].
  { split; [done|]. intros bs r [= <- <-]. by right. }
  destruct (r_u8 (rd pre (x :: suf))) as [[alg r1]|e] eqn:H1; cbn [rbind]; [|done].
  unfold r_u8, r_le in H1. apply rbind_ok_inv in H1 as ([b1 r1'] & H1 & [= <- <-]).
  apply r_bytes_inv in H1 as (s1 & E1 & L1 & ->).
  destruct (r_u16_le _) as [[len r2]|e] eqn:H2; cbn [rbind]; [|done].
  unfold r_u16_le, r_le in H2. apply rbind_ok_inv in H2 as ([b2 r2'] & H2 & [= <- <-]).
  apply r_bytes_inv in H2 as (s2 & -> & L2 & ->).
  destruct (r_hex _ _) as [[sg r3]|e] eqn:H3; cbn [rbind]; [|done].
  unfold r_hex in H3. apply rbind_ok_inv in H3 as ([b3 r3'] & H3 & [= <- <-]).
  apply r_bytes_inv in H3 as (s3 & -> & L3 & ->).
  apply (f_equal length) in E1. rewrite !length_app in E1. cbn [length] in *.
  destruct (IH m (((pre ++ b1) ++ b2) ++ b3) s3) as [He Hok]; [lia|lia|]. rewrite <-He. split; [done|].
  intros bs r H. apply rbind_ok_inv in H as ([bs' r'] & H & [= <- <-]). by eapply Hok.
Qed.
End whole.

(** ** Concrete transactions *)

#[local] Existing Instance TestEnv.env.
#[local] Existing Instance TestEnv.laws.

Definition demo_key : string := hex_encode (replicate 33 x02).
Definition demo_address : string := b58check_encode (x3f :: replicate 20 x07).
Definition demo_signature : string := hex_encode (replicate 64 x05).
Definition demo_base : Transaction :=
  with_vendor_field (Some "hello"%string) (tx_head 2 63 TYPE_GROUP_CORE tx_type.TRANSFER 7 demo_key 10000000).
Definition demo_transfer : Transaction :=
  tx_set_recipient_id (Some demo_address) (tx_set_expiration (Some 0) (tx_set_amount 500 demo_base)).
Definition demo_tx : Transaction := tx_set_signature (Some demo_signature) demo_transfer.

(** The same transfer, version 3, with one ML-DSA block. *)
Definition demo_pq_base : Transaction := tx_head 3 63 TYPE_GROUP_CORE tx_type.TRANSFER 7 demo_key 10000000.
Definition demo_pq_transfer : Transaction :=
  tx_set_recipient_id (Some demo_address) (tx_set_expiration (Some 0) (tx_set_amount 500 demo_pq_base)).
Definition demo_pq_tx : Transaction :=
  tx_set_second_signatures (Some [mkPqBlock 1 (hex_encode (replicate 20 x09))])
    (tx_set_signature (Some demo_signature) demo_pq_transfer).

Lemma demo_key_ok : hex_str 33 demo_key.
Proof. by exists (replicate 33 x02). Qed.

Lemma demo_address_ok : addr_str demo_address.
Proof. by exists (x3f :: replicate 20 x07). Qed.

Lemma demo_signature_ok : hex_str 64 demo_signature.
Proof. by exists (replicate 64 x05). Qed.

Lemma demo_wire : wire_tx demo_tx.
Proof.
  apply (wire_tx_intro demo_base demo_transfer).
  - apply wire_base_intro; try (unfold TYPE_GROUP_CORE, tx_type.TRANSFER; bounds; lia); try apply demo_key_ok; [|done].
    split; [split; [apply from_utf8_ascii; done|unfold fits; vm_compute; done]|done].
  - apply wp_core; [done|]. apply wc_transfer; [done|bounds; lia|bounds; lia|apply demo_address_ok].
  - apply (wsig_schnorr _ (Some demo_signature) None []); [done|apply demo_signature_ok|done|done|constructor..|cbn; lia].
Qed.

Lemma demo_pq_wire : wire_tx demo_pq_tx.
Proof.
  apply (wire_tx_intro demo_pq_base demo_pq_transfer).
  - apply (wire_base_intro 3 63 TYPE_GROUP_CORE tx_type.TRANSFER 7 demo_key 10000000 None);
      try (unfold TYPE_GROUP_CORE, tx_type.TRANSFER; bounds; lia); try apply demo_key_ok; done.
  - apply wp_core; [done|]. apply wc_transfer; [done|bounds; lia|bounds; lia|apply demo_address_ok].
  - apply (wsig_pq _ demo_signature [mkPqBlock 1 (hex_encode (replicate 20 x09))] []);
      [done|apply demo_signature_ok| |constructor].
    apply Forall_singleton. split; [cbn; lia|]. exists (replicate 20 x09). split; [vm_compute; done|done].
Qed.

Lemma transaction_roundtrip_witness :
  (exists b, serialize_transaction demo_tx opts_default 63 = Ok b /\
     deserialize_transaction b = Ok (tx_set_id (Some (hex_encode (sha256 b))) demo_tx)) /\
  (exists b, serialize_transaction demo_pq_tx opts_default 63 = Ok b /\
     deserialize_transaction b = Ok (tx_set_id (Some (hex_encode (sha256 b))) demo_pq_tx)).
Proof.
  split; [apply (transaction_roundtrip demo_tx 63 demo_wire)|apply (transaction_roundtrip demo_pq_tx 63 demo_pq_wire)].
Defined.

Definition demo_bytes : list byte :=
  default [] (res_ok (serialize_transaction demo_tx opts_default 63)).

Lemma serialize_transaction_inj_witness :
  exists t, deserialize_transaction demo_bytes = Ok (tx_set_id (Some (hex_encode (sha256 demo_bytes))) t) /\ t = demo_tx.
Proof.
  exists demo_tx. split; [vm_compute; reflexivity|].
  apply (serialize_transaction_inj demo_tx demo_tx 63 63 demo_bytes demo_wire demo_wire); vm_compute; reflexivity.
Defined.

Lemma pq_blocks_terminate_witness :
  r_pq_blocks 4 (rd [] [x01; x01; x00; xaa]) = r_pq_blocks 9 (rd [] [x01; x01; x00; xaa]) /\
  r_pq_blocks 4 (rd [] [x01; x01; x00; xaa]) = Ok ([mkPqBlock 1 "aa"], rd [x01; x01; x00; xaa] []).
Proof. split; [apply (pq_blocks_terminate 4 9 [] [x01; x01; x00; xaa]); cbn; lia|vm_compute; reflexivity]. Defined.
