(* ===== verification/BlockCodec.v ===== *)
(** * Block wire format and block record

    [src/src/crypto/block_serializer.rs] (header bytes, id, signing hash, payload hash),
    [block_deserializer.rs], and the on-disk record of [src/src/storage.rs] ([encode_block],
    [next_frame], [decode_block]), with their round trips. *)

From S2P Require Import Prelude Models Env Bytes Crypto Config TxCodec TxWire TxRoundtrip.

Section codec.
Context `{E : Env}.

(** ** Serialiser *)

(** Header, then the DER [blockSignature], then the [pqSignature] of a version-1 block. *)
Definition serialize_block_parts (block : Block) (include_signature include_pq : bool) : Res (list byte) :=
  if negb (slen block.(b_previous_block) =? 64)
  then Err (ser_err ("previousBlock of block " +:+ fmt_u block.(b_height)
              +:+ " must be a 64-char sha256 hex, got '" +:+ block.(b_previous_block) +:+ "'"))
  else
    let w := w_u32_le (as_u32 block.(b_height)) (w_u32_le block.(b_timestamp) (w_u32_le block.(b_version) w_new)) in
    let? w := w_hex block.(b_previous_block) w in
    let w := w_u64_le block.(b_total_amount) (w_u32_le block.(b_number_of_transactions) w) in
    let w := w_u32_le block.(b_payload_length) (w_u64_le block.(b_reward) (w_u64_le block.(b_total_fee) w)) in
    let? w := w_hex block.(b_payload_hash) w in
    let? w := w_hex block.(b_generator_public_key) w in
    let? w := if include_signature
              then match block.(b_block_signature) with Some sig => w_hex sig w | None => Ok w end
              else Ok w in
    let? w := if include_pq && (BLOCK_VERSION_PQ <=? block.(b_version))
              then match block.(b_pq_signature) with
                   | Some pq => let? sig := hex_dec pq.(pb_signature) in
                                Ok (w_bytes sig (w_u16_le (as_u16 (Z.of_nat (length sig))) (w_u8 pq.(pb_algorithm) w)))
                   | None => Ok w
                   end
              else Ok w in
    Ok (w_into_inner w).

Definition serialize_block (block : Block) (include_signature : bool) : Res (list byte) :=
  serialize_block_parts block include_signature include_signature.

(** Stage C message signed by the delegate's ML-DSA key. *)
Definition block_pq_message (block : Block) : Res (list byte) :=
  let? b := serialize_block_parts block true false in Ok (sha256 b).

Definition verify_block_pq_signature (block : Block) (pq_public_key_hex : string) : Res bool :=
  match block.(b_pq_signature) with
  | None => Ok false
  | Some pq =>
      if negb (pq.(pb_algorithm) =? ALG_ML_DSA_44) then Ok false else
      let? pk := hex_dec pq_public_key_hex in
      let? m := block_pq_message block in
      let? sig := hex_dec pq.(pb_signature) in
      pq_verify_with_ctx pk m sig BLOCK_CTX
  end.

Definition tx_bytes (n : Network) (tx : Transaction) : Res (list byte) :=
  serialize_transaction tx opts_default n.(n_pubkey_hash).

(** Signed header, a [u32] length per transaction, then all transaction bytes. *)
Definition serialize_block_with_transactions (block : Block) (n : Network) : Res (list byte) :=
  let? out := serialize_block block true in
  let? bodies := rmapM (tx_bytes n) block.(b_transactions) in
  Ok (out ++ concat ((fun b => le_bytes 4 (as_u32 (Z.of_nat (length b)))) <$> bodies) ++ concat bodies).

Definition block_id (block : Block) : Res string :=
  let? b := serialize_block block true in Ok (hex_encode (sha256 b)).

Definition block_signing_hash (block : Block) : Res (list byte) :=
  let? b := serialize_block block false in Ok (sha256 b).

Definition verify_block_signature (block : Block) : Res bool :=
  let? sig := ok_or block.(b_block_signature) (ESignature "block has no blockSignature") in
  let? hash := block_signing_hash block in
  let? der := hex_dec sig in
  verify_ecdsa hash der block.(b_generator_public_key).

(** [sort_by_key(|tx| tx.sequence)]: stable, [None] first. *)
Definition seq_key (tx : Transaction) : Z := default (-1) tx.(tx_sequence).
Definition seq_le (t1 t2 : Transaction) : Prop := seq_key t1 <= seq_key t2.
#[export] Instance seq_le_dec t1 t2 : Decision (seq_le t1 t2).
Proof. unfold seq_le. apply _. Defined.

Definition block_payload_hash (block : Block) : Res string :=
  let txs := block.(b_transactions) in
  let txs := if forallb (fun tx => bool_decide (is_Some tx.(tx_sequence))) txs then sort_by seq_le txs else txs in
  let? id_bytes := rmapM (fun tx => let? id := match tx.(tx_id) with
                                               | Some id => Ok id
                                               | None => transaction_id tx
                                               end in hex_dec id) txs in
  Ok (hex_encode (sha256 (concat id_bytes))).

(** ** Deserialiser *)

Definition parse_header (b : list byte) (n : Network) (strict : bool) : Res (Block * Z) :=
  let r := r_new b in
  let? (version, r) := r_u32_le r in
  let? (timestamp, r) := r_u32_le r in
  let? (height, r) := r_u32_le r in
  let? (previous_block, r) := r_hex 32 r in
  let? (number_of_transactions, r) := r_u32_le r in
  let? (total_amount, r) := r_u64_le r in
  let? (total_fee, r) := r_u64_le r in
  let? (reward, r) := r_u64_le r in
  let? (payload_length, r) := r_u32_le r in
  let? (payload_hash, r) := r_hex 32 r in
  let? (generator_public_key, r) := r_hex 33 r in
  let? (block_signature, r) :=
    if (2 <=? r_remaining r)%nat then
      let? len := match r_peek_u8 1 r with
                  | Some l => Ok (Z.to_nat l + 2)%nat
                  | None => Err (ser_err "truncated block signature")
                  end in
      let? (s, r) := r_hex len r in Ok (Some s, r)
    else Ok (None, r) in
  let? (pq_signature, r) :=
    if (BLOCK_VERSION_PQ <=? version) && (3 <=? r_remaining r)%nat then
      let? (algorithm, r) := r_u8 r in
      let? (len, r) := r_u16_le r in
      let? (s, r) := r_hex (Z.to_nat len) r in Ok (Some (mkPqBlock algorithm s), r)
    else Ok (None, r) in
  if strict && (0 <? r_remaining r)%nat
  then Err (ser_err ("block " +:+ fmt_u height +:+ ": " +:+ fmt_u (Z.of_nat (r_remaining r))
              +:+ " unexpected trailing bytes after header"))
  else
    let consumed := Z.of_nat (length b) - Z.of_nat (r_remaining r) in
    let block := mkBlock None version timestamp previous_block height number_of_transactions total_amount
                   total_fee reward payload_length payload_hash generator_public_key block_signature
                   pq_signature [] in
    let? id := if height =? 1 then Ok n.(n_genesis_block_id) else block_id block in
    Ok (b_set_id (Some id) block, consumed).

Definition deserialize_block_header (b : list byte) (n : Network) : Res Block :=
  rmap fst (parse_header b n true).
Definition deserialize_block_header_prefix (b : list byte) (n : Network) : Res (Block * Z) :=
  parse_header b n false.

(** ** The block record of the store *)

Definition frame (b : list byte) : list byte := le_bytes 4 (as_u32 (Z.of_nat (length b))) ++ b.

(** Header bytes and serialised transactions, each length-prefixed. *)
Definition encode_block (block : Block) (n : Network) : Res (list byte) :=
  let? header := serialize_block block true in
  rfold (fun out tx => let? b := tx_bytes n tx in Ok (out ++ frame b)) block.(b_transactions) (frame header).

Definition next_frame (b : list byte) (pos : nat) : Res (option (list byte * nat)) :=
  if (pos =? length b)%nat then Ok None
  else if (length b <? pos + 4)%nat then Err (EStorage "corrupt block record") else
  let len := Z.to_nat (le_value (take 4 (drop pos b))) in
  if (length b <? pos + 4 + len)%nat then Err (EStorage "truncated block record") else
  Ok (Some (take len (drop (pos + 4) b), (pos + 4 + len)%nat)).

(** The [while let Some(raw)] loop; every frame takes at least four bytes. *)
Fixpoint decode_transactions (fuel : nat) (b : list byte) (pos : nat) (sequence : Z) (block : Block) : Res Block :=
  match fuel with
  | O => Ok block
  | S fuel =>
      let? f := next_frame b pos in
      match f with
      | None => Ok block
      | Some (raw, pos) =>
          let? tx := deserialize_transaction raw in
          let tx := tx_set_sequence (Some sequence) (tx_set_block_height (Some block.(b_height))
                      (tx_set_block_id block.(b_id) tx)) in
          decode_transactions fuel b pos (as_u32 (sequence + 1)) (b_set_transactions (block.(b_transactions) ++ [tx]) block)
      end
  end.

Definition decode_block (b : list byte) (n : Network) : Res Block :=
  let? f := next_frame b 0 in
  let? (header, pos) := ok_or f (EStorage "empty block record") in
  let? block := deserialize_block_header header n in
  decode_transactions (S (length b)) b pos 0 block.

End codec.

(** ** Round trip of the header *)

Section header.
Context `{E : Env} `{L : !EnvLaws E}.

(** The headers the format can carry. *)
Record wire_header (b : Block) : Prop := {
  wh_version : in_u32 b.(b_version);
  wh_timestamp : in_u32 b.(b_timestamp);
  wh_height : in_u32 b.(b_height);
  wh_previous : hex_str 32 b.(b_previous_block);
  wh_count : in_u32 b.(b_number_of_transactions);
  wh_amount : in_u64 b.(b_total_amount);
  wh_fee : in_u64 b.(b_total_fee);
  wh_reward : in_u64 b.(b_reward);
  wh_length : in_u32 b.(b_payload_length);
  wh_payload : hex_str 32 b.(b_payload_hash);
  wh_generator : hex_str 33 b.(b_generator_public_key);
  wh_signature : match b.(b_block_signature) with
                 | Some s => exists d, der_shape d /\ s = hex_encode d
                 | None => b.(b_pq_signature) = None
                 end;
  wh_pq : match b.(b_pq_signature) with
          | Some q => BLOCK_VERSION_PQ <= b.(b_version) /\ wire_block q
          | None => True
          end
}.

(** Whether bytes behind the header could be taken for one of its optional parts. *)
Definition header_closed (b : Block) (suf : list byte) : Prop :=
  suf = [] \/ (is_Some b.(b_block_signature) /\ (b.(b_version) < BLOCK_VERSION_PQ \/ is_Some b.(b_pq_signature))).

Lemma signature_part (o : option string) :
  match o with Some s => exists d, der_shape d /\ s = hex_encode d | None => True end ->
  exists q, (forall w, match o with Some sig => w_hex sig w | None => Ok w end = Ok (w_put q w)) /\
    (o = None -> q = []) /\
    forall pre suf, (o = None -> suf = []) ->
      (if (2 <=? r_remaining (rd pre (q ++ suf)))%nat then
         let? len := match r_peek_u8 1 (rd pre (q ++ suf)) with
                     | Some l => Ok (Z.to_nat l + 2)%nat
                     | None => Err (ser_err "truncated block signature")
                     end in
         let? (s, r) := r_hex len (rd pre (q ++ suf)) in Ok (Some s, r)
       else Ok (None, rd pre (q ++ suf))) = Ok (o, rd (pre ++ q) suf).
Proof.
  destruct o as [s|].
  - intros (d & Hd & ->). exists d. split_and!; [intros; apply w_hex_encode|done|].
    intros pre suf _. rewrite r_remaining_rd.
    assert (Hl : (2 <= length (d ++ suf))%nat) by (destruct Hd as (? & ? & ? & -> & _); cbn; lia).
    apply Nat.leb_le in Hl. rewrite Hl. pose proof (der_len_rd pre d suf Hd) as Hlen. unfold der_len in Hlen.
    destruct (r_peek_u8 1 _) as [l|]; [|done]. injection Hlen as Hlen. cbn [rbind]. rewrite Hlen.
    by rewrite r_hex_rd.
  - intros _. exists []. split_and!; [intros; by rewrite w_put_nil|done|].
    intros pre suf Hs. rewrite (Hs eq_refl), r_remaining_rd. cbn. by rewrite app_nil_r.
Qed.

Lemma pq_part (v : Z) (o : option PqSignatureBlock) :
  match o with Some q => BLOCK_VERSION_PQ <= v /\ wire_block q | None => True end ->
  exists q, (forall w, (if BLOCK_VERSION_PQ <=? v
                        then match o with
                             | Some pq => let? sig := hex_dec pq.(pb_signature) in
                                 Ok (w_bytes sig (w_u16_le (as_u16 (Z.of_nat (length sig))) (w_u8 pq.(pb_algorithm) w)))
                             | None => Ok w
                             end
                        else Ok w) = Ok (w_put q w)) /\
    (o = None -> q = []) /\
    forall pre suf, suf = [] \/ v < BLOCK_VERSION_PQ \/ is_Some o ->
      (if (BLOCK_VERSION_PQ <=? v) && (3 <=? r_remaining (rd pre (q ++ suf)))%nat then
         let? (algorithm, r) := r_u8 (rd pre (q ++ suf)) in
         let? (len, r) := r_u16_le r in
         let? (s, r) := r_hex (Z.to_nat len) r in Ok (Some (mkPqBlock algorithm s), r)
       else Ok (None, rd pre (q ++ suf))) = Ok (o, rd (pre ++ q) suf).
Proof.
  destruct o as [[alg sig]|].
  - intros [Hv [Ha (b & Hb & Hsig)]]. cbn in Ha, Hsig. subst sig.
    rewrite (proj2 (Z.leb_le _ _) Hv). cbn [pb_signature pb_algorithm andb].
    exists ([byte_of_Z alg] ++ le_bytes 2 (Z.of_nat (length b)) ++ b). split_and!; [|done|].
    + intros w. rewrite hex_dec_encode. cbn [rbind].
      replace (as_u16 (Z.of_nat (length b))) with (Z.of_nat (length b)) by (bounds; rewrite Z.mod_small; lia).
      unfold w_u8, w_u16_le, w_bytes. by rewrite !w_put_put, <-?app_assoc.
    + intros pre suf _. rewrite r_remaining_rd, <-!app_assoc. cbn [length app Nat.leb le_bytes].
      change (byte_of_Z alg :: ?x :: ?y :: ?z) with ([byte_of_Z alg] ++ le_bytes 2 (Z.of_nat (length b)) ++ z).
      step_reader. by rewrite <-?app_assoc.
  - intros _. exists []. split_and!; [|done|].
    + intros w. rewrite w_put_nil. by destruct (_ <=? _).
    + intros pre suf Hs. rewrite r_remaining_rd, app_nil_r. cbn [app].
      destruct Hs as [->|[Hv|[? ?]]]; [by rewrite andb_false_r| |done].
      apply Z.leb_gt in Hv. by rewrite Hv.
Qed.

(** The id the header parser assigns. *)
Definition header_id (n : Network) (b : Block) (p : list byte) : string :=
  if b.(b_height) =? 1 then n.(n_genesis_block_id) else hex_encode (sha256 p).

Lemma header_roundtrip b :
  wire_header b ->
  exists p, serialize_block b true = Ok p /\
    forall n strict suf, header_closed b suf -> (strict = true -> suf = []) ->
      parse_header (p ++ suf) n strict
      = Ok (b_set_id (Some (header_id n b p)) (b_header b), Z.of_nat (length p)).
Proof.
  intros [Hv Ht Hh Hp Hc Ha Hf Hr Hl Hph Hg Hs Hq]. destruct b as [bid v t prev h c a f rw pl ph g s q txs].
  cbn [b_version b_timestamp b_height b_previous_block b_number_of_transactions b_total_amount b_total_fee
       b_reward b_payload_length b_payload_hash b_generator_public_key b_block_signature b_pq_signature] in *.
  destruct (codec_hex 32 prev Hp) as (p1 & W1 & R1), (codec_hex 32 ph Hph) as (p2 & W2 & R2),
    (codec_hex 33 g Hg) as (p3 & W3 & R3).
  destruct (signature_part s) as (p4 & W4 & N4 & R4); [by destruct s|].
  destruct (pq_part v q Hq) as (p5 & W5 & N5 & R5).
  set (bytes := le_bytes 4 v ++ le_bytes 4 t ++ le_bytes 4 h ++ p1 ++ le_bytes 4 c ++ le_bytes 8 a
       ++ le_bytes 8 f ++ le_bytes 8 rw ++ le_bytes 4 pl ++ p2 ++ p3 ++ p4 ++ p5).
  exists bytes. assert (Hser : forall id txs, serialize_block (mkBlock id v t prev h c a f rw pl ph g s q txs) true = Ok bytes).
  { intros id txs'. unfold serialize_block, serialize_block_parts.
    cbn [b_version b_timestamp b_height b_previous_block b_number_of_transactions b_total_amount b_total_fee
       b_reward b_payload_length b_payload_hash b_generator_public_key b_block_signature b_pq_signature andb].
    rewrite (hex_str_slen 32 prev Hp). cbn [Z.eqb negb]. change (2 * Z.of_nat 32 =? 64) with true. cbn [negb].
    rewrite W1. cbn [rbind]. rewrite W2. cbn [rbind]. rewrite W3. cbn [rbind]. rewrite W4. cbn [rbind].
    rewrite W5. cbn [rbind]. unfold w_u32_le, w_u64_le, w_into_inner. rewrite !w_put_put. cbn [w_put w_buf w_new app].
    replace (as_u32 h) with h by (bounds; rewrite Z.mod_small; lia). unfold bytes. by rewrite <-?app_assoc. }
  split; [apply Hser|]. intros n strict suf Hcl Hst. unfold parse_header.
  unfold bytes at 1. rewrite r_new_rd, <-!app_assoc.
  step_reader.
  assert (Hcl4 : s = None -> p5 ++ suf = []).
  { intros ->. destruct Hcl as [->|[[? ?] _]]; [|done]. by rewrite (N5 Hs). }
  rewrite (R4 _ (p5 ++ suf) Hcl4). cbn [rbind].
  rewrite R5 by (destruct Hcl as [->|[_ [?|?]]]; auto). cbn [rbind].
  rewrite r_remaining_rd.
  assert (Hstr : strict && (0 <? length suf)%nat = false) by (destruct strict; [by rewrite Hst|done]).
  rewrite Hstr. unfold block_id. rewrite Hser. cbn [rbind].
  unfold header_id, b_header, b_set_transactions. cbn [b_height].
  replace (Z.of_nat (length (bytes ++ suf)) - Z.of_nat (length suf)) with (Z.of_nat (length bytes))
    by (rewrite length_app; lia).
  by destruct (h =? 1).
Qed.
End header.

(** ** Round trip of the block record *)

Section record.
Context `{E : Env} `{L : !EnvLaws E}.
Implicit Types (n : Network) (b : Block).

Definition fits_frame (x : list byte) : Prop := Z.of_nat (length x) <= u32_max.

Lemma next_frame_rd pre x suf :
  fits_frame x ->
  next_frame (pre ++ frame x ++ suf) (length pre)
  = Ok (Some (x, length (pre ++ frame x))).
Proof.
  intros Hx. unfold fits_frame in Hx. unfold next_frame, frame. rewrite !length_app, !le_bytes_length.
  destruct (Nat.eqb_spec (length pre) (length pre + (4 + length x + length suf))); [lia|].
  destruct (Nat.ltb_spec (length pre + (4 + length x + length suf)) (length pre + 4)); [lia|].
  rewrite drop_app_length, <-!app_assoc, (take_app_length' (le_bytes 4 _)) by done.
  rewrite le_value_bytes. unfold as_u32. rewrite Z.mod_mod by lia.
  change (256 ^ Z.of_nat 4) with 4294967296. rewrite Z.mod_small by (bounds; lia). rewrite Nat2Z.id.
  destruct (Nat.ltb_spec (length pre + (4 + length x + length suf)) (length pre + 4 + length x)); [lia|].
  rewrite (app_assoc pre), drop_app_length' by (rewrite length_app, le_bytes_length; done).
  rewrite take_app_length. by rewrite <-Nat.add_assoc.
Qed.

Lemma next_frame_end x : next_frame x (length x) = Ok None.
Proof. unfold next_frame. by rewrite Nat.eqb_refl. Qed.

(** The id of a transaction, and the transaction as the store gives it back. *)
Definition tx_hash_id n (tx : Transaction) : string :=
  match tx_bytes n tx with Ok x => hex_encode (sha256 x) | Err _ => EmptyString end.
Definition restored n (bid : option string) (height : Z) (i : nat) (tx : Transaction) : Transaction :=
  tx_set_sequence (Some (Z.of_nat i)) (tx_set_block_height (Some height)
    (tx_set_block_id bid (tx_set_id (Some (tx_hash_id n tx)) tx))).

Definition block_frames n (l : list Transaction) (out : list byte) : Res (list byte) :=
  rfold (fun out tx => let? x := tx_bytes n tx in Ok (out ++ frame x)) l out.

Lemma frames_decode n l :
  Forall (fun tx => wire_tx tx /\ forall x, tx_bytes n tx = Ok x -> fits_frame x) l ->
  exists p, (forall out, block_frames n l out = Ok (out ++ p)) /\ (length l <= length p)%nat /\
    forall fuel pre i blk, (length l < fuel)%nat -> Z.of_nat (i + length l) <= u32_max ->
      decode_transactions fuel (pre ++ p) (length pre) (Z.of_nat i) blk
      = Ok (b_set_transactions (blk.(b_transactions)
              ++ imap (fun k => restored n blk.(b_id) blk.(b_height) (i + k)) l) blk).
Proof.
  induction 1 as [|tx l [Hw Hfit] _ (p & Hp & Hlen & Hd)].
  { exists []. split_and!; [intros out; cbn; by rewrite app_nil_r|cbn; lia|].
    intros [|fuel] pre i blk Hf _; [cbn in Hf; lia|]. cbn [decode_transactions]. rewrite app_nil_r, next_frame_end.
    cbn. rewrite app_nil_r. by destruct blk. }
  destruct (wire_roundtrip tx n.(n_pubkey_hash) Hw) as (x & Hx & Hdx). fold (tx_bytes n tx) in Hx.
  specialize (Hfit x Hx). exists (frame x ++ p). split_and!.
  - intros out. unfold block_frames in *. cbn [rfold]. rewrite Hx. cbn [rbind]. by rewrite Hp, <-app_assoc.
  - rewrite length_app. unfold frame. rewrite length_app, le_bytes_length. cbn [length]. lia.
  - intros [|fuel] pre i blk Hf Hi; [lia|]. cbn [decode_transactions length] in *.
    rewrite (next_frame_rd pre x p Hfit). cbn [rbind]. rewrite Hdx. cbn [rbind]. rewrite app_assoc.
    replace (as_u32 (Z.of_nat i + 1)) with (Z.of_nat (S i)) by (bounds; rewrite Z.mod_small; lia).
    rewrite Hd by lia. cbn [b_transactions b_set_transactions b_id b_height imap].
    rewrite <-app_assoc. cbn [app]. f_equal. unfold b_set_transactions. cbn. do 2 f_equal.
    rewrite Nat.add_0_r. f_equal; [unfold restored, tx_hash_id; by rewrite Hx|].
    apply imap_ext. intros k y _. cbn. by rewrite Nat.add_succ_r.
Qed.

(** Blocks the record can carry. *)
Record wire_record n b : Prop := {
  wr_header : wire_header b;
  wr_header_fits : forall x, serialize_block b true = Ok x -> fits_frame x;
  wr_txs : Forall (fun tx => wire_tx tx /\ forall x, tx_bytes n tx = Ok x -> fits_frame x) b.(b_transactions);
  wr_count : Z.of_nat (length b.(b_transactions)) <= u32_max
}.

Lemma record_roundtrip n b :
  wire_record n b ->
  exists h p, serialize_block b true = Ok h /\ encode_block b n = Ok p /\
    decode_block p n = Ok (b_set_transactions
      (imap (restored n (Some (header_id n b h)) b.(b_height)) b.(b_transactions))
      (b_set_id (Some (header_id n b h)) b)).
Proof.
  intros Hw. destruct Hw as [Hh Hfit Htx Hcount].
  destruct (header_roundtrip b Hh) as (h & Hs & Hr). specialize (Hfit h Hs).
  destruct (frames_decode n _ Htx) as (p & Hp & Hlen & Hd).
  exists h, (frame h ++ p). split; [done|]. split.
  { unfold encode_block. rewrite Hs. cbn [rbind]. apply Hp. }
  unfold decode_block. pose proof (next_frame_rd [] h p Hfit) as Hn. cbn [app length] in Hn. rewrite Hn.
  cbn [rbind ok_or]. unfold deserialize_block_header.
  pose proof (Hr n true [] ltac:(by left) ltac:(done)) as H. rewrite app_nil_r in H. rewrite H. cbn [rmap rbind fst].
  pose proof (Hd (S (length (frame h ++ p))) (frame h) 0%nat (b_set_id (Some (header_id n b h)) (b_header b))) as Hd'.
  change (Z.of_nat 0) with 0 in Hd'. rewrite Hd'; [|rewrite length_app; lia|lia]. done.
Qed.

(** A block header read back from its bytes is the header that was written, whatever follows it
    in a full block message, and the reader reports the exact length; the id is the hash of the
    bytes, except that height 1 takes the configured genesis id. *)
Theorem block_header_roundtrip n b suf (Hw : wire_header b) (Hc : header_closed b suf) :
  exists p, serialize_block b true = Ok p /\
    deserialize_block_header p n = Ok (b_set_id (Some (header_id n b p)) (b_header b)) /\
    deserialize_block_header_prefix (p ++ suf) n
    = Ok (b_set_id (Some (header_id n b p)) (b_header b), Z.of_nat (length p)).
Proof.
  destruct (header_roundtrip b Hw) as (p & Hs & Hr). exists p. split_and!; [done| |by apply Hr].
  unfold deserialize_block_header. pose proof (Hr n true [] ltac:(by left) ltac:(done)) as H.
  rewrite app_nil_r in H. by rewrite H.
Qed.

(** The storage record is lossless: decoding an encoded block gives back the header and every
    transaction, with the block id, the height and the position filled in. *)
Theorem block_record_roundtrip n b (Hw : wire_record n b) :
  exists h p, serialize_block b true = Ok h /\ encode_block b n = Ok p /\
    decode_block p n = Ok (b_set_transactions
      (imap (restored n (Some (header_id n b h)) b.(b_height)) b.(b_transactions))
      (b_set_id (Some (header_id n b h)) b)).
Proof. by apply record_roundtrip. Qed.
End record.

(** ** A concrete block *)

#[local] Existing Instance TestEnv.env.
#[local] Existing Instance TestEnv.laws.

Definition demo_hash : string := hex_encode (replicate 32 x11).
Definition demo_der : list byte := [x30; x02; x01; x01].
Definition demo_block : Block :=
  mkBlock None 1 95101456 demo_hash 12 2 500 20000000 0 64 demo_hash demo_key
    (Some (hex_encode demo_der)) (Some (mkPqBlock 1 (hex_encode (replicate 7 x0a)))) [demo_tx; demo_pq_tx].
Definition demo_network : Network :=
  mkNetwork 63 demo_hash demo_hash 1000000 demo_address 1500000000 milestone_default [].

Lemma demo_header_wire : wire_header demo_block.
Proof.
  assert (hex_str 32 demo_hash) by (by exists (replicate 32 x11)).
  split; cbn [demo_block b_version b_timestamp b_height b_previous_block b_number_of_transactions b_total_amount
    b_total_fee b_reward b_payload_length b_payload_hash b_generator_public_key b_block_signature b_pq_signature];
    try (bounds; lia); try done; try apply demo_key_ok.
  - exists demo_der. split; [|done]. by exists x30, x02, [x01; x01].
  - split; [done|]. split; [cbn; lia|]. by exists (replicate 7 x0a).
Qed.

Lemma demo_record_wire : wire_record demo_network demo_block.
Proof.
  assert (H : forall (m : Res (list byte)), (match m with Ok x => (Z.of_nat (length x) <=? u32_max) | Err _ => true end) = true ->
     forall x, m = Ok x -> fits_frame x).
  { intros m Hm x ->. apply Z.leb_le, Hm. }
  split; [apply demo_header_wire|apply H; vm_compute; reflexivity| |vm_compute; done].
  cbn [demo_block b_transactions]. constructor; [split; [apply demo_wire|apply H; vm_compute; reflexivity]|].
  constructor; [split; [apply demo_pq_wire|apply H; vm_compute; reflexivity]|constructor].
Qed.

Lemma block_header_roundtrip_witness :
  exists p, serialize_block demo_block true = Ok p /\
    deserialize_block_header p demo_network
    = Ok (b_set_id (Some (header_id demo_network demo_block p)) (b_header demo_block)) /\
    deserialize_block_header_prefix (p ++ [x01; x02; x03]) demo_network
    = Ok (b_set_id (Some (header_id demo_network demo_block p)) (b_header demo_block), Z.of_nat (length p)).
Proof.
  apply (block_header_roundtrip demo_network demo_block [x01; x02; x03] demo_header_wire).
  right. split; [by eexists|right; by eexists].
Defined.

Lemma block_record_roundtrip_witness :
  exists h p, serialize_block demo_block true = Ok h /\ encode_block demo_block demo_network = Ok p /\
    decode_block p demo_network = Ok (b_set_transactions
      (imap (restored demo_network (Some (header_id demo_network demo_block h)) 12) [demo_tx; demo_pq_tx])
      (b_set_id (Some (header_id demo_network demo_block h)) demo_block)).
Proof. exact (block_record_roundtrip demo_network demo_block demo_record_wire). Defined.
