(* ===== verification/Wallet.v ===== *)
(** * Wallets

    [WalletState], the records it holds, [WalletDelta] and [WalletState::apply] of
    [src/src/storage.rs], with the bounds every applied delta keeps and the exact effect of a
    delta on balances and token balances. *)

From S2P Require Import Prelude Models Crypto.

(** ** State *)

Record LastBlock : Type := mkLastBlock { lb_id : string; lb_height : Z; lb_timestamp : Z }.

(** Open HTLC lock. *)
Record LockRecord : Type := mkLock {
  lk_lock_id : string;
  lk_sender_public_key : string;
  lk_recipient_id : string;
  lk_amount : Z;
  lk_secret_hash : string;
  lk_expiration : HtlcExpiration;
  lk_timestamp : Z;
  lk_vendor_field : option string
}.

Record SmartObject : Type := mkSobj {
  so_type_ : Z;
  so_sub_type : Z;
  so_data : SmartObjectData;
  so_resigned : bool;
  so_price : option Z
}.

(** SHIP-43 sell order; a closed order is kept so that a rollback is exact. *)
Record TokenOrder : Type := mkOrder {
  od_id : string;
  od_token_id : string;
  od_seller : string;
  od_amount : Z;
  od_filled : Z;
  od_price : Z;
  od_height : Z;
  od_closed : option Z;
  od_fills : list string
}.

Definition remaining (o : TokenOrder) : Z := as_u64 (o.(od_amount) - o.(od_filled)).
Definition is_open (o : TokenOrder) : bool := bool_decide (o.(od_closed) = None).

Record TokenTrade : Type := mkTrade {
  tt_tx_id : string;
  tt_order_id : string;
  tt_token_id : string;
  tt_buyer : string;
  tt_seller : string;
  tt_amount : Z;
  tt_price : Z;
  tt_total : Z;
  tt_height : Z;
  tt_seq : Z;
  tt_timestamp : Z
}.

Record TokenState : Type := mkTokenState {
  ts_symbol : string;
  ts_decimals : Z;
  ts_flags : Z;
  ts_supply : Z;
  ts_supply_cap : Z;
  ts_owner : string;
  ts_init_height : Z;
  ts_meta : option TokenMeta
}.

Definition ts_set_meta (m : option TokenMeta) (s : TokenState) : TokenState :=
  mkTokenState s.(ts_symbol) s.(ts_decimals) s.(ts_flags) s.(ts_supply) s.(ts_supply_cap) s.(ts_owner)
    s.(ts_init_height) m.
Definition ts_set_supply (v : Z) (s : TokenState) : TokenState :=
  mkTokenState s.(ts_symbol) s.(ts_decimals) s.(ts_flags) v s.(ts_supply_cap) s.(ts_owner)
    s.(ts_init_height) s.(ts_meta).

Record WalletState : Type := mkWallet {
  ws_address : string;
  ws_public_key : option string;
  ws_balance : Z;
  ws_nonce : Z;
  ws_username : option string;
  ws_vote : option string;
  ws_second_public_key : option string;
  ws_produced_blocks : Z;
  ws_forged_fees : Z;
  ws_forged_rewards : Z;
  ws_last_block : option LastBlock;
  ws_resigned : bool;
  ws_locks : gmap string LockRecord;
  ws_multi_signature : option MultiSignatureAsset;
  ws_sobjects : gmap string SmartObject;
  ws_pq_commitment : option PqCommitment;
  ws_pq_key : option PqKey;
  ws_tokens : gmap string Z;
  ws_tokens_issued : gmap string TokenState
}.

(** [WalletState::new]. *)
Definition wallet_new (address : string) : WalletState :=
  mkWallet address None 0 0 None None None 0 0 0 None false ∅ None ∅ None None ∅ ∅.

Definition is_delegate (w : WalletState) : bool := bool_decide (is_Some w.(ws_username)).

(** Sum of the open HTLC locks; [Iterator::sum] wraps. *)
Definition locked_balance (w : WalletState) : Z := as_u64 (map_sum lk_amount w.(ws_locks)).

(** [(voted delegate, weight)]: balance plus locked balance. *)
Definition vote_weight (w : option WalletState) : option (string * Z) :=
  match w with
  | None => None
  | Some w => match w.(ws_vote) with
              | None => None
              | Some pk => Some (pk, as_u64 (Z.max w.(ws_balance) 0 + locked_balance w))
              end
  end.

(** ** Deltas *)

(** Accumulated changes of one address in one block. *)
Record WalletDelta : Type := mkDelta {
  dl_balance : Z;
  dl_nonce : Z;
  dl_public_key : option string;
  dl_username : option string;
  dl_vote : option (option string);
  dl_second_public_key : option string;
  dl_produced_blocks : Z;
  dl_forged_fees : Z;
  dl_forged_rewards : Z;
  dl_last_block : option LastBlock;
  dl_resigned : bool;
  dl_locks_added : list LockRecord;
  dl_locks_removed : list string;
  dl_multi_signature : option MultiSignatureAsset;
  dl_sobjects : list (string * SmartObject);
  dl_sobjects_removed : list string;
  dl_tokens_removed : list string;
  dl_sobj_owner : list (string * string);
  dl_pq_commitment : option PqCommitment;
  dl_pq_key : option PqKey;
  dl_tokens : gmap string Z;
  dl_tokens_issued : list (string * TokenState);
  dl_token_supply : gmap string Z;
  dl_token_meta : list (string * TokenMeta);
  dl_orders : gmap string TokenOrder;
  dl_trades : list TokenTrade
}.

(** [WalletDelta::default()]. *)
Definition delta_default : WalletDelta :=
  mkDelta 0 0 None None None None 0 0 0 None false [] [] None [] [] [] [] None None ∅ [] ∅ [] ∅ [].

(** ** [WalletState::apply] *)

Definition opt_or {A} (x y : option A) : option A := match x with Some _ => x | None => y end.

Definition insert_all {A} (l : list (string * A)) (m : gmap string A) : gmap string A :=
  foldl (fun m p => <[p.1 := p.2]> m) m l.
Definition remove_all {A} (l : list string) (m : gmap string A) : gmap string A :=
  foldl (fun m k => delete k m) m l.

Definition not_issued (id address : string) : Error := ESync ("token " +:+ id +:+ " not issued by " +:+ address).

Definition apply_meta (address : string) (m : gmap string TokenState) (p : string * TokenMeta) : Res (gmap string TokenState) :=
  let? st := ok_or (m !! p.1) (not_issued p.1 address) in
  Ok (<[p.1 := ts_set_meta (Some p.2) st]> m).

Definition apply_supply (address : string) (m : gmap string TokenState) (p : string * Z) : Res (gmap string TokenState) :=
  let? st := ok_or (m !! p.1) (not_issued p.1 address) in
  let v := st.(ts_supply) + p.2 in
  if (v <? 0) || (u64_max <? v) then Err (ESync ("token " +:+ p.1 +:+ " supply out of range"))
  else Ok (<[p.1 := ts_set_supply v st]> m).

(** A zero balance has no entry. *)
Definition apply_token (address : string) (m : gmap string Z) (p : string * Z) : Res (gmap string Z) :=
  let v := default 0 (m !! p.1) + p.2 in
  if (v <? 0) || (u64_max <? v)
  then Err (ESync ("negative token balance for " +:+ address +:+ " (" +:+ p.1 +:+ ")"))
  else Ok (if v =? 0 then delete p.1 m else <[p.1 := v]> m).

(** The fields that cannot fail, around the four that can. *)
Definition wallet_write (w : WalletState) (d : WalletDelta) (balance nonce : Z)
    (issued : gmap string TokenState) (tokens : gmap string Z) : WalletState :=
  mkWallet w.(ws_address)
    (opt_or w.(ws_public_key) d.(dl_public_key))
    balance nonce
    (opt_or d.(dl_username) w.(ws_username))
    (default w.(ws_vote) d.(dl_vote))
    (match d.(dl_pq_key) with
     | Some _ => None
     | None => opt_or d.(dl_second_public_key) w.(ws_second_public_key)
     end)
    (as_u64 (w.(ws_produced_blocks) + d.(dl_produced_blocks)))
    (sat_add_u64 w.(ws_forged_fees) d.(dl_forged_fees))
    (sat_add_u64 w.(ws_forged_rewards) d.(dl_forged_rewards))
    (opt_or d.(dl_last_block) w.(ws_last_block))
    (d.(dl_resigned) || w.(ws_resigned))
    (insert_all ((fun l => (l.(lk_lock_id), l)) <$> d.(dl_locks_added)) (remove_all d.(dl_locks_removed) w.(ws_locks)))
    (opt_or d.(dl_multi_signature) w.(ws_multi_signature))
    (insert_all d.(dl_sobjects) (remove_all d.(dl_sobjects_removed) w.(ws_sobjects)))
    (opt_or d.(dl_pq_commitment) w.(ws_pq_commitment))
    (opt_or d.(dl_pq_key) w.(ws_pq_key))
    tokens
    (remove_all d.(dl_tokens_removed) issued).

Definition wallet_apply (w : WalletState) (d : WalletDelta) : Res WalletState :=
  let address := w.(ws_address) in
  let? balance := ok_or (try_i64 (w.(ws_balance) + d.(dl_balance))) (EOverflow ("balance overflow for " +:+ address)) in
  let? nonce := ok_or (checked_add_u64 w.(ws_nonce) d.(dl_nonce)) (EOverflow ("nonce overflow for " +:+ address)) in
  let issued := insert_all d.(dl_tokens_issued) w.(ws_tokens_issued) in
  let? issued := rfold (apply_meta address) d.(dl_token_meta) issued in
  let? issued := rfold (apply_supply address) (bt_entries d.(dl_token_supply)) issued in
  let? tokens := rfold (apply_token address) (bt_entries d.(dl_tokens)) w.(ws_tokens) in
  Ok (wallet_write w d balance nonce issued tokens).

(** ** Lemmas on the update loops *)

Lemma insert_all_app {A} (l1 l2 : list (string * A)) m : insert_all (l1 ++ l2) m = insert_all l2 (insert_all l1 m).
Proof. unfold insert_all. by rewrite foldl_app. Qed.

Lemma insert_all_inv {A} (P : A -> Prop) l (m : gmap string A) :
  map_Forall (fun _ => P) m -> Forall (fun p => P p.2) l -> map_Forall (fun _ => P) (insert_all l m).
Proof.
  revert m; induction l as [|[k x] l IH]; intros m Hm Hl; cbn; [done|].
  apply Forall_cons in Hl as [Hx Hl]. apply IH; [|done]. by apply map_Forall_insert_2.
Qed.

Lemma remove_all_inv {A} (P : A -> Prop) l (m : gmap string A) :
  map_Forall (fun _ => P) m -> map_Forall (fun _ => P) (remove_all l m).
Proof.
  revert m; induction l as [|k l IH]; intros m Hm; cbn; [done|]. apply IH. by apply map_Forall_delete.
Qed.

Lemma lookup_remove_all {A} l (m : gmap string A) k :
  remove_all l m !! k = if decide (k ∈ l) then None else m !! k.
Proof.
  revert m; induction l as [|x l IH]; intros m; cbn; [by rewrite decide_False by set_solver|].
  unfold remove_all in IH. rewrite IH. destruct (decide (k ∈ l)).
  - by rewrite decide_True by set_solver.
  - destruct (decide (k = x)) as [->|].
    + by rewrite lookup_delete_eq, decide_True by set_solver.
    + rewrite lookup_delete_ne by done. by rewrite decide_False by set_solver.
Qed.

(** The token loop adds every change of the delta to the entry of its token, once. *)
Lemma apply_tokens_lookup address l m m' k :
  NoDup l.*1 -> rfold (apply_token address) l m = Ok m' ->
  default 0 (m' !! k) = default 0 (m !! k) + default 0 (list_to_map (M := gmap string Z) l !! k).
Proof.
  revert m; induction l as [|[i c] l IH]; intros m Hnd H; cbn in H.
  { injection H as <-. cbn. rewrite lookup_empty. cbn. lia. }
  cbn in Hnd. apply NoDup_cons in Hnd as [Hi Hnd].
  apply rbind_ok_inv in H as (m1 & H1 & H). rewrite (IH m1 Hnd H).
  unfold apply_token in H1. cbn in H1. destruct (_ || _); [done|]. injection H1 as <-.
  cbn [list_to_map foldr]. destruct (decide (k = i)) as [->|Hne].
  - rewrite lookup_insert_eq. rewrite (not_elem_of_list_to_map_1 _ _ Hi). cbn.
    destruct (Z.eqb_spec (default 0 (m !! i) + c) 0) as [->|].
    + rewrite lookup_delete_eq. cbn. lia.
    + rewrite lookup_insert_eq. cbn. lia.
  - rewrite lookup_insert_ne by done. destruct (_ =? 0).
    + by rewrite lookup_delete_ne.
    + by rewrite lookup_insert_ne.
Qed.

Lemma bt_entries_map {A} (m : gmap string A) : list_to_map (bt_entries m) = m.
Proof.
  rewrite <-(list_to_map_to_list m) at 2. apply list_to_map_proper; [apply NoDup_bt_entries|apply bt_entries_perm].
Qed.

Lemma wallet_apply_inv w d w' :
  wallet_apply w d = Ok w' ->
  in_i64 (w.(ws_balance) + d.(dl_balance)) /\ w.(ws_nonce) + d.(dl_nonce) <= u64_max /\
  exists i1 i2 t,
    rfold (apply_meta w.(ws_address)) d.(dl_token_meta) (insert_all d.(dl_tokens_issued) w.(ws_tokens_issued)) = Ok i1 /\
    rfold (apply_supply w.(ws_address)) (bt_entries d.(dl_token_supply)) i1 = Ok i2 /\
    rfold (apply_token w.(ws_address)) (bt_entries d.(dl_tokens)) w.(ws_tokens) = Ok t /\
    w' = wallet_write w d (w.(ws_balance) + d.(dl_balance)) (w.(ws_nonce) + d.(dl_nonce)) i2 t.
Proof.
  unfold wallet_apply. intros H.
  destruct (try_i64 _) as [b|] eqn:Hb; cbn [ok_or rbind] in H; [|done]. apply try_i64_Some in Hb as [-> Hb].
  unfold checked_add_u64 in H. destruct (Z.leb_spec (w.(ws_nonce) + d.(dl_nonce)) u64_max) as [Hn|]; cbn [ok_or rbind] in H; [|done].
  apply rbind_ok_inv in H as (i1 & H1 & H). apply rbind_ok_inv in H as (i2 & H2 & H).
  apply rbind_ok_inv in H as (t & H3 & H). injection H as <-. eauto 10.
Qed.

(** ** Invariant *)

Record wf_wallet (w : WalletState) : Prop := {
  wf_balance : in_i64 w.(ws_balance);
  wf_nonce : in_u64 w.(ws_nonce);
  wf_produced : in_u64 w.(ws_produced_blocks);
  wf_fees : in_u64 w.(ws_forged_fees);
  wf_rewards : in_u64 w.(ws_forged_rewards);
  wf_locks : map_Forall (fun k l => l.(lk_lock_id) = k /\ in_u64 l.(lk_amount)) w.(ws_locks);
  wf_tokens : map_Forall (fun _ v => 0 < v <= u64_max) w.(ws_tokens);
  wf_issued : map_Forall (fun _ s => in_u64 s.(ts_supply)) w.(ws_tokens_issued)
}.

Record wf_delta (d : WalletDelta) : Prop := {
  wd_nonce : 0 <= d.(dl_nonce);
  wd_fees : 0 <= d.(dl_forged_fees);
  wd_rewards : 0 <= d.(dl_forged_rewards);
  wd_locks : Forall (fun l => in_u64 l.(lk_amount)) d.(dl_locks_added);
  wd_issued : Forall (fun p => in_u64 p.2.(ts_supply)) d.(dl_tokens_issued)
}.

Lemma wf_wallet_new address : wf_wallet (wallet_new address).
Proof. by split; cbn; try (bounds; lia); apply map_Forall_empty. Qed.

Lemma insert_all_locks l m :
  map_Forall (fun k x => x.(lk_lock_id) = k /\ in_u64 x.(lk_amount)) m ->
  Forall (fun x => in_u64 x.(lk_amount)) l ->
  map_Forall (fun k x => x.(lk_lock_id) = k /\ in_u64 x.(lk_amount)) (insert_all ((fun x => (x.(lk_lock_id), x)) <$> l) m).
Proof.
  intros Hm Hl. revert m Hm; induction Hl as [|x l Hx _ IH]; intros m Hm; cbn; [done|].
  apply IH. by apply map_Forall_insert_2.
Qed.

Lemma remove_all_forall {A} (P : string -> A -> Prop) l (m : gmap string A) :
  map_Forall P m -> map_Forall P (remove_all l m).
Proof.
  intros Hm k x Hx. rewrite lookup_remove_all in Hx. destruct (decide _); [done|]. by apply Hm.
Qed.

Definition supply_ok (m : gmap string TokenState) : Prop := map_Forall (fun _ s => in_u64 s.(ts_supply)) m.

Lemma apply_meta_supply address m p m' : supply_ok m -> apply_meta address m p = Ok m' -> supply_ok m'.
Proof.
  intros Hm H. unfold apply_meta in H. inv_ok. apply map_Forall_insert_2; [|done]. cbn. by eapply (Hm p.1).
Qed.

Lemma apply_supply_supply address m p m' : supply_ok m -> apply_supply address m p = Ok m' -> supply_ok m'.
Proof.
  intros Hm H. unfold apply_supply in H. inv_ok. destruct (_ || _) eqn:Hr; [done|]. injection H as <-.
  apply orb_false_iff in Hr as [H1 H2]. apply map_Forall_insert_2; [|done]. cbn. bounds. lia.
Qed.

Lemma apply_token_pos address m p m' :
  map_Forall (fun _ v => 0 < v <= u64_max) m -> apply_token address m p = Ok m' ->
  map_Forall (fun _ v => 0 < v <= u64_max) m'.
Proof.
  intros Hm H. unfold apply_token in H. destruct (_ || _) eqn:Hr; [done|]. injection H as <-.
  apply orb_false_iff in Hr as [H1 H2]. destruct (Z.eqb_spec (default 0 (m !! p.1) + p.2) 0).
  - by apply map_Forall_delete.
  - apply map_Forall_insert_2; [lia|done].
Qed.

Lemma apply_wf w d w' : wf_wallet w -> wf_delta d -> wallet_apply w d = Ok w' -> wf_wallet w'.
Proof.
  intros [Hb Hn Hp Hf Hr Hl Ht Hi] [Dn Df Dr Dl Di] H.
  apply wallet_apply_inv in H as (Hb' & Hn' & i1 & i2 & t & H1 & H2 & H3 & ->).
  split; unfold wallet_write; cbn.
  - done.
  - bounds. lia.
  - apply as_u64_range.
  - apply sat_add_range; bounds; lia.
  - apply sat_add_range; bounds; lia.
  - apply insert_all_locks; [|done]. by apply remove_all_forall.
  - eapply (rfold_inv (map_Forall (fun _ v => 0 < v <= u64_max))); [|exact Ht|exact H3].
    intros p m m' _ Hm. by apply apply_token_pos.
  - apply remove_all_forall.
    eapply (rfold_inv supply_ok); [|  |exact H2].
    { intros p m m' _ Hm. by apply apply_supply_supply. }
    eapply (rfold_inv supply_ok); [|  |exact H1].
    { intros p m m' _ Hm. by apply apply_meta_supply. }
    by apply (insert_all_inv (fun s => in_u64 s.(ts_supply))).
Qed.

(** ** When a delta is rejected *)

Lemma apply_tokens_ok address l m :
  NoDup l.*1 ->
  is_ok (rfold (apply_token address) l m) = true <->
  Forall (fun p => in_u64 (default 0 (m !! p.1) + p.2)) l.
Proof.
  revert m; induction l as [|[i c] l IH]; intros m Hnd; cbn [rfold]; [done|].
  cbn in Hnd. apply NoDup_cons in Hnd as [Hi Hnd]. rewrite Forall_cons. cbn [fst snd].
  unfold apply_token at 1. cbn [fst snd]. set (v := default 0 (m !! i) + c).
  destruct (Z.ltb_spec v 0); cbn [orb rbind is_ok]; [split; [done|bounds; lia]|].
  destruct (Z.ltb_spec u64_max v); cbn [orb rbind is_ok]; [split; [done|bounds; lia]|].
  rewrite IH by done.
  assert (Hx : forall p, p ∈ l -> (if v =? 0 then delete i m else <[i:=v]> m) !! p.1 = m !! p.1).
  { intros p Hp. assert (i <> p.1) by (intros ->; apply Hi; by apply list_elem_of_fmap_2).
    destruct (v =? 0); [by apply lookup_delete_ne|by apply lookup_insert_ne]. }
  split; intros Hall.
  - split; [bounds; lia|]. apply Forall_forall. intros p Hp. rewrite Forall_forall in Hall.
    specialize (Hall p Hp). by rewrite Hx in Hall.
  - destruct Hall as [_ Hall]. rewrite Forall_forall in *. intros p Hp. rewrite Hx by done. by apply Hall.
Qed.

Lemma apply_supplies_ok address l m :
  NoDup l.*1 ->
  is_ok (rfold (apply_supply address) l m) = true <->
  Forall (fun p => exists st, m !! p.1 = Some st /\ in_u64 (st.(ts_supply) + p.2)) l.
Proof.
  revert m; induction l as [|[i c] l IH]; intros m Hnd; cbn [rfold]; [done|].
  cbn in Hnd. apply NoDup_cons in Hnd as [Hi Hnd]. rewrite Forall_cons. cbn [fst snd].
  unfold apply_supply at 1. cbn [fst snd]. destruct (m !! i) as [st|]; cbn [ok_or rbind is_ok].
  2:{ split; [done|]. by intros [(? & ? & ?) _]. }
  set (v := st.(ts_supply) + c).
  destruct (Z.ltb_spec v 0); cbn [orb rbind is_ok]; [split; [done|intros [(? & [= <-] & ?) _]; bounds; lia]|].
  destruct (Z.ltb_spec u64_max v); cbn [orb rbind is_ok]; [split; [done|intros [(? & [= <-] & ?) _]; bounds; lia]|].
  rewrite IH by done.
  assert (Hx : forall p, p ∈ l -> <[i:=ts_set_supply v st]> m !! p.1 = m !! p.1).
  { intros p Hp. apply lookup_insert_ne. intros ->; apply Hi; by apply list_elem_of_fmap_2. }
  split; intros Hall.
  - split; [exists st; split; [done|bounds; lia]|]. apply Forall_forall. intros p Hp. rewrite Forall_forall in Hall.
    specialize (Hall p Hp). by rewrite Hx in Hall.
  - destruct Hall as [_ Hall]. rewrite Forall_forall in *. intros p Hp. rewrite Hx by done. by apply Hall.
Qed.

(** The metadata loop: fails exactly on a token the wallet did not issue, and never changes a supply. *)
Lemma apply_metas_ok address l m :
  (Forall (fun p => is_Some (m !! p.1)) l -> exists m', rfold (apply_meta address) l m = Ok m' /\
     forall k, ts_supply <$> m' !! k = ts_supply <$> m !! k) /\
  (is_ok (rfold (apply_meta address) l m) = true -> Forall (fun p => is_Some (m !! p.1)) l).
Proof.
  revert m; induction l as [|[i c] l IH]; intros m; cbn [rfold]; [split; [eauto|done]|].
  unfold apply_meta at 1 3. cbn [fst snd].
  destruct (m !! i) as [st|] eqn:Hi; cbn [ok_or rbind is_ok].
  2:{ split; [intros [[? ?] _]%Forall_cons; cbn in *; congruence|done]. }
  assert (Hs : forall k, is_Some (<[i:=ts_set_meta (Some c) st]> m !! k) <-> is_Some (m !! k)).
  { intros k. destruct (decide (k = i)) as [->|]; [by rewrite lookup_insert_eq, Hi|by rewrite lookup_insert_ne]. }
  destruct (IH (<[i:=ts_set_meta (Some c) st]> m)) as [IH1 IH2]. split.
  - intros [_ Hl]%Forall_cons. destruct IH1 as (m' & -> & Hm').
    { eapply Forall_impl; [exact Hl|]. intros p. apply Hs. }
    exists m'. split; [done|]. intros k. rewrite Hm'. destruct (decide (k = i)) as [->|].
    + by rewrite lookup_insert_eq, Hi.
    + by rewrite lookup_insert_ne.
  - intros H. apply Forall_cons. cbn. rewrite Hi. split; [by eexists|].
    eapply Forall_impl; [apply IH2, H|]. intros p. apply Hs.
Qed.

(** A delta the wallet can take. *)
Definition delta_fits (w : WalletState) (d : WalletDelta) : Prop :=
  let issued := insert_all d.(dl_tokens_issued) w.(ws_tokens_issued) in
  in_i64 (w.(ws_balance) + d.(dl_balance)) /\
  w.(ws_nonce) + d.(dl_nonce) <= u64_max /\
  Forall (fun p => is_Some (issued !! p.1)) d.(dl_token_meta) /\
  (forall id c, d.(dl_token_supply) !! id = Some c ->
     exists st, issued !! id = Some st /\ in_u64 (st.(ts_supply) + c)) /\
  (forall id c, d.(dl_tokens) !! id = Some c -> in_u64 (default 0 (w.(ws_tokens) !! id) + c)).

Lemma forall_bt_entries {A} (P : string -> A -> Prop) (m : gmap string A) :
  Forall (fun p => P p.1 p.2) (bt_entries m) <-> forall k x, m !! k = Some x -> P k x.
Proof.
  rewrite Forall_forall. split.
  - intros H k x Hk. apply (H (k, x)). by apply elem_of_bt_entries.
  - intros H [k x] Hp. apply H. by apply elem_of_bt_entries.
Qed.

Lemma apply_ok_iff w d : is_ok (wallet_apply w d) = true <-> delta_fits w d.
Proof.
  unfold wallet_apply, delta_fits. set (issued := insert_all _ _).
  assert (Hb : forall x, try_i64 x = if decide (in_i64 x) then Some x else None).
  { intros x. unfold try_i64, in_i64. destruct (decide _) as [D|D];
      destruct (Z.leb_spec i64_min x), (Z.leb_spec x i64_max); cbn; try done; lia. }
  rewrite Hb. destruct (decide _) as [B|B]; cbn [ok_or rbind is_ok]; [|split; [done|tauto]].
  unfold checked_add_u64. destruct (Z.leb_spec (w.(ws_nonce) + d.(dl_nonce)) u64_max); cbn [ok_or rbind is_ok];
    [|split; [done|lia]].
  destruct (apply_metas_ok w.(ws_address) d.(dl_token_meta) issued) as [M1 M2].
  destruct (rfold (apply_meta _) _ issued) as [m1|e] eqn:Hm; cbn [rbind is_ok].
  2:{ split; [done|]. intros (_ & _ & HM & _). by destruct (M1 HM) as (? & ? & _). }
  specialize (M2 eq_refl). destruct (M1 M2) as (m1' & [= <-] & Hsup).
  pose proof (apply_supplies_ok w.(ws_address) (bt_entries d.(dl_token_supply)) m1 (NoDup_bt_entries _)) as S1.
  rewrite (forall_bt_entries (fun k c => exists st, m1 !! k = Some st /\ in_u64 (st.(ts_supply) + c))) in S1.
  assert (Hs : (forall id c, d.(dl_token_supply) !! id = Some c -> exists st, m1 !! id = Some st /\ in_u64 (st.(ts_supply) + c))
     <-> (forall id c, d.(dl_token_supply) !! id = Some c -> exists st, issued !! id = Some st /\ in_u64 (st.(ts_supply) + c))).
  { split; intros HH id c Hc; specialize (HH id c Hc); specialize (Hsup id);
      destruct HH as (st & Hst & Hr); rewrite Hst in Hsup; cbn in Hsup;
      [destruct (issued !! id) as [st'|] eqn:?|destruct (m1 !! id) as [st'|] eqn:?]; try discriminate;
      injection Hsup as Hsup; exists st'; (split; [done|by rewrite <-Hsup || rewrite Hsup]). }
  destruct (rfold (apply_supply _) _ m1) as [m2|e]; cbn [rbind is_ok] in *.
  2:{ split; [done|]. intros (_ & _ & _ & HS & _). by apply S1, Hs. }
  pose proof (apply_tokens_ok w.(ws_address) (bt_entries d.(dl_tokens)) w.(ws_tokens) (NoDup_bt_entries _)) as T1.
  rewrite (forall_bt_entries (fun k c => in_u64 (default 0 (w.(ws_tokens) !! k) + c))) in T1.
  rewrite Hs in S1. destruct (rfold (apply_token _) _ _) as [m3|e]; cbn [rbind is_ok] in *; tauto.
Qed.

(** C38: applying a delta keeps every wallet well formed: balance within [i64], nonce and counters
    within [u64], no token entry at zero or beyond [u64], every lock under its own id. *)
Theorem wallet_apply_wf w d w' (Hw : wf_wallet w) (Hd : wf_delta d) (H : wallet_apply w d = Ok w') : wf_wallet w'.
Proof. by eapply apply_wf. Qed.

(** An applied delta is added exactly: the balance and the nonce without wrap-around, and every
    token balance, touched or not, counting an absent entry as zero. *)
Theorem wallet_apply_exact w d w' (H : wallet_apply w d = Ok w') :
  w'.(ws_address) = w.(ws_address) /\
  w'.(ws_balance) = w.(ws_balance) + d.(dl_balance) /\
  w'.(ws_nonce) = w.(ws_nonce) + d.(dl_nonce) /\
  forall id, default 0 (w'.(ws_tokens) !! id) = default 0 (w.(ws_tokens) !! id) + default 0 (d.(dl_tokens) !! id).
Proof.
  apply wallet_apply_inv in H as (_ & _ & i1 & i2 & t & _ & _ & Ht & ->). unfold wallet_write; cbn. split_and!; try done.
  intros id. rewrite <-(bt_entries_map d.(dl_tokens)). eapply apply_tokens_lookup; [apply NoDup_bt_entries|exact Ht].
Qed.

(** A delta is rejected exactly when it does not fit: a balance outside [i64], a nonce beyond
    [u64], metadata or supply of a token the wallet did not issue, or a supply or token balance that
    would leave [u64]. *)
Theorem wallet_apply_ok_iff w d : is_ok (wallet_apply w d) = true <-> delta_fits w d.
Proof. apply apply_ok_iff. Qed.

(** ** Witnesses *)

Definition demo_wallet : WalletState :=
  mkWallet "S1" None 100 4 None (Some "02aa"%string) None 0 0 0 None false ∅ None ∅ None None {[ "t1"%string := 30 ]} ∅.
Definition demo_delta : WalletDelta :=
  mkDelta (-40) 1 None None None None 0 0 0 None false
    [mkLock "l1" "02aa" "S2" 25 "00" (mkExpiration 1 9) 5 None] [] None [] [] [] [] None None
    {[ "t1"%string := -30; "t2"%string := 7 ]} [] ∅ [] ∅ [].
Definition demo_wallet' : WalletState := match wallet_apply demo_wallet demo_delta with Ok w => w | Err _ => demo_wallet end.

Lemma demo_wallet_wf : wf_wallet demo_wallet.
Proof.
  split; cbn; try (bounds; lia); try apply map_Forall_empty. apply map_Forall_singleton. bounds. lia.
Qed.

Lemma demo_delta_wf : wf_delta demo_delta.
Proof. split; cbn; try lia; repeat constructor; bounds; cbn; lia. Qed.

Lemma wallet_apply_wf_witness : wf_wallet demo_wallet' /\ demo_wallet'.(ws_balance) = 60.
Proof.
  split; [|vm_compute; reflexivity].
  apply (wallet_apply_wf demo_wallet demo_delta demo_wallet' demo_wallet_wf demo_delta_wf). vm_compute. reflexivity.
Defined.

Lemma wallet_apply_exact_witness :
  demo_wallet'.(ws_balance) = 60 /\ demo_wallet'.(ws_tokens) !! "t1"%string = None /\
  default 0 (demo_wallet'.(ws_tokens) !! "t2"%string) = 0 + 7.
Proof.
  split; [vm_compute; reflexivity|]. split; [vm_compute; reflexivity|].
  apply (proj2 (proj2 (proj2 (wallet_apply_exact demo_wallet demo_delta demo_wallet' ltac:(vm_compute; reflexivity)))) "t2"%string).
Defined.
