(* ===== verification/Rules.v ===== *)
(** * Transaction rules

    [src/src/rules.rs]: second signatures, SmartObjects, native tokens and the SHIP-43 market, and
    the version-3 quantum rules.  Every rule is a function to [result _ string], with the source's
    error texts; the token rules take the state they need through the class [TokenView]. *)

From S2P Require Import Prelude Models Env Bytes Crypto Config TxCodec Wallet.

Abbreviation Rule A := (result A string).

(** [Display] of the crate's errors; the detail of a third-party error is not reproduced. *)
Definition err_text (e : Error) : string :=
  match e with
  | EHex => "hex decode error: "
  | EAddress s => "invalid address: " +:+ s
  | EPublicKey s => "invalid public key: " +:+ s
  | ESignature s => "invalid signature: " +:+ s
  | ESerialization s => "serialization error: " +:+ s
  | EStorage s => "storage error: " +:+ s
  | EJson s => "json error: " +:+ s
  | EBlockValidation s => "block validation failed: " +:+ s
  | ENotFound s => "not found: " +:+ s
  | EOverflow s => "arithmetic overflow: " +:+ s
  | EHttp s => "http error: " +:+ s
  | ESync s => "sync error: " +:+ s
  | EStaleTip s => "stale tip: " +:+ s
  | EFutureBlock s => "block from the future: " +:+ s
  | EConfig s => "config error: " +:+ s
  end.

Definition is_none {A} (o : option A) : bool := match o with None => true | Some _ => false end.
Definition is_some {A} (o : option A) : bool := negb (is_none o).
Definition opt_test {A} (f : A -> bool) (o : option A) : bool := match o with Some x => f x | None => false end.
Definition ostr (o : option string) : string := default EmptyString o.
Definition in_range (lo hi n : Z) : bool := (lo <=? n) && (n <=? hi).

(** [char::is_whitespace], as the length of the UTF-8 character at the front (0 when it is none). *)
Definition ws_len (s : string) : nat :=
  match Z_of_byte <$> take 3 (bytes_of s) with
  | 225 :: 154 :: 128 :: _ => 3%nat
  | 226 :: 128 :: c :: _ => if in_range 128 138 c || (c =? 168) || (c =? 169) || (c =? 175) then 3%nat else 0%nat
  | 226 :: 129 :: 159 :: _ => 3%nat
  | 227 :: 128 :: 128 :: _ => 3%nat
  | 194 :: 133 :: _ => 2%nat
  | 194 :: 160 :: _ => 2%nat
  | c :: _ => if in_range 9 13 c || (c =? 32) then 1%nat else 0%nat
  | [] => 0%nat
  end.
Fixpoint has_whitespace (s : string) : bool :=
  match s with EmptyString => false | String _ s' => (0 <? ws_len s)%nat || has_whitespace s' end.
(** [str::trim_start]. *)
Fixpoint trim_start_go (fuel : nat) (s : string) : string :=
  match fuel with
  | O => s
  | S fuel => match ws_len s with
              | O => s
              | n => trim_start_go fuel (String.substring n (String.length s - n) s)
              end
  end.
Definition trim_start (s : string) : string := trim_start_go (String.length s) s.

Section rules.
Context `{E : Env}.

(** ** Second signature *)

Definition check_second_signature (tx : Transaction) (second_public_key : option string) : Rule unit :=
  if is_pq tx then Ok tt else
  match second_public_key with
  | Some pk =>
      if (tx.(tx_type_group) =? TYPE_GROUP_CORE) && (tx.(tx_type_) =? tx_type.SECOND_SIGNATURE)
      then Err "SecondSignatureAlreadyRegisteredError: wallet already has a second signature"%string
      else match verify_transaction_second_signature tx pk with
           | Ok true => Ok tt
           | Ok false =>
               if is_none (second_signature_any tx)
               then Err "MissingSecondSignatureError: transaction requires a second signature"%string
               else Err "InvalidSecondSignatureError: second signature is invalid"%string
           | Err e => Err ("InvalidSecondSignatureError: " +:+ err_text e)
           end
  | None =>
      if is_some (second_signature_any tx)
      then Err "UnexpectedSecondSignatureError: wallet has no second signature"%string
      else Ok tt
  end.

Definition registered_second_key (tx : Transaction) : Rule (option string) :=
  if negb (tx.(tx_type_group) =? TYPE_GROUP_CORE) || negb (tx.(tx_type_) =? tx_type.SECOND_SIGNATURE) || is_pq tx
  then Ok None
  else
    let? pk := ok_or (ss_public_key <$> (tx.(tx_asset) ≫= as_signature))
                 "SecondSignatureRegistration without asset.signature.publicKey"%string in
    if (slen pk =? 66) && (starts_with "02" pk || starts_with "03" pk) && is_some (hex_decode pk)
    then Ok (Some pk)
    else Err ("SecondSignatureRegistration: invalid public key " +:+ pk).

(** ** SmartObjects *)

(** Ticker rule for the names of type-5 sObjects. *)
Definition ticker_ok (name : string) : bool :=
  in_range 3 10 (slen name) && str_forall (fun c => is_upper c || is_digit c) name.

Definition name_char (c : Z) : bool :=
  is_alnum c || existsb (fun b => Z_of_byte b =? c) (bytes_of "_!@$&.-").
Definition sobj_name_ok (n : string) : bool := in_range 1 40 (slen n) && str_forall name_char n.
Definition sobj_data_ok (ms : Milestone) (s : string) : bool :=
  if ms.(m_sobj_v2) then in_range 1 255 (slen s) && negb (has_control s)
  else in_range 1 128 (slen s) && is_some (b58_decode s).

Definition sobj_market (action : Z) : bool :=
  (action =? sobj.ACTION_TRANSFER) || (action =? sobj.ACTION_SELL) || (action =? sobj.ACTION_BUY).

Definition check_sobj_format (tx : Transaction) (ms : Milestone) : Rule SmartObjectAsset :=
  let? e := ok_or (sobj_asset tx) "SmartObject: missing or malformed asset"%string in
  if negb (tx.(tx_amount) =? 0) then Err "SmartObject: amount must be 0"%string else
  let? static := ok_or (sobj.static_fee e.(sa_action)) ("SmartObject: unknown action " +:+ fmt_u e.(sa_action)) in
  let fee := as_u64 (static + pq_surcharge tx ms.(m_pq).(pq_fee_per_byte)) in
  if negb (tx.(tx_fee) =? fee) then Err ("StaticFeeMismatchError: sObject fee must be exactly " +:+ fmt_u fee) else
  let transfer := e.(sa_action) =? sobj.ACTION_TRANSFER in
  let market := sobj_market e.(sa_action) in
  if market && negb ms.(m_sobj_v2)
  then Err "SmartObjectTransferNotActiveError: sObject transfer / sell / buy need milestone sobjV2"%string else
  if negb (Bool.eqb (is_some e.(sa_recipient_id)) transfer)
  then Err "SmartObject: recipientId is only valid for transfer (action 3)"%string else
  if negb (Bool.eqb (is_some e.(sa_price)) (e.(sa_action) =? sobj.ACTION_SELL))
  then Err "SmartObject: price is only valid for sell (action 4)"%string else
  if opt_test (fun r => negb (is_ok (address_to_bytes r))) e.(sa_recipient_id)
  then Err "SmartObject: invalid recipientId"%string else
  if opt_test (fun d => negb (sobj_data_ok ms d)) e.(sa_data).(sd_ntfry_data)
  then Err "SmartObject: invalid ntfryData"%string else
  if e.(sa_action) =? sobj.ACTION_REGISTER then
    if is_some e.(sa_registration_id) then Err "SmartObject: register must not carry registrationId"%string else
    if negb (opt_test sobj_name_ok e.(sa_data).(sd_name)) then Err "SmartObject: register requires a valid name"%string else
    if ms.(m_sobj_v2) && (e.(sa_type_) =? token.TICKER_SOBJ_TYPE) && negb (ticker_ok (ostr e.(sa_data).(sd_name)))
    then Err "SmartObjectTickerInvalidError: type-5 name must match ^[A-Z0-9]{3,10}$"%string
    else Ok e
  else
    if negb (opt_test (fun id => (slen id =? 64) && is_some (hex_decode id)) e.(sa_registration_id))
    then Err "SmartObject: update/resign require registrationId"%string else
    if is_some e.(sa_data).(sd_name) then Err "SmartObject: name cannot be changed"%string else
    if ((e.(sa_action) =? sobj.ACTION_RESIGN) || market) && is_some e.(sa_data).(sd_ntfry_data)
    then Err "SmartObject: resign / transfer / sell / buy must not carry data"%string
    else Ok e.

Definition map_any {A} (f : A -> bool) (m : gmap string A) : bool := existsb (fun p => f p.2) (map_to_list m).

Definition live_service_node (r : SmartObject) : bool := (r.(so_type_) =? sobj.TYPE_SERVICE_NODE) && negb r.(so_resigned).

(** The purchase branch: the record lives in the seller's wallet. *)
Definition check_sobj_buy (tx : Transaction) (e : SmartObjectAsset) (wallet : option WalletState)
    (lookup : string -> option (string * SmartObject)) : Rule unit :=
  let? (owner, rec) := ok_or (lookup (ostr e.(sa_registration_id))) "SmartObjectNotRegisteredError"%string in
  if rec.(so_resigned) then Err "SmartObjectAlreadyResignedError"%string else
  if negb (rec.(so_type_) =? e.(sa_type_)) || negb (rec.(so_sub_type) =? e.(sa_sub_type))
  then Err "SmartObjectWrongTypeError"%string else
  let? price := ok_or (match rec.(so_price) with Some p => if 0 <? p then Some p else None | None => None end)
                  "SmartObjectNotForSaleError: no open sale order"%string in
  if opt_test (fun w => String.eqb w.(ws_address) owner) wallet
  then Err "SmartObjectTransferToSelfError: you already own this sObject"%string else
  let balance := default 0 (ws_balance <$> wallet) in
  if (balance <? 0) || (balance <? sat_add_u64 price tx.(tx_fee))
  then Err ("SmartObjectInsufficientBalanceError: price " +:+ fmt_u price +:+ " + fee " +:+ fmt_u tx.(tx_fee) +:+ " needed")
  else Ok tt.

Definition service_node_data : string :=
  "ServiceNodeDataInvalidError: ntfryData must be iroh://<EndpointId 64 hex>?roles=relay,…".

Definition check_sobj_register (tx : Transaction) (e : SmartObjectAsset) (ms : Milestone) (wallet : option WalletState)
    (pending : gmap string SmartObject) (exists_ : bool) (name_taken : string -> Z -> bool) : Rule unit :=
  if exists_ then Err "SmartObjectAlreadyRegisteredError"%string else
  let name := ostr e.(sa_data).(sd_name) in
  if name_taken name e.(sa_type_) then Err "SmartObjectNameAlreadyRegisteredError"%string else
  let? _ :=
    if e.(sa_type_) =? sobj.TYPE_SERVICE_NODE then
      if negb ms.(m_masternodes).(mn_enabled)
      then Err "SmartObjectTypeNotActiveError: Service Nodes need milestone masternodes.enabled (SHIP-42)"%string else
      if is_none (parse_service_node (ostr e.(sa_data).(sd_ntfry_data))) then Err service_node_data else
      if opt_test (fun w => map_any live_service_node w.(ws_sobjects)) wallet || map_any live_service_node pending
      then Err "ServiceNodeAlreadyRegisteredError: one Service Node per wallet"%string else
      let collateral := ms.(m_masternodes).(mn_collateral_amount) in
      if default 0 (ws_balance <$> wallet) <? as_i64 (as_i64 collateral + as_i64 tx.(tx_fee))
      then Err ("ServiceNodeCollateralError: balance must stay >= " +:+ fmt_u collateral +:+ " smartoshi after the fee")
      else Ok tt
    else Ok tt in
  if e.(sa_type_) =? sobj.TYPE_DELEGATE then
    match wallet ≫= ws_username with
    | None => Err "SmartObjectSenderIsNotDelegateError"%string
    | Some u => if String.eqb u name then Ok tt else Err "SmartObjectNameDoesNotMatchDelegateError"%string
    end
  else Ok tt.

(** Update, resign, transfer and sell. *)
Definition check_sobj_change (e : SmartObjectAsset) (wallet : option WalletState)
    (record : option SmartObject) (token_supply : string -> option Z) : Rule unit :=
  let reg := ostr e.(sa_registration_id) in
  let? rec := ok_or record "SmartObjectNotRegisteredError"%string in
  if rec.(so_resigned) then Err "SmartObjectAlreadyResignedError"%string else
  if negb (rec.(so_type_) =? e.(sa_type_)) then Err "SmartObjectWrongTypeError"%string else
  if (e.(sa_action) =? sobj.ACTION_TRANSFER)
     && opt_test (fun w => String.eqb w.(ws_address) (ostr e.(sa_recipient_id))) wallet
  then Err "SmartObjectTransferToSelfError"%string else
  let moves := (e.(sa_action) =? sobj.ACTION_TRANSFER) || (e.(sa_action) =? sobj.ACTION_SELL) in
  if moves && (rec.(so_type_) =? sobj.TYPE_DELEGATE)
  then Err "SmartObjectDelegateNotTransferableError: delegate sObjects follow the delegate key"%string else
  if (rec.(so_type_) =? sobj.TYPE_SERVICE_NODE) && moves
  then Err "ServiceNodeNotTransferableError: a Service Node object stays with its collateral wallet"%string else
  if (rec.(so_type_) =? sobj.TYPE_SERVICE_NODE) && (e.(sa_action) =? sobj.ACTION_UPDATE)
     && is_none (parse_service_node (ostr e.(sa_data).(sd_ntfry_data)))
  then Err service_node_data else
  if negb (rec.(so_sub_type) =? e.(sa_sub_type)) then Err "SmartObjectWrongSubTypeError"%string else
  if (e.(sa_action) =? sobj.ACTION_RESIGN) && (rec.(so_type_) =? token.TICKER_SOBJ_TYPE)
     && opt_test (fun s => 0 <? s) (token_supply reg)
  then Err "TokenSmartObjectStillActiveError: the token has live supply — burn it to 0 before resigning its registry"%string
  else Ok tt.

Definition check_sobj (tx : Transaction) (ms : Milestone) (wallet : option WalletState)
    (pending : gmap string SmartObject) (name_taken : string -> Z -> bool)
    (lookup : string -> option (string * SmartObject)) (token_supply : string -> option Z) : Rule unit :=
  let? e := check_sobj_format tx ms in
  let? id := ok_or tx.(tx_id) "SmartObject: transaction without id"%string in
  let record reg := opt_or (pending !! reg) (wallet ≫= fun w => w.(ws_sobjects) !! reg) in
  if e.(sa_action) =? sobj.ACTION_BUY then check_sobj_buy tx e wallet lookup
  else if e.(sa_action) =? sobj.ACTION_REGISTER
  then check_sobj_register tx e ms wallet pending (is_some (record id)) name_taken
  else check_sobj_change e wallet (record (ostr e.(sa_registration_id))) token_supply.

(** ** Native tokens *)

Definition meta_text_ok (s : string) (max : Z) : bool :=
  negb (slen s =? 0) && (slen s <=? max) && negb (has_control s).

Definition png_magic : list byte := [x89; x50; x4e; x47; x0d; x0a; x1a; x0a].

Definition check_logo (t : string) (m : TokenMeta) : Rule unit :=
  let? b := ok_or (logo_bytes m) "TokenMetaInvalidError: logo must be base64"%string in
  if (length b =? 0)%nat || (token.META_MAX_LOGO <? Z.of_nat (length b))
  then Err ("TokenLogoTooLargeError: logo must be 1..=" +:+ fmt_u token.META_MAX_LOGO +:+ " bytes") else
  if String.eqb t "png" then
    if bool_decide (take 8 b = png_magic) then Ok tt else Err "TokenLogoInvalidError: not a PNG file"%string
  else
    let? text := ok_or (from_utf8 b) "TokenLogoInvalidError: SVG must be UTF-8"%string in
    let lower := ascii_lower text in
    let head := trim_start lower in
    if negb (starts_with "<svg" head || starts_with "<?xml" head) || negb (str_contains lower "<svg")
    then Err "TokenLogoInvalidError: not an SVG document"%string else
    if str_contains lower "<script" || str_contains lower "javascript:" || str_contains lower "<foreignobject"
    then Err "TokenLogoInvalidError: SVG must not contain scripts"%string
    else Ok tt.

Definition check_token_meta (m : TokenMeta) : Rule unit :=
  if negb (meta_text_ok m.(tm_name) token.META_MAX_NAME)
  then Err ("TokenMetaInvalidError: name must be 1..=" +:+ fmt_u token.META_MAX_NAME +:+ " bytes") else
  if opt_test (fun d => negb (meta_text_ok d token.META_MAX_DESCRIPTION)) m.(tm_description)
  then Err ("TokenMetaInvalidError: description must be 1..=" +:+ fmt_u token.META_MAX_DESCRIPTION +:+ " bytes") else
  if opt_test (fun w => negb (meta_text_ok w token.META_MAX_WEBSITE) || has_whitespace w) m.(tm_website)
  then Err ("TokenMetaInvalidError: website must be 1..=" +:+ fmt_u token.META_MAX_WEBSITE +:+ " bytes without spaces") else
  match m.(tm_logo_type), m.(tm_logo) with
  | None, None => Ok tt
  | Some t, Some _ =>
      if String.eqb t "svg" || String.eqb t "png" then check_logo t m
      else Err "TokenMetaInvalidError: logoType must be svg|png and come together with logo"%string
  | _, _ => Err "TokenMetaInvalidError: logoType must be svg|png and come together with logo"%string
  end.

Definition hex64 (s : string) : bool := (slen s =? 64) && str_forall is_hexdigit s.

(** The static fee of a token transaction, after the checks of its type. *)
Definition token_static_fee (tx : Transaction) (a : TokenAsset) (ms : Milestone) : Rule Z :=
  let f := ms.(m_token_fees) in
  let t := tx.(tx_type_) in
  if t =? token.INIT then
    let d := default 0 a.(ta_decimals) in
    let fl := default 0 a.(ta_flags) in
    let init := default 0 a.(ta_initial_supply) in
    let cap := default 0 a.(ta_supply_cap) in
    if token.MAX_DECIMALS <? d then Err "TokenDecimalsInvalidError: decimals must be 0..=8"%string else
    if negb (Z.land fl (255 - (token.FLAG_MINTABLE + token.FLAG_BURNABLE + token.FLAG_FROZEN_CAP)) =? 0)
    then Err "TokenFlagsInvalidError: reserved flag bits set"%string else
    if (init =? 0) || (cap <? init) then Err "TokenSupplyInvalidError: 0 < initialSupply <= supplyCap"%string else
    if (Z.land fl token.FLAG_MINTABLE =? 0) && negb (init =? cap)
    then Err "TokenSupplyInvalidError: non-mintable token must have initialSupply == supplyCap"%string
    else Ok f.(tf_init)
  else if t =? token.TRANSFER then
    let items := default [] a.(ta_transfers) in
    let n := Z.of_nat (length items) in
    if (n =? 0) || (ms.(m_token_transfer_max_recipients) <? n)
    then Err ("TokenTransferRecipientsError: 1..=" +:+ fmt_u ms.(m_token_transfer_max_recipients) +:+ " recipients") else
    if existsb (fun i => i.(ti_amount) =? 0) items then Err "TokenAmountInvalidError: amount must be > 0"%string else
    if u64_max <? zsum (ti_amount <$> items) then Err "TokenAmountInvalidError: total overflows u64"%string else
    if opt_test (fun m => token.MAX_MEMO <? slen m) a.(ta_memo)
    then Err "TokenMemoTooLongError: memo must be <= 64 bytes"%string
    else Ok (as_u64 (f.(tf_transfer) + f.(tf_transfer_per_recipient) * (n - 1)))
  else if t =? token.MINT then
    if (default 0 a.(ta_amount) =? 0) || is_none a.(ta_recipient_id)
    then Err "TokenAmountInvalidError: mint needs amount > 0 and recipientId"%string
    else Ok f.(tf_mint)
  else if t =? token.META then
    let? m := ok_or a.(ta_meta) "TokenMetaInvalidError: missing asset.token.meta"%string in
    let? _ := check_token_meta m in
    Ok f.(tf_meta)
  else if (t =? token.SELL) || (t =? token.BUY) || (t =? token.CANCEL) then
    if negb ms.(m_token_market).(mk_enabled)
    then Err "TokenTypeNotActiveError: tokenMarket is not enabled at this height (SHIP-43)"%string else
    let oid_ok := opt_test hex64 a.(ta_order_id) in
    if t =? token.SELL then
      let amount := default 0 a.(ta_amount) in
      let price := default 0 a.(ta_price) in
      if (amount =? 0) || (price =? 0) then Err "TokenOrderInvalidError: amount and price must be > 0"%string else
      if u64_max <? amount * price then Err "TokenOrderOverflowError: amount × price exceeds u64"%string
      else Ok f.(tf_sell)
    else if t =? token.BUY then
      if negb oid_ok then Err "TokenOrderInvalidError: orderId must be 64 hex"%string else
      if default 0 a.(ta_amount) =? 0 then Err "TokenOrderAmountError: amount must be > 0"%string
      else Ok f.(tf_buy)
    else
      if negb oid_ok then Err "TokenOrderInvalidError: orderId must be 64 hex"%string else Ok f.(tf_cancel)
  else
    if default 0 a.(ta_amount) =? 0 then Err "TokenAmountInvalidError: burn amount must be > 0"%string
    else Ok f.(tf_burn).

Definition check_token_format (tx : Transaction) (ms : Milestone) : Rule TokenAsset :=
  let? a := ok_or (token_asset tx) "Token: missing or malformed asset.token"%string in
  if negb (tx.(tx_amount) =? 0) then Err "Token: amount must be 0"%string else
  if opt_test (fun v => negb (slen v =? 0)) tx.(tx_vendor_field)
  then Err "Token: vendorField is not allowed (use memo)"%string else
  if negb (hex64 a.(ta_id)) then Err "Token: id must be a 32-byte hex registration id"%string else
  let? static := token_static_fee tx a ms in
  let expected_fee := as_u64 (static + pq_surcharge tx ms.(m_pq).(pq_fee_per_byte)) in
  if negb (tx.(tx_fee) =? expected_fee)
  then Err ("StaticFeeMismatchError: token fee must be exactly " +:+ fmt_u expected_fee
              +:+ " (milestone tokenFees), transaction pays " +:+ fmt_u tx.(tx_fee)
              +:+ " — the forging node runs other tokenFees / core version")
  else Ok a.

End rules.

(** State the stateful token rules need: the store, or the store with the pending changes of a
    batch or of the pool. *)
Class TokenView (V : Type) : Type := {
  token_owner : V -> string -> option string;
  token_state : V -> string -> option TokenState;
  token_balance : V -> string -> string -> Z;
  ticker_sobj : V -> string -> option (string * string * bool);
  order : V -> string -> option TokenOrder;
  open_orders : V -> string -> string -> Z
}.

(** SHIP-43 default [tokenMarket.maxOpenOrders]. *)
Definition MAX_OPEN_ORDERS : Z := 64.

Section token_rules.
Context `{E : Env} {V : Type} `{TV : TokenView V}.
Implicit Types (view : V).

(** STH the buyer pays for a [TokenBuy]. *)
Definition token_buy_total (tx : Transaction) (view : V) : Z :=
  if negb (tx.(tx_type_group) =? TYPE_GROUP_TOKEN) || negb (tx.(tx_type_) =? token.BUY) then 0 else
  match token_asset tx with
  | None => 0
  | Some a => match a.(ta_order_id) ≫= order view with
              | None => 0
              | Some o => sat_mul_u64 (default 0 a.(ta_amount)) o.(od_price)
              end
  end.

Definition check_token_sell (a : TokenAsset) (sender : string) view : Rule unit :=
  let? _ := ok_or (token_state view a.(ta_id)) "TokenNotFoundError"%string in
  if token_balance view sender a.(ta_id) <? default 0 a.(ta_amount) then Err "TokenInsufficientBalanceError"%string else
  if MAX_OPEN_ORDERS <=? open_orders view sender a.(ta_id)
  then Err ("TokenTooManyOrdersError: at most " +:+ fmt_u MAX_OPEN_ORDERS +:+ " open orders per token")
  else Ok tt.

Definition check_token_order (tx : Transaction) (a : TokenAsset) (sender : string) view : Rule unit :=
  let? o := ok_or (order view (ostr a.(ta_order_id))) "TokenOrderNotFoundError"%string in
  if negb (is_open o) then Err "TokenOrderClosedError"%string else
  if negb (String.eqb o.(od_token_id) a.(ta_id))
  then Err "TokenOrderMismatchError: order belongs to another token"%string else
  if tx.(tx_type_) =? token.BUY then
    if String.eqb o.(od_seller) sender then Err "TokenOrderSelfTradeError"%string else
    let amount := default 0 a.(ta_amount) in
    if (amount =? 0) || (remaining o <? amount)
    then Err ("TokenOrderAmountError: " +:+ fmt_u (remaining o) +:+ " units remaining")
    else Ok tt
  else if negb (String.eqb o.(od_seller) sender) then Err "TokenOrderNotOwnerError"%string
  else Ok tt.

Definition check_token_init (a : TokenAsset) (sender : string) view : Rule unit :=
  let? (owner, name, resigned) := ok_or (ticker_sobj view a.(ta_id))
      "TokenSmartObjectNotFoundError: no type-5 sObject with this id"%string in
  if resigned : bool then Err "TokenSmartObjectResignedError"%string else
  if negb (String.eqb owner sender)
  then Err "TokenNotSmartObjectOwnerError: only the sObject registrant can initialize the token"%string else
  if negb (ticker_ok name) then Err "TokenSymbolInvalidError: ticker must match ^[A-Z0-9]{3,10}$"%string else
  if is_some (token_state view a.(ta_id)) then Err "TokenAlreadyInitializedError"%string
  else Ok tt.

Definition owned_by view (id sender : string) : bool := bool_decide (token_owner view id = Some sender).

Definition check_token (tx : Transaction) (a : TokenAsset) (sender : string) view : Rule unit :=
  let t := tx.(tx_type_) in
  let id := a.(ta_id) in
  if t =? token.SELL then check_token_sell a sender view
  else if (t =? token.BUY) || (t =? token.CANCEL) then check_token_order tx a sender view
  else if t =? token.INIT then check_token_init a sender view
  else if t =? token.META then
    let? _ := ok_or (token_state view id) "TokenNotFoundError"%string in
    if owned_by view id sender then Ok tt else Err "TokenNotOwnerError: only the owner can publish the manifest"%string
  else if t =? token.TRANSFER then
    let? _ := ok_or (token_state view id) "TokenNotFoundError"%string in
    let total := as_u64 (zsum (ti_amount <$> default [] a.(ta_transfers))) in
    if token_balance view sender id <? total then Err "TokenInsufficientBalanceError"%string else Ok tt
  else if t =? token.MINT then
    let? st := ok_or (token_state view id) "TokenNotFoundError"%string in
    if negb (owned_by view id sender) then Err "TokenNotOwnerError: only the owner can mint"%string else
    if Z.land st.(ts_flags) token.FLAG_MINTABLE =? 0 then Err "TokenNotMintableError"%string else
    if st.(ts_supply_cap) <? sat_add_u64 st.(ts_supply) (default 0 a.(ta_amount))
    then Err "TokenSupplyCapExceededError"%string else Ok tt
  else
    let? st := ok_or (token_state view id) "TokenNotFoundError"%string in
    if Z.land st.(ts_flags) token.FLAG_BURNABLE =? 0 then Err "TokenNotBurnableError"%string else
    if token_balance view sender id <? default 0 a.(ta_amount) then Err "TokenInsufficientBalanceError"%string
    else Ok tt.

End token_rules.

(** ** Version 3 *)

Section pq_rules.
Context `{E : Env}.

(** Bytes a block of the algorithm carries. *)
Definition pq_block_len (alg : Z) : option Z :=
  if alg =? 0 then Some 64 else if alg =? ALG_ML_DSA_44 then Some SIG_LEN else None.

(** The loop over the blocks; [prev] is the algorithm of the block before. *)
Fixpoint check_pq_blocks (prev : option Z) (blocks : list PqSignatureBlock) : Rule unit :=
  match blocks with
  | [] => Ok tt
  | b :: rest =>
      let? want := ok_or (pq_block_len b.(pb_algorithm))
          ("ERR_PQ_ALGORITHM: unknown second-signature algorithm " +:+ fmt_u b.(pb_algorithm)) in
      if negb (slen b.(pb_signature) =? want * 2) || is_none (hex_decode b.(pb_signature))
      then Err ("ERR_PQ_LENGTH: algorithm " +:+ fmt_u b.(pb_algorithm) +:+ " signature must be " +:+ fmt_u want +:+ " bytes") else
      if opt_test (fun a => b.(pb_algorithm) <? a) prev
      then Err "ERR_PQ_ORDER: second-signature blocks must be in ascending algorithm order"%string
      else check_pq_blocks (Some b.(pb_algorithm)) rest
  end.

Definition registers_second (tx : Transaction) : bool :=
  (tx.(tx_type_group) =? TYPE_GROUP_CORE) && (tx.(tx_type_) =? tx_type.SECOND_SIGNATURE).

Definition check_pq_registration (tx : Transaction) : Rule unit :=
  let? a := ok_or (tx.(tx_asset) ≫= as_signature) "ERR_PQ_ALGORITHM: missing asset.signature"%string in
  if negb (bool_decide (a.(ss_algorithm) = Some ALG_ML_DSA_44))
  then Err "ERR_PQ_ALGORITHM: asset.signature.algorithm must be 1 (ML-DSA-44)"%string else
  if negb (slen a.(ss_public_key) =? PK_LEN * 2) || is_none (hex_decode a.(ss_public_key))
  then Err ("ERR_PQ_LENGTH: ML-DSA-44 public key must be " +:+ fmt_u PK_LEN +:+ " bytes")
  else Ok tt.

Definition check_pq_format (tx : Transaction) (ms : Milestone) : Rule unit :=
  if negb (is_pq tx) then Ok tt else
  if negb ms.(m_pq).(pq_active)
  then Err "ERR_PQ_NOT_ACTIVE: version 3 transactions need milestone pq.active"%string else
  if (2 <? length (pq_blocks tx))%nat then Err "ERR_PQ_LENGTH: at most two second-signature blocks"%string else
  let? _ := check_pq_blocks None (pq_blocks tx) in
  if is_some (second_signature_any tx)
  then Err "ERR_PQ_LENGTH: v3 carries secondSignatures blocks, not secondSignature"%string else
  let? _ := if registers_second tx then check_pq_registration tx else Ok tt in
  if tx.(tx_type_group) =? TYPE_GROUP_CORE then
    let min := as_u64 (static_fee_for_type ms tx.(tx_type_) + pq_surcharge tx ms.(m_pq).(pq_fee_per_byte)) in
    if tx.(tx_fee) <? min
    then Err ("ERR_PQ_FEE: version 3 fee must be at least static fee + PQ surcharge = " +:+ fmt_u min)
    else Ok tt
  else Ok tt.

(** Wallet state the rules need. *)
Record PqWalletView : Type := mkPqView {
  pv_second_public_key : option string;
  pv_pq_key : option PqKey;
  pv_commitment : option PqCommitment
}.

(** Verifies one block against a key of its algorithm. *)
Definition block_ok (m2 : list byte) (b : PqSignatureBlock) (alg : Z) (key_hex : string) : bool :=
  if negb (b.(pb_algorithm) =? alg) then false else
  if alg =? 0 then default false (res_ok (verify_signature m2 b.(pb_signature) key_hex))
  else match hex_decode key_hex, hex_decode b.(pb_signature) with
       | Some pk, Some sig => default false (res_ok (pq_verify pk m2 sig))
       | _, _ => false
       end.

(** The key that must sign beside a new one: the current quantum key, else the legacy one. *)
Definition current_key (w : PqWalletView) : option (Z * string) :=
  match w.(pv_pq_key), w.(pv_second_public_key) with
  | Some k, _ => Some (k.(pk_algorithm), k.(pk_public_key))
  | None, Some legacy => Some (0, legacy)
  | None, None => None
  end.

Definition check_pq_register (tx : Transaction) (ms : Milestone) (height : Z) (activation : option Z)
    (w : PqWalletView) (m2 : list byte) : Rule (option PqKey) :=
  let blocks := pq_blocks tx in
  let? a := ok_or (tx.(tx_asset) ≫= as_signature) "ERR_PQ_ALGORITHM: missing asset.signature"%string in
  let? new_pk := ok_or (hex_decode a.(ss_public_key)) "ERR_PQ_LENGTH: public key is not hex"%string in
  if match w.(pv_commitment), activation with
     | Some c, Some act =>
         (height <? sat_add_u64 act ms.(m_pq).(pq_commitment_grace))
         && negb (String.eqb c.(pc_commitment) (hex_encode (commitment_hash new_pk)))
     | _, _ => false
     end
  then Err "ERR_PQ_COMMITMENT_MISMATCH: the key differs from the stage-A commitment (grace window)"%string else
  let proof := current_key w in
  let expected := (if is_some proof then 2 else 1)%nat in
  if negb (length blocks =? expected)%nat
  then Err (if is_some proof
            then "ERR_PQ_LEGACY_PROOF_REQUIRED: registration must carry [current key, new key] blocks"%string
            else "ERR_PQ_SECOND_SIGNATURE_REQUIRED: registration must carry exactly one block signed by the new key"%string) else
  if match proof with
     | Some (alg, key) => negb (opt_test (fun b => block_ok m2 b alg key) (blocks !! 0%nat))
     | None => false
     end
  then Err "ERR_PQ_LEGACY_PROOF_REQUIRED: first block must be a valid signature of the current second key"%string else
  if negb (opt_test (fun b => block_ok m2 b ALG_ML_DSA_44 a.(ss_public_key)) (blocks !! (expected - 1)%nat))
  then Err "ERR_PQ_SECOND_SIGNATURE_INVALID: last block must be signed by the new ML-DSA-44 key"%string
  else Ok (Some (mkPqKey ALG_ML_DSA_44 a.(ss_public_key) height)).

Definition check_pq_spend (tx : Transaction) (w : PqWalletView) (m2 : list byte) : Rule unit :=
  match w.(pv_pq_key), w.(pv_second_public_key), pq_blocks tx with
  | Some k, _, [b] =>
      if negb (b.(pb_algorithm) =? k.(pk_algorithm))
      then Err "ERR_PQ_SECOND_SIGNATURE_REQUIRED: exactly one block of the registered PQ algorithm"%string
      else if block_ok m2 b k.(pk_algorithm) k.(pk_public_key) then Ok tt
      else Err "ERR_PQ_SECOND_SIGNATURE_INVALID"%string
  | Some _, _, _ => Err "ERR_PQ_SECOND_SIGNATURE_REQUIRED: exactly one block of the registered PQ algorithm"%string
  | None, Some legacy, [b] =>
      if block_ok m2 b 0 legacy then Ok tt
      else Err "ERR_PQ_SECOND_SIGNATURE_INVALID: legacy second signature block (algorithm 0) required"%string
  | None, Some _, _ => Err "ERR_PQ_SECOND_SIGNATURE_INVALID: legacy second signature block (algorithm 0) required"%string
  | None, None, [] => Ok tt
  | None, None, _ => Err "UnexpectedSecondSignatureError: wallet has no second signature"%string
  end.

Definition check_pq (tx : Transaction) (ms : Milestone) (height : Z) (activation : option Z)
    (w : PqWalletView) : Rule (option PqKey) :=
  if negb (is_pq tx) then
    if is_some w.(pv_pq_key)
    then Err "ERR_PQ_SECOND_SIGNATURE_REQUIRED: wallet is PQ-locked, send a version 3 transaction with its ML-DSA block"%string
    else Ok None
  else
    let? _ := check_pq_format tx ms in
    let? m2 := map_err (fun e => "ERR_PQ_SECOND_SIGNATURE_INVALID: " +:+ err_text e) (transaction_pq_message tx) in
    if registers_second tx then check_pq_register tx ms height activation w m2
    else let? _ := check_pq_spend tx w m2 in Ok None.

End pq_rules.
