(* ===== verification/RulesFacts.v ===== *)
(** * What the transaction rules guarantee

    Theorems about [Rules]: which proofs an accepted transaction carries, what an accepted token
    operation leaves in range, and what the SmartObject rules keep out. *)

From S2P Require Import Prelude Models Env Bytes Crypto Config TxCodec TxRoundtrip Wallet Rules.

(** Peels one test of a rule known to have accepted. *)
Ltac rule_step H :=
  match type of H with
  | (if ?c then Err _ else _) = Ok _ => destruct c eqn:?; [discriminate H|]
  | (if ?c then _ else Err _) = Ok _ => destruct c eqn:?; [|discriminate H]
  | rbind (ok_or ?o _) _ = Ok _ => destruct o eqn:?; cbn [ok_or rbind] in H; [|discriminate H]
  | rbind ?m _ = Ok _ => destruct m eqn:?; cbn [rbind] in H; [|discriminate H]
  end; repeat match goal with u : unit |- _ => destruct u end.
Ltac rule_steps H := cbn zeta in H; repeat (rule_step H; cbn zeta in H).

(** Evaluates the tests on a known transaction type. *)
Ltac eval_type H :=
  cbn [Z.eqb Pos.eqb token.INIT token.TRANSFER token.MINT token.BURN token.META token.SELL token.BUY token.CANCEL orb] in H.

Lemma is_some_iff {A} (o : option A) : is_some o = true <-> is_Some o.
Proof. destruct o; cbn; split; try done; by intros [? ?]. Qed.

Section pq.
Context `{E : Env}.
Implicit Types (tx : Transaction) (ms : Milestone) (w : PqWalletView).

(** *** The block loop *)

Definition block_shape (b : PqSignatureBlock) : Prop :=
  exists want, pq_block_len b.(pb_algorithm) = Some want /\ slen b.(pb_signature) = want * 2.

Lemma check_pq_blocks_shape prev bs : check_pq_blocks prev bs = Ok tt -> Forall block_shape bs.
Proof.
  revert prev; induction bs as [|b bs IH]; intros prev H; [constructor|]. cbn [check_pq_blocks] in H.
  rule_steps H. constructor; [|by eapply IH]. exists z. split; [done|].
  apply orb_false_iff in Heqb0 as [Hl _]. apply negb_false_iff, Z.eqb_eq in Hl. done.
Qed.

Lemma block_shape_surcharge b : block_shape b -> 3 + slen b.(pb_signature) / 2 <= 3 + SIG_LEN.
Proof.
  intros (want & Hw & ->). rewrite Z.div_mul by lia. unfold pq_block_len in Hw. revert Hw.
  destruct (_ =? 0); [intros [= <-]; unfold SIG_LEN; lia|]. destruct (_ =? ALG_ML_DSA_44); [intros [= <-]; lia|done].
Qed.

Lemma check_pq_format_inv tx ms :
  is_pq tx = true -> check_pq_format tx ms = Ok tt ->
  ms.(m_pq).(pq_active) = true /\ (length (pq_blocks tx) <= 2)%nat /\ Forall block_shape (pq_blocks tx) /\
  second_signature_any tx = None.
Proof.
  unfold check_pq_format. intros -> H. cbn [negb] in H. rule_steps H.
  apply negb_false_iff in Heqb. apply Nat.ltb_ge in Heqb0.
  split_and!; [done|done|by eapply check_pq_blocks_shape|]. by destruct (second_signature_any tx).
Qed.

(** What [check_pq] has established when it accepts a version-3 transaction. *)
Lemma check_pq_inv tx ms h act w r :
  check_pq tx ms h act w = Ok r -> is_pq tx = true ->
  check_pq_format tx ms = Ok tt /\ exists m2, transaction_pq_message tx = Ok m2 /\
    ((registers_second tx = true /\ check_pq_register tx ms h act w m2 = Ok r) \/
     (registers_second tx = false /\ check_pq_spend tx w m2 = Ok tt /\ r = None)).
Proof.
  unfold check_pq. intros H Hpq. rewrite Hpq in H. cbn [negb] in H. rule_step H.
  destruct (transaction_pq_message tx) as [m2|e] eqn:Hm; cbn [map_err rbind] in H; [|done].
  split; [done|]. exists m2. split; [done|]. destruct (registers_second tx); [by left|right].
  rule_step H. by injection H as <-.
Qed.

Lemma check_pq_register_inv tx ms h act w m2 r :
  check_pq_register tx ms h act w m2 = Ok r ->
  exists a new_pk bs last,
    tx.(tx_asset) ≫= as_signature = Some a /\ hex_decode a.(ss_public_key) = Some new_pk /\
    r = Some (mkPqKey ALG_ML_DSA_44 a.(ss_public_key) h) /\
    pq_blocks tx = bs ++ [last] /\ block_ok m2 last ALG_ML_DSA_44 a.(ss_public_key) = true /\
    match current_key w with
    | Some (alg, key) => exists b, bs = [b] /\ block_ok m2 b alg key = true
    | None => bs = []
    end /\
    (forall c act', w.(pv_commitment) = Some c -> act = Some act' ->
       h < sat_add_u64 act' ms.(m_pq).(pq_commitment_grace) ->
       c.(pc_commitment) = hex_encode (commitment_hash new_pk)).
Proof.
  unfold check_pq_register. intros H. rule_steps H. injection H as <-.
  rename s into a, l into new_pk. apply negb_false_iff, Nat.eqb_eq in Heqb0. apply negb_false_iff in Heqb2.
  assert (Hc : forall c act', w.(pv_commitment) = Some c -> act = Some act' ->
       h < sat_add_u64 act' ms.(m_pq).(pq_commitment_grace) ->
       c.(pc_commitment) = hex_encode (commitment_hash new_pk)).
  { intros c act' Hc Ha Hh. rewrite Hc, Ha in Heqb. apply Z.ltb_lt in Hh. rewrite Hh in Heqb.
    cbn [andb] in Heqb. by apply negb_false_iff, String.eqb_eq in Heqb. }
  destruct (current_key w) as [[alg key]|] eqn:Hk; cbn [is_some is_none negb] in *.
  - destruct (pq_blocks tx) as [|b [|last [|? ?]]] eqn:Hb; try discriminate Heqb0.
    cbn in Heqb1, Heqb2. apply negb_false_iff in Heqb1.
    exists a, new_pk, [b], last. split_and!; eauto.
  - destruct (pq_blocks tx) as [|last [|? ?]] eqn:Hb; try discriminate Heqb0.
    exists a, new_pk, [], last. split_and!; eauto.
Qed.

Lemma check_pq_spend_inv tx w m2 :
  check_pq_spend tx w m2 = Ok tt ->
  match current_key w with
  | Some (alg, key) => exists b, pq_blocks tx = [b] /\ block_ok m2 b alg key = true
  | None => pq_blocks tx = []
  end.
Proof.
  unfold check_pq_spend, current_key. destruct (pv_pq_key w) as [k|], (pv_second_public_key w) as [l|],
    (pq_blocks tx) as [|b [|? ?]]; intros H; try discriminate; rule_steps H; eauto.
Qed.

(** C26: no bypass of a second key.  A transaction accepted by both signature rules for a wallet
    that has a quantum key is a version-3 transaction whose first block is signed by that key; for
    a wallet with only a legacy second key it carries either the legacy second signature or, in
    version 3, a first block signed by the legacy key. *)
Theorem second_key_enforced tx ms h act w r
    (H1 : check_second_signature tx w.(pv_second_public_key) = Ok tt)
    (H2 : check_pq tx ms h act w = Ok r) :
  match current_key w with
  | Some (alg, key) =>
      if is_pq tx
      then exists m2 b, transaction_pq_message tx = Ok m2 /\ pq_blocks tx !! 0%nat = Some b /\ block_ok m2 b alg key = true
      else w.(pv_pq_key) = None /\ verify_transaction_second_signature tx key = Ok true
  | None => second_signature_any tx = None /\ (registers_second tx = false -> is_pq tx = true -> pq_blocks tx = [])
  end.
Proof.
  destruct (is_pq tx) eqn:Hpq.
  - destruct (check_pq_inv _ _ _ _ _ _ H2 Hpq) as (Hf & m2 & Hm & [[Hr Hreg]|[Hr [Hs _]]]).
    + apply check_pq_register_inv in Hreg as (a & pk & bs & last & _ & _ & _ & Hb & _ & Hk & _).
      destruct (current_key w) as [[alg key]|].
      * destruct Hk as (b & -> & Hok). exists m2, b. by rewrite Hb.
      * split; [by apply (check_pq_format_inv tx ms)|]. by rewrite Hr.
    + apply check_pq_spend_inv in Hs. destruct (current_key w) as [[alg key]|].
      * destruct Hs as (b & Hb & Hok). exists m2, b. by rewrite Hb.
      * split; [by apply (check_pq_format_inv tx ms)|done].
  - unfold check_pq in H2. rewrite Hpq in H2. cbn [negb] in H2. rule_step H2.
    unfold check_second_signature in H1. rewrite Hpq in H1. unfold current_key.
    destruct (pv_pq_key w); [discriminate|].
    destruct (pv_second_public_key w) as [pk|].
    + rule_step H1. destruct (verify_transaction_second_signature tx pk) as [[]|]; [done| |done].
      by destruct (is_none _).
    + rule_step H1. split; [by destruct (second_signature_any tx)|done].
Qed.

(** A quantum key is installed only by a version-3 registration whose last block is signed by
    that very key, with the current second key (if any) signing first, and, inside the grace window,
    only when the key matches the stage-A commitment. *)
Theorem pq_registration_sound tx ms h act w k (H : check_pq tx ms h act w = Ok (Some k)) :
  registers_second tx = true /\ k.(pk_algorithm) = ALG_ML_DSA_44 /\ k.(pk_since) = h /\
  exists m2 pk b,
    transaction_pq_message tx = Ok m2 /\ hex_decode k.(pk_public_key) = Some pk /\
    last (pq_blocks tx) = Some b /\ block_ok m2 b ALG_ML_DSA_44 k.(pk_public_key) = true /\
    (length (pq_blocks tx) = if is_some (current_key w) then 2 else 1)%nat /\
    (forall c act', w.(pv_commitment) = Some c -> act = Some act' ->
       h < sat_add_u64 act' ms.(m_pq).(pq_commitment_grace) ->
       c.(pc_commitment) = hex_encode (commitment_hash pk)).
Proof.
  destruct (is_pq tx) eqn:Hpq.
  2:{ unfold check_pq in H. rewrite Hpq in H. cbn [negb] in H. rule_step H. discriminate. }
  destruct (check_pq_inv _ _ _ _ _ _ H Hpq) as (_ & m2 & Hm & [[Hr Hreg]|[_ [_ [=]]]]).
  apply check_pq_register_inv in Hreg as (a & pk & bs & bl & _ & Hpk & [= ->] & Hb & Hok & Hk & Hc).
  split_and!; [done..|]. exists m2, pk, bl. cbn [pk_public_key]. split_and!; try done.
  - by rewrite Hb, last_snoc.
  - rewrite Hb, length_app. destruct (current_key w) as [[alg key]|]; [by destruct Hk as (b & -> & _)|by subst].
Qed.

(** An accepted version-3 transaction is small: at most two blocks, each of the exact length
    of a known algorithm, so its surcharge never exceeds 4846 bytes at the byte price. *)
Theorem pq_format_bounds tx ms (Hpq : is_pq tx = true) (Hf : 0 <= ms.(m_pq).(pq_fee_per_byte))
    (H : check_pq_format tx ms = Ok tt) :
  (length (pq_blocks tx) <= 2)%nat /\ Forall block_shape (pq_blocks tx) /\
  pq_surcharge tx ms.(m_pq).(pq_fee_per_byte) <= ms.(m_pq).(pq_fee_per_byte) * 4846.
Proof.
  destruct (check_pq_format_inv tx ms Hpq H) as (_ & Hl & Hb & _). split_and!; [done..|].
  unfold pq_surcharge. rewrite Hpq. cbn [negb]. unfold sat_mul_u64.
  assert (zsum ((fun b => 3 + slen b.(pb_signature) / 2) <$> pq_blocks tx) <= 4846).
  { destruct (pq_blocks tx) as [|b1 [|b2 [|? ?]]]; cbn [fmap list_fmap zsum length] in *; try lia.
    - apply Forall_singleton, block_shape_surcharge in Hb. change SIG_LEN with 2420 in Hb. lia.
    - apply Forall_cons in Hb as [H1 H2]. apply Forall_singleton, block_shape_surcharge in H2.
      apply block_shape_surcharge in H1. change SIG_LEN with 2420 in *. lia. }
  etrans; [apply Z.le_min_l|]. by apply Z.mul_le_mono_nonneg_l.
Qed.
End pq.

(** ** Tokens *)

Section tokens.
Context `{E : Env} {V : Type} `{TV : TokenView V}.
Implicit Types (tx : Transaction) (a : TokenAsset) (ms : Milestone) (view : V).

Definition items a : list TokenTransferItem := default [] a.(ta_transfers).
Definition amount_of a : Z := default 0 a.(ta_amount).

(** Integer fields at their width. *)
Record asset_range a : Prop := {
  ar_items : Forall (fun i => in_u64 i.(ti_amount)) (items a);
  ar_amount : in_u64 (amount_of a);
  ar_price : in_u64 (default 0 a.(ta_price))
}.

Lemma check_token_format_inv tx ms a :
  check_token_format tx ms = Ok a ->
  token_asset tx = Some a /\ tx.(tx_amount) = 0 /\ hex64 a.(ta_id) = true /\
  exists static, token_static_fee tx a ms = Ok static /\
    tx.(tx_fee) = as_u64 (static + pq_surcharge tx ms.(m_pq).(pq_fee_per_byte)).
Proof.
  unfold check_token_format. intros H. rule_steps H. injection H as ->.
  apply negb_false_iff in Heqb, Heqb1, Heqb2. apply Z.eqb_eq in Heqb, Heqb2. eauto 10.
Qed.

Lemma static_fee_transfer tx a ms f :
  tx.(tx_type_) = token.TRANSFER -> token_static_fee tx a ms = Ok f ->
  0 < Z.of_nat (length (items a)) <= ms.(m_token_transfer_max_recipients) /\
  Forall (fun i => i.(ti_amount) <> 0) (items a) /\ zsum (ti_amount <$> items a) <= u64_max.
Proof.
  unfold token_static_fee. intros -> H. cbn zeta in H. eval_type H.
  rule_steps H. fold (items a) in *. apply orb_false_iff in Heqb as [H1 H2]. apply Z.eqb_neq in H1. apply Z.ltb_ge in H2, Heqb1.
  split_and!; [lia|lia| |done]. apply Forall_forall. intros i Hi. apply list_elem_of_In in Hi.
  intros H0. assert (existsb (fun i => ti_amount i =? 0) (items a) = true); [|congruence].
  apply existsb_exists. exists i. by rewrite H0.
Qed.

Lemma static_fee_amount tx a ms f :
  tx.(tx_type_) = token.BURN \/ tx.(tx_type_) = token.MINT \/ tx.(tx_type_) = token.BUY \/ tx.(tx_type_) = token.SELL ->
  token_static_fee tx a ms = Ok f -> amount_of a <> 0.
Proof.
  unfold token_static_fee, amount_of. intros Ht H.
  destruct Ht as [Ht|[Ht|[Ht|Ht]]]; rewrite Ht in H; cbn zeta in H; eval_type H; rule_steps H;
    repeat match goal with
    | Hb : _ || _ = false |- _ => apply orb_false_iff in Hb as [? ?]
    | Hb : (_ =? 0) = false |- _ => apply Z.eqb_neq in Hb
    end; done.
Qed.

Lemma static_fee_sell tx a ms f :
  tx.(tx_type_) = token.SELL -> token_static_fee tx a ms = Ok f ->
  default 0 a.(ta_price) <> 0 /\ amount_of a * default 0 a.(ta_price) <= u64_max.
Proof.
  unfold token_static_fee, amount_of. intros Ht H. rewrite Ht in H; cbn zeta in H; eval_type H; rule_steps H.
  apply orb_false_iff in Heqb0 as [? Hp]. apply Z.eqb_neq in Hp. apply Z.ltb_ge in Heqb1. done.
Qed.

(** An accepted token operation never spends, burns, sells or buys more than there is: the
    sums are exact, whatever the width they are computed at. *)
Theorem token_amounts_covered tx ms a sender view
    (Hr : asset_range a)
    (Hf : check_token_format tx ms = Ok a) (Hc : check_token tx a sender view = Ok tt) :
  let t := tx.(tx_type_) in
  (t = token.TRANSFER ->
     Forall (fun i => 0 < i.(ti_amount)) (items a) /\
     zsum (ti_amount <$> items a) <= token_balance view sender a.(ta_id)) /\
  (t = token.SELL \/ t = token.BURN -> 0 < amount_of a <= token_balance view sender a.(ta_id)) /\
  (t = token.BUY -> exists o, order view (ostr a.(ta_order_id)) = Some o /\ is_open o = true /\
     o.(od_token_id) = a.(ta_id) /\ o.(od_seller) <> sender /\ 0 < amount_of a <= remaining o) /\
  (t = token.MINT -> token_owner view a.(ta_id) = Some sender /\ exists st, token_state view a.(ta_id) = Some st /\
     (st.(ts_supply_cap) < u64_max -> st.(ts_supply) + amount_of a <= st.(ts_supply_cap))).
Proof.
  apply check_token_format_inv in Hf as (_ & _ & _ & f & Hf & _). destruct Hr as [Ri Ra _].
  cbn zeta. unfold check_token in Hc. cbn zeta in Hc.
  split_and!.
  - intros Ht. destruct (static_fee_transfer _ _ _ _ Ht Hf) as (_ & Hnz & Hsum).
    rewrite Ht in Hc. eval_type Hc. rule_steps Hc. apply Z.ltb_ge in Heqb. fold (items a) in Heqb.
    split.
    + apply Forall_forall. intros i Hi. rewrite Forall_forall in Ri, Hnz. specialize (Ri i Hi). specialize (Hnz i Hi).
      bounds. lia.
    + rewrite as_u64_id in Heqb; [done|]. split; [|done]. apply zsum_nonneg, Forall_fmap.
      eapply Forall_impl; [exact Ri|]. cbn. bounds. lia.
  - intros Ht. assert (Hnz : amount_of a <> 0) by (eapply static_fee_amount; [|exact Hf]; tauto).
    destruct Ht as [Ht|Ht]; rewrite Ht in Hc; eval_type Hc; [unfold check_token_sell in Hc|];
      rule_steps Hc; fold (amount_of a) in *;
      repeat match goal with Hb : (_ <? _) = false |- _ => apply Z.ltb_ge in Hb end; bounds; lia.
  - intros Ht. assert (Hnz : amount_of a <> 0) by (eapply static_fee_amount; [|exact Hf]; tauto).
    rewrite Ht in Hc. eval_type Hc. unfold check_token_order in Hc.
    destruct (order view _) as [o|]; cbn [ok_or rbind] in Hc; [|done].
    rewrite Ht in Hc. eval_type Hc. rule_steps Hc. fold (amount_of a) in *. exists o.
    apply negb_false_iff in Heqb, Heqb0. apply String.eqb_eq in Heqb0. apply String.eqb_neq in Heqb1.
    apply orb_false_iff in Heqb2 as [_ Hle]. apply Z.ltb_ge in Hle. split_and!; try done. bounds. lia.
  - intros Ht. rewrite Ht in Hc. eval_type Hc.
    destruct (token_state view _) as [st|]; cbn [ok_or rbind] in Hc; [|done]. rule_steps Hc.
    fold (amount_of a) in *. apply negb_false_iff, bool_decide_eq_true in Heqb. apply Z.ltb_ge in Heqb1.
    split; [done|]. exists st. split; [done|]. unfold sat_add_u64 in Heqb1. lia.
Qed.

(** The price of a purchase is exact.  An accepted sell order multiplies within [u64], so every
    accepted purchase of a part of it costs exactly amount times price, never a saturated value. *)
Theorem token_price_exact tx ms a sender view o
    (Hr : asset_range a) (Hrt : is_token tx = true) (Hb : tx.(tx_type_) = token.BUY)
    (Hf : check_token_format tx ms = Ok a) (Hc : check_token tx a sender view = Ok tt)
    (Ho : order view (ostr a.(ta_order_id)) = Some o)
    (Hpos : 0 <= o.(od_filled) <= o.(od_amount)) (Hp : 0 <= o.(od_price))
    (Hsell : o.(od_amount) * o.(od_price) <= u64_max) (Hw : o.(od_amount) <= u64_max) :
  token_buy_total tx view = amount_of a * o.(od_price) /\ amount_of a * o.(od_price) <= o.(od_amount) * o.(od_price).
Proof.
  assert (Hf' := Hf). apply check_token_format_inv in Hf' as (Ha & _ & _ & f & Hfee & _).
  unfold check_token in Hc. rewrite Hb in Hc. cbn zeta in Hc. eval_type Hc.
  unfold check_token_order in Hc. rewrite Ho, Hb in Hc. eval_type Hc. rule_steps Hc.
  apply orb_false_iff in Heqb2 as [_ Hle]. apply Z.ltb_ge in Hle. fold (amount_of a) in Hle.
  injection Heqo0 as <-. unfold remaining in Hle. rewrite as_u64_id in Hle by (bounds; lia).
  destruct Hr as [_ Ra _].
  assert (amount_of a * od_price o <= od_amount o * od_price o) by (apply Z.mul_le_mono_nonneg_r; bounds; lia).
  split; [|done]. unfold token_buy_total. rewrite (is_token_group _ Hrt), Hb, Ha.
  unfold token_static_fee in Hfee. rewrite Hb in Hfee. cbn zeta in Hfee. eval_type Hfee. rule_steps Hfee.
  match goal with H : negb (opt_test hex64 _) = false |- _ => apply negb_false_iff in H; rename H into Hhex end. destruct (ta_order_id a) as [oid|] eqn:Hoid; [|done].
  cbn [negb Z.eqb orb mbind option_bind]. change (ostr (Some oid)) with oid in Ho.
  change (TYPE_GROUP_TOKEN =? TYPE_GROUP_TOKEN) with true. change (token.BUY =? token.BUY) with true. cbn [negb orb].
  rewrite Ho. unfold sat_mul_u64. fold (amount_of a). bounds. lia.
Qed.
End tokens.

(** ** The supply cap at the top of the range *)

Section mint.
Context `{E : Env} {V : Type} `{TV : TokenView V}.

Definition supply_delta (id : string) (c : Z) : WalletDelta :=
  mkDelta 0 0 None None None None 0 0 0 None false [] [] None [] [] [] [] None None ∅ [] {[ id := c ]} [] ∅ [].

(** For a token whose cap is the largest [u64], the saturating sum of the mint rule can never
    exceed the cap, so the rule accepts every mint of the owner; a mint beyond the range is only
    stopped later, when the owner's wallet refuses the supply change. *)
Theorem mint_cap_saturates tx a sender (view : V) st w
    (Ht : tx.(tx_type_) = token.MINT)
    (Hst : token_state view a.(ta_id) = Some st) (Hown : token_owner view a.(ta_id) = Some sender)
    (Hflag : Z.land st.(ts_flags) token.FLAG_MINTABLE <> 0) (Hcap : st.(ts_supply_cap) = u64_max)
    (Hw : w.(ws_tokens_issued) !! a.(ta_id) = Some st)
    (Hover : u64_max < st.(ts_supply) + amount_of a) :
  check_token tx a sender view = Ok tt /\
  is_ok (wallet_apply w (supply_delta a.(ta_id) (amount_of a))) = false.
Proof.
  split.
  - unfold check_token. rewrite Ht. cbn zeta.
    cbn [Z.eqb Pos.eqb token.INIT token.TRANSFER token.MINT token.META token.SELL token.BUY token.CANCEL orb].
    rewrite Hst. cbn [ok_or rbind]. unfold owned_by. rewrite bool_decide_true by done. cbn [negb].
    rewrite (proj2 (Z.eqb_neq _ _) Hflag), Hcap. fold (amount_of a).
    destruct (Z.ltb_spec u64_max (sat_add_u64 st.(ts_supply) (amount_of a))); [|done]. unfold sat_add_u64 in *. lia.
  - apply not_true_iff_false. rewrite apply_ok_iff. intros (_ & _ & _ & Hs & _).
    destruct (Hs a.(ta_id) (amount_of a)) as (st' & Hst' & Hr); [by cbn; rewrite lookup_singleton_eq|].
    cbn in Hst'. rewrite Hw in Hst'. injection Hst' as <-. bounds. lia.
Qed.
End mint.

(** ** SmartObjects *)

Section sobj.
Context `{E : Env}.

Lemma check_sobj_format_inv tx ms e :
  check_sobj_format tx ms = Ok e ->
  sobj_asset tx = Some e /\ tx.(tx_amount) = 0 /\
  (exists static, sobj.static_fee e.(sa_action) = Some static /\
     tx.(tx_fee) = as_u64 (static + pq_surcharge tx ms.(m_pq).(pq_fee_per_byte))) /\
  (is_some e.(sa_recipient_id) = (e.(sa_action) =? sobj.ACTION_TRANSFER)) /\
  (forall r, e.(sa_recipient_id) = Some r -> is_ok (address_to_bytes r) = true) /\
  (e.(sa_action) <> sobj.ACTION_REGISTER -> exists reg, e.(sa_registration_id) = Some reg /\ slen reg = 64).
Proof.
  unfold check_sobj_format. intros H.
  destruct (sobj_asset tx) as [e0|]; cbn [ok_or rbind] in H; [|done]. rule_step H.
  destruct (sobj.static_fee _) as [static|] eqn:Hfee; cbn [ok_or rbind] in H; [|done].
  cbn zeta in H. rule_step H. do 5 rule_step H.
  assert (e0 = e /\ (e.(sa_action) <> sobj.ACTION_REGISTER -> exists reg, e.(sa_registration_id) = Some reg /\ slen reg = 64)) as [-> Hreg].
  { destruct (Z.eqb_spec e0.(sa_action) sobj.ACTION_REGISTER).
    - rule_steps H. injection H as ->. done.
    - rule_step H. do 2 rule_step H. injection H as ->. split; [done|]. intros _.
      destruct (sa_registration_id e) as [reg|]; [|done]. exists reg. split; [done|].
      match goal with Hx : negb (opt_test _ (Some reg)) = false |- _ =>
        apply negb_false_iff in Hx; cbn in Hx; apply andb_true_iff in Hx as [Hx _]; apply Z.eqb_eq in Hx; done end. }
  apply negb_false_iff, Z.eqb_eq in Heqb, Heqb0. apply negb_false_iff, Bool.eqb_prop in Heqb2.
  split_and!; eauto.
  intros r Hr. rewrite Hr in Heqb4. cbn in Heqb4. by apply negb_false_iff in Heqb4.
Qed.

(** What may change a SmartObject.  An accepted update, resignation, transfer or sale names a
    live record of the same type and subtype that the sender holds (or wrote earlier in the batch);
    delegate records and service nodes never change hands, nobody transfers to himself, a transfer
    names a valid address, and a ticker with live token supply is not resigned. *)
Theorem sobj_change_guarded tx ms wallet pending name_taken lookup token_supply e
    (Hc : check_sobj tx ms wallet pending name_taken lookup token_supply = Ok tt)
    (He : sobj_asset tx = Some e)
    (H0 : e.(sa_action) <> sobj.ACTION_REGISTER) (H5 : e.(sa_action) <> sobj.ACTION_BUY) :
  exists reg rec,
    e.(sa_registration_id) = Some reg /\
    opt_or (pending !! reg) (wallet ≫= fun w => w.(ws_sobjects) !! reg) = Some rec /\
    rec.(so_resigned) = false /\ rec.(so_type_) = e.(sa_type_) /\ rec.(so_sub_type) = e.(sa_sub_type) /\
    (e.(sa_action) = sobj.ACTION_TRANSFER \/ e.(sa_action) = sobj.ACTION_SELL ->
       rec.(so_type_) <> sobj.TYPE_DELEGATE /\ rec.(so_type_) <> sobj.TYPE_SERVICE_NODE) /\
    (e.(sa_action) = sobj.ACTION_TRANSFER -> exists r, e.(sa_recipient_id) = Some r /\
       is_ok (address_to_bytes r) = true /\ forall w, wallet = Some w -> w.(ws_address) <> r) /\
    (e.(sa_action) = sobj.ACTION_RESIGN -> rec.(so_type_) = token.TICKER_SOBJ_TYPE ->
       forall s, token_supply reg = Some s -> s <= 0).
Proof.
  unfold check_sobj in Hc. destruct (check_sobj_format tx ms) as [e'|] eqn:Hf; cbn [rbind] in Hc; [|done].
  apply check_sobj_format_inv in Hf as (Ha & _ & _ & Hrec & Hval & Hreg).
  rewrite He in Ha. injection Ha as <-. destruct (Hreg H0) as (reg & Hr & _).
  rewrite Hr in Hc. change (ostr (Some reg)) with reg in Hc.
  rule_step Hc. cbn zeta in Hc.
  rewrite (proj2 (Z.eqb_neq _ _) H5), (proj2 (Z.eqb_neq _ _) H0) in Hc.
  unfold check_sobj_change in Hc. rewrite Hr in Hc. change (ostr (Some reg)) with reg in Hc.
  destruct (opt_or _ _) as [rec|] eqn:Hor; cbn [ok_or rbind] in Hc; [|done]. cbn zeta in Hc. do 8 rule_step Hc.
  exists reg, rec.
  repeat match goal with
  | Hb : negb _ = false |- _ => apply negb_false_iff in Hb
  | Hb : (_ =? _) = true |- _ => apply Z.eqb_eq in Hb
  end.
  split_and!; try done.
  - intros Hm. assert (Hmv : (sa_action e =? sobj.ACTION_TRANSFER) || (sa_action e =? sobj.ACTION_SELL) = true)
      by (apply orb_true_iff; rewrite !Z.eqb_eq; done).
    rewrite Hmv in *. cbn [andb] in *. rewrite andb_true_r in *. split; by apply Z.eqb_neq.
  - intros Hm. rewrite Hm in Hrec. destruct (sa_recipient_id e) as [r|] eqn:Hrr; [|done].
    exists r. split_and!; [done|by apply Hval|]. intros w ->.
    match goal with Hx : (sa_action e =? sobj.ACTION_TRANSFER) && _ = false |- _ => rewrite Hm in Hx; cbn in Hx end.
    by apply String.eqb_neq.
  - intros Hm Hty sup Hs.
    match goal with Hx : (sa_action e =? sobj.ACTION_RESIGN) && _ && _ = false |- _ =>
      rewrite Hm, Hty, Hs in Hx; cbn [Z.eqb] in Hx;
      change (sobj.ACTION_RESIGN =? sobj.ACTION_RESIGN) with true in Hx;
      change (token.TICKER_SOBJ_TYPE =? token.TICKER_SOBJ_TYPE) with true in Hx; cbn [andb opt_test] in Hx;
      apply Z.ltb_ge in Hx; done end.
Qed.
End sobj.

(** ** Witnesses *)

#[local] Existing Instance TestEnv.env.
#[local] Existing Instance TestEnv.laws.

(** A token view given by its answers. *)
Record StaticView : Type := mkView {
  sv_owner : string -> option string;
  sv_state : string -> option TokenState;
  sv_balance : string -> string -> Z;
  sv_order : string -> option TokenOrder
}.
#[local] Instance static_view : TokenView StaticView := {|
  token_owner := sv_owner; token_state := sv_state; token_balance := sv_balance;
  ticker_sobj := fun _ _ => None; order := sv_order; open_orders := fun _ _ _ => 0
|}.

Definition demo_ms : Milestone :=
  mkMilestone 1 0 21 8 block_params_default "" ∅ 255 256 true true true true false true token_fees_default 64
    (mkMarket true 64) masternodes_default true false "" (mkPqParams true 1 0 false 0) (mkFinality false 0 false 0).

Definition demo_pq_key : string := hex_encode (replicate 1312 x01).
Definition demo_ml_sig : string := hex_encode (replicate 2420 x02).
Definition demo_locked_tx : Transaction :=
  tx_set_second_signatures (Some [mkPqBlock 1 demo_ml_sig]) (tx_set_signature (Some demo_signature) demo_pq_transfer).
Definition demo_view : PqWalletView := mkPqView None (Some (mkPqKey 1 demo_pq_key 5)) None.

Lemma second_key_enforced_witness :
  exists m2 b, transaction_pq_message demo_locked_tx = Ok m2 /\ pq_blocks demo_locked_tx !! 0%nat = Some b /\
    block_ok m2 b 1 demo_pq_key = true.
Proof.
  exact (second_key_enforced demo_locked_tx demo_ms 9 None demo_view None
    ltac:(vm_compute; reflexivity) ltac:(vm_compute; reflexivity)).
Defined.

(** A first registration, with the commitment the wallet published. *)
Definition demo_register_base : Transaction := tx_head 3 63 TYPE_GROUP_CORE tx_type.SECOND_SIGNATURE 7 demo_key 10000000.
Definition demo_register_tx : Transaction :=
  tx_set_second_signatures (Some [mkPqBlock 1 demo_ml_sig]) (tx_set_signature (Some demo_signature)
    (asset_mut (as_set_signature (Some (mkSecondSig demo_pq_key (Some 1)))) demo_register_base)).
Definition demo_register_view : PqWalletView :=
  mkPqView None None (Some (mkPqCommitment 1 (hex_encode (sha256 (replicate 1312 x01))) 3)).

Lemma pq_registration_sound_witness :
  check_pq demo_register_tx demo_ms 9 (Some 9) demo_register_view = Ok (Some (mkPqKey 1 demo_pq_key 9)) /\
  registers_second demo_register_tx = true.
Proof.
  assert (H : check_pq demo_register_tx demo_ms 9 (Some 9) demo_register_view = Ok (Some (mkPqKey 1 demo_pq_key 9)))
    by (vm_compute; reflexivity).
  split; [exact H|]. exact (proj1 (pq_registration_sound _ _ _ _ _ _ H)).
Defined.

Lemma pq_format_bounds_witness :
  check_pq_format demo_register_tx demo_ms = Ok tt /\ pq_surcharge demo_register_tx 1 <= 1 * 4846.
Proof.
  assert (H : check_pq_format demo_register_tx demo_ms = Ok tt) by (vm_compute; reflexivity).
  split; [exact H|]. exact (proj2 (proj2 (pq_format_bounds demo_register_tx demo_ms eq_refl ltac:(cbn; lia) H))).
Defined.

Definition demo_token_id : string := hex_encode (replicate 32 x0b).
Definition demo_order_id : string := hex_encode (replicate 32 x0c).
Definition demo_order : TokenOrder := mkOrder demo_order_id demo_token_id "S9" 100 40 3 5 None [].
Definition demo_buy : TokenAsset :=
  mkToken demo_token_id None None None None None None (Some 10) None None None (Some demo_order_id).
Definition demo_buy_tx : Transaction :=
  asset_mut (as_set_extra {[ "token"%string := token_to_value demo_buy ]})
    (tx_head 2 63 TYPE_GROUP_TOKEN token.BUY 7 demo_key 10000000).
Definition demo_market : StaticView :=
  mkView (fun _ => None) (fun _ => None) (fun _ _ => 0) (fun _ => Some demo_order).

Lemma demo_buy_range : asset_range demo_buy.
Proof. split; cbn; [constructor|bounds; lia|bounds; lia]. Qed.

Lemma demo_buy_format : check_token_format demo_buy_tx demo_ms = Ok demo_buy.
Proof. vm_compute. reflexivity. Qed.

Lemma demo_buy_checked : check_token demo_buy_tx demo_buy "S1" demo_market = Ok tt.
Proof. vm_compute. reflexivity. Qed.

Lemma token_amounts_covered_witness :
  exists o, order demo_market (ostr (ta_order_id demo_buy)) = Some o /\ 0 < amount_of demo_buy <= remaining o.
Proof.
  pose proof (token_amounts_covered demo_buy_tx demo_ms demo_buy "S1" demo_market demo_buy_range
    demo_buy_format demo_buy_checked) as H.
  cbn zeta in H. destruct H as (_ & _ & Hb & _).
  destruct (Hb ltac:(vm_compute; reflexivity)) as (o & Ho & _ & _ & _ & Hle). exists o. split; [exact Ho|exact Hle].
Defined.

Lemma token_price_exact_witness : token_buy_total demo_buy_tx demo_market = amount_of demo_buy * od_price demo_order.
Proof.
  pose proof (token_price_exact demo_buy_tx demo_ms demo_buy "S1" demo_market demo_order demo_buy_range
    ltac:(vm_compute; reflexivity) ltac:(vm_compute; reflexivity) demo_buy_format demo_buy_checked
    ltac:(vm_compute; reflexivity) ltac:(cbn; lia) ltac:(cbn; lia) ltac:(cbn; bounds; lia) ltac:(cbn; bounds; lia)) as H.
  exact (proj1 H).
Defined.

Definition demo_mint : TokenAsset :=
  mkToken demo_token_id None None None None None None (Some 10) (Some demo_address) None None None.
Definition demo_mint_tx : Transaction := tx_head 2 63 TYPE_GROUP_TOKEN token.MINT 7 demo_key 100000000.
Definition demo_full : TokenState := mkTokenState "TKN" 0 1 (u64_max - 3) u64_max "S1" 4 None.
Definition demo_owner_view : StaticView :=
  mkView (fun _ => Some "S1"%string) (fun _ => Some demo_full) (fun _ _ => 0) (fun _ => None).
Definition demo_owner_wallet : WalletState :=
  mkWallet "S1" None 0 0 None None None 0 0 0 None false ∅ None ∅ None None ∅ {[ demo_token_id := demo_full ]}.

Lemma mint_cap_saturates_witness :
  check_token demo_mint_tx demo_mint "S1" demo_owner_view = Ok tt /\
  is_ok (wallet_apply demo_owner_wallet (supply_delta demo_token_id 10)) = false.
Proof.
  apply (mint_cap_saturates demo_mint_tx demo_mint "S1" demo_owner_view demo_full demo_owner_wallet);
    try reflexivity. vm_compute. done.
Defined.

Definition demo_sobj : SmartObjectAsset :=
  mkSobjAsset 6 0 sobj.ACTION_TRANSFER (Some demo_token_id) (Some demo_address) None (mkSobjData None None).
Definition demo_sobj_tx : Transaction :=
  tx_set_id (Some demo_order_id) (asset_mut (as_set_extra (sobj_into_map demo_sobj))
    (tx_head 2 63 TYPE_GROUP_SOBJ sobj.TYPE 7 demo_key 500000000)).
Definition demo_record : SmartObject := mkSobj 6 0 (mkSobjData (Some "abc"%string) None) false None.

Definition demo_pending : gmap string SmartObject := {[ demo_token_id := demo_record ]}.

Lemma demo_sobj_asset : sobj_asset demo_sobj_tx = Some demo_sobj.
Proof. vm_compute. reflexivity. Qed.

Lemma demo_sobj_checked :
  check_sobj demo_sobj_tx demo_ms None demo_pending (fun _ _ => false) (fun _ => None) (fun _ => None) = Ok tt.
Proof. vm_compute. reflexivity. Qed.

Lemma sobj_change_guarded_witness :
  exists reg rec, sa_registration_id demo_sobj = Some reg /\
    opt_or (demo_pending !! reg) None = Some rec /\ rec.(so_resigned) = false.
Proof.
  pose proof (sobj_change_guarded demo_sobj_tx demo_ms None demo_pending (fun _ _ => false) (fun _ => None)
    (fun _ => None) demo_sobj demo_sobj_checked demo_sobj_asset ltac:(done) ltac:(done)) as H.
  destruct H as (reg & rec & H1 & H2 & H3 & _).
  exists reg, rec. split; [exact H1|]. split; [exact H2|exact H3].
Defined.
