(* ===== verification/BlockVerify.v ===== *)
(** * Full block verification

    [check_transaction] and [verify_block] of [src/src/crypto/block_serializer.rs], and the
    declarative validity they decide. *)

From S2P Require Import Prelude Models Env Bytes Crypto Config TxCodec TxRoundtrip BlockCodec Wallet Rules.

Section verify.
Context `{E : Env}.

(** ** The verifier *)

Record BlockVerification : Type := mkVerification { bv_verified : bool; bv_errors : list string }.

(** Stored id matches the serialised bytes, signature is valid. *)
Definition check_transaction (tx : Transaction) : option string :=
  match tx.(tx_id) with
  | None => None
  | Some id =>
      match transaction_id tx with
      | Ok computed =>
          if negb (String.eqb computed id) then Some ("Invalid transaction id: " +:+ id +:+ " expected: " +:+ computed)
          else match verify_transaction_signature tx with
               | Ok true => None
               | Ok false => Some ("Invalid transaction signature: " +:+ id)
               | Err e => Some ("Cannot verify transaction " +:+ id +:+ ": " +:+ err_text e)
               end
      | Err e => Some ("Cannot serialise transaction " +:+ id +:+ ": " +:+ err_text e)
      end
  end.

(** [if c { errors.push(msg) }]. *)
Definition push_if (c : bool) (msg : string) : list string := if c then [msg] else [].

Definition header_errors (block : Block) (n : Network) (now : Z) : list string :=
  let m := milestone n block.(b_height) in
  let '(v1_ok, v0_ok) := block_versions_allowed n block.(b_height) in
  let version_ok := if block.(b_version) =? BLOCK_VERSION_PQ then v1_ok
                    else v0_ok && (block.(b_version) =? m.(m_block).(bp_version)) in
  push_if (negb (block.(b_height) =? 1) && (slen block.(b_previous_block) =? 0)) "Invalid previous block" ++
  push_if (negb (block.(b_reward) =? m.(m_reward)))
    ("Invalid block reward: " +:+ fmt_u block.(b_reward) +:+ " expected: " +:+ fmt_u m.(m_reward)) ++
  match verify_block_signature block with
  | Ok true => []
  | Ok false => ["Failed to verify block signature"%string]
  | Err e => ["Failed to verify block signature: " +:+ err_text e]
  end ++
  push_if (negb version_ok)
    (if (block.(b_version) =? 0) && v1_ok
     then "Invalid block version: pq.blocks requires version 1 (BlockPqRequiredError)"
     else "Invalid block version") ++
  (if block.(b_version) =? BLOCK_VERSION_PQ then
     match block.(b_pq_signature) with
     | None => ["Version 1 block without pqSignature (BlockPqSignatureMissingError)"%string]
     | Some pq =>
         if negb (pq.(pb_algorithm) =? ALG_ML_DSA_44) then ["Unknown pqSignature algorithm " +:+ fmt_u pq.(pb_algorithm)]
         else push_if (negb (slen pq.(pb_signature) =? SIG_LEN * 2)) "Invalid pqSignature length"
     end
   else push_if (is_some block.(b_pq_signature)) "pqSignature is only valid on version 1 blocks") ++
  push_if (as_u32 (now + m.(m_blocktime)) <? block.(b_timestamp)) "Invalid block timestamp" ++
  push_if (negb (as_u32 (Z.of_nat (length block.(b_transactions))) =? block.(b_number_of_transactions)))
    "Invalid number of transactions" ++
  push_if ((1 <? block.(b_height)) && (m.(m_block).(bp_max_transactions) <? as_u32 (Z.of_nat (length block.(b_transactions)))))
    "Transactions length is too high" ++
  match block.(b_id) with
  | None => []
  | Some id =>
      match block_id block with
      | Ok computed => push_if (negb (block.(b_height) =? 1) && negb (String.eqb computed id))
                         ("Invalid block id: " +:+ id +:+ " expected: " +:+ computed)
      | Err e => ["Cannot compute block id: " +:+ err_text e]
      end
  end.

(** The first loop over the transactions: ids, duplicates, expiration and the two totals. *)
Definition scan_step (height : Z) (acc : list string * gset string * Z * Z) (tx : Transaction) :
    list string * gset string * Z * Z :=
  let '(errors, seen, total_amount, total_fee) := acc in
  match tx.(tx_id) with
  | None => (errors ++ ["Transaction without id"%string], seen, total_amount, total_fee)
  | Some id =>
      let errors := errors ++ push_if (bool_decide (id ∈ seen)) ("Encountered duplicate transaction: " +:+ id) in
      let errors := errors ++ push_if (opt_test (fun exp => (0 <? exp) && (exp <=? height)) tx.(tx_expiration))
                                ("Encountered expired transaction: " +:+ id) in
      (errors, {[id]} ∪ seen, total_amount + tx.(tx_amount), total_fee + tx.(tx_fee))
  end.

(** The format rules of one transaction. *)
Definition format_errors (m : Milestone) (tx : Transaction) : list string :=
  let id := default "?"%string tx.(tx_id) in
  let text (e : string) : string := e +:+ ": " +:+ id in
  match check_pq_format tx m with Ok _ => [] | Err e => [text e] end ++
  (if tx.(tx_type_group) =? TYPE_GROUP_CORE then []
   else if is_token tx then
     if negb m.(m_tokens) then ["Token transaction before tokens activation: " +:+ id]
     else match check_token_format tx m with Ok _ => [] | Err e => [text e] end
   else if negb (is_sobj tx)
   then ["Unsupported transaction typeGroup " +:+ fmt_u tx.(tx_type_group) +:+ " type " +:+ fmt_u tx.(tx_type_) +:+ ": " +:+ id]
   else if negb m.(m_sobj_active) then ["SmartObject transaction before sobj (ship13) activation: " +:+ id]
   else match check_sobj_format tx m with Ok _ => [] | Err e => [text e] end).

Definition verify_block (block : Block) (n : Network) (now : Z) : BlockVerification :=
  let m := milestone n block.(b_height) in
  let '(scan_errors, _, total_amount, total_fee) :=
    foldl (scan_step block.(b_height)) ([], ∅, 0, 0) block.(b_transactions) in
  let errors :=
    header_errors block n now ++ scan_errors ++
    omap check_transaction block.(b_transactions) ++
    concat (format_errors m <$> block.(b_transactions)) ++
    push_if (negb (total_amount =? block.(b_total_amount))) "Invalid total amount" ++
    push_if (negb (total_fee =? block.(b_total_fee))) "Invalid total fee" ++
    (if block.(b_height) =? 1 then
       push_if (negb (String.eqb block.(b_payload_hash) n.(n_nethash)))
         "Genesis payload hash does not match the network nethash"
     else match block_payload_hash block with
          | Ok h => push_if (negb (String.eqb h block.(b_payload_hash))) "Invalid payload hash"
          | Err e => ["Cannot compute payload hash: " +:+ err_text e]
          end) in
  mkVerification (bool_decide (errors = [])) errors.

(** ** What it decides *)

(** One transaction of a valid block. *)
Record valid_block_tx (m : Milestone) (height : Z) (tx : Transaction) : Prop := {
  vt_id : exists id, tx.(tx_id) = Some id /\ transaction_id tx = Ok id;
  vt_signature : verify_transaction_signature tx = Ok true;
  vt_expiration : forall e, tx.(tx_expiration) = Some e -> 0 < e -> height < e;
  vt_pq : check_pq_format tx m = Ok tt;
  vt_group : tx.(tx_type_group) = TYPE_GROUP_CORE \/
             (is_token tx = true /\ m.(m_tokens) = true /\ is_ok (check_token_format tx m) = true) \/
             (is_sobj tx = true /\ m.(m_sobj_active) = true /\ is_ok (check_sobj_format tx m) = true)
}.

Record valid_header (block : Block) (n : Network) (now : Z) : Prop := {
  vh_previous : block.(b_height) = 1 \/ block.(b_previous_block) <> EmptyString;
  vh_reward : block.(b_reward) = (milestone n block.(b_height)).(m_reward);
  vh_signature : verify_block_signature block = Ok true;
  vh_version : if block.(b_version) =? BLOCK_VERSION_PQ
               then fst (block_versions_allowed n block.(b_height)) = true /\
                    exists s, block.(b_pq_signature) = Some (mkPqBlock ALG_ML_DSA_44 s) /\ slen s = SIG_LEN * 2
               else snd (block_versions_allowed n block.(b_height)) = true /\
                    block.(b_version) = (milestone n block.(b_height)).(m_block).(bp_version) /\
                    block.(b_pq_signature) = None;
  vh_time : block.(b_timestamp) <= as_u32 (now + (milestone n block.(b_height)).(m_blocktime));
  vh_count : as_u32 (Z.of_nat (length block.(b_transactions))) = block.(b_number_of_transactions);
  vh_max : 1 < block.(b_height) ->
           as_u32 (Z.of_nat (length block.(b_transactions))) <= (milestone n block.(b_height)).(m_block).(bp_max_transactions);
  vh_id : forall id, block.(b_id) = Some id ->
          exists computed, block_id block = Ok computed /\ (block.(b_height) <> 1 -> computed = id)
}.

Record valid_block (block : Block) (n : Network) (now : Z) : Prop := {
  vb_header : valid_header block n now;
  vb_txs : Forall (valid_block_tx (milestone n block.(b_height)) block.(b_height)) block.(b_transactions);
  vb_nodup : NoDup (tx_id <$> block.(b_transactions));
  vb_amount : zsum (tx_amount <$> block.(b_transactions)) = block.(b_total_amount);
  vb_fee : zsum (tx_fee <$> block.(b_transactions)) = block.(b_total_fee);
  vb_payload : if block.(b_height) =? 1 then block.(b_payload_hash) = n.(n_nethash)
               else block_payload_hash block = Ok block.(b_payload_hash)
}.

(** ** Equivalence *)

Lemma push_if_nil c msg : push_if c msg = [] <-> c = false.
Proof. by destruct c. Qed.

Lemma slen_zero_iff s : (slen s =? 0) = true <-> s = EmptyString.
Proof. destruct s; [done|]. split; [|done]. unfold slen. cbn [String.length]. intros H%Z.eqb_eq. lia. Qed.

Lemma header_errors_nil block n now : header_errors block n now = [] <-> valid_header block n now.
Proof.
  unfold header_errors. destruct (block_versions_allowed n (b_height block)) as [v1 v0] eqn:Hv.
  rewrite !app_nil, !push_if_nil, andb_false_iff, !negb_false_iff, !Z.eqb_eq, Z.ltb_ge, andb_false_iff, !Z.ltb_ge.
  split.
  - intros (H1 & H2 & H3 & H4 & H5 & H6 & H7 & H8 & H9). split; try done.
    + destruct H1 as [H1|H1]; [by left|right]. intros Hp. rewrite Hp in H1. done.
    + by destruct (verify_block_signature block) as [[]|].
    + rewrite Hv. cbn [fst snd]. destruct (b_version block =? BLOCK_VERSION_PQ).
      * split; [done|]. destruct (b_pq_signature block) as [[alg s]|]; [|done]. cbn [pb_algorithm pb_signature] in H5.
        destruct (Z.eqb_spec alg ALG_ML_DSA_44) as [->|]; [|done]. cbn [negb] in H5.
        apply push_if_nil, negb_false_iff, Z.eqb_eq in H5. by exists s.
      * apply andb_true_iff in H4 as [H4 H4']. apply Z.eqb_eq in H4'.
        apply push_if_nil in H5. split_and!; [done|done|by destruct (b_pq_signature block)].
    + intros Hh. destruct H8 as [H8|H8]; lia.
    + intros id Hid. rewrite Hid in H9. destruct (block_id block) as [c|]; [|done]. exists c. split; [done|].
      intros Hne. apply push_if_nil, andb_false_iff in H9. destruct H9 as [H9|H9].
      * apply negb_false_iff, Z.eqb_eq in H9. done.
      * by apply negb_false_iff, String.eqb_eq in H9.
  - intros [H1 H2 H3 H4 H5 H6 H7 H8]. rewrite Hv in H4. cbn [fst snd] in H4. split_and!; try done.
    + destruct H1 as [H1|H1]; [by left|right]. apply not_true_iff_false. by rewrite slen_zero_iff.
    + by rewrite H3.
    + destruct (b_version block =? BLOCK_VERSION_PQ); [by destruct H4|].
      destruct H4 as (-> & -> & _). by rewrite Z.eqb_refl.
    + destruct (b_version block =? BLOCK_VERSION_PQ).
      * destruct H4 as (_ & s & -> & Hs). cbn. change (SIG_LEN * 2) with 4840 in Hs. by rewrite Hs.
      * destruct H4 as (_ & _ & ->). done.
    + destruct (Z.le_gt_cases (b_height block) 1); [by left|right; auto].
    + destruct (b_id block) as [id|]; [|done]. destruct (H8 id eq_refl) as (c & -> & Hc).
      apply push_if_nil, andb_false_iff. destruct (Z.eqb_spec (b_height block) 1); [by left|right].
      rewrite (Hc n0), String.eqb_refl. done.
Qed.

(** The scan, from any accumulator. *)
Lemma scan_spec height l errors seen a f :
  let '(errors', seen', a', f') := foldl (scan_step height) (errors, seen, a, f) l in
  errors' = [] <->
  errors = [] /\ Forall (fun tx => is_Some tx.(tx_id)) l /\ NoDup (tx_id <$> l) /\
  Forall (fun tx => forall id, tx.(tx_id) = Some id -> id ∉ seen) l /\
  Forall (fun tx => forall e, tx.(tx_expiration) = Some e -> 0 < e -> height < e) l.
Proof.
  revert errors seen a f; induction l as [|tx l IH]; intros errors seen a f; cbn [foldl].
  { split; [intros ->; split_and!; constructor|tauto]. }
  unfold scan_step at 2. destruct (tx_id tx) as [id|] eqn:Hid.
  - set (e1 := errors ++ _). set (e2 := e1 ++ _).
    specialize (IH e2 ({[id]} ∪ seen) (a + tx_amount tx) (f + tx_fee tx)).
    destruct (foldl _ _ l) as [[[errors' seen'] a'] f']. rewrite IH. subst e2 e1.
    rewrite !app_nil, !push_if_nil, bool_decide_eq_false, !Forall_cons, fmap_cons, NoDup_cons, Hid.
    assert (Hexp : opt_test (fun exp => (0 <? exp) && (exp <=? height)) (tx_expiration tx) = false <->
              forall e, tx.(tx_expiration) = Some e -> 0 < e -> height < e).
    { destruct (tx_expiration tx) as [e|]; cbn; [|done]. rewrite andb_false_iff, Z.ltb_ge, Z.leb_gt. split.
      - intros Hor e' [= <-]. lia.
      - intros Hall. specialize (Hall e eq_refl). lia. }
    rewrite Hexp.
    assert (Hseen : Forall (fun tx0 => forall i, tx_id tx0 = Some i -> i ∉ ({[id]} ∪ seen : gset string)) l <->
              Some id ∉ tx_id <$> l /\ Forall (fun tx0 => forall i, tx_id tx0 = Some i -> i ∉ seen) l).
    { rewrite !Forall_forall, list_elem_of_fmap. split.
      - intros Hall. split.
        + intros (t & Ht & Hin). specialize (Hall t Hin id (eq_sym Ht)). set_solver.
        + intros t Hin i Hi. specialize (Hall t Hin i Hi). set_solver.
      - intros [Hn Hall] t Hin i Hi. specialize (Hall t Hin i Hi).
        assert (i <> id) by (intros ->; apply Hn; by exists t). set_solver. }
    rewrite Hseen. split; [intros; destruct_and!; split_and!; try done; by intros ? [= <-]|].
    intros; destruct_and!; split_and!; auto.
  - specialize (IH (errors ++ ["Transaction without id"%string]) seen a f).
    destruct (foldl _ _ l) as [[[errors' seen'] a'] f']. rewrite IH, app_nil, Forall_cons, Hid.
    split; [intros [[_ [=]] _]|]. intros (_ & [[? [=]] _] & _).
Qed.

Lemma scan_totals height l errors seen a f :
  Forall (fun tx => is_Some tx.(tx_id)) l ->
  let '(_, _, a', f') := foldl (scan_step height) (errors, seen, a, f) l in
  a' = a + zsum (tx_amount <$> l) /\ f' = f + zsum (tx_fee <$> l).
Proof.
  intros Hl. revert errors seen a f; induction Hl as [|tx l [id Hid] _ IH]; intros errors seen a f; cbn [foldl].
  { cbn. lia. }
  unfold scan_step at 2. rewrite Hid.
  specialize (IH ((errors ++ push_if (bool_decide (id ∈ seen)) ("Encountered duplicate transaction: " +:+ id)) ++
       push_if (opt_test (fun exp => (0 <? exp) && (exp <=? height)) (tx_expiration tx)) ("Encountered expired transaction: " +:+ id))
       ({[id]} ∪ seen) (a + tx_amount tx) (f + tx_fee tx)).
  destruct (foldl _ _ l) as [[[errors' seen'] a'] f']. rewrite !fmap_cons. cbn [zsum]. lia.
Qed.

Lemma check_transaction_none tx id :
  tx.(tx_id) = Some id ->
  check_transaction tx = None <-> transaction_id tx = Ok id /\ verify_transaction_signature tx = Ok true.
Proof.
  unfold check_transaction. intros ->. destruct (transaction_id tx) as [c|]; [|split; [done|by intros [[=] _]]].
  destruct (String.eqb_spec c id) as [->|Hne]; cbn [negb].
  - destruct (verify_transaction_signature tx) as [[]|]; (split; [done|by intros [_ [=]]]) || done.
  - split; [done|]. by intros [[= ->] _].
Qed.

Lemma format_errors_nil m tx :
  format_errors m tx = [] <->
  check_pq_format tx m = Ok tt /\
  (tx.(tx_type_group) = TYPE_GROUP_CORE \/
   (is_token tx = true /\ m.(m_tokens) = true /\ is_ok (check_token_format tx m) = true) \/
   (is_sobj tx = true /\ m.(m_sobj_active) = true /\ is_ok (check_sobj_format tx m) = true)).
Proof.
  unfold format_errors. rewrite app_nil.
  assert (Hpq : (match check_pq_format tx m with Ok _ => [] | Err e => [e +:+ ": " +:+ default "?"%string (tx_id tx)] end) = []
            <-> check_pq_format tx m = Ok tt).
  { destruct (check_pq_format tx m) as [[]|]; by split. }
  rewrite Hpq. apply and_iff_compat_l.
  destruct (Z.eqb_spec (tx_type_group tx) TYPE_GROUP_CORE) as [Hg|Hg]; [tauto|].
  destruct (is_token tx) eqn:Ht.
  - rewrite (token_not_sobj _ Ht). destruct (m_tokens m); cbn [negb].
    + destruct (check_token_format tx m).
      * split; [auto|done].
      * split; [done|by intros [?|[(_ & _ & ?)|(? & _ & _)]]].
    + split; [done|by intros [?|[(_ & ? & _)|(? & _ & _)]]].
  - destruct (is_sobj tx); cbn [negb]; [|split; [done|by intros [?|[(? & _ & _)|(? & _ & _)]]]].
    destruct (m_sobj_active m); cbn [negb]; [|split; [done|by intros [?|[(? & _ & _)|(_ & ? & _)]]]].
    destruct (check_sobj_format tx m).
    + split; [auto 6|done].
    + split; [done|by intros [?|[(? & _ & _)|(_ & _ & ?)]]].
Qed.

Lemma concat_nil {A B} (f : A -> list B) l : concat (f <$> l) = [] <-> Forall (fun x => f x = []) l.
Proof.
  induction l as [|x l IH]; cbn; [done|]. rewrite app_nil, Forall_cons. by rewrite IH.
Qed.

Lemma omap_nil {A B} (f : A -> option B) l : omap f l = [] <-> Forall (fun x => f x = None) l.
Proof.
  induction l as [|x l IH]; cbn; [done|]. rewrite Forall_cons. destruct (f x); [split; [done|by intros [[=] _]]|].
  rewrite IH. tauto.
Qed.

Lemma verify_block_decides block n now :
  (verify_block block n now).(bv_verified) = true <-> valid_block block n now.
Proof.
  unfold verify_block. pose proof (scan_spec block.(b_height) block.(b_transactions) [] ∅ 0 0) as Hs.
  pose proof (scan_totals block.(b_height) block.(b_transactions) [] ∅ 0 0) as Ht.
  destruct (foldl _ _ _) as [[[errors seen] a] f]. cbn [bv_verified].
  rewrite bool_decide_eq_true, !app_nil, !push_if_nil, header_errors_nil, Hs, omap_nil, concat_nil,
    !negb_false_iff, !Z.eqb_eq.
  assert (Hpay : (if b_height block =? 1 then
       push_if (negb (String.eqb block.(b_payload_hash) n.(n_nethash))) "Genesis payload hash does not match the network nethash"
     else match block_payload_hash block with
          | Ok h => push_if (negb (String.eqb h block.(b_payload_hash))) "Invalid payload hash"
          | Err e => ["Cannot compute payload hash: " +:+ err_text e]
          end) = [] <->
     if b_height block =? 1 then block.(b_payload_hash) = n.(n_nethash) else block_payload_hash block = Ok block.(b_payload_hash)).
  { destruct (b_height block =? 1).
    - by rewrite push_if_nil, negb_false_iff, String.eqb_eq.
    - destruct (block_payload_hash block) as [h|]; [|by split].
      rewrite push_if_nil, negb_false_iff, String.eqb_eq. split; [by intros ->|by intros [= ->]]. }
  rewrite Hpay. split.
  - intros (Hh & (_ & Hid & Hnd & _ & Hexp) & Hc & Hf & Ha & Hfee & Hp). destruct (Ht Hid) as [-> ->].
    split; try done. rewrite Forall_forall in *. intros tx Hin.
    destruct (Hid tx Hin) as [id Hi]. destruct (proj1 (check_transaction_none tx id Hi) (Hc tx Hin)).
    destruct (proj1 (format_errors_nil _ tx) (Hf tx Hin)). split; eauto.
  - intros [Hh Htx Hnd Ha Hfee Hp].
    assert (Hid : Forall (fun tx => is_Some tx.(tx_id)) block.(b_transactions)).
    { eapply Forall_impl; [exact Htx|]. intros tx [(id & -> & _) _ _ _ _]. by eexists. }
    destruct (Ht Hid) as [-> ->]. split_and!; try done.
    + apply Forall_forall. set_solver.
    + eapply Forall_impl; [exact Htx|]. by intros tx [].
    + eapply Forall_impl; [exact Htx|]. intros tx [(id & Hi & Hc) Hv _ _ _]. by apply (check_transaction_none tx id Hi).
    + eapply Forall_impl; [exact Htx|]. intros tx []. by apply format_errors_nil.
Qed.

(** C1: the block verifier decides validity: it reports no error exactly when the header is the one
    the milestone asks for and is signed, every transaction has the id of its bytes, a valid
    signature, is not expired and respects the format rules, no id occurs twice, the totals are the
    exact sums, and the payload hash is the hash of the ids. *)
Theorem verify_block_iff block n now :
  (verify_block block n now).(bv_verified) = true <-> valid_block block n now.
Proof. apply verify_block_decides. Qed.
End verify.
