(* ===== verification/Round.v ===== *)
(** * Rounds, slots and the forging order

    [src/src/delegate/round.rs]: the round of a height, the slot of a timestamp and the
    deterministic shuffle of the ranked delegates, with a closed form of the shuffle. *)

From S2P Require Import Prelude Models Env Bytes.

Record RoundInfo : Type := mkRound {
  ri_round : Z;
  ri_round_height : Z;
  ri_next_round : Z;
  ri_max_delegates : Z
}.

(** [max_delegates] is positive (the source divides by it). *)
Definition round_info (height max_delegates : Z) : RoundInfo :=
  let h := Z.max height 1 in
  let round := (h - 1) / max_delegates + 1 in
  let round_height := as_u64 ((round - 1) * max_delegates + 1) in
  let next_round := if h mod max_delegates =? 0 then round + 1 else round in
  mkRound round round_height next_round max_delegates.

Definition slot_number (timestamp blocktime : Z) : Z := timestamp / blocktime.
Definition slot_start (slot blocktime : Z) : Z := as_u32 (as_u64 (slot * blocktime)).

(** Delegate ranking entry. *)
Record DelegateRank : Type := mkRank { dr_public_key : string; dr_votes : Z }.

(** ** The shuffle *)

(** [slice::swap]; both indices are in range at every call. *)
Definition swap {A} (a b : nat) (l : list A) : list A :=
  match l !! a, l !! b with
  | Some x, Some y => <[a := y]> (<[b := x]> l)
  | _, _ => l
  end.

Section shuffle.
Context `{E : Env} {A : Type}.
Implicit Types (l : list A).

Definition seed_at (seed : list byte) (x : nat) : Z := default 0 (Z_of_byte <$> seed !! x).

(** [while x < 4 && i < n]. *)
Fixpoint shuffle_inner (k : nat) (seed : list byte) (x i n : nat) l : list A * nat :=
  match k with
  | O => (l, i)
  | S k =>
      if (i <? n)%nat then
        let new_index := Z.to_nat (seed_at seed x mod Z.of_nat n) in
        shuffle_inner k seed (S x) (S i) n (swap new_index i l)
      else (l, i)
  end.

(** [while i < n]: the outer [i += 1] runs after every batch. *)
Fixpoint shuffle_outer (fuel : nat) (seed : list byte) (i n : nat) l : list A :=
  match fuel with
  | O => l
  | S fuel =>
      if (i <? n)%nat then
        let '(l, i) := shuffle_inner 4 seed 0 i n l in
        shuffle_outer fuel (sha256 seed) (S i) n l
      else l
  end.

Definition shuffle l (round : Z) : list A :=
  let n := length l in
  if (n =? 0)%nat then l
  else shuffle_outer n (sha256 (bytes_of (fmt_u round))) 0 n l.

(** ** Closed form

    Position [i] is swapped once, with the byte [i mod 5] of the seed hashed [i / 5] more times,
    except that every fifth position is skipped. *)

Fixpoint iter_sha (k : nat) (seed : list byte) : list byte :=
  match k with O => seed | S k => iter_sha k (sha256 seed) end.

Definition shuffle_step (seed : list byte) (n : nat) l (i : nat) : list A :=
  if (i mod 5 =? 4)%nat then l
  else swap (Z.to_nat (seed_at (iter_sha (i / 5) seed) (i mod 5) mod Z.of_nat n)) i l.

Definition shuffle_ref l (round : Z) : list A :=
  foldl (shuffle_step (sha256 (bytes_of (fmt_u round))) (length l)) l (seq 0 (length l)).

Lemma swap_perm a b l : swap a b l ≡ₚ l.
Proof.
  unfold swap. destruct (l !! a) as [x|] eqn:Ha; [|done]. destruct (l !! b) as [y|] eqn:Hb; [|done].
  destruct (decide (a = b)) as [<-|Hne].
  { rewrite Ha in Hb. injection Hb as <-. by rewrite list_insert_insert_eq, list_insert_id. }
  destruct (lt_eq_lt_dec a b) as [[Hlt| ->]|Hlt]; [|done|].
  - rewrite <-(take_drop_middle l a x Ha). assert (Hl : (a < length l)%nat) by by eapply lookup_lt_Some.
    assert (Hb' : drop (S a) l !! (b - S a)%nat = Some y) by (rewrite lookup_drop; rewrite <-Hb; f_equal; lia).
    rewrite <-(take_drop_middle _ _ _ Hb'). set (l1 := take a l). set (l2 := take _ _). set (l3 := drop _ (drop _ _)).
    assert (H1 : length l1 = a) by (apply length_take_le; lia).
    assert (H2 : length l2 = (b - S a)%nat).
    { apply length_take_le. apply lookup_lt_Some in Hb'. lia. }
    replace b with (length (l1 ++ x :: l2) + 0)%nat at 1 by (rewrite length_app; cbn; lia).
    replace (l1 ++ x :: l2 ++ y :: l3) with ((l1 ++ x :: l2) ++ y :: l3) by (by rewrite <-app_assoc).
    rewrite insert_app_r, <-app_assoc. replace a with (length l1 + 0)%nat at 1 by lia.
    rewrite insert_app_r. cbn. rewrite <-!app_assoc. cbn. solve_Permutation.
  - rewrite <-(take_drop_middle l b y Hb). assert (Hl : (b < length l)%nat) by by eapply lookup_lt_Some.
    assert (Ha' : drop (S b) l !! (a - S b)%nat = Some x) by (rewrite lookup_drop; rewrite <-Ha; f_equal; lia).
    rewrite <-(take_drop_middle _ _ _ Ha'). set (l1 := take b l). set (l2 := take _ _). set (l3 := drop _ (drop _ _)).
    assert (H1 : length l1 = b) by (apply length_take_le; lia).
    assert (H2 : length l2 = (a - S b)%nat).
    { apply length_take_le. apply lookup_lt_Some in Ha'. lia. }
    replace b with (length l1 + 0)%nat at 1 by lia. rewrite insert_app_r. cbn.
    replace a with (length (l1 ++ x :: l2) + 0)%nat at 1 by (rewrite length_app; cbn; lia).
    replace (l1 ++ x :: l2 ++ x :: l3) with ((l1 ++ x :: l2) ++ x :: l3) by (by rewrite <-app_assoc).
    rewrite insert_app_r, <-app_assoc. cbn. solve_Permutation.
Qed.

Lemma iter_sha_S k seed : sha256 (iter_sha k seed) = iter_sha (S k) seed.
Proof. revert seed; induction k as [|k IH]; intros seed; [done|]. cbn [iter_sha]. by rewrite IH. Qed.

Lemma shuffle_inner_spec s0 n q k x i l :
  i = (5 * q + x)%nat -> (x + k = 4)%nat ->
  shuffle_inner k (iter_sha q s0) x i n l
  = (foldl (shuffle_step s0 n) l (seq i (Nat.min k (n - i))), (i + Nat.min k (n - i))%nat).
Proof.
  revert x i l; induction k as [|k IH]; intros x i l Hi Hk; cbn [shuffle_inner].
  { cbn. by rewrite Nat.add_0_r. }
  destruct (Nat.ltb_spec i n) as [Hlt|Hge].
  - rewrite (IH (S x) (S i)) by lia.
    replace (Nat.min (S k) (n - i)) with (S (Nat.min k (n - S i))) by lia. cbn [seq foldl].
    rewrite Nat.add_succ_r. f_equal.
    assert (Hmod : (i mod 5 = x)%nat) by (rewrite Hi, Nat.mul_comm, Nat.add_comm, Nat.Div0.mod_add, Nat.mod_small; lia).
    assert (Hdiv : (i / 5 = q)%nat) by (rewrite Hi, Nat.mul_comm, Nat.div_add_l, Nat.div_small; lia).
    unfold shuffle_step at 3. rewrite Hmod, Hdiv.
    destruct (Nat.eqb_spec x 4); [lia|]. done.
  - replace (n - i)%nat with 0%nat by lia. rewrite Nat.min_0_r. cbn. by rewrite Nat.add_0_r.
Qed.

Lemma shuffle_step_skip s0 n q l : shuffle_step s0 n l (5 * q + 4) = l.
Proof.
  unfold shuffle_step. replace ((5 * q + 4) mod 5)%nat with 4%nat; [done|].
  by rewrite Nat.mul_comm, Nat.add_comm, Nat.Div0.mod_add.
Qed.

Lemma shuffle_outer_spec s0 n fuel q l :
  (n - 5 * q <= fuel)%nat ->
  shuffle_outer fuel (iter_sha q s0) (5 * q) n l = foldl (shuffle_step s0 n) l (seq (5 * q) (n - 5 * q)).
Proof.
  revert q l; induction fuel as [|fuel IH]; intros q l Hf; cbn [shuffle_outer].
  { by replace (n - 5 * q)%nat with 0%nat by lia. }
  destruct (Nat.ltb_spec (5 * q) n) as [Hlt|Hge]; [|by replace (n - 5 * q)%nat with 0%nat by lia].
  rewrite (shuffle_inner_spec s0 n q 4 0) by lia. rewrite iter_sha_S.
  destruct (Nat.le_gt_cases (5 * q + 4)%nat n) as [Hle|Hgt].
  - replace (Nat.min 4 (n - 5 * q)) with 4%nat by lia.
    replace (S (5 * q + 4)) with (5 * S q)%nat by lia. rewrite IH by lia.
    destruct (Nat.eq_dec (n - 5 * q)%nat 4%nat) as [He|Hne].
    + rewrite He. by replace (n - 5 * S q)%nat with 0%nat by lia.
    + replace (n - 5 * q)%nat with (4 + S (n - 5 * S q))%nat by lia.
      rewrite seq_app, foldl_app. cbn [seq foldl app]. replace (S (5 * q + 4)) with (5 * S q)%nat by lia.
      by rewrite shuffle_step_skip.
  - replace (Nat.min 4 (n - 5 * q)) with (n - 5 * q)%nat by lia.
    destruct fuel as [|fuel]; cbn [shuffle_outer]; [done|].
    destruct (Nat.ltb_spec (S (5 * q + (n - 5 * q))) n); [lia|done].
Qed.

Lemma shuffle_closed l round : shuffle l round = shuffle_ref l round.
Proof.
  unfold shuffle, shuffle_ref. destruct (Nat.eqb_spec (length l) 0) as [H0|H0].
  { destruct l; done. }
  pose proof (shuffle_outer_spec (sha256 (bytes_of (fmt_u round))) (length l) (length l) 0 l) as H.
  cbn [iter_sha Nat.mul] in H. rewrite Nat.sub_0_r in H. apply H. lia.
Qed.

Lemma shuffle_perm l round : shuffle l round ≡ₚ l.
Proof.
  rewrite shuffle_closed. unfold shuffle_ref.
  generalize (length l) at 1. intros n. generalize (seq 0 (length l)). intros is_.
  assert (H : forall l0, foldl (shuffle_step (sha256 (bytes_of (fmt_u round))) n) l0 is_ ≡ₚ l0); [|apply H].
  induction is_ as [|i is_ IH]; intros l0; cbn [foldl]; [done|]. rewrite IH.
  unfold shuffle_step. destruct (_ =? 4)%nat; [done|apply swap_perm].
Qed.

(** C39: the shuffle terminates and is the fold of one swap per position, skipping every fifth, with
    the seed hashed again every five positions; it only reorders the delegates. *)
Theorem shuffle_correct l round : shuffle l round = shuffle_ref l round /\ shuffle l round ≡ₚ l.
Proof. split; [apply shuffle_closed|apply shuffle_perm]. Qed.
End shuffle.

(** ** Rounds and slots *)

Section round.
Implicit Types (h k : Z).

Lemma quotient_interval x k q : 0 < k -> x / k = q <-> k * q <= x < k * q + k.
Proof.
  intros Hk. split.
  - intros <-. pose proof (Z.div_mod x k). pose proof (Z.mod_pos_bound x k). lia.
  - intros Hx. symmetry. apply (Z.div_unique_pos x k q (x - k * q)); lia.
Qed.

(** Rounds partition the heights into intervals of [k] heights: two heights are in the same
    round exactly when they lie in the interval that starts at the round height, and the next
    round is the round of the next height. *)
Theorem round_info_spec h k (Hh : 1 <= h < u64_max) (Hk : 1 <= k <= u32_max) :
  let ri := round_info h k in
  ri.(ri_round_height) <= h < ri.(ri_round_height) + k /\
  ri.(ri_round_height) = (ri.(ri_round) - 1) * k + 1 /\
  ri.(ri_next_round) = (round_info (h + 1) k).(ri_round) /\
  (forall h', 1 <= h' -> (round_info h' k).(ri_round) = ri.(ri_round) <->
     ri.(ri_round_height) <= h' < ri.(ri_round_height) + k).
Proof.
  unfold round_info. cbn [ri_round ri_round_height ri_next_round].
  rewrite (Z.max_l h), (Z.max_l (h + 1)) by lia.
  destruct (proj1 (quotient_interval (h - 1) k _ ltac:(lia)) eq_refl) as [Hlo Hhi].
  set (q := (h - 1) / k) in *.
  assert (Hq : 0 <= q) by (apply Z.div_pos; lia).
  rewrite as_u64_id by (bounds; replace ((q + 1 - 1) * k) with (k * q) by lia; lia).
  replace ((q + 1 - 1) * k) with (k * q) by lia. split_and!; [lia|lia|lia| |].
  - replace (h + 1 - 1) with h by lia.
    destruct (Z.eqb_spec (h mod k) 0) as [H0|H0].
    + f_equal. symmetry. apply quotient_interval; [lia|].
      pose proof (Z.div_mod h k ltac:(lia)) as Hd. rewrite H0 in Hd.
      assert (q + 1 = h / k); [|lia]. assert (k * q < k * (h / k)) by lia.
      assert (k * (h / k) < k * (q + 2)) by lia. assert (q < h / k < q + 2) by nia. lia.
    + f_equal. symmetry. apply quotient_interval; [lia|].
      assert (h <> k * q + k); [|lia]. intros He. apply H0. rewrite He.
      replace (k * q + k) with ((q + 1) * k) by lia. apply Z.mod_mul. lia.
  - intros h' Hh'. rewrite (Z.max_l h') by lia.
    pose proof (quotient_interval (h' - 1) k q ltac:(lia)). lia.
Qed.

(** Slots partition the time: a timestamp lies in the slot that starts at [slot_start] and lasts
    one block time, and the number of a slot's start is the slot, as long as the start fits [u32]. *)
Theorem slot_spec t bt (Ht : in_u32 t) (Hb : 1 <= bt <= u32_max) :
  slot_start (slot_number t bt) bt <= t < slot_start (slot_number t bt) bt + bt /\
  (forall s, 0 <= s -> s * bt <= u32_max -> slot_number (slot_start s bt) bt = s) /\
  (forall t', in_u32 t' -> slot_number t' bt = slot_number t bt <->
     slot_start (slot_number t bt) bt <= t' < slot_start (slot_number t bt) bt + bt).
Proof.
  unfold slot_start, slot_number. unfold in_u32, u32_max in *.
  assert (Hid : forall x, 0 <= x <= 4294967295 -> as_u32 (as_u64 x) = x).
  { intros x Hx. unfold as_u32, as_u64. rewrite (Z.mod_small x) by lia. apply Z.mod_small. lia. }
  destruct (proj1 (quotient_interval t bt _ ltac:(lia)) eq_refl) as [Hlo Hhi].
  set (q := t / bt) in *. assert (Hq : 0 <= q) by (apply Z.div_pos; lia).
  assert (Hqb : 0 <= q * bt) by (apply Z.mul_nonneg_nonneg; lia).
  rewrite (Hid (q * bt)) by lia. split_and!; [lia|lia| |].
  - intros s Hs Hsb. rewrite Hid by (split; [apply Z.mul_nonneg_nonneg|]; lia). apply Z.div_mul. lia.
  - intros t' Ht'. pose proof (quotient_interval t' bt q ltac:(lia)). lia.
Qed.
End round.

Lemma round_info_spec_witness : (round_info 22 21).(ri_round_height) <= 22 < (round_info 22 21).(ri_round_height) + 21.
Proof. exact (proj1 (round_info_spec 22 21 ltac:(bounds; lia) ltac:(bounds; lia))). Defined.

Lemma slot_spec_witness : slot_start (slot_number 95101456 8) 8 <= 95101456 < slot_start (slot_number 95101456 8) 8 + 8.
Proof. exact (proj1 (slot_spec 95101456 8 ltac:(bounds; lia) ltac:(bounds; lia))). Defined.
