(* ===== verification/Tree.v ===== *)
(** * The tree

    The key spaces of the sled tree of [src/src/storage.rs], one finite map per key prefix.  No
    prefix is a prefix of another one, so a key of one space is never a key of another one
    ([prefixes_apart]); inside a space the key is the tuple its bytes are built from.  A value is
    what serde writes and reads back, a block is the bytes of [encode_block].  The address book
    ([ab:], written by the peer-to-peer layer) is a map of its own in [AddrBook]; the saved audit
    summary is left out. *)

From S2P Require Import Prelude Models Env Wallet Round.

(** ** Records of the store *)

(** One delegate key signed two blocks of one height. *)
Record EquivocationProof : Type := mkEquivocation {
  eq_height : Z;
  eq_public_key : string;
  eq_block_ids : string * string;
  eq_signatures : string * string;
  eq_detected_height : Z;
  eq_banned_until_round : Z
}.

Record FinalityCert : Type := mkCert {
  fc_height : Z;
  fc_block_id : string;
  fc_votes : gmap string string
}.

Record MissedSlot : Type := mkMissed {
  mi_height : Z;
  mi_slot : Z;
  mi_timestamp : Z;
  mi_public_key : string;
  mi_username : option string
}.

(** Previous wallet states touched by one block ([None]: the wallet did not exist). *)
Definition UndoRecord : Type := list (string * option WalletState).

(** Blocks that can be rolled back once undo logging is on. *)
Definition UNDO_DEPTH : Z := 1000.

(** ** Key prefixes *)

Definition PREFIXES : list string :=
  ["b:"; "bid:"; "t:"; "w:"; "wp:"; "wu:"; "tl:"; "wt:"; "lk:"; "rd:"; "ms:"; "mb:"; "ab:"; "undo:";
   "dv:"; "en:"; "eo:"; "mk:"; "tk:"; "tks:"; "to:"; "tob:"; "tos:"; "tt:"; "pqc:"; "pqk:"; "fc:";
   "eq:"; "meta:"]%string.

Lemma prefixes_apart i j p q :
  PREFIXES !! i = Some p -> PREFIXES !! j = Some q -> String.prefix p q = true -> i = j.
Proof.
  intros Hi Hj Hp.
  assert (H : forallb (fun a => forallb (fun b => negb (String.prefix a.2 b.2) || (a.1 =? b.1)%nat)
                (imap pair PREFIXES)) (imap pair PREFIXES) = true) by by vm_compute.
  rewrite forallb_forall in H.
  assert (Hin : forall k r, PREFIXES !! k = Some r -> In (k, r) (imap pair PREFIXES)).
  { intros k r Hk. apply list_elem_of_In, list_elem_of_lookup. exists k. by rewrite list_lookup_imap, Hk. }
  specialize (H _ (Hin i p Hi)). rewrite forallb_forall in H. specialize (H _ (Hin j q Hj)). cbn [fst snd] in H.
  rewrite Hp in H. cbn in H. by apply Nat.eqb_eq in H.
Qed.

(** ** The tree *)

Record Store : Type := mkStore {
  (** b: height, encoded block *)
  st_blocks : gmap Z (list byte);
  (** bid: id, height *)
  st_block_ids : gmap string Z;
  (** t: transaction id, height *)
  st_txs : gmap string Z;
  (** w: address, wallet *)
  st_wallets : gmap string WalletState;
  (** wp: public key, address *)
  st_wallet_pk : gmap string string;
  (** wu: username, address *)
  st_wallet_username : gmap string string;
  (** tl: height and sequence, id *)
  st_tx_list : gmap (Z * Z) string;
  (** wt: address, height, sequence, id *)
  st_wallet_tx : gmap (string * Z * Z) string;
  (** lk: lock id, open lock *)
  st_locks : gmap string LockRecord;
  (** rd: round, forging set *)
  st_rounds : gmap Z (list DelegateRank);
  (** ms: public key, total *)
  st_missed_total : gmap string Z;
  (** mb: height, slots *)
  st_missed_at : gmap Z (list MissedSlot);
  (** undo: height, previous wallets *)
  st_undo : gmap Z UndoRecord;
  (** dv: public key, weight *)
  st_votes : gmap string Z;
  (** en: name and type, registration id *)
  st_sobj_names : gmap string string;
  (** eo: registration id, owner *)
  st_sobj_owner : gmap string string;
  (** mk: registration id, owner *)
  st_market : gmap string string;
  (** tk: token id, owner *)
  st_token_owner : gmap string string;
  (** tks: symbol, token id *)
  st_token_symbol : gmap string string;
  (** to: order id, order *)
  st_orders : gmap string TokenOrder;
  (** tob: token id, price, order id *)
  st_book : gmap (string * Z * string) string;
  (** tos: seller, order id *)
  st_sellers : gmap (string * string) string;
  (** tt: token id, height, sequence *)
  st_trades : gmap (string * Z * Z) TokenTrade;
  (** pqc: address, algorithm *)
  st_pq_commit : gmap string Z;
  (** pqk: address, algorithm *)
  st_pq_keys : gmap string Z;
  (** fc: height, certificate *)
  st_finality : gmap Z FinalityCert;
  (** eq: public key, height *)
  st_equivocations : gmap (string * Z) EquivocationProof;
  (** meta:last_height *)
  st_last_height : option Z;
  (** meta:tx_count *)
  st_tx_count : option Z;
  (** meta:vote_index is present *)
  st_vote_index : bool
}.

(** A new database. *)
Definition store_empty : Store :=
  mkStore ∅ ∅ ∅ ∅ ∅ ∅ ∅ ∅ ∅ ∅ ∅ ∅ ∅ ∅ ∅ ∅ ∅ ∅ ∅ ∅ ∅ ∅ ∅ ∅ ∅ ∅ ∅ None None false.

(** One update function per key space. *)

Definition on_blocks (f : gmap Z (list byte) -> gmap Z (list byte)) (s : Store) : Store :=
  mkStore (f s.(st_blocks)) s.(st_block_ids) s.(st_txs) s.(st_wallets) s.(st_wallet_pk) s.(st_wallet_username)
    s.(st_tx_list) s.(st_wallet_tx) s.(st_locks) s.(st_rounds) s.(st_missed_total) s.(st_missed_at) s.(st_undo)
    s.(st_votes) s.(st_sobj_names) s.(st_sobj_owner) s.(st_market) s.(st_token_owner) s.(st_token_symbol)
    s.(st_orders) s.(st_book) s.(st_sellers) s.(st_trades) s.(st_pq_commit) s.(st_pq_keys) s.(st_finality)
    s.(st_equivocations) s.(st_last_height) s.(st_tx_count) s.(st_vote_index).

Definition on_block_ids (f : gmap string Z -> gmap string Z) (s : Store) : Store :=
  mkStore s.(st_blocks) (f s.(st_block_ids)) s.(st_txs) s.(st_wallets) s.(st_wallet_pk) s.(st_wallet_username)
    s.(st_tx_list) s.(st_wallet_tx) s.(st_locks) s.(st_rounds) s.(st_missed_total) s.(st_missed_at) s.(st_undo)
    s.(st_votes) s.(st_sobj_names) s.(st_sobj_owner) s.(st_market) s.(st_token_owner) s.(st_token_symbol)
    s.(st_orders) s.(st_book) s.(st_sellers) s.(st_trades) s.(st_pq_commit) s.(st_pq_keys) s.(st_finality)
    s.(st_equivocations) s.(st_last_height) s.(st_tx_count) s.(st_vote_index).

Definition on_txs (f : gmap string Z -> gmap string Z) (s : Store) : Store :=
  mkStore s.(st_blocks) s.(st_block_ids) (f s.(st_txs)) s.(st_wallets) s.(st_wallet_pk) s.(st_wallet_username)
    s.(st_tx_list) s.(st_wallet_tx) s.(st_locks) s.(st_rounds) s.(st_missed_total) s.(st_missed_at) s.(st_undo)
    s.(st_votes) s.(st_sobj_names) s.(st_sobj_owner) s.(st_market) s.(st_token_owner) s.(st_token_symbol)
    s.(st_orders) s.(st_book) s.(st_sellers) s.(st_trades) s.(st_pq_commit) s.(st_pq_keys) s.(st_finality)
    s.(st_equivocations) s.(st_last_height) s.(st_tx_count) s.(st_vote_index).

Definition on_wallets (f : gmap string WalletState -> gmap string WalletState) (s : Store) : Store :=
  mkStore s.(st_blocks) s.(st_block_ids) s.(st_txs) (f s.(st_wallets)) s.(st_wallet_pk) s.(st_wallet_username)
    s.(st_tx_list) s.(st_wallet_tx) s.(st_locks) s.(st_rounds) s.(st_missed_total) s.(st_missed_at) s.(st_undo)
    s.(st_votes) s.(st_sobj_names) s.(st_sobj_owner) s.(st_market) s.(st_token_owner) s.(st_token_symbol)
    s.(st_orders) s.(st_book) s.(st_sellers) s.(st_trades) s.(st_pq_commit) s.(st_pq_keys) s.(st_finality)
    s.(st_equivocations) s.(st_last_height) s.(st_tx_count) s.(st_vote_index).

Definition on_wallet_pk (f : gmap string string -> gmap string string) (s : Store) : Store :=
  mkStore s.(st_blocks) s.(st_block_ids) s.(st_txs) s.(st_wallets) (f s.(st_wallet_pk)) s.(st_wallet_username)
    s.(st_tx_list) s.(st_wallet_tx) s.(st_locks) s.(st_rounds) s.(st_missed_total) s.(st_missed_at) s.(st_undo)
    s.(st_votes) s.(st_sobj_names) s.(st_sobj_owner) s.(st_market) s.(st_token_owner) s.(st_token_symbol)
    s.(st_orders) s.(st_book) s.(st_sellers) s.(st_trades) s.(st_pq_commit) s.(st_pq_keys) s.(st_finality)
    s.(st_equivocations) s.(st_last_height) s.(st_tx_count) s.(st_vote_index).

Definition on_wallet_username (f : gmap string string -> gmap string string) (s : Store) : Store :=
  mkStore s.(st_blocks) s.(st_block_ids) s.(st_txs) s.(st_wallets) s.(st_wallet_pk) (f s.(st_wallet_username))
    s.(st_tx_list) s.(st_wallet_tx) s.(st_locks) s.(st_rounds) s.(st_missed_total) s.(st_missed_at) s.(st_undo)
    s.(st_votes) s.(st_sobj_names) s.(st_sobj_owner) s.(st_market) s.(st_token_owner) s.(st_token_symbol)
    s.(st_orders) s.(st_book) s.(st_sellers) s.(st_trades) s.(st_pq_commit) s.(st_pq_keys) s.(st_finality)
    s.(st_equivocations) s.(st_last_height) s.(st_tx_count) s.(st_vote_index).

Definition on_tx_list (f : gmap (Z * Z) string -> gmap (Z * Z) string) (s : Store) : Store :=
  mkStore s.(st_blocks) s.(st_block_ids) s.(st_txs) s.(st_wallets) s.(st_wallet_pk) s.(st_wallet_username) (f
    s.(st_tx_list)) s.(st_wallet_tx) s.(st_locks) s.(st_rounds) s.(st_missed_total) s.(st_missed_at) s.(st_undo)
    s.(st_votes) s.(st_sobj_names) s.(st_sobj_owner) s.(st_market) s.(st_token_owner) s.(st_token_symbol)
    s.(st_orders) s.(st_book) s.(st_sellers) s.(st_trades) s.(st_pq_commit) s.(st_pq_keys) s.(st_finality)
    s.(st_equivocations) s.(st_last_height) s.(st_tx_count) s.(st_vote_index).

Definition on_wallet_tx (f : gmap (string * Z * Z) string -> gmap (string * Z * Z) string) (s : Store) : Store :=
  mkStore s.(st_blocks) s.(st_block_ids) s.(st_txs) s.(st_wallets) s.(st_wallet_pk) s.(st_wallet_username)
    s.(st_tx_list) (f s.(st_wallet_tx)) s.(st_locks) s.(st_rounds) s.(st_missed_total) s.(st_missed_at) s.(st_undo)
    s.(st_votes) s.(st_sobj_names) s.(st_sobj_owner) s.(st_market) s.(st_token_owner) s.(st_token_symbol)
    s.(st_orders) s.(st_book) s.(st_sellers) s.(st_trades) s.(st_pq_commit) s.(st_pq_keys) s.(st_finality)
    s.(st_equivocations) s.(st_last_height) s.(st_tx_count) s.(st_vote_index).

Definition on_locks (f : gmap string LockRecord -> gmap string LockRecord) (s : Store) : Store :=
  mkStore s.(st_blocks) s.(st_block_ids) s.(st_txs) s.(st_wallets) s.(st_wallet_pk) s.(st_wallet_username)
    s.(st_tx_list) s.(st_wallet_tx) (f s.(st_locks)) s.(st_rounds) s.(st_missed_total) s.(st_missed_at) s.(st_undo)
    s.(st_votes) s.(st_sobj_names) s.(st_sobj_owner) s.(st_market) s.(st_token_owner) s.(st_token_symbol)
    s.(st_orders) s.(st_book) s.(st_sellers) s.(st_trades) s.(st_pq_commit) s.(st_pq_keys) s.(st_finality)
    s.(st_equivocations) s.(st_last_height) s.(st_tx_count) s.(st_vote_index).

Definition on_rounds (f : gmap Z (list DelegateRank) -> gmap Z (list DelegateRank)) (s : Store) : Store :=
  mkStore s.(st_blocks) s.(st_block_ids) s.(st_txs) s.(st_wallets) s.(st_wallet_pk) s.(st_wallet_username)
    s.(st_tx_list) s.(st_wallet_tx) s.(st_locks) (f s.(st_rounds)) s.(st_missed_total) s.(st_missed_at) s.(st_undo)
    s.(st_votes) s.(st_sobj_names) s.(st_sobj_owner) s.(st_market) s.(st_token_owner) s.(st_token_symbol)
    s.(st_orders) s.(st_book) s.(st_sellers) s.(st_trades) s.(st_pq_commit) s.(st_pq_keys) s.(st_finality)
    s.(st_equivocations) s.(st_last_height) s.(st_tx_count) s.(st_vote_index).

Definition on_missed_total (f : gmap string Z -> gmap string Z) (s : Store) : Store :=
  mkStore s.(st_blocks) s.(st_block_ids) s.(st_txs) s.(st_wallets) s.(st_wallet_pk) s.(st_wallet_username)
    s.(st_tx_list) s.(st_wallet_tx) s.(st_locks) s.(st_rounds) (f s.(st_missed_total)) s.(st_missed_at) s.(st_undo)
    s.(st_votes) s.(st_sobj_names) s.(st_sobj_owner) s.(st_market) s.(st_token_owner) s.(st_token_symbol)
    s.(st_orders) s.(st_book) s.(st_sellers) s.(st_trades) s.(st_pq_commit) s.(st_pq_keys) s.(st_finality)
    s.(st_equivocations) s.(st_last_height) s.(st_tx_count) s.(st_vote_index).

Definition on_missed_at (f : gmap Z (list MissedSlot) -> gmap Z (list MissedSlot)) (s : Store) : Store :=
  mkStore s.(st_blocks) s.(st_block_ids) s.(st_txs) s.(st_wallets) s.(st_wallet_pk) s.(st_wallet_username)
    s.(st_tx_list) s.(st_wallet_tx) s.(st_locks) s.(st_rounds) s.(st_missed_total) (f s.(st_missed_at)) s.(st_undo)
    s.(st_votes) s.(st_sobj_names) s.(st_sobj_owner) s.(st_market) s.(st_token_owner) s.(st_token_symbol)
    s.(st_orders) s.(st_book) s.(st_sellers) s.(st_trades) s.(st_pq_commit) s.(st_pq_keys) s.(st_finality)
    s.(st_equivocations) s.(st_last_height) s.(st_tx_count) s.(st_vote_index).

Definition on_undo (f : gmap Z UndoRecord -> gmap Z UndoRecord) (s : Store) : Store :=
  mkStore s.(st_blocks) s.(st_block_ids) s.(st_txs) s.(st_wallets) s.(st_wallet_pk) s.(st_wallet_username)
    s.(st_tx_list) s.(st_wallet_tx) s.(st_locks) s.(st_rounds) s.(st_missed_total) s.(st_missed_at) (f s.(st_undo))
    s.(st_votes) s.(st_sobj_names) s.(st_sobj_owner) s.(st_market) s.(st_token_owner) s.(st_token_symbol)
    s.(st_orders) s.(st_book) s.(st_sellers) s.(st_trades) s.(st_pq_commit) s.(st_pq_keys) s.(st_finality)
    s.(st_equivocations) s.(st_last_height) s.(st_tx_count) s.(st_vote_index).

Definition on_votes (f : gmap string Z -> gmap string Z) (s : Store) : Store :=
  mkStore s.(st_blocks) s.(st_block_ids) s.(st_txs) s.(st_wallets) s.(st_wallet_pk) s.(st_wallet_username)
    s.(st_tx_list) s.(st_wallet_tx) s.(st_locks) s.(st_rounds) s.(st_missed_total) s.(st_missed_at) s.(st_undo) (f
    s.(st_votes)) s.(st_sobj_names) s.(st_sobj_owner) s.(st_market) s.(st_token_owner) s.(st_token_symbol)
    s.(st_orders) s.(st_book) s.(st_sellers) s.(st_trades) s.(st_pq_commit) s.(st_pq_keys) s.(st_finality)
    s.(st_equivocations) s.(st_last_height) s.(st_tx_count) s.(st_vote_index).

Definition on_sobj_names (f : gmap string string -> gmap string string) (s : Store) : Store :=
  mkStore s.(st_blocks) s.(st_block_ids) s.(st_txs) s.(st_wallets) s.(st_wallet_pk) s.(st_wallet_username)
    s.(st_tx_list) s.(st_wallet_tx) s.(st_locks) s.(st_rounds) s.(st_missed_total) s.(st_missed_at) s.(st_undo)
    s.(st_votes) (f s.(st_sobj_names)) s.(st_sobj_owner) s.(st_market) s.(st_token_owner) s.(st_token_symbol)
    s.(st_orders) s.(st_book) s.(st_sellers) s.(st_trades) s.(st_pq_commit) s.(st_pq_keys) s.(st_finality)
    s.(st_equivocations) s.(st_last_height) s.(st_tx_count) s.(st_vote_index).

Definition on_sobj_owner (f : gmap string string -> gmap string string) (s : Store) : Store :=
  mkStore s.(st_blocks) s.(st_block_ids) s.(st_txs) s.(st_wallets) s.(st_wallet_pk) s.(st_wallet_username)
    s.(st_tx_list) s.(st_wallet_tx) s.(st_locks) s.(st_rounds) s.(st_missed_total) s.(st_missed_at) s.(st_undo)
    s.(st_votes) s.(st_sobj_names) (f s.(st_sobj_owner)) s.(st_market) s.(st_token_owner) s.(st_token_symbol)
    s.(st_orders) s.(st_book) s.(st_sellers) s.(st_trades) s.(st_pq_commit) s.(st_pq_keys) s.(st_finality)
    s.(st_equivocations) s.(st_last_height) s.(st_tx_count) s.(st_vote_index).

Definition on_market (f : gmap string string -> gmap string string) (s : Store) : Store :=
  mkStore s.(st_blocks) s.(st_block_ids) s.(st_txs) s.(st_wallets) s.(st_wallet_pk) s.(st_wallet_username)
    s.(st_tx_list) s.(st_wallet_tx) s.(st_locks) s.(st_rounds) s.(st_missed_total) s.(st_missed_at) s.(st_undo)
    s.(st_votes) s.(st_sobj_names) s.(st_sobj_owner) (f s.(st_market)) s.(st_token_owner) s.(st_token_symbol)
    s.(st_orders) s.(st_book) s.(st_sellers) s.(st_trades) s.(st_pq_commit) s.(st_pq_keys) s.(st_finality)
    s.(st_equivocations) s.(st_last_height) s.(st_tx_count) s.(st_vote_index).

Definition on_token_owner (f : gmap string string -> gmap string string) (s : Store) : Store :=
  mkStore s.(st_blocks) s.(st_block_ids) s.(st_txs) s.(st_wallets) s.(st_wallet_pk) s.(st_wallet_username)
    s.(st_tx_list) s.(st_wallet_tx) s.(st_locks) s.(st_rounds) s.(st_missed_total) s.(st_missed_at) s.(st_undo)
    s.(st_votes) s.(st_sobj_names) s.(st_sobj_owner) s.(st_market) (f s.(st_token_owner)) s.(st_token_symbol)
    s.(st_orders) s.(st_book) s.(st_sellers) s.(st_trades) s.(st_pq_commit) s.(st_pq_keys) s.(st_finality)
    s.(st_equivocations) s.(st_last_height) s.(st_tx_count) s.(st_vote_index).

Definition on_token_symbol (f : gmap string string -> gmap string string) (s : Store) : Store :=
  mkStore s.(st_blocks) s.(st_block_ids) s.(st_txs) s.(st_wallets) s.(st_wallet_pk) s.(st_wallet_username)
    s.(st_tx_list) s.(st_wallet_tx) s.(st_locks) s.(st_rounds) s.(st_missed_total) s.(st_missed_at) s.(st_undo)
    s.(st_votes) s.(st_sobj_names) s.(st_sobj_owner) s.(st_market) s.(st_token_owner) (f s.(st_token_symbol))
    s.(st_orders) s.(st_book) s.(st_sellers) s.(st_trades) s.(st_pq_commit) s.(st_pq_keys) s.(st_finality)
    s.(st_equivocations) s.(st_last_height) s.(st_tx_count) s.(st_vote_index).

Definition on_orders (f : gmap string TokenOrder -> gmap string TokenOrder) (s : Store) : Store :=
  mkStore s.(st_blocks) s.(st_block_ids) s.(st_txs) s.(st_wallets) s.(st_wallet_pk) s.(st_wallet_username)
    s.(st_tx_list) s.(st_wallet_tx) s.(st_locks) s.(st_rounds) s.(st_missed_total) s.(st_missed_at) s.(st_undo)
    s.(st_votes) s.(st_sobj_names) s.(st_sobj_owner) s.(st_market) s.(st_token_owner) s.(st_token_symbol) (f
    s.(st_orders)) s.(st_book) s.(st_sellers) s.(st_trades) s.(st_pq_commit) s.(st_pq_keys) s.(st_finality)
    s.(st_equivocations) s.(st_last_height) s.(st_tx_count) s.(st_vote_index).

Definition on_book (f : gmap (string * Z * string) string -> gmap (string * Z * string) string) (s : Store) : Store :=
  mkStore s.(st_blocks) s.(st_block_ids) s.(st_txs) s.(st_wallets) s.(st_wallet_pk) s.(st_wallet_username)
    s.(st_tx_list) s.(st_wallet_tx) s.(st_locks) s.(st_rounds) s.(st_missed_total) s.(st_missed_at) s.(st_undo)
    s.(st_votes) s.(st_sobj_names) s.(st_sobj_owner) s.(st_market) s.(st_token_owner) s.(st_token_symbol)
    s.(st_orders) (f s.(st_book)) s.(st_sellers) s.(st_trades) s.(st_pq_commit) s.(st_pq_keys) s.(st_finality)
    s.(st_equivocations) s.(st_last_height) s.(st_tx_count) s.(st_vote_index).

Definition on_sellers (f : gmap (string * string) string -> gmap (string * string) string) (s : Store) : Store :=
  mkStore s.(st_blocks) s.(st_block_ids) s.(st_txs) s.(st_wallets) s.(st_wallet_pk) s.(st_wallet_username)
    s.(st_tx_list) s.(st_wallet_tx) s.(st_locks) s.(st_rounds) s.(st_missed_total) s.(st_missed_at) s.(st_undo)
    s.(st_votes) s.(st_sobj_names) s.(st_sobj_owner) s.(st_market) s.(st_token_owner) s.(st_token_symbol)
    s.(st_orders) s.(st_book) (f s.(st_sellers)) s.(st_trades) s.(st_pq_commit) s.(st_pq_keys) s.(st_finality)
    s.(st_equivocations) s.(st_last_height) s.(st_tx_count) s.(st_vote_index).

Definition on_trades (f : gmap (string * Z * Z) TokenTrade -> gmap (string * Z * Z) TokenTrade) (s : Store) : Store :=
  mkStore s.(st_blocks) s.(st_block_ids) s.(st_txs) s.(st_wallets) s.(st_wallet_pk) s.(st_wallet_username)
    s.(st_tx_list) s.(st_wallet_tx) s.(st_locks) s.(st_rounds) s.(st_missed_total) s.(st_missed_at) s.(st_undo)
    s.(st_votes) s.(st_sobj_names) s.(st_sobj_owner) s.(st_market) s.(st_token_owner) s.(st_token_symbol)
    s.(st_orders) s.(st_book) s.(st_sellers) (f s.(st_trades)) s.(st_pq_commit) s.(st_pq_keys) s.(st_finality)
    s.(st_equivocations) s.(st_last_height) s.(st_tx_count) s.(st_vote_index).

Definition on_pq_commit (f : gmap string Z -> gmap string Z) (s : Store) : Store :=
  mkStore s.(st_blocks) s.(st_block_ids) s.(st_txs) s.(st_wallets) s.(st_wallet_pk) s.(st_wallet_username)
    s.(st_tx_list) s.(st_wallet_tx) s.(st_locks) s.(st_rounds) s.(st_missed_total) s.(st_missed_at) s.(st_undo)
    s.(st_votes) s.(st_sobj_names) s.(st_sobj_owner) s.(st_market) s.(st_token_owner) s.(st_token_symbol)
    s.(st_orders) s.(st_book) s.(st_sellers) s.(st_trades) (f s.(st_pq_commit)) s.(st_pq_keys) s.(st_finality)
    s.(st_equivocations) s.(st_last_height) s.(st_tx_count) s.(st_vote_index).

Definition on_pq_keys (f : gmap string Z -> gmap string Z) (s : Store) : Store :=
  mkStore s.(st_blocks) s.(st_block_ids) s.(st_txs) s.(st_wallets) s.(st_wallet_pk) s.(st_wallet_username)
    s.(st_tx_list) s.(st_wallet_tx) s.(st_locks) s.(st_rounds) s.(st_missed_total) s.(st_missed_at) s.(st_undo)
    s.(st_votes) s.(st_sobj_names) s.(st_sobj_owner) s.(st_market) s.(st_token_owner) s.(st_token_symbol)
    s.(st_orders) s.(st_book) s.(st_sellers) s.(st_trades) s.(st_pq_commit) (f s.(st_pq_keys)) s.(st_finality)
    s.(st_equivocations) s.(st_last_height) s.(st_tx_count) s.(st_vote_index).

Definition on_finality (f : gmap Z FinalityCert -> gmap Z FinalityCert) (s : Store) : Store :=
  mkStore s.(st_blocks) s.(st_block_ids) s.(st_txs) s.(st_wallets) s.(st_wallet_pk) s.(st_wallet_username)
    s.(st_tx_list) s.(st_wallet_tx) s.(st_locks) s.(st_rounds) s.(st_missed_total) s.(st_missed_at) s.(st_undo)
    s.(st_votes) s.(st_sobj_names) s.(st_sobj_owner) s.(st_market) s.(st_token_owner) s.(st_token_symbol)
    s.(st_orders) s.(st_book) s.(st_sellers) s.(st_trades) s.(st_pq_commit) s.(st_pq_keys) (f s.(st_finality))
    s.(st_equivocations) s.(st_last_height) s.(st_tx_count) s.(st_vote_index).

Definition on_equivocations (f : gmap (string * Z) EquivocationProof -> gmap (string * Z) EquivocationProof) (s : Store) : Store :=
  mkStore s.(st_blocks) s.(st_block_ids) s.(st_txs) s.(st_wallets) s.(st_wallet_pk) s.(st_wallet_username)
    s.(st_tx_list) s.(st_wallet_tx) s.(st_locks) s.(st_rounds) s.(st_missed_total) s.(st_missed_at) s.(st_undo)
    s.(st_votes) s.(st_sobj_names) s.(st_sobj_owner) s.(st_market) s.(st_token_owner) s.(st_token_symbol)
    s.(st_orders) s.(st_book) s.(st_sellers) s.(st_trades) s.(st_pq_commit) s.(st_pq_keys) s.(st_finality) (f
    s.(st_equivocations)) s.(st_last_height) s.(st_tx_count) s.(st_vote_index).

Definition on_last_height (f : option Z -> option Z) (s : Store) : Store :=
  mkStore s.(st_blocks) s.(st_block_ids) s.(st_txs) s.(st_wallets) s.(st_wallet_pk) s.(st_wallet_username)
    s.(st_tx_list) s.(st_wallet_tx) s.(st_locks) s.(st_rounds) s.(st_missed_total) s.(st_missed_at) s.(st_undo)
    s.(st_votes) s.(st_sobj_names) s.(st_sobj_owner) s.(st_market) s.(st_token_owner) s.(st_token_symbol)
    s.(st_orders) s.(st_book) s.(st_sellers) s.(st_trades) s.(st_pq_commit) s.(st_pq_keys) s.(st_finality)
    s.(st_equivocations) (f s.(st_last_height)) s.(st_tx_count) s.(st_vote_index).

Definition on_tx_count (f : option Z -> option Z) (s : Store) : Store :=
  mkStore s.(st_blocks) s.(st_block_ids) s.(st_txs) s.(st_wallets) s.(st_wallet_pk) s.(st_wallet_username)
    s.(st_tx_list) s.(st_wallet_tx) s.(st_locks) s.(st_rounds) s.(st_missed_total) s.(st_missed_at) s.(st_undo)
    s.(st_votes) s.(st_sobj_names) s.(st_sobj_owner) s.(st_market) s.(st_token_owner) s.(st_token_symbol)
    s.(st_orders) s.(st_book) s.(st_sellers) s.(st_trades) s.(st_pq_commit) s.(st_pq_keys) s.(st_finality)
    s.(st_equivocations) s.(st_last_height) (f s.(st_tx_count)) s.(st_vote_index).

Definition on_vote_index (f : bool -> bool) (s : Store) : Store :=
  mkStore s.(st_blocks) s.(st_block_ids) s.(st_txs) s.(st_wallets) s.(st_wallet_pk) s.(st_wallet_username)
    s.(st_tx_list) s.(st_wallet_tx) s.(st_locks) s.(st_rounds) s.(st_missed_total) s.(st_missed_at) s.(st_undo)
    s.(st_votes) s.(st_sobj_names) s.(st_sobj_owner) s.(st_market) s.(st_token_owner) s.(st_token_symbol)
    s.(st_orders) s.(st_book) s.(st_sellers) s.(st_trades) s.(st_pq_commit) s.(st_pq_keys) s.(st_finality)
    s.(st_equivocations) s.(st_last_height) s.(st_tx_count) (f s.(st_vote_index)).
