(* ===== verification/StorageFacts.v ===== *)
(** * Facts about the chain store

    What a wallet write leaves alone, what it stores, and the two derived structures consensus
    depends on: the vote index is the sum of the voters' weights, and the forging set is the top of
    the ranking. *)

From S2P Require Import Prelude Models Env Bytes Crypto Config TxCodec BlockCodec Wallet Round Tree Storage.

(** ** What an index write leaves alone *)

(** Everything but the secondary indexes of wallets, SmartObjects, tokens, orders and locks. *)
Definition core (s : Store) :=
  (s.(st_blocks), s.(st_block_ids), s.(st_txs), s.(st_wallets), s.(st_tx_list), s.(st_wallet_tx), s.(st_rounds),
   s.(st_undo), s.(st_votes), s.(st_finality), s.(st_equivocations), s.(st_last_height), s.(st_tx_count)).

(** Everything but what a wallet write touches. *)
Definition chain (s : Store) :=
  (s.(st_blocks), s.(st_block_ids), s.(st_txs), s.(st_tx_list), s.(st_wallet_tx), s.(st_rounds),
   s.(st_undo), s.(st_finality), s.(st_equivocations), s.(st_last_height), s.(st_tx_count)).

Lemma foldl_frame {A B C} (p : B -> C) (f : B -> A -> B) l s :
  (forall s x, p (f s x) = p s) -> p (foldl f s l) = p s.
Proof. intros H. revert s; induction l as [|x l IH]; intros s; cbn; [done|]. by rewrite IH, H. Qed.

Lemma core_chain s s' : core s = core s' -> chain s = chain s'.
Proof. unfold core, chain. congruence. Qed.

Lemma core_wallets s s' : core s = core s' -> s.(st_wallets) = s'.(st_wallets).
Proof. unfold core. congruence. Qed.

Lemma core_votes s s' : core s = core s' -> s.(st_votes) = s'.(st_votes).
Proof. unfold core. congruence. Qed.

Section frame.
Context `{E : Env}.

Lemma write_order_core s o : core (write_order s o) = core s.
Proof. unfold write_order. by destruct (is_open o). Qed.

Lemma write_sobj_core address s p : core (write_sobj address s p) = core s.
Proof. destruct p as [id rec]. unfold write_sobj. destruct (sd_name _), (_ && _); done. Qed.

Lemma write_indexes_core address state delta s : core (write_indexes address state delta s) = core s.
Proof.
  unfold write_indexes.
  rewrite (foldl_frame core) by done. rewrite (foldl_frame core) by (intros; apply write_order_core).
  change (core (on_sobj_owner ?f ?s)) with (core s).
  rewrite (foldl_frame core) by done. rewrite (foldl_frame core) by (intros; apply write_sobj_core).
  by destruct (ws_pq_commitment state), (ws_pq_key state).
Qed.

Lemma write_wallet_ok s a d s' w' :
  write_wallet s a d = Ok (s', w') ->
  wallet_apply (default (wallet_new a) (s.(st_wallets) !! a)) d = Ok w' /\
  s'.(st_wallets) = <[a := w']> s.(st_wallets) /\
  s'.(st_votes) = adjust_index (vote_weight (s.(st_wallets) !! a)) (vote_weight (Some w')) s.(st_votes) /\
  chain s' = chain s.
Proof.
  unfold write_wallet. intros H. apply rbind_ok_inv in H as (w & Hw & H). apply Ok_inj, pair_eq in H as [<- <-].
  pose proof (write_indexes_core a w d (on_wallets (insert a w)
    (adjust_votes (vote_weight (s.(st_wallets) !! a)) (vote_weight (Some w)) s))) as Hc.
  split; [done|]. split; [by rewrite (core_wallets _ _ Hc)|]. split; [by rewrite (core_votes _ _ Hc)|].
  by rewrite (core_chain _ _ Hc).
Qed.

(** The loop of [write_wallets_undo]: every address of the delta map is written once, from the
    state before the loop, and the undo record holds exactly those states. *)
Lemma write_wallets_loop b l s u out s' u' out' :
  NoDup l.*1 -> rfold (write_wallets_step b) l (s, u, out) = Ok (s', u', out') ->
  (forall k, k ∉ l.*1 -> s'.(st_wallets) !! k = s.(st_wallets) !! k) /\
  (forall k d, (k, d) ∈ l -> exists w', s'.(st_wallets) !! k = Some w' /\
     wallet_apply (default (wallet_new k) (s.(st_wallets) !! k)) d = Ok w') /\
  u' = (if b then u ++ ((fun p => (p.1, s.(st_wallets) !! p.1)) <$> l) else u) /\
  chain s' = chain s.
Proof.
  revert s u out; induction l as [|[a d] l IH]; intros s u out Hnd H.
  { cbn in H. apply Ok_inj in H. injection H as <- <- <-. split_and!; try done.
    - intros k d Hk. by apply not_elem_of_nil in Hk.
    - cbn. rewrite app_nil_r. by destruct b. }
  cbn [rfold fmap list_fmap] in Hnd, H. apply NoDup_cons in Hnd as [Ha Hnd].
  apply rbind_ok_inv in H as ([[s1 u1] out1] & H1 & H). unfold write_wallets_step in H1. cbn [fst snd] in H1.
  apply rbind_ok_inv in H1 as ([s2 w] & Hw & H1). apply Ok_inj in H1. injection H1 as <- <- <-.
  apply write_wallet_ok in Hw as (Hw & Hws & _ & Hc).
  pose proof (IH _ _ _ Hnd H) as (F & G & HU & HC). split_and!.
  - intros k Hk. cbn in Hk. apply not_elem_of_cons in Hk as [Hka Hk].
    by rewrite F, Hws, lookup_insert_ne by congruence.
  - intros k d' Hk. apply elem_of_cons in Hk as [[= -> ->]|Hk].
    + exists w. split; [|done]. by rewrite F, Hws, lookup_insert_eq.
    + destruct (G _ _ Hk) as (w' & Hw' & Happ). exists w'. split; [done|].
      rewrite Hws, lookup_insert_ne in Happ; [done|]. intros <-. apply Ha. by apply (list_elem_of_fmap_2 fst) in Hk.
  - rewrite HU. destruct b; [|done]. cbn. rewrite <-app_assoc. cbn. f_equal. f_equal.
    apply list_fmap_ext. intros i [k d'] Hi. cbn. rewrite Hws, lookup_insert_ne; [done|].
    intros <-. apply Ha. apply list_elem_of_lookup_2 in Hi. by apply (list_elem_of_fmap_2 fst) in Hi.
  - by rewrite HC.
Qed.

Lemma write_wallets_ok s deltas b s' u out :
  write_wallets_undo s deltas b = Ok (s', u, out) ->
  (forall k, deltas !! k = None -> s'.(st_wallets) !! k = s.(st_wallets) !! k) /\
  (forall k d, deltas !! k = Some d -> exists w', s'.(st_wallets) !! k = Some w' /\
     wallet_apply (default (wallet_new k) (s.(st_wallets) !! k)) d = Ok w') /\
  u = (if b then (fun p => (p.1, s.(st_wallets) !! p.1)) <$> bt_entries deltas else []) /\
  chain s' = chain s.
Proof.
  intros H. apply write_wallets_loop in H as (F & G & HU & HC); [|apply NoDup_bt_entries]. split_and!; try done.
  - intros k Hk. apply F. intros Hin. apply list_elem_of_fmap in Hin as ([k' d] & -> & Hin).
    apply elem_of_bt_entries in Hin. cbn in Hk. congruence.
  - intros k d Hk. apply G. by apply elem_of_bt_entries.
Qed.
End frame.

(** ** The vote index *)

Definition weight (w : WalletState) : Z := match vote_weight (Some w) with Some (_, x) => x | None => 0 end.
Definition weight_for (pk : string) (w : WalletState) : Z :=
  match vote_weight (Some w) with Some (q, x) => if decide (q = pk) then x else 0 | None => 0 end.
Definition cast (o : option (string * Z)) (pk : string) : Z :=
  match o with Some (q, x) => if decide (q = pk) then x else 0 | None => 0 end.

Definition total_weight (m : gmap string WalletState) : Z := map_sum weight m.

(** The index entry of every delegate is the sum of the weights of its voters. *)
Definition vote_index_ok (s : Store) : Prop :=
  forall pk, default 0 (s.(st_votes) !! pk) = map_sum (weight_for pk) s.(st_wallets).

Lemma weight_nonneg w : 0 <= weight w.
Proof.
  unfold weight, vote_weight. destruct (ws_vote w); [|lia]. pose proof (as_u64_range (Z.max (ws_balance w) 0 + locked_balance w)).
  bounds. lia.
Qed.

Lemma weight_for_range pk w : 0 <= weight_for pk w <= weight w.
Proof.
  pose proof (weight_nonneg w) as H. unfold weight_for, weight in *. destruct (vote_weight (Some w)) as [[q x]|]; [|lia].
  destruct (decide (q = pk)); lia.
Qed.

Lemma add_votes_lookup pk d m k :
  0 <= default 0 (m !! pk) + d <= u64_max ->
  default 0 (add_votes pk d m !! k) = default 0 (m !! k) + (if decide (pk = k) then d else 0).
Proof.
  intros H. unfold add_votes. destruct (decide (pk = k)) as [->|Hne].
  - rewrite lookup_insert_eq. cbn. rewrite as_u64_id by (bounds; lia). lia.
  - rewrite lookup_insert_ne by done. lia.
Qed.

Ltac decide_refl :=
  repeat match goal with
  | H : context [decide (?x = ?x)] |- _ => rewrite (decide_True (P := x = x)) in H by done
  end.

Lemma adjust_index_lookup before after m k :
  (forall q, 0 <= cast before q <= default 0 (m !! q)) ->
  (forall q, 0 <= cast after q) ->
  (forall q, default 0 (m !! q) - cast before q + cast after q <= u64_max) ->
  (forall q, default 0 (m !! q) <= u64_max) ->
  default 0 (adjust_index before after m !! k) = default 0 (m !! k) - cast before k + cast after k.
Proof.
  intros Hb Ha Ht Hu. unfold adjust_index. destruct (bool_decide_reflect (before = after)) as [->|Hne]; [lia|].
  destruct before as [[a wa]|], after as [[b wb]|]; [destruct (decide (a = b)) as [->|Hab]| | |done].
  - specialize (Hb b) as Hbb. specialize (Ha b). specialize (Ht b). specialize (Hu b). cbn in *.
    decide_refl. rewrite add_votes_lookup by lia. destruct (decide (b = k)); lia.
  - pose proof (Hb a) as Hba. pose proof (Ha b) as Hab'. pose proof (Ht b) as Htb. pose proof (Hu a) as Hua. cbn in *.
    decide_refl. rewrite (decide_False (P := a = b)) in Htb by done.
    assert (H1 : forall q, default 0 (add_votes a (- wa) m !! q) = default 0 (m !! q) + (if decide (a = q) then - wa else 0)).
    { intros q. apply add_votes_lookup. lia. }
    rewrite add_votes_lookup.
    + rewrite H1. destruct (decide (a = k)), (decide (b = k)); lia.
    + rewrite H1, decide_False by done. specialize (Hb b). lia.
  - pose proof (Hb a) as Hba. pose proof (Hu a) as Hua. cbn in *. decide_refl.
    rewrite add_votes_lookup by lia. destruct (decide (a = k)); lia.
  - specialize (Ha b) as Hab'. pose proof (Ht b) as Htb. pose proof (Hb b) as Hbb. cbn in *. decide_refl.
    rewrite add_votes_lookup by lia. destruct (decide (b = k)); lia.
Qed.

Lemma map_sum_alter {A} (f : A -> Z) (m : gmap string A) k (o : option A) :
  map_sum f (partial_alter (fun _ => o) k m) = map_sum f m + default 0 (f <$> o) - default 0 (f <$> m !! k).
Proof.
  destruct o as [x|].
  - change (partial_alter _ k m) with (<[k := x]> m). by rewrite map_sum_insert.
  - change (partial_alter _ k m) with (delete k m). rewrite map_sum_delete_default. cbn. lia.
Qed.

Lemma map_sum_mono {A} (f g : A -> Z) (m : gmap string A) :
  (forall x, f x <= g x) -> map_sum f m <= map_sum g m.
Proof.
  intros Hf. induction m as [|k x m Hk IH] using map_ind; [by rewrite !map_sum_empty|].
  rewrite !map_sum_insert_new by done. specialize (Hf x). lia.
Qed.

(** A map whose entries all come from one of two maps weighs no more than both. *)
Lemma map_sum_mix {A} (f : A -> Z) (m m1 m2 : gmap string A) :
  (forall x, 0 <= f x) -> (forall k x, m !! k = Some x -> m1 !! k = Some x \/ m2 !! k = Some x) ->
  map_sum f m <= map_sum f m1 + map_sum f m2.
Proof.
  intros Hf. revert m1 m2. induction m as [|k x m Hk IH] using map_ind; intros m1 m2 H.
  { rewrite map_sum_empty. pose proof (map_sum_nonneg f m1 (fun _ x _ => Hf x)). pose proof (map_sum_nonneg f m2 (fun _ x _ => Hf x)). lia. }
  rewrite map_sum_insert_new by done.
  assert (Hne : forall j y, m !! j = Some y -> k <> j /\ (m1 !! j = Some y \/ m2 !! j = Some y)).
  { intros j y Hj. assert (k <> j) by congruence. split; [done|]. apply H. by rewrite lookup_insert_ne. }
  destruct (H k x (lookup_insert_eq _ _ _)) as [Hx|Hx].
  - specialize (IH (delete k m1) m2). rewrite (map_sum_delete _ _ _ _ Hx) in IH. enough (map_sum f m <= map_sum f m1 - f x + map_sum f m2) by lia.
    apply IH. intros j y Hj. destruct (Hne j y Hj) as [? [|]]; [left; by rewrite lookup_delete_ne|by right].
  - specialize (IH m1 (delete k m2)). rewrite (map_sum_delete _ _ _ _ Hx) in IH. enough (map_sum f m <= map_sum f m1 + (map_sum f m2 - f x)) by lia.
    apply IH. intros j y Hj. destruct (Hne j y Hj) as [? [|]]; [by left|right; by rewrite lookup_delete_ne].
Qed.

Lemma cast_weight pk (o : option WalletState) : cast (vote_weight o) pk = default 0 (weight_for pk <$> o).
Proof. by destruct o. Qed.

(** One wallet replaced, created or removed, with the index adjusted, keeps the index right. *)
Lemma vote_step s s1 k (o : option WalletState) :
  vote_index_ok s ->
  s1.(st_wallets) = partial_alter (fun _ => o) k s.(st_wallets) ->
  s1.(st_votes) = adjust_index (vote_weight (s.(st_wallets) !! k)) (vote_weight o) s.(st_votes) ->
  total_weight s.(st_wallets) <= u64_max -> total_weight s1.(st_wallets) <= u64_max ->
  vote_index_ok s1.
Proof.
  intros Hok Hw Hv Ht Ht1 pk. rewrite Hv, adjust_index_lookup, Hok, !cast_weight, Hw, map_sum_alter; [lia| | | |].
  - intros q. rewrite Hok, cast_weight. destruct (s.(st_wallets) !! k) as [w|] eqn:Hk; cbn.
    + split; [apply weight_for_range|]. apply (map_sum_le_lookup _ _ k); [|done]. intros. apply weight_for_range.
    + split; [done|]. apply map_sum_nonneg. intros. apply weight_for_range.
  - intros q. rewrite cast_weight. destruct o; cbn; [apply weight_for_range|lia].
  - intros q. rewrite Hok, !cast_weight. pose proof (map_sum_alter (weight_for q) s.(st_wallets) k o) as He.
    rewrite <-Hw in He. pose proof (map_sum_mono (weight_for q) weight s1.(st_wallets) (fun w => proj2 (weight_for_range q w))).
    unfold total_weight in *. lia.
  - intros q. rewrite Hok. pose proof (map_sum_mono (weight_for q) weight s.(st_wallets) (fun w => proj2 (weight_for_range q w))).
    unfold total_weight in *. lia.
Qed.

Section votes.
Context `{E : Env}.

Lemma write_wallets_votes b m0 l s u out s' u' out' :
  NoDup l.*1 -> rfold (write_wallets_step b) l (s, u, out) = Ok (s', u', out') ->
  total_weight m0 + total_weight s'.(st_wallets) <= u64_max ->
  (forall k w, s.(st_wallets) !! k = Some w -> m0 !! k = Some w \/ s'.(st_wallets) !! k = Some w) ->
  vote_index_ok s -> vote_index_ok s'.
Proof.
  revert s u out; induction l as [|[a d] l IH]; intros s u out Hnd H Ht Hmix Hok.
  { cbn in H. apply Ok_inj in H. by injection H as <- <- <-. }
  cbn [rfold fmap list_fmap] in Hnd, H. apply NoDup_cons in Hnd as [Ha Hnd].
  apply rbind_ok_inv in H as ([[s1 u1] out1] & H1 & H). unfold write_wallets_step in H1. cbn [fst snd] in H1.
  apply rbind_ok_inv in H1 as ([s2 w] & Hw & H1). apply Ok_inj in H1. injection H1 as <- <- <-.
  apply write_wallet_ok in Hw as (Hw & Hws & Hv & _).
  pose proof (write_wallets_loop _ _ _ _ _ _ _ _ Hnd H) as (F & _ & _ & _).
  assert (Hmix2 : forall k x, s2.(st_wallets) !! k = Some x -> m0 !! k = Some x \/ s'.(st_wallets) !! k = Some x).
  { intros k x Hx. destruct (decide (k = a)) as [->|Hne]; [right; by rewrite F|].
    rewrite Hws, lookup_insert_ne in Hx by congruence. by apply Hmix. }
  pose proof (fun m H => Z.le_trans _ _ _ (map_sum_mix weight m m0 s'.(st_wallets) weight_nonneg H) Ht) as Hbound.
  eapply IH; [done|exact H|done|done|]. eapply (vote_step s s2 a (Some w)); eauto; by apply Hbound.
Qed.

Lemma write_wallets_vote_index s deltas b s' u out :
  write_wallets_undo s deltas b = Ok (s', u, out) ->
  total_weight s.(st_wallets) + total_weight s'.(st_wallets) <= u64_max ->
  vote_index_ok s -> vote_index_ok s'.
Proof. intros H Ht. eapply write_wallets_votes; eauto. apply NoDup_bt_entries. Qed.
End votes.

(** ** Rebuilding the vote index *)

Lemma zsum_perm l1 l2 : l1 ≡ₚ l2 -> zsum l1 = zsum l2.
Proof. induction 1; cbn; lia. Qed.

Lemma map_sum_entries {A} (f : A -> Z) (m : gmap string A) :
  map_sum f m = zsum (f <$> (snd <$> bt_entries m)).
Proof.
  rewrite (zsum_perm _ (f <$> (snd <$> map_to_list m))) by (by rewrite bt_entries_perm).
  induction m as [|k x m Hk IH] using map_ind; [by rewrite map_sum_empty, map_to_list_empty|].
  rewrite map_sum_insert_new by done. rewrite (zsum_perm _ (f <$> (snd <$> (k, x) :: map_to_list m))).
  - cbn. by rewrite IH.
  - by rewrite map_to_list_insert.
Qed.

Lemma count_votes_loop pk l m :
  (forall q, 0 <= default 0 (m !! q)) ->
  (forall q, default 0 (m !! q) + zsum (weight_for q <$> l) <= u64_max) ->
  default 0 (foldl count_votes m l !! pk) = default 0 (m !! pk) + zsum (weight_for pk <$> l).
Proof.
  revert m; induction l as [|w l IH]; intros m H0 Hb; cbn; [lia|].
  assert (Hnn : forall q, 0 <= zsum (weight_for q <$> l)).
  { intros q. apply zsum_nonneg, Forall_fmap, Forall_true. intros x. apply weight_for_range. }
  assert (H1 : forall q, default 0 (count_votes m w !! q) = default 0 (m !! q) + weight_for q w).
  { intros q. unfold count_votes, weight_for. pose proof (weight_nonneg w) as Hw. unfold weight in Hw.
    destruct (vote_weight (Some w)) as [[a x]|] eqn:Hv; [|lia]. destruct (decide (a = q)) as [->|Hne].
    - rewrite lookup_insert_eq. cbn. apply as_u64_id. specialize (Hb q). specialize (H0 q). specialize (Hnn q).
      cbn in Hb. unfold weight_for in Hb at 1. rewrite Hv in Hb. rewrite decide_True in Hb by done. bounds. lia.
    - rewrite lookup_insert_ne by done. lia. }
  rewrite IH, H1; [lia| |].
  - intros q. rewrite H1. specialize (H0 q). pose proof (weight_for_range q w). lia.
  - intros q. rewrite H1. specialize (Hb q). cbn in Hb. lia.
Qed.

Lemma rebuild_votes_ok s : total_weight s.(st_wallets) <= u64_max -> vote_index_ok (rebuild_vote_index s).
Proof.
  intros Ht pk. unfold rebuild_vote_index. cbn [st_votes st_wallets on_vote_index on_votes].
  rewrite count_votes_loop; [by rewrite lookup_empty, map_sum_entries| |].
  - intros q. by rewrite lookup_empty.
  - intros q. rewrite lookup_empty. cbn. rewrite <-map_sum_entries.
    pose proof (map_sum_mono (weight_for q) weight s.(st_wallets) (fun w => proj2 (weight_for_range q w))). unfold total_weight in Ht. lia.
Qed.

(** ** The forging set *)

Section ranking.
Context `{E : Env}.

(** The part of the order that does not look at public keys. *)
Definition rank_weak (x y : WalletState * Z) : Prop :=
  match x.1.(ws_resigned), y.1.(ws_resigned) with
  | false, true => True
  | true, false => False
  | _, _ => y.2 <= x.2
  end.

#[local] Instance rank_weak_trans : Transitive rank_weak.
Proof.
  intros [a va] [b vb] [c vc]. unfold rank_weak. cbn.
  destruct (ws_resigned a), (ws_resigned b), (ws_resigned c); try done; lia.
Qed.

Lemma rank_le_weak x y : rank_le x y -> rank_weak x y.
Proof.
  destruct x as [a va], y as [b vb]. unfold rank_le, rank_leb, rank_weak. cbn.
  destruct (ws_resigned a), (ws_resigned b); cbn; try done; destruct (Z.eqb_spec va vb); intros;
    try lia; by apply Z.ltb_lt, Z.lt_le_incl in H.
Qed.

#[local] Instance rank_le_total : Total rank_le.
Proof.
  intros [a va] [b vb]. unfold rank_le, rank_leb.
  destruct (ws_resigned a), (ws_resigned b); cbn; auto; rewrite (Z.eqb_sym vb va);
    (destruct (Z.eqb_spec va vb);
     [destruct (ws_public_key a), (ws_public_key b); cbn; auto; apply String.leb_total
     |rewrite !Z.ltb_lt; lia]).
Qed.

Lemma StronglySorted_sublist {A} (R : A -> A -> Prop) (l k : list A) :
  sublist k l -> StronglySorted R l -> StronglySorted R k.
Proof.
  induction 1 as [|x k l H IH|x k l H IH]; intros Hs; [done| |].
  - apply StronglySorted_inv in Hs as [Hs Hx]. constructor; [by apply IH|]. 
    rewrite Forall_forall in *. intros y Hy. apply Hx. by eapply elem_of_sublist.
  - apply StronglySorted_inv in Hs as [Hs _]. by apply IH.
Qed.

Lemma sorted_ranking s : StronglySorted rank_weak (delegate_ranking s).
Proof.
  apply Sorted_StronglySorted; [apply _|]. unfold delegate_ranking.
  assert (H := Sorted_sort_by rank_le (omap (fun p => ranked s p.2) (bt_entries s.(st_wallet_username)))).
  induction H as [|x l H IH Hx]; constructor; [done|].
  destruct Hx; constructor. by apply rank_le_weak.
Qed.

Lemma elem_of_ranking s w v :
  (w, v) ∈ delegate_ranking s <-> exists username address,
    s.(st_wallet_username) !! username = Some address /\ ranked s address = Some (w, v).
Proof.
  unfold delegate_ranking. rewrite sort_by_Permutation, list_elem_of_omap. split.
  - intros ([u a] & Hin & H). apply elem_of_bt_entries in Hin. eauto.
  - intros (u & a & Hu & H). exists (u, a). by rewrite elem_of_bt_entries.
Qed.

(** C31: the forging set is the top of the ranking. It has at most [count] entries, each of them an
    indexed delegate that has neither resigned nor been banned, with its vote weight; and an
    eligible delegate that was left out means that the set is full and that nobody in it has fewer
    votes. *)
Theorem active_delegates_top s count banned (Hc : 0 <= count) :
  let set := active_delegates_excluding s count banned in
  let delegate w v := exists username address,
    s.(st_wallet_username) !! username = Some address /\ ranked s address = Some (w, v) /\ eligible banned (w, v) in
  let entry w v := mkRank (default EmptyString w.(ws_public_key)) v in
  Z.of_nat (length set) <= count /\
  (forall r, r ∈ set -> exists w v, delegate w v /\ r = entry w v) /\
  (forall w v, delegate w v -> entry w v ∈ set \/
     Z.of_nat (length set) = count /\ forall r, r ∈ set -> v <= r.(dr_votes)).
Proof.
  cbn. unfold active_delegates_excluding. set (l := filter (eligible banned) (delegate_ranking s)).
  assert (Hl : forall w v, (w, v) ∈ l <-> eligible banned (w, v) /\ (w, v) ∈ delegate_ranking s).
  { intros w v. unfold l. by rewrite list_elem_of_filter. }
  split_and!.
  - rewrite length_fmap, length_take. lia.
  - intros r Hr. apply list_elem_of_fmap in Hr as ([w v] & -> & Hr). apply (elem_of_sublist _ l) in Hr; [|apply sublist_take].
    apply Hl in Hr as [He Hi]. apply elem_of_ranking in Hi as (u & a & Hu & Ha).
    exists w, v. split; [|done]. exists u, a. done.
  - intros w v (u & a & Hu & Ha & He).
    assert (Hin : (w, v) ∈ l) by (apply Hl; split; [done|]; apply elem_of_ranking; eauto).
    rewrite <-(take_drop (Z.to_nat count) l) in Hin. apply elem_of_app in Hin as [Hin|Hin].
    { left. apply list_elem_of_fmap. by exists (w, v). }
    right. assert (Hlen : (Z.to_nat count < length l)%nat).
    { destruct (decide (Z.to_nat count < length l)%nat); [done|]. rewrite drop_ge in Hin by lia. by apply not_elem_of_nil in Hin. }
    split; [rewrite length_fmap, length_take; lia|].
    intros r Hr. apply list_elem_of_fmap in Hr as ([w' v'] & -> & Hr). cbn.
    assert (Hs : StronglySorted rank_weak l).
    { eapply StronglySorted_sublist; [apply sublist_filter|apply sorted_ranking]. }
    rewrite <-(take_drop (Z.to_nat count) l) in Hs. pose proof (StronglySorted_app_1_elem_of _ _ _ _ _ Hs Hr Hin) as Hw.
    assert (He' : eligible banned (w', v')).
    { apply (Hl w' v'). rewrite <-(take_drop (Z.to_nat count) l). apply elem_of_app. by left. }
    destruct He as [He _], He' as [He' _]. unfold rank_weak in Hw. cbn in *. by rewrite He, He' in Hw.
Qed.
End ranking.

(** ** Properties of the vote index *)

Section properties.
Context `{E : Env}.

(** Writing any set of wallet changes keeps the vote index exact: if the index entry of every
    delegate was the sum of the weights of the wallets voting for it, it still is, as long as all
    weights before and after fit in 64 bits together. *)
Theorem vote_index_kept s deltas with_undo s' u out
    (H : write_wallets_undo s deltas with_undo = Ok (s', u, out))
    (Ht : total_weight s.(st_wallets) + total_weight s'.(st_wallets) <= u64_max)
    (Hok : vote_index_ok s) : vote_index_ok s'.
Proof. by eapply write_wallets_vote_index. Qed.

(** Rebuilding the vote index makes it exact for every delegate, so that a key nobody votes for
    counts nothing whatever stale entry it had; the migration at start-up leaves an exact index on
    every non-empty database without the marker, and always sets the marker. *)
Theorem rebuild_vote_index_exact s (Ht : total_weight s.(st_wallets) <= u64_max) :
  vote_index_ok (rebuild_vote_index s) /\
  (forall pk, (forall k w, s.(st_wallets) !! k = Some w -> w.(ws_vote) <> Some pk) ->
     delegate_votes (rebuild_vote_index s) pk = 0) /\
  (s.(st_vote_index) = false -> 0 < get_last_height s -> vote_index_ok (ensure_vote_index s)) /\
  (ensure_vote_index s).(st_vote_index) = true.
Proof.
  pose proof (rebuild_votes_ok s Ht) as Hok. split_and!; [done| | |].
  - intros pk Hpk. unfold delegate_votes. rewrite Hok, (map_sum_ext _ (fun _ => 0)).
    + change (st_wallets (rebuild_vote_index s)) with (st_wallets s).
      clear. induction s.(st_wallets) as [|k w m Hk IH] using map_ind; [by rewrite map_sum_empty|].
      by rewrite map_sum_insert_new.
    + intros k w Hw. specialize (Hpk k w Hw). unfold weight_for, vote_weight. destruct (ws_vote w); [|done].
      rewrite decide_False; congruence.
  - intros Hv Hh. unfold ensure_vote_index. rewrite Hv. by destruct (Z.ltb_spec 0 (get_last_height s)); [|lia].
  - unfold ensure_vote_index. by destruct (st_vote_index s) eqn:?, (0 <? get_last_height s).
Qed.
End properties.
