(* ===== verification/Reads.v ===== *)
(** * Listings

    The reads of [src/src/storage.rs] that walk an index: pages of blocks, the transaction index, the search for a time,
    lists of wallets, tokens, orders and objects, and the counters.  They serve the API and the audit.  A scan visits the
    keys of its space in byte order, which is the order of the tuples the keys are built from. *)

From S2P Require Import Prelude Models Env Bytes Crypto Config TxCodec BlockCodec Wallet Round Tree Storage.

(** ** Key order *)

Definition entry_le {K A} (le : K -> K -> Prop) (x y : K * A) : Prop := le x.1 y.1.
#[export] Instance entry_le_dec {K A} (le : K -> K -> Prop) `{!RelDecision le} : RelDecision (entry_le (A := A) le).
Proof. intros x y. unfold entry_le. apply _. Defined.
#[export] Instance entry_le_trans {K A} (le : K -> K -> Prop) `{!Transitive le} : Transitive (entry_le (A := A) le).
Proof. intros x y z. unfold entry_le. apply transitivity. Qed.
#[export] Instance entry_le_total {K A} (le : K -> K -> Prop) `{!Total le} : Total (entry_le (A := A) le).
Proof. intros x y. unfold entry_le. apply total. exact _. Qed.

Definition ordered {K A} `{Countable K} (le : K -> K -> Prop) `{!RelDecision le} (m : gmap K A) : list (K * A) :=
  sort_by (entry_le le) (map_to_list m).

Lemma elem_of_ordered {K A} `{Countable K} (le : K -> K -> Prop) `{!RelDecision le} (m : gmap K A) k x :
  (k, x) ∈ ordered le m <-> m !! k = Some x.
Proof. unfold ordered. rewrite sort_by_Permutation. apply elem_of_map_to_list. Qed.

Lemma ordered_sorted {K A} `{Countable K} (le : K -> K -> Prop) `{!RelDecision le, !Transitive le, !Total le} (m : gmap K A) :
  StronglySorted (entry_le le) (ordered le m).
Proof. apply StronglySorted_sort_by; apply _. Qed.

(** A height and a number inside it. *)
Definition pos_le (x y : Z * Z) : Prop := x.1 < y.1 \/ (x.1 = y.1 /\ x.2 <= y.2).
#[export] Instance pos_le_dec : RelDecision pos_le.
Proof. intros x y. unfold pos_le. apply _. Defined.
#[export] Instance pos_le_trans : Transitive pos_le.
Proof. intros [a b] [c d] [e f]. unfold pos_le; cbn. lia. Qed.
#[export] Instance pos_le_total : Total pos_le.
Proof. intros [a b] [c d]. unfold pos_le; cbn. lia. Qed.
#[export] Instance Z_le_total : Total Z.le.
Proof. intros x y. lia. Qed.

(** A price and an id behind it, as in the keys of the order book. *)
Definition ask_le (x y : Z * string) : Prop := x.1 < y.1 \/ (x.1 = y.1 /\ String.leb x.2 y.2 = true).
#[export] Instance ask_le_dec : RelDecision ask_le.
Proof. intros x y. unfold ask_le. apply _. Defined.

(** The entries of a space whose keys begin with [p]. *)
Definition under {P K A} `{Countable P, Countable K} (p : P) (m : gmap (P * K) A) : gmap K A :=
  list_to_map (omap (fun e => if decide (e.1.1 = p) then Some (e.1.2, e.2) else None) (map_to_list m)).

Section reads.
Context `{E : Env}.
Variable n : Network.
Implicit Types (s : Store).

(** ** Blocks *)

Definition page {A} (offset limit : nat) (l : list A) : list A := take limit (drop offset l).

(** Newest first. *)
Definition get_blocks s (offset limit : nat) : Res (list Block) :=
  rmapM (fun e => decode_block e.2 n) (page offset limit (rev (ordered Z.le s.(st_blocks)))).
Definition block_count s : Z := Z.of_nat (size s.(st_blocks)).
Definition first_height s : Z := default 0 (fst <$> head (ordered Z.le s.(st_blocks))).
Definition oldest_undo_height s : option Z := fst <$> head (ordered Z.le s.(st_undo)).

(** ** Transactions *)

Record TxIndexEntry : Type := mkIndexEntry { ie_height : Z; ie_seq : Z; ie_id : string }.

(** The index of the chain, or of one wallet. *)
Definition tx_index s (address : option string) : gmap (Z * Z) string :=
  match address with
  | None => s.(st_tx_list)
  | Some a => list_to_map (omap (fun e => if decide (e.1.1.1 = a) then Some ((e.1.1.2, e.1.2), e.2) else None) (map_to_list s.(st_wallet_tx)))
  end.
Definition transaction_index s (address : option string) (lo hi : Z) (ascending : bool) : list TxIndexEntry :=
  let range := List.filter (fun e => bool_decide (pos_le (lo, 0) e.1 /\ pos_le e.1 (hi, u32_max))) (ordered pos_le (tx_index s address)) in
  (fun e => mkIndexEntry e.1.1 e.1.2 e.2) <$> (if ascending then range else rev range).

Definition transaction_index_count s (address : option string) (lo hi : Z) : Z :=
  match address with
  | None => if (lo =? 0) && (hi =? u64_max) then transaction_count s else Z.of_nat (length (transaction_index s None lo hi true))
  | Some a => Z.of_nat (length (transaction_index s (Some a) lo hi true))
  end.
Definition transaction_ids s (address : option string) : list string := ie_id <$> transaction_index s address 0 u64_max false.

Definition get_transaction_with_timestamp s (id : string) : Res (option (Transaction * Z)) :=
  match s.(st_txs) !! id with
  | None => Ok None
  | Some height =>
      let? b := get_block_by_height n s height in
      Ok (match b with
          | None => None
          | Some b => (fun tx => (tx, b.(b_timestamp))) <$> List.find (has_id id) b.(b_transactions)
          end)
  end.

(** At the position of the entry when the id agrees, else wherever the id is. *)
Definition in_block (e : TxIndexEntry) (b : Block) : option (Transaction * Z) :=
  let at_seq := match b.(b_transactions) !! Z.to_nat e.(ie_seq) with
                | Some tx => if has_id e.(ie_id) tx then Some tx else None
                | None => None
                end in
  (fun tx => (tx, b.(b_timestamp))) <$> opt_or at_seq (List.find (has_id e.(ie_id)) b.(b_transactions)).

(** [cache] keeps the block decoded last. *)
Definition transaction_at s (e : TxIndexEntry) (cache : option (Z * Block)) : Res (option (Transaction * Z) * option (Z * Block)) :=
  match cache with
  | Some (h, b) =>
      if h =? e.(ie_height) then Ok (in_block e b, cache)
      else let? o := get_block_by_height n s e.(ie_height) in
           Ok (match o with Some b => (in_block e b, Some (e.(ie_height), b)) | None => (None, cache) end)
  | None =>
      let? o := get_block_by_height n s e.(ie_height) in
      Ok (match o with Some b => (in_block e b, Some (e.(ie_height), b)) | None => (None, cache) end)
  end.

(** ** The search for a time *)

(** The loop of [height_at_or_after]: the interval is halved, so 64 turns are more than an interval of [u64] takes. *)
Fixpoint search (fuel : nat) s (ts lo hi : Z) : Res (option Z) :=
  match fuel with
  | O => Ok None
  | S fuel =>
      if lo <? hi then
        let mid := lo + (hi - lo) / 2 in
        let? o := get_block_by_height n s mid in
        match o with
        | Some b => if b.(b_timestamp) <? ts then search fuel s ts (mid + 1) hi else search fuel s ts lo mid
        | None => search fuel s ts lo mid
        end
      else Ok (Some lo)
  end.
Definition SEARCH_FUEL : nat := 65.
Definition height_at_or_after s (ts : Z) : Res (option Z) :=
  search SEARCH_FUEL s ts (Z.max (first_height s) 1) (as_u64 (get_last_height s + 1)).

(** [None] inside is out of fuel, which does not happen ([height_at_or_after_found] of [ReadsFacts]). *)
Definition heights_for_timestamps s (from to : option Z) : Res (option (option (Z * Z))) :=
  let tip := get_last_height s in
  if tip =? 0 then Ok (Some None) else
  let? lo := match from with Some f => height_at_or_after s f | None => Ok (Some 1) end in
  let? hi := match to with Some t => rmap (fmap (fun h => sat_sub h 1)) (height_at_or_after s (Z.min (t + 1) u32_max)) | None => Ok (Some tip) end in
  Ok (match lo, hi with
      | Some lo, Some hi => Some (if (lo <=? hi) && (lo <=? tip) then Some (lo, Z.min hi tip) else None)
      | _, _ => None
      end).

(** ** Wallets, tokens and objects *)

Definition all_wallets s : list WalletState := snd <$> bt_entries s.(st_wallets).

(** Cheapest first, then older first. *)
Definition order_le (x y : TokenOrder) : Prop := x.(od_price) < y.(od_price) \/ (x.(od_price) = y.(od_price) /\ x.(od_height) <= y.(od_height)).
#[local] Instance order_le_dec : RelDecision order_le.
Proof. intros x y. unfold order_le. apply _. Defined.
Definition token_orders s (token_id : string) : list TokenOrder :=
  let book : gmap (Z * string) string :=
    list_to_map (omap (fun e => if decide (e.1.1.1 = token_id) then Some ((e.1.1.2, e.1.2), e.2) else None) (map_to_list s.(st_book))) in
  sort_by order_le (omap (fun e => token_order s e.2) (ordered ask_le book)).

(** Newest first. *)
Definition token_trades s (token_id : string) : list TokenTrade :=
  let trades : gmap (Z * Z) TokenTrade :=
    list_to_map (omap (fun e => if decide (e.1.1.1 = token_id) then Some ((e.1.1.2, e.1.2), e.2) else None) (map_to_list s.(st_trades))) in
  snd <$> rev (ordered pos_le trades).

Definition all_tokens s : list (string * TokenState) :=
  omap (fun e => (fun st => (e.1, st)) <$> token_state s e.1) (bt_entries s.(st_token_owner)).

(** Largest balance first, then by address. *)
Definition holder_le (x y : string * Z) : Prop := y.2 < x.2 \/ (x.2 = y.2 /\ String.leb x.1 y.1 = true).
#[local] Instance holder_le_dec : RelDecision holder_le.
Proof. intros x y. unfold holder_le. apply _. Defined.
Definition token_holders s (id : string) : list (string * Z) :=
  sort_by holder_le (omap (fun w => (fun b => (w.(ws_address), b)) <$> w.(ws_tokens) !! id) (all_wallets s)).

Definition all_sobjects s : Res (list (string * string * SmartObject)) :=
  rfold (fun out e => let? o := get_sobject n s e.2 in
                      Ok (match o with Some (owner, rec) => out ++ [(e.2, owner, rec)] | None => out end))
    (bt_entries s.(st_sobj_names)) [].

(** The index is counted to its end; an entry whose record is gone is counted but not listed. *)
Definition market_step s (offset limit : nat) (acc : list (string * string * SmartObject) * nat) (e : string * string) :=
  let '(out, total) := acc in
  let total := S total in
  if (total <=? offset)%nat || (limit <=? length out)%nat then (out, total) else
  match get_wallet s e.2 ≫= fun w => w.(ws_sobjects) !! e.1 with
  | Some rec => (out ++ [(e.1, e.2, rec)], total)
  | None => (out, total)
  end.
Definition market_orders s (offset limit : nat) : list (string * string * SmartObject) * nat :=
  foldl (market_step s offset limit) ([], 0%nat) (bt_entries s.(st_market)).

Definition open_locks s : list LockRecord := snd <$> bt_entries s.(st_locks).

(** ** Counters *)

Definition pq_commitment_count s : nat := size s.(st_pq_commit).
Definition pq_key_count s : nat := size s.(st_pq_keys).
Definition wallet_count s : nat := size s.(st_wallets).
Definition delegate_count s : nat := size s.(st_wallet_username).

Definition missed_count s (public_key : string) : Z := default 0 (s.(st_missed_total) !! public_key).
Fixpoint missed_go (limit : nat) (records : list (Z * list MissedSlot)) (out : list MissedSlot) : list MissedSlot :=
  match records with
  | [] => out
  | (_, list) :: records =>
      let out := out ++ rev list in
      if (limit <=? length out)%nat then take limit out else missed_go limit records out
  end.
Definition missed_recent s (limit : nat) : list MissedSlot := missed_go limit (rev (ordered Z.le s.(st_missed_at))) [].
Definition missed_since s : option Z := fst <$> head (ordered Z.le s.(st_missed_at)).
End reads.
