(* ===== verification/Deltas.v ===== *)
(** * What a block changes

    [Storage::accumulate_deltas] of [src/src/storage.rs]: the wallet changes of the transactions of
    a block, collected per address in a [BTreeMap<String, WalletDelta>].  The amounts of a block are
    conserved: what the deltas add to all balances together is the reward, plus what HTLC claims
    release, less what transactions lock up. *)

From S2P Require Import Prelude Models Env Bytes Crypto Config TxCodec BlockCodec Wallet Round Tree Storage.

(** ** Field updates of a delta *)

Definition dl_on_balance (f : Z -> Z) (d : WalletDelta) : WalletDelta :=
  mkDelta (f d.(dl_balance)) d.(dl_nonce) d.(dl_public_key) d.(dl_username) d.(dl_vote) d.(dl_second_public_key)
    d.(dl_produced_blocks) d.(dl_forged_fees) d.(dl_forged_rewards) d.(dl_last_block) d.(dl_resigned)
    d.(dl_locks_added) d.(dl_locks_removed) d.(dl_multi_signature) d.(dl_sobjects) d.(dl_sobjects_removed)
    d.(dl_tokens_removed) d.(dl_sobj_owner) d.(dl_pq_commitment) d.(dl_pq_key) d.(dl_tokens) d.(dl_tokens_issued)
    d.(dl_token_supply) d.(dl_token_meta) d.(dl_orders) d.(dl_trades).

Definition dl_on_nonce (f : Z -> Z) (d : WalletDelta) : WalletDelta :=
  mkDelta d.(dl_balance) (f d.(dl_nonce)) d.(dl_public_key) d.(dl_username) d.(dl_vote) d.(dl_second_public_key)
    d.(dl_produced_blocks) d.(dl_forged_fees) d.(dl_forged_rewards) d.(dl_last_block) d.(dl_resigned)
    d.(dl_locks_added) d.(dl_locks_removed) d.(dl_multi_signature) d.(dl_sobjects) d.(dl_sobjects_removed)
    d.(dl_tokens_removed) d.(dl_sobj_owner) d.(dl_pq_commitment) d.(dl_pq_key) d.(dl_tokens) d.(dl_tokens_issued)
    d.(dl_token_supply) d.(dl_token_meta) d.(dl_orders) d.(dl_trades).

Definition dl_on_public_key (f : option string -> option string) (d : WalletDelta) : WalletDelta :=
  mkDelta d.(dl_balance) d.(dl_nonce) (f d.(dl_public_key)) d.(dl_username) d.(dl_vote) d.(dl_second_public_key)
    d.(dl_produced_blocks) d.(dl_forged_fees) d.(dl_forged_rewards) d.(dl_last_block) d.(dl_resigned)
    d.(dl_locks_added) d.(dl_locks_removed) d.(dl_multi_signature) d.(dl_sobjects) d.(dl_sobjects_removed)
    d.(dl_tokens_removed) d.(dl_sobj_owner) d.(dl_pq_commitment) d.(dl_pq_key) d.(dl_tokens) d.(dl_tokens_issued)
    d.(dl_token_supply) d.(dl_token_meta) d.(dl_orders) d.(dl_trades).

Definition dl_on_username (f : option string -> option string) (d : WalletDelta) : WalletDelta :=
  mkDelta d.(dl_balance) d.(dl_nonce) d.(dl_public_key) (f d.(dl_username)) d.(dl_vote) d.(dl_second_public_key)
    d.(dl_produced_blocks) d.(dl_forged_fees) d.(dl_forged_rewards) d.(dl_last_block) d.(dl_resigned)
    d.(dl_locks_added) d.(dl_locks_removed) d.(dl_multi_signature) d.(dl_sobjects) d.(dl_sobjects_removed)
    d.(dl_tokens_removed) d.(dl_sobj_owner) d.(dl_pq_commitment) d.(dl_pq_key) d.(dl_tokens) d.(dl_tokens_issued)
    d.(dl_token_supply) d.(dl_token_meta) d.(dl_orders) d.(dl_trades).

Definition dl_on_vote (f : option (option string) -> option (option string)) (d : WalletDelta) : WalletDelta :=
  mkDelta d.(dl_balance) d.(dl_nonce) d.(dl_public_key) d.(dl_username) (f d.(dl_vote)) d.(dl_second_public_key)
    d.(dl_produced_blocks) d.(dl_forged_fees) d.(dl_forged_rewards) d.(dl_last_block) d.(dl_resigned)
    d.(dl_locks_added) d.(dl_locks_removed) d.(dl_multi_signature) d.(dl_sobjects) d.(dl_sobjects_removed)
    d.(dl_tokens_removed) d.(dl_sobj_owner) d.(dl_pq_commitment) d.(dl_pq_key) d.(dl_tokens) d.(dl_tokens_issued)
    d.(dl_token_supply) d.(dl_token_meta) d.(dl_orders) d.(dl_trades).

Definition dl_on_second_public_key (f : option string -> option string) (d : WalletDelta) : WalletDelta :=
  mkDelta d.(dl_balance) d.(dl_nonce) d.(dl_public_key) d.(dl_username) d.(dl_vote) (f d.(dl_second_public_key))
    d.(dl_produced_blocks) d.(dl_forged_fees) d.(dl_forged_rewards) d.(dl_last_block) d.(dl_resigned)
    d.(dl_locks_added) d.(dl_locks_removed) d.(dl_multi_signature) d.(dl_sobjects) d.(dl_sobjects_removed)
    d.(dl_tokens_removed) d.(dl_sobj_owner) d.(dl_pq_commitment) d.(dl_pq_key) d.(dl_tokens) d.(dl_tokens_issued)
    d.(dl_token_supply) d.(dl_token_meta) d.(dl_orders) d.(dl_trades).

Definition dl_on_produced_blocks (f : Z -> Z) (d : WalletDelta) : WalletDelta :=
  mkDelta d.(dl_balance) d.(dl_nonce) d.(dl_public_key) d.(dl_username) d.(dl_vote) d.(dl_second_public_key) (f
    d.(dl_produced_blocks)) d.(dl_forged_fees) d.(dl_forged_rewards) d.(dl_last_block) d.(dl_resigned)
    d.(dl_locks_added) d.(dl_locks_removed) d.(dl_multi_signature) d.(dl_sobjects) d.(dl_sobjects_removed)
    d.(dl_tokens_removed) d.(dl_sobj_owner) d.(dl_pq_commitment) d.(dl_pq_key) d.(dl_tokens) d.(dl_tokens_issued)
    d.(dl_token_supply) d.(dl_token_meta) d.(dl_orders) d.(dl_trades).

Definition dl_on_forged_fees (f : Z -> Z) (d : WalletDelta) : WalletDelta :=
  mkDelta d.(dl_balance) d.(dl_nonce) d.(dl_public_key) d.(dl_username) d.(dl_vote) d.(dl_second_public_key)
    d.(dl_produced_blocks) (f d.(dl_forged_fees)) d.(dl_forged_rewards) d.(dl_last_block) d.(dl_resigned)
    d.(dl_locks_added) d.(dl_locks_removed) d.(dl_multi_signature) d.(dl_sobjects) d.(dl_sobjects_removed)
    d.(dl_tokens_removed) d.(dl_sobj_owner) d.(dl_pq_commitment) d.(dl_pq_key) d.(dl_tokens) d.(dl_tokens_issued)
    d.(dl_token_supply) d.(dl_token_meta) d.(dl_orders) d.(dl_trades).

Definition dl_on_forged_rewards (f : Z -> Z) (d : WalletDelta) : WalletDelta :=
  mkDelta d.(dl_balance) d.(dl_nonce) d.(dl_public_key) d.(dl_username) d.(dl_vote) d.(dl_second_public_key)
    d.(dl_produced_blocks) d.(dl_forged_fees) (f d.(dl_forged_rewards)) d.(dl_last_block) d.(dl_resigned)
    d.(dl_locks_added) d.(dl_locks_removed) d.(dl_multi_signature) d.(dl_sobjects) d.(dl_sobjects_removed)
    d.(dl_tokens_removed) d.(dl_sobj_owner) d.(dl_pq_commitment) d.(dl_pq_key) d.(dl_tokens) d.(dl_tokens_issued)
    d.(dl_token_supply) d.(dl_token_meta) d.(dl_orders) d.(dl_trades).

Definition dl_on_last_block (f : option LastBlock -> option LastBlock) (d : WalletDelta) : WalletDelta :=
  mkDelta d.(dl_balance) d.(dl_nonce) d.(dl_public_key) d.(dl_username) d.(dl_vote) d.(dl_second_public_key)
    d.(dl_produced_blocks) d.(dl_forged_fees) d.(dl_forged_rewards) (f d.(dl_last_block)) d.(dl_resigned)
    d.(dl_locks_added) d.(dl_locks_removed) d.(dl_multi_signature) d.(dl_sobjects) d.(dl_sobjects_removed)
    d.(dl_tokens_removed) d.(dl_sobj_owner) d.(dl_pq_commitment) d.(dl_pq_key) d.(dl_tokens) d.(dl_tokens_issued)
    d.(dl_token_supply) d.(dl_token_meta) d.(dl_orders) d.(dl_trades).

Definition dl_on_resigned (f : bool -> bool) (d : WalletDelta) : WalletDelta :=
  mkDelta d.(dl_balance) d.(dl_nonce) d.(dl_public_key) d.(dl_username) d.(dl_vote) d.(dl_second_public_key)
    d.(dl_produced_blocks) d.(dl_forged_fees) d.(dl_forged_rewards) d.(dl_last_block) (f d.(dl_resigned))
    d.(dl_locks_added) d.(dl_locks_removed) d.(dl_multi_signature) d.(dl_sobjects) d.(dl_sobjects_removed)
    d.(dl_tokens_removed) d.(dl_sobj_owner) d.(dl_pq_commitment) d.(dl_pq_key) d.(dl_tokens) d.(dl_tokens_issued)
    d.(dl_token_supply) d.(dl_token_meta) d.(dl_orders) d.(dl_trades).

Definition dl_on_locks_added (f : list LockRecord -> list LockRecord) (d : WalletDelta) : WalletDelta :=
  mkDelta d.(dl_balance) d.(dl_nonce) d.(dl_public_key) d.(dl_username) d.(dl_vote) d.(dl_second_public_key)
    d.(dl_produced_blocks) d.(dl_forged_fees) d.(dl_forged_rewards) d.(dl_last_block) d.(dl_resigned) (f
    d.(dl_locks_added)) d.(dl_locks_removed) d.(dl_multi_signature) d.(dl_sobjects) d.(dl_sobjects_removed)
    d.(dl_tokens_removed) d.(dl_sobj_owner) d.(dl_pq_commitment) d.(dl_pq_key) d.(dl_tokens) d.(dl_tokens_issued)
    d.(dl_token_supply) d.(dl_token_meta) d.(dl_orders) d.(dl_trades).

Definition dl_on_locks_removed (f : list string -> list string) (d : WalletDelta) : WalletDelta :=
  mkDelta d.(dl_balance) d.(dl_nonce) d.(dl_public_key) d.(dl_username) d.(dl_vote) d.(dl_second_public_key)
    d.(dl_produced_blocks) d.(dl_forged_fees) d.(dl_forged_rewards) d.(dl_last_block) d.(dl_resigned)
    d.(dl_locks_added) (f d.(dl_locks_removed)) d.(dl_multi_signature) d.(dl_sobjects) d.(dl_sobjects_removed)
    d.(dl_tokens_removed) d.(dl_sobj_owner) d.(dl_pq_commitment) d.(dl_pq_key) d.(dl_tokens) d.(dl_tokens_issued)
    d.(dl_token_supply) d.(dl_token_meta) d.(dl_orders) d.(dl_trades).

Definition dl_on_multi_signature (f : option MultiSignatureAsset -> option MultiSignatureAsset) (d : WalletDelta) : WalletDelta :=
  mkDelta d.(dl_balance) d.(dl_nonce) d.(dl_public_key) d.(dl_username) d.(dl_vote) d.(dl_second_public_key)
    d.(dl_produced_blocks) d.(dl_forged_fees) d.(dl_forged_rewards) d.(dl_last_block) d.(dl_resigned)
    d.(dl_locks_added) d.(dl_locks_removed) (f d.(dl_multi_signature)) d.(dl_sobjects) d.(dl_sobjects_removed)
    d.(dl_tokens_removed) d.(dl_sobj_owner) d.(dl_pq_commitment) d.(dl_pq_key) d.(dl_tokens) d.(dl_tokens_issued)
    d.(dl_token_supply) d.(dl_token_meta) d.(dl_orders) d.(dl_trades).

Definition dl_on_sobjects (f : list (string * SmartObject) -> list (string * SmartObject)) (d : WalletDelta) : WalletDelta :=
  mkDelta d.(dl_balance) d.(dl_nonce) d.(dl_public_key) d.(dl_username) d.(dl_vote) d.(dl_second_public_key)
    d.(dl_produced_blocks) d.(dl_forged_fees) d.(dl_forged_rewards) d.(dl_last_block) d.(dl_resigned)
    d.(dl_locks_added) d.(dl_locks_removed) d.(dl_multi_signature) (f d.(dl_sobjects)) d.(dl_sobjects_removed)
    d.(dl_tokens_removed) d.(dl_sobj_owner) d.(dl_pq_commitment) d.(dl_pq_key) d.(dl_tokens) d.(dl_tokens_issued)
    d.(dl_token_supply) d.(dl_token_meta) d.(dl_orders) d.(dl_trades).

Definition dl_on_sobjects_removed (f : list string -> list string) (d : WalletDelta) : WalletDelta :=
  mkDelta d.(dl_balance) d.(dl_nonce) d.(dl_public_key) d.(dl_username) d.(dl_vote) d.(dl_second_public_key)
    d.(dl_produced_blocks) d.(dl_forged_fees) d.(dl_forged_rewards) d.(dl_last_block) d.(dl_resigned)
    d.(dl_locks_added) d.(dl_locks_removed) d.(dl_multi_signature) d.(dl_sobjects) (f d.(dl_sobjects_removed))
    d.(dl_tokens_removed) d.(dl_sobj_owner) d.(dl_pq_commitment) d.(dl_pq_key) d.(dl_tokens) d.(dl_tokens_issued)
    d.(dl_token_supply) d.(dl_token_meta) d.(dl_orders) d.(dl_trades).

Definition dl_on_tokens_removed (f : list string -> list string) (d : WalletDelta) : WalletDelta :=
  mkDelta d.(dl_balance) d.(dl_nonce) d.(dl_public_key) d.(dl_username) d.(dl_vote) d.(dl_second_public_key)
    d.(dl_produced_blocks) d.(dl_forged_fees) d.(dl_forged_rewards) d.(dl_last_block) d.(dl_resigned)
    d.(dl_locks_added) d.(dl_locks_removed) d.(dl_multi_signature) d.(dl_sobjects) d.(dl_sobjects_removed) (f
    d.(dl_tokens_removed)) d.(dl_sobj_owner) d.(dl_pq_commitment) d.(dl_pq_key) d.(dl_tokens) d.(dl_tokens_issued)
    d.(dl_token_supply) d.(dl_token_meta) d.(dl_orders) d.(dl_trades).

Definition dl_on_sobj_owner (f : list (string * string) -> list (string * string)) (d : WalletDelta) : WalletDelta :=
  mkDelta d.(dl_balance) d.(dl_nonce) d.(dl_public_key) d.(dl_username) d.(dl_vote) d.(dl_second_public_key)
    d.(dl_produced_blocks) d.(dl_forged_fees) d.(dl_forged_rewards) d.(dl_last_block) d.(dl_resigned)
    d.(dl_locks_added) d.(dl_locks_removed) d.(dl_multi_signature) d.(dl_sobjects) d.(dl_sobjects_removed)
    d.(dl_tokens_removed) (f d.(dl_sobj_owner)) d.(dl_pq_commitment) d.(dl_pq_key) d.(dl_tokens) d.(dl_tokens_issued)
    d.(dl_token_supply) d.(dl_token_meta) d.(dl_orders) d.(dl_trades).

Definition dl_on_pq_commitment (f : option PqCommitment -> option PqCommitment) (d : WalletDelta) : WalletDelta :=
  mkDelta d.(dl_balance) d.(dl_nonce) d.(dl_public_key) d.(dl_username) d.(dl_vote) d.(dl_second_public_key)
    d.(dl_produced_blocks) d.(dl_forged_fees) d.(dl_forged_rewards) d.(dl_last_block) d.(dl_resigned)
    d.(dl_locks_added) d.(dl_locks_removed) d.(dl_multi_signature) d.(dl_sobjects) d.(dl_sobjects_removed)
    d.(dl_tokens_removed) d.(dl_sobj_owner) (f d.(dl_pq_commitment)) d.(dl_pq_key) d.(dl_tokens) d.(dl_tokens_issued)
    d.(dl_token_supply) d.(dl_token_meta) d.(dl_orders) d.(dl_trades).

Definition dl_on_pq_key (f : option PqKey -> option PqKey) (d : WalletDelta) : WalletDelta :=
  mkDelta d.(dl_balance) d.(dl_nonce) d.(dl_public_key) d.(dl_username) d.(dl_vote) d.(dl_second_public_key)
    d.(dl_produced_blocks) d.(dl_forged_fees) d.(dl_forged_rewards) d.(dl_last_block) d.(dl_resigned)
    d.(dl_locks_added) d.(dl_locks_removed) d.(dl_multi_signature) d.(dl_sobjects) d.(dl_sobjects_removed)
    d.(dl_tokens_removed) d.(dl_sobj_owner) d.(dl_pq_commitment) (f d.(dl_pq_key)) d.(dl_tokens) d.(dl_tokens_issued)
    d.(dl_token_supply) d.(dl_token_meta) d.(dl_orders) d.(dl_trades).

Definition dl_on_tokens (f : gmap string Z -> gmap string Z) (d : WalletDelta) : WalletDelta :=
  mkDelta d.(dl_balance) d.(dl_nonce) d.(dl_public_key) d.(dl_username) d.(dl_vote) d.(dl_second_public_key)
    d.(dl_produced_blocks) d.(dl_forged_fees) d.(dl_forged_rewards) d.(dl_last_block) d.(dl_resigned)
    d.(dl_locks_added) d.(dl_locks_removed) d.(dl_multi_signature) d.(dl_sobjects) d.(dl_sobjects_removed)
    d.(dl_tokens_removed) d.(dl_sobj_owner) d.(dl_pq_commitment) d.(dl_pq_key) (f d.(dl_tokens)) d.(dl_tokens_issued)
    d.(dl_token_supply) d.(dl_token_meta) d.(dl_orders) d.(dl_trades).

Definition dl_on_tokens_issued (f : list (string * TokenState) -> list (string * TokenState)) (d : WalletDelta) : WalletDelta :=
  mkDelta d.(dl_balance) d.(dl_nonce) d.(dl_public_key) d.(dl_username) d.(dl_vote) d.(dl_second_public_key)
    d.(dl_produced_blocks) d.(dl_forged_fees) d.(dl_forged_rewards) d.(dl_last_block) d.(dl_resigned)
    d.(dl_locks_added) d.(dl_locks_removed) d.(dl_multi_signature) d.(dl_sobjects) d.(dl_sobjects_removed)
    d.(dl_tokens_removed) d.(dl_sobj_owner) d.(dl_pq_commitment) d.(dl_pq_key) d.(dl_tokens) (f d.(dl_tokens_issued))
    d.(dl_token_supply) d.(dl_token_meta) d.(dl_orders) d.(dl_trades).

Definition dl_on_token_supply (f : gmap string Z -> gmap string Z) (d : WalletDelta) : WalletDelta :=
  mkDelta d.(dl_balance) d.(dl_nonce) d.(dl_public_key) d.(dl_username) d.(dl_vote) d.(dl_second_public_key)
    d.(dl_produced_blocks) d.(dl_forged_fees) d.(dl_forged_rewards) d.(dl_last_block) d.(dl_resigned)
    d.(dl_locks_added) d.(dl_locks_removed) d.(dl_multi_signature) d.(dl_sobjects) d.(dl_sobjects_removed)
    d.(dl_tokens_removed) d.(dl_sobj_owner) d.(dl_pq_commitment) d.(dl_pq_key) d.(dl_tokens) d.(dl_tokens_issued) (f
    d.(dl_token_supply)) d.(dl_token_meta) d.(dl_orders) d.(dl_trades).

Definition dl_on_token_meta (f : list (string * TokenMeta) -> list (string * TokenMeta)) (d : WalletDelta) : WalletDelta :=
  mkDelta d.(dl_balance) d.(dl_nonce) d.(dl_public_key) d.(dl_username) d.(dl_vote) d.(dl_second_public_key)
    d.(dl_produced_blocks) d.(dl_forged_fees) d.(dl_forged_rewards) d.(dl_last_block) d.(dl_resigned)
    d.(dl_locks_added) d.(dl_locks_removed) d.(dl_multi_signature) d.(dl_sobjects) d.(dl_sobjects_removed)
    d.(dl_tokens_removed) d.(dl_sobj_owner) d.(dl_pq_commitment) d.(dl_pq_key) d.(dl_tokens) d.(dl_tokens_issued)
    d.(dl_token_supply) (f d.(dl_token_meta)) d.(dl_orders) d.(dl_trades).

Definition dl_on_orders (f : gmap string TokenOrder -> gmap string TokenOrder) (d : WalletDelta) : WalletDelta :=
  mkDelta d.(dl_balance) d.(dl_nonce) d.(dl_public_key) d.(dl_username) d.(dl_vote) d.(dl_second_public_key)
    d.(dl_produced_blocks) d.(dl_forged_fees) d.(dl_forged_rewards) d.(dl_last_block) d.(dl_resigned)
    d.(dl_locks_added) d.(dl_locks_removed) d.(dl_multi_signature) d.(dl_sobjects) d.(dl_sobjects_removed)
    d.(dl_tokens_removed) d.(dl_sobj_owner) d.(dl_pq_commitment) d.(dl_pq_key) d.(dl_tokens) d.(dl_tokens_issued)
    d.(dl_token_supply) d.(dl_token_meta) (f d.(dl_orders)) d.(dl_trades).

Definition dl_on_trades (f : list TokenTrade -> list TokenTrade) (d : WalletDelta) : WalletDelta :=
  mkDelta d.(dl_balance) d.(dl_nonce) d.(dl_public_key) d.(dl_username) d.(dl_vote) d.(dl_second_public_key)
    d.(dl_produced_blocks) d.(dl_forged_fees) d.(dl_forged_rewards) d.(dl_last_block) d.(dl_resigned)
    d.(dl_locks_added) d.(dl_locks_removed) d.(dl_multi_signature) d.(dl_sobjects) d.(dl_sobjects_removed)
    d.(dl_tokens_removed) d.(dl_sobj_owner) d.(dl_pq_commitment) d.(dl_pq_key) d.(dl_tokens) d.(dl_tokens_issued)
    d.(dl_token_supply) d.(dl_token_meta) d.(dl_orders) (f d.(dl_trades)).
Definition ts_set_owner (v : string) (s : TokenState) : TokenState :=
  mkTokenState s.(ts_symbol) s.(ts_decimals) s.(ts_flags) s.(ts_supply) s.(ts_supply_cap) v s.(ts_init_height) s.(ts_meta).
Definition so_set_price (v : option Z) (r : SmartObject) : SmartObject :=
  mkSobj r.(so_type_) r.(so_sub_type) r.(so_data) r.(so_resigned) v.
Definition so_set_resigned (v : bool) (r : SmartObject) : SmartObject :=
  mkSobj r.(so_type_) r.(so_sub_type) r.(so_data) v r.(so_price).
Definition so_set_ntfry (v : option string) (r : SmartObject) : SmartObject :=
  mkSobj r.(so_type_) r.(so_sub_type) (mkSobjData r.(so_data).(sd_name) v) r.(so_resigned) r.(so_price).
Definition od_fill (amount height : Z) (tx_id : string) (o : TokenOrder) : TokenOrder :=
  let filled := as_u64 (o.(od_filled) + amount) in
  mkOrder o.(od_id) o.(od_token_id) o.(od_seller) o.(od_amount) filled o.(od_price) o.(od_height)
    (if o.(od_amount) <=? filled then Some height else o.(od_closed)) (o.(od_fills) ++ [tx_id]).
Definition od_close (height : option Z) (o : TokenOrder) : TokenOrder :=
  mkOrder o.(od_id) o.(od_token_id) o.(od_seller) o.(od_amount) o.(od_filled) o.(od_price) o.(od_height) height o.(od_fills).

(** ** The map of deltas *)

Abbreviation Deltas := (gmap string WalletDelta).

(** [deltas.entry(a).or_default()] with a change. *)
Definition entry (a : string) (f : WalletDelta -> WalletDelta) (ds : Deltas) : Deltas :=
  <[a := f (default delta_default (ds !! a))]> ds.

Definition credit (a : string) (x : Z) : Deltas -> Deltas := entry a (dl_on_balance (fun b => b + x)).
Definition add_in (id : string) (x : Z) (m : gmap string Z) : gmap string Z := <[id := default 0 (m !! id) + x]> m.
Definition credit_token (a id : string) (x : Z) : Deltas -> Deltas := entry a (dl_on_tokens (add_in id x)).
Definition add_supply (a id : string) (x : Z) : Deltas -> Deltas := entry a (dl_on_token_supply (add_in id x)).

(** [.iter().rev().find(|(k, _)| *k == id)]. *)
Definition last_of {A} (id : string) (l : list (string * A)) : option A :=
  snd <$> List.find (fun p => bool_decide (p.1 = id)) (rev l).
Definition holds_key {A} (id : string) (l : list (string * A)) : bool :=
  existsb (fun p => bool_decide (p.1 = id)) l.
(** [.retain(|(k, _)| *k != id)]. *)
Definition drop_key {A} (id : string) (l : list (string * A)) : list (string * A) :=
  filter (fun p => p.1 <> id) l.

(** [deltas.iter().find(..)]: the first address in key order. *)
Definition find_delta (f : WalletDelta -> bool) (ds : Deltas) : option string :=
  fst <$> List.find (fun p => f p.2) (bt_entries ds).

Section deltas.
Context `{E : Env}.
Variables (n : Network) (s : Store).
Implicit Types (ds : Deltas) (tx : Transaction) (block : Block).

Definition wallet_sobject (owner id : string) : option SmartObject :=
  match get_wallet s owner with Some w => w.(ws_sobjects) !! id | None => None end.
Definition delta_sobject ds (owner id : string) : option SmartObject :=
  match ds !! owner with Some d => last_of id d.(dl_sobjects) | None => None end.
(** Pending record of this block, else the stored one. *)
Definition current_sobject ds (owner id : string) : option SmartObject :=
  opt_or (delta_sobject ds owner id) (wallet_sobject owner id).

(** ** SmartObjects *)

(** The object and its token leave [from] and arrive at [to]. *)
Definition hand_over ds (from to reg_id : string) (rec : SmartObject) : Deltas :=
  let token := opt_or (match ds !! from with Some d => last_of reg_id d.(dl_tokens_issued) | None => None end)
                 (token_state s reg_id) in
  let ds := entry from (fun d =>
    let d := dl_on_sobjects (drop_key reg_id) d in
    let d := dl_on_tokens_issued (drop_key reg_id) d in
    let d := dl_on_sobj_owner (drop_key reg_id) d in
    let d := dl_on_sobjects_removed (fun l => l ++ [reg_id]) d in
    if bool_decide (is_Some token) then dl_on_tokens_removed (fun l => l ++ [reg_id]) d else d) ds in
  entry to (fun d =>
    let d := dl_on_sobjects (fun l => l ++ [(reg_id, so_set_price None rec)]) d in
    let d := dl_on_sobj_owner (fun l => l ++ [(reg_id, to)]) d in
    match token with
    | Some st => dl_on_tokens_issued (fun l => l ++ [(reg_id, ts_set_owner to st)]) d
    | None => d
    end) ds.

(** Transfer or sale of an object. *)
Definition move_sobj ds (sender : string) (e : SmartObjectAsset) : Deltas :=
  match e.(sa_registration_id) with
  | None => ds
  | Some reg_id =>
      let buy := e.(sa_action) =? sobj.ACTION_BUY in
      let pending_owner := find_delta (fun d => holds_key reg_id d.(dl_sobjects)) ds in
      let parties :=
        if buy then
          match opt_or pending_owner (match res_ok (get_sobject n s reg_id) with Some (Some (o, _)) => Some o | _ => None end) with
          | Some owner => Some (owner, sender)
          | None => None
          end
        else match e.(sa_recipient_id) with Some to => Some (sender, to) | None => None end in
      match parties with
      | None => ds
      | Some (from, to) =>
          match current_sobject ds from reg_id with
          | None => ds
          | Some rec =>
              let price := default 0 rec.(so_price) in
              let ds := if buy then credit from price (credit sender (- price) ds) else ds in
              hand_over ds from to reg_id rec
          end
      end
  end.

(** Registration, update, offer or resignation: a new version of the record at the sender. *)
Definition change_sobj ds (sender id : string) (e : SmartObjectAsset) : Deltas :=
  let record :=
    if e.(sa_action) =? sobj.ACTION_REGISTER then
      Some (id, mkSobj e.(sa_type_) e.(sa_sub_type) e.(sa_data) false None)
    else
      match e.(sa_registration_id) with
      | None => None
      | Some reg_id =>
          match current_sobject ds sender reg_id with
          | None => None
          | Some rec =>
              Some (reg_id,
                if e.(sa_action) =? sobj.ACTION_UPDATE then so_set_ntfry e.(sa_data).(sd_ntfry_data) rec
                else if e.(sa_action) =? sobj.ACTION_SELL
                then so_set_price (match e.(sa_price) with Some p => if 0 <? p then Some p else None | None => None end) rec
                else so_set_resigned true rec)
          end
      end in
  match record with
  | None => ds
  | Some r => entry sender (dl_on_sobjects (fun l => l ++ [r])) ds
  end.

Definition sobj_deltas ds (sender : string) (tx : Transaction) (e : SmartObjectAsset) : Deltas :=
  match tx.(tx_id) with
  | None => ds
  | Some id =>
      if (e.(sa_action) =? sobj.ACTION_TRANSFER) || (e.(sa_action) =? sobj.ACTION_BUY)
      then move_sobj ds sender e
      else change_sobj ds sender id e
  end.

(** ** Tokens *)

Definition token_init ds (sender : string) (height : Z) (a : TokenAsset) : Res Deltas :=
  let? so := get_sobject n s a.(ta_id) in
  let symbol := default EmptyString (match so with Some (_, rec) => rec.(so_data).(sd_name) | None => None end) in
  let init := default 0 a.(ta_initial_supply) in
  let st := mkTokenState symbol (default 0 a.(ta_decimals)) (default 0 a.(ta_flags)) init (default 0 a.(ta_supply_cap))
              sender height None in
  Ok (entry sender (fun d => dl_on_tokens (add_in a.(ta_id) init) (dl_on_tokens_issued (fun l => l ++ [(a.(ta_id), st)]) d)) ds).

Definition token_transfer ds (sender : string) (a : TokenAsset) : Deltas :=
  foldl (fun ds it => credit_token it.(ti_recipient_id) a.(ta_id) it.(ti_amount)
                        (credit_token sender a.(ta_id) (- it.(ti_amount)) ds))
    ds (default [] a.(ta_transfers)).

Definition token_sell ds (sender : string) (height : Z) tx (a : TokenAsset) : Deltas :=
  let id := default EmptyString tx.(tx_id) in
  let amount := default 0 a.(ta_amount) in
  entry sender (fun d =>
    dl_on_orders (insert id (mkOrder id a.(ta_id) sender amount 0 (default 0 a.(ta_price)) height None []))
      (dl_on_tokens (add_in a.(ta_id) (- amount)) d)) ds.

(** An order as this block left it, else as stored. *)
Definition current_order ds (oid : string) : Res TokenOrder :=
  match head (omap (fun p => p.2.(dl_orders) !! oid) (bt_entries ds)) with
  | Some o => Ok o
  | None => ok_or (token_order s oid) (ESync ("TokenOrderNotFoundError: " +:+ oid))
  end.

Definition token_buy ds (sender : string) block (i : nat) tx (a : TokenAsset) (oid : string) (order : TokenOrder) : Deltas :=
  let amount := default 0 a.(ta_amount) in
  let total := sat_mul_u64 amount order.(od_price) in
  let tid := default EmptyString tx.(tx_id) in
  let trade := mkTrade tid oid a.(ta_id) sender order.(od_seller) amount order.(od_price) total block.(b_height)
                 (tx_seq i tx) block.(b_timestamp) in
  let ds := entry sender (fun d =>
    dl_on_trades (fun l => l ++ [trade]) (dl_on_tokens (add_in a.(ta_id) amount) (dl_on_balance (fun b => b - total) d))) ds in
  let ds := credit order.(od_seller) total ds in
  entry order.(od_seller) (dl_on_orders (insert oid (od_fill amount block.(b_height) tid order))) ds.

Definition token_cancel ds block (a : TokenAsset) (oid : string) (order : TokenOrder) : Deltas :=
  let ds := credit_token order.(od_seller) a.(ta_id) (remaining order) ds in
  entry order.(od_seller) (dl_on_orders (insert oid (od_close (Some block.(b_height)) order))) ds.

Definition token_burn ds (sender : string) (a : TokenAsset) : Deltas :=
  let amount := default 0 a.(ta_amount) in
  let ds := credit_token sender a.(ta_id) (- amount) ds in
  let owner := default sender (opt_or (token_owner_of s a.(ta_id))
                 (find_delta (fun d => holds_key a.(ta_id) d.(dl_tokens_issued)) ds)) in
  add_supply owner a.(ta_id) (- amount) ds.

Definition token_deltas ds (sender : string) block (i : nat) tx (a : TokenAsset) : Res Deltas :=
  let t := tx.(tx_type_) in
  if t =? token.INIT then token_init ds sender block.(b_height) a
  else if t =? token.TRANSFER then Ok (token_transfer ds sender a)
  else if t =? token.MINT then
    let amount := default 0 a.(ta_amount) in
    Ok (add_supply sender a.(ta_id) amount (credit_token (default EmptyString a.(ta_recipient_id)) a.(ta_id) amount ds))
  else if t =? token.META then
    Ok (match a.(ta_meta) with
        | Some m => entry sender (dl_on_token_meta (fun l => l ++ [(a.(ta_id), m)])) ds
        | None => ds
        end)
  else if t =? token.SELL then Ok (token_sell ds sender block.(b_height) tx a)
  else if (t =? token.BUY) || (t =? token.CANCEL) then
    let oid := default EmptyString a.(ta_order_id) in
    let? order := current_order ds oid in
    Ok (if t =? token.BUY then token_buy ds sender block i tx a oid order else token_cancel ds block a oid order)
  else Ok (token_burn ds sender a).

(** ** Core transactions *)

(** An HTLC lock transaction of the batch, else of the store. *)
Definition find_lock (id : string) (batch : list Block) : Res (option Transaction) :=
  match head (omap (fun b => List.find (has_id id) b.(b_transactions)) batch) with
  | Some tx => Ok (Some tx)
  | None => get_transaction n s id
  end.

Definition asset_part {A} (f : TransactionAsset -> option A) tx : option A :=
  match tx.(tx_asset) with Some a => f a | None => None end.

Definition transfer_deltas ds (sender : string) block tx : Deltas :=
  match tx.(tx_recipient_id) with
  | None => ds
  | Some r =>
      let ds := credit r tx.(tx_amount) ds in
      if bool_decide (r = sender) && (1 <=? tx.(tx_amount)) then
        match match tx.(tx_vendor_field) with Some v => parse_commitment v | None => None end with
        | Some (algorithm, commitment) =>
            entry sender (dl_on_pq_commitment (fun _ => Some (mkPqCommitment algorithm commitment block.(b_height)))) ds
        | None => ds
        end
      else ds
  end.

Definition payment_deltas (sender : string) ds (p : Payment) : Deltas :=
  credit sender (- p.(p_amount)) (credit p.(p_recipient_id) p.(p_amount) ds).

Definition vote_deltas (sender : string) ds (v : string) : Deltas :=
  entry sender (dl_on_vote (fun _ => Some (strip_prefix "+" v))) ds.

Definition key_deltas ds (sender : string) block tx (sig : SecondSignatureAsset) : Deltas :=
  if is_pq tx
  then entry sender (dl_on_pq_key (fun _ => Some (mkPqKey (default ALG_ML_DSA_44 sig.(ss_algorithm)) sig.(ss_public_key) block.(b_height)))) ds
  else entry sender (dl_on_second_public_key (fun _ => Some sig.(ss_public_key))) ds.

Definition lock_deltas ds (sender : string) block tx : Deltas :=
  match asset_part as_lock tx, tx.(tx_id), tx.(tx_recipient_id) with
  | Some lock, Some id, Some recipient =>
      entry sender (dl_on_locks_added (fun l => l ++
        [mkLock id tx.(tx_sender_public_key) recipient tx.(tx_amount) lock.(hl_secret_hash) lock.(hl_expiration)
           block.(b_timestamp) tx.(tx_vendor_field)])) ds
  | _, _, _ => ds
  end.

Definition claim_deltas ds (batch : list Block) (c : HtlcClaimAsset) : Res Deltas :=
  let? lock := find_lock c.(hc_lock_transaction_id) batch in
  match lock with
  | None => Ok ds
  | Some lock =>
      let ds := match lock.(tx_recipient_id) with Some r => credit r lock.(tx_amount) ds | None => ds end in
      let? lock_sender := address_from_public_key lock.(tx_sender_public_key) n.(n_pubkey_hash) in
      Ok (entry lock_sender (dl_on_locks_removed (fun l => l ++ [c.(hc_lock_transaction_id)])) ds)
  end.

Definition refund_deltas ds (batch : list Block) (r : HtlcRefundAsset) : Res Deltas :=
  let? lock := find_lock r.(hr_lock_transaction_id) batch in
  match lock with
  | None => Ok ds
  | Some lock =>
      let? lock_sender := address_from_public_key lock.(tx_sender_public_key) n.(n_pubkey_hash) in
      Ok (entry lock_sender (fun d => dl_on_locks_removed (fun l => l ++ [r.(hr_lock_transaction_id)])
                                        (dl_on_balance (fun b => b + lock.(tx_amount)) d)) ds)
  end.

Definition core_deltas ds (sender : string) block (batch : list Block) tx : Res Deltas :=
  let t := tx.(tx_type_) in
  if t =? tx_type.TRANSFER then Ok (transfer_deltas ds sender block tx)
  else if t =? tx_type.MULTI_PAYMENT then Ok (foldl (payment_deltas sender) ds (default [] (asset_part as_payments tx)))
  else if t =? tx_type.VOTE then Ok (foldl (vote_deltas sender) ds (default [] (asset_part as_votes tx)))
  else if t =? tx_type.DELEGATE_REGISTRATION then
    Ok (match asset_part as_delegate tx with
        | Some d => entry sender (dl_on_username (fun _ => Some d.(da_username))) ds
        | None => ds
        end)
  else if t =? tx_type.SECOND_SIGNATURE then
    Ok (match asset_part as_signature tx with Some sig => key_deltas ds sender block tx sig | None => ds end)
  else if t =? tx_type.DELEGATE_RESIGNATION then Ok (entry sender (dl_on_resigned (fun _ => true)) ds)
  else if t =? tx_type.MULTI_SIGNATURE then
    match asset_part as_multi_signature tx with
    | Some ms =>
        let? addr := address_from_multi_signature ms n.(n_pubkey_hash) in
        Ok (entry addr (dl_on_multi_signature (fun _ => Some ms)) ds)
    | None => Ok ds
    end
  else if t =? tx_type.HTLC_LOCK then Ok (lock_deltas ds sender block tx)
  else if t =? tx_type.HTLC_CLAIM then
    match asset_part as_claim tx with Some c => claim_deltas ds batch c | None => Ok ds end
  else if t =? tx_type.HTLC_REFUND then
    match asset_part as_refund tx with Some r => refund_deltas ds batch r | None => Ok ds end
  else Ok ds.

(** ** A transaction and a block *)

(** Amount and fee leave the sender, the nonce advances. *)
Definition sender_deltas ds (sender : string) tx : Deltas :=
  entry sender (fun d =>
    dl_on_public_key (fun _ => Some tx.(tx_sender_public_key))
      (dl_on_nonce (fun x => as_u64 (x + 1))
        (dl_on_balance (fun b => b - (tx.(tx_amount) + tx.(tx_fee))) d))) ds.

Definition tx_deltas block (batch : list Block) ds (p : nat * Transaction) : Res Deltas :=
  let '(i, tx) := p in
  let? sender := address_from_public_key tx.(tx_sender_public_key) n.(n_pubkey_hash) in
  let ds := sender_deltas ds sender tx in
  match sobj_asset tx with
  | Some e => Ok (sobj_deltas ds sender tx e)
  | None =>
      match token_asset tx with
      | Some a => token_deltas ds sender block i tx a
      | None => if negb (tx.(tx_type_group) =? TYPE_GROUP_CORE) then Ok ds else core_deltas ds sender block batch tx
      end
  end.

Definition is_init tx : bool := (tx.(tx_type_group) =? TYPE_GROUP_TOKEN) && (tx.(tx_type_) =? token.INIT).

(** Part of the fees of token creations that goes to the burn address. *)
Definition burned block : Z :=
  let count := Z.of_nat (length (List.filter is_init block.(b_transactions))) in
  if (0 <? count) && negb (bool_decide (n.(n_burn_address) = EmptyString))
  then as_u64 (count * init_burn (milestone n block.(b_height)).(m_token_fees)) else 0.

Definition generator_deltas ds (generator : string) block : Deltas :=
  let ds := if 0 <? burned block then credit n.(n_burn_address) (burned block) ds else ds in
  entry generator (fun d =>
    let d := dl_on_balance (fun b => b + (block.(b_reward) + block.(b_total_fee) - burned block)) d in
    let d := dl_on_public_key (fun _ => Some block.(b_generator_public_key)) d in
    let d := dl_on_produced_blocks (fun x => as_u64 (x + 1)) d in
    let d := dl_on_forged_fees (fun x => as_u64 (x + block.(b_total_fee))) d in
    let d := dl_on_forged_rewards (fun x => as_u64 (x + block.(b_reward))) d in
    dl_on_last_block (fun _ => Some (mkLastBlock (default EmptyString block.(b_id)) block.(b_height) block.(b_timestamp))) d) ds.

Definition accumulate_deltas block (batch : list Block) ds : Res Deltas :=
  let? generator := address_from_public_key block.(b_generator_public_key) n.(n_pubkey_hash) in
  rfold (tx_deltas block batch) (imap pair block.(b_transactions)) (generator_deltas ds generator block).

(** ** Conservation of the amounts *)

(** Sum of the balance changes of all addresses. *)
Definition net (ds : Deltas) : Z := map_sum dl_balance ds.

(** What a transaction takes out of circulation: its amount, unless it is a transfer to somebody. *)
Definition locked_up (tx : Transaction) : Z :=
  if (tx.(tx_type_group) =? TYPE_GROUP_CORE) && (tx.(tx_type_) =? tx_type.TRANSFER) && bool_decide (is_Some tx.(tx_recipient_id))
  then 0 else tx.(tx_amount).

(** What a claim or refund of an HTLC lock brings back. *)
Definition lock_amount (id : string) (batch : list Block) (needs_recipient : bool) : Z :=
  match find_lock id batch with
  | Ok (Some lock) => if needs_recipient && bool_decide (lock.(tx_recipient_id) = None) then 0 else lock.(tx_amount)
  | _ => 0
  end.
Definition released (batch : list Block) (tx : Transaction) : Z :=
  if negb (tx.(tx_type_group) =? TYPE_GROUP_CORE) then 0
  else if tx.(tx_type_) =? tx_type.HTLC_CLAIM then
    match asset_part as_claim tx with Some c => lock_amount c.(hc_lock_transaction_id) batch true | None => 0 end
  else if tx.(tx_type_) =? tx_type.HTLC_REFUND then
    match asset_part as_refund tx with Some r => lock_amount r.(hr_lock_transaction_id) batch false | None => 0 end
  else 0.

Lemma net_entry a f ds :
  net (entry a f ds) = net ds + dl_balance (f (default delta_default (ds !! a))) - dl_balance (default delta_default (ds !! a)).
Proof.
  unfold net, entry. rewrite map_sum_insert. destruct (ds !! a); cbn; lia.
Qed.

(** A change that does not touch balances. *)
Lemma net_entry_same a f ds : (forall d, dl_balance (f d) = dl_balance d) -> net (entry a f ds) = net ds.
Proof. intros H. rewrite net_entry, H. lia. Qed.

Lemma net_credit a x ds : net (credit a x ds) = net ds + x.
Proof. unfold credit. rewrite net_entry. cbn. lia. Qed.

Lemma net_credit_token a id x ds : net (credit_token a id x ds) = net ds.
Proof. by apply net_entry_same. Qed.

Lemma net_add_supply a id x ds : net (add_supply a id x ds) = net ds.
Proof. by apply net_entry_same. Qed.

Lemma foldl_net {A} (f : Deltas -> A -> Deltas) l ds : (forall ds x, net (f ds x) = net ds) -> net (foldl f ds l) = net ds.
Proof. intros H. revert ds; induction l as [|x l IH]; intros ds; cbn; [done|]. by rewrite IH, H. Qed.

Lemma net_hand_over ds from to id rec : net (hand_over ds from to id rec) = net ds.
Proof.
  unfold hand_over. set (t := opt_or _ _). destruct t; cbn; rewrite !net_entry_same; try done.
Qed.

Lemma net_sobj ds sender tx e : net (sobj_deltas ds sender tx e) = net ds.
Proof.
  unfold sobj_deltas. destruct (tx_id tx); [|done]. destruct (_ || _).
  - unfold move_sobj. destruct (sa_registration_id e); [|done]. destruct (_ =? _).
    + destruct (opt_or _ _); [|done]. destruct (current_sobject _ _ _); [|done]. rewrite net_hand_over, !net_credit. lia.
    + destruct (sa_recipient_id e); [|done]. destruct (current_sobject _ _ _); [|done]. by rewrite net_hand_over.
  - unfold change_sobj. match goal with |- context [match ?r with Some _ => entry _ _ _ | None => _ end] => destruct r end; [|done].
    by apply net_entry_same.
Qed.

Lemma net_token ds sender block i tx a ds' : token_deltas ds sender block i tx a = Ok ds' -> net ds' = net ds.
Proof.
  unfold token_deltas. intros H. destruct (_ =? token.INIT).
  { unfold token_init in H. apply rbind_ok_inv in H as (so & _ & H). apply Ok_inj in H as <-. by apply net_entry_same. }
  destruct (_ =? token.TRANSFER).
  { apply Ok_inj in H as <-. unfold token_transfer. apply foldl_net. intros. by rewrite !net_credit_token. }
  destruct (_ =? token.MINT); [apply Ok_inj in H as <-; by rewrite net_add_supply, net_credit_token|].
  destruct (_ =? token.META).
  { apply Ok_inj in H as <-. destruct (ta_meta a); [|done]. by apply net_entry_same. }
  destruct (_ =? token.SELL); [apply Ok_inj in H as <-; by apply net_entry_same|].
  destruct (_ || _).
  - apply rbind_ok_inv in H as (o & _ & H). apply Ok_inj in H as <-. destruct (_ =? token.BUY).
    + unfold token_buy. rewrite net_entry_same, net_credit, net_entry by done. cbn. lia.
    + unfold token_cancel. by rewrite net_entry_same, net_credit_token.
  - apply Ok_inj in H as <-. unfold token_burn. by rewrite net_add_supply, net_credit_token.
Qed.

Lemma net_transfer ds sender block tx :
  net (transfer_deltas ds sender block tx) = net ds + (if bool_decide (is_Some tx.(tx_recipient_id)) then tx.(tx_amount) else 0).
Proof.
  unfold transfer_deltas. destruct (tx_recipient_id tx); cbn; [|lia].
  destruct (_ && _); [|by rewrite net_credit].
  destruct (match tx_vendor_field tx with Some v => parse_commitment v | None => None end) as [[? ?]|].
  - by rewrite net_entry_same, net_credit.
  - by rewrite net_credit.
Qed.

Lemma net_claim ds batch c ds' :
  claim_deltas ds batch c = Ok ds' -> net ds' = net ds + lock_amount c.(hc_lock_transaction_id) batch true.
Proof.
  unfold claim_deltas, lock_amount. intros H. apply rbind_ok_inv in H as (lock & -> & H).
  destruct lock as [lock|]; [|apply Ok_inj in H as <-; lia].
  apply rbind_ok_inv in H as (a & _ & H). apply Ok_inj in H as <-. rewrite net_entry_same by done.
  destruct (tx_recipient_id lock); cbn; [by rewrite net_credit|lia].
Qed.

Lemma net_refund ds batch r ds' :
  refund_deltas ds batch r = Ok ds' -> net ds' = net ds + lock_amount r.(hr_lock_transaction_id) batch false.
Proof.
  unfold refund_deltas, lock_amount. intros H. apply rbind_ok_inv in H as (lock & -> & H).
  destruct lock as [lock|]; [|apply Ok_inj in H as <-; lia].
  apply rbind_ok_inv in H as (a & _ & H). apply Ok_inj in H as <-. rewrite net_entry. cbn. lia.
Qed.

(** The balance part of a core transaction, amount and fee of the sender aside. *)
Lemma net_core ds sender block batch tx ds' :
  core_deltas ds sender block batch tx = Ok ds' ->
  net ds' = net ds + (if (tx.(tx_type_) =? tx_type.TRANSFER) && bool_decide (is_Some tx.(tx_recipient_id)) then tx.(tx_amount) else 0)
            + (if tx.(tx_type_) =? tx_type.HTLC_CLAIM then
                 match asset_part as_claim tx with Some c => lock_amount c.(hc_lock_transaction_id) batch true | None => 0 end
               else if tx.(tx_type_) =? tx_type.HTLC_REFUND then
                 match asset_part as_refund tx with Some r => lock_amount r.(hr_lock_transaction_id) batch false | None => 0 end
               else 0).
Proof.
  unfold core_deltas. intros H.
  destruct (Z.eqb_spec tx.(tx_type_) tx_type.TRANSFER) as [Ht|_].
  { rewrite Ht. apply Ok_inj in H as <-. rewrite net_transfer. cbn. lia. }
  destruct (Z.eqb_spec tx.(tx_type_) tx_type.MULTI_PAYMENT) as [Ht|_].
  { rewrite Ht. apply Ok_inj in H as <-. rewrite foldl_net; cbn; [lia|]. intros. unfold payment_deltas. rewrite !net_credit. lia. }
  destruct (Z.eqb_spec tx.(tx_type_) tx_type.VOTE) as [Ht|_].
  { rewrite Ht. apply Ok_inj in H as <-. rewrite foldl_net; cbn; [lia|]. intros. by apply net_entry_same. }
  destruct (Z.eqb_spec tx.(tx_type_) tx_type.DELEGATE_REGISTRATION) as [Ht|_].
  { rewrite Ht. apply Ok_inj in H as <-. destruct (asset_part as_delegate tx); cbn; [rewrite net_entry_same by done|]; lia. }
  destruct (Z.eqb_spec tx.(tx_type_) tx_type.SECOND_SIGNATURE) as [Ht|_].
  { rewrite Ht. apply Ok_inj in H as <-. destruct (asset_part as_signature tx); cbn; [|lia].
    unfold key_deltas. destruct (is_pq tx); rewrite net_entry_same by done; lia. }
  destruct (Z.eqb_spec tx.(tx_type_) tx_type.DELEGATE_RESIGNATION) as [Ht|_].
  { rewrite Ht. apply Ok_inj in H as <-. rewrite net_entry_same by done. cbn. lia. }
  destruct (Z.eqb_spec tx.(tx_type_) tx_type.MULTI_SIGNATURE) as [Ht|_].
  { rewrite Ht. destruct (asset_part as_multi_signature tx).
    - apply rbind_ok_inv in H as (addr & _ & H). apply Ok_inj in H as <-. rewrite net_entry_same by done. cbn. lia.
    - apply Ok_inj in H as <-. cbn. lia. }
  destruct (Z.eqb_spec tx.(tx_type_) tx_type.HTLC_LOCK) as [Ht|_].
  { rewrite Ht. apply Ok_inj in H as <-. unfold lock_deltas.
    destruct (asset_part as_lock tx), (tx_id tx), (tx_recipient_id tx); rewrite ?net_entry_same by done; cbn; lia. }
  cbn [andb]. destruct (Z.eqb_spec tx.(tx_type_) tx_type.HTLC_CLAIM) as [Ht|_].
  { destruct (asset_part as_claim tx); [apply net_claim in H; lia|apply Ok_inj in H as <-; lia]. }
  destruct (Z.eqb_spec tx.(tx_type_) tx_type.HTLC_REFUND) as [Ht|_].
  { destruct (asset_part as_refund tx); [apply net_refund in H; lia|apply Ok_inj in H as <-; lia]. }
  apply Ok_inj in H as <-. lia.
Qed.

Lemma net_tx block batch ds p ds' :
  tx_deltas block batch ds p = Ok ds' ->
  net ds' = net ds - p.2.(tx_fee) - locked_up p.2 + released batch p.2.
Proof.
  destruct p as [i tx]. unfold tx_deltas, locked_up, released. cbn [snd]. intros H.
  apply rbind_ok_inv in H as (sender & _ & H). cbn beta zeta in H.
  assert (Hs : net (sender_deltas ds sender tx) = net ds - (tx.(tx_amount) + tx.(tx_fee))).
  { unfold sender_deltas. rewrite net_entry. cbn. lia. }
  destruct (Z.eqb_spec tx.(tx_type_group) TYPE_GROUP_CORE) as [Hg|Hg].
  - unfold sobj_asset, token_asset in H. rewrite core_not_sobj, core_not_token in H by done. cbn [negb] in H.
    apply net_core in H. rewrite H, Hs. cbn [negb andb]. destruct (_ && _); lia.
  - cbn [negb andb]. destruct (sobj_asset tx) as [e|]; [apply Ok_inj in H as <-; rewrite net_sobj; lia|].
    destruct (token_asset tx) as [a|]; [apply net_token in H; lia|]. cbn [negb] in H. apply Ok_inj in H as <-. lia.
Qed.

Lemma net_generator ds generator block :
  net (generator_deltas ds generator block) = net ds + block.(b_reward) + block.(b_total_fee).
Proof.
  unfold generator_deltas. rewrite net_entry. cbn.
  destruct (Z.ltb_spec 0 (burned block)) as [Hb|Hb]; rewrite ?net_credit; [lia|].
  enough (burned block = 0) by lia. enough (0 <= burned block) by lia.
  unfold burned. destruct (_ && _); [|lia]. match goal with |- 0 <= as_u64 ?x => pose proof (as_u64_range x) end. bounds. lia.
Qed.

Lemma net_txs block batch l ds ds' :
  rfold (tx_deltas block batch) l ds = Ok ds' ->
  net ds' = net ds + zsum ((fun p => released batch p.2 - p.2.(tx_fee) - locked_up p.2) <$> l).
Proof.
  revert ds; induction l as [|p l IH]; intros ds H; cbn in *.
  { apply Ok_inj in H as <-. lia. }
  apply rbind_ok_inv in H as (ds1 & H1 & H). rewrite (IH _ H), (net_tx _ _ _ _ _ H1). lia.
Qed.

(** ** Nonces *)

Definition nonce_of (a : string) (ds : Deltas) : Z := default 0 (dl_nonce <$> ds !! a).

Lemma nonce_entry b a f ds : (forall d, dl_nonce (f d) = dl_nonce d) -> nonce_of b (entry a f ds) = nonce_of b ds.
Proof.
  intros H. unfold nonce_of, entry. destruct (decide (a = b)) as [->|Hne].
  - rewrite lookup_insert_eq. cbn. rewrite H. by destruct (ds !! b).
  - by rewrite lookup_insert_ne.
Qed.

Lemma foldl_nonce {A} b (f : Deltas -> A -> Deltas) l ds :
  (forall ds x, nonce_of b (f ds x) = nonce_of b ds) -> nonce_of b (foldl f ds l) = nonce_of b ds.
Proof. intros H. revert ds; induction l as [|x l IH]; intros ds; cbn; [done|]. by rewrite IH, H. Qed.

(** A change that leaves nonce, tokens, supply and orders alone, on one delta and on all of them. *)
Definition quiet (d d' : WalletDelta) : Prop :=
  d'.(dl_nonce) = d.(dl_nonce) /\ d'.(dl_tokens) = d.(dl_tokens) /\ d'.(dl_token_supply) = d.(dl_token_supply) /\
  d'.(dl_orders) = d.(dl_orders).
Definition quiet_all (ds ds' : Deltas) : Prop :=
  forall a, quiet (default delta_default (ds !! a)) (default delta_default (ds' !! a)).

#[export] Instance quiet_preorder : PreOrder quiet.
Proof. unfold quiet. split; [done|]. intros x y z (? & ? & ? & ?) (? & ? & ? & ?). split_and!; congruence. Qed.
#[export] Instance quiet_all_preorder : PreOrder quiet_all.
Proof. split; [intros ds a; reflexivity|]. intros x y z H1 H2 a. etransitivity; [apply H1|apply H2]. Qed.

Lemma quiet_entry a f ds ds0 : (forall d, quiet d (f d)) -> quiet_all ds0 ds -> quiet_all ds0 (entry a f ds).
Proof.
  intros Hf H b. specialize (H b). unfold entry. destruct (decide (a = b)) as [->|Hne].
  - rewrite lookup_insert_eq. cbn. by etransitivity.
  - by rewrite lookup_insert_ne.
Qed.

Lemma foldl_quiet {A} (f : Deltas -> A -> Deltas) l ds0 ds :
  (forall ds x, quiet_all ds (f ds x)) -> quiet_all ds0 ds -> quiet_all ds0 (foldl f ds l).
Proof. intros Hf. revert ds; induction l as [|x l IH]; intros ds H; cbn; [done|]. apply IH. by etransitivity. Qed.

Lemma quiet_nonce b ds ds' : quiet_all ds ds' -> nonce_of b ds' = nonce_of b ds.
Proof.
  intros H. destruct (H b) as (Hn & _). unfold nonce_of.
  destruct (ds !! b), (ds' !! b); cbn in *; congruence.
Qed.

Ltac quiet_step := first [reflexivity|apply quiet_entry; [intros; by unfold quiet|]|apply foldl_quiet; [intros|]].

Lemma quiet_hand_over ds0 ds from to id rec : quiet_all ds0 ds -> quiet_all ds0 (hand_over ds from to id rec).
Proof. intros H. unfold hand_over. set (t := opt_or _ _). destruct t; cbn; by repeat quiet_step. Qed.

Lemma quiet_sobj ds sender tx e : quiet_all ds (sobj_deltas ds sender tx e).
Proof.
  unfold sobj_deltas. destruct (tx_id tx); [|done]. destruct (_ || _).
  - unfold move_sobj, credit. destruct (sa_registration_id e); [|done].
    destruct (_ =? _); [destruct (opt_or _ _)|destruct (sa_recipient_id e)]; try done;
      (destruct (current_sobject _ _ _); [|done]); apply quiet_hand_over; by repeat quiet_step.
  - unfold change_sobj. match goal with |- context [match ?r with Some _ => entry _ _ _ | None => _ end] => destruct r end; by repeat quiet_step.
Qed.

Lemma nonce_token b ds sender block i tx a ds' :
  token_deltas ds sender block i tx a = Ok ds' -> nonce_of b ds' = nonce_of b ds.
Proof.
  unfold token_deltas, credit, credit_token, add_supply. intros H. destruct (_ =? token.INIT).
  { unfold token_init in H. apply rbind_ok_inv in H as (so & _ & H). apply Ok_inj in H as <-. by apply nonce_entry. }
  destruct (_ =? token.TRANSFER).
  { apply Ok_inj in H as <-. unfold token_transfer, credit_token. apply foldl_nonce. intros. by rewrite !nonce_entry. }
  destruct (_ =? token.MINT); [apply Ok_inj in H as <-; by rewrite !nonce_entry|].
  destruct (_ =? token.META).
  { apply Ok_inj in H as <-. destruct (ta_meta a); [|done]. by apply nonce_entry. }
  destruct (_ =? token.SELL); [apply Ok_inj in H as <-; by apply nonce_entry|].
  destruct (_ || _).
  - apply rbind_ok_inv in H as (o & _ & H). apply Ok_inj in H as <-. destruct (_ =? token.BUY).
    + unfold token_buy, credit. by rewrite !nonce_entry.
    + unfold token_cancel, credit_token. by rewrite !nonce_entry.
  - apply Ok_inj in H as <-. unfold token_burn, credit_token, add_supply. by rewrite !nonce_entry.
Qed.

Lemma quiet_core ds sender block batch tx ds' : core_deltas ds sender block batch tx = Ok ds' -> quiet_all ds ds'.
Proof.
  unfold core_deltas. intros H.
  destruct (_ =? tx_type.TRANSFER).
  { apply Ok_inj in H as <-. unfold transfer_deltas, credit. destruct (tx_recipient_id tx); [|done].
    destruct (_ && _); [|by repeat quiet_step].
    destruct (match tx_vendor_field tx with Some v => parse_commitment v | None => None end) as [[? ?]|]; by repeat quiet_step. }
  destruct (_ =? tx_type.MULTI_PAYMENT); [apply Ok_inj in H as <-; unfold payment_deltas, credit; by repeat quiet_step|].
  destruct (_ =? tx_type.VOTE); [apply Ok_inj in H as <-; unfold vote_deltas; by repeat quiet_step|].
  destruct (_ =? tx_type.DELEGATE_REGISTRATION); [apply Ok_inj in H as <-; destruct (asset_part as_delegate tx); by repeat quiet_step|].
  destruct (_ =? tx_type.SECOND_SIGNATURE).
  { apply Ok_inj in H as <-. destruct (asset_part as_signature tx); [|done]. unfold key_deltas. destruct (is_pq tx); by repeat quiet_step. }
  destruct (_ =? tx_type.DELEGATE_RESIGNATION); [apply Ok_inj in H as <-; by repeat quiet_step|].
  destruct (_ =? tx_type.MULTI_SIGNATURE).
  { destruct (asset_part as_multi_signature tx); [|by apply Ok_inj in H as <-].
    apply rbind_ok_inv in H as (addr & _ & H). apply Ok_inj in H as <-. by repeat quiet_step. }
  destruct (_ =? tx_type.HTLC_LOCK).
  { apply Ok_inj in H as <-. unfold lock_deltas. destruct (asset_part as_lock tx), (tx_id tx), (tx_recipient_id tx); by repeat quiet_step. }
  destruct (_ =? tx_type.HTLC_CLAIM).
  { destruct (asset_part as_claim tx); [|by apply Ok_inj in H as <-]. unfold claim_deltas, credit in H.
    apply rbind_ok_inv in H as ([lock|] & _ & H); [|by apply Ok_inj in H as <-].
    apply rbind_ok_inv in H as (x & _ & H). apply Ok_inj in H as <-. destruct (tx_recipient_id lock); by repeat quiet_step. }
  destruct (_ =? tx_type.HTLC_REFUND).
  { destruct (asset_part as_refund tx); [|by apply Ok_inj in H as <-]. unfold refund_deltas in H.
    apply rbind_ok_inv in H as ([lock|] & _ & H); [|by apply Ok_inj in H as <-].
    apply rbind_ok_inv in H as (x & _ & H). apply Ok_inj in H as <-. by repeat quiet_step. }
  by apply Ok_inj in H as <-.
Qed.

(** Transactions of [l] whose sender key is the key of address [a]. *)
Definition sent_by (a : string) (tx : Transaction) : bool :=
  match address_from_public_key tx.(tx_sender_public_key) n.(n_pubkey_hash) with
  | Ok b => bool_decide (b = a)
  | Err _ => false
  end.

Lemma nonce_tx b block batch ds p ds' :
  tx_deltas block batch ds p = Ok ds' ->
  nonce_of b ds' = if sent_by b p.2 then as_u64 (nonce_of b ds + 1) else nonce_of b ds.
Proof.
  destruct p as [i tx]. unfold tx_deltas, sent_by. cbn [snd]. intros H.
  apply rbind_ok_inv in H as (sender & -> & H). cbn beta zeta in H.
  assert (Hs : nonce_of b (sender_deltas ds sender tx) = if bool_decide (sender = b) then as_u64 (nonce_of b ds + 1) else nonce_of b ds).
  { unfold sender_deltas, nonce_of, entry. destruct (bool_decide_reflect (sender = b)) as [->|Hne].
    - rewrite lookup_insert_eq. cbn. by destruct (ds !! b).
    - by rewrite lookup_insert_ne. }
  rewrite <-Hs. destruct (sobj_asset tx) as [e|]; [apply Ok_inj in H as <-; apply quiet_nonce, quiet_sobj|].
  destruct (token_asset tx) as [a|]; [by apply (nonce_token b) in H|].
  destruct (negb _); [by apply Ok_inj in H as <-|apply quiet_core in H; by apply quiet_nonce].
Qed.

Lemma nonce_generator b ds generator block : nonce_of b (generator_deltas ds generator block) = nonce_of b ds.
Proof. unfold generator_deltas, credit. destruct (0 <? burned block); by rewrite !nonce_entry. Qed.

Lemma as_u64_add_l x y : as_u64 (as_u64 x + y) = as_u64 (x + y).
Proof. bounds. apply Zplus_mod_idemp_l. Qed.

Lemma nonce_txs b block batch l ds ds' :
  in_u64 (nonce_of b ds) -> rfold (tx_deltas block batch) l ds = Ok ds' ->
  nonce_of b ds' = as_u64 (nonce_of b ds + Z.of_nat (length (List.filter (fun p => sent_by b p.2) l))).
Proof.
  revert ds; induction l as [|p l IH]; intros ds Hb H; cbn in *.
  { apply Ok_inj in H as <-. rewrite Z.add_0_r. by rewrite as_u64_id. }
  apply rbind_ok_inv in H as (ds1 & H1 & H). apply (nonce_tx b) in H1. rewrite (IH ds1); [|destruct (sent_by b p.2); rewrite H1; auto with sth|done].
  rewrite H1. destruct (sent_by b p.2); [|done]. cbn [length]. rewrite as_u64_add_l. f_equal. lia.
Qed.

Lemma imap_pair_snd {A} (l : list A) : snd <$> imap pair l = l.
Proof. rewrite fmap_imap. apply list_eq. intros i. rewrite list_lookup_imap. by destruct (l !! i). Qed.

Lemma filter_imap_snd {A} (f : A -> bool) (l : list A) :
  length (List.filter (fun p : nat * A => f p.2) (imap pair l)) = length (List.filter f l).
Proof.
  rewrite <-(imap_pair_snd l) at 2. induction (imap pair l) as [|p k IH]; cbn; [done|]. destruct (f p.2); cbn; by rewrite IH.
Qed.

Lemma zsum_imap_snd {A} (f : A -> Z) (l : list A) : zsum ((fun p : nat * A => f p.2) <$> imap pair l) = zsum (f <$> l).
Proof. rewrite <-(imap_pair_snd l) at 2. by rewrite <-list_fmap_compose. Qed.

(** The balance equation of a block. *)
Lemma block_balance block batch ds ds' :
  accumulate_deltas block batch ds = Ok ds' ->
  net ds' = net ds + block.(b_reward) + block.(b_total_fee)
            + zsum ((fun tx => released batch tx - tx.(tx_fee) - locked_up tx) <$> block.(b_transactions)).
Proof.
  unfold accumulate_deltas. intros H. apply rbind_ok_inv in H as (g & _ & H).
  rewrite (net_txs _ _ _ _ _ H), net_generator. f_equal.
  by rewrite (zsum_imap_snd (fun tx => released batch tx - tx.(tx_fee) - locked_up tx)).
Qed.

(** The deltas of a block conserve amounts.  Together they change the balances by the reward,
    plus the fees the header claims less the fees paid, plus what claims and refunds release, less
    what transactions lock up; so a block that pays out exactly the fees collected and neither
    locks nor releases anything adds exactly its reward to the supply. *)
Theorem block_conserves block batch ds ds' (H : accumulate_deltas block batch ds = Ok ds') :
  net ds' = net ds + block.(b_reward) + (block.(b_total_fee) - zsum (tx_fee <$> block.(b_transactions)))
            + zsum (released batch <$> block.(b_transactions)) - zsum (locked_up <$> block.(b_transactions)) /\
  (block.(b_total_fee) = zsum (tx_fee <$> block.(b_transactions)) ->
   Forall (fun tx => locked_up tx = 0 /\ released batch tx = 0) block.(b_transactions) ->
   net ds' = net ds + block.(b_reward)).
Proof.
  rewrite (block_balance _ _ _ _ H). clear H.
  assert (He : forall l, zsum ((fun tx => released batch tx - tx.(tx_fee) - locked_up tx) <$> l) =
            zsum (released batch <$> l) - zsum (tx_fee <$> l) - zsum (locked_up <$> l)).
  { induction l as [|tx l IH]; cbn; lia. }
  rewrite He. split; [lia|]. intros -> Hf.
  enough (zsum (released batch <$> block.(b_transactions)) = 0 /\ zsum (locked_up <$> block.(b_transactions)) = 0) by lia.
  induction Hf as [|tx l [] _ IH]; cbn; lia.
Qed.

(** A block advances the nonce of an address by exactly the number of its transactions that the
    address sent, whatever their type. *)
Theorem nonce_counts a block batch ds ds'
    (H : accumulate_deltas block batch ds = Ok ds') (Ha : in_u64 (nonce_of a ds)) :
  nonce_of a ds' = as_u64 (nonce_of a ds + Z.of_nat (length (List.filter (sent_by a) block.(b_transactions)))).
Proof.
  unfold accumulate_deltas in H. apply rbind_ok_inv in H as (g & _ & H).
  rewrite (nonce_txs a _ _ _ _ _ ltac:(by rewrite nonce_generator) H), nonce_generator.
  by rewrite (filter_imap_snd (sent_by a)).
Qed.

(** An HTLC claim or refund pays out the amount of the lock transaction it names whenever that
    transaction is found, and the deltas depend on neither the open locks nor the secret; the same
    lock can therefore be paid out again. *)
Theorem claim_pays_without_lock ds batch c lock lock_sender
    (Hl : find_lock c.(hc_lock_transaction_id) batch = Ok (Some lock))
    (Hs : address_from_public_key lock.(tx_sender_public_key) n.(n_pubkey_hash) = Ok lock_sender)
    (Hr : is_Some lock.(tx_recipient_id)) :
  (exists ds', claim_deltas ds batch c = Ok ds' /\ net ds' = net ds + lock.(tx_amount)) /\
  (exists ds1 ds2, claim_deltas ds batch c = Ok ds1 /\ claim_deltas ds1 batch c = Ok ds2 /\
     net ds2 = net ds + 2 * lock.(tx_amount)).
Proof.
  destruct Hr as [r Hr].
  assert (Hc : forall ds, exists ds', claim_deltas ds batch c = Ok ds' /\ net ds' = net ds + lock.(tx_amount)).
  { intros ds0. unfold claim_deltas. rewrite Hl. cbn [rbind]. rewrite Hs, Hr. cbn [rbind]. eexists. split; [done|].
    by rewrite net_entry_same, net_credit. }
  split; [done|]. destruct (Hc ds) as (ds1 & H1 & N1). destruct (Hc ds1) as (ds2 & H2 & N2).
  exists ds1, ds2. split_and!; [done|done|lia].
Qed.

(** A token that changes hands with its ticker object takes the stored token state along: supply
    changes of the same block stay with the old owner, whose entry is removed when its delta is
    applied, so they are lost whatever they were. *)
Theorem handover_drops_pending_supply ds from to id rec st
    (Hst : token_state s id = Some st) (Hne : from <> to)
    (Hno : forall d, ds !! from = Some d -> last_of id d.(dl_tokens_issued) = None) :
  exists df dt, hand_over ds from to id rec !! from = Some df /\ hand_over ds from to id rec !! to = Some dt /\
    last_of id dt.(dl_tokens_issued) = Some (ts_set_owner to st) /\
    dt.(dl_token_supply) = (default delta_default (ds !! to)).(dl_token_supply) /\
    df.(dl_token_supply) = (default delta_default (ds !! from)).(dl_token_supply) /\
    forall w w', wallet_apply w df = Ok w' -> w'.(ws_tokens_issued) !! id = None.
Proof.
  unfold hand_over. rewrite Hst.
  assert (Hp : opt_or (match ds !! from with Some d => last_of id (dl_tokens_issued d) | None => None end) (Some st) = Some st).
  { destruct (ds !! from) as [d|]; [by rewrite (Hno d)|done]. }
  rewrite Hp. rewrite (bool_decide_true (is_Some (Some st))) by done. eexists _, _. unfold entry at 1 3.
  rewrite lookup_insert_ne by done. unfold entry at 1. rewrite lookup_insert_eq, lookup_insert_eq.
  split; [done|]. split; [done|]. split_and!.
  - unfold last_of. cbn. rewrite rev_app_distr. cbn. by rewrite bool_decide_true.
  - unfold entry. rewrite lookup_insert_ne by done. by destruct (ds !! to).
  - by destruct (ds !! from).
  - intros w w' Hw. apply wallet_apply_inv in Hw as (_ & _ & i1 & i2 & t & _ & _ & _ & ->).
    unfold wallet_write. cbn [ws_tokens_issued]. rewrite lookup_remove_all, decide_True; [done|]. cbn. set_solver.
Qed.
End deltas.
