(* ===== verification/TokenFlow.v ===== *)
(** * Conservation of tokens

    A sell order takes its tokens out of the seller's balance and holds them until a purchase or a
    cancellation pays them out.  For every transaction the deltas conserve tokens: balances and
    orders together change by what the transaction mints, burns or creates. *)

From S2P Require Import Prelude Models Env Bytes Crypto Config TxCodec BlockCodec Wallet Round Tree.
From S2P Require Import Storage StorageFacts Deltas.

(** ** Sums over maps that agree up to zero entries *)

Lemma map_sum_zero {A} (f : A -> Z) (m : gmap string A) : (forall k x, m !! k = Some x -> f x = 0) -> map_sum f m = 0.
Proof.
  intros H. rewrite (map_sum_ext f (fun _ => 0) m H). clear H.
  induction m as [|k x m Hk IH] using map_ind; [by rewrite map_sum_empty|by rewrite map_sum_insert_new].
Qed.

Lemma map_sum_default {A} (f : A -> Z) (m m' : gmap string A) :
  (forall k, default 0 (f <$> m !! k) = default 0 (f <$> m' !! k)) -> map_sum f m = map_sum f m'.
Proof.
  revert m'. induction m as [|k x m Hk IH] using map_ind; intros m' H.
  - rewrite map_sum_empty, map_sum_zero; [done|]. intros k x Hx. specialize (H k). by rewrite lookup_empty, Hx in H.
  - rewrite map_sum_insert_new by done. rewrite (IH (delete k m')).
    + rewrite map_sum_delete_default, <-H, lookup_insert_eq. cbn. lia.
    + intros j. destruct (decide (k = j)) as [->|Hne]; [by rewrite Hk, lookup_delete_eq|].
      rewrite lookup_delete_ne by done. rewrite <-H. by rewrite lookup_insert_ne.
Qed.

Section flow.
Context `{E : Env}.
Variables (n : Network) (s : Store).
Implicit Types (ds : gmap string WalletDelta) (tx : Transaction) (o : TokenOrder).

(** ** The orders a block sees *)

(** The pending orders of the deltas, in key order, over the stored ones. *)
Definition orders ds : gmap string TokenOrder :=
  foldr (fun p m => p.2.(dl_orders) ∪ m) s.(st_orders) (bt_entries ds).
Definition pending ds (a : string) : gmap string TokenOrder := (default delta_default (ds !! a)).(dl_orders).

(** A pending order is kept by its seller and by nobody else. *)
Definition holders_ok ds : Prop :=
  (forall a oid o, pending ds a !! oid = Some o -> o.(od_seller) = a) /\
  (forall a b oid, is_Some (pending ds a !! oid) -> is_Some (pending ds b !! oid) -> a = b).

(** Tokens an order holds. *)
Definition held o : Z := if is_open o then o.(od_amount) - o.(od_filled) else 0.
Definition order_ok o : Prop := 0 <= o.(od_filled) <= o.(od_amount) /\ o.(od_amount) <= u64_max.

Definition circulating (T : string) ds : Z := map_sum (fun d => default 0 (d.(dl_tokens) !! T)) ds.
Definition supplied (T : string) ds : Z := map_sum (fun d => default 0 (d.(dl_token_supply) !! T)) ds.
Definition escrow (T : string) ds : Z := map_sum (fun o => if decide (o.(od_token_id) = T) then held o else 0) (orders ds).

(** What a token transaction creates, and what it adds to or takes from the supply. *)
Definition created (T : string) tx : Z :=
  match token_asset tx with
  | Some a => if decide (a.(ta_id) = T) then (if tx.(tx_type_) =? token.INIT then default 0 a.(ta_initial_supply) else 0) else 0
  | None => 0
  end.
Definition minted (T : string) tx : Z :=
  match token_asset tx with
  | Some a => if decide (a.(ta_id) = T) then
                (if tx.(tx_type_) =? token.MINT then default 0 a.(ta_amount)
                 else if tx.(tx_type_) =? token.BURN then - default 0 a.(ta_amount) else 0) else 0
  | None => 0
  end.

(** What the rules have checked about a market transaction ([check_token]): the order of a sell is
    new, a purchase or cancellation names an open order of the token, a purchase asks for no more
    than is left. *)
Definition admissible ds tx (a : TokenAsset) : bool :=
  let amount := default 0 a.(ta_amount) in
  let order := orders ds !! default EmptyString a.(ta_order_id) in
  let live (p : TokenOrder -> bool) :=
    match order with Some o => String.eqb o.(od_token_id) a.(ta_id) && is_open o && p o | None => true end in
  if tx.(tx_type_) =? token.SELL then
    negb (bool_decide (is_Some (orders ds !! default EmptyString tx.(tx_id)))) && (0 <=? amount) && (amount <=? u64_max)
  else if tx.(tx_type_) =? token.BUY then live (fun o => (0 <=? amount) && (amount <=? o.(od_amount) - o.(od_filled)))
  else if tx.(tx_type_) =? token.CANCEL then live (fun _ => true)
  else true.

Lemma admissible_spec ds tx a :
  admissible ds tx a = true ->
  let amount := default 0 a.(ta_amount) in
  let order := orders ds !! default EmptyString a.(ta_order_id) in
  (tx.(tx_type_) = token.SELL -> orders ds !! default EmptyString tx.(tx_id) = None /\ in_u64 amount) /\
  (tx.(tx_type_) = token.BUY -> forall o, order = Some o ->
     o.(od_token_id) = a.(ta_id) /\ is_open o = true /\ 0 <= amount <= o.(od_amount) - o.(od_filled)) /\
  (tx.(tx_type_) = token.CANCEL -> forall o, order = Some o -> o.(od_token_id) = a.(ta_id) /\ is_open o = true).
Proof.
  unfold admissible. intros H. split_and!; intros Hty; rewrite Hty in H; cbn [Z.eqb Pos.eqb token.SELL token.BUY token.CANCEL] in H.
  - rewrite !andb_true_iff, negb_true_iff, bool_decide_eq_false, <-eq_None_not_Some, !Z.leb_le in H.
    destruct H as [[H1 H2] H3]. split; [done|]. split; [done|]. unfold u64_max in *. lia.
  - intros o Ho. rewrite Ho, !andb_true_iff, String.eqb_eq, !Z.leb_le in H. tauto.
  - intros o Ho. rewrite Ho, !andb_true_iff, String.eqb_eq in H. tauto.
Qed.

Lemma orders_lookup_head ds oid :
  orders ds !! oid = match head (omap (fun p => p.2.(dl_orders) !! oid) (bt_entries ds)) with
                     | Some o => Some o | None => s.(st_orders) !! oid end.
Proof.
  unfold orders. induction (bt_entries ds) as [|p l IH]; [done|]. cbn [foldr omap list_omap].
  cbn in IH |- *. rewrite lookup_union. destruct (dl_orders p.2 !! oid) as [o|]; cbn.
  - by destruct (foldr _ _ l !! oid).
  - rewrite IH. by destruct (head _), (st_orders s !! oid).
Qed.

Lemma current_order_lookup ds oid : current_order s ds oid = ok_or (orders ds !! oid) (ESync ("TokenOrderNotFoundError: " +:+ oid)).
Proof. unfold current_order. rewrite orders_lookup_head. by destruct (head _). Qed.

Lemma orders_pending ds a oid o : holders_ok ds -> pending ds a !! oid = Some o -> orders ds !! oid = Some o.
Proof.
  intros [_ Hu] Ha. rewrite orders_lookup_head. set (l := omap _ _).
  assert (Hin : forall x, x ∈ l -> x = o).
  { intros x Hx. apply list_elem_of_omap in Hx as ([b d] & Hb & Hx). apply elem_of_bt_entries in Hb. cbn in Hx.
    assert (Hp : pending ds b !! oid = Some x) by (unfold pending; by rewrite Hb).
    assert (a = b) as -> by (eapply Hu; by eexists). congruence. }
  assert (Ho : o ∈ l).
  { apply list_elem_of_omap. unfold pending in Ha. destruct (ds !! a) as [d|] eqn:Hd; [|done].
    exists (a, d). split; [by apply elem_of_bt_entries|done]. }
  destruct l as [|x l]; [by apply not_elem_of_nil in Ho|]. cbn. f_equal. apply Hin. left.
Qed.

Lemma orders_stored ds oid : (forall a, pending ds a !! oid = None) -> orders ds !! oid = s.(st_orders) !! oid.
Proof.
  intros H. rewrite orders_lookup_head. set (l := omap _ _). enough (l = []) as -> by done.
  destruct l as [|x l'] eqn:Hl; [done|]. assert (Hx : x ∈ l) by (rewrite Hl; left).
  apply list_elem_of_omap in Hx as ([b d] & Hb & Hx). apply elem_of_bt_entries in Hb. specialize (H b).
  unfold pending in H. rewrite Hb in H. cbn in H, Hx. congruence.
Qed.

(** Every order is pending somewhere or stored. *)
Lemma orders_cases ds oid : (exists a o, pending ds a !! oid = Some o) \/ (forall a, pending ds a !! oid = None).
Proof.
  destruct (omap (fun p => p.2.(dl_orders) !! oid) (bt_entries ds)) as [|o l] eqn:Hl.
  - right. intros a. unfold pending. destruct (ds !! a) as [d|] eqn:Hd; [|done]. cbn.
    destruct (dl_orders d !! oid) as [o|] eqn:Ho; [|done].
    assert (Hin : o ∈ omap (fun p => p.2.(dl_orders) !! oid) (bt_entries ds)).
    { apply list_elem_of_omap. exists (a, d). split; [by apply elem_of_bt_entries|done]. }
    rewrite Hl in Hin. by apply not_elem_of_nil in Hin.
  - left. assert (Hin : o ∈ omap (fun p => p.2.(dl_orders) !! oid) (bt_entries ds)) by (rewrite Hl; left).
    apply list_elem_of_omap in Hin as ([a d] & Ha & Ho). apply elem_of_bt_entries in Ha. exists a, o.
    unfold pending. by rewrite Ha.
Qed.

(** Two delta maps with the same pending orders show the same orders. *)
Lemma orders_ext ds ds' : holders_ok ds -> (forall a, pending ds' a = pending ds a) -> orders ds' = orders ds /\ holders_ok ds'.
Proof.
  intros Hh He. assert (Hh' : holders_ok ds').
  { destruct Hh as [H1 H2]. split; intros *; rewrite !He; [apply H1|apply H2]. }
  split; [|done]. apply map_eq. intros oid. destruct (orders_cases ds oid) as [(a & o & Ho)|Hn].
  - rewrite (orders_pending ds a oid o), (orders_pending ds' a oid o); try done. by rewrite He.
  - rewrite !orders_stored; [done|done|]. intros a. by rewrite He.
Qed.

Lemma pending_entry a f ds b :
  pending (entry a f ds) b = if decide (a = b) then dl_orders (f (default delta_default (ds !! a))) else pending ds b.
Proof.
  unfold pending, entry. destruct (decide (a = b)) as [->|Hne]; [by rewrite lookup_insert_eq|by rewrite lookup_insert_ne].
Qed.

(** Putting an order at its seller replaces it in the orders seen. *)
Lemma orders_insert a f ds oid o :
  (forall d, dl_orders (f d) = <[oid := o]> (dl_orders d)) ->
  holders_ok ds -> o.(od_seller) = a -> (forall b, b <> a -> pending ds b !! oid = None) ->
  orders (entry a f ds) = <[oid := o]> (orders ds) /\ holders_ok (entry a f ds).
Proof.
  intros Hf Hh Hs Hn.
  assert (Hp : forall b k, pending (entry a f ds) b !! k = if decide (a = b /\ k = oid) then Some o else pending ds b !! k).
  { intros b k. rewrite pending_entry. destruct (decide (a = b)) as [->|Hne].
    - rewrite Hf. destruct (decide (k = oid)) as [->|Hk].
      + by rewrite lookup_insert_eq, decide_True.
      + rewrite lookup_insert_ne by done. by rewrite decide_False by tauto.
    - by rewrite decide_False by tauto. }
  assert (Hh' : holders_ok (entry a f ds)).
  { destruct Hh as [H1 H2]. split.
    - intros b k x. rewrite Hp. destruct (decide _) as [[<- ->]|_]; [by intros [= <-]|apply H1].
    - assert (Hx : forall b, is_Some (pending ds b !! oid) -> b = a).
      { intros b [x Hb]. destruct (decide (b = a)); [done|]. by rewrite Hn in Hb. }
      intros b c k. rewrite !Hp. destruct (decide (k = oid)) as [->|Hk].
      + destruct (decide (a = b)) as [<-|Hb], (decide (a = c)) as [<-|Hc]; [done| | |].
        * rewrite (decide_False (P := a = c /\ _)) by tauto. intros _ Hy. symmetry. by apply Hx.
        * rewrite (decide_False (P := a = b /\ _)) by tauto. intros Hy _. by apply Hx.
        * rewrite !decide_False by tauto. apply H2.
      + rewrite !decide_False by tauto. apply H2. }
  split; [|done]. apply map_eq. intros k. destruct (decide (k = oid)) as [->|Hk].
  - rewrite lookup_insert_eq. apply (orders_pending _ a); [done|]. rewrite Hp. by rewrite decide_True.
  - rewrite lookup_insert_ne by done. destruct (orders_cases ds k) as [(b & x & Hx)|Hx].
    + rewrite (orders_pending ds b k x) by done. apply (orders_pending _ b); [done|]. rewrite Hp, decide_False by tauto. done.
    + rewrite !orders_stored; [done|done|]. intros b. rewrite Hp, decide_False by tauto. done.
Qed.

(** ** The sums of one change *)

Lemma sum_entry (g : WalletDelta -> Z) a f ds :
  g delta_default = 0 ->
  map_sum g (entry a f ds) = map_sum g ds + g (f (default delta_default (ds !! a))) - g (default delta_default (ds !! a)).
Proof. intros Hg. unfold entry. rewrite map_sum_insert. destruct (ds !! a); cbn; lia. Qed.

Lemma circulating_entry T a f ds id x :
  (forall d, dl_tokens (f d) = add_in id x (dl_tokens d)) ->
  circulating T (entry a f ds) = circulating T ds + (if decide (id = T) then x else 0).
Proof.
  intros Hf. unfold circulating. rewrite sum_entry, Hf by done. unfold add_in. destruct (decide (id = T)) as [->|Hne].
  - rewrite lookup_insert_eq. cbn. lia.
  - rewrite lookup_insert_ne by done. lia.
Qed.

Lemma circulating_same T a f ds : (forall d, dl_tokens (f d) = dl_tokens d) -> circulating T (entry a f ds) = circulating T ds.
Proof. intros Hf. unfold circulating. rewrite sum_entry, Hf by done. lia. Qed.

Lemma supplied_entry T a f ds id x :
  (forall d, dl_token_supply (f d) = add_in id x (dl_token_supply d)) ->
  supplied T (entry a f ds) = supplied T ds + (if decide (id = T) then x else 0).
Proof.
  intros Hf. unfold supplied. rewrite sum_entry, Hf by done. unfold add_in. destruct (decide (id = T)) as [->|Hne].
  - rewrite lookup_insert_eq. cbn. lia.
  - rewrite lookup_insert_ne by done. lia.
Qed.

Lemma supplied_same T a f ds : (forall d, dl_token_supply (f d) = dl_token_supply d) -> supplied T (entry a f ds) = supplied T ds.
Proof. intros Hf. unfold supplied. rewrite sum_entry, Hf by done. lia. Qed.

Lemma entry_orders a f ds : (forall d, dl_orders (f d) = dl_orders d) -> holders_ok ds ->
  orders (entry a f ds) = orders ds /\ holders_ok (entry a f ds).
Proof.
  intros Hf Hh. apply orders_ext; [done|]. intros b. rewrite pending_entry. destruct (decide (a = b)) as [->|]; [|done]. by rewrite Hf.
Qed.

Lemma escrow_insert T (m : gmap string TokenOrder) oid o :
  map_sum (fun o => if decide (o.(od_token_id) = T) then held o else 0) (<[oid := o]> m)
  = map_sum (fun o => if decide (o.(od_token_id) = T) then held o else 0) m + (if decide (o.(od_token_id) = T) then held o else 0)
    - default 0 ((fun o => if decide (o.(od_token_id) = T) then held o else 0) <$> m !! oid).
Proof. apply map_sum_insert. Qed.

(** What a transaction has to keep: the shape of the orders and the balance of the tokens. *)
Definition flow_ok (T : string) ds ds' (issue supply : Z) : Prop :=
  holders_ok ds' /\ map_Forall (fun _ => order_ok) (orders ds') /\
  circulating T ds' + escrow T ds' = circulating T ds + escrow T ds + issue /\
  supplied T ds' = supplied T ds + supply.

Lemma flow_refl T ds : holders_ok ds -> map_Forall (fun _ => order_ok) (orders ds) -> flow_ok T ds ds 0 0.
Proof. intros. split_and!; (done || lia). Qed.

Lemma flow_trans T ds1 ds2 ds3 i1 s1 i2 s2 :
  flow_ok T ds1 ds2 i1 s1 -> flow_ok T ds2 ds3 i2 s2 -> flow_ok T ds1 ds3 (i1 + i2) (s1 + s2).
Proof. intros (_ & _ & H1 & H2) (? & ? & H3 & H4). split_and!; (done || lia). Qed.

(** A change of one delta that leaves the orders alone. *)
Lemma flow_entry T a f ds i x :
  holders_ok ds -> map_Forall (fun _ => order_ok) (orders ds) -> (forall d, dl_orders (f d) = dl_orders d) ->
  circulating T (entry a f ds) = circulating T ds + i -> supplied T (entry a f ds) = supplied T ds + x ->
  flow_ok T ds (entry a f ds) i x.
Proof.
  intros Hh Ho Hf Hc Hs. destruct (entry_orders a f ds Hf Hh) as [He Hh']. split_and!; try done.
  - by rewrite He.
  - unfold escrow. rewrite He. lia.
Qed.

Lemma flow_credit T a id x ds :
  holders_ok ds -> map_Forall (fun _ => order_ok) (orders ds) ->
  flow_ok T ds (credit_token a id x ds) (if decide (id = T) then x else 0) 0.
Proof.
  intros Hh Ho. apply flow_entry; try done.
  - by apply circulating_entry.
  - rewrite supplied_same by done. lia.
Qed.

Lemma flow_supply T a id x ds :
  holders_ok ds -> map_Forall (fun _ => order_ok) (orders ds) ->
  flow_ok T ds (add_supply a id x ds) 0 (if decide (id = T) then x else 0).
Proof.
  intros Hh Ho. apply flow_entry; try done.
  - rewrite circulating_same by done. lia.
  - by apply supplied_entry.
Qed.

(** An order written at its seller; [d] is what its tokens change by. *)
Lemma flow_order T a f ds oid o i :
  holders_ok ds -> map_Forall (fun _ => order_ok) (orders ds) ->
  (forall d, dl_orders (f d) = <[oid := o]> (dl_orders d)) -> o.(od_seller) = a ->
  (forall b, b <> a -> pending ds b !! oid = None) -> order_ok o ->
  circulating T (entry a f ds) = circulating T ds + i - (if decide (o.(od_token_id) = T) then held o else 0)
    + default 0 ((fun o => if decide (o.(od_token_id) = T) then held o else 0) <$> orders ds !! oid) ->
  supplied T (entry a f ds) = supplied T ds -> flow_ok T ds (entry a f ds) i 0.
Proof.
  intros Hh Ho Hf Hs Hn Hok Hc Hsu. destruct (orders_insert a f ds oid o Hf Hh Hs Hn) as [He Hh']. split_and!; try done.
  - rewrite He. by apply map_Forall_insert_2.
  - unfold escrow. rewrite He, escrow_insert. lia.
  - lia.
Qed.

(** An order the block sees is pending at its seller only. *)
Lemma order_elsewhere ds oid o b : holders_ok ds -> orders ds !! oid = Some o -> b <> o.(od_seller) -> pending ds b !! oid = None.
Proof.
  intros Hh Ho Hb. destruct (pending ds b !! oid) as [x|] eqn:Hx; [|done].
  pose proof (orders_pending ds b oid x Hh Hx) as H. assert (x = o) as -> by congruence. destruct Hh as [H1 _]. by rewrite (H1 _ _ _ Hx) in Hb.
Qed.

(** ** Token transactions *)

Lemma flow_transfer T sender a ds l :
  holders_ok ds -> map_Forall (fun _ => order_ok) (orders ds) ->
  flow_ok T ds (foldl (fun ds it => credit_token it.(ti_recipient_id) a.(ta_id) it.(ti_amount)
                        (credit_token sender a.(ta_id) (- it.(ti_amount)) ds)) ds l) 0 0.
Proof.
  revert ds; induction l as [|it l IH]; intros ds Hh Ho; cbn; [by apply flow_refl|].
  pose proof (flow_credit T sender a.(ta_id) (- it.(ti_amount)) ds Hh Ho) as F1.
  destruct F1 as (Hh1 & Ho1 & _). pose proof (flow_credit T sender a.(ta_id) (- it.(ti_amount)) ds Hh Ho) as F1.
  pose proof (flow_credit T it.(ti_recipient_id) a.(ta_id) it.(ti_amount) _ Hh1 Ho1) as F2.
  assert (F := flow_trans _ _ _ _ _ _ _ _ F1 F2). destruct F2 as (Hh2 & Ho2 & _).
  pose proof (flow_trans _ _ _ _ _ _ _ _ F (IH _ Hh2 Ho2)) as G.
  replace 0 with ((if decide (ta_id a = T) then - ti_amount it else 0) + (if decide (ta_id a = T) then ti_amount it else 0) + 0) at 1
    by (destruct (decide _); lia).
  exact G.
Qed.

Lemma remaining_held o : order_ok o -> is_open o = true -> remaining o = held o.
Proof. intros [H1 H2] Ho. unfold remaining, held. rewrite Ho. apply as_u64_id. bounds. lia. Qed.

Lemma fill_held o amount h tid : order_ok o -> is_open o = true -> 0 <= amount <= o.(od_amount) - o.(od_filled) ->
  order_ok (od_fill amount h tid o) /\ held (od_fill amount h tid o) = held o - amount.
Proof.
  intros [H1 H2] Ho Ha. assert (Hf : as_u64 (od_filled o + amount) = od_filled o + amount) by (apply as_u64_id; bounds; lia).
  unfold order_ok, held, od_fill, is_open in *. cbn. rewrite Hf. split; [split; [lia|done]|].
  apply bool_decide_eq_true in Ho. rewrite Ho. destruct (Z.leb_spec (od_amount o) (od_filled o + amount)); cbn; lia.
Qed.

Lemma flow_sell T ds sender height tx a :
  holders_ok ds -> map_Forall (fun _ => order_ok) (orders ds) ->
  orders ds !! default EmptyString tx.(tx_id) = None -> in_u64 (default 0 a.(ta_amount)) ->
  flow_ok T ds (token_sell ds sender height tx a) 0 0.
Proof.
  intros Hh Ho Hn Hr. unfold token_sell. eapply flow_order; try done.
  - intros b _. destruct (pending ds b !! _) as [x|] eqn:Hx; [|done]. apply (orders_pending ds b) in Hx; [congruence|done].
  - split; cbn; bounds; lia.
  - rewrite Hn, (circulating_entry _ _ _ _ a.(ta_id) (- default 0 a.(ta_amount))) by done. unfold held. cbn.
    destruct (decide (ta_id a = T)); lia.
  - by apply supplied_same.
Qed.

Lemma flow_cancel T ds block a oid o :
  holders_ok ds -> map_Forall (fun _ => order_ok) (orders ds) -> orders ds !! oid = Some o ->
  o.(od_token_id) = a.(ta_id) -> is_open o = true -> flow_ok T ds (token_cancel ds block a oid o) 0 0.
Proof.
  intros Hh Ho Hx Ht Hop. unfold token_cancel. assert (Hok : order_ok o) by by apply (Ho oid).
  rewrite (remaining_held o Hok Hop).
  pose proof (flow_credit T o.(od_seller) a.(ta_id) (held o) ds Hh Ho) as F1. pose proof F1 as (Hh1 & Ho1 & _).
  destruct (entry_orders o.(od_seller) (dl_on_tokens (add_in a.(ta_id) (held o))) ds ltac:(done) Hh) as [He _].
  change (entry _ _ ds) with (credit_token o.(od_seller) a.(ta_id) (held o) ds) in He.
  set (ds1 := credit_token _ _ _ _) in *.
  enough (F2 : flow_ok T ds1 (entry (od_seller o) (dl_on_orders <[oid:=od_close (Some (b_height block)) o]>) ds1)
            (- if decide (ta_id a = T) then held o else 0) 0).
  { pose proof (flow_trans _ _ _ _ _ _ _ _ F1 F2) as F. rewrite Z.add_opp_diag_r in F. exact F. }
  eapply flow_order; try done.
  - intros b Hb. apply (order_elsewhere ds1 oid o); [done|by rewrite He|done].
  - rewrite He, Hx, circulating_same by done. cbn. rewrite Ht. destruct (decide _); cbn; lia.
  - by apply supplied_same.
Qed.

Lemma flow_buy T ds sender block i tx a oid o :
  holders_ok ds -> map_Forall (fun _ => order_ok) (orders ds) -> orders ds !! oid = Some o ->
  o.(od_token_id) = a.(ta_id) -> is_open o = true -> 0 <= default 0 a.(ta_amount) <= o.(od_amount) - o.(od_filled) ->
  flow_ok T ds (token_buy ds sender block i tx a oid o) 0 0.
Proof.
  intros Hh Ho Hx Ht Hop Ha. unfold token_buy. assert (Hok : order_ok o) by by apply (Ho oid).
  set (amount := default 0 a.(ta_amount)) in *. set (tid := default EmptyString _).
  set (f1 := fun d => dl_on_trades _ _). set (ds1 := entry sender f1 ds).
  assert (F1 : flow_ok T ds ds1 (if decide (a.(ta_id) = T) then amount else 0) 0).
  { apply flow_entry; try done; [by apply circulating_entry|rewrite supplied_same by done; lia]. }
  destruct (entry_orders sender f1 ds ltac:(done) Hh) as [E1 H1]. fold ds1 in E1, H1.
  unfold credit. set (f2 := dl_on_balance _). set (ds2 := entry (od_seller o) f2 ds1).
  assert (F2 : flow_ok T ds1 ds2 0 0).
  { apply flow_entry; try done; [by rewrite E1|rewrite circulating_same by done; lia|rewrite supplied_same by done; lia]. }
  destruct (entry_orders (od_seller o) f2 ds1 ltac:(done) H1) as [E2 H2]. fold ds2 in E2, H2.
  destruct (fill_held o amount (b_height block) tid Hok Hop Ha) as [Hok' Hheld].
  enough (F3 : flow_ok T ds2 (entry (od_seller o) (dl_on_orders <[oid:=od_fill amount (b_height block) tid o]>) ds2)
            (- if decide (ta_id a = T) then amount else 0) 0).
  { pose proof (flow_trans _ _ _ _ _ _ _ _ (flow_trans _ _ _ _ _ _ _ _ F1 F2) F3) as F.
    rewrite Z.add_0_r, Z.add_opp_diag_r in F. exact F. }
  eapply flow_order; try done.
  - by rewrite E2, E1.
  - intros b Hb. apply (order_elsewhere ds2 oid o); [done|by rewrite E2, E1|done].
  - rewrite E2, E1, Hx, circulating_same by done. cbn [fmap option_fmap option_map default from_option].
    rewrite Hheld. cbn [od_fill od_token_id]. rewrite Ht. destruct (decide _); cbn; lia.
  - by apply supplied_same.
Qed.

Lemma flow_init T ds sender height tx a ds' :
  holders_ok ds -> map_Forall (fun _ => order_ok) (orders ds) -> token_init n s ds sender height a = Ok ds' ->
  flow_ok T ds ds' (if decide (a.(ta_id) = T) then default 0 a.(ta_initial_supply) else 0) 0.
Proof.
  intros Hh Ho H. unfold token_init in H. apply rbind_ok_inv in H as (so & _ & H). apply Ok_inj in H as <-.
  apply flow_entry; try done; [by apply circulating_entry|rewrite supplied_same by done; lia].
Qed.

Lemma flow_quiet T ds ds' : holders_ok ds -> map_Forall (fun _ => order_ok) (orders ds) -> quiet_all ds ds' -> flow_ok T ds ds' 0 0.
Proof.
  intros Hh Ho Hq. destruct (orders_ext ds ds' Hh) as [He Hh'].
  { intros a. destruct (Hq a) as (_ & _ & _ & H). done. }
  assert (Hsum : forall g : WalletDelta -> Z, g delta_default = 0 -> (forall d d', quiet d d' -> g d' = g d) -> map_sum g ds' = map_sum g ds).
  { intros g H0 Hg. apply map_sum_default. intros k. specialize (Hg _ _ (Hq k)).
    destruct (ds !! k), (ds' !! k); cbn in *; congruence. }
  split_and!; [done|by rewrite He| |].
  - unfold escrow, circulating. rewrite He. enough (map_sum (fun d => default 0 (dl_tokens d !! T)) ds' = map_sum (fun d => default 0 (dl_tokens d !! T)) ds) by lia.
    apply Hsum; [done|]. intros d d' (_ & Hx & _). by rewrite Hx.
  - unfold supplied. rewrite Hsum; [lia|done|]. intros d d' (_ & _ & Hx & _). by rewrite Hx.
Qed.

Lemma flow_token T ds sender block i tx a ds' :
  0 <= tx.(tx_type_) ->
  holders_ok ds -> map_Forall (fun _ => order_ok) (orders ds) -> token_asset tx = Some a -> admissible ds tx a = true ->
  token_deltas n s ds sender block i tx a = Ok ds' ->
  flow_ok T ds ds' (created T tx + minted T tx) (minted T tx).
Proof.
  intros Hpos Hh Ho Hta (Hsell & Hbuy & Hcancel)%admissible_spec H. unfold created, minted. rewrite Hta. unfold token_deltas in H.
  assert (Hty : tx_type_ tx <= token.LAST).
  { unfold token_asset, is_token in Hta. destruct (_ =? TYPE_GROUP_TOKEN); [|done]. cbn [andb] in Hta.
    destruct (Z.leb_spec (tx_type_ tx) token.LAST); [done|discriminate Hta]. }
  destruct (Z.eqb_spec (tx_type_ tx) token.INIT) as [E0|N0].
  { rewrite E0. cbn. replace ((if decide (ta_id a = T) then default 0 (ta_initial_supply a) else 0) + (if decide (ta_id a = T) then 0 else 0))
      with (if decide (ta_id a = T) then default 0 (ta_initial_supply a) else 0) by (destruct (decide _); lia).
    replace (if decide (ta_id a = T) then 0 else 0) with 0 by (by destruct (decide _)). by eapply flow_init. }
  destruct (Z.eqb_spec (tx_type_ tx) token.TRANSFER) as [E1|N1].
  { apply Ok_inj in H as <-. rewrite E1. cbn. replace (if decide (ta_id a = T) then 0 else 0) with 0 by (by destruct (decide _)).
    unfold token_transfer. by apply flow_transfer. }
  destruct (Z.eqb_spec (tx_type_ tx) token.MINT) as [E2|N2].
  { apply Ok_inj in H as <-. set (v := default 0 (ta_amount a)).
    pose proof (flow_credit T (default EmptyString (ta_recipient_id a)) (ta_id a) v ds Hh Ho) as F1. pose proof F1 as (Hh1 & Ho1 & _).
    pose proof (flow_trans _ _ _ _ _ _ _ _ F1 (flow_supply T sender (ta_id a) v _ Hh1 Ho1)) as F.
    replace (if decide (ta_id a = T) then 0 else 0) with 0 by (by destruct (decide _)). rewrite Z.add_0_r, Z.add_0_l in F.
    rewrite Z.add_0_l. exact F. }
  assert (Hz : (if decide (ta_id a = T) then 0 else 0) = 0) by (by destruct (decide _)). rewrite Hz.
  destruct (Z.eqb_spec (tx_type_ tx) token.META) as [E4|N4].
  { apply Ok_inj in H as <-. rewrite E4. cbn. rewrite Hz. destruct (ta_meta a); [|by apply flow_refl].
    apply flow_entry; try done; [rewrite circulating_same by done; lia|rewrite supplied_same by done; lia]. }
  destruct (Z.eqb_spec (tx_type_ tx) token.SELL) as [E5|N5].
  { apply Ok_inj in H as <-. rewrite E5. cbn. rewrite Hz. destruct (Hsell E5) as [Hn Hr]. by apply flow_sell. }
  destruct (Z.eqb_spec (tx_type_ tx) token.BUY) as [E6|N6]; [|destruct (Z.eqb_spec (tx_type_ tx) token.CANCEL) as [E7|N7]]; cbn [orb] in H.
  - rewrite E6. cbn. rewrite Hz. rewrite current_order_lookup in H. apply rbind_ok_inv in H as (o & Ho1 & H). destruct (orders ds !! default EmptyString (ta_order_id a)) as [o1|] eqn:Hord; cbn in Ho1; [|done]. apply Ok_inj in Ho1 as ->.
    apply Ok_inj in H as <-. destruct (Hbuy E6 o eq_refl) as (? & ? & ?). by apply flow_buy.
  - rewrite E7. cbn. rewrite Hz. rewrite current_order_lookup in H. apply rbind_ok_inv in H as (o & Ho1 & H). destruct (orders ds !! default EmptyString (ta_order_id a)) as [o1|] eqn:Hord; cbn in Ho1; [|done]. apply Ok_inj in Ho1 as ->.
    apply Ok_inj in H as <-. destruct (Hcancel E7 o eq_refl) as (? & ?). by apply flow_cancel.
  - apply Ok_inj in H as <-. destruct (Z.eqb_spec (tx_type_ tx) token.BURN) as [E3|N3].
    2: { unfold token.LAST, token.CANCEL, token.INIT, token.TRANSFER, token.MINT, token.META, token.SELL, token.BUY, token.BURN in *. lia. }
    unfold token_burn. set (v := default 0 (ta_amount a)).
    pose proof (flow_credit T sender (ta_id a) (- v) ds Hh Ho) as F1. pose proof F1 as (Hh1 & Ho1 & _).
    match goal with |- context [add_supply ?w _ _ _] =>
      pose proof (flow_trans _ _ _ _ _ _ _ _ F1 (flow_supply T w (ta_id a) (- v) _ Hh1 Ho1)) as F end.
    rewrite Z.add_0_r, Z.add_0_l in F. rewrite Z.add_0_l. exact F.
Qed.

(** ** The orders after a token transaction *)

(** A sell adds its order, a purchase or cancellation changes the order it names. *)
Definition orders_after ds (sender : string) block tx (a : TokenAsset) : gmap string TokenOrder :=
  let m := orders ds in
  let id := default EmptyString tx.(tx_id) in
  let oid := default EmptyString a.(ta_order_id) in
  let amount := default 0 a.(ta_amount) in
  if tx.(tx_type_) =? token.SELL
  then <[id := mkOrder id a.(ta_id) sender amount 0 (default 0 a.(ta_price)) block.(b_height) None []]> m
  else if tx.(tx_type_) =? token.BUY
  then alter (od_fill amount block.(b_height) id) oid m
  else if tx.(tx_type_) =? token.CANCEL then alter (od_close (Some block.(b_height))) oid m
  else m.

Lemma alter_some (f : TokenOrder -> TokenOrder) (m : gmap string TokenOrder) k o : m !! k = Some o -> alter f k m = <[k := f o]> m.
Proof.
  intros Hk. apply map_eq. intros j. destruct (decide (k = j)) as [->|Hne].
  - by rewrite lookup_alter_eq, lookup_insert_eq, Hk.
  - by rewrite lookup_alter_ne, lookup_insert_ne.
Qed.

Lemma credit_token_orders a id x ds : holders_ok ds -> orders (credit_token a id x ds) = orders ds /\ holders_ok (credit_token a id x ds).
Proof. by apply entry_orders. Qed.

Lemma transfer_orders sender id l ds : holders_ok ds ->
  let ds' := foldl (fun ds it => credit_token it.(ti_recipient_id) id it.(ti_amount) (credit_token sender id (- it.(ti_amount)) ds)) ds l in
  orders ds' = orders ds /\ holders_ok ds'.
Proof.
  revert ds; induction l as [|it l IH]; intros ds Hh; cbn; [done|].
  destruct (credit_token_orders sender id (- ti_amount it) ds Hh) as [E1 H1].
  destruct (credit_token_orders (ti_recipient_id it) id (ti_amount it) _ H1) as [E2 H2].
  destruct (IH _ H2) as [E3 H3]. split; [|done]. cbn in E3. by rewrite E3, E2, E1.
Qed.

Lemma token_deltas_orders ds sender block i tx a ds' :
  holders_ok ds -> (tx.(tx_type_) = token.SELL -> orders ds !! default EmptyString tx.(tx_id) = None) ->
  token_deltas n s ds sender block i tx a = Ok ds' ->
  orders ds' = orders_after ds sender block tx a /\ holders_ok ds'.
Proof.
  intros Hh Hsell H. unfold token_deltas in H. unfold orders_after.
  destruct (Z.eqb_spec (tx_type_ tx) token.INIT) as [E0|N0].
  { rewrite E0. cbn. unfold token_init in H. apply rbind_ok_inv in H as (so & _ & H). apply Ok_inj in H as <-. by apply entry_orders. }
  destruct (Z.eqb_spec (tx_type_ tx) token.TRANSFER) as [E1|N1].
  { rewrite E1. cbn. apply Ok_inj in H as <-. by apply transfer_orders. }
  destruct (Z.eqb_spec (tx_type_ tx) token.MINT) as [E2|N2].
  { rewrite E2. cbn. apply Ok_inj in H as <-. unfold add_supply.
    destruct (credit_token_orders (default EmptyString (ta_recipient_id a)) (ta_id a) (default 0 (ta_amount a)) ds Hh) as [<- H1].
    by apply entry_orders. }
  destruct (Z.eqb_spec (tx_type_ tx) token.META) as [E4|N4].
  { rewrite E4. cbn. apply Ok_inj in H as <-. destruct (ta_meta a); [by apply entry_orders|done]. }
  destruct (Z.eqb_spec (tx_type_ tx) token.SELL) as [E5|N5].
  { apply Ok_inj in H as <-. apply (orders_insert _ _ _ _ _); [done|done|done|]. intros b _.
    destruct (pending ds b !! _) as [x|] eqn:Hx; [|done]. apply (orders_pending ds b) in Hx; [|done]. by rewrite Hsell in Hx. }
  destruct (Z.eqb_spec (tx_type_ tx) token.BUY) as [E6|N6]; [|destruct (Z.eqb_spec (tx_type_ tx) token.CANCEL) as [E7|N7]]; cbn [orb] in H.
  - rewrite current_order_lookup in H. apply rbind_ok_inv in H as (o & Ho1 & H).
    destruct (orders ds !! default EmptyString (ta_order_id a)) as [o1|] eqn:Hord; cbn in Ho1; [|done]. apply Ok_inj in Ho1 as ->.
    apply Ok_inj in H as <-. rewrite (alter_some _ _ _ _ Hord). unfold token_buy, credit.
    set (f1 := fun d => dl_on_trades _ _). destruct (entry_orders sender f1 ds ltac:(done) Hh) as [<- H1].
    set (f2 := dl_on_balance _). destruct (entry_orders (od_seller o) f2 (entry sender f1 ds) ltac:(done) H1) as [<- H2].
    apply (orders_insert _ _ _ _ _); [done|done|done|]. intros b Hb. eapply order_elsewhere; [done| |done].
    rewrite (proj1 (entry_orders (od_seller o) f2 _ ltac:(done) H1)), (proj1 (entry_orders sender f1 ds ltac:(done) Hh)). done.
  - rewrite current_order_lookup in H. apply rbind_ok_inv in H as (o & Ho1 & H).
    destruct (orders ds !! default EmptyString (ta_order_id a)) as [o1|] eqn:Hord; cbn in Ho1; [|done]. apply Ok_inj in Ho1 as ->.
    apply Ok_inj in H as <-. rewrite (alter_some _ _ _ _ Hord). unfold token_cancel.
    destruct (credit_token_orders (od_seller o) (ta_id a) (remaining o) ds Hh) as [E1 H1]. rewrite <-E1.
    apply (orders_insert _ _ _ _ _); [done|done|done|]. intros b Hb. eapply order_elsewhere; [done| |done]. by rewrite E1.
  - apply Ok_inj in H as <-. unfold token_burn, add_supply.
    destruct (credit_token_orders sender (ta_id a) (- default 0 (ta_amount a)) ds Hh) as [<- H1]. by apply entry_orders.
Qed.

(** ** Blocks *)

Lemma flow_tx T block batch ds p ds' :
  tx_deltas n s block batch ds p = Ok ds' -> 0 <= p.2.(tx_type_) ->
  holders_ok ds -> map_Forall (fun _ => order_ok) (orders ds) ->
  (forall a, token_asset p.2 = Some a -> admissible ds p.2 a = true) ->
  flow_ok T ds ds' (created T p.2 + minted T p.2) (minted T p.2).
Proof.
  destruct p as [i tx]. cbn [snd]. unfold tx_deltas. intros H Hty Hh Ho Ha.
  apply rbind_ok_inv in H as (sender & _ & H). cbn beta zeta in H.
  assert (F1 : flow_ok T ds (sender_deltas ds sender tx) 0 0).
  { apply flow_entry; try done; [rewrite circulating_same by done; lia|rewrite supplied_same by done; lia]. }
  pose proof F1 as (Hh1 & Ho1 & _).
  assert (He : orders (sender_deltas ds sender tx) = orders ds) by by apply entry_orders.
  enough (F2 : flow_ok T (sender_deltas ds sender tx) ds' (created T tx + minted T tx) (minted T tx)).
  { pose proof (flow_trans _ _ _ _ _ _ _ _ F1 F2) as F. by rewrite !Z.add_0_l in F. }
  destruct (token_asset tx) as [a|] eqn:Hta.
  - assert (Hns : sobj_asset tx = None).
    { unfold sobj_asset. rewrite token_not_sobj; [done|]. unfold token_asset in Hta. by destruct (is_token tx). }
    rewrite Hns in H. eapply flow_token; try done. unfold admissible. rewrite He. by apply Ha.
  - unfold created, minted. rewrite Hta. change (0 + 0) with 0. destruct (sobj_asset tx) as [e|].
    + apply Ok_inj in H as <-. apply flow_quiet; [done|done|apply quiet_sobj].
    + destruct (negb _); [apply Ok_inj in H as <-; by apply flow_refl|]. apply quiet_core in H. by apply flow_quiet.
Qed.

(** Every token transaction is admissible when its turn comes. *)
Fixpoint admissible_run block (batch : list Block) ds (l : list (nat * Transaction)) : bool :=
  match l with
  | [] => true
  | p :: l =>
      match token_asset p.2 with Some a => admissible ds p.2 a | None => true end &&
      match tx_deltas n s block batch ds p with Ok ds' => admissible_run block batch ds' l | Err _ => true end
  end.

Lemma flow_txs T block batch l ds ds' :
  rfold (tx_deltas n s block batch) l ds = Ok ds' -> Forall (fun p => 0 <= p.2.(tx_type_)) l ->
  holders_ok ds -> map_Forall (fun _ => order_ok) (orders ds) -> admissible_run block batch ds l = true ->
  flow_ok T ds ds' (zsum ((fun p => created T p.2 + minted T p.2) <$> l)) (zsum ((fun p => minted T p.2) <$> l)).
Proof.
  revert ds; induction l as [|p l IH]; intros ds H Hty Hh Ho Ha; cbn in H.
  { apply Ok_inj in H as <-. by apply flow_refl. }
  apply rbind_ok_inv in H as (ds1 & H1 & H). apply Forall_cons in Hty as [Hp Hty]. cbn in Ha.
  apply andb_true_iff in Ha as [Ha Hr]. rewrite H1 in Hr.
  assert (Ha' : forall a, token_asset p.2 = Some a -> admissible ds p.2 a = true) by (intros a Hta; by rewrite Hta in Ha).
  pose proof (flow_tx T _ _ _ _ _ H1 Hp Hh Ho Ha') as F1. pose proof F1 as (Hh1 & Ho1 & _). cbn [fmap list_fmap zsum].
  eapply flow_trans; [exact F1|]. by apply IH.
Qed.

Lemma quiet_generator ds generator block : quiet_all ds (generator_deltas n ds generator block).
Proof.
  unfold generator_deltas, credit. destruct (0 <? burned n block).
  - intros a. transitivity (default delta_default (entry (n_burn_address n) (dl_on_balance (fun b => b + burned n block)) ds !! a)).
    + by apply quiet_entry; [|reflexivity].
    + by apply quiet_entry; [|reflexivity].
  - by apply quiet_entry; [|reflexivity].
Qed.

Lemma holders_empty : holders_ok ∅.
Proof. split; [intros a oid o H|intros a b oid [o H]]; unfold pending in H; cbn in H; by rewrite lookup_empty in H. Qed.

Lemma orders_empty : orders ∅ = s.(st_orders).
Proof. done. Qed.

(** A block conserves every token.  When the market transactions are admissible at their turn,
    the balances and the open sell orders together change by exactly what the block creates, mints
    and burns, the recorded supply changes by what it mints and burns, and no order ever sells more
    than it holds. *)
Theorem tokens_conserved T block ds'
    (H : accumulate_deltas n s block [block] ∅ = Ok ds')
    (Hty : Forall (fun tx => in_u16 tx.(tx_type_)) block.(b_transactions))
    (Ho : map_Forall (fun _ => order_ok) s.(st_orders))
    (Ha : forall g, address_from_public_key block.(b_generator_public_key) n.(n_pubkey_hash) = Ok g ->
          admissible_run block [block] (generator_deltas n ∅ g block) (imap pair block.(b_transactions)) = true) :
  circulating T ds' + escrow T ds' = escrow T ∅ + zsum ((fun tx => created T tx + minted T tx) <$> block.(b_transactions)) /\
  supplied T ds' = zsum (minted T <$> block.(b_transactions)) /\
  map_Forall (fun _ => order_ok) (orders ds').
Proof.
  unfold accumulate_deltas in H. apply rbind_ok_inv in H as (g & Hg & H). specialize (Ha g Hg).
  pose proof (flow_quiet T ∅ (generator_deltas n ∅ g block) holders_empty Ho (quiet_generator _ _ _)) as F1.
  pose proof F1 as (Hh1 & Ho1 & _).
  assert (Hty' : Forall (fun p : nat * Transaction => 0 <= p.2.(tx_type_)) (imap pair block.(b_transactions))).
  { rewrite <-(imap_pair_snd block.(b_transactions)), Forall_fmap in Hty. eapply Forall_impl; [exact Hty|]. intros p [Hp _]. exact Hp. }
  pose proof (flow_trans _ _ _ _ _ _ _ _ F1 (flow_txs T _ _ _ _ _ H Hty' Hh1 Ho1 Ha)) as (_ & Ho2 & HC & HS).
  rewrite (zsum_imap_snd (fun tx => created T tx + minted T tx)) in HC. rewrite (zsum_imap_snd (minted T)) in HS.
  assert (circulating T ∅ = 0) as Hc by done. assert (supplied T ∅ = 0) as Hs0 by done. rewrite Hc in HC. rewrite Hs0 in HS.
  split_and!; [lia|lia|done].
Qed.
End flow.
