(* ===== verification/Chain.v ===== *)
(** * Applying and rolling back blocks

    [apply_blocks], [apply_locked], the round snapshot, the missed-slot index, [rollback_last_block]
    and [rollback_to] of [src/src/storage.rs].  Each returns the tree it leaves behind together with
    how it ended: a failed sled transaction leaves the tree of before, but what was committed
    earlier in the same call stays. *)

From S2P Require Import Prelude Models Env Bytes Crypto Config TxCodec BlockCodec Wallet Round Tree Storage Deltas.

(** How a call ends; [Panicked] is an index out of bounds. *)
Inductive Exit : Type :=
| Done
| Failed (e : Error)
| Panicked.

(** A loop that stops at the first call that does not end well. *)
Fixpoint run_all {A} (f : Store -> A -> Store * Exit) (l : list A) (s : Store) : Store * Exit :=
  match l with
  | [] => (s, Done)
  | x :: l => match f s x with
              | (s, Done) => run_all f l s
              | r => r
              end
  end.

Section chain.
Context `{E : Env}.
Variable n : Network.
Implicit Types (s : Store) (block : Block).

(** Delegates of a round, never zero. *)
Definition round_size (height : Z) : Z := Z.max (milestone n height).(m_active_delegates) 1.

(** ** Round snapshot *)

Definition snapshot_round_if_boundary s (height : Z) : Store :=
  let k := round_size height in
  let s := if (height =? 1) && bool_decide (get_round s 1 = None) then save_round 1 (active_delegates n s k) s else s in
  if negb (height mod k =? 0) then s
  else save_round (round_info height k).(ri_next_round) (active_delegates n s k) s.

(** ** Missed slots *)

(** A total that falls to zero has no entry. *)
Definition bump_missed_total (pk : string) (delta : Z) s : Store :=
  on_missed_total (partial_alter (fun old =>
    let next := as_u64 (Z.max (as_i64 (as_i64 (default 0 old) + delta)) 0) in
    if 0 <? next then Some next else None) pk) s.

Definition missed_slot s block (order : list DelegateRank) (k blocktime : Z) (acc : Store * list MissedSlot) (slot : Z)
    : option (Store * list MissedSlot) :=
  let '(s', l) := acc in
  match order !! Z.to_nat (slot mod k) with
  | None => None
  | Some d =>
      let pk := d.(dr_public_key) in
      let username := match res_ok (address_from_public_key pk n.(n_pubkey_hash)) with
                      | Some a => match get_wallet s a with Some w => w.(ws_username) | None => None end
                      | None => None
                      end in
      Some (bump_missed_total pk 1 s', l ++ [mkMissed block.(b_height) slot (slot_start slot blocktime) pk username])
  end.

Fixpoint missed_slots s block order k blocktime (slots : list Z) (acc : Store * list MissedSlot) : Store * option (list MissedSlot) :=
  match slots with
  | [] => (acc.1, Some acc.2)
  | slot :: slots =>
      match missed_slot s block order k blocktime acc slot with
      | None => (acc.1, None)
      | Some acc => missed_slots s block order k blocktime slots acc
      end
  end.

(** Slots skipped since the previous block, charged to the delegates that owned them; the table of
    the round is read once, a gap of more than a round is not charged. *)
Definition record_missed_slots s (prev_timestamp : Z) block : Store * Exit :=
  let ms := milestone n block.(b_height) in
  let blocktime := ms.(m_blocktime) in
  let k := Z.max ms.(m_active_delegates) 1 in
  let prev_slot := slot_number prev_timestamp blocktime in
  let cur_slot := slot_number block.(b_timestamp) blocktime in
  if (cur_slot <=? prev_slot + 1) || (k <? cur_slot - prev_slot - 1) then (s, Done)
  else
    match forging_order s (round_info block.(b_height) k).(ri_round) with
    | None => (s, Done)
    | Some order =>
        match missed_slots s block order k blocktime (seqZ (prev_slot + 1) (cur_slot - prev_slot - 1)) (s, []) with
        | (s, None) => (s, Panicked)
        | (s, Some l) => (on_missed_at (insert block.(b_height) l) s, Done)
        end
    end.

Definition drop_missed_at s (height : Z) : Store :=
  match s.(st_missed_at) !! height with
  | None => s
  | Some l => foldl (fun s m => bump_missed_total m.(mi_public_key) (- 1) s) (on_missed_at (delete height) s) l
  end.

(** Statistics of every applied block; an error is only logged, a panic is not caught. *)
Fixpoint record_all (prev : option Z) (blocks : list Block) s : Store * Exit :=
  match blocks with
  | [] => (s, Done)
  | b :: blocks =>
      match (match prev with Some p => record_missed_slots s p b | None => (s, Done) end) with
      | (s, Panicked) => (s, Panicked)
      | (s, _) => record_all (Some b.(b_timestamp)) blocks s
      end
  end.

(** ** Application *)

Definition keep_undo (height : Z) (u : UndoRecord) s : Store :=
  let s := on_undo (insert height u) s in
  if UNDO_DEPTH <? height then on_undo (delete (height - UNDO_DEPTH)) s else s.

(** The sled transaction of [apply_locked]; [first] is the first block of the batch. *)
Definition commit s (first : Block) (prepared : list (Block * list byte)) (deltas : Deltas) (undo_on : bool) : Res Store :=
  let? _ := check_tip s first in
  let? (s, u, _) := write_wallets_undo s deltas undo_on in
  let? s := rfold (fun s p => write_block p.1 p.2 n.(n_pubkey_hash) s) prepared s in
  Ok (if undo_on then keep_undo first.(b_height) u s else s).

(** The deltas of all blocks of a batch, from the store as it is before the batch. *)
Definition batch_deltas s (batch : list Block) : Res Deltas :=
  rfold (fun ds b => accumulate_deltas n s b batch ds) batch ∅.

Definition previous_timestamp s (height : Z) : option Z :=
  if 1 <? height then
    match res_ok (get_block_by_height n s (height - 1)) with
    | Some (Some b) => Some b.(b_timestamp)
    | _ => None
    end
  else None.

(** [blocks] is not empty at any call. *)
Definition apply_locked s (blocks : list Block) (force_undo undo_enabled : bool) : Store * Exit :=
  let undo_on := force_undo || undo_enabled in
  match rmapM (prepare_block n) blocks with
  | Err e => (s, Failed e)
  | Ok prepared =>
      let batch := fst <$> prepared in
      match batch_deltas s batch with
      | Err e => (s, Failed e)
      | Ok deltas =>
          match batch with
          | [] => (s, Panicked)
          | first :: _ =>
              match commit s first prepared deltas undo_on with
              | Err e => (s, Failed e)
              | Ok s =>
                  let s := match last batch with Some b => snapshot_round_if_boundary s b.(b_height) | None => s end in
                  record_all (previous_timestamp s first.(b_height)) batch s
              end
          end
      end
  end.

Definition is_boundary (block : Block) : bool := block.(b_height) mod round_size block.(b_height) =? 0.

(** Bulk mode: a batch ends at every round boundary. *)
Fixpoint bulk (pending blocks : list Block) s : Store * Exit :=
  match blocks with
  | [] => (s, Done)
  | b :: blocks =>
      if is_boundary b || bool_decide (blocks = [])
      then match apply_locked s (pending ++ [b]) false false with
           | (s, Done) => bulk [] blocks s
           | r => r
           end
      else bulk (pending ++ [b]) blocks s
  end.

Definition apply_blocks s (blocks : list Block) (undo_enabled : bool) : Store * Exit :=
  match blocks with
  | [] => (s, Done)
  | [b] => apply_locked s [b] true undo_enabled
  | _ => if undo_enabled then run_all (fun s b => apply_locked s [b] true undo_enabled) blocks s
         else bulk [] blocks s
  end.

Definition apply_block s (block : Block) (undo_enabled : bool) : Store * Exit := apply_blocks s [block] undo_enabled.

(** ** Roll back *)

(** Highest certificate. *)
Definition cert_le (x y : Z * FinalityCert) : Prop := x.1 <= y.1.
#[export] Instance cert_le_dec x y : Decision (cert_le x y) := Z.le_dec _ _.
Definition latest_finality_cert s : option FinalityCert :=
  snd <$> last (sort_by cert_le (map_to_list s.(st_finality))).

(** Every market entry of a touched wallet goes first. *)
Definition clear_market s (p : string * option WalletState) : Store :=
  match s.(st_wallets) !! p.1 with
  | None => s
  | Some cur => on_market (remove_all (fst <$> bt_entries cur.(ws_sobjects))) s
  end.

Definition for_sale (rec : SmartObject) : bool := bool_decide (is_Some rec.(so_price)) && negb rec.(so_resigned).

Definition wallet_sobjects (o : option WalletState) : list (string * SmartObject) :=
  match o with Some w => bt_entries w.(ws_sobjects) | None => [] end.
Definition wallet_locks (o : option WalletState) : list (string * LockRecord) :=
  match o with Some w => bt_entries w.(ws_locks) | None => [] end.

Definition has_commitment (o : option WalletState) : bool :=
  match o with Some w => bool_decide (is_Some w.(ws_pq_commitment)) | None => false end.
Definition has_pq_key (o : option WalletState) : bool :=
  match o with Some w => bool_decide (is_Some w.(ws_pq_key)) | None => false end.

Definition opt_delete (k : option string) (m : gmap string string) : gmap string string :=
  match k with Some k => delete k m | None => m end.

Definition restore_wallet s (p : string * option WalletState) : Store :=
  let '(address, previous) := p in
  let current := s.(st_wallets) !! address in
  let s := adjust_votes (vote_weight current) (vote_weight previous) s in
  let s := foldl (fun s q => if for_sale q.2 then on_market (insert q.1 address) s else s) s (wallet_sobjects previous) in
  let s := on_locks (remove_all (fst <$> wallet_locks current)) s in
  let s := if has_commitment current && negb (has_commitment previous) then on_pq_commit (delete address) s else s in
  let s := if has_pq_key current && negb (has_pq_key previous) then on_pq_keys (delete address) s else s in
  match previous with
  | Some w =>
      on_locks (insert_all ((fun q => (q.2.(lk_lock_id), q.2)) <$> wallet_locks previous)) (on_wallets (insert address w) s)
  | None =>
      let s := on_wallets (delete address) s in
      match current with
      | Some c => on_wallet_username (opt_delete c.(ws_username)) (on_wallet_pk (opt_delete c.(ws_public_key)) s)
      | None => s
      end
  end.

(** SmartObject owners before the block. *)
Definition previous_owners (undo : UndoRecord) : gmap string string :=
  foldl (fun m p => foldl (fun m q => <[q.1 := p.1]> m) m (wallet_sobjects p.2)) ∅ undo.

Definition od_unfill (amount : Z) (tx_id : option string) (o : TokenOrder) : TokenOrder :=
  mkOrder o.(od_id) o.(od_token_id) o.(od_seller) o.(od_amount) (sat_sub o.(od_filled) amount) o.(od_price) o.(od_height)
    o.(od_closed) (filter (fun f => Some f <> tx_id) o.(od_fills)).

(** Sell: drop the record; buy: un-fill; cancel: reopen. *)
Definition undo_order (height : Z) s (p : nat * Transaction) : Store :=
  let '(i, tx) := p in
  match token_asset tx with
  | None => s
  | Some a =>
      let s := if tx.(tx_type_) =? token.BUY
               then on_trades (delete (a.(ta_id), height, tx_seq i tx)) s else s in
      if tx.(tx_type_) =? token.SELL then
        let oid := default EmptyString tx.(tx_id) in
        match s.(st_orders) !! oid with
        | None => s
        | Some o => on_orders (delete oid) (on_sellers (delete (seller_key o)) (on_book (delete (book_key o)) s))
        end
      else if (tx.(tx_type_) =? token.BUY) || (tx.(tx_type_) =? token.CANCEL) then
        let oid := default EmptyString a.(ta_order_id) in
        match s.(st_orders) !! oid with
        | None => s
        | Some o =>
            let o := if tx.(tx_type_) =? token.BUY then od_unfill (default 0 a.(ta_amount)) tx.(tx_id) o else o in
            write_order s (od_close None o)
        end
      else s
  end.

(** SmartObject and token indexes of one transaction. *)
Definition undo_sobj_index (owners : gmap string string) tx s : Res Store :=
  match sobj_asset tx with
  | None => Ok s
  | Some e =>
      let s := match e.(sa_action) =? sobj.ACTION_REGISTER, e.(sa_data).(sd_name) with
               | true, Some name => on_sobj_names (delete (sobj_name_key name e.(sa_type_))) s
               | _, _ => s
               end in
      if (e.(sa_action) =? sobj.ACTION_TRANSFER) || (e.(sa_action) =? sobj.ACTION_BUY) then
        match e.(sa_registration_id) with
        | None => Ok s
        | Some reg =>
            let? owner := match owners !! reg with
                          | Some o => Ok o
                          | None => address_from_public_key tx.(tx_sender_public_key) n.(n_pubkey_hash)
                          end in
            let s := on_sobj_owner (insert reg owner) s in
            Ok (if bool_decide (is_Some (s.(st_token_owner) !! reg)) then on_token_owner (insert reg owner) s else s)
        end
      else Ok s
  end.

Definition undo_token_index (symbols : list (string * string)) tx s : Store :=
  if is_init tx then
    match token_asset tx with
    | None => s
    | Some a =>
        on_token_symbol (remove_all (fst <$> filter (fun p => p.2 = a.(ta_id)) symbols)) (on_token_owner (delete a.(ta_id)) s)
    end
  else s.

Definition undo_tx (height : Z) (owners : gmap string string) (symbols : list (string * string)) s (p : nat * Transaction) : Res Store :=
  let '(i, tx) := p in
  match tx.(tx_id) with
  | None => Ok s
  | Some id =>
      let? s := undo_sobj_index owners tx s in
      let s := undo_token_index symbols tx s in
      let s := on_txs (delete id) s in
      let seq := tx_seq i tx in
      let s := on_tx_list (delete (height, seq)) s in
      let? addrs := tx_addresses tx n.(n_pubkey_hash) in
      Ok (foldl (fun s addr => on_wallet_tx (delete (addr, height, seq)) s) s addrs)
  end.

Definition is_token_group tx : bool := tx.(tx_type_group) =? TYPE_GROUP_TOKEN.

(** The sled transaction of [rollback_last_block]. *)
Definition undo_block s (height : Z) (block : Block) (undo : UndoRecord) (symbols : list (string * string)) : Res Store :=
  let s := foldl clear_market s undo in
  let s := foldl restore_wallet s undo in
  let s := foldl (undo_order height) s (rev (List.filter (fun p => is_token_group p.2) (imap pair block.(b_transactions)))) in
  let? s := rfold (undo_tx height (previous_owners undo) symbols) (imap pair block.(b_transactions)) s in
  let s := bump_tx_count (as_i64 (- as_i64 (indexed block.(b_transactions)))) s in
  let s := match block.(b_id) with Some id => on_block_ids (delete id) s | None => s end in
  Ok (on_last_height (fun _ => Some (as_u64 (height - 1))) (on_undo (delete height) (on_blocks (delete height) s))).

Definition rollback_block s (height : Z) : Store * Res Z :=
  match get_block_by_height n s height with
  | Err e => (s, Err e)
  | Ok None => (s, Err (ENotFound ("block " +:+ fmt_u height)))
  | Ok (Some block) =>
      match s.(st_undo) !! height with
      | None => (s, Err (ESync ("no undo record for block " +:+ fmt_u height)))
      | Some undo =>
          let symbols := if existsb is_token_group block.(b_transactions) then bt_entries s.(st_token_symbol) else [] in
          match undo_block s height block undo symbols with
          | Err e => (s, Err e)
          | Ok s =>
              let s := drop_missed_at s height in
              let k := round_size height in
              (if height mod k =? 0 then on_rounds (delete (round_info height k).(ri_next_round)) s else s, Ok (height - 1))
          end
      end
  end.

(** A certified block is final: refused in hard mode, its certificate is dropped in soft mode. *)
Definition rollback_last_block s : Store * Res Z :=
  let height := get_last_height s in
  if height <=? 1 then (s, Err (ESync "cannot roll back the genesis block"))
  else
    match latest_finality_cert s with
    | Some cert =>
        if height <=? cert.(fc_height) then
          if (milestone n height).(m_finality).(fp_active) then
            (s, Err (ESync ("FinalityViolation: block " +:+ fmt_u height +:+ " is final (certificate at "
               +:+ fmt_u cert.(fc_height) +:+ " with " +:+ fmt_u (Z.of_nat (size cert.(fc_votes)))
               +:+ " votes), refusing to roll back")))
          else rollback_block (on_finality (delete cert.(fc_height)) s) height
        else rollback_block s height
    | None => rollback_block s height
    end.

(** [while tip > height]: every turn lowers the tip by one; [fuel] bounds the turns. *)
Fixpoint rollback_go (fuel : nat) s (height tip : Z) : Store * Res Z :=
  if tip <=? height then (s, Ok tip)
  else match fuel with
       | O => (s, Ok tip)
       | S fuel => match rollback_last_block s with
                   | (s, Ok tip) => rollback_go fuel s height tip
                   | (s, Err e) => (s, Err e)
                   end
       end.

Definition rollback_to s (height : Z) : Store * Res Z :=
  rollback_go (Z.to_nat (get_last_height s)) s height (get_last_height s).

End chain.
