(* ===== verification/ChainFacts.v ===== *)
(** * Properties of the chain

    A block is applied once and only at the tip, the supply follows the blocks, a rollback puts the
    wallets and the vote index back, certified blocks stay, and a rollback to a height gets there. *)

From S2P Require Import Prelude Models Env Bytes Crypto Config TxCodec BlockCodec Wallet Round Tree.
From S2P Require Import Storage StorageFacts Deltas Chain.

(** ** Frames *)

(** What a commit and a rollback decide, apart from the round table and the statistics. *)
Definition ledger (s : Store) :=
  (s.(st_blocks), s.(st_wallets), s.(st_wallet_username), s.(st_undo), s.(st_votes), s.(st_finality),
   s.(st_equivocations), s.(st_last_height)).

(** The parts of the ledger a block write leaves alone. *)
Definition state (s : Store) :=
  (s.(st_wallets), s.(st_wallet_username), s.(st_undo), s.(st_votes), s.(st_finality), s.(st_equivocations)).

Lemma ledger_parts s s' : ledger s = ledger s' ->
  s.(st_blocks) = s'.(st_blocks) /\ s.(st_wallets) = s'.(st_wallets) /\ s.(st_wallet_username) = s'.(st_wallet_username) /\
  s.(st_undo) = s'.(st_undo) /\ s.(st_votes) = s'.(st_votes) /\ s.(st_finality) = s'.(st_finality) /\
  s.(st_equivocations) = s'.(st_equivocations) /\ s.(st_last_height) = s'.(st_last_height).
Proof. unfold ledger. intros H. injection H as H1 H2 H3 H4 H5 H6 H7 H8. done. Qed.

Section frames.
Context `{E : Env} (n : Network).

Lemma rfold_frame {A C} (p : Store -> C) (f : Store -> A -> Res Store) l s s' :
  (forall s x s', f s x = Ok s' -> p s' = p s) -> rfold f l s = Ok s' -> p s' = p s.
Proof.
  intros Hf. revert s; induction l as [|x l IH]; intros s H; cbn in H; [by apply Ok_inj in H as <-|].
  apply rbind_ok_inv in H as (s1 & H1 & H). by rewrite (IH _ H), (Hf _ _ _ H1).
Qed.

Lemma write_tx_ledger net h s p s' : write_tx net h s p = Ok s' -> ledger s' = ledger s.
Proof.
  destruct p as [i tx]. unfold write_tx. destruct (tx_id tx); [|by intros H; apply Ok_inj in H as <-].
  intros H. apply rbind_ok_inv in H as (addrs & _ & H). apply Ok_inj in H as <-. by rewrite (foldl_frame ledger).
Qed.

Lemma write_block_ok b enc net s s' :
  write_block b enc net s = Ok s' ->
  s'.(st_blocks) = <[b.(b_height) := enc]> s.(st_blocks) /\ state s' = state s /\
  s'.(st_last_height) = if get_last_height s <? b.(b_height) then Some b.(b_height) else s.(st_last_height).
Proof.
  unfold write_block. intros H. apply rbind_ok_inv in H as (s1 & H1 & H). apply Ok_inj in H as <-.
  apply (rfold_frame ledger) in H1; [|apply write_tx_ledger].
  set (x := as_i64 _). assert (H2 : ledger (bump_tx_count x s1) = ledger s1) by (unfold bump_tx_count; by destruct (x =? 0)).
  rewrite H1 in H2. apply ledger_parts in H2 as (B & W & U & D & V & F & Q & L).
  set (s2 := bump_tx_count x s1) in *.
  assert (HL : get_last_height s2 = get_last_height s) by (unfold get_last_height; rewrite L; by destruct (b_id b)).
  rewrite HL. destruct (get_last_height s <? b.(b_height)); unfold state; cbn; rewrite ?B, ?W, ?U, ?D, ?V, ?F, ?Q, ?L; by destruct (b_id b).
Qed.

Lemma bump_missed_ledger pk d s : ledger (bump_missed_total pk d s) = ledger s.
Proof. done. Qed.

Lemma missed_slots_frame {C} (p : Store -> C) s b order k bt slots acc :
  (forall pk d s, p (bump_missed_total pk d s) = p s) ->
  p (missed_slots n s b order k bt slots acc).1 = p acc.1.
Proof.
  intros Hp. revert acc; induction slots as [|x slots IH]; intros [s1 l]; cbn; [done|].
  destruct (order !! _); cbn; [|done]. by rewrite IH; cbn.
Qed.

Lemma record_missed_frame {C} (p : Store -> C) ts b s :
  (forall pk d s, p (bump_missed_total pk d s) = p s) -> (forall f s, p (on_missed_at f s) = p s) ->
  p (record_missed_slots n s ts b).1 = p s.
Proof.
  intros H1 H2. unfold record_missed_slots. destruct (_ || _); [done|]. destruct (forging_order _ _); [|done].
  match goal with |- context [missed_slots n s b ?o ?k ?bt ?sl ?acc] =>
    pose proof (missed_slots_frame p s b o k bt sl acc H1) as H; destruct (missed_slots n s b o k bt sl acc) as [s1 [r|]] end;
    cbn in *; by rewrite ?H2.
Qed.

Lemma record_all_frame {C} (p : Store -> C) prev l s :
  (forall pk d s, p (bump_missed_total pk d s) = p s) -> (forall f s, p (on_missed_at f s) = p s) ->
  p (record_all n prev l s).1 = p s.
Proof.
  intros H1 H2. revert prev s; induction l as [|b l IH]; intros prev s; cbn; [done|].
  destruct prev as [t|]; cbn; [|apply IH].
  pose proof (record_missed_frame p t b s H1 H2) as H. destruct (record_missed_slots n s t b) as [s1 []]; cbn in *; by rewrite ?IH.
Qed.

Lemma snapshot_frame {C} (p : Store -> C) h s :
  (forall f s, p (on_rounds f s) = p s) -> p (snapshot_round_if_boundary n s h) = p s.
Proof.
  intros Hp. unfold snapshot_round_if_boundary, save_round. destruct (_ && _), (negb _); by rewrite ?Hp.
Qed.

Lemma rmapM_nil_inv {A B X} (f : A -> result B X) l : rmapM f l = Ok [] -> l = [].
Proof. intros H. apply rmapM_length in H. by destruct l. Qed.

(** A block application that ends well, taken apart. *)
Lemma apply_one_inv s b s' u :
  apply_block n s b u = (s', Done) ->
  exists b' enc ds s1 s2 s3 ur out, prepare_block n b = Ok (b', enc) /\
    accumulate_deltas n s b' [b'] ∅ = Ok ds /\ check_tip s b' = Ok tt /\
    write_wallets_undo s ds true = Ok (s1, ur, out) /\
    write_block b' enc n.(n_pubkey_hash) s1 = Ok s2 /\ s3 = keep_undo b'.(b_height) ur s2 /\
    ledger s' = ledger s3.
Proof.
  unfold apply_block, apply_blocks, apply_locked. cbn [rmapM orb]. intros H.
  destruct (prepare_block n b) as [[b' enc]|e] eqn:Hp; cbn [rbind] in H; [|done].
  cbn [fst fmap list_fmap] in H. unfold batch_deltas in H. cbn [rfold] in H.
  destruct (accumulate_deltas n s b' [b'] ∅) as [ds|e] eqn:Hd; cbn [rbind] in H; [|done].
  unfold commit in H. destruct (check_tip s b') as [[]|e] eqn:Hc; cbn [rbind] in H; [|done].
  destruct (write_wallets_undo s ds true) as [[[s1 ur] out]|e] eqn:Hw; cbn [rbind] in H; [|done].
  cbn [rfold fst snd] in H. destruct (write_block b' enc _ s1) as [s2|e] eqn:Hb; cbn [rbind] in H; [|done].
  exists b', enc, ds, s1, s2, (keep_undo b'.(b_height) ur s2), ur, out. split_and!; try done.
  cbn [last] in H. apply (f_equal fst) in H. cbn [fst] in H. rewrite <-H.
  rewrite (record_all_frame ledger) by done. by rewrite (snapshot_frame ledger).
Qed.

Lemma prepare_block_height b b' enc : prepare_block n b = Ok (b', enc) -> b'.(b_height) = b.(b_height).
Proof.
  unfold prepare_block. intros H. apply rbind_ok_inv in H as (b1 & H1 & H). apply rbind_ok_inv in H as (txs & _ & H).
  apply rbind_ok_inv in H as (e & _ & H). apply Ok_inj, pair_eq in H as [<- _]. cbn.
  destruct (b_id b); [by apply Ok_inj in H1 as <-|]. apply rbind_ok_inv in H1 as (i & _ & H1). by apply Ok_inj in H1 as <-.
Qed.

Lemma keep_undo_parts h ur s :
  let s3 := keep_undo h ur s in
  s3.(st_blocks) = s.(st_blocks) /\ s3.(st_wallets) = s.(st_wallets) /\ s3.(st_votes) = s.(st_votes) /\
  s3.(st_finality) = s.(st_finality) /\ s3.(st_last_height) = s.(st_last_height) /\ s3.(st_undo) !! h = Some ur.
Proof.
  unfold keep_undo. destruct (UNDO_DEPTH <? h); cbn; split_and!; try done.
  - rewrite lookup_delete_ne by (unfold UNDO_DEPTH; lia). apply lookup_insert_eq.
  - apply lookup_insert_eq.
Qed.

(** The state after a block, in terms of the wallet writes. *)
Lemma apply_one_state s b s' u :
  apply_block n s b u = (s', Done) ->
  exists b' enc ds s1 ur out, prepare_block n b = Ok (b', enc) /\
    accumulate_deltas n s b' [b'] ∅ = Ok ds /\ check_tip s b' = Ok tt /\
    write_wallets_undo s ds true = Ok (s1, ur, out) /\
    s'.(st_wallets) = s1.(st_wallets) /\ s'.(st_votes) = s1.(st_votes) /\
    s'.(st_blocks) = <[b.(b_height) := enc]> s.(st_blocks) /\ s'.(st_undo) !! b.(b_height) = Some ur /\
    s'.(st_finality) = s.(st_finality) /\
    s'.(st_last_height) = if get_last_height s <? b.(b_height) then Some b.(b_height) else s.(st_last_height).
Proof.
  intros H. apply apply_one_inv in H as (b' & enc & ds & s1 & s2 & s3 & ur & out & Hp & Hd & Hc & Hw & Hb & -> & HL).
  exists b', enc, ds, s1, ur, out.
  pose proof (prepare_block_height _ _ _ Hp) as Hh.
  pose proof (write_wallets_ok _ _ _ _ _ _ Hw) as (_ & _ & _ & Hch). unfold chain in Hch.
  injection Hch as C1 C2 C3 C4 C5 C6 C7 C8 C9 C10 C11.
  apply write_block_ok in Hb as (B & S & L). unfold state in S. injection S as S1 S2 S3 S4 S5 S6.
  pose proof (keep_undo_parts b'.(b_height) ur s2) as (K1 & K2 & K3 & K4 & K5 & K6).
  apply ledger_parts in HL as (L1 & L2 & L3 & L4 & L5 & L6 & L7 & L8).
  unfold get_last_height in *. rewrite <-Hh. split_and!; try done; try congruence. by rewrite L8, K5, L, C10.
Qed.
End frames.

(** ** Once, and only at the tip *)

Section apply.
Context `{E : Env} (n : Network).

Lemma check_tip_ok s b : check_tip s b = Ok tt ->
  get_last_height s = 0 \/ b.(b_height) = as_u64 (get_last_height s + 1).
Proof.
  unfold check_tip. destruct (Z.eqb_spec (get_last_height s) 0); [by left|].
  destruct (Z.eqb_spec b.(b_height) (as_u64 (get_last_height s + 1))); [by right|done].
Qed.

Lemma check_tip_refuses s b : get_last_height s <> 0 -> b.(b_height) <> as_u64 (get_last_height s + 1) ->
  exists m, check_tip s b = Err (EStaleTip m).
Proof.
  intros H0 H1. unfold check_tip. destruct (Z.eqb_spec (get_last_height s) 0); [done|].
  destruct (Z.eqb_spec b.(b_height) (as_u64 (get_last_height s + 1))); [done|]. eauto.
Qed.

Lemma apply_refused s b u : get_last_height s <> 0 -> b.(b_height) <> as_u64 (get_last_height s + 1) ->
  exists e, apply_block n s b u = (s, Failed e).
Proof.
  intros H0 H1. unfold apply_block, apply_blocks, apply_locked. cbn [rmapM orb].
  destruct (prepare_block n b) as [[b' enc]|e] eqn:Hp; cbn [rbind]; [|eauto].
  cbn [fst fmap list_fmap]. destruct (batch_deltas n s [b']); [|eauto].
  pose proof (prepare_block_height n _ _ _ Hp) as Hh.
  destruct (check_tip_refuses s b') as [m Hm]; [done|by rewrite Hh|].
  unfold commit. rewrite Hm. cbn. eauto.
Qed.

(** A block that is applied becomes the tip, and it was the first block or came right after the
    old tip.  From then on every block that is not its successor, itself included, is refused and
    the store stays as it is. *)
Theorem apply_block_once s b u s' (H : apply_block n s b u = (s', Done))
    (Hh : 1 <= b.(b_height) < u64_max) (Hl : 0 <= get_last_height s < u64_max) :
  get_last_height s' = b.(b_height) /\
  (get_last_height s = 0 \/ b.(b_height) = get_last_height s + 1) /\
  (forall b2 u2, b2.(b_height) <> b.(b_height) + 1 -> exists e, apply_block n s' b2 u2 = (s', Failed e)).
Proof.
  apply apply_one_state in H as (b' & enc & ds & s1 & ur & out & Hp & _ & Hc & _ & _ & _ & _ & _ & _ & HL).
  pose proof (prepare_block_height n _ _ _ Hp) as Hb. apply check_tip_ok in Hc. rewrite Hb in Hc.
  rewrite as_u64_id in Hc by (bounds; lia).
  assert (Hlt : (get_last_height s <? b.(b_height)) = true) by (apply Z.ltb_lt; lia). rewrite Hlt in HL.
  assert (Ht : get_last_height s' = b.(b_height)) by (unfold get_last_height; by rewrite HL).
  split_and!; [done|done|]. intros b2 u2 H2. apply apply_refused; rewrite Ht; [lia|].
  rewrite as_u64_id by (bounds; lia). done.
Qed.

(** ** Supply *)

Definition supply_of (s : Store) : Z := map_sum ws_balance s.(st_wallets).

Lemma write_wallets_supply b l s u out s' u' out' :
  rfold (write_wallets_step b) l (s, u, out) = Ok (s', u', out') ->
  supply_of s' = supply_of s + zsum (dl_balance <$> (snd <$> l)).
Proof.
  revert s u out; induction l as [|[a d] l IH]; intros s u out H.
  { cbn in H. apply Ok_inj in H. injection H as <- _ _. cbn. lia. }
  cbn [rfold] in H. apply rbind_ok_inv in H as ([[s1 u1] out1] & H1 & H). unfold write_wallets_step in H1. cbn [fst snd] in H1.
  apply rbind_ok_inv in H1 as ([s2 w] & Hw & H1). apply Ok_inj in H1. injection H1 as <- _ _.
  rewrite (IH _ _ _ H). apply write_wallet_ok in Hw as (Hw & Hws & _ & _). unfold supply_of at 1. rewrite Hws, map_sum_insert.
  apply wallet_apply_inv in Hw as (_ & _ & i1 & i2 & t & _ & _ & _ & ->). cbn. unfold supply_of.
  destruct (st_wallets s !! a); cbn; lia.
Qed.

(** C6: applying a block changes the sum of all balances by its reward, plus the fees its header
    pays out less the fees its transactions pay, plus what HTLC claims release, less what
    transactions lock up.  A block whose header pays out exactly its fees and that neither locks nor
    releases anything adds exactly its reward. *)
Theorem supply_follows_block s b u s' (H : apply_block n s b u = (s', Done)) :
  exists b' enc, prepare_block n b = Ok (b', enc) /\
    supply_of s' = supply_of s + b'.(b_reward) + b'.(b_total_fee)
      + zsum ((fun tx => released n s [b'] tx - tx.(tx_fee) - locked_up tx) <$> b'.(b_transactions)) /\
    (b'.(b_total_fee) = zsum (tx_fee <$> b'.(b_transactions)) ->
     Forall (fun tx => locked_up tx = 0 /\ released n s [b'] tx = 0) b'.(b_transactions) ->
     supply_of s' = supply_of s + b'.(b_reward)).
Proof.
  apply apply_one_state in H as (b' & enc & ds & s1 & ur & out & Hp & Hd & _ & Hw & HW & _).
  exists b', enc. split; [done|].
  assert (Hs : supply_of s' = supply_of s + net ds).
  { unfold supply_of at 1. rewrite HW. change (supply_of s1 = supply_of s + net ds).
    unfold write_wallets_undo in Hw. rewrite (write_wallets_supply _ _ _ _ _ _ _ _ Hw). unfold net. by rewrite map_sum_entries. }
  rewrite Hs, (block_balance _ _ _ _ _ _ Hd). assert (net ∅ = 0) as -> by done. split; [lia|].
  intros -> Hf. enough (zsum ((fun tx => released n s [b'] tx - tx.(tx_fee) - locked_up tx) <$> b'.(b_transactions))
    = - zsum (tx_fee <$> b'.(b_transactions))) by lia.
  induction Hf as [|tx l [] _ IH]; cbn; lia.
Qed.

(** ** Vote index *)

Lemma apply_vote_index s b u s' : apply_block n s b u = (s', Done) ->
  total_weight s.(st_wallets) + total_weight s'.(st_wallets) <= u64_max -> vote_index_ok s -> vote_index_ok s'.
Proof.
  intros H Ht Hok. apply apply_one_state in H as (b' & enc & ds & s1 & ur & out & _ & _ & _ & Hw & HW & HV & _).
  rewrite HW in Ht. intros pk. rewrite HV, HW. by apply (write_wallets_vote_index _ _ _ _ _ _ Hw).
Qed.
End apply.

(** ** Roll back *)

Section rollback.
Context `{E : Env} (n : Network).

Lemma clear_market_ledger s p : ledger (clear_market s p) = ledger s.
Proof. unfold clear_market. by destruct (st_wallets s !! p.1). Qed.

Lemma undo_order_ledger h s p : ledger (undo_order h s p) = ledger s.
Proof.
  destruct p as [i tx]. unfold undo_order. destruct (token_asset tx) as [a|]; [|done].
  assert (Hw : forall s o, ledger (write_order s o) = ledger s) by (intros; unfold write_order; by destruct (is_open o)).
  destruct (tx_type_ tx =? token.BUY), (tx_type_ tx =? token.SELL), (tx_type_ tx =? token.CANCEL); cbn [orb]; try done;
    match goal with |- context [match ?o with Some _ => _ | None => _ end] => destruct o end; by rewrite ?Hw.
Qed.

Lemma undo_tx_ledger h ow sy s p s' : undo_tx n h ow sy s p = Ok s' -> ledger s' = ledger s.
Proof.
  destruct p as [i tx]. unfold undo_tx. destruct (tx_id tx) as [id|]; [|by intros H; apply Ok_inj in H as <-].
  intros H. apply rbind_ok_inv in H as (s1 & H1 & H). apply rbind_ok_inv in H as (addrs & _ & H). apply Ok_inj in H as <-.
  rewrite (foldl_frame ledger) by done.
  transitivity (ledger s1).
  - change (ledger (on_tx_list ?f (on_txs ?g ?x))) with (ledger x). unfold undo_token_index.
    destruct (is_init tx); [|done]. by destruct (token_asset tx).
  - clear addrs. unfold undo_sobj_index in H1. destruct (sobj_asset tx) as [e|]; [|by apply Ok_inj in H1 as <-].
    destruct (sa_action e =? sobj.ACTION_REGISTER), (sd_name (sa_data e)); destruct (_ || _); try (by apply Ok_inj in H1 as <-);
    (destruct (sa_registration_id e); [|by apply Ok_inj in H1 as <-]);
    apply rbind_ok_inv in H1 as (o & _ & H1); apply Ok_inj in H1 as <-; by destruct (bool_decide _).
Qed.

(** Everything of the ledger but the wallets and their votes. *)
Definition history (s : Store) := (s.(st_blocks), s.(st_undo), s.(st_finality), s.(st_equivocations), s.(st_last_height)).

Lemma restore_wallet_ok s p :
  (restore_wallet s p).(st_wallets) = partial_alter (fun _ => p.2) p.1 s.(st_wallets) /\
  (restore_wallet s p).(st_votes) = adjust_index (vote_weight (s.(st_wallets) !! p.1)) (vote_weight p.2) s.(st_votes) /\
  history (restore_wallet s p) = history s.
Proof.
  destruct p as [a prev]. unfold restore_wallet. cbn [fst snd].
  set (s1 := foldl _ _ (wallet_sobjects prev)).
  assert (H1 : ledger s1 = ledger (adjust_votes (vote_weight (s.(st_wallets) !! a)) (vote_weight prev) s)).
  { unfold s1. apply (foldl_frame ledger). intros s0 q. by destruct (for_sale q.2). }
  set (s2 := on_locks _ s1). set (s3 := if has_commitment _ && _ then _ else s2). set (s4 := if has_pq_key _ && _ then _ else s3).
  assert (H4 : ledger s4 = ledger s1) by (unfold s4, s3; destruct (_ && _), (_ && _); done).
  rewrite H1 in H4. clearbody s4. apply ledger_parts in H4 as (B & W & _ & U & V & F & Q & L).
  destruct prev as [w|]; cbn.
  - unfold history. cbn. rewrite B, W, U, V, F, Q, L. done.
  - destruct (st_wallets s !! a); unfold history; cbn; rewrite B, W, U, V, F, Q, L; done.
Qed.

#[local] Arguments restore_wallet : simpl never.
#[local] Opaque restore_wallet.

Lemma restore_loop l s :
  NoDup l.*1 ->
  let s' := foldl restore_wallet s l in
  (forall k, k ∉ l.*1 -> s'.(st_wallets) !! k = s.(st_wallets) !! k) /\
  (forall k o, (k, o) ∈ l -> s'.(st_wallets) !! k = o) /\ history s' = history s.
Proof.
  revert s; induction l as [|[a o] l IH]; intros s Hnd; cbn.
  { split_and!; try done. intros k o Hk. by apply not_elem_of_nil in Hk. }
  cbn in Hnd. apply NoDup_cons in Hnd as [Ha Hnd]. destruct (restore_wallet_ok s (a, o)) as (W & _ & Hh). cbn in W.
  destruct (IH (restore_wallet s (a, o)) Hnd) as (F & G & H). split_and!.
  - intros k Hk. apply not_elem_of_cons in Hk as [Hka Hk]. rewrite F by done. cbn. rewrite W, lookup_partial_alter_ne by congruence. done.
  - intros k o' Hk. apply elem_of_cons in Hk as [[= -> ->]|Hk]; [|by apply G]. rewrite F by done. by rewrite W, lookup_partial_alter_eq.
  - by rewrite H, Hh.
Qed.

Lemma restore_votes m0 l s :
  NoDup l.*1 ->
  let s' := foldl restore_wallet s l in
  total_weight m0 + total_weight s'.(st_wallets) <= u64_max ->
  (forall k w, s.(st_wallets) !! k = Some w -> m0 !! k = Some w \/ s'.(st_wallets) !! k = Some w) ->
  vote_index_ok s -> vote_index_ok s'.
Proof.
  revert s; induction l as [|[a o] l IH]; intros s Hnd; cbn; [done|]. intros Ht Hmix Hok.
  cbn in Hnd. apply NoDup_cons in Hnd as [Ha Hnd]. destruct (restore_wallet_ok s (a, o)) as (W & V & _). cbn in W, V.
  set (s1 := restore_wallet s (a, o)) in *. destruct (restore_loop l s1 Hnd) as (F & _ & _).
  assert (Hmix1 : forall k w, s1.(st_wallets) !! k = Some w -> m0 !! k = Some w \/ st_wallets (foldl restore_wallet s1 l) !! k = Some w).
  { intros k w Hk. destruct (decide (k = a)) as [->|Hne]; [right; by rewrite F|].
    rewrite W, lookup_partial_alter_ne in Hk by congruence. by apply Hmix. }
  pose proof (fun m H => Z.le_trans _ _ _ (map_sum_mix weight m m0 _ weight_nonneg H) Ht) as Hbound.
  apply IH; try done. eapply (vote_step s s1 a o); eauto; by apply Hbound.
Qed.

(** What the transaction of a rollback leaves: the wallets of the undo record, one block less. *)
Lemma undo_block_ok s h b undo sy s' :
  undo_block n s h b undo sy = Ok s' -> NoDup undo.*1 ->
  let s0 := foldl restore_wallet (foldl clear_market s undo) undo in
  s'.(st_wallets) = s0.(st_wallets) /\ s'.(st_votes) = s0.(st_votes) /\
  s'.(st_blocks) = delete h s.(st_blocks) /\ s'.(st_finality) = s.(st_finality) /\
  s'.(st_last_height) = Some (as_u64 (h - 1)).
Proof.
  unfold undo_block. intros H Hnd. apply rbind_ok_inv in H as (s2 & H2 & H). apply Ok_inj in H as <-.
  set (s1 := foldl clear_market s undo) in *.
  assert (H1 : ledger s1 = ledger s) by apply (foldl_frame ledger), clear_market_ledger.
  destruct (restore_loop undo s1 Hnd) as (_ & _ & Hh). cbn zeta. set (s0 := foldl restore_wallet s1 undo) in *.
  apply (rfold_frame ledger) in H2; [|intros; by eapply undo_tx_ledger].
  rewrite (foldl_frame ledger) in H2 by apply undo_order_ledger.
  apply ledger_parts in H2 as (B & W & _ & U & V & F & Q & L). apply ledger_parts in H1 as (B1 & _ & _ & U1 & _ & F1 & _ & L1).
  unfold history in Hh. injection Hh as D1 D2 D3 D4 D5.
  set (x := as_i64 _).
  assert (H3 : ledger (bump_tx_count x s2) = ledger s2) by (unfold bump_tx_count; by destruct (x =? 0)).
  apply ledger_parts in H3 as (B3 & W3 & _ & U3 & V3 & F3 & _ & L3).
  destruct (b_id b); cbn; rewrite ?B3, ?W3, ?V3, ?F3; split_and!; congruence.
Qed.

Lemma drop_missed_ledger s h : ledger (drop_missed_at s h) = ledger s.
Proof. unfold drop_missed_at. destruct (st_missed_at s !! h); [|done]. by rewrite (foldl_frame ledger). Qed.

(** A rollback that succeeds. *)
Lemma rollback_inv s s' t :
  rollback_last_block n s = (s', Ok t) ->
  1 < get_last_height s /\ t = get_last_height s - 1 /\
  exists s1 s2 b undo sy, (s1 = s \/ exists h, s1 = on_finality (delete h) s) /\
    s.(st_undo) !! get_last_height s = Some undo /\ undo_block n s1 (get_last_height s) b undo sy = Ok s2 /\
    ledger s' = ledger s2.
Proof.
  unfold rollback_last_block. set (h := get_last_height s). intros H.
  destruct (Z.leb_spec h 1); [done|].
  assert (Hb : forall s1, s1.(st_undo) = s.(st_undo) -> rollback_block n s1 h = (s', Ok t) ->
    t = h - 1 /\ exists s2 b undo sy, s.(st_undo) !! h = Some undo /\ undo_block n s1 h b undo sy = Ok s2 /\ ledger s' = ledger s2).
  { intros s1 Hu Hr. unfold rollback_block in Hr. destruct (get_block_by_height n s1 h) as [[b|]|]; [|done|done].
    rewrite Hu in Hr. destruct (st_undo s !! h) as [undo|]; [|done].
    match goal with H : context [undo_block n s1 h b undo ?sy] |- _ => destruct (undo_block n s1 h b undo sy) as [s2|] eqn:Hun end; [|done].
    apply pair_eq in Hr as [<- Ht]. apply Ok_inj in Ht as <-. split; [done|].
    eexists s2, b, undo, _. split_and!; [done|exact Hun|]. destruct (_ =? 0); by rewrite <-drop_missed_ledger with (s := s2) (h := h). }
  split; [done|].
  destruct (latest_finality_cert s) as [cert|]; [destruct (h <=? fc_height cert); [destruct (fp_active _); [done|]|]|];
    apply Hb in H as (Ht & s2 & b & undo & sy & Hx); try done; split; try done.
  - exists (on_finality (delete (fc_height cert)) s), s2, b, undo, sy. split; [right; eauto|done].
  - exists s, s2, b, undo, sy. split; [by left|done].
  - exists s, s2, b, undo, sy. split; [by left|done].
Qed.

Lemma restored_wallets (m m1 : gmap string WalletState) (keys : list string) (mr : gmap string WalletState) :
  (forall k, k ∉ keys -> m1 !! k = m !! k) ->
  (forall k, k ∉ keys -> mr !! k = m1 !! k) -> (forall k, k ∈ keys -> mr !! k = m !! k) -> mr = m.
Proof.
  intros H1 H2 H3. apply map_eq. intros k. destruct (decide (k ∈ keys)); [by apply H3|by rewrite H2, H1].
Qed.

(** What a rollback of the last applied block gives back. *)
Lemma rollback_undone s b u s1 s2 t
    (Ha : apply_block n s b u = (s1, Done)) (Hr : rollback_last_block n s1 = (s2, Ok t))
    (Hl : 1 <= get_last_height s < u64_max) :
  t = get_last_height s /\ get_last_height s2 = get_last_height s /\
  s2.(st_wallets) = s.(st_wallets) /\
  s2.(st_blocks) = delete b.(b_height) s.(st_blocks) /\
  (vote_index_ok s -> total_weight s.(st_wallets) + total_weight s1.(st_wallets) <= u64_max ->
   forall pk, delegate_votes s2 pk = delegate_votes s pk).
Proof.
  pose proof (fun Ht => apply_vote_index n _ _ _ _ Ha Ht) as Hvi.
  apply apply_one_state in Ha as (b' & enc & ds & sw & ur & out & Hp & _ & Hc & Hw & W1 & V1 & B1 & U1 & F1 & L1).
  apply check_tip_ok in Hc. rewrite (prepare_block_height n _ _ _ Hp) in Hc.
  assert (Hh : b.(b_height) = get_last_height s + 1) by (destruct Hc as [|Hc]; [lia|rewrite Hc; apply as_u64_id; bounds; lia]).
  assert (Hlt : (get_last_height s <? b.(b_height)) = true) by (apply Z.ltb_lt; lia). rewrite Hlt in L1.
  assert (Ht1 : get_last_height s1 = b.(b_height)) by (unfold get_last_height; by rewrite L1).
  apply rollback_inv in Hr as (_ & -> & s0 & s3 & b0 & undo & sy & Hs0 & Hundo & Hub & HL).
  rewrite Ht1, U1 in Hundo. injection Hundo as <-. rewrite Ht1 in Hub |- *.
  apply write_wallets_ok in Hw as (Wn & _ & Hur & _). cbn in Hur.
  assert (Hk : ur.*1 = (bt_entries ds).*1) by (rewrite Hur; by rewrite <-list_fmap_compose).
  assert (Hnd : NoDup ur.*1) by (rewrite Hk; apply NoDup_bt_entries).
  pose proof (undo_block_ok _ _ _ _ _ _ Hub Hnd) as (W3 & V3 & B3 & F3 & L3).
  set (sc := foldl clear_market s0 ur) in *.
  assert (Hcl : ledger sc = ledger s0) by (apply (foldl_frame ledger), clear_market_ledger).
  apply ledger_parts in Hcl as (_ & Wc & _ & _ & Vc & _).
  apply ledger_parts in HL as (B4 & W4 & _ & _ & V4 & _ & _ & L4).
  assert (Hs0' : s0.(st_wallets) = s1.(st_wallets) /\ s0.(st_votes) = s1.(st_votes) /\ s0.(st_blocks) = s1.(st_blocks))
    by (destruct Hs0 as [->|[h ->]]; done). destruct Hs0' as (S1 & S2 & S3).
  destruct (restore_loop ur sc Hnd) as (F & G & _).
  assert (HW : s2.(st_wallets) = s.(st_wallets)).
  { rewrite W4, W3. apply (restored_wallets _ sw.(st_wallets) ur.*1).
    - intros k Hkk. apply Wn. destruct (ds !! k) as [d|] eqn:Hd; [|done]. exfalso. apply Hkk. rewrite Hk.
      apply elem_of_bt_entries in Hd. by apply (list_elem_of_fmap_2 fst) in Hd.
    - intros k Hkk. rewrite F by done. by rewrite Wc, S1, W1.
    - intros k Hkk. apply list_elem_of_fmap in Hkk as ([k' o] & -> & Hin). cbn. rewrite (G _ _ Hin).
      rewrite Hur in Hin. apply list_elem_of_fmap in Hin as (p & [= -> ->] & _). done. }
  split_and!.
  - lia.
  - unfold get_last_height at 1. rewrite L4, L3. cbn. rewrite as_u64_id by (bounds; lia). lia.
  - done.
  - rewrite B4, B3, S3, B1. apply delete_insert_eq.
  - intros Hok Ht pk. unfold delegate_votes. rewrite V4, V3, Hok, <-HW, W4, W3.
    revert pk. change (vote_index_ok (foldl restore_wallet sc ur)).
    apply (restore_votes s1.(st_wallets)); [done| | |].
    + rewrite <-W3, <-W4, HW. lia.
    + intros k w Hk'. left. by rewrite <-S1, <-Wc.
    + intros pk. rewrite Vc, Wc, S1, S2. by apply Hvi.
Qed.
(** C14: rolling back a block undoes its application.  If the block was applied on a tip and the
    rollback of the new tip goes through, the old height is back, every wallet is exactly what it
    was before the block, wallets it created are gone, its record is deleted, and the vote index
    counts every delegate as before. *)
Theorem rollback_restores s b u s1 s2 t
    (Ha : apply_block n s b u = (s1, Done)) (Hr : rollback_last_block n s1 = (s2, Ok t))
    (Hl : 1 <= get_last_height s < u64_max) :
  t = get_last_height s /\ get_last_height s2 = get_last_height s /\
  s2.(st_wallets) = s.(st_wallets) /\
  s2.(st_blocks) = delete b.(b_height) s.(st_blocks) /\
  (vote_index_ok s -> total_weight s.(st_wallets) + total_weight s1.(st_wallets) <= u64_max ->
   forall pk, delegate_votes s2 pk = delegate_votes s pk).
Proof. exact (rollback_undone s b u s1 s2 t Ha Hr Hl). Qed.
End rollback.

(** ** A rollback goes through *)

Section liveness.
Context `{E : Env} `{L : !EnvLaws E} (n : Network).

Definition has_sender (tx : Transaction) : bool :=
  is_ok (address_from_public_key tx.(tx_sender_public_key) n.(n_pubkey_hash)).

Lemma tx_deltas_sender s block batch ds p ds' : tx_deltas n s block batch ds p = Ok ds' -> has_sender p.2 = true.
Proof.
  destruct p as [i tx]. unfold tx_deltas, has_sender. intros H. apply rbind_ok_inv in H as (a & Ha & _). cbn. by rewrite Ha.
Qed.

Lemma accumulate_senders s block batch ds ds' : accumulate_deltas n s block batch ds = Ok ds' ->
  Forall (fun tx => has_sender tx = true) block.(b_transactions).
Proof.
  unfold accumulate_deltas. intros H. apply rbind_ok_inv in H as (g & _ & H). rewrite <-(imap_pair_snd block.(b_transactions)).
  revert H. generalize (generator_deltas n ds g block). induction (imap pair block.(b_transactions)) as [|p l IH]; intros ds0 H; [constructor|].
  cbn in H. apply rbind_ok_inv in H as (ds1 & H1 & H). constructor; [by eapply tx_deltas_sender|by eapply IH].
Qed.

Lemma undo_tx_total h ow sy s p : has_sender p.2 = true -> exists s', undo_tx n h ow sy s p = Ok s'.
Proof.
  destruct p as [i tx]. unfold undo_tx, has_sender. cbn [snd]. intros Hs.
  destruct (address_from_public_key tx.(tx_sender_public_key) n.(n_pubkey_hash)) as [a|] eqn:Ha; [|done].
  destruct (tx_id tx) as [id|]; [|eauto]. unfold tx_addresses. rewrite Ha. cbn [rbind].
  enough (exists s1, undo_sobj_index n ow tx s = Ok s1) as (s1 & ->) by (cbn [rbind]; eauto).
  unfold undo_sobj_index. destruct (sobj_asset tx) as [e|]; [|eauto]. destruct (_ || _); [|eauto].
  destruct (sa_registration_id e) as [reg|]; [|eauto]. destruct (ow !! reg); cbn [rbind]; [eauto|]. rewrite Ha. cbn [rbind]. eauto.
Qed.

Lemma undo_block_total s h b undo sy :
  Forall (fun tx => has_sender tx = true) b.(b_transactions) -> exists s', undo_block n s h b undo sy = Ok s'.
Proof.
  intros H. unfold undo_block. generalize (previous_owners undo). intros ow.
  match goal with |- context [rfold ?f ?l ?s0] => enough (exists s1, rfold f l s0 = Ok s1) as (s1 & ->) by (cbn [rbind]; eauto); generalize s0 end.
  rewrite <-(imap_pair_snd b.(b_transactions)), Forall_fmap in H. induction H as [|p l Hp _ IH]; intros s0; cbn; [eauto|].
  destruct (undo_tx_total h ow sy s0 p Hp) as (s1 & ->). apply IH.
Qed.

(** Filling ids changes nothing the record is made of. *)
Lemma fill_ids_frames l l' out : rmapM fill_id l = Ok l' -> block_frames n l' out = block_frames n l out.
Proof.
  revert l' out; induction l as [|tx l IH]; intros l' out H; cbn in H; [by apply Ok_inj in H as <-|].
  apply rbind_ok_inv in H as (tx' & Hx & H). apply rbind_ok_inv in H as (l1 & Hl & H). apply Ok_inj in H as <-.
  assert (Hb : tx_bytes n tx' = tx_bytes n tx).
  { unfold fill_id in Hx. destruct (tx_id tx); [by apply Ok_inj in Hx as <-|].
    apply rbind_ok_inv in Hx as (i & _ & Hx). by apply Ok_inj in Hx as <-. }
  unfold block_frames in *. cbn [rfold]. rewrite Hb. destruct (tx_bytes n tx); cbn [rbind]; [|done]. by apply IH.
Qed.

Lemma prepare_encoded b b' enc : prepare_block n b = Ok (b', enc) -> encode_block b n = Ok enc.
Proof.
  unfold prepare_block. intros H. apply rbind_ok_inv in H as (b1 & H1 & H). apply rbind_ok_inv in H as (txs & Ht & H).
  apply rbind_ok_inv in H as (e & He & H). apply Ok_inj, pair_eq in H as [<- <-]. rewrite <-He. symmetry.
  assert (Hs : serialize_block b1 true = serialize_block b true /\ b_transactions b1 = b_transactions b).
  { destruct (b_id b); [by apply Ok_inj in H1 as <-|]. apply rbind_ok_inv in H1 as (i & _ & H1). by apply Ok_inj in H1 as <-. }
  destruct Hs as [Hs Htx]. rewrite Htx in Ht. unfold encode_block.
  change (serialize_block (b_set_transactions txs b1) true) with (serialize_block b1 true). rewrite Hs.
  destruct (serialize_block b true); cbn [rbind]; [|done]. apply (fill_ids_frames _ _ _ Ht).
Qed.

Lemma prepare_senders b b' enc : prepare_block n b = Ok (b', enc) ->
  Forall (fun tx => has_sender tx = true) b'.(b_transactions) -> Forall (fun tx => has_sender tx = true) b.(b_transactions).
Proof.
  unfold prepare_block. intros H. apply rbind_ok_inv in H as (b1 & H1 & H). apply rbind_ok_inv in H as (txs & Ht & H).
  apply rbind_ok_inv in H as (e & _ & H). apply Ok_inj, pair_eq in H as [<- _]. cbn.
  assert (Htx : b_transactions b1 = b_transactions b).
  { destruct (b_id b); [by apply Ok_inj in H1 as <-|]. apply rbind_ok_inv in H1 as (i & _ & H1). by apply Ok_inj in H1 as <-. }
  rewrite Htx in Ht. clear -Ht. revert txs Ht. induction (b_transactions b) as [|tx l IH]; intros txs H Hf; [constructor|].
  cbn in H. apply rbind_ok_inv in H as (tx' & Hx & H). apply rbind_ok_inv in H as (l1 & Hl & H). apply Ok_inj in H as <-.
  apply Forall_cons in Hf as [Hf1 Hf]. constructor; [|by eapply IH].
  unfold fill_id in Hx. destruct (tx_id tx); [by apply Ok_inj in Hx as <-|].
  apply rbind_ok_inv in Hx as (i & _ & Hx). by apply Ok_inj in Hx as <-.
Qed.

(** The block that was just applied is read back from its record. *)
Lemma applied_block_read s b u s1 : apply_block n s b u = (s1, Done) -> wire_record n b ->
  exists bd ur, get_block_by_height n s1 b.(b_height) = Ok (Some bd) /\
    Forall (fun tx => has_sender tx = true) bd.(b_transactions) /\ s1.(st_undo) !! b.(b_height) = Some ur.
Proof.
  intros H Hw. apply apply_one_state in H as (b' & enc & ds & sw & ur & out & Hp & Hd & _ & _ & _ & _ & B1 & U1 & _).
  destruct (record_roundtrip n b Hw) as (h & p & _ & He & Hdec). rewrite (prepare_encoded _ _ _ Hp) in He. apply Ok_inj in He as <-.
  eexists _, ur. split_and!; [|clear Hdec|done].
  - unfold get_block_by_height. rewrite B1, lookup_insert_eq, Hdec. cbn [rbind]. done.
  - cbn [b_transactions b_set_transactions]. apply accumulate_senders, (prepare_senders _ _ _ Hp) in Hd.
    apply Forall_lookup_2. intros i tx Hi. rewrite list_lookup_imap in Hi. apply fmap_Some in Hi as (tx0 & Hi & ->).
    change (has_sender tx0 = true). by eapply (Forall_lookup_1 _ _ _ _ Hd).
Qed.

(** C29: a block that was applied on a tip can be rolled back: whatever its transactions are, if its
    record is one the storage format can carry and no certificate reaches its height, the rollback
    succeeds and gives back the old height. *)
Theorem rollback_succeeds s b u s1
    (Ha : apply_block n s b u = (s1, Done)) (Hw : wire_record n b)
    (Hl : 1 <= get_last_height s < u64_max)
    (Hf : forall c, latest_finality_cert s1 = Some c -> c.(fc_height) < b.(b_height)) :
  exists s2, rollback_last_block n s1 = (s2, Ok (get_last_height s)).
Proof.
  destruct (applied_block_read s b u s1 Ha Hw) as (bd & ur & Hb & Hs & Hu).
  apply apply_one_state in Ha as (b' & enc & ds & sw & ? & out & Hp & _ & Hc & _ & _ & _ & _ & _ & _ & L1).
  apply check_tip_ok in Hc. rewrite (prepare_block_height n _ _ _ Hp) in Hc.
  assert (Hh : b.(b_height) = get_last_height s + 1) by (destruct Hc as [|Hc]; [lia|rewrite Hc; apply as_u64_id; bounds; lia]).
  assert (Hlt : (get_last_height s <? b.(b_height)) = true) by (apply Z.ltb_lt; lia). rewrite Hlt in L1.
  assert (Ht1 : get_last_height s1 = b.(b_height)) by (unfold get_last_height; by rewrite L1).
  assert (Hr : exists s2, rollback_block n s1 b.(b_height) = (s2, Ok (b.(b_height) - 1))).
  { unfold rollback_block. rewrite Hb, Hu. cbn zeta.
    match goal with |- context [undo_block n s1 _ bd ur ?sy] => destruct (undo_block_total s1 b.(b_height) bd ur sy Hs) as (s2 & ->) end. eauto. }
  destruct Hr as (s2 & Hr). exists s2. unfold rollback_last_block. rewrite Ht1.
  destruct (Z.leb_spec b.(b_height) 1); [lia|]. replace (get_last_height s) with (b.(b_height) - 1) by lia.
  destruct (latest_finality_cert s1) as [c|]; [|done]. specialize (Hf c eq_refl).
  destruct (Z.leb_spec b.(b_height) c.(fc_height)); [lia|done].
Qed.
End liveness.
