(* ===== verification/ChainRounds.v ===== *)
(** * Finality, rounds and batches

    Certified blocks are not rolled back, a rollback to a height ends exactly there, the forging set
    of a round is the ranking right after its boundary block, the bulk mode never lets a boundary
    sit inside a batch, and the missed-slot index stays inside the forging order. *)

From S2P Require Import Prelude Models Env Bytes Crypto Config TxCodec BlockCodec Wallet Round Tree.
From S2P Require Import Storage StorageFacts Deltas Chain ChainFacts.

Section rounds.
Context `{E : Env} (n : Network).
Implicit Types (s : Store) (b : Block).

(** ** Finality *)

Lemma last_sorted_max {A} (R : A -> A -> Prop) (l : list A) x :
  StronglySorted R l -> x ∈ l -> exists y, last l = Some y /\ (x = y \/ R x y).
Proof.
  intros Hs Hx. destruct (last l) as [y|] eqn:Hy; [|apply last_None in Hy as ->; by apply not_elem_of_nil in Hx].
  exists y. split; [done|]. apply last_Some in Hy as [l' ->]. apply elem_of_app in Hx as [Hx|Hx].
  - right. eapply StronglySorted_app_1_elem_of; [done|done|]. by apply list_elem_of_singleton.
  - left. by apply list_elem_of_singleton in Hx.
Qed.

#[local] Instance cert_le_trans : Transitive cert_le.
Proof. intros x y z. unfold cert_le. lia. Qed.
#[local] Instance cert_le_total : Total cert_le.
Proof. intros x y. unfold cert_le. lia. Qed.

(** Certificates are stored under their own height ([put_finality_cert] is the only writer). *)
Definition certs_ok s : Prop := map_Forall (fun h c => c.(fc_height) = h) s.(st_finality).

Lemma put_cert_ok c s : certs_ok s -> certs_ok (put_finality_cert c s).
Proof. intros H. unfold certs_ok, put_finality_cert. cbn. by apply map_Forall_insert_2. Qed.

Lemma latest_cert_max s h c : certs_ok s -> s.(st_finality) !! h = Some c ->
  exists top, latest_finality_cert s = Some top /\ h <= top.(fc_height).
Proof.
  intros Hok Hc. unfold latest_finality_cert. destruct (last_sorted_max cert_le (sort_by cert_le (map_to_list s.(st_finality))) (h, c))
    as ([h' top] & Hl & Hor).
  - apply (StronglySorted_sort_by _ _).
  - rewrite sort_by_Permutation. by apply elem_of_map_to_list.
  - rewrite Hl. exists top. split; [done|].
    assert (Hin : (h', top) ∈ map_to_list s.(st_finality)).
    { rewrite <-(sort_by_Permutation cert_le). apply last_Some in Hl as [l' ->]. set_solver. }
    apply elem_of_map_to_list in Hin. apply Hok in Hin. cbn in Hin. rewrite Hin.
    destruct Hor as [[= -> ->]|Hor]; [lia|]. unfold cert_le in Hor. cbn in Hor. lia.
Qed.

(** In hard finality mode a block covered by any certificate, its own or that of a later height,
    is never rolled back: both rollback operations fail and leave the store as it is. *)
Theorem certified_blocks_final s h c
    (Hok : certs_ok s) (Hc : s.(st_finality) !! h = Some c) (Hh : get_last_height s <= h)
    (Ha : (milestone n (get_last_height s)).(m_finality).(fp_active) = true) :
  (exists e, rollback_last_block n s = (s, Err e)) /\
  (forall target, 0 <= target < get_last_height s -> exists e, rollback_to n s target = (s, Err e)).
Proof.
  assert (Hr : exists e, rollback_last_block n s = (s, Err e)).
  { destruct (latest_cert_max s h c Hok Hc) as (top & Hl & Hle). unfold rollback_last_block. rewrite Hl, Ha.
    destruct (get_last_height s <=? 1); [eauto|]. destruct (Z.leb_spec (get_last_height s) top.(fc_height)); [eauto|lia]. }
  split; [done|]. intros target Ht. destruct Hr as [e He]. unfold rollback_to.
  destruct (Z.to_nat (get_last_height s)) as [|k] eqn:Hk; [lia|]. cbn [rollback_go]. rewrite He.
  destruct (Z.leb_spec (get_last_height s) target); [lia|eauto].
Qed.

(** ** Roll back to a height *)

Lemma rollback_height s s' t : rollback_last_block n s = (s', Ok t) -> get_last_height s <= u64_max ->
  t = get_last_height s - 1 /\ get_last_height s' = t.
Proof.
  intros H Hb. apply rollback_inv in H as (H1 & -> & s1 & s2 & b & undo & sy & _ & _ & Hu & HL).
  split; [done|]. apply ledger_parts in HL as (_ & _ & _ & _ & _ & _ & _ & L). unfold get_last_height at 1. rewrite L.
  unfold undo_block in Hu. apply rbind_ok_inv in Hu as (s3 & _ & Hu). apply Ok_inj in Hu as <-. cbn.
  apply as_u64_id. bounds. lia.
Qed.

Lemma rollback_go_reaches fuel s height s' t :
  (Z.to_nat (get_last_height s) <= fuel)%nat -> 0 <= height -> get_last_height s <= u64_max ->
  rollback_go n fuel s height (get_last_height s) = (s', Ok t) ->
  t = Z.min (get_last_height s) height /\ get_last_height s' = t.
Proof.
  revert s; induction fuel as [|fuel IH]; intros s Hf Hh Hb H; cbn in H.
  - destruct (Z.leb_spec (get_last_height s) height); [|lia]. apply pair_eq in H as [<- Ht]. apply Ok_inj in Ht as <-. lia.
  - destruct (Z.leb_spec (get_last_height s) height).
    { apply pair_eq in H as [<- Ht]. apply Ok_inj in Ht as <-. lia. }
    destruct (rollback_last_block n s) as [s1 [t1|e]] eqn:Hr; [|done].
    apply rollback_height in Hr as [-> Hr]; [|done]. rewrite <-Hr in H. apply IH in H as [-> ->]; lia.
Qed.

(** A rollback to a height terminates, and when it succeeds the tip is the height asked for, or
    the old tip if that was lower already; the bound on its turns is never what stops it. *)
Theorem rollback_to_reaches s height s' t
    (H : rollback_to n s height = (s', Ok t)) (Hh : 0 <= height) (Hb : get_last_height s <= u64_max) :
  t = Z.min (get_last_height s) height /\ get_last_height s' = t.
Proof. by eapply rollback_go_reaches. Qed.

(** ** Round snapshots *)

Lemma write_block_rounds b enc net s s' : write_block b enc net s = Ok s' -> s'.(st_rounds) = s.(st_rounds).
Proof.
  unfold write_block. intros H. apply rbind_ok_inv in H as (s1 & H1 & H). apply Ok_inj in H as <-.
  apply (rfold_frame st_rounds) in H1.
  - unfold bump_tx_count. destruct (_ =? 0), (_ <? _); cbn; rewrite H1; by destruct (b_id b).
  - intros s0 [i tx] s2 Hw. unfold write_tx in Hw. destruct (tx_id tx); [|by apply Ok_inj in Hw as <-].
    apply rbind_ok_inv in Hw as (a & _ & Hw). apply Ok_inj in Hw as <-. by rewrite (foldl_frame st_rounds).
Qed.

(** The store right before the statistics of an applied block: the round table is the old one with
    the snapshot. *)
Lemma apply_one_rounds s b u s' :
  apply_block n s b u = (s', Done) ->
  exists s3, s3.(st_rounds) = s.(st_rounds) /\
    s'.(st_rounds) = (snapshot_round_if_boundary n s3 b.(b_height)).(st_rounds) /\
    forall k, active_delegates n s' k = active_delegates n s3 k.
Proof.
  unfold apply_block, apply_blocks, apply_locked. cbn [rmapM orb]. intros H.
  destruct (prepare_block n b) as [[b' enc]|e] eqn:Hp; cbn [rbind] in H; [|done].
  cbn [fst fmap list_fmap] in H. destruct (batch_deltas n s [b']) as [ds|]; [|done].
  destruct (commit n s b' [(b', enc)] ds true) as [s3|e] eqn:Hc; [|done]. cbn [last] in H.
  apply (f_equal fst) in H. cbn [fst] in H. exists s3. split_and!.
  - unfold commit in Hc. apply rbind_ok_inv in Hc as (? & _ & Hc). apply rbind_ok_inv in Hc as ([[s1 ur] out] & Hw & Hc).
    cbn [rfold fst snd] in Hc. apply rbind_ok_inv in Hc as (s2 & Hb & Hc). apply Ok_inj in Hc as <-.
    apply rbind_ok_inv in Hb as (s4 & Hb & Hc). apply Ok_inj in Hc as <-.
    apply write_block_rounds in Hb. apply write_wallets_ok in Hw as (_ & _ & _ & Hch). unfold chain in Hch.
    injection Hch as _ _ _ _ _ C6 _ _ _ _ _. unfold keep_undo. destruct (UNDO_DEPTH <? _); cbn; by rewrite Hb, C6.
  - rewrite <-H, (record_all_frame n st_rounds) by done. by rewrite (prepare_block_height n _ _ _ Hp).
  - intros k. rewrite <-H. rewrite (record_all_frame n (fun s => active_delegates n s k)) by done.
    by rewrite (snapshot_frame n (fun s => active_delegates n s k)).
Qed.

(** C32: after the last block of a round the forging order of the next round is fixed: it is the
    shuffled top of the ranking of exactly the state that block left, and no other round of the
    table changes.  A block inside a round leaves the whole table alone (round 1 is set with the
    first block). *)
Theorem round_snapshot s b u s' (H : apply_block n s b u = (s', Done)) (Hh : 1 < b.(b_height) < u64_max) :
  let k := round_size n b.(b_height) in
  let next := (round_info (b.(b_height) + 1) k).(ri_round) in
  if b.(b_height) mod k =? 0
  then forging_order s' next = Some (shuffle (active_delegates n s' k) next) /\
       forall r, r <> next -> get_round s' r = get_round s r
  else forall r, get_round s' r = get_round s r.
Proof.
  cbn zeta. apply apply_one_rounds in H as (s3 & R3 & R & A).
  unfold forging_order, get_round. rewrite R, <-R3. unfold snapshot_round_if_boundary.
  destruct (Z.eqb_spec b.(b_height) 1); [lia|]. cbn [andb].
  set (h := b.(b_height)) in *. set (k := round_size n h).
  destruct (Z.eqb_spec (h mod k) 0) as [Hm|Hm]; cbn [negb]; [|done].
  assert (Hk : 0 < k) by (unfold k, round_size; lia).
  assert (Hn : (round_info h k).(ri_next_round) = (round_info (h + 1) k).(ri_round)).
  { unfold round_info. cbn. rewrite !Z.max_l by lia. apply Z.eqb_eq in Hm as Hm'. rewrite Hm'.
    replace (h + 1 - 1) with h by lia. pose proof (Z.div_mod h k).
    enough ((h - 1) / k = h / k - 1) by lia. symmetry. apply (Z.div_unique _ _ _ (k - 1)); [lia|]. nia. }
  rewrite Hn. split.
  - unfold save_round. cbn. rewrite lookup_insert_eq. cbn. by rewrite A.
  - intros r Hr. unfold save_round. cbn. by rewrite lookup_insert_ne.
Qed.

(** ** Bulk batches *)

(** The batches of the bulk mode. *)
Fixpoint batches (pending blocks : list Block) : list (list Block) :=
  match blocks with
  | [] => []
  | b :: blocks =>
      if is_boundary n b || bool_decide (blocks = []) then (pending ++ [b]) :: batches [] blocks
      else batches (pending ++ [b]) blocks
  end.

Lemma bulk_run pending blocks s :
  bulk n pending blocks s = run_all (fun s l => apply_locked n s l false false) (batches pending blocks) s.
Proof.
  revert pending s; induction blocks as [|b blocks IH]; intros pending s; cbn; [done|].
  destruct (_ || _); cbn; [|apply IH]. destruct (apply_locked n s (pending ++ [b]) false false) as [s1 []]; [apply IH|done|done].
Qed.

Lemma batches_concat pending blocks : blocks <> [] -> concat (batches pending blocks) = pending ++ blocks.
Proof.
  revert pending; induction blocks as [|b blocks IH]; intros pending Hne; [done|]. cbn.
  destruct (is_boundary n b); cbn [orb].
  - cbn. destruct blocks as [|b2 blocks]; [cbn; by rewrite app_nil_r|]. rewrite IH by done. by rewrite <-app_assoc.
  - destruct (bool_decide_reflect (blocks = [])) as [->|Hb].
    + cbn. by rewrite app_nil_r.
    + rewrite IH by done. by rewrite <-app_assoc.
Qed.

Lemma batches_boundary pending blocks :
  Forall (fun b => is_boundary n b = false) pending ->
  Forall (fun l => exists l' b, l = l' ++ [b] /\ Forall (fun b => is_boundary n b = false) l') (batches pending blocks).
Proof.
  revert pending; induction blocks as [|b blocks IH]; intros pending Hp; cbn; [constructor|].
  destruct (_ || _) eqn:Hb.
  - constructor; [by eexists _, _|]. by apply IH.
  - apply orb_false_iff in Hb as [Hb _]. apply IH. rewrite Forall_app. auto.
Qed.

(** The bulk import is the application, one batch after the other, of consecutive pieces that
    together are the blocks given, none of them empty and none with the last block of a round
    before its end; so every round snapshot is taken from the state of its boundary block. *)
Theorem bulk_import_batches s b1 b2 blocks :
  let all := b1 :: b2 :: blocks in
  apply_blocks n s all false = run_all (fun s l => apply_locked n s l false false) (batches [] all) s /\
  concat (batches [] all) = all /\
  Forall (fun l => exists l' b, l = l' ++ [b] /\ Forall (fun b => is_boundary n b = false) l') (batches [] all).
Proof.
  cbn zeta. split_and!.
  - apply bulk_run.
  - by apply batches_concat.
  - by apply batches_boundary.
Qed.

(** ** Missed slots *)

Lemma missed_slots_total s b order k bt slots acc :
  0 < k <= Z.of_nat (length order) ->
  exists s' l, missed_slots n s b order k bt slots acc = (s', Some l) /\ length l = (length acc.2 + length slots)%nat.
Proof.
  intros Hk. revert acc; induction slots as [|x slots IH]; intros [s0 l]; cbn [missed_slots].
  { exists s0, l. cbn. split; [done|lia]. }
  unfold missed_slot. pose proof (Z.mod_pos_bound x k).
  destruct (lookup_lt_is_Some_2 order (Z.to_nat (x mod k))) as [d Hd]; [lia|]. rewrite Hd.
  edestruct IH as (s' & l' & -> & Hl). exists s', l'. split; [done|]. rewrite Hl. cbn. rewrite length_app. cbn. lia.
Qed.

(** The missed-slot statistics never index past the forging order of a full round: when the
    snapshot of the round has at least as many delegates as the round has slots, the call ends
    normally. With fewer delegates than slots it can panic ([missed_slots_short_round]). *)
Theorem missed_slots_in_range s ts b
    (Hr : forall l, get_round s (round_info b.(b_height) (round_size n b.(b_height))).(ri_round) = Some l ->
          round_size n b.(b_height) <= Z.of_nat (length l)) :
  (record_missed_slots n s ts b).2 = Done.
Proof.
  unfold record_missed_slots. fold (round_size n b.(b_height)). destruct (_ || _); [done|].
  unfold forging_order. destruct (get_round s _) as [l|] eqn:Hl; [|done]. cbn.
  match goal with |- context [missed_slots n s b ?o ?k ?bt ?sl ?acc] => destruct (missed_slots_total s b o k bt sl acc) as (s' & l' & -> & _) end.
  - specialize (Hr l eq_refl). rewrite (Permutation_length (shuffle_perm l _)). unfold round_size in *. lia.
  - done.
Qed.

Lemma missed_slots_panic s b order k bt slots acc x :
  x ∈ slots -> (length order <= Z.to_nat (x mod k))%nat -> (missed_slots n s b order k bt slots acc).2 = None.
Proof.
  revert acc; induction slots as [|y slots IH]; intros acc Hx Hl; [by apply not_elem_of_nil in Hx|]. cbn [missed_slots].
  destruct (missed_slot n s b order k bt acc y) as [acc'|] eqn:Hm; [|done].
  apply elem_of_cons in Hx as [->|Hx]; [|by apply IH]. destruct acc as [s0 l]. unfold missed_slot in Hm.
  by rewrite (proj2 (lookup_ge_None order _) Hl) in Hm.
Qed.

(** When the snapshot of a round holds fewer delegates than the round has slots and one of the
    slots skipped before a block falls past its end, the statistics panic: the gap is within one
    round, so it is charged, and the forging order is indexed out of bounds.  The block is committed
    at that point. *)
Theorem missed_slots_short_round s ts b l slot
    (Hl : get_round s (round_info b.(b_height) (round_size n b.(b_height))).(ri_round) = Some l)
    (Hs : slot_number ts (milestone n b.(b_height)).(m_blocktime) < slot
          < slot_number b.(b_timestamp) (milestone n b.(b_height)).(m_blocktime))
    (Hg : slot_number b.(b_timestamp) (milestone n b.(b_height)).(m_blocktime)
          - slot_number ts (milestone n b.(b_height)).(m_blocktime) - 1 <= round_size n b.(b_height))
    (Hm : Z.of_nat (length l) <= slot mod round_size n b.(b_height)) :
  (record_missed_slots n s ts b).2 = Panicked.
Proof.
  unfold record_missed_slots. fold (round_size n b.(b_height)).
  set (p := slot_number ts _) in *. set (c := slot_number (b_timestamp b) _) in *.
  destruct (Z.leb_spec c (p + 1)); [lia|]. destruct (Z.ltb_spec (round_size n b.(b_height)) (c - p - 1)); [lia|]. cbn [orb].
  unfold forging_order. rewrite Hl. cbn [fmap option_fmap option_map].
  match goal with |- context [missed_slots n s b ?o ?k ?bt ?sl ?acc] =>
    pose proof (missed_slots_panic s b o k bt sl acc slot) as H1; destruct (missed_slots n s b o k bt sl acc) as [s' [r|]] end; [|done].
  cbn in H1. enough (Some r = None) by done. apply H1.
  - apply elem_of_seqZ. lia.
  - rewrite (Permutation_length (shuffle_perm l _)). lia.
Qed.
End rounds.
