(* ===== verification/Sync.v ===== *)
(** * Accepting a batch of blocks

    [apply_blocks] and [check_stateful_rules] of [src/src/sync.rs]: the blocks are verified, linked
    to the tip, checked against the wallets and only then given to the store.  The effects of the
    transactions already checked are kept in a [Batch] (the local maps of the function and the
    [BatchTokenView]), so a later transaction sees them. *)

From S2P Require Import Prelude Floats Models Env Bytes Crypto Config TxCodec BlockCodec BlockVerify Wallet Rules Round Tree Storage Deltas Chain.

(** ** Reads of the store *)

(** Open orders of a seller: the index entries whose order is stored, older first. *)
Definition order_height_le (x y : TokenOrder) : Prop := x.(od_height) <= y.(od_height).
#[export] Instance order_height_le_dec x y : Decision (order_height_le x y) := Z.le_dec _ _.

Definition wallet_orders (s : Store) (seller : string) : list TokenOrder :=
  sort_by order_height_le
    (omap (fun oid => token_order s oid)
       (snd <$> bt_entries (list_to_map (M := gmap string string)
          (omap (fun p => if decide (p.1.1 = seller) then Some (p.1.2, p.2) else None) (map_to_list s.(st_sellers)))))).

Definition stored_tokens (s : Store) (address id : string) : Z :=
  default 0 (match get_wallet s address with Some w => w.(ws_tokens) !! id | None => None end).

(** ** The batch so far *)

Record Batch : Type := mkBatch {
  (** [keys], [pq_keys]: the second keys of the senders seen so far *)
  ba_keys : gmap string (option string);
  ba_pq_keys : gmap string (option PqKey);
  (** [sobjects]: holder, registration id, record *)
  ba_sobjects : gmap string (gmap string SmartObject);
  ba_names : gset string;
  ba_transferred : gmap string string;
  (** [sth_delta] *)
  ba_sth : gmap string Z;
  (** [pending_locks]: sender, recipient, amount *)
  ba_locks : gmap string (string * string * Z);
  (** [BatchTokenView] *)
  ba_states : gmap string TokenState;
  ba_balances : gmap (string * string) Z;
  ba_orders : gmap string TokenOrder
}.

Definition batch_empty : Batch := mkBatch ∅ ∅ ∅ ∅ ∅ ∅ ∅ ∅ ∅ ∅.

Definition on_ba_keys f (b : Batch) : Batch :=
  mkBatch (f b.(ba_keys)) b.(ba_pq_keys) b.(ba_sobjects) b.(ba_names) b.(ba_transferred) b.(ba_sth) b.(ba_locks)
    b.(ba_states) b.(ba_balances) b.(ba_orders).
Definition on_ba_pq_keys f (b : Batch) : Batch :=
  mkBatch b.(ba_keys) (f b.(ba_pq_keys)) b.(ba_sobjects) b.(ba_names) b.(ba_transferred) b.(ba_sth) b.(ba_locks)
    b.(ba_states) b.(ba_balances) b.(ba_orders).
Definition on_ba_sobjects f (b : Batch) : Batch :=
  mkBatch b.(ba_keys) b.(ba_pq_keys) (f b.(ba_sobjects)) b.(ba_names) b.(ba_transferred) b.(ba_sth) b.(ba_locks)
    b.(ba_states) b.(ba_balances) b.(ba_orders).
Definition on_ba_names f (b : Batch) : Batch :=
  mkBatch b.(ba_keys) b.(ba_pq_keys) b.(ba_sobjects) (f b.(ba_names)) b.(ba_transferred) b.(ba_sth) b.(ba_locks)
    b.(ba_states) b.(ba_balances) b.(ba_orders).
Definition on_ba_transferred f (b : Batch) : Batch :=
  mkBatch b.(ba_keys) b.(ba_pq_keys) b.(ba_sobjects) b.(ba_names) (f b.(ba_transferred)) b.(ba_sth) b.(ba_locks)
    b.(ba_states) b.(ba_balances) b.(ba_orders).
Definition on_ba_sth f (b : Batch) : Batch :=
  mkBatch b.(ba_keys) b.(ba_pq_keys) b.(ba_sobjects) b.(ba_names) b.(ba_transferred) (f b.(ba_sth)) b.(ba_locks)
    b.(ba_states) b.(ba_balances) b.(ba_orders).
Definition on_ba_locks f (b : Batch) : Batch :=
  mkBatch b.(ba_keys) b.(ba_pq_keys) b.(ba_sobjects) b.(ba_names) b.(ba_transferred) b.(ba_sth) (f b.(ba_locks))
    b.(ba_states) b.(ba_balances) b.(ba_orders).
Definition on_ba_states f (b : Batch) : Batch :=
  mkBatch b.(ba_keys) b.(ba_pq_keys) b.(ba_sobjects) b.(ba_names) b.(ba_transferred) b.(ba_sth) b.(ba_locks)
    (f b.(ba_states)) b.(ba_balances) b.(ba_orders).
Definition on_ba_balances f (b : Batch) : Batch :=
  mkBatch b.(ba_keys) b.(ba_pq_keys) b.(ba_sobjects) b.(ba_names) b.(ba_transferred) b.(ba_sth) b.(ba_locks)
    b.(ba_states) (f b.(ba_balances)) b.(ba_orders).
Definition on_ba_orders f (b : Batch) : Batch :=
  mkBatch b.(ba_keys) b.(ba_pq_keys) b.(ba_sobjects) b.(ba_names) b.(ba_transferred) b.(ba_sth) b.(ba_locks)
    b.(ba_states) b.(ba_balances) (f b.(ba_orders)).

Section sync.
Context `{E : Env}.
Variables (n : Network) (s : Store).
Implicit Types (b : Batch) (tx : Transaction) (block : Block).

(** ** The token view *)

(** The loop over [self.sobjects]: the first holder that has the record.  A record has one holder
    at most, so the order of the map does not matter. *)
Definition pending_sobject b (id : string) : option (string * SmartObject) :=
  head (omap (fun p => (fun r => (p.1, r)) <$> p.2 !! id) (bt_entries b.(ba_sobjects))).

Definition stored_sobject (id : string) : option (string * SmartObject) :=
  match res_ok (get_sobject n s id) with Some o => o | None => None end.

Definition ticker_of (o : string * SmartObject) : option (string * string * bool) :=
  let '(owner, r) := o in
  if r.(so_type_) =? token.TICKER_SOBJ_TYPE then Some (owner, ostr r.(so_data).(sd_name), r.(so_resigned)) else None.

Definition view_ticker b (id : string) : option (string * string * bool) :=
  match pending_sobject b id with Some o => ticker_of o | None => stored_sobject id ≫= ticker_of end.

Definition view_state b (id : string) : option TokenState := opt_or (b.(ba_states) !! id) (token_state s id).
Definition view_owner b (id : string) : option string :=
  match b.(ba_states) !! id with Some st => Some st.(ts_owner) | None => token_owner_of s id end.
Definition view_balance b (address id : string) : Z :=
  default (stored_tokens s address id) (b.(ba_balances) !! (address, id)).
Definition view_order b (id : string) : option TokenOrder := opt_or (b.(ba_orders) !! id) (token_order s id).

Definition of_seller (seller token_id : string) (o : TokenOrder) : bool :=
  String.eqb o.(od_seller) seller && String.eqb o.(od_token_id) token_id.

Definition view_open_orders b (seller token_id : string) : Z :=
  let stored : gset string :=
    list_to_set (od_id <$> List.filter (fun o => String.eqb o.(od_token_id) token_id) (wallet_orders s seller)) in
  let ids := foldl (fun ids o => if of_seller seller token_id o
                                 then if is_open o then {[o.(od_id)]} ∪ ids else ids ∖ {[o.(od_id)]}
                                 else ids)
               stored (snd <$> bt_entries b.(ba_orders)) in
  Z.of_nat (size ids).

#[export] Instance batch_view : TokenView Batch := {
  token_owner := view_owner;
  Rules.token_state := view_state;
  token_balance := view_balance;
  ticker_sobj := view_ticker;
  order := view_order;
  open_orders := view_open_orders
}.

(** ** Effects on the token view *)

(** The closure [bump]. *)
Definition bump (id address : string) (delta : Z) b : Batch :=
  on_ba_balances (insert (address, id) (as_u64 (Z.max (view_balance b address id + delta) 0))) b.

(** [if let Some(st) = self.state_mut(id) { .. }]: the state is copied into the batch first. *)
Definition upd_state (id : string) (f : TokenState -> TokenState) b : Batch :=
  match view_state b id with Some st => on_ba_states (insert id (f st)) b | None => b end.

Definition od_fill_batch (amount height : Z) (o : TokenOrder) : TokenOrder :=
  let filled := as_u64 (o.(od_filled) + amount) in
  mkOrder o.(od_id) o.(od_token_id) o.(od_seller) o.(od_amount) filled o.(od_price) o.(od_height)
    (if o.(od_amount) <=? filled then Some height else o.(od_closed)) o.(od_fills).

Definition view_init (a : TokenAsset) (sender : string) (height : Z) b : Batch :=
  let init := default 0 a.(ta_initial_supply) in
  let b := bump a.(ta_id) sender init b in
  let symbol := match view_ticker b a.(ta_id) with Some (_, name, _) => name | None => EmptyString end in
  on_ba_states (insert a.(ta_id)
    (mkTokenState symbol (default 0 a.(ta_decimals)) (default 0 a.(ta_flags)) init (default 0 a.(ta_supply_cap))
       sender height None)) b.

Definition view_transfer (a : TokenAsset) (sender : string) b : Batch :=
  foldl (fun b it => bump a.(ta_id) it.(ti_recipient_id) it.(ti_amount) (bump a.(ta_id) sender (- it.(ti_amount)) b))
    b (default [] a.(ta_transfers)).

Definition view_sell (a : TokenAsset) (sender tx_id : string) (height : Z) b : Batch :=
  let amount := default 0 a.(ta_amount) in
  on_ba_orders (insert tx_id (mkOrder tx_id a.(ta_id) sender amount 0 (default 0 a.(ta_price)) height None []))
    (bump a.(ta_id) sender (- amount) b).

Definition view_trade (buy : bool) (a : TokenAsset) (sender : string) (height : Z) b : Batch :=
  match a.(ta_order_id) ≫= view_order b with
  | None => b
  | Some o =>
      let oid := ostr a.(ta_order_id) in
      if buy then
        let amount := default 0 a.(ta_amount) in
        on_ba_orders (insert oid (od_fill_batch amount height o)) (bump a.(ta_id) sender amount b)
      else
        on_ba_orders (insert oid (od_close (Some height) o)) (bump a.(ta_id) o.(od_seller) (remaining o) b)
  end.

(** [BatchTokenView::apply]. *)
Definition view_apply (type_ : Z) (a : TokenAsset) (sender : string) (height : Z) (tx_id : string) b : Batch :=
  let amount := default 0 a.(ta_amount) in
  if type_ =? token.INIT then view_init a sender height b
  else if type_ =? token.TRANSFER then view_transfer a sender b
  else if type_ =? token.MINT then
    upd_state a.(ta_id) (fun st => ts_set_supply (sat_add_u64 st.(ts_supply) amount) st)
      (bump a.(ta_id) (ostr a.(ta_recipient_id)) amount b)
  else if type_ =? token.META then upd_state a.(ta_id) (ts_set_meta a.(ta_meta)) b
  else if type_ =? token.SELL then view_sell a sender tx_id height b
  else if (type_ =? token.BUY) || (type_ =? token.CANCEL) then view_trade (type_ =? token.BUY) a sender height b
  else
    upd_state a.(ta_id) (fun st => ts_set_supply (sat_sub st.(ts_supply) amount) st)
      (bump a.(ta_id) sender (- amount) b).

Definition set_owner (id owner : string) : Batch -> Batch := upd_state id (ts_set_owner owner).

(** ** One transaction *)

Definition in_block block tx (e : string) : Error :=
  EBlockValidation ("block " +:+ fmt_u block.(b_height) +:+ " tx " +:+ default "?"%string tx.(tx_id) +:+ ": " +:+ e).

Definition ws_set_balance (v : Z) (w : WalletState) : WalletState :=
  mkWallet w.(ws_address) w.(ws_public_key) v w.(ws_nonce) w.(ws_username) w.(ws_vote) w.(ws_second_public_key)
    w.(ws_produced_blocks) w.(ws_forged_fees) w.(ws_forged_rewards) w.(ws_last_block) w.(ws_resigned) w.(ws_locks)
    w.(ws_multi_signature) w.(ws_sobjects) w.(ws_pq_commitment) w.(ws_pq_key) w.(ws_tokens) w.(ws_tokens_issued).

(** The stored wallet with what the batch has moved; one first funded inside the batch is new. *)
Definition batch_wallet b (sender : string) : option WalletState :=
  let wallet := get_wallet s sender in
  match b.(ba_sth) !! sender with
  | Some d =>
      if d =? 0 then wallet else
      let w := default (wallet_new sender) wallet in
      Some (ws_set_balance (Z.min (Z.max (w.(ws_balance) + d) i64_min) i64_max) w)
  | None => wallet
  end.

Definition balance_of (wallet : option WalletState) : Z := default 0 (ws_balance <$> wallet).

Definition payments_of tx : list Payment := default [] (asset_part as_payments tx).

Definition spent b tx : Z :=
  tx.(tx_amount) + tx.(tx_fee) + zsum (p_amount <$> payments_of tx) + token_buy_total tx b.

(** Amount and recipient of the lock a claim or refund names: of the batch, else of the index. *)
Definition named_lock tx : option string :=
  match tx.(tx_asset) with
  | Some a => opt_or (hc_lock_transaction_id <$> a.(as_claim)) (hr_lock_transaction_id <$> a.(as_refund))
  | None => None
  end.

Definition open_lock (id : string) : option (string * string * Z) :=
  match get_lock s id with
  | None => None
  | Some l =>
      match res_ok (address_from_public_key l.(lk_sender_public_key) n.(n_pubkey_hash)) with
      | Some from => Some (from, l.(lk_recipient_id), l.(lk_amount))
      | None => None
      end
  end.

Definition claim_lock tx b : Batch :=
  match named_lock tx with
  | None => b
  | Some id =>
      let lock := opt_or (b.(ba_locks) !! id) (open_lock id) in
      let b := on_ba_locks (delete id) b in
      match lock with
      | Some (from, to, amount) =>
          on_ba_sth (add_in (if tx.(tx_type_) =? tx_type.HTLC_CLAIM then to else from) amount) b
      | None => b
      end
  end.

(** What a core transaction moves besides the sender's own spending. *)
Definition core_credits (sender : string) tx b : Batch :=
  let t := tx.(tx_type_) in
  if t =? tx_type.TRANSFER then
    match tx.(tx_recipient_id) with Some r => on_ba_sth (add_in r tx.(tx_amount)) b | None => b end
  else if t =? tx_type.MULTI_PAYMENT then
    foldl (fun b p => on_ba_sth (add_in p.(p_recipient_id) p.(p_amount)) b) b (payments_of tx)
  else if t =? tx_type.HTLC_LOCK then
    match tx.(tx_id), tx.(tx_recipient_id) with
    | Some id, Some r => on_ba_locks (insert id (sender, r, tx.(tx_amount))) b
    | _, _ => b
    end
  else if (t =? tx_type.HTLC_CLAIM) || (t =? tx_type.HTLC_REFUND) then claim_lock tx b
  else b.

Definition overdraft (sender : string) (available needs : Z) : string :=
  "InsufficientBalanceError: sender " +:+ sender +:+ " has " +:+ fmt_i available +:+ ", needs " +:+ fmt_i needs.

(** The balance part: refused under [strictBalance], only logged without it. *)
Definition move_sth block (sender : string) (wallet : option WalletState) tx b : Res Batch :=
  let needs := spent b tx in
  let available := balance_of wallet in
  if (1 <? block.(b_height)) && (available <? needs) && (milestone n block.(b_height)).(m_strict_balance)
  then Err (in_block block tx (overdraft sender available needs))
  else
    let b := on_ba_sth (add_in sender (- needs)) b in
    Ok (if tx.(tx_type_group) =? TYPE_GROUP_CORE then core_credits sender tx b else b).

(** The key part: quantum rules, second signature, registrations. *)
Definition check_keys block (sender : string) (wallet : option WalletState) tx b : Res Batch :=
  let b := if bool_decide (is_Some (b.(ba_keys) !! sender)) then b
           else on_ba_pq_keys (insert sender (wallet ≫= ws_pq_key))
                  (on_ba_keys (insert sender (wallet ≫= ws_second_public_key)) b) in
  let key b := default None (b.(ba_keys) !! sender) in
  let view := mkPqView (key b) (default None (b.(ba_pq_keys) !! sender)) (wallet ≫= ws_pq_commitment) in
  let? r := map_err (in_block block tx)
      (check_pq tx (milestone n block.(b_height)) block.(b_height) (pq_activation_height n) view) in
  let b := match r with
           | Some k => on_ba_keys (insert sender None) (on_ba_pq_keys (insert sender (Some k)) b)
           | None => b
           end in
  let? _ := map_err (in_block block tx) (check_second_signature tx (key b)) in
  let? pk := map_err (in_block block tx) (registered_second_key tx) in
  Ok (match pk with Some pk => on_ba_keys (insert sender (Some pk)) b | None => b end).

Definition token_step block (sender : string) (wallet : option WalletState) tx b : Res Batch :=
  let ms := milestone n block.(b_height) in
  if negb ms.(m_tokens) then Err (in_block block tx "Token transaction before tokens activation") else
  let? a := map_err (in_block block tx) (check_token_format tx ms) in
  let? _ := map_err (in_block block tx) (check_token tx a sender b) in
  let? b :=
    if tx.(tx_type_) =? token.BUY then
      let total := token_buy_total tx b in
      let have := balance_of wallet in
      if have <? total + tx.(tx_fee)
      then Err (in_block block tx ("TokenBuyInsufficientBalanceError: buyer has " +:+ fmt_i have +:+ ", needs "
             +:+ fmt_i (total + tx.(tx_fee))))
      else
        let seller := match view_order b (ostr a.(ta_order_id)) with Some o => o.(od_seller) | None => EmptyString end in
        Ok (on_ba_sth (fun m => add_in seller total (add_in sender (- total) m)) b)
    else Ok b in
  Ok (view_apply tx.(tx_type_) a sender block.(b_height) (ostr tx.(tx_id)) b).

(** The batch's records first, then the store. *)
Definition lookup_sobject b (reg : string) : option (string * SmartObject) :=
  opt_or (pending_sobject b reg) (stored_sobject reg).

Definition held_by b (owner : string) : gmap string SmartObject := default ∅ (b.(ba_sobjects) !! owner).

Definition put_sobject (owner id : string) (r : SmartObject) : Batch -> Batch :=
  on_ba_sobjects (fun m => <[owner := <[id := r]> (default ∅ (m !! owner))]> m).

(** [sobjects.get_mut(&from).and_then(|m| m.remove(&reg))]. *)
Definition take_sobject (owner id : string) : Batch -> Batch :=
  on_ba_sobjects (alter (delete id) owner).

Definition not_registered : string := "SmartObjectNotRegisteredError".

(** Transfer and purchase. *)
Definition sobj_move block (sender : string) tx (e : SmartObjectAsset) b : Res Batch :=
  let reg := ostr e.(sa_registration_id) in
  let? (from, to, b) :=
    if e.(sa_action) =? sobj.ACTION_BUY then
      let? (owner, rec) := ok_or (lookup_sobject b reg) (in_block block tx not_registered) in
      let price := default 0 rec.(so_price) in
      Ok (owner, sender, on_ba_sth (fun m => add_in owner price (add_in sender (- price) m)) b)
    else Ok (sender, ostr e.(sa_recipient_id), b) in
  let? rec := ok_or (opt_or (held_by b from !! reg) (wallet_sobject s from reg)) (in_block block tx not_registered) in
  let b := put_sobject to reg (so_set_price None rec) (take_sobject from reg b) in
  Ok (on_ba_transferred (insert reg to) (set_owner reg to b)).

(** Registration and changes of a held record. *)
Definition sobj_change block (sender : string) (wallet : option WalletState) tx (e : SmartObjectAsset) b : Res Batch :=
  if e.(sa_action) =? sobj.ACTION_REGISTER then
    let name := ostr e.(sa_data).(sd_name) in
    Ok (put_sobject sender (ostr tx.(tx_id)) (mkSobj e.(sa_type_) e.(sa_sub_type) e.(sa_data) false None)
          (on_ba_names (union {[sobj_name_key name e.(sa_type_)]}) b))
  else
    let reg := ostr e.(sa_registration_id) in
    let? rec := ok_or (opt_or (held_by b sender !! reg) (wallet ≫= fun w => w.(ws_sobjects) !! reg))
                  (in_block block tx not_registered) in
    Ok (put_sobject sender reg
          (if e.(sa_action) =? sobj.ACTION_UPDATE then so_set_ntfry e.(sa_data).(sd_ntfry_data) rec
           else if e.(sa_action) =? sobj.ACTION_SELL
           then so_set_price (match e.(sa_price) with Some p => if 0 <? p then Some p else None | None => None end) rec
           else so_set_resigned true rec) b).

(** [SmartObjectAsset::default]. *)
Definition sobj_default : SmartObjectAsset := mkSobjAsset 0 0 0 None None None (mkSobjData None None).

Definition name_taken b (name : string) (t : Z) : bool :=
  bool_decide (sobj_name_key name t ∈ b.(ba_names)) || is_some (sobj_by_name s name t).

Definition sobj_step block (sender : string) (wallet : option WalletState) tx b : Res Batch :=
  let e := default sobj_default (sobj_asset tx) in
  if negb (e.(sa_action) =? sobj.ACTION_BUY)
     && opt_test (fun reg => opt_test (fun owner => negb (String.eqb owner sender)) (b.(ba_transferred) !! reg))
          e.(sa_registration_id)
  then Err (in_block block tx not_registered) else
  let supply id := ts_supply <$> view_state b id in
  let? _ := map_err (in_block block tx)
      (check_sobj tx (milestone n block.(b_height)) wallet (held_by b sender) (name_taken b) (lookup_sobject b) supply) in
  if (e.(sa_action) =? sobj.ACTION_BUY) || (e.(sa_action) =? sobj.ACTION_TRANSFER)
  then sobj_move block sender tx e b
  else sobj_change block sender wallet tx e b.

Definition rules_step block b tx : Res Batch :=
  let? sender := address_from_public_key tx.(tx_sender_public_key) n.(n_pubkey_hash) in
  let wallet := batch_wallet b sender in
  let? b := move_sth block sender wallet tx b in
  let? b := check_keys block sender wallet tx b in
  if is_token tx then token_step block sender wallet tx b
  else if is_sobj tx then sobj_step block sender wallet tx b
  else Ok b.

(** ** A batch *)

(** The hybrid signature, against the delegate's key as of the state before the block. *)
Definition check_block_key block b : Res unit :=
  if negb (block.(b_version) =? BLOCK_VERSION_PQ) then Ok tt else
  let? generator := address_from_public_key block.(b_generator_public_key) n.(n_pubkey_hash) in
  let key := match b.(ba_pq_keys) !! generator with
             | Some k => k
             | None => get_wallet s generator ≫= ws_pq_key
             end in
  let at_block (e : string) := EBlockValidation ("block " +:+ fmt_u block.(b_height) +:+ ": " +:+ e) in
  let? key := ok_or key (at_block ("BlockPqKeyMissingError: delegate " +:+ block.(b_generator_public_key)
                                     +:+ " has no registered PQ key")) in
  let? good := verify_block_pq_signature block key.(pk_public_key) in
  if good : bool then Ok tt
  else Err (at_block "BlockPqSignatureError: pqSignature does not verify against the delegate's PQ key").

(** Reward and fees go to the generator after the transactions of its block. *)
Definition reward_generator block b : Batch :=
  match res_ok (address_from_public_key block.(b_generator_public_key) n.(n_pubkey_hash)) with
  | None => b
  | Some generator =>
      let inits := Z.of_nat (length (List.filter is_init block.(b_transactions))) in
      let burned := if bool_decide (n.(n_burn_address) = EmptyString) then 0
                    else as_u64 (inits * init_burn (milestone n block.(b_height)).(m_token_fees)) in
      on_ba_sth (add_in generator (block.(b_reward) + block.(b_total_fee) - burned)) b
  end.

Definition block_rules b block : Res Batch :=
  let? _ := check_block_key block b in
  let? b := rfold (rules_step block) block.(b_transactions) b in
  Ok (reward_generator block b).

Definition batch_rules (blocks : list Block) : Res Batch := rfold block_rules blocks batch_empty.

Definition check_stateful_rules (blocks : list Block) : Res unit := rmap (fun _ => tt) (batch_rules blocks).

(** ** Acceptance *)

Record ChainTip : Type := mkTip { tip_height : Z; tip_id : option string }.

Definition FUTURE_SLOT_GRACE_MS : Z := 1000.

(** Milliseconds until the slot of a block starts, when it starts too far in the future. *)
Definition future_slot_ms (now_ms : Z) block : option Z :=
  let blocktime := (milestone n block.(b_height)).(m_blocktime) in
  let slot := slot_number block.(b_timestamp) blocktime in
  let early := epoch_to_unix n (slot_start slot blocktime) * 1000 - now_ms in
  if FUTURE_SLOT_GRACE_MS <? early then Some early else None.

(** The checks of one block that need nothing else; [now] is the network time in seconds. *)
Definition crypto_check (verify : bool) (now : Z) block : Res unit :=
  let height := fmt_u block.(b_height) in
  let? id := ok_or block.(b_id) (ESync ("block " +:+ height +:+ " has no id")) in
  if verify then
    let v := verify_block block n now in
    if v.(bv_verified) then Ok tt
    else Err (EBlockValidation ("block " +:+ height +:+ " (" +:+ id +:+ "): " +:+ String.concat "; " v.(bv_errors)))
  else if 1 <? block.(b_height) then
    let? computed := block_id block in
    if String.eqb computed id then Ok tt
    else Err (EBlockValidation ("block " +:+ height +:+ ": id " +:+ id +:+ " != computed " +:+ computed))
  else Ok tt.

(** [id.get(..8)]: ids are hex text. *)
Definition short_id (id : option string) : string :=
  match id with
  | Some i => if (8 <=? String.length i)%nat then String.substring 0 8 i else "?"
  | None => "?"
  end.

Definition future_text block (early_ms : Z) : string :=
  "block " +:+ fmt_u block.(b_height) +:+ " (" +:+ short_id block.(b_id) +:+ ") by " +:+ block.(b_generator_public_key)
  +:+ " takes slot " +:+ fmt_u (slot_number block.(b_timestamp) (milestone n block.(b_height)).(m_blocktime))
  +:+ " which starts in " +:+ fmt_f64 1 (f64_div (f64_of early_ms) (f64_of 1000)) +:+ "s — the forger's clock is ahead".

(** The block links to the tip, which then is the block. *)
Definition link (now_ms : Z) (tip : ChainTip) block : Res ChainTip :=
  let height := fmt_u block.(b_height) in
  if negb (block.(b_height) =? as_u64 (tip.(tip_height) + 1))
  then Err (ESync ("height gap: expected " +:+ fmt_u (as_u64 (tip.(tip_height) + 1)) +:+ ", got " +:+ height)) else
  match future_slot_ms now_ms block with
  | Some early => Err (EFutureBlock (future_text block early))
  | None =>
      let? id := ok_or block.(b_id) (ESync ("block " +:+ height +:+ " has no id")) in
      match tip.(tip_id) with
      | Some prev =>
          if String.eqb block.(b_previous_block) prev then Ok (mkTip block.(b_height) (Some id))
          else Err (EBlockValidation ("block " +:+ height +:+ " (" +:+ id +:+ ") previousBlock "
                 +:+ block.(b_previous_block) +:+ " does not match local tip " +:+ prev))
      | None => Ok (mkTip block.(b_height) (Some id))
      end
  end.

Definition accept (verify : bool) (now now_ms : Z) (blocks : list Block) (tip : ChainTip) : Res ChainTip :=
  let crypto := crypto_check verify now <$> blocks in
  let? tip := rfold (link now_ms) blocks tip in
  let? _ := rfold (fun _ r => r) crypto tt in
  let? _ := if verify then check_stateful_rules blocks else Ok tt in
  Ok tip.

(** [apply_blocks]: the store is touched only when every check has passed. *)
Definition sync_apply_blocks (verify undo_enabled : bool) (now now_ms : Z) (blocks : list Block) (tip : ChainTip)
    : Store * Exit * option ChainTip :=
  match accept verify now now_ms blocks tip with
  | Err e => (s, Failed e, None)
  | Ok tip =>
      match apply_blocks n s blocks undo_enabled with
      | (s, Done) => (s, Done, Some tip)
      | (s, e) => (s, e, None)
      end
  end.

End sync.
