(* ===== verification/SyncBalance.v ===== *)
(** * No overdraft

    Under [strictBalance] the checks of [Sync] keep a running balance of every address of the batch.
    That balance never exceeds what the store will compute, so no wallet of an accepted batch goes
    below zero. *)

From S2P Require Import Prelude Floats Models Env Bytes Crypto Config TxCodec BlockCodec BlockVerify Wallet Rules RulesFacts.
From S2P Require Import Round Tree Storage StorageFacts Deltas TokenFlow Chain Sync SyncFacts.

(** ** Balance of one address *)

Definition lead (a : string) (ds : gmap string WalletDelta) : Z := dl_balance (default delta_default (ds !! a)).
Definition sth (a : string) (b : Batch) : Z := default 0 (b.(ba_sth) !! a).
Definition at_ (a c : string) (x : Z) : Z := if decide (a = c) then x else 0.

Lemma lead_entry c a f ds : lead c (entry a f ds) = if decide (a = c) then dl_balance (f (default delta_default (ds !! a))) else lead c ds.
Proof.
  unfold lead, entry. destruct (decide (a = c)) as [->|Hne]; [by rewrite lookup_insert_eq|by rewrite lookup_insert_ne].
Qed.

Lemma lead_same c a f ds : (forall d, dl_balance (f d) = dl_balance d) -> lead c (entry a f ds) = lead c ds.
Proof. intros Hf. rewrite lead_entry, Hf. unfold lead. by destruct (decide (a = c)) as [->|]. Qed.

Lemma lead_move c a f x ds : (forall d, dl_balance (f d) = dl_balance d + x) -> lead c (entry a f ds) = lead c ds + at_ a c x.
Proof. intros Hf. rewrite lead_entry, Hf. unfold lead, at_. destruct (decide (a = c)) as [->|]; lia. Qed.

Lemma lead_credit c a x ds : lead c (credit a x ds) = lead c ds + at_ a c x.
Proof. by apply lead_move. Qed.

Lemma sth_add c a x b : sth c (on_ba_sth (add_in a x) b) = sth c b + at_ a c x.
Proof.
  unfold sth, add_in, at_. cbn. destruct (decide (a = c)) as [->|Hne]; [by rewrite lookup_insert_eq|rewrite lookup_insert_ne by done; lia].
Qed.

Lemma foldl_lead {A} c (f : gmap string WalletDelta -> A -> gmap string WalletDelta) (g : A -> Z) l ds :
  (forall ds x, lead c (f ds x) = lead c ds + g x) -> lead c (foldl f ds l) = lead c ds + zsum (g <$> l).
Proof. intros H. revert ds; induction l as [|x l IH]; intros ds; cbn; [lia|]. rewrite IH, H. lia. Qed.

Lemma foldl_sth {A} c (f : Batch -> A -> Batch) (g : A -> Z) l b :
  (forall b x, sth c (f b x) = sth c b + g x) -> sth c (foldl f b l) = sth c b + zsum (g <$> l).
Proof. intros H. revert b; induction l as [|x l IH]; intros b; cbn; [lia|]. rewrite IH, H. lia. Qed.

Lemma at_zero a c : at_ a c 0 = 0.
Proof. unfold at_. by destruct (decide _). Qed.
Lemma at_nonneg a c x : 0 <= x -> 0 <= at_ a c x.
Proof. unfold at_. destruct (decide _); lia. Qed.
Lemma at_opp a c x : at_ a c (- x) = - at_ a c x.
Proof. unfold at_. destruct (decide _); lia. Qed.
Lemma at_add a c x y : at_ a c (x + y) = at_ a c x + at_ a c y.
Proof. unfold at_. destruct (decide _); lia. Qed.

Section balance.
Context `{E : Env}.
Variables (n : Network) (s : Store).
Implicit Types (b : Batch) (tx : Transaction) (block : Block) (ds : gmap string WalletDelta).

#[local] Instance the_view : TokenView Batch := batch_view n s.

(** Amounts are [u64]. *)
Record amounts_ok tx : Prop := {
  ao_amount : 0 <= tx.(tx_amount);
  ao_fee : 0 <= tx.(tx_fee);
  ao_payments : Forall (fun p => 0 <= p.(p_amount)) (payments_of tx);
  ao_token : forall a, token_asset tx = Some a -> 0 <= default 0 a.(ta_amount) /\ 0 <= default 0 a.(ta_price)
}.

(** What a core transaction credits to an address. *)
Definition credits tx (c : string) : Z :=
  if negb (tx.(tx_type_group) =? TYPE_GROUP_CORE) then 0
  else if tx.(tx_type_) =? tx_type.TRANSFER then
    match tx.(tx_recipient_id) with Some r => at_ r c tx.(tx_amount) | None => 0 end
  else if tx.(tx_type_) =? tx_type.MULTI_PAYMENT then zsum ((fun p => at_ p.(p_recipient_id) c p.(p_amount)) <$> payments_of tx)
  else 0.

(** What it takes from its sender besides amount and fee. *)
Definition paid tx : Z :=
  if (tx.(tx_type_group) =? TYPE_GROUP_CORE) && (tx.(tx_type_) =? tx_type.MULTI_PAYMENT)
  then zsum (p_amount <$> payments_of tx) else 0.

Definition is_claim tx : bool :=
  (tx.(tx_type_group) =? TYPE_GROUP_CORE)
  && ((tx.(tx_type_) =? tx_type.HTLC_CLAIM) || (tx.(tx_type_) =? tx_type.HTLC_REFUND)).

Definition is_purchase tx : bool :=
  match sobj_asset tx with Some e => e.(sa_action) =? sobj.ACTION_BUY | None => false end.

Lemma payments_nonneg tx : amounts_ok tx -> 0 <= zsum (p_amount <$> payments_of tx).
Proof. intros H. apply zsum_nonneg, Forall_fmap. apply H. Qed.

Lemma paid_le tx : amounts_ok tx -> 0 <= paid tx <= zsum (p_amount <$> payments_of tx).
Proof. intros H. pose proof (payments_nonneg tx H). unfold paid. destruct (_ && _); lia. Qed.

Lemma credits_nonneg tx c : amounts_ok tx -> 0 <= credits tx c.
Proof.
  intros H. unfold credits. destruct (negb _); [done|]. destruct (_ =? _).
  { destruct (tx_recipient_id tx); [|done]. apply at_nonneg, H. }
  destruct (_ =? _); [|done]. apply zsum_nonneg, Forall_fmap. eapply Forall_impl; [apply H|]. intros p Hp. by apply at_nonneg.
Qed.

(** ** The deltas *)

Lemma lead_sender c ds sender tx :
  lead c (sender_deltas ds sender tx) = lead c ds + at_ sender c (- (tx.(tx_amount) + tx.(tx_fee))).
Proof. unfold sender_deltas. apply lead_move. intros d. cbn. lia. Qed.

Lemma lead_core c ds sender block batch tx ds' :
  core_deltas n s ds sender block batch tx = Ok ds' -> is_claim tx = false -> tx.(tx_type_group) = TYPE_GROUP_CORE ->
  lead c ds' = lead c ds + credits tx c - at_ sender c (paid tx).
Proof.
  unfold core_deltas, credits, paid, is_claim. intros H Hc Hg. rewrite Hg in *. cbn [Z.eqb andb negb] in *.
  replace (TYPE_GROUP_CORE =? TYPE_GROUP_CORE) with true in * by done. cbn [negb andb] in *.
  destruct (Z.eqb_spec (tx_type_ tx) tx_type.TRANSFER) as [Ht|_].
  { rewrite Ht. apply Ok_inj in H as <-. cbn. rewrite at_zero. unfold transfer_deltas. destruct (tx_recipient_id tx) as [r|]; [|lia].
    set (ds1 := credit r (tx_amount tx) ds). assert (H1 : lead c ds1 = lead c ds + at_ r c (tx_amount tx)) by apply lead_credit.
    destruct (_ && _); [|lia].
    destruct (match tx_vendor_field tx with Some v => parse_commitment v | None => None end) as [[? ?]|]; [|lia].
    rewrite lead_same by done. lia. }
  destruct (Z.eqb_spec (tx_type_ tx) tx_type.MULTI_PAYMENT) as [Ht|_].
  { apply Ok_inj in H as <-. change (default [] (asset_part as_payments tx)) with (payments_of tx).
    rewrite (foldl_lead c _ (fun p => at_ (p_recipient_id p) c (p_amount p) - at_ sender c (p_amount p))).
    - induction (payments_of tx) as [|p l IH]; cbn; [rewrite at_zero; lia|]. rewrite at_add in *. lia.
    - intros d p. unfold payment_deltas. rewrite !lead_credit, at_opp. lia. }
  rewrite at_zero, Z.sub_0_r, Z.add_0_r.
  destruct (_ =? tx_type.VOTE).
  { apply Ok_inj in H as <-. rewrite (foldl_lead c _ (fun _ => 0)).
    - induction (default [] (asset_part as_votes tx)); cbn in *; lia.
    - intros d v. unfold vote_deltas. rewrite lead_same by done. lia. }
  destruct (_ =? tx_type.DELEGATE_REGISTRATION).
  { apply Ok_inj in H as <-. destruct (asset_part as_delegate tx); [by apply lead_same|done]. }
  destruct (_ =? tx_type.SECOND_SIGNATURE).
  { apply Ok_inj in H as <-. destruct (asset_part as_signature tx); [|done]. unfold key_deltas. destruct (is_pq tx); by apply lead_same. }
  destruct (_ =? tx_type.DELEGATE_RESIGNATION); [apply Ok_inj in H as <-; by apply lead_same|].
  destruct (_ =? tx_type.MULTI_SIGNATURE).
  { destruct (asset_part as_multi_signature tx); [|by apply Ok_inj in H as <-].
    apply rbind_ok_inv in H as (addr & _ & H). apply Ok_inj in H as <-. by apply lead_same. }
  destruct (_ =? tx_type.HTLC_LOCK).
  { apply Ok_inj in H as <-. unfold lock_deltas. repeat case_match; try done. by apply lead_same. }
  apply orb_false_iff in Hc as [Hc1 Hc2]. rewrite Hc1, Hc2 in H. by apply Ok_inj in H as <-.
Qed.

Lemma lead_hand_over c ds from to id rec : lead c (hand_over s ds from to id rec) = lead c ds.
Proof.
  unfold hand_over. set (t := opt_or _ _). rewrite lead_same by (intros; by destruct t). rewrite lead_same; [done|].
  intros d. by destruct (bool_decide _).
Qed.

Lemma lead_sobj c ds sender tx e : (e.(sa_action) =? sobj.ACTION_BUY) = false -> lead c (sobj_deltas n s ds sender tx e) = lead c ds.
Proof.
  unfold sobj_deltas, move_sobj, change_sobj. intros ->. destruct (tx_id tx); [|done]. destruct (_ || _).
  - destruct (sa_registration_id e); [|done]. destruct (sa_recipient_id e); [|done].
    destruct (current_sobject _ _ _ _); [|done]. apply lead_hand_over.
  - match goal with |- context [match ?r with Some _ => entry _ _ _ | None => _ end] => destruct r end; [|done]. by apply lead_same.
Qed.

(** The price of a purchase, and who gets it, as the deltas see them. *)
Definition token_sale ds tx : option (Z * string) :=
  if negb (tx.(tx_type_group) =? TYPE_GROUP_TOKEN) || negb (tx.(tx_type_) =? token.BUY) then None else
  match token_asset tx with
  | None => None
  | Some a => (fun o => (sat_mul_u64 (default 0 a.(ta_amount)) o.(od_price), o.(od_seller)))
                <$> TokenFlow.orders s ds !! default EmptyString a.(ta_order_id)
  end.

Lemma lead_token c ds sender block i tx a ds' :
  token_deltas n s ds sender block i tx a = Ok ds' -> token_asset tx = Some a ->
  lead c ds' = lead c ds + match token_sale ds tx with Some (p, seller) => at_ seller c p - at_ sender c p | None => 0 end.
Proof.
  intros H Ha. assert (Hg : (tx_type_group tx =? TYPE_GROUP_TOKEN) = true).
  { apply token_asset_is_token in Ha. unfold is_token in Ha. by apply andb_true_iff in Ha as [? _]. }
  unfold token_sale. rewrite Hg, Ha. cbn [negb orb]. unfold token_deltas in H.
  assert (Hfold : forall l d, lead c (foldl (fun ds it => credit_token it.(ti_recipient_id) a.(ta_id) it.(ti_amount)
                        (credit_token sender a.(ta_id) (- it.(ti_amount)) ds)) d l) = lead c d).
  { intros l. induction l as [|it l IH]; intros d; cbn; [done|]. rewrite IH. unfold credit_token. by rewrite !lead_same. }
  destruct (Z.eqb_spec (tx_type_ tx) token.INIT) as [->|_].
  { cbn. unfold token_init in H. apply rbind_ok_inv in H as (so & _ & H). apply Ok_inj in H as <-. rewrite lead_same by done. lia. }
  destruct (Z.eqb_spec (tx_type_ tx) token.TRANSFER) as [->|_]; [cbn; apply Ok_inj in H as <-; unfold token_transfer; rewrite Hfold; lia|].
  destruct (Z.eqb_spec (tx_type_ tx) token.MINT) as [->|_].
  { cbn. apply Ok_inj in H as <-. unfold add_supply, credit_token. rewrite !lead_same by done. lia. }
  destruct (Z.eqb_spec (tx_type_ tx) token.META) as [->|_].
  { cbn. apply Ok_inj in H as <-. destruct (ta_meta a); [rewrite lead_same by done|]; lia. }
  destruct (Z.eqb_spec (tx_type_ tx) token.SELL) as [->|_].
  { cbn. apply Ok_inj in H as <-. unfold token_sell. rewrite lead_same by done. lia. }
  destruct (Z.eqb_spec (tx_type_ tx) token.BUY) as [->|_]; cbn [orb negb] in H |- *.
  { rewrite current_order_lookup in H. destruct (TokenFlow.orders s ds !! _) as [o|]; cbn in H; [|done]. apply Ok_inj in H as <-.
    unfold token_buy. cbn [fmap option_fmap option_map]. rewrite lead_same, lead_credit by done.
    rewrite (lead_move _ _ _ (- sat_mul_u64 (default 0 (ta_amount a)) (od_price o))); [rewrite at_opp; lia|]. intros d. cbn. lia. }
  destruct (_ =? token.CANCEL).
  - apply rbind_ok_inv in H as (o & _ & H). apply Ok_inj in H as <-. unfold token_cancel, credit_token. rewrite !lead_same by done. lia.
  - apply Ok_inj in H as <-. unfold token_burn, add_supply, credit_token. rewrite !lead_same by done. lia.
Qed.

(** ** The running balance of the checks *)

Lemma sth_core c sender tx b : tx.(tx_type_group) = TYPE_GROUP_CORE -> is_claim tx = false ->
  sth c (core_credits n s sender tx b) = sth c b + credits tx c.
Proof.
  unfold core_credits, credits, is_claim. intros -> Hc. replace (TYPE_GROUP_CORE =? TYPE_GROUP_CORE) with true in * by done.
  cbn [negb andb] in *. destruct (Z.eqb_spec (tx_type_ tx) tx_type.TRANSFER) as [Ht|_].
  { destruct (tx_recipient_id tx); [apply sth_add|lia]. }
  destruct (Z.eqb_spec (tx_type_ tx) tx_type.MULTI_PAYMENT) as [Ht|_].
  { apply foldl_sth. intros b' p. apply sth_add. }
  destruct (_ =? tx_type.HTLC_LOCK); [repeat case_match; unfold sth; cbn; lia|]. rewrite Hc. lia.
Qed.

Lemma sth_move c block sender wallet tx b b' :
  move_sth n s block sender wallet tx b = Ok b' -> is_claim tx = false ->
  sth c b' = sth c b + credits tx c - at_ sender c (spent n s b tx) /\
  ((1 <? block.(b_height)) = true -> (milestone n block.(b_height)).(m_strict_balance) = true -> spent n s b tx <= balance_of wallet).
Proof.
  unfold move_sth. intros H Hc. destruct (_ && _) eqn:Hov; [done|]. apply Ok_inj in H as <-. split.
  - assert (Hs : sth c (on_ba_sth (add_in sender (- spent n s b tx)) b) = sth c b - at_ sender c (spent n s b tx)).
    { rewrite sth_add, at_opp. lia. }
    destruct (Z.eqb_spec (tx_type_group tx) TYPE_GROUP_CORE) as [Hg|Hg].
    + rewrite sth_core by done. lia.
    + rewrite Hs. unfold credits. destruct (Z.eqb_spec (tx_type_group tx) TYPE_GROUP_CORE); [done|]. cbn. lia.
  - intros Hh Hst. rewrite Hh, Hst in Hov. cbn in Hov. rewrite andb_true_r in Hov. by apply Z.ltb_ge in Hov.
Qed.

(** What the wallet shown to the rules is worth. *)
Definition stored a : Z := balance_of (get_wallet s a).

Lemma available_le b sender x : 0 <= x <= balance_of (batch_wallet s b sender) -> x <= stored sender + sth sender b.
Proof.
  unfold batch_wallet, stored, sth, balance_of. destruct (ba_sth b !! sender) as [d|]; cbn; [|lia].
  destruct (Z.eqb_spec d 0) as [->|_]; [lia|]. cbn. destruct (get_wallet s sender) as [w|]; cbn; bounds; lia.
Qed.

Lemma sth_sobj c block sender wallet tx b b' :
  sobj_step n s block sender wallet tx b = Ok b' -> is_purchase tx = false -> sth c b' = sth c b.
Proof.
  unfold sobj_step. intros Hm Hpur. set (e := default sobj_default (sobj_asset tx)) in *.
  assert (Hp : (sa_action e =? sobj.ACTION_BUY) = false) by (unfold e, is_purchase in *; by destruct (sobj_asset tx)).
  clearbody e. cbn zeta in Hm. rewrite Hp in Hm. case_match; [done|].
  apply rbind_ok_inv in Hm as (u & _ & Hm). cbn [orb] in Hm. case_match.
  - unfold sobj_move in Hm. rewrite Hp in Hm. cbn [rbind] in Hm. apply rbind_ok_inv in Hm as (rec & _ & Hm). apply Ok_inj in Hm as <-.
    unfold sth, set_owner, upd_state. cbn. by case_match.
  - unfold sobj_change in Hm. case_match; [by apply Ok_inj in Hm as <-|].
    apply rbind_ok_inv in Hm as (rec & _ & Hm). by apply Ok_inj in Hm as <-.
Qed.

Lemma sth_bump c id a x b : sth c (bump s id a x b) = sth c b.
Proof. done. Qed.
Lemma sth_upd c id f b : sth c (upd_state s id f b) = sth c b.
Proof. unfold upd_state. by case_match. Qed.

Lemma sth_apply c type_ a sender h id b : sth c (view_apply n s type_ a sender h id b) = sth c b.
Proof.
  unfold view_apply. repeat (case_match; [try (by rewrite sth_upd)|]); try done; try (by rewrite sth_upd).
  - unfold view_transfer. rewrite (foldl_sth c _ (fun _ => 0)); [|intros; unfold sth; cbn; lia].
    induction (default [] (ta_transfers a)); cbn in *; lia.
  - unfold view_trade. repeat case_match; done.
Qed.

(** ** The two together *)

(** [G] is what the generator [g] of the open block still has to get. *)
Record covered b ds (g : string) (G : Z) : Prop := {
  cv_lead : forall a, sth a b + at_ g a G <= lead a ds;
  cv_stored : forall a, 0 <= stored a + lead a ds
}.

Definition order_seller b (a : TokenAsset) : string :=
  match view_order s b (ostr a.(ta_order_id)) with Some o => o.(od_seller) | None => EmptyString end.

Lemma buy_total_none b tx : tx.(tx_type_) <> token.BUY -> token_buy_total tx b = 0.
Proof. intros H. unfold token_buy_total. apply Z.eqb_neq in H. by rewrite H, orb_true_r. Qed.

Lemma sale_agrees b ds tx a c sender :
  view_sim s b ds -> token_asset tx = Some a -> (tx.(tx_type_) = token.BUY -> is_Some a.(ta_order_id)) ->
  match token_sale ds tx with Some (p, seller) => at_ seller c p - at_ sender c p | None => 0 end
  = at_ (order_seller b a) c (token_buy_total tx b) - at_ sender c (token_buy_total tx b).
Proof.
  intros Hs Ha Hoid. unfold token_sale, token_buy_total, order_seller. rewrite Ha. destruct (negb _ || negb _) eqn:Ht; [by rewrite !at_zero|].
  apply orb_false_iff in Ht as [_ Ht]. apply negb_false_iff, Z.eqb_eq in Ht. destruct (Hoid Ht) as [oid Ho]. rewrite Ho.
  cbn [option_bind mbind]. unfold order, the_view, batch_view, ostr. change (default EmptyString (Some oid)) with oid.
  specialize (Hs oid). destruct (view_order s b oid) as [o|], (TokenFlow.orders s ds !! oid) as [o'|]; cbn in Hs |- *; try done.
  - apply (inj Some) in Hs. pose proof (f_equal od_price Hs) as Hp. pose proof (f_equal od_seller Hs) as Hl. cbn in Hp, Hl. by rewrite Hp, Hl.
  - by rewrite !at_zero.
Qed.

Lemma token_buy_same b b' tx : b'.(ba_orders) = b.(ba_orders) -> token_buy_total tx b' = token_buy_total tx b.
Proof.
  intros Hb. unfold token_buy_total. destruct (_ || _); [done|]. destruct (token_asset tx) as [a|]; [|done].
  destruct (ta_order_id a) as [o|]; cbn; [|done]. unfold order, the_view, batch_view. by rewrite (view_order_same s b b' o).
Qed.

(** The arithmetic of a step: the sender pays no more than the checks have seen, others only gain. *)
Lemma covered_step b b' ds ds' g G sender (D D' : Z) (C : string -> Z) :
  covered b ds g G -> (forall c, 0 <= at_ g c G) -> 0 <= D <= D' -> (forall c, 0 <= C c) ->
  D <= stored sender + sth sender b ->
  (forall c, sth c b' = sth c b - at_ sender c D' + C c) ->
  (forall c, lead c ds' = lead c ds - at_ sender c D + C c) -> covered b' ds' g G.
Proof.
  intros [H1 H2] Hg HD HC Hav Hs Hl. split; intros c; rewrite Hl, ?Hs; specialize (H1 c); specialize (H2 c);
    specialize (HC c); specialize (Hg c); unfold at_ in *; destruct (decide (sender = c)) as [->|]; lia.
Qed.

Lemma at_g_nonneg g c G : 0 <= G -> 0 <= at_ g c G.
Proof. apply at_nonneg. Qed.

(** The prices of the open orders. *)
Definition prices_ok ds : Prop := map_Forall (fun _ o => 0 <= o.(od_price)) (TokenFlow.orders s ds).

Definition strict block : Prop := (1 <? block.(b_height)) = true /\ (milestone n block.(b_height)).(m_strict_balance) = true.

Lemma buy_total_nonneg b ds tx : view_sim s b ds -> prices_ok ds -> amounts_ok tx -> 0 <= token_buy_total tx b.
Proof.
  intros Hs Hp Ha. unfold token_buy_total. destruct (_ || _); [done|]. destruct (token_asset tx) as [a|] eqn:Hta; [|done].
  destruct (ta_order_id a) as [oid|]; cbn; [|done]. unfold order, the_view, batch_view. specialize (Hs oid).
  destruct (view_order s b oid) as [o|]; [|done]. destruct (TokenFlow.orders s ds !! oid) as [o'|] eqn:Ho; cbn in Hs; [|done].
  apply (inj Some) in Hs. pose proof (f_equal od_price Hs) as Hpr. cbn in Hpr. pose proof (Hp _ _ Ho) as H0. cbn in H0.
  pose proof (ao_token _ Ha _ Hta) as [? _]. unfold sat_mul_u64, u64_max. apply Z.min_glb; [apply Z.mul_nonneg_nonneg; lia|lia].
Qed.

Lemma token_step_sth block sender wallet tx b b' :
  token_step n s block sender wallet tx b = Ok b' ->
  exists a, check_token_format tx (milestone n block.(b_height)) = Ok a /\
    forall c, sth c b' = sth c b + at_ (order_seller b a) c (token_buy_total tx b) - at_ sender c (token_buy_total tx b).
Proof.
  unfold token_step. intros H. case_match; [done|]. apply rbind_ok_inv in H as (a & Hf & H). apply rbind_ok_inv in H as (u & _ & H).
  apply rbind_ok_inv in H as (b2 & Hm2 & H). apply Ok_inj in H as <-. exists a.
  split; [by destruct (check_token_format _ _); cbn in Hf; [apply Ok_inj in Hf as ->|]|]. intros c. rewrite sth_apply.
  change (@token_buy_total _ _ (batch_view n s) tx b) with (token_buy_total tx b) in Hm2. fold (order_seller b a) in Hm2.
  destruct (Z.eqb_spec (tx_type_ tx) token.BUY) as [_|Hne].
  - destruct (_ <? _) eqn:Hlt; [done|]. apply Ok_inj in Hm2 as <-. set (total := token_buy_total tx b).
    change (on_ba_sth (fun m => add_in ?q ?x (add_in ?r ?y m)) b) with (on_ba_sth (add_in q x) (on_ba_sth (add_in r y) b)).
    rewrite !sth_add, at_opp. lia.
  - apply Ok_inj in Hm2 as <-. rewrite buy_total_none by done. rewrite !at_zero. lia.
Qed.

(** ** A transaction *)

Lemma spent_total b tx :
  spent n s b tx = tx.(tx_amount) + tx.(tx_fee) + zsum (p_amount <$> payments_of tx) + token_buy_total tx b.
Proof. done. Qed.

(** What the checks book: the sender's spending, the credits, and the price of a purchase. *)
Lemma sth_rules block b ds tx b' :
  rules_step n s block b tx = Ok b' -> is_claim tx = false -> is_purchase tx = false -> strict block ->
  view_sim s b ds -> prices_ok ds -> amounts_ok tx ->
  exists sender seller, address_from_public_key tx.(tx_sender_public_key) n.(n_pubkey_hash) = Ok sender /\
    spent n s b tx <= stored sender + sth sender b /\
    (forall c, sth c b' = sth c b + credits tx c - at_ sender c (spent n s b tx + token_buy_total tx b)
                          + at_ seller c (token_buy_total tx b)) /\
    (forall c, at_ seller c (token_buy_total tx b) - at_ sender c (token_buy_total tx b) =
       match token_sale ds tx with Some (p, seller) => at_ seller c p - at_ sender c p | None => 0 end).
Proof.
  intros H Hc Hpu [Hh Hst] Hsim Hpr Ha. unfold rules_step in H. apply rbind_ok_inv in H as (sender & Hs & H).
  apply rbind_ok_inv in H as (b0 & Hm0 & H). apply rbind_ok_inv in H as (b1 & Hm1 & H).
  pose proof (move_sth_orders _ _ _ _ _ _ _ _ Hm0) as O0. apply check_keys_same in Hm1 as (O1 & S1 & _).
  destruct (sth_move sender _ _ _ _ _ _ Hm0 Hc) as [_ Hav]. specialize (Hav Hh Hst).
  assert (Hmv : forall c, sth c b1 = sth c b + credits tx c - at_ sender c (spent n s b tx)).
  { intros c. destruct (sth_move c _ _ _ _ _ _ Hm0 Hc) as [<- _]. unfold sth. by rewrite S1. }
  pose proof (buy_total_nonneg b ds tx Hsim Hpr Ha) as HT. pose proof (payments_nonneg tx Ha) as Hpn.
  assert (Havail : spent n s b tx <= stored sender + sth sender b).
  { apply available_le. split; [|done]. rewrite spent_total. destruct Ha. lia. }
  destruct (is_token tx) eqn:Ht.
  - destruct (token_step_sth _ _ _ _ _ _ H) as (a & Hf & Hsth).
    pose proof (check_token_format_asset _ _ _ Hf) as Hta. pose proof (check_token_format_order _ _ _ Hf) as Hoid.
    assert (Hsel : order_seller b1 a = order_seller b a) by (unfold order_seller; by rewrite (view_order_same s b b1) by congruence).
    assert (Htb : token_buy_total tx b1 = token_buy_total tx b) by (apply token_buy_same; congruence).
    exists sender, (order_seller b a). split_and!; [done|done| |].
    + intros c. rewrite Hsth, Hmv, Hsel, Htb, at_add. lia.
    + intros c. symmetry. apply sale_agrees; [done|done|]. intros He. apply Hoid. by left.
  - assert (Hna : token_asset tx = None) by (unfold token_asset; by rewrite Ht).
    assert (Hz : token_buy_total tx b = 0) by (unfold token_buy_total; rewrite Hna; by destruct (_ || _)).
    exists sender, EmptyString. rewrite Hz. split_and!; [done|done| |].
    + intros c. rewrite at_zero, !Z.add_0_r. destruct (is_sobj tx).
      * rewrite (sth_sobj c _ _ _ _ _ _ H Hpu), Hmv. lia.
      * apply Ok_inj in H as <-. rewrite Hmv. lia.
    + intros c. rewrite !at_zero. unfold token_sale. rewrite Hna. by destruct (_ || _).
Qed.

(** What the deltas book. *)
Lemma lead_tx block batch ds ds' i tx :
  tx_deltas n s block batch ds (i, tx) = Ok ds' -> is_claim tx = false -> is_purchase tx = false -> holders_ok ds ->
  exists sender, address_from_public_key tx.(tx_sender_public_key) n.(n_pubkey_hash) = Ok sender /\
    forall c, lead c ds' = lead c ds + credits tx c - at_ sender c (tx.(tx_amount) + tx.(tx_fee) + paid tx)
       + match token_sale ds tx with Some (p, seller) => at_ seller c p - at_ sender c p | None => 0 end.
Proof.
  intros H Hc Hpu Hh. unfold tx_deltas in H. apply rbind_ok_inv in H as (sender & Hs & H). exists sender. split; [done|]. intros c.
  destruct (sender_orders s ds sender tx Hh) as [E1 _]. pose proof (lead_sender c ds sender tx) as Hl.
  assert (Hts : token_sale (sender_deltas ds sender tx) tx = token_sale ds tx) by (unfold token_sale; by rewrite E1).
  set (ds1 := sender_deltas ds sender tx) in *. rewrite !at_add in *. rewrite at_opp, at_add in Hl.
  assert (Hno : token_asset tx = None -> match token_sale ds tx with Some (p, seller) => at_ seller c p - at_ sender c p | None => 0 end = 0).
  { intros Hn. unfold token_sale. rewrite Hn. by destruct (_ || _). }
  destruct (Z.eqb_spec (tx_type_group tx) TYPE_GROUP_CORE) as [Hg|Hg].
  - assert (Hso : sobj_asset tx = None) by (unfold sobj_asset, is_sobj; by rewrite Hg).
    assert (Hto : token_asset tx = None) by (unfold token_asset, is_token; by rewrite Hg).
    rewrite Hso, Hto in H. cbn [negb] in H. rewrite (Hno Hto), (lead_core _ _ _ _ _ _ _ H Hc Hg). lia.
  - apply Z.eqb_neq in Hg as Hg'. assert (Hcr : credits tx c = 0) by (unfold credits; by rewrite Hg').
    assert (Hpd : paid tx = 0) by (unfold paid; by rewrite Hg'). rewrite Hcr, Hpd, at_zero.
    destruct (sobj_asset tx) as [e|] eqn:He.
    + apply Ok_inj in H as <-. unfold is_purchase in Hpu. rewrite He in Hpu. rewrite lead_sobj by done.
      rewrite Hno; [lia|]. destruct (token_asset tx) as [a|] eqn:Ha; [|done]. apply token_asset_is_token in Ha.
      unfold sobj_asset in He. by rewrite token_not_sobj in He.
    + destruct (token_asset tx) as [a|] eqn:Ha; [rewrite (lead_token c _ _ _ _ _ _ _ H Ha), Hts; lia|].
      try rewrite Hg' in H. cbn [negb] in H. apply Ok_inj in H as <-. rewrite Hno by done. lia.
Qed.

(** A transaction the store can pay from the sender's coins. *)
Definition plain tx : bool := negb (is_claim tx) && negb (is_purchase tx).

Lemma tx_covered block batch b b' ds ds' g G i tx rest :
  in_step s b ds (tx :: rest) -> prices_ok ds -> covered b ds g G -> 0 <= G -> amounts_ok tx -> strict block -> plain tx = true ->
  rules_step n s block b tx = Ok b' -> tx_deltas n s block batch ds (i, tx) = Ok ds' -> covered b' ds' g G.
Proof.
  intros Hin Hpr Hcv HG Ha Hst Hpl H Hd. apply andb_true_iff in Hpl as [Hc Hpu]. apply negb_true_iff in Hc, Hpu.
  destruct (sth_rules _ _ ds _ _ H Hc Hpu Hst) as (sender & seller & Hs & Hav & Hsth & Hsale); [apply Hin|done|done|].
  destruct (lead_tx _ _ _ _ _ _ Hd Hc Hpu) as (sender' & Hs' & Hlead); [apply Hin|].
  assert (sender' = sender) as -> by congruence.
  assert (HT : 0 <= token_buy_total tx b) by (eapply buy_total_nonneg; [apply Hin|done|done]).
  pose proof (paid_le tx Ha) as Hp. pose proof (spent_total b tx) as Hsp.
  apply (covered_step b b' ds ds' g G sender (tx_amount tx + tx_fee tx + paid tx + token_buy_total tx b)
           (spent n s b tx + token_buy_total tx b) (fun c => credits tx c + at_ seller c (token_buy_total tx b))); [done| | | | | |].
  - intros c. by apply at_nonneg.
  - destruct Ha. lia.
  - intros c. pose proof (credits_nonneg tx c Ha). pose proof (at_nonneg seller c _ HT). lia.
  - destruct Ha. lia.
  - intros c. rewrite Hsth. lia.
  - intros c. rewrite Hlead, <-Hsale. rewrite (at_add _ _ _ (token_buy_total tx b)). lia.
Qed.

Lemma prices_step block batch b ds ds' i tx rest :
  in_step s b ds (tx :: rest) -> prices_ok ds -> amounts_ok tx -> tx_deltas n s block batch ds (i, tx) = Ok ds' -> prices_ok ds'.
Proof.
  intros [_ Hh _ _ Hfr] Hp Ha Hd. destruct (tx_orders n s _ _ _ _ _ _ Hd Hh) as [sender Eo].
  { intros Hs. apply Hfr. rewrite sell_ids_cons, Hs. left. }
  unfold prices_ok. rewrite Eo. destruct (token_asset tx) as [a|] eqn:Hta; [|done].
  destruct (sender_orders s ds sender tx Hh) as [E1 _]. unfold orders_after. rewrite E1.
  pose proof (ao_token _ Ha _ Hta) as [_ Hpr].
  assert (Halt : forall f k, (forall o, od_price (f o) = od_price o) ->
            map_Forall (fun _ o => 0 <= o.(od_price)) (alter (f : TokenOrder -> TokenOrder) k (TokenFlow.orders s ds))).
  { intros f k Hf j o Hj. apply lookup_alter_Some in Hj as [(-> & o' & Ho & ->)|[_ Ho]]; [rewrite Hf|]; by eapply Hp. }
  destruct (_ =? token.SELL); [by apply map_Forall_insert_2|].
  destruct (_ =? token.BUY); [by apply Halt|]. by destruct (_ =? token.CANCEL); [apply Halt|].
Qed.

(** ** A batch *)

Definition income block : Z := block.(b_reward) + block.(b_total_fee) - Deltas.burned n block.

Lemma burned_nonneg block : 0 <= Deltas.burned n block.
Proof. unfold Deltas.burned. destruct (_ && _); [apply as_u64_range|done]. Qed.

Lemma sth_reward c g block b :
  address_from_public_key block.(b_generator_public_key) n.(n_pubkey_hash) = Ok g ->
  sth c (reward_generator n block b) = sth c b + at_ g c (income block).
Proof.
  intros Hg. unfold reward_generator, income, Deltas.burned. rewrite Hg. cbn [res_ok]. rewrite sth_add. do 2 f_equal.
  set (k := Z.of_nat _). destruct (bool_decide _); [by rewrite andb_false_r|]. cbn [negb]. rewrite andb_true_r.
  destruct (Z.ltb_spec 0 k); [done|]. by replace k with 0 by lia.
Qed.

Lemma lead_generator c ds g block :
  lead c (generator_deltas n ds g block) =
  lead c ds + at_ g c (income block) + at_ n.(n_burn_address) c (Deltas.burned n block).
Proof.
  unfold generator_deltas. rewrite (lead_move _ _ _ (income block)) by done. pose proof (burned_nonneg block).
  destruct (Z.ltb_spec 0 (Deltas.burned n block)); [rewrite lead_credit; lia|].
  replace (Deltas.burned n block) with 0 by lia. rewrite at_zero. lia.
Qed.

Lemma covered_open b ds g block : covered b ds EmptyString 0 -> 0 <= income block ->
  covered b (generator_deltas n ds g block) g (income block).
Proof.
  intros [H1 H2] HG. pose proof (burned_nonneg block) as Hb. split; intros c; rewrite lead_generator;
    pose proof (at_nonneg (n_burn_address n) c _ Hb); pose proof (at_nonneg g c _ HG); specialize (H1 c); specialize (H2 c);
    rewrite ?at_zero in *; lia.
Qed.

Lemma covered_close b ds g block :
  address_from_public_key block.(b_generator_public_key) n.(n_pubkey_hash) = Ok g ->
  covered b ds g (income block) -> covered (reward_generator n block b) ds EmptyString 0.
Proof. intros Hg [H1 H2]. split; [|done]. intros c. rewrite (sth_reward c g), at_zero by done. specialize (H1 c). lia. Qed.

(** Transactions the accounting covers. *)
Definition covered_tx tx : Prop := typed_tx tx /\ amounts_ok tx /\ plain tx = true.

Lemma txs_covered block batch g G l : 0 <= G -> strict block -> forall i b b' ds ds' rest,
  in_step s b ds (l ++ rest) -> prices_ok ds -> covered b ds g G -> Forall covered_tx l ->
  rfold (rules_step n s block) l b = Ok b' ->
  rfold (tx_deltas n s block batch) (imap (fun j tx => (i + j, tx)%nat) l) ds = Ok ds' ->
  in_step s b' ds' rest /\ prices_ok ds' /\ covered b' ds' g G.
Proof.
  intros HG Hst. induction l as [|tx l IH]; intros i b b' ds ds' rest Hi Hpr Hcv Hty Hb Hd; cbn in Hb, Hd.
  { apply Ok_inj in Hb as <-. by apply Ok_inj in Hd as <-. }
  apply Forall_cons in Hty as [(Ht & Ha & Hpl) Hty]. apply rbind_ok_inv in Hb as (b1 & Hb1 & Hb).
  apply rbind_ok_inv in Hd as (ds1 & Hd1 & Hd). cbn [app] in Hi.
  assert (Hd' : rfold (tx_deltas n s block batch) (imap (fun j tx => (S i + j, tx)%nat) l) ds1 = Ok ds').
  { rewrite <-Hd. f_equal. apply imap_ext. intros j x _. cbn. f_equal. lia. }
  pose proof (prices_step _ _ _ _ _ _ _ _ Hi Hpr Ha Hd1) as Hpr1.
  pose proof (tx_covered _ _ _ _ _ _ _ _ _ _ _ Hi Hpr Hcv HG Ha Hst Hpl Hb1 Hd1) as Hcv1.
  destruct (step_in_step n s _ _ _ _ _ _ _ _ _ Hi Ht Hb1 Hd1) as [Hi1 _]. by eapply IH.
Qed.

Definition covered_block block : Prop :=
  strict block /\ Deltas.burned n block <= block.(b_reward) + block.(b_total_fee) /\ Forall covered_tx block.(b_transactions).

Lemma blocks_covered batch blocks : forall b b' ds ds' rest,
  in_step s b ds (all_txs blocks ++ rest) -> prices_ok ds -> covered b ds EmptyString 0 -> Forall covered_block blocks ->
  rfold (block_rules n s) blocks b = Ok b' ->
  rfold (fun ds block => accumulate_deltas n s block batch ds) blocks ds = Ok ds' -> covered b' ds' EmptyString 0.
Proof.
  induction blocks as [|block blocks IH]; intros b b' ds ds' rest Hi Hpr Hcv Hall Hb Hd; cbn in Hb, Hd.
  { apply Ok_inj in Hb as <-. by apply Ok_inj in Hd as <-. }
  apply Forall_cons in Hall as [(Hst & Hinc & Htx) Hall].
  apply rbind_ok_inv in Hb as (b2 & Hb2 & Hb). apply rbind_ok_inv in Hd as (ds2 & Hd2 & Hd).
  unfold all_txs in Hi. cbn [fmap list_fmap concat] in Hi. fold (all_txs blocks) in Hi. rewrite <-app_assoc in Hi.
  unfold block_rules in Hb2. apply rbind_ok_inv in Hb2 as (u & _ & Hb2). apply rbind_ok_inv in Hb2 as (b1 & Hb1 & Hb2).
  apply Ok_inj in Hb2 as <-. unfold accumulate_deltas in Hd2. apply rbind_ok_inv in Hd2 as (g & Hg & Hd2).
  assert (HG : 0 <= income block) by (unfold income; lia).
  pose proof (in_step_generator n s b ds g block _ Hi) as [He Hi1].
  destruct (txs_covered block batch g (income block) (b_transactions block) HG Hst 0%nat b b1 _ ds2 _ Hi1) as (Hi2 & Hpr2 & Hcv2);
    [unfold prices_ok; by rewrite He|by apply covered_open|done|done|exact Hd2|].
  apply (IH (reward_generator n block b1) b' ds2 ds' rest); [by apply in_step_reward|done|by eapply covered_close|done|done|done].
Qed.

(** C3: no overdraft.  When the checks of [apply_blocks] accept a batch of [strictBalance] blocks,
    the deltas the store computes for it leave no address below zero: what each address has, plus
    everything the batch gives and takes, is at least 0, over any number of transactions of the same
    sender, credits received inside the batch and purchases of token orders.  The batch holds no HTLC claim or refund and no
    SmartObject purchase ([plain]), the ids of its sell orders are new and distinct, and no block burns more than its reward
    and fees; a refund that carries a claim as well is accepted and overdraws its sender
    ([SyncDemo.refund_of_two_locks]). *)
Theorem no_overdraft blocks ds'
    (H : check_stateful_rules n s blocks = Ok tt)
    (Hd : batch_deltas n s blocks = Ok ds')
    (Hall : Forall covered_block blocks)
    (Ho : map_Forall (fun _ o => order_ok o /\ 0 <= o.(od_price)) s.(st_orders))
    (Hnd : NoDup (sell_ids (all_txs blocks)))
    (Hfr : forall id, id ∈ sell_ids (all_txs blocks) -> s.(st_orders) !! id = None)
    (Hs : forall a, 0 <= stored a) :
  forall a, 0 <= stored a + lead a ds'.
Proof.
  unfold check_stateful_rules, batch_rules in H. destruct (rfold _ _ _) as [b'|] eqn:Hb; [|done]. clear H. unfold batch_deltas in Hd.
  assert (Ho' : map_Forall (fun _ => order_ok) s.(st_orders)) by (intros k o Hk; by apply (Ho k o)).
  apply (cv_stored b' ds' EmptyString 0). eapply (blocks_covered blocks blocks batch_empty b' ∅ ds' []); [| | |done|done|done].
  - by apply in_step_start.
  - intros k o Hk. by apply (Ho k o).
  - assert (Hl : forall c, lead c ∅ = 0) by (intros c; unfold lead; by rewrite lookup_empty).
    split; intros c; rewrite Hl; [by rewrite at_zero|]. specialize (Hs c). lia.
Qed.
End balance.
