(* ===== verification/AntiSpam.v ===== *)
(** * Flood policy of the pool

    [src/src/antispam.rs]: the deny list, the budget of a peer per minute, the ban for invalid
    transactions, the caps of a sender, and the counters.  Instants are nanoseconds of a monotonic
    clock; the alert that a wave of drops raises is the flag in [sp_wave], its delivery is not
    modelled. *)

From S2P Require Import Prelude Floats Models Env.

Record AntiSpamConfig : Type := mkAntiSpamConfig {
  ac_enabled : bool;
  ac_max_per_sender : Z;
  ac_max_bytes_per_sender : Z;
  ac_peer_tx_per_min : Z;
  ac_peer_invalid_per_min : Z;
  ac_ban_secs : Z;
  ac_replace_by_fee : bool;
  ac_deny_peers : list string;
  ac_alert_drops_per_min : Z
}.

Definition antispam_default : AntiSpamConfig := mkAntiSpamConfig true 64 65536 600 20 3600 true [] 500.

Inductive TxOrigin : Type := Local | LegacyPeer (p : string) | IrohPeer (p : string).

Definition origin_peer (o : TxOrigin) : option string :=
  match o with Local => None | LegacyPeer p | IrohPeer p => Some p end.

Definition SECOND : Z := 1000000000.

Record PeerWindow : Type := mkWindow {
  pw_started : Z;
  pw_accepted : Z;
  pw_invalid : Z;
  pw_banned_until : option Z;
  pw_dropped : Z;
  pw_bans : Z
}.

Definition window_new (now : Z) : PeerWindow := mkWindow now 0 0 None 0 0.

(** [Instant::duration_since] saturates at zero. *)
Definition since (now t : Z) : Z := Z.max (now - t) 0.

Definition roll (now : Z) (w : PeerWindow) : PeerWindow :=
  if 60 * SECOND <=? since now w.(pw_started)
  then mkWindow now 0 0 w.(pw_banned_until) w.(pw_dropped) w.(pw_bans) else w.

Record AntiSpamCounters : Type := mkCounters {
  ct_dropped : Z; ct_rate_limited : Z; ct_sender_limited : Z; ct_denied : Z; ct_banned_dropped : Z; ct_evicted : Z; ct_bans : Z
}.

(** [AntiSpam]: the peers, the counters, and the wave (start, drops, alert fired). *)
Record AntiSpam : Type := mkAntiSpam {
  sp_peers : gmap string PeerWindow;
  sp_counters : AntiSpamCounters;
  sp_wave : Z * Z * bool
}.

Definition antispam_new (now : Z) : AntiSpam := mkAntiSpam ∅ (mkCounters 0 0 0 0 0 0 0) (now, 0, false).

Inductive Gate : Type := Allow (n : Z) | Denied | Banned.

Definition on_sp_peers f (s : AntiSpam) : AntiSpam := mkAntiSpam (f s.(sp_peers)) s.(sp_counters) s.(sp_wave).
Definition on_sp_counters f (s : AntiSpam) : AntiSpam := mkAntiSpam s.(sp_peers) (f s.(sp_counters)) s.(sp_wave).

Definition add_dropped n (c : AntiSpamCounters) : AntiSpamCounters :=
  mkCounters (as_u64 (c.(ct_dropped) + n)) c.(ct_rate_limited) c.(ct_sender_limited) c.(ct_denied) c.(ct_banned_dropped) c.(ct_evicted) c.(ct_bans).
Definition add_rate_limited n (c : AntiSpamCounters) : AntiSpamCounters :=
  mkCounters c.(ct_dropped) (as_u64 (c.(ct_rate_limited) + n)) c.(ct_sender_limited) c.(ct_denied) c.(ct_banned_dropped) c.(ct_evicted) c.(ct_bans).
Definition add_sender_limited n (c : AntiSpamCounters) : AntiSpamCounters :=
  mkCounters c.(ct_dropped) c.(ct_rate_limited) (as_u64 (c.(ct_sender_limited) + n)) c.(ct_denied) c.(ct_banned_dropped) c.(ct_evicted) c.(ct_bans).
Definition add_denied n (c : AntiSpamCounters) : AntiSpamCounters :=
  mkCounters c.(ct_dropped) c.(ct_rate_limited) c.(ct_sender_limited) (as_u64 (c.(ct_denied) + n)) c.(ct_banned_dropped) c.(ct_evicted) c.(ct_bans).
Definition add_banned_dropped n (c : AntiSpamCounters) : AntiSpamCounters :=
  mkCounters c.(ct_dropped) c.(ct_rate_limited) c.(ct_sender_limited) c.(ct_denied) (as_u64 (c.(ct_banned_dropped) + n)) c.(ct_evicted) c.(ct_bans).
Definition add_evicted n (c : AntiSpamCounters) : AntiSpamCounters :=
  mkCounters c.(ct_dropped) c.(ct_rate_limited) c.(ct_sender_limited) c.(ct_denied) c.(ct_banned_dropped) (as_u64 (c.(ct_evicted) + n)) c.(ct_bans).
Definition add_bans n (c : AntiSpamCounters) : AntiSpamCounters :=
  mkCounters c.(ct_dropped) c.(ct_rate_limited) c.(ct_sender_limited) c.(ct_denied) c.(ct_banned_dropped) c.(ct_evicted) (as_u64 (c.(ct_bans) + n)).

Section antispam.
Variable cfg : AntiSpamConfig.
Implicit Types (s : AntiSpam) (w : PeerWindow).

Definition drop_n (now n : Z) s : AntiSpam :=
  let s := on_sp_counters (add_dropped n) s in
  if cfg.(ac_alert_drops_per_min) =? 0 then s else
  let '(t, k, fired) := if 60 * SECOND <=? since now s.(sp_wave).1.1 then (now, 0, false) else s.(sp_wave) in
  let k := as_u64 (k + n) in
  mkAntiSpam s.(sp_peers) s.(sp_counters) (t, k, fired || (cfg.(ac_alert_drops_per_min) <? k)).

(** [peers.entry(peer).or_insert_with(..)]. *)
Definition window_of s (peer : string) (now : Z) : PeerWindow := default (window_new now) (s.(sp_peers) !! peer).

Definition is_banned_at (now : Z) w : bool :=
  match w.(pw_banned_until) with Some t => now <? t | None => false end.

Definition w_drop (n : Z) w : PeerWindow :=
  mkWindow w.(pw_started) w.(pw_accepted) w.(pw_invalid) w.(pw_banned_until) (as_u64 (w.(pw_dropped) + n)) w.(pw_bans).
Definition w_accept (n : Z) w : PeerWindow :=
  mkWindow w.(pw_started) (as_u32 (w.(pw_accepted) + n)) w.(pw_invalid) w.(pw_banned_until) w.(pw_dropped) w.(pw_bans).
Definition w_unban w : PeerWindow :=
  mkWindow w.(pw_started) w.(pw_accepted) w.(pw_invalid) None w.(pw_dropped) w.(pw_bans).
Definition w_invalid (n : Z) w : PeerWindow :=
  mkWindow w.(pw_started) w.(pw_accepted) (as_u32 (w.(pw_invalid) + n)) w.(pw_banned_until) w.(pw_dropped) w.(pw_bans).
Definition w_ban (until : Z) w : PeerWindow :=
  mkWindow w.(pw_started) w.(pw_accepted) w.(pw_invalid) (Some until) w.(pw_dropped) (as_u32 (w.(pw_bans) + 1)).

Definition gate (now : Z) (origin : TxOrigin) (n : Z) s : AntiSpam * Gate :=
  match origin_peer origin with
  | None => (s, Allow n)
  | Some peer =>
      if negb cfg.(ac_enabled) then (s, Allow n) else
      if existsb (String.eqb peer) cfg.(ac_deny_peers)
      then (drop_n now n (on_sp_counters (add_denied n) s), Denied) else
      let w := window_of s peer now in
      if is_banned_at now w
      then (drop_n now n (on_sp_counters (add_banned_dropped n) (on_sp_peers (insert peer (w_drop n w)) s)), Banned) else
      let w := roll now (w_unban w) in
      let allowed := Z.min n (sat_sub cfg.(ac_peer_tx_per_min) w.(pw_accepted)) in
      let over := n - allowed in
      let w := w_accept allowed w in
      if 0 <? over
      then (drop_n now over (on_sp_counters (add_rate_limited over) (on_sp_peers (insert peer (w_drop over w)) s)), Allow allowed)
      else (on_sp_peers (insert peer w) s, Allow allowed)
  end.

Definition counts_as_invalid (code : string) : bool :=
  existsb (String.eqb code) ["ERR_BAD_DATA"; "ERR_WRONG_NETWORK"; "ERR_UNKNOWN"]%string.

Definition note_invalid (now : Z) (origin : TxOrigin) (invalid : Z) s : AntiSpam * bool :=
  if invalid =? 0 then (s, false) else
  match origin_peer origin with
  | None => (s, false)
  | Some peer =>
      if negb cfg.(ac_enabled) then (s, false) else
      let w := w_invalid invalid (roll now (window_of s peer now)) in
      if (cfg.(ac_peer_invalid_per_min) <=? w.(pw_invalid)) && negb (is_banned_at now w)
      then (on_sp_counters (add_bans 1) (on_sp_peers (insert peer (w_ban (now + cfg.(ac_ban_secs) * SECOND) w)) s), true)
      else (on_sp_peers (insert peer w) s, false)
  end.

Definition is_banned (now : Z) (peer : string) s : bool :=
  match s.(sp_peers) !! peer with Some w => is_banned_at now w | None => false end.

Definition check_sender (now : Z) (sender : string) (pending pending_bytes size : Z) s : AntiSpam * result unit (string * string) :=
  if negb cfg.(ac_enabled) then (s, Ok tt) else
  if cfg.(ac_max_per_sender) <=? pending
  then (drop_n now 1 (on_sp_counters (add_sender_limited 1) s),
        Err ("ERR_SPAM_SENDER", "Sender " +:+ sender +:+ " already has " +:+ fmt_u pending
             +:+ " pending transactions in this pool (max " +:+ fmt_u cfg.(ac_max_per_sender) +:+ ")")%string)
  else if cfg.(ac_max_bytes_per_sender) <? pending_bytes + size
  then (drop_n now 1 (on_sp_counters (add_sender_limited 1) s),
        Err ("ERR_SPAM_SENDER", "Sender " +:+ sender +:+ " already holds " +:+ fmt_u pending_bytes
             +:+ " pending bytes in this pool (max " +:+ fmt_u cfg.(ac_max_bytes_per_sender) +:+ ")")%string)
  else (s, Ok tt).

Definition replace_by_fee : bool := cfg.(ac_enabled) && cfg.(ac_replace_by_fee).

Definition note_evicted (s : AntiSpam) : AntiSpam := on_sp_counters (add_evicted 1) s.

Definition keep_window (now : Z) w : bool := is_banned_at now w || (since now w.(pw_started) <? 600 * SECOND).

Definition gc (now : Z) s : AntiSpam := on_sp_peers (filter (fun p => keep_window now p.2 = true)) s.

Definition counters s : AntiSpamCounters := s.(sp_counters).

Record BannedPeer : Type := mkBanned { bn_peer : string; bn_seconds_left : Z; bn_invalid : Z; bn_dropped : Z; bn_bans : Z }.
Definition longer_ban (x y : BannedPeer) : Prop := y.(bn_seconds_left) <= x.(bn_seconds_left).
#[export] Instance longer_ban_dec x y : Decision (longer_ban x y) := Z.le_dec _ _.

Definition banned (now : Z) s : list BannedPeer :=
  sort_by longer_ban
    (omap (fun p => match p.2.(pw_banned_until) with
                    | Some t => if now <? t
                                then Some (mkBanned p.1 (since t now / SECOND) p.2.(pw_invalid) p.2.(pw_dropped) p.2.(pw_bans))
                                else None
                    | None => None
                    end) (bt_entries s.(sp_peers))).

(** ** Runs

    What the node does with the policy over time: batches, rejections booked, housekeeping. *)

Inductive Event : Type :=
| EvBatch (origin : TxOrigin) (n : Z)
| EvInvalid (origin : TxOrigin) (n : Z)
| EvSender (sender : string) (pending pending_bytes size : Z)
| EvEvicted
| EvGc.

(** State after an event, and how many transactions of [peer] the gate admitted. *)
Definition event_step (peer : string) (now : Z) (e : Event) s : AntiSpam * Z :=
  match e with
  | EvBatch o n =>
      match gate now o n s with
      | (s, Allow k) => (s, if bool_decide (origin_peer o = Some peer) then k else 0)
      | (s, _) => (s, 0)
      end
  | EvInvalid o n => ((note_invalid now o n s).1, 0)
  | EvSender a p b z => ((check_sender now a p b z s).1, 0)
  | EvEvicted => (note_evicted s, 0)
  | EvGc => (gc now s, 0)
  end.

Fixpoint run (peer : string) (evs : list (Z * Event)) s : AntiSpam * Z :=
  match evs with
  | [] => (s, 0)
  | (now, e) :: evs =>
      let '(s, k) := event_step peer now e s in
      let '(s, j) := run peer evs s in (s, k + j)
  end.

(** ** The budget of a peer *)

Definition window_ok w : Prop := 0 <= w.(pw_accepted) <= cfg.(ac_peer_tx_per_min).
Definition windows_ok s : Prop := map_Forall (fun _ => window_ok) s.(sp_peers).

(** What a peer can still be given in the minute that starts at [a]. *)
Definition room (a : Z) w : Z :=
  cfg.(ac_peer_tx_per_min) - w.(pw_accepted) + (if a <=? w.(pw_started) then 0 else cfg.(ac_peer_tx_per_min)).
Definition peer_room (a : Z) (peer : string) s : Z :=
  match s.(sp_peers) !! peer with Some w => room a w | None => cfg.(ac_peer_tx_per_min) end.

Lemma drop_n_peers now n s : (drop_n now n s).(sp_peers) = s.(sp_peers).
Proof. unfold drop_n. repeat case_match; done. Qed.

Hypothesis Hper : in_u32 cfg.(ac_peer_tx_per_min).

Lemma window_of_ok s peer now : windows_ok s -> window_ok (window_of s peer now).
Proof.
  intros H. unfold window_of. destruct (sp_peers s !! peer) as [w|] eqn:Hw; cbn; [by apply (H peer)|].
  unfold window_ok. cbn. destruct Hper. lia.
Qed.

Lemma roll_ok now w : window_ok w -> window_ok (roll now w).
Proof. unfold roll, window_ok. destruct (_ <=? _); cbn; destruct Hper; lia. Qed.

(** Rolling at a time of the minute gives no more room. *)
Lemma roll_room a now w : window_ok w -> a <= now < a + 60 * SECOND -> room a (roll now w) <= room a w.
Proof.
  intros Hw Hn. unfold roll, room, since, window_ok in *. destruct (Z.leb_spec (60 * SECOND) (Z.max (now - pw_started w) 0)); cbn; [|lia].
  destruct (Z.leb_spec a now); [|lia]. unfold SECOND in *. destruct (Z.leb_spec a (pw_started w)); lia.
Qed.

Lemma window_room a now s peer : a <= now -> room a (window_of s peer now) = peer_room a peer s.
Proof.
  intros Hn. unfold window_of, peer_room. destruct (sp_peers s !! peer) as [w|]; cbn; [done|].
  unfold room. cbn. destruct (Z.leb_spec a now); lia.
Qed.

Lemma insert_room a peer q w s x : (q = peer -> room a w <= x) -> (q <> peer -> peer_room a peer s <= x) ->
  forall s', s'.(sp_peers) = <[q := w]> s.(sp_peers) -> peer_room a peer s' <= x.
Proof.
  intros H1 H2 s' E. unfold peer_room at 1. rewrite E. destruct (decide (q = peer)) as [->|Hne].
  - rewrite lookup_insert_eq. auto.
  - rewrite lookup_insert_ne by done. by apply H2.
Qed.

Lemma accept_room a k w : window_ok w -> 0 <= k <= cfg.(ac_peer_tx_per_min) - w.(pw_accepted) ->
  window_ok (w_accept k w) /\ room a (w_accept k w) = room a w - k.
Proof.
  intros Hw Hk. unfold window_ok, room, w_accept in *. cbn. destruct Hper.
  assert (Hid : as_u32 (pw_accepted w + k) = pw_accepted w + k) by (apply Z.mod_small; unfold u32_max in *; lia).
  rewrite Hid. split; [lia|]. destruct (a <=? pw_started w); lia.
Qed.

(** Every operation keeps the windows within the budget, and pays for what it admits. *)
Lemma gate_room a peer now o n s : windows_ok s -> 0 <= n -> a <= now < a + 60 * SECOND -> cfg.(ac_enabled) = true ->
  let '(s', k) := event_step peer now (EvBatch o n) s in
  windows_ok s' /\ k + peer_room a peer s' <= peer_room a peer s.
Proof.
  intros Hs Hn Ht He. cbn [event_step]. unfold gate. destruct (origin_peer o) as [q|]; [|by rewrite bool_decide_false].
  rewrite He. cbn [negb]. destruct (existsb _ _).
  { unfold windows_ok, peer_room. rewrite drop_n_peers. by split; [|cbn; lia]. }
  set (w := window_of s q now). pose proof (window_of_ok s q now Hs) as Hw. fold w in Hw.
  destruct (is_banned_at now w).
  { split; [unfold windows_ok; rewrite drop_n_peers; by apply map_Forall_insert_2|]. rewrite Z.add_0_l.
    eapply (insert_room a peer q (w_drop n w) s); [|done|by rewrite drop_n_peers].
    intros <-. rewrite <-(window_room a now) by lia. done. }
  set (w1 := roll now (w_unban w)). assert (Hw1 : window_ok w1) by by apply roll_ok.
  assert (Hr1 : room a w1 <= room a w) by (by apply (roll_room a now (w_unban w))).
  set (k := Z.min n (sat_sub (ac_peer_tx_per_min cfg) (pw_accepted w1))).
  assert (Hk : 0 <= k <= ac_peer_tx_per_min cfg - pw_accepted w1) by (unfold k, sat_sub, window_ok in *; lia).
  destruct (accept_room a k w1 Hw1 Hk) as [Ha Hra].
  assert (Hfin : forall v s', window_ok v -> room a v = room a w1 - k -> s'.(sp_peers) = <[q := v]> s.(sp_peers) ->
    windows_ok s' /\ (if bool_decide (Some q = Some peer) then k else 0) + peer_room a peer s' <= peer_room a peer s).
  { intros v s' Hv Hrv E. split; [unfold windows_ok; rewrite E; by apply map_Forall_insert_2|].
    destruct (bool_decide_reflect (Some q = Some peer)) as [Hq|Hq].
    - injection Hq as ->. rewrite <-(window_room a now s peer) by lia. fold w.
      enough (peer_room a peer s' <= room a w1 - k) by lia. eapply (insert_room a peer peer v s); [intros _; lia|done|exact E].
    - rewrite Z.add_0_l. eapply (insert_room a peer q v s); [congruence|done|exact E]. }
  cbv zeta. fold w1. fold k. destruct (0 <? n - k).
  - apply (Hfin (w_drop (n - k) (w_accept k w1))); [done|done|by rewrite drop_n_peers].
  - by apply (Hfin (w_accept k w1)).
Qed.

Lemma note_room a peer now o k s : windows_ok s -> a <= now < a + 60 * SECOND ->
  windows_ok (note_invalid now o k s).1 /\ peer_room a peer (note_invalid now o k s).1 <= peer_room a peer s.
Proof.
  intros Hs Ht. unfold note_invalid. destruct (_ =? _); [done|]. destruct (origin_peer o) as [q|]; [|done].
  destruct (negb _); [done|]. set (w := roll now (window_of s q now)).
  assert (Hw : window_ok w) by (by apply roll_ok, window_of_ok).
  assert (Hr : room a w <= room a (window_of s q now)) by (apply roll_room; [by apply window_of_ok|done]).
  assert (Hfin : forall v s', window_ok v -> room a v = room a w -> s'.(sp_peers) = <[q := v]> s.(sp_peers) ->
    windows_ok s' /\ peer_room a peer s' <= peer_room a peer s).
  { intros v s' Hv Hrv E. split; [unfold windows_ok; rewrite E; by apply map_Forall_insert_2|].
    eapply (insert_room a peer q v s); [|done|exact E]. intros <-. rewrite <-(window_room a now) by lia. lia. }
  destruct (_ && _); cbn [fst]; [apply (Hfin (w_ban (now + ac_ban_secs cfg * SECOND) (w_invalid k w)))|apply (Hfin (w_invalid k w))]; done.
Qed.

Lemma gc_room a peer now s : windows_ok s -> a <= now < a + 60 * SECOND ->
  windows_ok (gc now s) /\ peer_room a peer (gc now s) <= peer_room a peer s.
Proof.
  intros Hs Ht. split.
  - intros q w Hq. apply map_lookup_filter_Some in Hq as [Hq _]. by apply (Hs q).
  - unfold peer_room, gc. cbn [on_sp_peers sp_peers]. destruct (filter _ _ !! peer) as [w|] eqn:Hf.
    + apply map_lookup_filter_Some in Hf as [-> _]. done.
    + destruct (sp_peers s !! peer) as [w|] eqn:Hw; [|done]. pose proof (Hs _ _ Hw) as Hok. unfold window_ok in Hok. cbn in Hok.
      apply map_lookup_filter_None in Hf as [?|Hf]; [congruence|]. specialize (Hf w Hw). cbn in Hf. apply not_true_is_false in Hf.
      unfold keep_window, since in Hf. apply orb_false_iff in Hf as [_ Hf]. apply Z.ltb_ge in Hf. unfold room, SECOND in *.
      destruct (Z.leb_spec a (pw_started w)); lia.
Qed.

Definition batch_ok (e : Event) : Prop := match e with EvBatch _ n => 0 <= n | _ => True end.

Lemma event_room a peer now e s : windows_ok s -> batch_ok e -> a <= now < a + 60 * SECOND -> cfg.(ac_enabled) = true ->
  let '(s', k) := event_step peer now e s in windows_ok s' /\ k + peer_room a peer s' <= peer_room a peer s.
Proof.
  intros Hs Hb Ht He. destruct e as [o n|o n|q p b z| |]; [by apply gate_room|..]; cbn [event_step].
  - rewrite Z.add_0_l. by apply note_room.
  - rewrite Z.add_0_l. unfold check_sender, windows_ok, peer_room. destruct (negb _); [|destruct (_ <=? _); [|destruct (_ <? _)]]; cbn [fst]; rewrite ?drop_n_peers; done.
  - rewrite Z.add_0_l. done.
  - rewrite Z.add_0_l. by apply gc_room.
Qed.

Lemma run_room a peer evs : cfg.(ac_enabled) = true -> forall s, windows_ok s ->
  Forall (fun e => batch_ok e.2 /\ a <= e.1 < a + 60 * SECOND) evs ->
  let '(s', k) := run peer evs s in windows_ok s' /\ k + peer_room a peer s' <= peer_room a peer s.
Proof.
  intros He. induction evs as [|[now e] evs IH]; intros s Hs H; cbn [run]; [by split; [|lia]|].
  apply Forall_cons in H as [[Hb Ht] H]. pose proof (event_room a peer now e s Hs Hb Ht He) as Hstep.
  destruct (event_step peer now e s) as [s1 k]. destruct Hstep as [Hs1 Hk]. specialize (IH s1 Hs1 H).
  destruct (run peer evs s1) as [s2 j]. destruct IH as [Hs2 Hj]. split; [done|lia].
Qed.

(** The budget of a peer.  Whatever happens within a minute (batches of this and other peers,
    rejections, bans, housekeeping that forgets windows), the gate lets through at most twice
    [peer_tx_per_min] of its transactions: one window that was open before the minute and one that
    opens in it.  The windows stay within the budget. *)
Theorem peer_rate_bounded a peer evs s
    (He : cfg.(ac_enabled) = true) (Hs : windows_ok s)
    (H : Forall (fun e => batch_ok e.2 /\ a <= e.1 < a + 60 * SECOND) evs) :
  windows_ok (run peer evs s).1 /\ (run peer evs s).2 <= 2 * cfg.(ac_peer_tx_per_min).
Proof.
  pose proof (run_room a peer evs He s Hs H) as Hr. destruct (run peer evs s) as [s' k]. destruct Hr as [Hs' Hk]. split; [done|].
  assert (Hlo : forall s, windows_ok s -> 0 <= peer_room a peer s <= 2 * ac_peer_tx_per_min cfg).
  { intros s0 H0. unfold peer_room. destruct Hper as [Hp _]. destruct (sp_peers s0 !! peer) as [w|] eqn:Hw; [|lia].
    specialize (H0 _ _ Hw). unfold window_ok in H0. cbn in H0. unfold room. destruct (_ <=? _); lia. }
  pose proof (Hlo s Hs). pose proof (Hlo s' Hs'). cbn. lia.
Qed.

(** ** A ban *)

Definition banned_to (until : Z) (peer : string) s : Prop :=
  exists w, s.(sp_peers) !! peer = Some w /\ w.(pw_banned_until) = Some until.

Lemma ban_step until peer now e s : banned_to until peer s -> now < until -> cfg.(ac_enabled) = true ->
  banned_to until peer (event_step peer now e s).1 /\ (event_step peer now e s).2 = 0.
Proof.
  intros (w & Hw & Hu) Ht He. assert (Hb : is_banned_at now w = true) by (unfold is_banned_at; rewrite Hu; by apply Z.ltb_lt).
  assert (Hins : forall q v s', s'.(sp_peers) = <[q := v]> s.(sp_peers) -> (q = peer -> v.(pw_banned_until) = Some until) ->
    banned_to until peer s').
  { intros q v s' E Hv. unfold banned_to. rewrite E. destruct (decide (q = peer)) as [->|Hne];
      [rewrite lookup_insert_eq|rewrite lookup_insert_ne by done]; eauto. }
  assert (Hsame : forall s', s'.(sp_peers) = s.(sp_peers) -> banned_to until peer s') by (intros s' E; unfold banned_to; rewrite E; eauto).
  destruct e as [o n|o n|q p b z| |]; cbn [event_step].
  - unfold gate. destruct (origin_peer o) as [q|]; [|rewrite bool_decide_false by done; split; [by apply Hsame|done]].
    rewrite He. cbn [negb]. destruct (existsb _ _); [split; [cbn [fst]; apply Hsame; by rewrite drop_n_peers|done]|].
    destruct (decide (q = peer)) as [->|Hne].
    + unfold window_of. rewrite Hw. change (default (window_new now) (Some w)) with w. rewrite Hb. split; [|done]. cbn [fst].
      eapply Hins; [by rewrite drop_n_peers|]. done.
    + destruct (is_banned_at now (window_of s q now)).
      { split; [|done]. cbn [fst]. eapply Hins; [by rewrite drop_n_peers|done]. }
      cbv zeta. destruct (0 <? _); rewrite bool_decide_false by congruence; (split; [|done]); cbn [fst];
        (eapply Hins; [by rewrite ?drop_n_peers|done]).
  - split; [|done]. unfold note_invalid. destruct (_ =? _); [by apply Hsame|]. destruct (origin_peer o) as [q|]; [|by apply Hsame].
    destruct (negb _); [by apply Hsame|]. destruct (decide (q = peer)) as [->|Hne].
    + unfold window_of. rewrite Hw. change (default (window_new now) (Some w)) with w.
      assert (Hr : pw_banned_until (w_invalid n (roll now w)) = Some until) by (unfold roll; by destruct (_ <=? _)).
      assert (Hb' : is_banned_at now (w_invalid n (roll now w)) = true) by (unfold is_banned_at; rewrite Hr; by apply Z.ltb_lt).
      rewrite Hb', andb_false_r. eapply Hins; [done|]. done.
    + destruct (_ && _); by eapply Hins.
  - split; [|done]. unfold check_sender. repeat case_match; cbn [fst]; apply Hsame; by rewrite ?drop_n_peers.
  - split; [|done]. by apply Hsame.
  - split; [|done]. exists w. split; [|done]. cbn. apply map_lookup_filter_Some. split; [done|]. cbn. unfold keep_window. by rewrite Hb.
Qed.

(** A ban lasts.  Once [note_invalid] has banned a peer, nothing of it passes the gate before
    [ban_secs] have gone by, whatever else happens, housekeeping included. *)
Theorem ban_lasts now o k peer s evs
    (He : cfg.(ac_enabled) = true) (Ho : origin_peer o = Some peer) (Hb : (note_invalid now o k s).2 = true)
    (Ht : Forall (fun e => e.1 < now + cfg.(ac_ban_secs) * SECOND) evs) :
  (run peer evs (note_invalid now o k s).1).2 = 0 /\
  forall t, t < now + cfg.(ac_ban_secs) * SECOND -> is_banned t peer (run peer evs (note_invalid now o k s).1).1 = true.
Proof.
  assert (H0 : banned_to (now + ac_ban_secs cfg * SECOND) peer (note_invalid now o k s).1).
  { unfold note_invalid in *. destruct (_ =? _); [done|]. rewrite Ho in *. rewrite He in *. cbn [negb] in *.
    destruct (_ && _); [|done]. cbn. eexists. split; [apply lookup_insert_eq|done]. }
  clear Hb. generalize dependent ((note_invalid now o k s).1). intros s1 H0.
  enough (H : (run peer evs s1).2 = 0 /\ banned_to (now + ac_ban_secs cfg * SECOND) peer (run peer evs s1).1).
  { destruct H as [H1 (w & Hw & Hu)]. split; [done|]. intros t Hlt. unfold is_banned. rewrite Hw. unfold is_banned_at. rewrite Hu. by apply Z.ltb_lt. }
  revert s1 H0. induction Ht as [|[t e] evs Ht _ IH]; intros s1 H0; cbn [run]; [done|]. cbn in Ht.
  destruct (ban_step _ _ _ e _ H0 Ht He) as [H1 H2]. destruct (event_step peer t e s1) as [s2 j]. cbn in H1, H2.
  specialize (IH s2 H1). destruct (run peer evs s2) as [s3 i]. cbn in *. destruct IH. split; [lia|done].
Qed.
End antispam.

(** ** Witnesses *)

Definition demo_policy : AntiSpamConfig := mkAntiSpamConfig true 2 1000 3 2 10 true [] 5.
Definition demo_events : list (Z * Event) :=
  [(1, EvBatch (LegacyPeer "p") 5); (2, EvBatch (IrohPeer "p") 5); (3, EvInvalid (LegacyPeer "p") 1); (4, EvGc)].

Lemma peer_rate_bounded_witness :
  (run demo_policy "p" demo_events (antispam_new 0)).2 = 3 /\ (run demo_policy "p" demo_events (antispam_new 0)).2 <= 2 * 3.
Proof.
  split; [vm_compute; reflexivity|].
  refine (proj2 (peer_rate_bounded demo_policy _ 0 "p" demo_events (antispam_new 0) eq_refl _ _)).
  - split; vm_compute; discriminate.
  - apply map_Forall_empty.
  - repeat constructor; vm_compute; congruence.
Defined.

Lemma ban_lasts_witness :
  (run demo_policy "p" [(5, EvGc); (6, EvBatch (LegacyPeer "p") 5)] (note_invalid demo_policy 1 (LegacyPeer "p") 2 (antispam_new 0)).1).2 = 0.
Proof.
  refine (proj1 (ban_lasts demo_policy 1 (LegacyPeer "p") 2 "p" (antispam_new 0) _ eq_refl eq_refl _ _)).
  - vm_compute. reflexivity.
  - repeat constructor; vm_compute; congruence.
Defined.
