(* ===== verification/Mempool.v ===== *)
(** * The transaction pool

    [src/src/mempool.rs]: admission of transactions, replacement by the sender, replacement by fee on
    a full pool, the token view the rules get, housekeeping after a block.  The pool is modelled as
    one call runs; logging, relaying and the event channels are not.  A [HashMap] is walked in an
    order of its own: the class [HashOrder] gives some permutation, nothing more. *)

From S2P Require Import Prelude Floats Models Env Bytes Crypto Config TxCodec BlockCodec Wallet Rules Round Tree Storage Deltas Sync AntiSpam.

(** Iteration of a [HashMap<String, Transaction>]. *)
Class HashOrder : Type := {
  hm_iter : gmap string Transaction -> list (string * Transaction);
  hm_iter_perm m : hm_iter m ≡ₚ map_to_list m
}.

(** ** Fees *)

(** [DynamicFeesConfig] of [src/src/node_config.rs]. *)
Record DynamicFeesConfig : Type := mkDynamicFees {
  df_enabled : bool;
  df_min_fee_pool : Z;
  df_min_fee_broadcast : Z;
  df_addon_bytes : gmap string Z
}.

Definition dynamic_fees_default : DynamicFeesConfig :=
  mkDynamicFees true 3000 3000
    (list_to_map [("transfer", 100); ("secondSignature", 250); ("delegateRegistration", 400000); ("vote", 100);
       ("multiSignature", 500); ("ntfry", 250); ("multiPayment", 500); ("delegateResignation", 100);
       ("htlcLock", 100); ("htlcClaim", 0); ("htlcRefund", 0)]%string).

(** The two spellings of type 5. *)
Definition legacy_name (k : string) : option string :=
  if String.eqb k "ipfs" then Some "ntfry"%string else if String.eqb k "ntfry" then Some "ipfs"%string else None.

Definition addon (df : DynamicFeesConfig) (type_name : string) : Z :=
  default 0 (opt_or (df.(df_addon_bytes) !! type_name) (legacy_name type_name ≫= fun k => df.(df_addon_bytes) !! k)).

Definition min_fee (df : DynamicFeesConfig) (type_name : string) (bytes satoshi_per_byte : Z) : Z :=
  sat_mul_u64 (sat_add_u64 (addon df type_name) bytes) (Z.max satoshi_per_byte 1).

(** [addonBytes] of the legacy API. *)
Definition addon_bytes_api (df : DynamicFeesConfig) : gmap string Z :=
  <["ipfs" := addon df "ntfry"]> (<["ntfry" := addon df "ntfry"]> df.(df_addon_bytes)).

Definition fee_name (type_ : Z) : string :=
  match List.find (fun p => p.2 =? type_) FEE_NAMES with Some (name, _) => name | None => EmptyString end.

(** [sth]: whole coins and eight decimals. *)
Definition sth_text (amount : Z) : string :=
  fmt_u (amount / 100000000) +:+ "." +:+ frac_digits 8 (amount mod 100000000) "" +:+ " STH".

(** ** The pool *)

Record MempoolConfig : Type := mkMempoolConfig {
  mc_max_size : Z;
  mc_max_bytes : Z;
  mc_dynamic_fees : DynamicFeesConfig;
  mc_legacy_dynamic_fees : bool;
  mc_max_age_blocks : Z;
  mc_rebroadcast_blocks : Z;
  mc_antispam : AntiSpamConfig
}.

Definition mempool_default : MempoolConfig :=
  mkMempoolConfig 5000 (8 * 1024 * 1024) dynamic_fees_default false 2700 30 antispam_default.

Record PendingMeta : Type := mkMeta { pm_entered : Z; pm_relayed : Z }.

Record Pool : Type := mkPool {
  pl_txs : gmap string Transaction;
  pl_meta : gmap string PendingMeta;
  (** size of a buffer: no pool reaches the width of [usize] *)
  pl_bytes : Z;
  pl_low_fee_rejected : Z;
  pl_expired : Z;
  pl_antispam : AntiSpam
}.

Definition pool_new (now : Z) : Pool := mkPool ∅ ∅ 0 0 0 (antispam_new now).

Definition on_antispam f (p : Pool) : Pool :=
  mkPool p.(pl_txs) p.(pl_meta) p.(pl_bytes) p.(pl_low_fee_rejected) p.(pl_expired) (f p.(pl_antispam)).

Record PoolError : Type := mkPoolError { pe_type : string; pe_message : string }.
Record PoolResponse : Type := mkResponse { pr_accept : list string; pr_broadcast : list string; pr_excess : list string; pr_invalid : list string }.
Definition response_default : PoolResponse := mkResponse [] [] [] [].
Definition resp_invalid (id : string) (r : PoolResponse) : PoolResponse :=
  mkResponse r.(pr_accept) r.(pr_broadcast) r.(pr_excess) (r.(pr_invalid) ++ [id]).
Definition resp_accept (id : string) (broadcast : bool) (r : PoolResponse) : PoolResponse :=
  mkResponse (r.(pr_accept) ++ [id]) (if broadcast then r.(pr_broadcast) ++ [id] else r.(pr_broadcast)) r.(pr_excess) r.(pr_invalid).

Record Admit : Type := mkAdmit { ad_broadcast : bool; ad_replaces : option string; ad_evicts : list string }.

Inductive DropReason : Type := Forged | StaleNonce | Expired | Aged.

(** A rejection: code and message. *)
Definition VRes (A : Type) : Type := result A (string * string).
Definition reject {A} (code message : string) : VRes A := Err (code, message).

Definition storage_err (e : Error) : string * string := ("ERR_UNKNOWN"%string, err_text e).

(** The text between double quotes. *)
Definition quoted (x : string) : string := String "034" x +:+ String "034" EmptyString.

(** [e.split(':').next()]. *)
Definition before_colon (e : string) : string := match str_split ":" e with x :: _ => x | [] => EmptyString end.
Definition pq_code (e : string) : string := if starts_with "ERR_PQ_" e then before_colon e else "ERR_BAD_DATA".

Section pool.
Context `{E : Env} `{HO : HashOrder}.
Variables (cfg : MempoolConfig) (n : Network) (s : Store).
(** Length of the JSON text, the fallback for a transaction that has no wire form. *)
Variable json_len : Transaction -> Z.
Implicit Types (p : Pool) (tx : Transaction) (txs : gmap string Transaction).

Definition pool_values txs : list Transaction := snd <$> hm_iter txs.
Definition nonce_or_0 tx : Z := default 0 tx.(tx_nonce).
Definition tip : Z := get_last_height s.
Definition next_milestone : Milestone := milestone n (as_u64 (tip + 1)).

Definition tx_size tx : Z :=
  match serialize_transaction tx opts_default n.(n_pubkey_hash) with
  | Ok b => Z.of_nat (length b)
  | Err _ => json_len tx
  end.

(** ** Fee policy *)

(** Fee the legacy pools demand, if they take the transaction at all. *)
Definition legacy_min_fee tx : option Z :=
  if negb (tx.(tx_type_group) =? TYPE_GROUP_CORE) || is_pq tx then None else
  let min := if cfg.(mc_legacy_dynamic_fees)
             then min_fee dynamic_fees_default (fee_name tx.(tx_type_)) (tx_size tx) dynamic_fees_default.(df_min_fee_pool)
             else static_fee_for_type next_milestone tx.(tx_type_) in
  if 0 <? min then Some min else None.

Definition TRANSFER_WIRE_BYTES : Z := 156.

Definition legacy_min_transfer_fee : Z :=
  if cfg.(mc_legacy_dynamic_fees)
  then min_fee dynamic_fees_default "transfer" TRANSFER_WIRE_BYTES dynamic_fees_default.(df_min_fee_pool)
  else static_fee next_milestone "transfer".

Definition min_transfer_fee : Z :=
  let df := cfg.(mc_dynamic_fees) in
  if df.(df_enabled) then min_fee df "transfer" TRANSFER_WIRE_BYTES df.(df_min_fee_pool)
  else static_fee next_milestone "transfer".

(** The message of the fee advisor, when the legacy pools refuse the fee. *)
Definition fee_hint tx : option (Z * string) :=
  match legacy_min_fee tx with
  | None => None
  | Some min =>
      let dynamic := cfg.(mc_legacy_dynamic_fees) in
      if negb (if dynamic then tx.(tx_fee) <? min else negb (tx.(tx_fee) =? min)) then None else
      let why := if tx.(tx_fee) <? min then "is below the legacy pool minimum " +:+ sth_text min
                 else "does not match the static fee " +:+ sth_text min +:+ " the legacy pools demand" in
      let advice := if dynamic then "use a fee of at least " +:+ sth_text min else "use exactly " +:+ sth_text min in
      Some (min, "fee " +:+ sth_text tx.(tx_fee) +:+ " " +:+ why
                 +:+ ": only PQ delegates will forge this transaction — " +:+ advice +:+ " to be forged by every delegate")
  end.

Definition below_legacy_min p : Z :=
  Z.of_nat (length (List.filter (fun tx => is_some (fee_hint tx)) (pool_values p.(pl_txs)))).

(** Whether the transaction may be relayed, or why it may not enter. *)
Definition check_core_fee tx (size : Z) (ms : Milestone) : VRes bool :=
  if negb (tx.(tx_type_group) =? TYPE_GROUP_CORE) || is_pq tx then Ok true else
  let name := fee_name tx.(tx_type_) in
  let df := cfg.(mc_dynamic_fees) in
  if negb df.(df_enabled) then
    let fee := static_fee_for_type ms tx.(tx_type_) in
    if negb (tx.(tx_fee) =? fee)
    then reject "ERR_LOW_FEE" ("Fee " +:+ fmt_u tx.(tx_fee) +:+ " does not match the static fee " +:+ fmt_u fee +:+ " of "
           +:+ name +:+ " (dynamic fees are disabled on this node)")
    else Ok true
  else
    let min_pool := min_fee df name size df.(df_min_fee_pool) in
    if tx.(tx_fee) <? min_pool
    then reject "ERR_LOW_FEE" ("The fee " +:+ fmt_u tx.(tx_fee) +:+ " is too low to enter the pool: minimum (" +:+ fmt_u (addon df name)
           +:+ " + " +:+ fmt_u size +:+ " bytes) × " +:+ fmt_u df.(df_min_fee_pool) +:+ " = " +:+ fmt_u min_pool)
    else Ok (min_fee df name size df.(df_min_fee_broadcast) <=? tx.(tx_fee)).

(** ** Outflow of a transaction *)

Definition sobj_price tx : Z :=
  default 0 (match sobj_asset tx with
             | Some e =>
                 if e.(sa_action) =? sobj.ACTION_BUY
                 then e.(sa_registration_id) ≫= fun reg => stored_sobject n s reg ≫= fun o => o.2.(so_price)
                 else None
             | None => None
             end).

Definition token_price tx : Z :=
  if negb (tx.(tx_type_group) =? TYPE_GROUP_TOKEN) || negb (tx.(tx_type_) =? token.BUY) then 0 else
  match token_asset tx with
  | Some a => match a.(ta_order_id) ≫= token_order s with
              | Some o => sat_mul_u64 (default 0 a.(ta_amount)) o.(od_price)
              | None => 0
              end
  | None => 0
  end.

Definition pool_spent tx : Z :=
  tx.(tx_amount) + tx.(tx_fee) + zsum (p_amount <$> payments_of tx) + sobj_price tx + token_price tx.

(** ** The token view of the pool *)

Record PoolView : Type := mkPoolView { vw_pool : gmap string Transaction; vw_sender : string }.

Definition pending_token_spend (id : string) tx : Z :=
  match token_asset tx with
  | Some a =>
      if negb (String.eqb a.(ta_id) id) then 0
      else if tx.(tx_type_) =? token.TRANSFER then as_u64 (zsum (ti_amount <$> default [] a.(ta_transfers)))
      else if (tx.(tx_type_) =? token.BURN) || (tx.(tx_type_) =? token.SELL) then default 0 a.(ta_amount)
      else 0
  | None => 0
  end.

Definition of_sender (pk : string) tx : bool := String.eqb tx.(tx_sender_public_key) pk.

Definition pool_token_balance (v : PoolView) (address id : string) : Z :=
  sat_sub (stored_tokens s address id)
    (as_u64 (zsum (pending_token_spend id <$> List.filter (of_sender v.(vw_sender)) (pool_values v.(vw_pool))))).

(** The order of a sell that is still pending. *)
Definition pending_sell (v : PoolView) (id : string) : option TokenOrder :=
  match v.(vw_pool) !! id with
  | None => None
  | Some tx =>
      match token_asset tx with
      | None => None
      | Some a =>
          if negb (tx.(tx_type_) =? token.SELL) then None else
          match res_ok (address_from_public_key tx.(tx_sender_public_key) n.(n_pubkey_hash)) with
          | None => None
          | Some seller => Some (mkOrder id a.(ta_id) seller (default 0 a.(ta_amount)) 0 (default 0 a.(ta_price)) 0 None [])
          end
      end
  end.

Definition od_fill_pool (amount : Z) (o : TokenOrder) : TokenOrder :=
  let filled := Z.min (sat_add_u64 o.(od_filled) amount) o.(od_amount) in
  mkOrder o.(od_id) o.(od_token_id) o.(od_seller) o.(od_amount) filled o.(od_price) o.(od_height)
    (if o.(od_amount) <=? filled then Some u64_max else o.(od_closed)) o.(od_fills).

Definition apply_pending_trade (id : string) (o : TokenOrder) tx : TokenOrder :=
  match token_asset tx with
  | Some a =>
      if negb (bool_decide (a.(ta_order_id) = Some id)) then o
      else if tx.(tx_type_) =? token.BUY then od_fill_pool (default 0 a.(ta_amount)) o
      else if tx.(tx_type_) =? token.CANCEL then od_close (Some u64_max) o
      else o
  | None => o
  end.

Definition pool_order (v : PoolView) (id : string) : option TokenOrder :=
  (fun o => foldl (apply_pending_trade id) o (pool_values v.(vw_pool))) <$> opt_or (token_order s id) (pending_sell v id).

Definition pool_open_orders (v : PoolView) (seller token_id : string) : Z :=
  Z.of_nat (length (List.filter (fun o => String.eqb o.(od_token_id) token_id) (wallet_orders s seller)))
  + Z.of_nat (length (List.filter (fun tx => of_sender v.(vw_sender) tx && (tx.(tx_type_group) =? TYPE_GROUP_TOKEN)
        && (tx.(tx_type_) =? token.SELL) && opt_test (fun a => String.eqb a.(ta_id) token_id) (token_asset tx))
      (pool_values v.(vw_pool)))).

#[export] Instance pool_view : TokenView PoolView := {
  token_owner := fun _ id => token_owner_of s id;
  Rules.token_state := fun _ id => token_state s id;
  token_balance := pool_token_balance;
  ticker_sobj := fun _ id => stored_sobject n s id ≫= ticker_of;
  order := pool_order;
  open_orders := pool_open_orders
}.

(** ** Replacement by fee *)

Definition rate (fee bytes : Z) : F64 := f64_div (f64_of fee) (f64_of (Z.max bytes 1)).

(** A candidate: rate, size, id. *)
Definition Candidate : Type := F64 * Z * string.
Definition rate_le (x y : Candidate) : Prop := f64_leb x.1.1 y.1.1 = true.
#[export] Instance rate_le_dec x y : Decision (rate_le x y) := bool_eq_dec _ _.

Definition last_nonces txs : gmap string Z :=
  foldl (fun m tx => let pk := tx.(tx_sender_public_key) in
                     <[pk := Z.max (default 0 (m !! pk)) (nonce_or_0 tx)]> m) ∅ (pool_values txs).

Definition candidates txs tx (new_rate : F64) : list Candidate :=
  let last := last_nonces txs in
  omap (fun q => let '(id, t) := q in
          if negb (of_sender tx.(tx_sender_public_key) t)
             && bool_decide (last !! t.(tx_sender_public_key) = Some (nonce_or_0 t))
             && f64_ltb (rate t.(tx_fee) (tx_size t)) new_rate
          then Some (rate t.(tx_fee) (tx_size t), tx_size t, id) else None) (hm_iter txs).

Fixpoint take_victims (cs : list Candidate) (need_slots need_bytes slots bytes : Z) (out : list string) : Z * Z * list string :=
  match cs with
  | [] => (slots, bytes, out)
  | (_, b, id) :: cs =>
      if (need_slots <=? slots) && (need_bytes <=? bytes) then (slots, bytes, out)
      else take_victims cs need_slots need_bytes (slots + 1) (bytes + b) (out ++ [id])
  end.

Definition eviction_candidates txs tx (size need_slots need_bytes : Z) : VRes (list string) :=
  let new_rate := rate tx.(tx_fee) size in
  let '(slots, bytes, out) := take_victims (sort_by rate_le (candidates txs tx new_rate)) need_slots need_bytes 0 0 [] in
  if (need_slots <=? slots) && (need_bytes <=? bytes) then Ok out
  else reject "ERR_POOL_FULL" ("Transaction pool is full and the fee " +:+ fmt_u tx.(tx_fee) +:+ " (" +:+ fmt_f64 2 new_rate
         +:+ " per byte) does not beat the cheapest pending transactions (replace-by-fee)").

(** ** Admission *)

Definition nonce_le (x y : Transaction) : Prop := nonce_or_0 x <= nonce_or_0 y.
#[export] Instance nonce_le_dec x y : Decision (nonce_le x y) := Z.le_dec _ _.

Definition same_nonce tx t : bool := bool_decide (t.(tx_nonce) = tx.(tx_nonce)).

(** Pending transactions of the sender, by nonce. *)
Definition pending_of txs tx : list Transaction :=
  sort_by nonce_le (List.filter (of_sender tx.(tx_sender_public_key)) (pool_values txs)).

Definition recipients tx : list string :=
  match tx.(tx_recipient_id) with Some r => [r] | None => [] end ++ (p_recipient_id <$> payments_of tx).

Definition full_text p : string :=
  "Transaction pool is full (" +:+ fmt_u (Z.of_nat (size p.(pl_txs))) +:+ " of " +:+ fmt_u cfg.(mc_max_size)
  +:+ " transactions, " +:+ fmt_u p.(pl_bytes) +:+ " of " +:+ fmt_u cfg.(mc_max_bytes) +:+ " bytes)".

Definition need_slots p : Z := if cfg.(mc_max_size) <=? Z.of_nat (size p.(pl_txs)) then 1 else 0.
Definition need_bytes p (size : Z) : Z := sat_sub (p.(pl_bytes) + size) cfg.(mc_max_bytes).

(** Room: what has to go for the transaction to fit. *)
Definition check_room p tx (size : Z) : VRes (list string) :=
  if (0 <? need_slots p) || (0 <? need_bytes p size) then
    if negb (replace_by_fee cfg.(mc_antispam)) then reject "ERR_POOL_FULL" (full_text p)
    else eviction_candidates p.(pl_txs) tx size (need_slots p) (need_bytes p size)
  else Ok [].

(** Everything about the transaction itself; the sender's address and whether to relay. *)
Definition check_basics tx (id : string) (size : Z) : VRes (bool * string) :=
  let? forged := map_err storage_err (get_transaction n s id) in
  if is_some forged then reject "ERR_FORGED" ("Transaction " +:+ id +:+ " is already forged") else
  if negb ((tx.(tx_version) =? 2) || is_pq tx) || negb ((tx.(tx_type_group) =? TYPE_GROUP_CORE) || is_sobj tx || is_token tx)
  then reject "ERR_UNKNOWN" "Only version 2 / 3 core, sObject and token transactions are supported" else
  let? _ :=
    match tx.(tx_network) with
    | Some w =>
        if negb (w =? n.(n_pubkey_hash))
        then reject "ERR_WRONG_NETWORK" ("Transaction network " +:+ fmt_u w +:+ " does not match " +:+ fmt_u n.(n_pubkey_hash))
        else Ok tt
    | None => Ok tt
    end in
  let? broadcast := check_core_fee tx size next_milestone in
  let bad (e : Error) := ("ERR_BAD_DATA"%string, err_text e) in
  let? good := map_err bad (verify_transaction_signature tx) in
  if negb good then reject "ERR_BAD_DATA" "Transaction signature is invalid" else
  let? sender := map_err bad (address_from_public_key tx.(tx_sender_public_key) n.(n_pubkey_hash)) in
  match List.find (fun r => negb (validate_address r n.(n_pubkey_hash))) (recipients tx) with
  | Some r => reject "ERR_BAD_DATA" ("Invalid recipient " +:+ r)
  | None => Ok (broadcast, sender)
  end.

(** The pending transaction with the same nonce, which the new one replaces. *)
Definition find_replaced (sender : string) (pending : list Transaction) tx : VRes (option string) :=
  match tx.(tx_nonce) with
  | None => Ok None
  | Some k =>
      match List.find (same_nonce tx) pending with
      | Some old =>
          if tx.(tx_fee) <? old.(tx_fee)
          then reject "ERR_BAD_NONCE" ("Sender " +:+ sender +:+ ": nonce " +:+ fmt_u k +:+ " is already pending in this node's pool ("
                 +:+ default "?"%string old.(tx_id) +:+ ") with fee " +:+ fmt_u old.(tx_fee) +:+ "; resend with a fee of at least "
                 +:+ fmt_u old.(tx_fee) +:+ " to replace it")
          else Ok old.(tx_id)
      | None => Ok None
      end
  end.

Definition others (pending : list Transaction) tx : list Transaction :=
  List.filter (fun t => negb (same_nonce tx t)) pending.

Definition nonce_detail (sender : string) (nonce : Z) (pending : list Transaction) : string :=
  match pending with
  | [] => "chain nonce " +:+ fmt_u nonce +:+ ", nothing pending"
  | first :: _ =>
      "chain nonce " +:+ fmt_u nonce +:+ " + " +:+ fmt_u (Z.of_nat (length pending)) +:+ " pending in this node's pool: "
      +:+ fmt_u (nonce_or_0 first) +:+ "–" +:+ fmt_u (default 0 (last pending ≫= tx_nonce))
      +:+ "; resend a pending nonce with an equal or higher fee to replace it, see GET /api/transactions/unconfirmed?senderId=" +:+ sender
  end.

Definition expected_nonce (nonce : Z) (pending : list Transaction) : Z :=
  as_u64 (as_u64 (nonce + 1) + Z.of_nat (length pending)).

Definition check_nonce (sender : string) (nonce : Z) (replaces : option string) (pending : list Transaction) tx : VRes unit :=
  match tx.(tx_nonce) with
  | Some k =>
      if is_some replaces || (k =? expected_nonce nonce pending) then Ok tt
      else reject "ERR_BAD_NONCE" ("Sender " +:+ sender +:+ ": nonce " +:+ fmt_u k +:+ ", expected "
             +:+ fmt_u (expected_nonce nonce pending) +:+ " (" +:+ nonce_detail sender nonce pending +:+ ")")
  | None => reject "ERR_BAD_NONCE" "Transaction nonce is missing"
  end.

(** The first second key a pending registration brings. *)
Definition pending_second_key (pending : list Transaction) : option string :=
  head (omap (fun t => match res_ok (registered_second_key t) with Some k => k | None => None end) pending).

Definition registers_pq tx : bool :=
  is_pq tx && (tx.(tx_type_group) =? TYPE_GROUP_CORE) && (tx.(tx_type_) =? tx_type.SECOND_SIGNATURE).

(** A quantum key that waits in the pool. *)
Definition pending_pq_key (pending : list Transaction) : option PqKey :=
  List.find registers_pq pending ≫= fun t =>
    (fun a => mkPqKey (default 1 a.(ss_algorithm)) a.(ss_public_key) (as_u64 (tip + 1))) <$> (t.(tx_asset) ≫= as_signature).

Definition check_pool_keys (wallet : option WalletState) (pending : list Transaction) tx : VRes unit :=
  let second := opt_or (wallet ≫= ws_second_public_key) (pending_second_key pending) in
  let pq := pending_pq_key pending in
  let view := mkPqView (if is_some pq then None else second) (opt_or pq (wallet ≫= ws_pq_key)) (wallet ≫= ws_pq_commitment) in
  let? _ := map_err (fun e => (pq_code e, e))
      (check_pq tx (next_milestone) (as_u64 (tip + 1)) (pq_activation_height n) view) in
  let bad (e : string) := ("ERR_BAD_DATA"%string, e) in
  let? _ := map_err bad (check_second_signature tx second) in
  let? _ := map_err bad (registered_second_key tx) in
  Ok tt.

Definition apply_err (e : string) : string * string := ("ERR_APPLY"%string, e).

Definition check_pool_token txs (sender : string) tx : VRes unit :=
  let ms := next_milestone in
  if negb ms.(m_tokens) then reject "ERR_UNKNOWN" "Token transactions are not activated yet" else
  let? a := map_err (fun e => ("ERR_BAD_DATA"%string, e)) (check_token_format tx ms) in
  if (tx.(tx_type_) =? token.INIT)
     && existsb (fun t => (t.(tx_type_) =? token.INIT) && opt_test (fun o => String.eqb o.(ta_id) a.(ta_id)) (token_asset t)) (pool_values txs)
  then reject "ERR_PENDING" "TokenInit for this id is already pending" else
  map_err apply_err (check_token tx a sender (mkPoolView txs tx.(tx_sender_public_key))).

Definition sobj_name_lower (e : SmartObjectAsset) : option string := to_lowercase <$> e.(sa_data).(sd_name).

Definition name_clash txs (e : SmartObjectAsset) (name : string) : bool :=
  existsb (fun t => opt_test (fun q => (q.(sa_action) =? sobj.ACTION_REGISTER) && (q.(sa_type_) =? e.(sa_type_))
                       && bool_decide (sobj_name_lower q = Some name)) (sobj_asset t)) (pool_values txs).

Definition check_pool_sobj txs (sender : string) (pending : list Transaction) tx : VRes unit :=
  if negb (is_sobj tx)
  then reject "ERR_UNKNOWN" ("unsupported typeGroup " +:+ fmt_u tx.(tx_type_group) +:+ " type " +:+ fmt_u tx.(tx_type_)) else
  let ms := next_milestone in
  if negb ms.(m_sobj_active)
  then reject "ERR_UNKNOWN" "SmartObject transactions are not activated yet (milestone ship13 / sobj)" else
  let wallet := (fun w => ws_set_balance (as_i64 (Z.max (w.(ws_balance) - zsum (pool_spent <$> pending)) i64_min)) w)
                  <$> get_wallet s sender in
  let? _ := map_err apply_err
      (check_sobj tx ms wallet ∅ (fun name t => is_some (sobj_by_name s name t)) (stored_sobject n s)
         (fun id => ts_supply <$> token_state s id)) in
  match sobj_asset tx with
  | Some e =>
      let name := to_lowercase (ostr e.(sa_data).(sd_name)) in
      if (e.(sa_action) =? sobj.ACTION_REGISTER) && name_clash txs e name
      then reject "ERR_PENDING" ("SmartObject registration for " +:+ quoted name +:+ " already in the pool")
      else Ok tt
  | None => Ok tt
  end.

Definition check_kind txs (sender : string) (pending : list Transaction) tx : VRes unit :=
  if is_token tx then check_pool_token txs sender tx
  else if negb (tx.(tx_type_group) =? TYPE_GROUP_CORE) then check_pool_sobj txs sender pending tx
  else Ok tt.

Definition check_funds (sender : string) (balance : Z) (pending : list Transaction) tx : VRes unit :=
  if balance - zsum (pool_spent <$> pending) <? pool_spent tx
  then reject "ERR_LOW_BALANCE" ("Sender " +:+ sender +:+ " has insufficient balance") else
  if (tx.(tx_type_group) =? TYPE_GROUP_CORE) && (tx.(tx_type_) =? tx_type.TRANSFER) && is_none tx.(tx_recipient_id)
  then reject "ERR_BAD_DATA" "Transfer without recipient" else Ok tt.

(** The checks against the wallet and the sender's other pending transactions. *)
Definition check_sender_state txs (sender : string) (pending : list Transaction) tx : VRes (option string) :=
  let wallet := get_wallet s sender in
  let nonce := default 0 (ws_nonce <$> wallet) in
  let? replaces := find_replaced sender pending tx in
  let pending := others pending tx in
  let? _ := check_nonce sender nonce replaces pending tx in
  let? _ := check_pool_keys wallet pending tx in
  let? _ := check_kind txs sender pending tx in
  let? _ := check_funds sender (balance_of wallet) pending tx in
  Ok replaces.

(** [validate]; the policy counts what its sender cap refuses. *)
Definition validate (now : Z) tx p : AntiSpam * VRes Admit :=
  let spam := p.(pl_antispam) in
  let id := ostr tx.(tx_id) in
  let size := tx_size tx in
  let front :=
    if is_some (p.(pl_txs) !! id) then reject "ERR_DUPLICATE" ("Transaction " +:+ id +:+ " is already in the pool") else
    let? evicts := check_room p tx size in
    let? (broadcast, sender) := check_basics tx id size in
    Ok (evicts, broadcast, sender) in
  match front with
  | Err e => (spam, Err e)
  | Ok (evicts, broadcast, sender) =>
      let pending := pending_of p.(pl_txs) tx in
      let '(spam, capped) :=
        if existsb (same_nonce tx) pending then (spam, Ok tt)
        else check_sender cfg.(mc_antispam) now sender (Z.of_nat (length pending)) (zsum (tx_size <$> pending)) size spam in
      (spam,
       let? _ := capped in
       let? replaces := check_sender_state p.(pl_txs) sender pending tx in
       Ok (mkAdmit broadcast replaces evicts))
  end.

(** ** Writing the pool *)

Definition remove_locked (id : string) p : option Transaction * Pool :=
  match p.(pl_txs) !! id with
  | None => (None, p)
  | Some t =>
      (Some t, mkPool (delete id p.(pl_txs)) (delete id p.(pl_meta)) (p.(pl_bytes) - Z.min (tx_size t) p.(pl_bytes))
                 p.(pl_low_fee_rejected) p.(pl_expired) p.(pl_antispam))
  end.

Definition evict p (id : string) : Pool :=
  match remove_locked id p with
  | (Some _, p) => on_antispam note_evicted p
  | (None, p) => p
  end.

Definition enter_pool (id : string) tx (a : Admit) p : Pool :=
  let p := match a.(ad_replaces) with Some old => (remove_locked old p).2 | None => p end in
  let p := foldl evict p a.(ad_evicts) in
  mkPool (<[id := tx]> p.(pl_txs)) (<[id := mkMeta tip tip]> p.(pl_meta)) (p.(pl_bytes) + tx_size tx)
    p.(pl_low_fee_rejected) p.(pl_expired) p.(pl_antispam).

Definition count_low_fee (code : string) p : Pool :=
  mkPool p.(pl_txs) p.(pl_meta) p.(pl_bytes)
    (if String.eqb code "ERR_LOW_FEE" then as_u64 (p.(pl_low_fee_rejected) + 1) else p.(pl_low_fee_rejected))
    p.(pl_expired) p.(pl_antispam).

Definition Errors : Type := gmap string PoolError.

(** One transaction of a batch.  [validate] holds the pool for reading; before the transaction is entered, under the lock for
    writing, other calls may change the pool: [pause]. *)
Definition add_one_at (pause : Pool -> Pool) (now : Z) (st : Pool * PoolResponse * Errors) tx : Pool * PoolResponse * Errors :=
  let '(p, resp, errors) := st in
  let fail key code message := (resp_invalid key resp, <[key := mkPoolError code message]> errors) in
  match transaction_id tx with
  | Err e => let '(resp, errors) := fail "unknown"%string "ERR_BAD_DATA"%string (err_text e) in (p, resp, errors)
  | Ok id =>
      if opt_test (fun given => negb (String.eqb given id)) tx.(tx_id) then
        let given := ostr tx.(tx_id) in
        let '(resp, errors) := fail given "ERR_BAD_DATA"%string
            ("Transaction id " +:+ given +:+ " does not match its bytes (" +:+ id +:+ ")") in (p, resp, errors)
      else
        let tx := tx_set_id (Some id) tx in
        if is_some (p.(pl_txs) !! id) then
          let '(resp, errors) := fail id "ERR_DUPLICATE"%string ("Transaction " +:+ id +:+ " is already in the pool") in (p, resp, errors)
        else
          match validate now tx p with
          | (spam, Ok a) => (enter_pool id tx a (pause (on_antispam (fun _ => spam) p)), resp_accept id a.(ad_broadcast) resp, errors)
          | (spam, Err (code, message)) =>
              let '(resp, errors) := fail id code message in
              (count_low_fee code (on_antispam (fun _ => spam) p), resp, errors)
          end
  end.

(** One call at a time. *)
Definition add_one : Z -> Pool * PoolResponse * Errors -> Transaction -> Pool * PoolResponse * Errors := add_one_at (fun p => p).

Definition invalid_count (errors : Errors) : Z :=
  as_u32 (Z.of_nat (length (List.filter (fun q => counts_as_invalid q.2.(pe_type)) (map_to_list errors)))).

(** [add_many_from]; what it relays is [pr_broadcast] of the response.  One instant for the call. *)
Definition add_many_from (now : Z) (incoming : list Transaction) (origin : TxOrigin) p : Pool * PoolResponse * Errors :=
  match gate cfg.(mc_antispam) now origin (Z.of_nat (length incoming)) p.(pl_antispam) with
  | (spam, Allow k) =>
      let '(p, resp, errors) :=
        foldl (add_one now) (on_antispam (fun _ => spam) p, response_default, ∅) (take (Z.to_nat k) incoming) in
      (on_antispam (fun spam => (note_invalid cfg.(mc_antispam) now origin (invalid_count errors) spam).1) p, resp, errors)
  | (spam, _) => (on_antispam (fun _ => spam) p, response_default, ∅)
  end.

Definition add_many (now : Z) (incoming : list Transaction) : Pool -> Pool * PoolResponse * Errors := add_many_from now incoming Local.

(** ** Housekeeping *)

(** Operator action: everything, or what one address has sent. *)
Definition purge (sender : option string) p : Pool * Z :=
  let ids := omap (fun q => if match sender with
                               | None => true
                               | Some a => bool_decide (res_ok (address_from_public_key q.2.(tx_sender_public_key) n.(n_pubkey_hash)) = Some a)
                               end then Some q.1 else None) (hm_iter p.(pl_txs)) in
  (foldl (fun p id => (remove_locked id p).2) p ids, Z.of_nat (length ids)).

Definition entered (metas : gmap string PendingMeta) (id : string) : Z := default tip (pm_entered <$> metas !! id).
Definition relayed (metas : gmap string PendingMeta) (id : string) : Z := default tip (pm_relayed <$> metas !! id).

(** Why [prune_confirmed] drops a transaction. *)
Definition drop_reason (metas : gmap string PendingMeta) (id : string) tx : option DropReason :=
  let forged := match res_ok (get_transaction n s id) with Some (Some _) => true | _ => false end in
  let stale := opt_test (fun w => nonce_or_0 tx <=? w.(ws_nonce))
      (res_ok (address_from_public_key tx.(tx_sender_public_key) n.(n_pubkey_hash)) ≫= get_wallet s) in
  let expired := opt_test (fun e => (0 <? e) && (e <=? tip)) tx.(tx_expiration) in
  let aged := (0 <? cfg.(mc_max_age_blocks)) && (cfg.(mc_max_age_blocks) <=? sat_sub tip (entered metas id)) in
  if forged then Some Forged else if stale then Some StaleNonce else if expired then Some Expired
  else if aged then Some Aged else None.

Definition rebroadcast_due (metas : gmap string PendingMeta) (id : string) : bool :=
  (0 <? cfg.(mc_rebroadcast_blocks)) && (cfg.(mc_rebroadcast_blocks) <=? sat_sub tip (relayed metas id)).

Definition drop_stale p (q : string * DropReason) : Pool :=
  match remove_locked q.1 p with
  | (Some _, p) =>
      match q.2 with
      | Expired | Aged => mkPool p.(pl_txs) p.(pl_meta) p.(pl_bytes) p.(pl_low_fee_rejected) (as_u64 (p.(pl_expired) + 1)) p.(pl_antispam)
      | _ => p
      end
  | (None, p) => p
  end.

(** [prune_confirmed]: the pool and the ids it relays again. *)
Definition prune_confirmed (now : Z) p : Pool * list string :=
  let p := on_antispam (gc now) p in
  let snapshot := hm_iter p.(pl_txs) in
  let metas := p.(pl_meta) in
  let stale := omap (fun q => (fun r => (q.1, r)) <$> drop_reason metas q.1 q.2) snapshot in
  let again := omap (fun q => match drop_reason metas q.1 q.2 with
                              | None => if rebroadcast_due metas q.1 then Some q.1 else None
                              | Some _ => None
                              end) snapshot in
  let p := foldl drop_stale p stale in
  (mkPool p.(pl_txs) (foldl (fun m id => alter (fun x => mkMeta x.(pm_entered) tip) id m) p.(pl_meta) again) p.(pl_bytes)
     p.(pl_low_fee_rejected) p.(pl_expired) p.(pl_antispam), again).
End pool.
