(* ===== verification/MempoolFacts.v ===== *)
(** * The pool keeps its promises

    The accounting of [Mempool] is exact and within its limits, a sender has at most one pending
    transaction per nonce and never promises more than it has, a full pool only gives way to a better
    fee, and housekeeping drops exactly what has become useless. *)

From S2P Require Import Prelude Floats Models Env Bytes Crypto Config TxCodec BlockCodec Wallet Rules Round Tree Storage StorageFacts Deltas.
From S2P Require Import Sync AntiSpam Mempool.

(** ** Sums over lists and maps *)

Lemma map_sum_list {A} (f : A -> Z) (m : gmap string A) (l : list (string * A)) :
  l ≡ₚ map_to_list m -> map_sum f m = zsum (f <$> (snd <$> l)).
Proof. intros H. rewrite map_sum_entries. apply zsum_perm. by rewrite H, bt_entries_perm. Qed.

(** Sum of [f] over what satisfies [q]. *)
Definition when {A} (q : A -> bool) (f : A -> Z) (x : A) : Z := if q x then f x else 0.

Lemma zsum_filter {A} (q : A -> bool) (f : A -> Z) (l : list A) : zsum (f <$> List.filter q l) = zsum (when q f <$> l).
Proof. unfold when. induction l as [|x l IH]; cbn; [done|]. destruct (q x); cbn; lia. Qed.

Lemma length_zsum {A} (l : list A) : Z.of_nat (length l) = zsum ((fun _ => 1) <$> l).
Proof. induction l; cbn in *; lia. Qed.

(** Keys of distinct entries, and what removing them leaves. *)
Definition sum_keys {A} (f : A -> Z) (m : gmap string A) (l : list string) : Z :=
  zsum ((fun k => default 0 (f <$> m !! k)) <$> l).

Lemma sum_keys_delete {A} (f : A -> Z) (m : gmap string A) k l : k ∉ l -> sum_keys f (delete k m) l = sum_keys f m l.
Proof.
  intros Hk. unfold sum_keys. f_equal. apply list_fmap_ext. intros i j Hj. rewrite lookup_delete_ne; [done|].
  intros ->. by apply Hk, (list_elem_of_lookup_2 _ i).
Qed.

Lemma map_sum_subseteq {A} (f : A -> Z) (m1 m2 : gmap string A) :
  m1 ⊆ m2 -> map_Forall (fun _ x => 0 <= f x) m2 -> map_sum f m1 <= map_sum f m2.
Proof.
  revert m2. induction m1 as [|k x m1 Hk IH] using map_ind; intros m2 Hsub Hpos.
  - rewrite map_sum_empty. by apply map_sum_nonneg.
  - assert (H2 : m2 !! k = Some x) by (eapply lookup_weaken; [apply lookup_insert_eq|done]).
    rewrite map_sum_insert_new by done. enough (map_sum f m1 <= map_sum f (delete k m2)).
    { rewrite (map_sum_delete _ _ _ _ H2) in H. lia. }
    apply IH; [|by apply map_Forall_delete]. apply map_subseteq_spec. intros j y Hj. rewrite lookup_delete_ne by (intros ->; congruence).
    eapply lookup_weaken; [|exact Hsub]. rewrite lookup_insert_ne; [done|intros ->; congruence].
Qed.

Section facts.
Context `{E : Env} `{HO : HashOrder}.
Variables (cfg : MempoolConfig) (n : Network).
Variable json_len : Transaction -> Z.
Hypothesis json_len_nonneg : forall tx, 0 <= json_len tx.
Implicit Types (s : Store) (p : Pool) (tx t : Transaction) (txs : gmap string Transaction).

#[local] Abbreviation tx_size := (tx_size n json_len).
#[local] Abbreviation remove_locked := (remove_locked n json_len).
#[local] Abbreviation evict := (evict n json_len).
#[local] Abbreviation validate := (validate cfg n).
#[local] Abbreviation pool_values := pool_values.

Lemma tx_size_nonneg tx : 0 <= tx_size tx.
Proof. unfold Mempool.tx_size. destruct (serialize_transaction _ _ _); [lia|apply json_len_nonneg]. Qed.

Lemma values_perm txs : pool_values txs ≡ₚ snd <$> map_to_list txs.
Proof. unfold Mempool.pool_values. by rewrite (hm_iter_perm txs). Qed.

Lemma elem_of_values txs t : t ∈ pool_values txs <-> exists id, txs !! id = Some t.
Proof.
  rewrite values_perm, list_elem_of_fmap. split.
  - intros ([id u] & -> & H). apply elem_of_map_to_list in H. eauto.
  - intros [id H]. exists (id, t). split; [done|]. by apply elem_of_map_to_list.
Qed.

Lemma values_sum (f : Transaction -> Z) txs : zsum (f <$> pool_values txs) = map_sum f txs.
Proof. unfold Mempool.pool_values. symmetry. apply map_sum_list, hm_iter_perm. Qed.

(** ** The invariant *)

Record pool_ok p : Prop := {
  (** every entry is stored under the id of its bytes, has a nonce and is signed *)
  po_entry : forall id t, p.(pl_txs) !! id = Some t ->
    t.(tx_id) = Some id /\ transaction_id t = Ok id /\ is_Some t.(tx_nonce) /\ verify_transaction_signature t = Ok true;
  (** a sender has one pending transaction per nonce *)
  po_unique : forall i j t u, p.(pl_txs) !! i = Some t -> p.(pl_txs) !! j = Some u ->
    t.(tx_sender_public_key) = u.(tx_sender_public_key) -> t.(tx_nonce) = u.(tx_nonce) -> i = j;
  (** the byte count is the size of the entries, and every entry has its heights *)
  po_bytes : p.(pl_bytes) = map_sum tx_size p.(pl_txs);
  po_meta : dom p.(pl_meta) = dom p.(pl_txs);
  (** the limits *)
  po_size : Z.of_nat (size p.(pl_txs)) <= cfg.(mc_max_size);
  po_room : p.(pl_bytes) <= cfg.(mc_max_bytes);
  po_held : cfg.(mc_antispam).(ac_enabled) = true -> forall pk,
    map_sum (when (of_sender pk) (fun _ => 1)) p.(pl_txs) <= cfg.(mc_antispam).(ac_max_per_sender)
}.

(** Removing entries keeps everything. *)
Lemma shrink_sum (f : Transaction -> Z) id txs : (forall t, 0 <= f t) -> map_sum f (delete id txs) <= map_sum f txs.
Proof.
  intros Hf. rewrite map_sum_delete_default. destruct (txs !! id) as [t|]; cbn; [specialize (Hf t)|]; lia.
Qed.

Lemma when_nonneg (q : Transaction -> bool) f t : (forall t, 0 <= f t) -> 0 <= when q f t.
Proof. intros Hf. unfold when. by destruct (q t). Qed.

Lemma remove_locked_txs id p : (remove_locked id p).2.(pl_txs) = delete id p.(pl_txs).
Proof. unfold Mempool.remove_locked. destruct (pl_txs p !! id) eqn:H; [done|]. cbn. by rewrite delete_id. Qed.

Lemma remove_locked_ok id p : pool_ok p -> pool_ok (remove_locked id p).2.
Proof.
  intros [H1 H2 H3 H4 H5 H6 H7]. unfold Mempool.remove_locked. destruct (pl_txs p !! id) as [t|] eqn:Ht; [|done]. cbn [snd].
  assert (Hle : tx_size t <= pl_bytes p).
  { rewrite H3. apply (map_sum_le_lookup _ _ id); [|done]. intros. apply tx_size_nonneg. }
  split; cbn.
  - intros i u Hu. apply lookup_delete_Some in Hu as [_ Hu]. by apply H1.
  - intros i j u v Hu Hv. apply lookup_delete_Some in Hu as [_ Hu], Hv as [_ Hv]. by apply H2.
  - rewrite (map_sum_delete _ _ _ _ Ht). lia.
  - by rewrite !dom_delete_L, H4.
  - pose proof (map_size_delete_Some id (pl_txs p)) as Hs. rewrite Hs by eauto. lia.
  - pose proof (tx_size_nonneg t). lia.
  - intros He pk. etransitivity; [apply shrink_sum|by apply H7]. intros u. by apply when_nonneg.
Qed.

Lemma remove_all_ok l p : pool_ok p -> pool_ok (foldl (fun p id => (remove_locked id p).2) p l).
Proof. revert p. induction l as [|id l IH]; intros p Hp; cbn; [done|]. apply IH. by apply remove_locked_ok. Qed.

(** The invariant is about entries, heights and bytes only. *)
Lemma pool_ok_same p p' : p'.(pl_txs) = p.(pl_txs) -> dom p'.(pl_meta) = dom p.(pl_meta) -> p'.(pl_bytes) = p.(pl_bytes) ->
  pool_ok p -> pool_ok p'.
Proof. intros E1 E2 E3 [H1 H2 H3 H4 H5 H6 H7]. split; rewrite ?E1, ?E2, ?E3; done. Qed.

Lemma evict_remove p id : (evict p id).(pl_txs) = (remove_locked id p).2.(pl_txs) /\
  (evict p id).(pl_meta) = (remove_locked id p).2.(pl_meta) /\ (evict p id).(pl_bytes) = (remove_locked id p).2.(pl_bytes).
Proof. unfold Mempool.evict. by destruct (remove_locked id p) as [[t|] p']. Qed.

Lemma evict_ok p id : pool_ok p -> pool_ok (evict p id).
Proof.
  intros Hp. destruct (evict_remove p id) as (E1 & E2 & E3).
  apply (pool_ok_same (remove_locked id p).2); [done|by rewrite E2|done|by apply remove_locked_ok].
Qed.

Lemma evict_all_ok l p : pool_ok p -> pool_ok (foldl evict p l).
Proof. revert p. induction l as [|id l IH]; intros p Hp; cbn; [done|]. apply IH. by apply evict_ok. Qed.

(** What is gone after evicting distinct entries. *)
Lemma evict_all_frees l : forall p, pool_ok p -> NoDup l -> (forall id, id ∈ l -> is_Some (p.(pl_txs) !! id)) ->
  let p' := foldl evict p l in
  (forall id, p'.(pl_txs) !! id = if bool_decide (id ∈ l) then None else p.(pl_txs) !! id) /\
  Z.of_nat (size p'.(pl_txs)) = Z.of_nat (size p.(pl_txs)) - Z.of_nat (length l) /\
  p'.(pl_bytes) = p.(pl_bytes) - sum_keys tx_size p.(pl_txs) l.
Proof.
  induction l as [|id l IH]; intros p Hp Hnd Hin; cbn zeta.
  { cbn. split_and!; [done|lia|lia]. }
  apply NoDup_cons in Hnd as [Hni Hnd]. destruct (Hin id (list_elem_of_here _ _)) as [t Ht].
  assert (Ev : (evict p id).(pl_txs) = delete id p.(pl_txs)) by (rewrite (proj1 (evict_remove p id)); apply remove_locked_txs).
  destruct (IH (evict p id)) as (I1 & I2 & I3); [by apply evict_ok|done| |].
  { intros j Hj. rewrite Ev, lookup_delete_ne by (intros ->; done). apply Hin. by right. }
  cbn [foldl]. rewrite Ev in I2, I3. split_and!.
  - intros j. rewrite I1, Ev. destruct (decide (j = id)) as [->|Hne].
    + rewrite (bool_decide_true (id ∈ id :: l)) by left. rewrite lookup_delete_eq. by destruct (bool_decide _).
    + rewrite lookup_delete_ne by done. destruct (decide (j ∈ l)).
      * rewrite !bool_decide_true; [done|by right|done].
      * rewrite !bool_decide_false; [done|by apply not_elem_of_cons|done].
  - rewrite I2. rewrite map_size_delete_Some by eauto. assert (size (pl_txs p) <> 0%nat); [|cbn; lia].
    apply map_size_non_empty_iff. intros He. by rewrite He in Ht.
  - rewrite I3, sum_keys_delete by done. unfold sum_keys. cbn [fmap list_fmap zsum]. rewrite Ht. cbn [fmap option_fmap option_map]. change (default 0 (Some (tx_size t))) with (tx_size t).
    rewrite (proj2 (proj2 (evict_remove p id))). unfold Mempool.remove_locked. rewrite Ht. cbn [snd pl_bytes].
    assert (tx_size t <= pl_bytes p); [|lia]. rewrite (po_bytes _ Hp). apply (map_sum_le_lookup _ _ id); [|done]. intros. apply tx_size_nonneg.
Qed.

(** ** Who is evicted *)

Definition c_rate (c : Candidate) : F64 := c.1.1.
Definition c_bytes (c : Candidate) : Z := c.1.2.
Definition c_id (c : Candidate) : string := c.2.

Definition enough (slots bytes : Z) (l : list Candidate) : bool :=
  (slots <=? Z.of_nat (length l)) && (bytes <=? zsum (c_bytes <$> l)).

Lemma take_victims_spec ns nb cs : forall k,
  let '(sl, by_, out) := take_victims cs ns nb (Z.of_nat (length k)) (zsum (c_bytes <$> k)) (c_id <$> k) in
  exists l1 l2, cs = l1 ++ l2 /\ out = c_id <$> k ++ l1 /\ sl = Z.of_nat (length (k ++ l1)) /\ by_ = zsum (c_bytes <$> k ++ l1) /\
    (forall a c b, l1 = a ++ c :: b -> enough ns nb (k ++ a) = false).
Proof.
  induction cs as [|[[r b] id] cs IH]; intros k; cbn [take_victims].
  { exists [], []. rewrite !app_nil_r. split_and!; try done. intros [] ? ?; done. }
  destruct (_ && _) eqn:Hen.
  { exists [], ((r, b, id) :: cs). rewrite !app_nil_r. split_and!; try done. intros [] ? ?; done. }
  specialize (IH (k ++ [(r, b, id)])). rewrite !fmap_app, zsum_app, length_app, Nat2Z.inj_add in IH. cbn [fmap list_fmap zsum length] in IH.
  change (c_bytes (r, b, id)) with b in IH. change (c_id (r, b, id)) with id in IH. rewrite Z.add_0_r in IH.
  change (Z.of_nat 1) with 1 in IH. destruct (take_victims _ _ _ _ _ _) as [[sl b2] out].
  destruct IH as (l1 & l2 & -> & Ho & Hs & Hb & Hm). exists ((r, b, id) :: l1), l2. rewrite <-app_assoc in *. split_and!; try done.
  intros [|a0 a] c bb Hl; cbn in Hl; injection Hl as <- Hl; [by rewrite app_nil_r|].
  rewrite <-(Hm a c bb Hl), <-app_assoc. done.
Qed.

Lemma last_nonces_bound txs t k : t ∈ pool_values txs -> last_nonces txs !! t.(tx_sender_public_key) = Some k -> nonce_or_0 t <= k.
Proof.
  unfold last_nonces. set (f := fun m u => _).
  enough (Hg : forall l m, (t ∈ l \/ nonce_or_0 t <= default 0 (m !! t.(tx_sender_public_key))) ->
    nonce_or_0 t <= default 0 (foldl f m l !! t.(tx_sender_public_key))).
  { intros Ht Hk. specialize (Hg (pool_values txs) ∅ (or_introl Ht)). by rewrite Hk in Hg. }
  induction l as [|u l IH]; intros m H; cbn; [destruct H as [H|H]; [by apply elem_of_nil in H|done]|].
  apply IH. destruct H as [H|H]; [apply elem_of_cons in H as [->|H]; [right|by left]|right]; unfold f.
  - rewrite lookup_insert_eq. cbn. lia.
  - destruct (decide (tx_sender_public_key u = tx_sender_public_key t)) as [->|Hne]; [rewrite lookup_insert_eq; cbn; lia|].
    by rewrite lookup_insert_ne.
Qed.

Lemma omap_ids (f : string * Transaction -> option Candidate) l :
  (forall q c, f q = Some c -> c_id c = q.1) -> NoDup (fst <$> l) -> NoDup (c_id <$> omap f l).
Proof.
  intros Hf. induction l as [|q l IH]; cbn; intros H; [constructor|]. apply NoDup_cons in H as [Hq H].
  destruct (f q) as [c|] eqn:Hc; [|by apply IH]. cbn. constructor; [|by apply IH]. rewrite (Hf _ _ Hc).
  intros Hin. apply Hq. apply list_elem_of_fmap in Hin as (c' & He & Hin). apply list_elem_of_omap in Hin as (q' & Hq' & Hc').
  apply list_elem_of_fmap. exists q'. split; [|done]. rewrite He. by apply Hf.
Qed.

Lemma hm_iter_keys txs : NoDup (fst <$> hm_iter txs).
Proof. rewrite (hm_iter_perm txs). apply NoDup_fst_map_to_list. Qed.

(** A victim of the newcomer [tx]. *)
Record victim txs tx (new_rate : F64) (id : string) t : Prop := {
  vi_entry : txs !! id = Some t;
  vi_other : t.(tx_sender_public_key) <> tx.(tx_sender_public_key);
  vi_rate : f64_ltb (rate t.(tx_fee) (tx_size t)) new_rate = true;
  vi_last : forall j u, txs !! j = Some u -> u.(tx_sender_public_key) = t.(tx_sender_public_key) -> nonce_or_0 u <= nonce_or_0 t
}.

Lemma elem_of_candidates txs tx r c : c ∈ candidates n json_len txs tx r ->
  exists t, c = (rate t.(tx_fee) (tx_size t), tx_size t, c_id c) /\ victim txs tx r (c_id c) t.
Proof.
  unfold candidates. intros H. apply list_elem_of_omap in H as ([id t] & Hin & H).
  assert (Hit : txs !! id = Some t) by (apply elem_of_map_to_list; by rewrite <-(hm_iter_perm txs)).
  destruct (_ && _) eqn:Hc; [|done]. injection H as <-. exists t. cbn. split; [done|].
  apply andb_true_iff in Hc as [Hc Hr]. apply andb_true_iff in Hc as [Ho Hl]. apply bool_decide_eq_true in Hl.
  apply negb_true_iff, String.eqb_neq in Ho. split; [done|done|done|].
  intros j u Hu Hs. rewrite <-Hs in Hl. eapply last_nonces_bound; [|exact Hl]. apply elem_of_values. eauto.
Qed.

Lemma eviction_spec txs tx size slots bytes out :
  eviction_candidates n json_len txs tx size slots bytes = Ok out ->
  exists l, out = c_id <$> l /\ NoDup out /\ Forall (fun c => c ∈ candidates n json_len txs tx (rate tx.(tx_fee) size)) l /\
    enough slots bytes l = true /\ (forall a c, l = a ++ [c] -> enough slots bytes a = false) /\
    sum_keys tx_size txs out = zsum (c_bytes <$> l).
Proof.
  unfold eviction_candidates. set (r := rate _ size). set (cs := sort_by rate_le (candidates n json_len txs tx r)).
  pose proof (take_victims_spec slots bytes cs []) as H. cbn [length fmap list_fmap zsum] in H. change (Z.of_nat 0) with 0 in H.
  destruct (take_victims _ _ _ _ _ _) as [[sl b2] o]. destruct H as (l1 & l2 & Hcs & -> & -> & -> & Hm). cbn [app] in *.
  destruct (_ && _) eqn:Hen; [|done]. intros H. apply Ok_inj in H as <-. exists l1.
  assert (Hperm : cs ≡ₚ candidates n json_len txs tx r) by apply sort_by_Permutation.
  assert (Hin : Forall (fun c => c ∈ candidates n json_len txs tx r) l1).
  { apply Forall_forall. intros c Hc. rewrite <-Hperm, Hcs. apply elem_of_app. by left. }
  split_and!; [done| |done|done| |].
  - assert (Hnd : NoDup (c_id <$> candidates n json_len txs tx r)).
    { apply omap_ids; [|apply hm_iter_keys]. intros [id t] c Hc. cbn beta iota in Hc. destruct (_ && _) in Hc; [|done]. by injection Hc as <-. }
    rewrite <-Hperm, Hcs, fmap_app in Hnd. by apply NoDup_app in Hnd as [? _].
  - intros a c ->. by apply (Hm a c []).
  - unfold sum_keys. f_equal. rewrite <-list_fmap_compose. apply Forall_fmap_ext_1. eapply Forall_impl; [exact Hin|].
    intros c Hc. apply elem_of_candidates in Hc as (t & He & Hv). cbn. rewrite (vi_entry _ _ _ _ _ Hv). cbn. unfold c_bytes. by rewrite He.
Qed.

(** ** What an admission has seen *)

Record admitted s p tx (a : Admit) (sender : string) : Prop := {
  ad_new : p.(pl_txs) !! ostr tx.(tx_id) = None;
  ad_room : check_room cfg n json_len p tx (tx_size tx) = Ok a.(ad_evicts);
  ad_signed : verify_transaction_signature tx = Ok true;
  ad_sender : address_from_public_key tx.(tx_sender_public_key) n.(n_pubkey_hash) = Ok sender;
  ad_capped : cfg.(mc_antispam).(ac_enabled) = true -> existsb (same_nonce tx) (pending_of p.(pl_txs) tx) = false ->
    Z.of_nat (length (pending_of p.(pl_txs) tx)) < cfg.(mc_antispam).(ac_max_per_sender);
  ad_state : check_sender_state n s p.(pl_txs) sender (pending_of p.(pl_txs) tx) tx = Ok a.(ad_replaces)
}.

Lemma check_sender_ok now sender k kb sz spam spam' :
  check_sender cfg.(mc_antispam) now sender k kb sz spam = (spam', Ok tt) ->
  cfg.(mc_antispam).(ac_enabled) = true -> k < cfg.(mc_antispam).(ac_max_per_sender).
Proof.
  unfold check_sender. intros H He. rewrite He in H. cbn [negb] in H. destruct (Z.leb_spec (ac_max_per_sender (mc_antispam cfg)) k); [done|]. lia.
Qed.

Lemma basics_ok s tx id size b sender : check_basics cfg n s tx id size = Ok (b, sender) ->
  verify_transaction_signature tx = Ok true /\ address_from_public_key tx.(tx_sender_public_key) n.(n_pubkey_hash) = Ok sender.
Proof.
  unfold check_basics. intros H. apply rbind_ok_inv in H as (f & _ & H). destruct (is_some f); [done|]. destruct (_ || _); [done|].
  apply rbind_ok_inv in H as (u & _ & H). apply rbind_ok_inv in H as (br & _ & H).
  apply rbind_ok_inv in H as (good & Hg & H). destruct (verify_transaction_signature tx) as [g|]; [|done]. cbn in Hg. apply Ok_inj in Hg as ->.
  destruct good; [|done]. cbn [negb] in H. apply rbind_ok_inv in H as (a & Ha & H).
  destruct (address_from_public_key _ _) as [a'|]; [|done]. cbn in Ha. apply Ok_inj in Ha as ->.
  destruct (List.find _ _); [done|]. by apply Ok_inj, pair_eq in H as [_ ->].
Qed.

Lemma validate_ok s now tx p spam a : validate s json_len now tx p = (spam, Ok a) -> exists sender, admitted s p tx a sender.
Proof.
  unfold Mempool.validate. destruct (is_some (pl_txs p !! ostr (tx_id tx))) eqn:Hnew; [done|]. cbn [rbind].
  destruct (check_room _ _ _ _ _ _) as [ev|] eqn:Hroom; cbn [rbind]; [|intros [=]].
  destruct (check_basics _ _ _ _ _ _) as [[br sender]|] eqn:Hb; cbn [rbind]; [|intros [=]].
  apply basics_ok in Hb as [Hsig Hsend].
  set (q := if existsb _ _ then _ else _). destruct q as [sp capped] eqn:Hq. subst q. intros H. apply pair_eq in H as [_ H].
  apply rbind_ok_inv in H as ([] & -> & H). apply rbind_ok_inv in H as (rep & Hst & H). apply Ok_inj in H as <-.
  exists sender. split; [|done|done|done| |done].
  - by destruct (pl_txs p !! ostr (tx_id tx)).
  - intros He Hex. rewrite Hex in Hq. by eapply check_sender_ok.
Qed.

Lemma pending_perm txs tx : pending_of txs tx ≡ₚ List.filter (of_sender tx.(tx_sender_public_key)) (pool_values txs).
Proof. apply sort_by_Permutation. Qed.

Lemma elem_of_pending txs tx t : t ∈ pending_of txs tx <->
  t.(tx_sender_public_key) = tx.(tx_sender_public_key) /\ exists id, txs !! id = Some t.
Proof.
  rewrite pending_perm, list_elem_of_In, filter_In, <-list_elem_of_In, elem_of_values. unfold of_sender. rewrite String.eqb_eq. tauto.
Qed.

Lemma pending_sum (f : Transaction -> Z) txs tx :
  zsum (f <$> pending_of txs tx) = map_sum (when (of_sender tx.(tx_sender_public_key)) f) txs.
Proof.
  rewrite (zsum_perm _ (f <$> List.filter (of_sender tx.(tx_sender_public_key)) (pool_values txs))) by (by rewrite pending_perm).
  by rewrite zsum_filter, values_sum.
Qed.

Lemma state_ok s txs sender pending tx rep : check_sender_state n s txs sender pending tx = Ok rep ->
  find_replaced sender pending tx = Ok rep /\
  check_nonce sender (default 0 (ws_nonce <$> get_wallet s sender)) rep (others pending tx) tx = Ok tt /\
  check_funds n s sender (balance_of (get_wallet s sender)) (others pending tx) tx = Ok tt.
Proof.
  unfold check_sender_state. intros H. apply rbind_ok_inv in H as (r & Hr & H). apply rbind_ok_inv in H as ([] & Hn & H).
  apply rbind_ok_inv in H as (u1 & _ & H). apply rbind_ok_inv in H as (u2 & _ & H). apply rbind_ok_inv in H as ([] & Hf & H).
  by apply Ok_inj in H as ->.
Qed.

(** The replaced transaction is the one with the same sender and nonce. *)
Lemma replaced_ok s p tx a sender : pool_ok p -> admitted s p tx a sender ->
  is_Some tx.(tx_nonce) /\
  match a.(ad_replaces) with
  | Some old => exists t, p.(pl_txs) !! old = Some t /\ t.(tx_sender_public_key) = tx.(tx_sender_public_key) /\ t.(tx_nonce) = tx.(tx_nonce)
                  /\ t.(tx_fee) <= tx.(tx_fee)
  | None => existsb (same_nonce tx) (pending_of p.(pl_txs) tx) = false
  end.
Proof.
  intros Hp [_ _ _ _ _ Hst]. apply state_ok in Hst as (Hr & Hn & _). unfold check_nonce in Hn. unfold find_replaced in Hr.
  destruct (tx_nonce tx) as [k|] eqn:Hk; [|done]. split; [by eexists|].
  destruct (List.find _ _) as [t|] eqn:Hf.
  - apply find_some in Hf as [Hin Hs]. apply list_elem_of_In, elem_of_pending in Hin as [Hpk [id Hid]].
    unfold same_nonce in Hs. apply bool_decide_eq_true in Hs. destruct (Z.ltb_spec (tx_fee tx) (tx_fee t)); [done|].
    apply Ok_inj in Hr as <-. destruct (po_entry _ Hp _ _ Hid) as (-> & _). exists t. split_and!; try done. by rewrite Hs.
  - apply Ok_inj in Hr as <-. apply not_true_is_false. intros He. apply existsb_exists in He as (t & Hin & Hs).
    apply (find_none _ _ Hf) in Hin. congruence.
Qed.

(** ** Making room *)

Definition without (o : option string) p : Pool := match o with Some old => (remove_locked old p).2 | None => p end.
Definition cleared p (a : Admit) : Pool := foldl evict (without a.(ad_replaces) p) a.(ad_evicts).

Lemma without_txs o p : (without o p).(pl_txs) = match o with Some old => delete old p.(pl_txs) | None => p.(pl_txs) end.
Proof. destruct o; [apply remove_locked_txs|done]. Qed.

Lemma without_ok o p : pool_ok p -> pool_ok (without o p) /\ (without o p).(pl_bytes) <= p.(pl_bytes) /\
  (size (without o p).(pl_txs) <= size p.(pl_txs))%nat.
Proof.
  intros Hp. assert (Hok : pool_ok (without o p)) by (destruct o; [by apply remove_locked_ok|done]). split_and!; [done| |].
  - rewrite (po_bytes _ Hok), (po_bytes _ Hp), without_txs. destruct o; [|done]. apply shrink_sum, tx_size_nonneg.
  - rewrite without_txs. destruct o as [old|]; [|done]. rewrite map_size_delete. unfold id. destruct (pl_txs p !! old); lia.
Qed.

Lemma evicts_others s p tx a sender id : admitted s p tx a sender -> id ∈ a.(ad_evicts) ->
  exists t, victim p.(pl_txs) tx (rate tx.(tx_fee) (tx_size tx)) id t.
Proof.
  intros [_ Hroom _ _ _ _] Hin. unfold check_room in Hroom. destruct (_ || _).
  - destruct (negb _); [done|]. apply eviction_spec in Hroom as (l & He & _ & Hl & _). rewrite He in Hin.
    apply list_elem_of_fmap in Hin as (c & -> & Hc). rewrite Forall_forall in Hl. apply Hl, elem_of_candidates in Hc as (t & _ & Hv). eauto.
  - apply Ok_inj in Hroom. rewrite <-Hroom in Hin. by apply elem_of_nil in Hin.
Qed.

(** After clearing, the newcomer fits. *)
Lemma cleared_ok s p tx a sender : pool_ok p -> admitted s p tx a sender ->
  pool_ok (cleared p a) /\
  Z.of_nat (size (cleared p a).(pl_txs)) + 1 <= cfg.(mc_max_size) /\
  (cleared p a).(pl_bytes) + tx_size tx <= cfg.(mc_max_bytes) /\
  forall j, (cleared p a).(pl_txs) !! j = if bool_decide (j ∈ a.(ad_evicts)) then None else (without a.(ad_replaces) p).(pl_txs) !! j.
Proof.
  intros Hp Had. destruct (without_ok a.(ad_replaces) p Hp) as (Hw & Hwb & Hws). set (p1 := without (ad_replaces a) p) in *.
  destruct (replaced_ok _ _ _ _ _ Hp Had) as [_ Hrep].
  assert (Hnot : forall old, a.(ad_replaces) = Some old -> old ∉ a.(ad_evicts)).
  { intros old Ho Hin. rewrite Ho in Hrep. destruct Hrep as (t & Ht & Hpk & _).
    destruct (evicts_others _ _ _ _ _ _ Had Hin) as (u & [Hu Hne _ _]). congruence. }
  assert (Hkeys : forall j, j ∈ a.(ad_evicts) -> p1.(pl_txs) !! j = p.(pl_txs) !! j).
  { intros j Hj. unfold p1. rewrite without_txs. destruct (ad_replaces a) as [old|] eqn:Ho; [|done].
    apply lookup_delete_ne. intros ->. by apply (Hnot j). }
  pose proof (ad_room _ _ _ _ _ Had) as Hroom. unfold check_room in Hroom. pose proof (po_size _ Hp) as Hsz.
  assert (Hev : NoDup a.(ad_evicts) /\ need_slots cfg p <= Z.of_nat (length a.(ad_evicts)) /\
                need_bytes cfg p (tx_size tx) <= sum_keys tx_size p.(pl_txs) a.(ad_evicts)).
  { destruct (_ || _) eqn:Hfull.
    - destruct (negb _); [done|]. apply eviction_spec in Hroom as (l & He & Hnd & _ & Hen & _ & Hsum). split; [done|].
      apply andb_true_iff in Hen as [H1 H2]. apply Z.leb_le in H1, H2. rewrite Hsum, He, length_fmap. done.
    - apply Ok_inj in Hroom. rewrite <-Hroom. apply orb_false_iff in Hfull as [H1 H2]. apply Z.ltb_ge in H1, H2.
      split; [constructor|]. cbn. unfold sum_keys. cbn. lia. }
  destruct Hev as (Hnd & Hs & Hb).
  destruct (evict_all_frees a.(ad_evicts) p1 Hw Hnd) as (F1 & F2 & F3).
  { intros id Hid. rewrite Hkeys by done. destruct (evicts_others _ _ _ _ _ _ Had Hid) as (u & [Hu _ _ _]). eauto. }
  assert (Hsk : sum_keys tx_size p1.(pl_txs) a.(ad_evicts) = sum_keys tx_size p.(pl_txs) a.(ad_evicts)).
  { unfold sum_keys. f_equal. apply list_fmap_ext. intros i j Hj. rewrite Hkeys; [done|]. by eapply list_elem_of_lookup_2. }
  unfold need_slots, need_bytes, sat_sub in *. unfold cleared. fold p1. split_and!; [by apply evict_all_ok| | |exact F1].
  - destruct (Z.leb_spec (mc_max_size cfg) (Z.of_nat (size (pl_txs p)))); lia.
  - lia.
Qed.

Lemma cleared_incl s p tx a sender j t : pool_ok p -> admitted s p tx a sender ->
  (cleared p a).(pl_txs) !! j = Some t -> p.(pl_txs) !! j = Some t /\ a.(ad_replaces) <> Some j.
Proof.
  intros Hp Had Hj. destruct (cleared_ok _ _ _ _ _ Hp Had) as (_ & _ & _ & Hl). rewrite Hl, without_txs in Hj.
  destruct (bool_decide _); [done|]. destruct (ad_replaces a) as [old|]; [|done].
  apply lookup_delete_Some in Hj as [Hne Hj]. split; [done|congruence].
Qed.

(** Nothing left shares the newcomer's nonce. *)
Lemma cleared_nonce s p tx a sender j t : pool_ok p -> admitted s p tx a sender -> (cleared p a).(pl_txs) !! j = Some t ->
  t.(tx_sender_public_key) = tx.(tx_sender_public_key) -> t.(tx_nonce) <> tx.(tx_nonce).
Proof.
  intros Hp Had Hj Hpk Hno. destruct (replaced_ok _ _ _ _ _ Hp Had) as [_ Hrep].
  destruct (cleared_incl _ _ _ _ _ _ _ Hp Had Hj) as [Hj' Hnr]. destruct (ad_replaces a) as [old|].
  - destruct Hrep as (u & Hu & Hpu & Hnu & _). apply Hnr. f_equal. by eapply (po_unique _ Hp old j u t); congruence.
  - apply not_true_iff_false in Hrep. apply Hrep, existsb_exists. exists t. split; [|by apply bool_decide_true].
    apply list_elem_of_In, elem_of_pending. eauto.
Qed.

Lemma cleared_held s p tx a sender pk : pool_ok p -> admitted s p tx a sender -> forall f, (forall t, 0 <= f t) ->
  map_sum (when (of_sender pk) f) (cleared p a).(pl_txs) <= map_sum (when (of_sender pk) f) (without a.(ad_replaces) p).(pl_txs).
Proof.
  intros Hp Had f Hf. unfold cleared. generalize (without (ad_replaces a) p). generalize (ad_evicts a).
  intros l. induction l as [|id l IH]; intros q; cbn [foldl]; [done|]. etransitivity; [apply IH|].
  rewrite (proj1 (evict_remove q id)), remove_locked_txs. apply shrink_sum. intros t. by apply when_nonneg.
Qed.

Lemma admit_ok s p id tx a sender : pool_ok p -> admitted s p tx a sender ->
  tx.(tx_id) = Some id -> transaction_id tx = Ok id -> pool_ok (enter_pool n s json_len id tx a p).
Proof.
  intros Hp Had Hid Hcomp. destruct (cleared_ok _ _ _ _ _ Hp Had) as (Hc & Hs & Hb & Hl).
  destruct (replaced_ok _ _ _ _ _ Hp Had) as [Hn Hrep].
  assert (Hnew : (cleared p a).(pl_txs) !! id = None).
  { rewrite Hl, without_txs. pose proof (ad_new _ _ _ _ _ Had) as H. rewrite Hid in H. change (ostr (Some id)) with id in H.
    destruct (bool_decide _); [done|]. destruct (ad_replaces a); [|done]. apply lookup_delete_None. by right. }
  pose proof (fun j t => cleared_nonce s p tx a sender j t Hp Had) as Hold.
  assert (Hadm : enter_pool n s json_len id tx a p = mkPool (<[id := tx]> (cleared p a).(pl_txs)) (<[id := mkMeta (tip s) (tip s)]> (cleared p a).(pl_meta))
    ((cleared p a).(pl_bytes) + tx_size tx) (cleared p a).(pl_low_fee_rejected) (cleared p a).(pl_expired) (cleared p a).(pl_antispam)) by done.
  rewrite Hadm. clear Hadm. pose proof (fun pk => cleared_held s p tx a sender pk Hp Had (fun _ => 1) ltac:(done)) as Hle.
  generalize dependent (cleared p a). intros q Hc Hs Hb Hl Hnew Hold Hle. destruct Hc as [H1 H2 H3 H4 H5 H6 H7]. split; cbn.
  - intros j t Hj. apply lookup_insert_Some in Hj as [[<- <-]|[_ Hj]]; [|by apply H1]. split_and!; try done. apply Had.
  - intros i j t u Hi Hj Hpk Hno. apply lookup_insert_Some in Hi as [[<- <-]|[Hi0 Hi]], Hj as [[<- <-]|[Hj0 Hj]]; [done| | |by apply (H2 i j t u)].
    + by destruct (Hold j u).
    + by destruct (Hold i t).
  - rewrite map_sum_insert_new by done. lia.
  - by rewrite !dom_insert_L, H4.
  - rewrite map_size_insert_None by done. lia.
  - done.
  - intros He pk. rewrite map_sum_insert_new by done. specialize (H7 He pk). unfold when at 1. unfold of_sender at 1.
    destruct (String.eqb_spec (tx_sender_public_key tx) pk) as [<-|_]; [|lia].
    set (pk := tx_sender_public_key tx) in *. specialize (Hle pk).
    rewrite without_txs in Hle. destruct (ad_replaces a) as [old|].
    + destruct Hrep as (u & Hu & Hpu & _). rewrite (map_sum_delete _ _ _ _ Hu) in Hle. pose proof (po_held _ Hp He pk).
      assert (Hu1 : when (of_sender pk) (fun _ => 1) u = 1) by (unfold when, of_sender; by rewrite Hpu, String.eqb_refl). lia.
    + pose proof (ad_capped _ _ _ _ _ Had He Hrep) as Hcap. rewrite length_zsum, pending_sum in Hcap. fold pk in Hcap. lia.
Qed.

(** ** Operations *)

Lemma own_id tx o : transaction_id (tx_set_id o tx) = transaction_id tx.
Proof. by destruct tx. Qed.

(** The outcomes of one transaction of a batch. *)
Lemma add_one_cases s now p resp errors tx :
  exists p' resp' errors', add_one cfg n s json_len now (p, resp, errors) tx = (p', resp', errors') /\
  ((p'.(pl_txs) = p.(pl_txs) /\ p'.(pl_meta) = p.(pl_meta) /\ p'.(pl_bytes) = p.(pl_bytes)) \/
   exists id a sender spam, transaction_id tx = Ok id /\ admitted s p (tx_set_id (Some id) tx) a sender /\
     p' = enter_pool n s json_len id (tx_set_id (Some id) tx) a (on_antispam (fun _ => spam) p)).
Proof.
  unfold add_one, add_one_at. destruct (transaction_id tx) as [id|e]; [|eexists _, _, _; split; [reflexivity|by left]].
  destruct (opt_test _ _); [eexists _, _, _; split; [reflexivity|by left]|].
  destruct (is_some _); [eexists _, _, _; split; [reflexivity|by left]|].
  destruct (validate s json_len now (tx_set_id (Some id) tx) p) as [spam [a|[code message]]] eqn:Hv.
  - apply validate_ok in Hv as [sender Had]. eexists _, _, _. split; [reflexivity|]. right. by exists id, a, sender, spam.
  - eexists _, _, _. split; [reflexivity|]. by left.
Qed.

Lemma admitted_same s p p' tx a sender : p'.(pl_txs) = p.(pl_txs) -> p'.(pl_bytes) = p.(pl_bytes) ->
  admitted s p tx a sender -> admitted s p' tx a sender.
Proof.
  intros E1 E2 [H1 H2 H3 H4 H5 H6]. split; rewrite ?E1; try done.
  unfold check_room, need_slots, need_bytes, full_text in *. by rewrite E1, E2.
Qed.

Lemma add_one_ok s now st tx : pool_ok st.1.1 -> pool_ok (add_one cfg n s json_len now st tx).1.1.
Proof.
  destruct st as [[p resp] errors]. cbn [fst]. intros Hp.
  destruct (add_one_cases s now p resp errors tx) as (p' & resp' & errors' & -> & [(E1 & E2 & E3)|(id & a & sender & spam & Hid & Had & ->)]); cbn [fst].
  - apply (pool_ok_same p); [done|by rewrite E2|done|done].
  - apply (admit_ok _ _ _ _ _ sender); [by apply (pool_ok_same p)|by apply (admitted_same s p)|done|by rewrite own_id].
Qed.

Lemma add_all_ok s now l st : pool_ok st.1.1 -> pool_ok (foldl (add_one cfg n s json_len now) st l).1.1.
Proof. revert st. induction l as [|tx l IH]; intros st H; cbn; [done|]. apply IH. by apply add_one_ok. Qed.

Lemma add_many_ok s now l origin p : pool_ok p -> pool_ok (add_many_from cfg n s json_len now l origin p).1.1.
Proof.
  intros Hp. unfold add_many_from. destruct (gate _ _ _ _ _) as [spam []]; try by apply (pool_ok_same p).
  pose proof (add_all_ok s now (take (Z.to_nat n0) l) (on_antispam (fun _ => spam) p, response_default, ∅)) as H.
  destruct (foldl _ _ _) as [[p' resp] errors]. cbn in *. by apply (pool_ok_same p'); [..|apply H; by apply (pool_ok_same p)].
Qed.

Lemma purge_ok sender p : pool_ok p -> pool_ok (purge n json_len sender p).1.
Proof. intros Hp. by apply remove_all_ok. Qed.

Lemma drop_stale_remove p q : let p' := drop_stale n json_len p q in let p1 := (remove_locked q.1 p).2 in
  p'.(pl_txs) = p1.(pl_txs) /\ p'.(pl_meta) = p1.(pl_meta) /\ p'.(pl_bytes) = p1.(pl_bytes).
Proof. unfold drop_stale. destruct (remove_locked q.1 p) as [[t|] p1]; [|done]. by destruct q.2. Qed.

Lemma drop_all_ok l p : pool_ok p -> pool_ok (foldl (drop_stale n json_len) p l).
Proof.
  revert p. induction l as [|q l IH]; intros p Hp; cbn [foldl]; [done|]. apply IH.
  destruct (drop_stale_remove p q) as (E1 & E2 & E3). apply (pool_ok_same (remove_locked q.1 p).2); [done|by rewrite E2|done|].
  by apply remove_locked_ok.
Qed.

Lemma dom_touch (f : PendingMeta -> PendingMeta) l (m : gmap string PendingMeta) : dom (foldl (fun m id => alter f id m) m l) = dom m.
Proof. revert m. induction l as [|id l IH]; intros m; cbn; [done|]. by rewrite IH, dom_alter_L. Qed.

Lemma prune_ok s now p : pool_ok p -> pool_ok (prune_confirmed cfg n s json_len now p).1.
Proof.
  intros Hp. unfold prune_confirmed. cbn [fst]. set (l := omap _ _). set (p1 := foldl _ _ l).
  assert (H1 : pool_ok p1) by (apply drop_all_ok; by apply (pool_ok_same p)).
  apply (pool_ok_same p1); [done|cbn; apply dom_touch|done..].
Qed.

Lemma pool_new_ok now : 0 <= cfg.(mc_max_size) -> 0 <= cfg.(mc_max_bytes) -> 0 <= cfg.(mc_antispam).(ac_max_per_sender) -> pool_ok (pool_new now).
Proof. intros H1 H2 H3. split; cbn; done. Qed.

(** Everything that happens to a pool; the chain may have moved between two steps. *)
Inductive pool_reach : Pool -> Prop :=
| reach_new now : pool_reach (pool_new now)
| reach_add s now l origin p : pool_reach p -> pool_reach (add_many_from cfg n s json_len now l origin p).1.1
| reach_purge sender p : pool_reach p -> pool_reach (purge n json_len sender p).1
| reach_prune s now p : pool_reach p -> pool_reach (prune_confirmed cfg n s json_len now p).1.

(** C11: the pool is in order after any sequence of batches (from peers or clients, on whatever chain),
    purges and housekeeping, one call at a time: every entry is stored under the id of its bytes and carries a valid
    signature; a sender, that is one spelling of a public key, has one entry per nonce and no more entries than
    [max_per_sender]; the byte count is exact; and neither the number of entries of the pool nor their bytes exceed its
    limits. *)
Theorem pool_invariant p (H : pool_reach p)
    (H1 : 0 <= cfg.(mc_max_size)) (H2 : 0 <= cfg.(mc_max_bytes)) (H3 : 0 <= cfg.(mc_antispam).(ac_max_per_sender)) : pool_ok p.
Proof. induction H; [by apply pool_new_ok|by apply add_many_ok|by apply purge_ok|by apply prune_ok]. Qed.

(** A full pool gives way only to a better fee.  Whoever is evicted for a newcomer is somebody
    else's transaction, pays strictly less per byte, and has its sender's highest pending nonce;
    what is evicted frees the slots and bytes asked for, and without the last victim it would not. *)
Theorem evicted_pay_less txs tx size slots bytes out
    (H : eviction_candidates n json_len txs tx size slots bytes = Ok out) :
  NoDup out /\ (forall id, id ∈ out -> exists t, victim txs tx (rate tx.(tx_fee) size) id t) /\
  slots <= Z.of_nat (length out) /\ bytes <= sum_keys tx_size txs out /\
  (forall o v, out = o ++ [v] -> Z.of_nat (length o) < slots \/ sum_keys tx_size txs o < bytes).
Proof.
  apply eviction_spec in H as (l & -> & Hnd & Hin & Hen & Hmin & Hsum). rewrite Forall_forall in Hin.
  apply andb_true_iff in Hen as [H1 H2]. apply Z.leb_le in H1, H2. split_and!; [done| |by rewrite length_fmap|by rewrite Hsum|].
  - intros id Hid. apply list_elem_of_fmap in Hid as (c & -> & Hc). apply Hin, elem_of_candidates in Hc as (t & _ & Hv). eauto.
  - intros o v Ho. destruct (fmap_app_inv _ _ _ _ Ho) as (l1 & l2 & E1 & E2 & E3).
    destruct l2 as [|c [|]]; try done. specialize (Hmin l1 c E3). apply andb_false_iff in Hmin as [Hm|Hm]; apply Z.leb_gt in Hm.
    + left. by rewrite E1, length_fmap.
    + right. rewrite E1. enough (sum_keys tx_size txs (c_id <$> l1) = zsum (c_bytes <$> l1)) as -> by done.
      unfold sum_keys. f_equal. rewrite <-list_fmap_compose. apply list_fmap_ext. intros i c' Hc'. cbn.
      assert (Hl : c' ∈ l) by (rewrite E3; apply elem_of_app; left; by eapply list_elem_of_lookup_2).
      apply Hin, elem_of_candidates in Hl as (t & He & Hv). rewrite (vi_entry _ _ _ _ _ Hv). cbn. unfold c_bytes. by rewrite He.
Qed.

(** ** Funds *)

#[local] Abbreviation pool_spent := (pool_spent n).

(** Everything a sender has pending is covered by what it has. *)
Record funded s p : Prop := {
  fu_pos : map_Forall (fun _ t => 0 <= pool_spent s t) p.(pl_txs);
  fu_cover : forall pk a, address_from_public_key pk n.(n_pubkey_hash) = Ok a ->
    map_sum (when (of_sender pk) (pool_spent s)) p.(pl_txs) <= Z.max 0 (balance_of (get_wallet s a))
}.

Lemma funded_sub s p p' : p'.(pl_txs) ⊆ p.(pl_txs) -> funded s p -> funded s p'.
Proof.
  intros Hsub [H1 H2]. split.
  - intros j t Hj. eapply (H1 j t), lookup_weaken; done.
  - intros pk a Ha. etransitivity; [apply map_sum_subseteq; [exact Hsub|]|by apply H2].
    intros j t Hj. unfold when. destruct (of_sender pk t); [by apply (H1 j t)|done].
Qed.

Lemma funds_ok s sender b pending tx : check_funds n s sender b pending tx = Ok tt ->
  zsum (pool_spent s <$> pending) + pool_spent s tx <= b.
Proof. unfold check_funds. destruct (Z.ltb_spec (b - zsum (pool_spent s <$> pending)) (pool_spent s tx)); [done|]. lia. Qed.

Lemma admit_funded s p id tx a sender : pool_ok p -> funded s p -> admitted s p tx a sender ->
  tx.(tx_id) = Some id -> 0 <= pool_spent s tx -> funded s (enter_pool n s json_len id tx a p).
Proof.
  intros Hp Hf Had Hid Hpos. destruct (cleared_ok _ _ _ _ _ Hp Had) as (_ & _ & _ & Hl).
  assert (Hsub : (cleared p a).(pl_txs) ⊆ p.(pl_txs)).
  { apply map_subseteq_spec. intros j t Hj. by eapply cleared_incl. }
  pose proof (fun j t => cleared_nonce s p tx a sender j t Hp Had) as Hold.
  assert (Htx : (enter_pool n s json_len id tx a p).(pl_txs) = <[id := tx]> (cleared p a).(pl_txs)) by done.
  pose proof (funded_sub _ _ _ Hsub Hf) as [C1 C2]. destruct (state_ok _ _ _ _ _ _ (ad_state _ _ _ _ _ Had)) as (_ & _ & Hfu).
  apply funds_ok in Hfu. unfold others in Hfu.
  rewrite zsum_filter, pending_sum in Hfu. set (g := when (of_sender _) _) in Hfu.
  assert (Hg : map_sum g (cleared p a).(pl_txs) <= map_sum g p.(pl_txs)).
  { apply map_sum_subseteq; [done|]. intros j t Hj. unfold g, when. destruct (of_sender (tx_sender_public_key tx) t); [|done].
    destruct (negb (same_nonce tx t)); [|done]. by apply (fu_pos _ _ Hf j t). }
  assert (Hnew : (cleared p a).(pl_txs) !! id = None).
  { apply eq_None_not_Some. intros [t Ht]. eapply lookup_weaken in Ht; [|exact Hsub].
    pose proof (ad_new _ _ _ _ _ Had) as H. rewrite Hid in H. change (ostr (Some id)) with id in H. congruence. }
  split; rewrite Htx; [by apply map_Forall_insert_2|]. intros pk b Hb. rewrite map_sum_insert_new by done. unfold when at 1, of_sender at 1.
  destruct (String.eqb_spec (tx_sender_public_key tx) pk) as [<-|_]; [|specialize (C2 pk b Hb); lia].
  rewrite (ad_sender _ _ _ _ _ Had) in Hb. apply Ok_inj in Hb as <-.
  rewrite (map_sum_ext (when (of_sender (tx_sender_public_key tx)) (pool_spent s)) g); [lia|].
  intros j t Hj. unfold g, when. destruct (of_sender _ t) eqn:Ho; [|done]. apply String.eqb_eq in Ho.
  unfold same_nonce. rewrite bool_decide_false; [done|]. by apply (Hold j).
Qed.

Lemma add_all_funded s now l st : pool_ok st.1.1 -> funded s st.1.1 -> Forall (fun tx => 0 <= pool_spent s tx) l ->
  funded s (foldl (add_one cfg n s json_len now) st l).1.1.
Proof.
  revert st. induction l as [|tx l IH]; intros st Hp Hf Hl; cbn [foldl]; [done|]. apply Forall_cons in Hl as [Htx Hl].
  apply IH; [by apply add_one_ok| |done]. destruct st as [[p resp] errors]. cbn [fst] in *.
  destruct (add_one_cases s now p resp errors tx) as (p' & resp' & errors' & -> & [(E1 & E2 & E3)|(id & a & sender & spam & Hid & Had & ->)]); cbn [fst].
  - apply (funded_sub s p); [by rewrite E1|done].
  - apply (admit_funded _ _ _ _ _ sender); [by apply (pool_ok_same p)|by apply (funded_sub s p)|by apply (admitted_same s p)|done|].
    by destruct tx.
Qed.

(** C27: no key promises more than its address has.  While the chain stands still, a batch (from anybody), taken in one call
    at a time, keeps the pool solvent: for every spelling of a public key, the amounts, fees, payments and purchase prices of
    all transactions pending under it together are covered by the balance of its address, so no two of them spend the
    same coins.  Two spellings of one key are not added up ([MempoolDemo.two_spellings_two_senders]). *)
Theorem pool_solvent s now l origin p
    (Hp : pool_ok p) (Hf : funded s p) (Hl : Forall (fun tx => 0 <= pool_spent s tx) l) :
  funded s (add_many_from cfg n s json_len now l origin p).1.1.
Proof.
  unfold add_many_from. destruct (gate _ _ _ _ _) as [spam []]; try by apply (funded_sub s p).
  pose proof (add_all_funded s now (take (Z.to_nat n0) l) (on_antispam (fun _ => spam) p, response_default, ∅)) as H.
  destruct (foldl _ _ _) as [[p' resp] errors]. cbn [fst] in *. apply (funded_sub s p'); [done|]. apply H.
  - by apply (pool_ok_same p).
  - by apply (funded_sub s p).
  - by apply Forall_take.
Qed.

(** ** Nonces *)

(** A gap is not filled.  When a sender has pending transactions but not the one with its next
    nonce (it expired or aged out, or went with a purge), the transaction with the next nonce is
    refused, whatever it pays, as long as any of the others is pending: the pool expects the chain
    nonce plus one plus the number of pending transactions. *)
Theorem missing_nonce_refused s now p tx sender
    (Ha : address_from_public_key tx.(tx_sender_public_key) n.(n_pubkey_hash) = Ok sender)
    (c := default 0 (ws_nonce <$> get_wallet s sender))
    (Hc : 0 <= c) (Hn : tx.(tx_nonce) = Some (c + 1))
    (Hgap : existsb (same_nonce tx) (pending_of p.(pl_txs) tx) = false)
    (Hlen : 1 <= Z.of_nat (length (pending_of p.(pl_txs) tx)))
    (Hmax : c + 1 + Z.of_nat (length (pending_of p.(pl_txs) tx)) <= u64_max) :
  exists code message, (validate s json_len now tx p).2 = Err (code, message).
Proof.
  destruct (validate s json_len now tx p) as [spam [a|[code message]]] eqn:Hv; [|by exists code, message]. exfalso.
  apply validate_ok in Hv as [sender' Had]. assert (sender' = sender) as -> by (pose proof (ad_sender _ _ _ _ _ Had); congruence).
  apply ad_state, state_ok in Had as (Hr & Hck & _).
  assert (Hfind : List.find (same_nonce tx) (pending_of (pl_txs p) tx) = None).
  { destruct (List.find _ _) as [t|] eqn:Hf; [|done]. apply find_some in Hf as [Hin Hs]. apply not_true_iff_false in Hgap.
    exfalso. apply Hgap, existsb_exists. eauto. }
  unfold find_replaced in Hr. rewrite Hn, Hfind in Hr. apply Ok_inj in Hr. rewrite <-Hr in Hck.
  assert (Hot : others (pending_of (pl_txs p) tx) tx = pending_of (pl_txs p) tx).
  { unfold others. revert Hgap. generalize (pending_of (pl_txs p) tx). intros l. induction l as [|t l IH]; cbn; [done|].
    intros H. apply orb_false_iff in H as [H1 H2]. rewrite H1. cbn. by rewrite IH. }
  unfold check_nonce in Hck. rewrite Hn, Hot in Hck. cbn [is_some is_none negb orb] in Hck. unfold expected_nonce in Hck.
  rewrite (as_u64_id (_ + 1)) in Hck by (bounds; subst c; lia). rewrite as_u64_id in Hck by (bounds; subst c; lia).
  destruct (Z.eqb_spec (c + 1) (c + 1 + Z.of_nat (length (pending_of (pl_txs p) tx)))); [lia|]. subst c.
  by destruct (_ =? _) eqn:He in Hck; [apply Z.eqb_eq in He; lia|].
Qed.

(** ** Housekeeping *)

Lemma drop_all_lookup l : forall p j, (foldl (drop_stale n json_len) p l).(pl_txs) !! j =
  if bool_decide (j ∈ fst <$> l) then None else p.(pl_txs) !! j.
Proof.
  induction l as [|q l IH]; intros p j; cbn [foldl]; [done|]. rewrite IH, (proj1 (drop_stale_remove p q)), remove_locked_txs.
  cbn [fmap list_fmap]. destruct (decide (j = q.1)) as [->|Hne].
  - rewrite lookup_delete_eq. rewrite (bool_decide_true (q.1 ∈ q.1 :: _)) by left. by destruct (bool_decide _).
  - rewrite lookup_delete_ne by done. destruct (decide (j ∈ fst <$> l)).
    + rewrite !bool_decide_true; [done|by right|done].
    + rewrite !bool_decide_false; [done|by apply not_elem_of_cons|done].
Qed.

(** Housekeeping drops exactly the transactions that are forged, carry a nonce the sender has
    used, have expired or are too old, and keeps every other one; it announces again exactly the kept
    ones whose last announcement is [rebroadcast_blocks] old. *)
Theorem prune_exact s now p :
  let '(p', again) := prune_confirmed cfg n s json_len now p in
  (forall id t, p'.(pl_txs) !! id = Some t <-> p.(pl_txs) !! id = Some t /\ drop_reason cfg n s p.(pl_meta) id t = None) /\
  (forall id, id ∈ again <-> is_Some (p'.(pl_txs) !! id) /\ rebroadcast_due cfg s p.(pl_meta) id = true).
Proof.
  unfold prune_confirmed. cbn [pl_txs pl_meta on_antispam]. set (stale := omap _ _).
  assert (Hst : forall id, id ∈ fst <$> stale <-> exists t, p.(pl_txs) !! id = Some t /\ drop_reason cfg n s p.(pl_meta) id t <> None).
  { intros id. unfold stale. rewrite list_elem_of_fmap. split.
    - intros ([i r] & -> & Hin). apply list_elem_of_omap in Hin as ([j t] & Hin & Hr). cbn in Hr.
      destruct (drop_reason _ _ _ _ j t) as [r'|] eqn:Hd; cbn in Hr; [|done]. injection Hr as <- <-. exists t.
      cbn [fst]. split; [|congruence]. apply elem_of_map_to_list. by rewrite <-(hm_iter_perm (pl_txs p)).
    - intros (t & Ht & Hd). destruct (drop_reason _ _ _ _ id t) as [r|] eqn:Hr; [|done]. exists (id, r). split; [done|].
      apply list_elem_of_omap. exists (id, t). cbn. rewrite Hr. split; [|done]. rewrite (hm_iter_perm (pl_txs p)). by apply elem_of_map_to_list. }
  assert (Hkeep : forall id t, (foldl (drop_stale n json_len) (on_antispam (gc now) p) stale).(pl_txs) !! id = Some t <->
    p.(pl_txs) !! id = Some t /\ drop_reason cfg n s p.(pl_meta) id t = None).
  { intros id t. rewrite drop_all_lookup. cbn [pl_txs on_antispam]. destruct (bool_decide_reflect (id ∈ fst <$> stale)) as [Hin|Hin].
    - apply Hst in Hin as (u & Hu & Hd). split; [done|]. intros [Ht Hn]. congruence.
    - split; [|by intros [? _]]. intros Ht. split; [done|]. destruct (drop_reason _ _ _ _ id t) eqn:Hd; [|done].
      exfalso. apply Hin, Hst. exists t. by rewrite Hd. }
  split; [exact Hkeep|]. intros id. rewrite list_elem_of_omap. cbn [pl_txs]. split.
  - intros ([j t] & Hin & Hr). cbn [fst snd] in Hr. destruct (drop_reason _ _ _ _ j t) eqn:Hd; [done|].
    destruct (rebroadcast_due _ _ _ j) eqn:Hdue; [|done]. injection Hr as ->. split; [|done]. exists t. apply Hkeep. split; [|done].
    apply elem_of_map_to_list. by rewrite <-(hm_iter_perm (pl_txs p)).
  - intros [[t Ht] Hdue]. apply Hkeep in Ht as [Ht Hd]. exists (id, t). cbn [fst snd]. rewrite Hd, Hdue. split; [|done].
    rewrite (hm_iter_perm (pl_txs p)). by apply elem_of_map_to_list.
Qed.
End facts.
