(* ===== verification/Intake.v ===== *)
(** * Where blocks come from

    [src/src/intake.rs]: the statistics of arriving blocks, the stall and split detectors, and the
    exchange of the tip for the block of an earlier slot.  The two process-wide records are values
    handed from call to call; clocks are arguments (milliseconds or seconds since 1970, and for the
    watchdog a monotone clock in milliseconds).  Log lines and alerts are not modelled. *)

From S2P Require Import Prelude Models Env Bytes Crypto Config TxCodec BlockCodec Wallet Rules Round Tree Storage StorageFacts Deltas Chain ChainFacts.
From S2P Require Import ChainRounds.

(** ** Records *)

Inductive Source : Type := PullLegacy | PushLegacy | GossipIroh | Forged.
#[export] Instance source_eq_dec : EqDecision Source.
Proof. solve_decision. Defined.

Definition label (s : Source) : string :=
  match s with
  | PullLegacy => "pull/legacy" | PushLegacy => "push/legacy" | GossipIroh => "gossip/iroh" | Forged => "forged"
  end.

Record LastBlock : Type := mkLastBlock { lb_height : Z; lb_source : Source; lb_label : string; lb_peer : string; lb_delay_ms : Z }.
Record Origin : Type := mkOrigin { og_height : Z; og_source : Source; og_peer : string; og_generator : string }.
Record EarlyBlock : Type := mkEarly {
  ea_height : Z; ea_generator : string; ea_username : option string; ea_source : option Source; ea_early_ms : Z; ea_at_unix : Z
}.

Record Intake : Type := mkIntake {
  it_last : option LastBlock;
  it_delays : list (Source * Z);
  it_origins : list Origin;
  it_earliest : option EarlyBlock;
  it_future_rejected : Z;
  it_last_future : option EarlyBlock;
  it_last_future_id : option string
}.

Definition intake_default : Intake := mkIntake None [] [] None 0 None None.

Definition WINDOW : nat := 100.
Definition ORIGINS : nat := 210.

(** [if q.len() == cap { q.pop_front() } q.push_back(x)]. *)
Definition push_bounded {A} (cap : nat) (x : A) (q : list A) : list A :=
  (if (length q =? cap)%nat then tail q else q) ++ [x].

Section intake.
Context `{E : Env}.
Variables (n : Network).
Implicit Types (i : Intake).

(** A discarded future block is counted once, however many paths offer it again. *)
Definition note_future_block (now_ms : Z) (s : Store) (block : Block) (early_ms : Z) i : Intake :=
  let username := match res_ok (address_from_public_key block.(b_generator_public_key) n.(n_pubkey_hash)) with
                  | Some a => get_wallet s a ≫= ws_username
                  | None => None
                  end in
  let early := mkEarly block.(b_height) block.(b_generator_public_key) username None early_ms (now_ms ÷ 1000) in
  if is_some i.(it_last_future_id) && bool_decide (i.(it_last_future_id) = block.(b_id)) then i
  else mkIntake i.(it_last) i.(it_delays) i.(it_origins) i.(it_earliest) (as_u64 (i.(it_future_rejected) + 1)) (Some early) block.(b_id).

(** A block that entered the chain live. *)
Definition record (now_ms : Z) (source : Source) (peer : string) (height block_epoch : Z) (generator : string) i : Intake :=
  let delay_ms := now_ms - epoch_to_unix n block_epoch * 1000 in
  let earliest :=
    if negb (bool_decide (source = Forged)) && (delay_ms <? 0)
       && match i.(it_earliest) with Some e => e.(ea_early_ms) <? - delay_ms | None => true end
    then Some (mkEarly height generator None (Some source) (- delay_ms) (now_ms ÷ 1000))
    else i.(it_earliest) in
  mkIntake (Some (mkLastBlock height source (label source) peer delay_ms))
    (push_bounded WINDOW (source, delay_ms) i.(it_delays))
    (push_bounded ORIGINS (mkOrigin height source peer generator) i.(it_origins))
    earliest i.(it_future_rejected) i.(it_last_future) i.(it_last_future_id).
End intake.

(** Per generator: blocks seen, and whether all of them came from plain legacy peers. *)
Definition via_legacy (rust_ws : gset string) (o : Origin) : bool :=
  match o.(og_source) with PullLegacy | PushLegacy => bool_decide (o.(og_peer) ∉ rust_ws) | _ => false end.
Definition legacy_evidence (rust_ws : gset string) (origins : list Origin) : gmap string (Z * bool) :=
  foldl (fun seen o =>
      let '(k, all) := default (0, true) (seen !! o.(og_generator)) in
      <[o.(og_generator) := (as_u32 (k + 1), all && via_legacy rust_ws o)]> seen) ∅ origins.

(** Most negative delay of the received blocks, as a positive lag. *)
Definition skew_hint (received : list Z) : Z :=
  match received with [] => 0 | d :: ds => Z.max (- foldl Z.min d ds) 0 end.

Definition avg (xs : list Z) : option Z :=
  match xs with [] => None | _ => Some (zsum xs ÷ Z.of_nat (length xs)) end.
Definition delays_of (s : Source) (i : Intake) : list Z :=
  snd <$> List.filter (fun p => bool_decide (p.1 = s)) i.(it_delays).

Record IntakeSnapshot : Type := mkIntakeSnapshot {
  is_last : option LastBlock; is_avg_delay_ms : option Z; is_samples : Z; is_by_source : list (string * Z * option Z);
  is_clock_skew_hint_ms : Z; is_earliest : option EarlyBlock; is_future_count : Z; is_future_last : option EarlyBlock
}.

Definition snapshot (i : Intake) : IntakeSnapshot :=
  let all := snd <$> i.(it_delays) in
  let by_source := omap (fun s => match delays_of s i with
                           | [] => None
                           | xs => Some (label s, Z.of_nat (length xs), avg xs)
                           end) [PullLegacy; PushLegacy; GossipIroh; Forged] in
  mkIntakeSnapshot i.(it_last) (avg all) (Z.of_nat (length all)) by_source
    (skew_hint (snd <$> List.filter (fun p => negb (bool_decide (p.1 = Forged))) i.(it_delays)))
    i.(it_earliest) i.(it_future_rejected) i.(it_last_future).

(** ** Stalls *)

Record StallReason : Type := mkStallReason { sr_kind : string; sr_peer : string; sr_detail : string; sr_height : Z; sr_at_unix : Z }.
Record LastStall : Type := mkLastStall {
  ls_height : Z; ls_seconds : Z; ls_network_height : Z; ls_recovered_height : Z; ls_ended_at_unix : Z
}.
Record Stall : Type := mkStall {
  sl_stalled : bool; sl_height : Z; sl_seconds : Z; sl_network_height : Z; sl_peers_ahead : Z; sl_alerts : Z;
  sl_last_reason : option StallReason; sl_last_stall : option LastStall
}.
Definition stall_default : Stall := mkStall false 0 0 0 0 0 None None.

Definition note_stall_reason (now : Z) (kind peer detail : string) (height : Z) (s : Stall) : Stall :=
  mkStall s.(sl_stalled) s.(sl_height) s.(sl_seconds) s.(sl_network_height) s.(sl_peers_ahead) s.(sl_alerts)
    (Some (mkStallReason kind peer detail height now)) s.(sl_last_stall).
Definition note_stall_recovered (now height seconds network_height recovered_height : Z) (s : Stall) : Stall :=
  mkStall s.(sl_stalled) s.(sl_height) s.(sl_seconds) s.(sl_network_height) s.(sl_peers_ahead) s.(sl_alerts)
    s.(sl_last_reason) (Some (mkLastStall height seconds network_height recovered_height now)).

Definition STALL_SLOTS : Z := 3.
Definition SPLIT_BLOCKS : Z := 42.
Definition SPLIT_AFTER_SECS : Z := 300.

(** The split detector: number of peers behind and the best height among the answering ones. *)
Definition legacy_split (tip : Z) (legacy_heights : list Z) : option (Z * Z) :=
  let answering := List.filter (fun h => 0 <? h) legacy_heights in
  if (length answering <? 3)%nat then None else
  let behind := Z.of_nat (length (List.filter (fun h => h + SPLIT_BLOCKS <? tip) answering)) in
  let best := foldl Z.max 0 answering in
  if (Z.of_nat (length answering) * 4 <=? behind * 5) && (best + SPLIT_BLOCKS <? tip) then Some (behind, best) else None.

(** One watchdog step; [now] and the second part of [last_move] are the monotone clock in nanoseconds. *)
Definition NANOS : Z := 1000000000.
Definition stall_check (tip : Z) (ahead : Z * Z) (blocktime now : Z) (last_move : Z * Z) (s : Stall) : bool * (Z * Z) * Stall :=
  let last_move := if tip =? last_move.1 then last_move else (tip, now) in
  let seconds := sat_sub now last_move.2 / NANOS in
  let stalled := (0 <? ahead.1) && (STALL_SLOTS * Z.max blocktime 1 <=? seconds) in
  let fired := stalled && negb s.(sl_stalled) in
  (fired, last_move,
   if negb (Bool.eqb stalled s.(sl_stalled)) || stalled
   then mkStall stalled tip seconds ahead.2 ahead.1 (as_u64 (s.(sl_alerts) + (if fired then 1 else 0))) s.(sl_last_reason) s.(sl_last_stall)
   else mkStall s.(sl_stalled) s.(sl_height) 0 s.(sl_network_height) s.(sl_peers_ahead) s.(sl_alerts) s.(sl_last_reason) s.(sl_last_stall)).

(** Where the recovery of a fork rolls back to: never below the latest certificate. *)
Definition rollback_target (s : Store) (tip fork_depth : Z) : Z :=
  let floor := default 0 (fc_height <$> latest_finality_cert s) in
  Z.max (Z.max (sat_sub tip fork_depth) 1) (Z.min floor (sat_sub tip 1)).
Definition next_fork_depth (fork_depth : Z) : Z := Z.min (fork_depth * 3) UNDO_DEPTH.

(** ** The block of the earlier slot *)

Section prefer.
Context `{E : Env}.
Variables (n : Network).

(** [prefer_earlier_slot]: whether the tip was exchanged. *)
Definition swap_tip (undo_enabled : bool) (s : Store) (ours theirs : Block) (tip : Z) : Store * bool :=
  match rollback_to n s (sat_sub tip 1) with
  | (s, Err _) => (s, false)
  | (s, Ok _) =>
      match apply_blocks n s [theirs] undo_enabled with
      | (s, Done) => (s, true)
      | (s, Failed _) => ((apply_blocks n s [ours] undo_enabled).1, false)
      | (s, Panicked) => (s, false)
      end
  end.

Definition prefer_earlier_slot (undo_enabled : bool) (s : Store) (ours theirs : Block) : Store * bool :=
  let tip := get_last_height s in
  if negb (ours.(b_height) =? tip) || negb (theirs.(b_height) =? tip) || (ours.(b_timestamp) <=? theirs.(b_timestamp))
     || negb (String.eqb theirs.(b_previous_block) ours.(b_previous_block)) then (s, false) else
  match verify_block_signature theirs with
  | Ok true =>
      if opt_test (fun c => tip <=? c.(fc_height)) (latest_finality_cert s) then (s, false)
      else swap_tip undo_enabled s ours theirs tip
  | _ => (s, false)
  end.
End prefer.

(** ** The block of the earlier slot wins *)

Section prefer.
Context `{E : Env} (n : Network).
Implicit Types (s : Store) (ours theirs : Block).

(** When the tip may be exchanged. *)
Record exchangeable s ours theirs : Prop := {
  ex_ours : ours.(b_height) = get_last_height s;
  ex_theirs : theirs.(b_height) = get_last_height s;
  ex_earlier : theirs.(b_timestamp) < ours.(b_timestamp);
  ex_parent : theirs.(b_previous_block) = ours.(b_previous_block);
  ex_signed : verify_block_signature theirs = Ok true;
  ex_open : forall c, latest_finality_cert s = Some c -> c.(fc_height) < get_last_height s
}.

Lemma prefer_cases u s ours theirs :
  prefer_earlier_slot n u s ours theirs = (s, false) \/
  (exchangeable s ours theirs /\ prefer_earlier_slot n u s ours theirs = swap_tip n u s ours theirs (get_last_height s)).
Proof.
  unfold prefer_earlier_slot. destruct (Z.eqb_spec (b_height ours) (get_last_height s)); [|by left].
  destruct (Z.eqb_spec (b_height theirs) (get_last_height s)); [|by left].
  destruct (Z.leb_spec (b_timestamp ours) (b_timestamp theirs)); [by left|].
  destruct (String.eqb_spec (b_previous_block theirs) (b_previous_block ours)); [|by left]. cbn [negb orb].
  destruct (verify_block_signature theirs) as [[]|] eqn:Hv; [|by left..].
  destruct (latest_finality_cert s) as [c|] eqn:Hc; cbn [opt_test].
  - destruct (Z.leb_spec (get_last_height s) (fc_height c)); [by left|]. right. split; [|done]. split; try done. intros c' Hc'. rewrite Hc in Hc'. by injection Hc' as <-.
  - right. split; [|done]. split; try done. intros c' Hc'. by rewrite Hc in Hc'.
Qed.

Lemma swapped_tip u s ours theirs s' tip : swap_tip n u s ours theirs tip = (s', true) ->
  exists s1 t, rollback_to n s (sat_sub tip 1) = (s1, Ok t) /\ apply_block n s1 theirs u = (s', Done).
Proof.
  unfold swap_tip. destruct (rollback_to n s _) as [s1 [t|e]] eqn:Hr; [|done]. intros H. exists s1, t. split; [done|].
  unfold apply_block. destruct (apply_blocks n s1 [theirs] u) as [s2 []]; [by apply pair_eq in H as [-> _]|..]; done.
Qed.

(** C23: the block of the earlier slot wins, for good.  The tip is exchanged only for a block at its
    height with the same parent, an earlier time and a signature of the key it names, and never once a
    certificate covers it; the height stays what it was and the new tip is not exchanged back for the
    old one, so two nodes that show each other their blocks end up with the same one. *)
Theorem earlier_slot_wins u s ours theirs s'
    (H : prefer_earlier_slot n u s ours theirs = (s', true)) (Ht : 2 <= get_last_height s < u64_max) :
  exchangeable s ours theirs /\ get_last_height s' = get_last_height s /\
  is_Some (s'.(st_blocks) !! get_last_height s) /\
  forall u', prefer_earlier_slot n u' s' theirs ours = (s', false).
Proof.
  destruct (prefer_cases u s ours theirs) as [Hf|[Hx He]]; [by rewrite Hf in H|]. rewrite He in H. pose proof Hx as [_ Hh Hlt _ _ _].
  apply swapped_tip in H as (s1 & t & Hr & Ha). apply rollback_go_reaches in Hr as [-> Hr]; [|done|unfold sat_sub; lia|lia].
  assert (H1 : get_last_height s1 = get_last_height s - 1) by (rewrite Hr; unfold sat_sub; lia).
  apply apply_one_state in Ha as (b' & enc & ds & s2 & ur & out & _ & _ & _ & _ & _ & _ & B1 & _ & _ & L1).
  assert (Hl : get_last_height s' = get_last_height s).
  { unfold get_last_height at 1. rewrite L1, Hh, H1. destruct (Z.ltb_spec (get_last_height s - 1) (get_last_height s)); [done|lia]. }
  split_and!; [done|done|rewrite B1, Hh, lookup_insert_eq; by eexists|].
  intros u'. destruct (prefer_cases u' s' theirs ours) as [|[[_ _ Hlt' _ _ _] _]]; [done|lia].
Qed.
End prefer.

(** ** The split detector *)

Lemma foldl_max_spec l : forall x, x <= foldl Z.max x l /\ Forall (fun y => y <= foldl Z.max x l) l.
Proof.
  induction l as [|y l IH]; intros x; cbn [foldl]; [split; [lia|constructor]|]. destruct (IH (Z.max x y)) as [H1 H2].
  split; [lia|]. constructor; [lia|done].
Qed.

Lemma foldl_max_in l : forall x, foldl Z.max x l = x \/ foldl Z.max x l ∈ l.
Proof.
  induction l as [|y l IH]; intros x; cbn [foldl]; [by left|]. destruct (IH (Z.max x y)) as [->|H]; [|right; by right].
  destruct (Z.max_spec x y) as [[_ ->]|[_ ->]]; [right; left|by left].
Qed.

Definition answering (hs : list Z) : list Z := List.filter (fun h => 0 <? h) hs.

(** The split alarm needs all peers, not four fifths of them.  It is raised exactly when at least
    three peers answer and every one of them is more than 42 blocks behind: the best height has to be
    behind as well, so the share of peers behind is never what decides. *)
Theorem legacy_split_exact tip hs k best :
  legacy_split tip hs = Some (k, best) <->
  (3 <= length (answering hs))%nat /\ Forall (fun h => h + SPLIT_BLOCKS < tip) (answering hs) /\
  k = Z.of_nat (length (answering hs)) /\ best ∈ answering hs /\ Forall (fun h => h <= best) (answering hs).
Proof.
  unfold legacy_split. fold (answering hs). set (l := answering hs).
  assert (Hpos : Forall (fun h => 0 < h) l).
  { apply Forall_forall. intros h Hh. apply list_elem_of_In, filter_In in Hh as [_ Hh]. by apply Z.ltb_lt. }
  destruct (foldl_max_spec l 0) as [_ Hle]. pose proof (foldl_max_in l 0) as Hin.
  destruct (Nat.ltb_spec (length l) 3) as [H3|H3]; [split; [done|intros [? _]; lia]|].
  assert (Hm : foldl Z.max 0 l ∈ l).
  { destruct Hin as [Hz|]; [|done]. destruct l as [|h l']; cbn [length] in H3; [lia|]. apply Forall_cons in Hle as [Hle _].
    apply Forall_cons in Hpos as [Hpos _]. rewrite Hz in Hle. lia. }
  set (b := foldl Z.max 0 l) in *. unfold SPLIT_BLOCKS. destruct (Z.ltb_spec (b + 42) tip) as [Hb|Hb].
  - assert (Hall : Forall (fun h => h + 42 < tip) l) by (eapply Forall_impl; [exact Hle|]; cbn; lia).
    assert (Hf : List.filter (fun h => h + 42 <? tip) l = l).
    { clear -Hall. induction Hall as [|h l Hh _ IH]; cbn; [done|]. apply Z.ltb_lt in Hh as ->. by rewrite IH. }
    rewrite Hf. destruct (Z.leb_spec (Z.of_nat (length l) * 4) (Z.of_nat (length l) * 5)); [|lia]. cbn [andb]. split.
    + intros [= <- <-]. by split_and!.
    + intros (_ & _ & -> & Hk & Hkl). do 2 f_equal. rewrite Forall_forall in Hle, Hkl. apply Z.le_antisymm; [by apply Hkl|by apply Hle].
  - rewrite andb_false_r. split; [done|]. intros (_ & Hall & _). rewrite Forall_forall in Hall. specialize (Hall _ Hm). unfold SPLIT_BLOCKS in Hall. lia.
Qed.

(** ** The watchdog *)

(** A sample: tip, peers ahead and their best height, clock in nanoseconds. *)
Definition Sample : Type := Z * (Z * Z) * Z.
Fixpoint watch (blocktime : Z) (samples : list Sample) (last_move : Z * Z) (s : Stall) : Z * (Z * Z) * Stall :=
  match samples with
  | [] => (0, last_move, s)
  | (tip, ahead, now) :: samples =>
      let '(fired, last_move, s) := stall_check tip ahead blocktime now last_move s in
      let '(k, last_move, s) := watch blocktime samples last_move s in
      ((if fired then 1 else 0) + k, last_move, s)
  end.

(** Three slots without a move. *)
Definition overdue (blocktime moved : Z) (x : Sample) : bool :=
  STALL_SLOTS * Z.max blocktime 1 <=? sat_sub x.2 moved / NANOS.
Definition still (tip : Z) (x : Sample) : Prop := x.1.1 = tip /\ 0 < x.1.2.1.
Definition earlier (x y : Sample) : Prop := x.2 <= y.2.

Lemma overdue_mono bt moved x y : earlier x y -> overdue bt moved x = true -> overdue bt moved y = true.
Proof.
  unfold overdue, earlier, sat_sub. rewrite !Z.leb_le. intros H Hx.
  unfold NANOS in *. enough (Z.max (x.2 - moved) 0 / 1000000000 <= Z.max (y.2 - moved) 0 / 1000000000) by lia. apply Z.div_le_mono; lia.
Qed.

Lemma still_step bt tip x moved s : still tip x ->
  exists s', stall_check x.1.1 x.1.2 bt x.2 (tip, moved) s = (overdue bt moved x && negb s.(sl_stalled), (tip, moved), s') /\
    s'.(sl_stalled) = overdue bt moved x.
Proof.
  intros [<- Ha]. unfold stall_check, overdue. cbn [fst snd]. rewrite Z.eqb_refl. apply Z.ltb_lt in Ha. rewrite Ha. cbn [andb].
  eexists. split; [reflexivity|]. destruct (_ <=? _), (sl_stalled s) eqn:Hs; cbn; by rewrite ?Hs.
Qed.

Lemma watch_stalled bt tip moved l : forall s, Forall (fun x => still tip x /\ overdue bt moved x = true) l -> s.(sl_stalled) = true ->
  (watch bt l (tip, moved) s).1.1 = 0.
Proof.
  induction l as [|[[t a] now] l IH]; intros s Hl Hs; cbn [watch]; [done|]. apply Forall_cons in Hl as [[Hx Ho] Hl].
  destruct (still_step bt tip _ moved s Hx) as (s1 & He & Hs1). cbn [fst snd] in He. rewrite He, Hs, Ho. cbn [negb andb].
  specialize (IH s1 Hl ltac:(by rewrite Hs1)). destruct (watch bt l (tip, moved) s1) as [[k lm] s2]. cbn in *. lia.
Qed.

(** A stall is reported once and not too early.  While the tip stands still and peers are ahead,
    however many samples the watchdog takes, it fires exactly once if one of them is three slots after
    the last move of the tip, and not at all otherwise. *)
Theorem stall_fires_once bt tip moved samples s
    (Hs : s.(sl_stalled) = false) (Hl : Forall (still tip) samples) (Ht : StronglySorted earlier samples) :
  (watch bt samples (tip, moved) s).1.1 = if existsb (overdue bt moved) samples then 1 else 0.
Proof.
  revert s Hs. induction Ht as [|[[t a] now] l Hsort IH Hx]; intros s Hs; cbn [watch existsb]; [done|].
  apply Forall_cons in Hl as [Hst Hl]. destruct (still_step bt tip _ moved s Hst) as (s1 & He & Hs1). cbn [fst snd] in He. rewrite He, Hs.
  cbn [negb]. rewrite andb_true_r. destruct (overdue bt moved (t, a, now)) eqn:Ho; cbn [orb].
  - pose proof (watch_stalled bt tip moved l s1) as Hw. destruct (watch bt l (tip, moved) s1) as [[k lm] s2]. cbn in *. rewrite Hw; [done| |done].
    apply Forall_forall. intros y Hy. rewrite Forall_forall in Hl, Hx. split; [by apply Hl|]. eapply overdue_mono; [by apply Hx|done].
  - specialize (IH Hl s1 Hs1). destruct (watch bt l (tip, moved) s1) as [[k lm] s2]. cbn in *. lia.
Qed.

Lemma stall_fires_once_witness :
  (watch 8 [(100, (5, 110), 16000000000); (100, (5, 110), 24000000000); (100, (5, 111), 32000000000)] (100, 0) stall_default).1.1 = 1.
Proof.
  apply (stall_fires_once 8 100 0 [(100, (5, 110), 16000000000); (100, (5, 110), 24000000000); (100, (5, 111), 32000000000)] stall_default).
  - reflexivity.
  - repeat constructor.
  - repeat (constructor; [|repeat constructor; vm_compute; discriminate]). constructor.
Defined.
