(* ===== verification/Guard.v ===== *)
(** * The double-forge guard

    [src/src/delegate/guard.rs]: blocks signed by one of our keys that another node forged, blocks that
    compete with ours, and the slots the forger gives up because of them.  The process-wide guard is a
    value; the clock is an argument; log lines and alerts are not modelled. *)

From S2P Require Import Prelude Models Env Bytes Crypto Config BlockCodec Wallet Rules Tree Storage Intake.

(** [DoubleForgeGuardConfig] of [node_config.rs]. *)
Inductive GuardMode : Type := Alert | Yield.
#[export] Instance guard_mode_eq_dec : EqDecision GuardMode.
Proof. solve_decision. Defined.
Record DoubleForgeGuardConfig : Type := mkGuardConfig { gc_enabled : bool; gc_mode : GuardMode; gc_rounds : Z }.
Definition guard_config_default : DoubleForgeGuardConfig := mkGuardConfig true Yield 2.

Record ForeignBlock : Type := mkForeign {
  fb_height : Z; fb_id : string; fb_generator : string; fb_username : string; fb_peer : string; fb_source : Source; fb_at_unix : Z
}.
Record ForkSeen : Type := mkFork {
  fk_height : Z; fk_ours : string; fk_our_generator : string; fk_theirs : string; fk_their_generator : string; fk_peer : string; fk_at_unix : Z
}.
Record CompetingBlock : Type := mkCompeting {
  cb_height : Z; cb_ours : string; cb_theirs : string; cb_generator : string; cb_username : string; cb_peer : string; cb_own_key : bool;
  cb_at_unix : Z
}.

Record State : Type := mkState {
  gs_foreign : list ForeignBlock;
  gs_competing : list CompetingBlock;
  gs_forks : list ForkSeen;
  gs_own_forged : list string;
  gs_yielded_slots : Z
}.
Definition state_default : State := mkState [] [] [] [] 0.

Definition KEEP : nat := 50.
Definition OWN_IDS : nat := 256.

(** [&id[..id.len().min(12)]]: ids and keys are hex text. *)
Definition short (id : string) : string := String.substring 0 12 id.

(** Digits in groups of three ([group] of [forger.rs]). *)
Fixpoint group_digits (digits : string) (first : bool) : string :=
  match digits with
  | EmptyString => EmptyString
  | String c rest =>
      let here := String c (group_digits rest false) in
      if negb first && (String.length digits mod 3 =? 0)%nat then String "," here else here
  end.
Definition group (k : Z) : string := group_digits (fmt_u k) true.

Section forge_guard.
Context `{E : Env}.
Variables (n : Network) (cfg : DoubleForgeGuardConfig) (own_keys : gset string) (storage : option Store).
Implicit Types (block ours theirs : Block) (st : State).

Definition name_of (public_key : string) : string :=
  match storage ≫= fun s => find_wallet s public_key ≫= ws_username with
  | Some name => name
  | None => short public_key
  end.

(** Forged within the yield window; [now] is the network time of the milestone's epoch. *)
Definition is_fresh (now : Z) block : bool :=
  let m := milestone n block.(b_height) in
  now - block.(b_timestamp) <=? as_i64 (as_u64 (Z.max cfg.(gc_rounds) 1 * m.(m_active_delegates) * m.(m_blocktime))).

Definition own_forged (id : string) st : State :=
  mkState st.(gs_foreign) st.(gs_competing) st.(gs_forks) (push_bounded OWN_IDS id st.(gs_own_forged)) st.(gs_yielded_slots).

Definition on_accepted (now now_unix : Z) (source : Source) (peer : string) block st : State :=
  if bool_decide (source = Forged) || negb (bool_decide (block.(b_generator_public_key) ∈ own_keys)) || negb (is_fresh now block) then st else
  let id := ostr block.(b_id) in
  if existsb (String.eqb id) st.(gs_own_forged) then st else
  if existsb (fun f => String.eqb f.(fb_id) id) st.(gs_foreign) then st else
  mkState
    (push_bounded KEEP (mkForeign block.(b_height) id block.(b_generator_public_key) (name_of block.(b_generator_public_key)) peer source now_unix)
       st.(gs_foreign))
    st.(gs_competing) st.(gs_forks) st.(gs_own_forged) st.(gs_yielded_slots).

Definition on_accepted_batch (now now_unix : Z) (source : Source) (peer : string) (blocks : list Block) st : State :=
  foldl (fun st block => on_accepted now now_unix source peer block st) st blocks.

Definition on_same_height_fork (now_unix : Z) (peer : string) ours theirs (our_id their_id : string) st : State :=
  if existsb (fun f => (f.(fk_height) =? ours.(b_height)) && String.eqb f.(fk_theirs) their_id) st.(gs_forks) then st else
  mkState st.(gs_foreign) st.(gs_competing)
    (push_bounded KEEP (mkFork ours.(b_height) our_id (name_of ours.(b_generator_public_key)) their_id (name_of theirs.(b_generator_public_key))
                          peer now_unix) st.(gs_forks))
    st.(gs_own_forged) st.(gs_yielded_slots).

Definition on_competing (now_unix : Z) (peer : string) ours theirs st : State :=
  if negb (ours.(b_height) =? theirs.(b_height)) then st else
  let our_id := ostr ours.(b_id) in
  let their_id := ostr theirs.(b_id) in
  if String.eqb our_id their_id || bool_decide (their_id = EmptyString) then st else
  match verify_block_signature theirs with
  | Ok true =>
      if negb (String.eqb ours.(b_generator_public_key) theirs.(b_generator_public_key))
      then on_same_height_fork now_unix peer ours theirs our_id their_id st
      else if existsb (fun c => (c.(cb_height) =? ours.(b_height)) && String.eqb c.(cb_theirs) their_id) st.(gs_competing) then st
      else mkState st.(gs_foreign)
             (push_bounded KEEP (mkCompeting ours.(b_height) our_id their_id ours.(b_generator_public_key)
                (name_of ours.(b_generator_public_key)) peer (bool_decide (ours.(b_generator_public_key) ∈ own_keys)) now_unix) st.(gs_competing))
             st.(gs_forks) st.(gs_own_forged) st.(gs_yielded_slots)
  | _ => st
  end.

Definition window_start (next_height active_delegates : Z) : Z :=
  sat_sub next_height (as_u64 (Z.max cfg.(gc_rounds) 1 * Z.max active_delegates 1)).

(** The newest foreign block by the key inside the window. *)
Definition yield_block (public_key : string) (next_height active_delegates : Z) st : option ForeignBlock :=
  let from := window_start next_height active_delegates in
  List.find (fun f => String.eqb f.(fb_generator) public_key && (from <=? f.(fb_height))) (rev st.(gs_foreign)).

Definition yield_text (now_unix : Z) (f : ForeignBlock) : string :=
  "double-forge-guard: block " +:+ group f.(fb_height) +:+ " (" +:+ short f.(fb_id) +:+ "…) by this key arrived from " +:+ f.(fb_peer)
  +:+ " via " +:+ label f.(fb_source) +:+ " " +:+ fmt_i (Z.max (now_unix - f.(fb_at_unix)) 0)
  +:+ "s ago — the key forges on another node, yielding the slot instead of splitting the network (stop the other node, or set delegate.guard.mode: alert)".

Definition yield_reason (now_unix : Z) (public_key : string) (next_height active_delegates : Z) st : option string :=
  if negb (bool_decide (cfg.(gc_mode) = Yield)) then None
  else yield_text now_unix <$> yield_block public_key next_height active_delegates st.

(** The free functions: nothing is heard while the guard is disabled, except the own blocks. *)
Inductive Event : Type :=
| Accepted (now now_unix : Z) (source : Source) (peer : string) (block : Block)
| AcceptedBatch (now now_unix : Z) (source : Source) (peer : string) (blocks : list Block)
| Competing (now_unix : Z) (peer : string) (ours theirs : Block)
| OwnForged (id : string)
| TakeSlot (now_unix : Z) (public_key : string) (next_height active_delegates : Z).

(** [yield_reason] of the module: a refusal counts. *)
Definition take_slot (now_unix : Z) (public_key : string) (next_height active_delegates : Z) st : option string * State :=
  if negb cfg.(gc_enabled) then (None, st) else
  match yield_reason now_unix public_key next_height active_delegates st with
  | None => (None, st)
  | Some reason => (Some reason, mkState st.(gs_foreign) st.(gs_competing) st.(gs_forks) st.(gs_own_forged) (as_u64 (st.(gs_yielded_slots) + 1)))
  end.

Definition hear st (e : Event) : State :=
  match e with
  | Accepted now now_unix source peer block => if cfg.(gc_enabled) then on_accepted now now_unix source peer block st else st
  | AcceptedBatch now now_unix source peer blocks =>
      if cfg.(gc_enabled) then on_accepted_batch now now_unix source peer blocks st else st
  | Competing now_unix peer ours theirs => if cfg.(gc_enabled) then on_competing now_unix peer ours theirs st else st
  | OwnForged id => own_forged id st
  | TakeSlot now_unix public_key next_height active_delegates => (take_slot now_unix public_key next_height active_delegates st).2
  end.
Definition hear_all (es : list Event) st : State := foldl hear st es.

(** The keys of the snapshot that are being yielded, newest block first, each once. *)
Definition yielding (next_height active_delegates : Z) st : list ForeignBlock :=
  if cfg.(gc_enabled) && bool_decide (cfg.(gc_mode) = Yield) then
    let from := window_start next_height active_delegates in
    (foldl (fun '(seen, out) f =>
        if (from <=? f.(fb_height)) && negb (bool_decide (f.(fb_generator) ∈ (seen : gset string)))
        then ({[f.(fb_generator)]} ∪ seen, out ++ [f]) else (seen, out)) (∅, []) (rev st.(gs_foreign))).2
  else [].
End forge_guard.

(** ** What the double-forge guard records, and when it gives a slot up *)

(** ** A bounded queue *)

Lemma push_bounded_length {A} cap (x : A) q : (0 < cap)%nat -> (length q <= cap)%nat -> (length (push_bounded cap x q) <= cap)%nat.
Proof.
  intros H0 Hq. unfold push_bounded. rewrite length_app. cbn [length]. destruct (Nat.eqb_spec (length q) cap); [|lia]. destruct q; cbn [tail length] in *; lia.
Qed.

Lemma push_bounded_elem {A} cap (x y : A) q : y ∈ push_bounded cap x q -> y ∈ q \/ y = x.
Proof.
  unfold push_bounded. rewrite elem_of_app, list_elem_of_singleton. intros [H|H]; [|by right]. left. destruct (_ =? _)%nat; [|done].
  destruct q; [done|by right].
Qed.

Lemma push_bounded_Forall {A} (P : A -> Prop) cap x q : Forall P q -> P x -> Forall P (push_bounded cap x q).
Proof.
  rewrite !Forall_forall. intros H Hx y Hy. apply push_bounded_elem in Hy as [Hy| ->]; auto.
Qed.

Lemma push_bounded_NoDup {A B} (f : A -> B) cap x q : NoDup (f <$> q) -> f x ∉ f <$> q -> NoDup (f <$> push_bounded cap x q).
Proof.
  intros Hq Hx. unfold push_bounded. rewrite fmap_app. apply NoDup_app. destruct (_ =? _)%nat.
  - destruct q as [|y q]; cbn in *; [by split_and!; [constructor|intros ? ?%elem_of_nil|apply NoDup_singleton]|].
    apply NoDup_cons in Hq as [_ Hq]. split_and!; [done| |apply NoDup_singleton]. intros z Hz ->%list_elem_of_singleton. apply Hx. by right.
  - split_and!; [done| |apply NoDup_singleton]. intros z Hz ->%list_elem_of_singleton. by apply Hx.
Qed.

Lemma push_bounded_last {A} cap (x : A) q : x ∈ push_bounded cap x q.
Proof. unfold push_bounded. rewrite elem_of_app, list_elem_of_singleton. by right. Qed.

Lemma existsb_false {A} (p : A -> bool) l x : existsb p l = false -> x ∈ l -> p x = false.
Proof.
  intros H Hx. apply not_true_is_false. intros Hp. assert (H1 : existsb p l = true) by (apply existsb_exists; exists x; rewrite <- list_elem_of_In; done).
  by rewrite H in H1.
Qed.

Section forge_guard.
Context `{E : Env}.
Variables (n : Network) (cfg : DoubleForgeGuardConfig) (own_keys : gset string) (storage : option Store).
Implicit Types (block ours theirs : Block) (st : State) (e : Event) (es : list Event).

#[local] Abbreviation hear := (hear n cfg own_keys storage).
#[local] Abbreviation hear_all := (hear_all n cfg own_keys storage).

(** ** The records *)

(** What a recorded pair of blocks at one height says: another node's block, signed. *)
Definition rival ours theirs : Prop :=
  ours.(b_height) = theirs.(b_height) /\ ours.(b_id) <> theirs.(b_id) /\ verify_block_signature theirs = Ok true.

Definition foreign_key (c : CompetingBlock) : Z * string := (c.(cb_height), c.(cb_theirs)).
Definition fork_key (f : ForkSeen) : Z * string := (f.(fk_height), f.(fk_theirs)).

Record guard_ok st : Prop := {
  gk_foreign : (length st.(gs_foreign) <= KEEP)%nat /\ NoDup (fb_id <$> st.(gs_foreign));
  gk_competing : (length st.(gs_competing) <= KEEP)%nat /\ NoDup (foreign_key <$> st.(gs_competing));
  gk_forks : (length st.(gs_forks) <= KEEP)%nat /\ NoDup (fork_key <$> st.(gs_forks));
  gk_own : (length st.(gs_own_forged) <= OWN_IDS)%nat;
  gk_own_keys : Forall (fun f => f.(fb_generator) ∈ own_keys /\ f.(fb_source) <> Forged) st.(gs_foreign);
  gk_double : Forall (fun c => exists ours theirs, rival ours theirs /\ ours.(b_generator_public_key) = theirs.(b_generator_public_key) /\
    c.(cb_generator) = theirs.(b_generator_public_key) /\ c.(cb_height) = theirs.(b_height) /\ c.(cb_theirs) = ostr theirs.(b_id) /\
    c.(cb_own_key) = bool_decide (c.(cb_generator) ∈ own_keys)) st.(gs_competing);
  gk_split : Forall (fun f => exists ours theirs, rival ours theirs /\ ours.(b_generator_public_key) <> theirs.(b_generator_public_key) /\
    f.(fk_height) = theirs.(b_height) /\ f.(fk_theirs) = ostr theirs.(b_id)) st.(gs_forks)
}.

Lemma guard_ok_default : guard_ok state_default.
Proof. by split; cbn; repeat split; try constructor; unfold KEEP, OWN_IDS; lia. Qed.

Lemma on_accepted_ok now now_unix source peer block st : guard_ok st -> guard_ok (on_accepted n cfg own_keys storage now now_unix source peer block st).
Proof.
  intros H. unfold on_accepted. destruct (bool_decide_reflect (source = Forged)); [done|].
  destruct (bool_decide_reflect (b_generator_public_key block ∈ own_keys)); [|done]. cbn [negb orb]. destruct (negb _); [done|].
  destruct (existsb _ (gs_own_forged st)); [done|]. destruct (existsb _ (gs_foreign st)) eqn:Hf; [done|]. destruct H as [[F1 F2] ? ? ? F3 ? ?].
  split; cbn; try done.
  - split; [apply push_bounded_length; [unfold KEEP; lia|done]|]. apply push_bounded_NoDup; [done|]. cbn. rewrite list_elem_of_fmap.
    intros (f & He & Hin). pose proof (existsb_false _ _ f Hf Hin) as Hx. cbn in Hx. rewrite <- He, String.eqb_refl in Hx. done.
  - apply push_bounded_Forall; [done|]. by cbn.
Qed.

Lemma rival_fresh ours theirs : b_height ours = b_height theirs -> ostr ours.(b_id) <> ostr theirs.(b_id) ->
  verify_block_signature theirs = Ok true -> rival ours theirs.
Proof. intros H1 H2 H3. split_and!; [done| |done]. intros He. apply H2. by rewrite He. Qed.

Lemma on_same_height_fork_ok now_unix peer ours theirs st : guard_ok st -> rival ours theirs ->
  ours.(b_generator_public_key) <> theirs.(b_generator_public_key) ->
  guard_ok (on_same_height_fork storage now_unix peer ours theirs (ostr ours.(b_id)) (ostr theirs.(b_id)) st).
Proof.
  intros H Hr Hg. unfold on_same_height_fork. destruct (existsb _ _) eqn:Hf; [done|]. destruct H as [? ? [F1 F2] ? ? ? ?]. split; cbn; try done.
  - split; [apply push_bounded_length; [unfold KEEP; lia|done]|]. apply push_bounded_NoDup; [done|]. cbn. rewrite list_elem_of_fmap.
    intros (f & He & Hin). pose proof (existsb_false _ _ f Hf Hin) as Hx. cbn in Hx. injection He as Hh Ht. rewrite <- Hh, <- Ht, Z.eqb_refl, String.eqb_refl in Hx. done.
  - apply push_bounded_Forall; [done|]. exists ours, theirs. cbn. destruct Hr as (Hh & ? & ?). by rewrite Hh.
Qed.

Lemma on_competing_ok now_unix peer ours theirs st : guard_ok st -> guard_ok (on_competing own_keys storage now_unix peer ours theirs st).
Proof.
  intros H. unfold on_competing. destruct (Z.eqb_spec (b_height ours) (b_height theirs)) as [Hh|]; [|done]. cbn [negb].
  destruct (String.eqb_spec (ostr (b_id ours)) (ostr (b_id theirs))) as [|Hi]; [done|]. cbn [orb]. case_bool_decide; [done|].
  destruct (verify_block_signature theirs) as [[]|] eqn:Hv; [|done..]. pose proof (rival_fresh _ _ Hh Hi Hv) as Hr.
  destruct (String.eqb_spec (b_generator_public_key ours) (b_generator_public_key theirs)) as [Hg|Hg]; cbn [negb]; [|by apply on_same_height_fork_ok].
  destruct (existsb _ _) eqn:Hf; [done|]. destruct H as [? [F1 F2] ? ? ? ? ?]. split; cbn; try done.
  - split; [apply push_bounded_length; [unfold KEEP; lia|done]|]. apply push_bounded_NoDup; [done|]. cbn. rewrite list_elem_of_fmap.
    intros (f & He & Hin). pose proof (existsb_false _ _ f Hf Hin) as Hx. cbn in Hx. injection He as Hh' Ht. rewrite <- Hh', <- Ht, Z.eqb_refl, String.eqb_refl in Hx. done.
  - apply push_bounded_Forall; [done|]. exists ours, theirs. cbn. by rewrite Hh, Hg.
Qed.

Lemma hear_ok e st : guard_ok st -> guard_ok (hear st e).
Proof.
  intros H. destruct e; cbn.
  - destruct (gc_enabled cfg); [by apply on_accepted_ok|done].
  - destruct (gc_enabled cfg); [|done]. unfold on_accepted_batch. revert st H. induction blocks as [|b bs IH]; intros st H; cbn; [done|].
    apply IH. by apply on_accepted_ok.
  - destruct (gc_enabled cfg); [by apply on_competing_ok|done].
  - destruct H as [? ? ? F ? ? ?]. split; cbn; try done. apply push_bounded_length; [unfold OWN_IDS; lia|done].
  - unfold take_slot. destruct (negb _); [done|]. destruct (yield_reason _ _ _ _ _ _); [|done]. by destruct H.
Qed.

Lemma hear_all_ok es st : guard_ok st -> guard_ok (hear_all es st).
Proof. revert st. induction es as [|e es IH]; intros st H; cbn; [done|]. by apply IH, hear_ok. Qed.

(** What the guard remembers stays bounded and true.  Whatever the network shows the node, in
    any order and any number of times, the four lists keep at most 50, 50, 50 and 256 entries, no
    block is recorded twice, a recorded foreign block carries one of the node's own keys and was not
    forged here, a recorded double forge is a second signed block of the same generator at the same
    height, and a recorded fork one of another generator. *)
Theorem guard_records_sound es : guard_ok (hear_all es state_default).
Proof. apply hear_all_ok, guard_ok_default. Qed.

(** ** The slots it gives up *)

(** A block the guard counts: shown live by the network, signed for by one of our keys, not forged here. *)
Definition shows e (now : Z) block : Prop :=
  match e with
  | Accepted now' _ source _ block' => now' = now /\ block' = block /\ source <> Forged
  | AcceptedBatch now' _ source _ blocks => now' = now /\ block ∈ blocks /\ source <> Forged
  | _ => False
  end.

Definition caused (es : list Event) (f : ForeignBlock) : Prop :=
  exists e now block, e ∈ es /\ shows e now block /\ is_fresh n cfg now block = true /\
    block.(b_generator_public_key) ∈ own_keys /\ f.(fb_generator) = block.(b_generator_public_key) /\ f.(fb_height) = block.(b_height).

Lemma on_accepted_cases now now_unix source peer block st f :
  f ∈ (on_accepted n cfg own_keys storage now now_unix source peer block st).(gs_foreign) ->
  f ∈ st.(gs_foreign) \/
  (source <> Forged /\ is_fresh n cfg now block = true /\ block.(b_generator_public_key) ∈ own_keys /\
   f.(fb_generator) = block.(b_generator_public_key) /\ f.(fb_height) = block.(b_height)).
Proof.
  unfold on_accepted. destruct (bool_decide_reflect (source = Forged)); [by left|].
  destruct (bool_decide_reflect (b_generator_public_key block ∈ own_keys)); [|by left]. cbn [negb orb].
  destruct (is_fresh n cfg now block); [|by left]. cbn [negb].
  destruct (existsb _ (gs_own_forged st)); [by left|]. destruct (existsb _ (gs_foreign st)); [by left|]. cbn.
  intros [H| ->]%push_bounded_elem; [by left|right]. by cbn.
Qed.

Lemma on_competing_foreign now_unix peer ours theirs st : (on_competing own_keys storage now_unix peer ours theirs st).(gs_foreign) = st.(gs_foreign).
Proof.
  unfold on_competing, on_same_height_fork. destruct (negb _); [done|]. destruct (_ || _); [done|]. destruct (verify_block_signature theirs) as [[]|]; [|done..].
  destruct (negb _); destruct (existsb _ _); done.
Qed.

Lemma hear_foreign e st f : f ∈ (hear st e).(gs_foreign) -> f ∈ st.(gs_foreign) \/ caused [e] f.
Proof.
  assert (Hc : forall now block, shows e now block -> is_fresh n cfg now block = true /\ block.(b_generator_public_key) ∈ own_keys /\
    f.(fb_generator) = block.(b_generator_public_key) /\ f.(fb_height) = block.(b_height) -> caused [e] f).
  { intros now block Hs (H1 & H2 & H3 & H4). exists e, now, block. split_and!; try done. by left. }
  destruct e; cbn.
  - destruct (gc_enabled cfg); [|by left]. intros [|(H & ?)]%on_accepted_cases; [by left|right]. eapply Hc; [|done]. by cbn.
  - destruct (gc_enabled cfg); [|by left]. unfold on_accepted_batch. assert (Hb : forall b, b ∈ blocks -> b ∈ blocks) by done. revert Hb. generalize blocks at 1 3 as bs.
    intros bs. revert st. induction bs as [|b bs IH]; intros st Hb; cbn; [by left|]. intros H. apply IH in H as [H|H]; [|by right|intros; apply Hb; by right].
    apply on_accepted_cases in H as [|(H & ?)]; [by left|right]. eapply Hc; [|done]. cbn. split_and!; [done| |done]. apply Hb. by left.
  - destruct (gc_enabled cfg); [|by left]. rewrite on_competing_foreign. by left.
  - by left.
  - unfold take_slot. destruct (negb _); [by left|]. destruct (yield_reason _ _ _ _ _ _); by left.
Qed.

Lemma hear_all_foreign es st f : f ∈ (hear_all es st).(gs_foreign) -> f ∈ st.(gs_foreign) \/ caused es f.
Proof.
  revert st. induction es as [|e es IH]; intros st; cbn; [by left|]. intros [H|H]%IH.
  - apply hear_foreign in H as [|(e' & now & block & He & H)]; [by left|right]. apply list_elem_of_singleton in He as ->.
    exists e, now, block. split; [by left|done].
  - right. destruct H as (e' & now & block & He & H). exists e', now, block. split; [by right|done].
Qed.

Lemma yield_block_some public_key next_height active_delegates st f : yield_block cfg public_key next_height active_delegates st = Some f ->
  f ∈ st.(gs_foreign) /\ f.(fb_generator) = public_key /\ window_start cfg next_height active_delegates <= f.(fb_height).
Proof.
  intros H. apply List.find_some in H as [Hin [Hg Hw]%andb_prop]. apply String.eqb_eq in Hg. rewrite <- in_rev, <- list_elem_of_In in Hin. split_and!; [done..|lia].
Qed.

Lemma take_slot_iff now_unix public_key next_height active_delegates st :
  is_Some (take_slot cfg now_unix public_key next_height active_delegates st).1 <->
  cfg.(gc_enabled) = true /\ cfg.(gc_mode) = Yield /\
  exists f, f ∈ st.(gs_foreign) /\ f.(fb_generator) = public_key /\ window_start cfg next_height active_delegates <= f.(fb_height).
Proof.
  unfold take_slot, yield_reason. split.
  - destruct (gc_enabled cfg); [|by intros []]. cbn. case_bool_decide; [|by intros []]. cbn.
    destruct (yield_block _ _ _ _ _) as [f|] eqn:Hf; [|by intros []]. intros _. split_and!; [done..|]. exists f. by apply yield_block_some in Hf.
  - intros (-> & -> & f & Hin & Hg & Hw). cbn. destruct (yield_block _ _ _ _ _) as [f'|] eqn:Hf; [by eexists|].
    rewrite list_elem_of_In, in_rev in Hin. pose proof (List.find_none _ _ Hf f Hin) as Hx. cbn in Hx. rewrite Hg, String.eqb_refl in Hx. cbn in Hx. lia.
Qed.

Definition window (active_delegates : Z) : Z := Z.max cfg.(gc_rounds) 1 * Z.max active_delegates 1.

Lemma window_start_spec next_height active_delegates : 0 <= next_height <= u64_max -> window active_delegates <= u64_max ->
  window_start cfg next_height active_delegates = Z.max 0 (next_height - window active_delegates).
Proof.
  intros Hn Hw. unfold window_start, sat_sub. rewrite as_u64_id; [unfold window; lia|]. split; [lia|]. done.
Qed.

(** A slot is given up only for a reason, and is taken again.  The forger gives a slot of a key up
    exactly when the guard is on, in the mode that yields, and remembers a block of that key no older
    than the window of rounds before the next height; each such block was shown by the network, was
    fresh when it came, and the key is one of this node's.  So a key nobody else uses, a node in alert
    mode and a chain that moved past the window lose no slot. *)
Theorem slot_yielded_with_cause es now_unix public_key next_height active_delegates
    (Hn : 0 <= next_height <= u64_max) (Hw : window active_delegates <= u64_max) :
  let st := hear_all es state_default in
  (is_Some (take_slot cfg now_unix public_key next_height active_delegates st).1 <->
   cfg.(gc_enabled) = true /\ cfg.(gc_mode) = Yield /\
   exists f, f ∈ st.(gs_foreign) /\ f.(fb_generator) = public_key /\ Z.max 0 (next_height - window active_delegates) <= f.(fb_height)) /\
  (is_Some (take_slot cfg now_unix public_key next_height active_delegates st).1 ->
   public_key ∈ own_keys /\ exists e now block, e ∈ es /\ shows e now block /\ is_fresh n cfg now block = true /\
     block.(b_generator_public_key) = public_key /\ next_height <= block.(b_height) + window active_delegates).
Proof.
  intros st. rewrite take_slot_iff, window_start_spec by done. split; [done|]. intros (_ & _ & f & Hin & Hg & Hh).
  apply hear_all_foreign in Hin as [[]%elem_of_nil|(e & now & block & He & Hs & Hf & Hk & Hg' & Hb)]. rewrite <- Hg, Hg'.
  split; [done|]. exists e, now, block. split_and!; try done. lia.
Qed.

(** The guard protects the slots.  Once a fresh block of one of our keys that this node did not
    forge is accepted from the network, the forger would give up every slot of that key up to the end
    of the window, in whatever state the guard was. *)
Theorem foreign_block_protects now now_unix now_unix' source peer block st next_height active_delegates
    (He : cfg.(gc_enabled) = true) (Hm : cfg.(gc_mode) = Yield) (Hs : source <> Forged)
    (Hk : block.(b_generator_public_key) ∈ own_keys) (Hf : is_fresh n cfg now block = true)
    (Ho : ostr block.(b_id) ∉ st.(gs_own_forged))
    (Hi : forall f, f ∈ st.(gs_foreign) -> f.(fb_id) = ostr block.(b_id) ->
      f.(fb_generator) = block.(b_generator_public_key) /\ f.(fb_height) = block.(b_height))
    (Hn : 0 <= next_height <= u64_max) (Hw : window active_delegates <= u64_max)
    (Hh : 0 <= block.(b_height)) (Hin : next_height <= block.(b_height) + window active_delegates) :
  is_Some (take_slot cfg now_unix' block.(b_generator_public_key) next_height active_delegates
             (hear st (Accepted now now_unix source peer block))).1.
Proof.
  apply take_slot_iff. split_and!; [done..|]. rewrite window_start_spec by done. cbn. rewrite He. unfold on_accepted.
  rewrite bool_decide_eq_false_2, bool_decide_eq_true_2, Hf by done. cbn [negb orb].
  destruct (existsb _ (gs_own_forged st)) eqn:Hx.
  { apply existsb_exists in Hx as (id & Hid & Heq%String.eqb_eq). rewrite <- list_elem_of_In in Hid. destruct Ho. by rewrite Heq. }
  destruct (existsb _ (gs_foreign st)) eqn:Hx'.
  - apply existsb_exists in Hx' as (f & Hf' & Heq%String.eqb_eq). rewrite <- list_elem_of_In in Hf'. destruct (Hi f Hf' Heq) as [H1 H2].
    exists f. split_and!; [done..|]. rewrite H2. lia.
  - cbn. eexists. split; [apply push_bounded_last|]. cbn. split; [done|lia].
Qed.
End forge_guard.
