(* ===== verification/Builder.v ===== *)
(** * Building a block

    [src/src/delegate/block_builder.rs]: [select_transactions] picks what goes into the next block,
    [forge_block_with] fills in the header and signs it. *)

From S2P Require Import Prelude Models Env Bytes Crypto Keys Config TxCodec BlockCodec Wallet Rules Tree Storage.

(** ** Selection *)

(** Highest fee first, then the lower nonce ([None] is the lowest). *)
Definition opt_nonce (tx : Transaction) : Z := default (-1) tx.(tx_nonce).
Definition fee_order (x y : Transaction) : Prop :=
  y.(tx_fee) < x.(tx_fee) \/ (x.(tx_fee) = y.(tx_fee) /\ opt_nonce x <= opt_nonce y).
#[export] Instance fee_order_dec x y : Decision (fee_order x y).
Proof. unfold fee_order. apply _. Defined.

Record Selection : Type := mkSelection {
  sl_chosen : list Transaction;
  sl_payload : Z;
  sl_next_nonce : gmap string Z;
  sl_deferred : list Transaction;
  sl_progress : bool
}.

Section builder.
Context `{E : Env}.
Variables (n : Network) (s : Store).
Implicit Types (tx : Transaction) (st : Selection).

Definition chain_nonce (address : string) : Z := default 0 (ws_nonce <$> get_wallet s address).

Definition expected_of st tx : Res Z :=
  match st.(sl_next_nonce) !! tx.(tx_sender_public_key) with
  | Some k => Ok k
  | None =>
      let? addr := address_from_public_key tx.(tx_sender_public_key) n.(n_pubkey_hash) in
      Ok (as_u64 (chain_nonce addr + 1))
  end.

(** The body of the inner loop. *)
Definition consider (max_payload : Z) st tx : Res Selection :=
  let? expected := expected_of st tx in
  let nonce := default 0 tx.(tx_nonce) in
  if negb (nonce =? expected) then
    Ok (if expected <? nonce
        then mkSelection st.(sl_chosen) st.(sl_payload) st.(sl_next_nonce) (st.(sl_deferred) ++ [tx]) st.(sl_progress)
        else st)
  else
    let? b := tx_bytes n tx in
    let size := Z.of_nat (length b) in
    if max_payload <? st.(sl_payload) + size then Ok st
    else Ok (mkSelection (st.(sl_chosen) ++ [tx]) (st.(sl_payload) + size)
               (<[tx.(tx_sender_public_key) := as_u64 (nonce + 1)]> st.(sl_next_nonce)) st.(sl_deferred) true).

(** One pass over the candidates, which stops at [max_txs]. *)
Fixpoint pass (max_txs max_payload : Z) (candidates : list Transaction) st : Res Selection :=
  match candidates with
  | [] => Ok st
  | tx :: candidates =>
      if max_txs <=? Z.of_nat (length st.(sl_chosen)) then Ok st
      else let? st := consider max_payload st tx in pass max_txs max_payload candidates st
  end.

(** The outer loop: what was deferred is tried again while the last pass took something.  Each pass that
    takes something leaves fewer candidates, so the length of the pool is enough fuel. *)
Fixpoint passes (fuel : nat) (max_txs max_payload : Z) (candidates : list Transaction) st : Res Selection :=
  match fuel with
  | O => Ok st
  | S fuel =>
      if negb (st.(sl_progress) && (Z.of_nat (length st.(sl_chosen)) <? max_txs)) then Ok st else
      let? st := pass max_txs max_payload candidates
          (mkSelection st.(sl_chosen) st.(sl_payload) st.(sl_next_nonce) st.(sl_deferred) false) in
      match st.(sl_deferred) with
      | [] => Ok st
      | deferred =>
          passes fuel max_txs max_payload deferred
            (mkSelection st.(sl_chosen) st.(sl_payload) st.(sl_next_nonce) [] st.(sl_progress))
      end
  end.

Definition selection_start : Selection := mkSelection [] 0 ∅ [] true.

Definition select_transactions (pool : list Transaction) (height : Z) : Res (list Transaction) :=
  let m := (milestone n height).(m_block) in
  let txs := sort_by fee_order pool in
  let? st := passes (S (length pool)) m.(bp_max_transactions) m.(bp_max_payload) txs selection_start in
  Ok st.(sl_chosen).

(** ** Forging *)

Context `{SG : Signer}.

(** Height and position, known before the block is signed. *)
Definition stamp (height : Z) (i : nat) tx : Transaction :=
  tx_set_sequence (Some (as_u32 (Z.of_nat i))) (tx_set_block_height (Some height) tx).

Definition forge_block_with (keys : KeyPair) (pq : option PqKeyPair) (previous : Block) (timestamp : Z)
    (txs : list Transaction) : Res Block :=
  let height := as_u64 (previous.(b_height) + 1) in
  let m := milestone n height in
  let hybrid := m.(m_pq).(pq_blocks_on) && is_some pq in
  let? sizes := rmapM (fun tx => let? b := tx_bytes n tx in Ok (Z.of_nat (length b))) txs in
  let block := mkBlock None (if hybrid then BLOCK_VERSION_PQ else m.(m_block).(bp_version)) timestamp
      (ostr previous.(b_id)) height (as_u32 (Z.of_nat (length txs)))
      (as_u64 (zsum (tx_amount <$> txs))) (as_u64 (zsum (tx_fee <$> txs))) m.(m_reward) (as_u32 (zsum sizes))
      EmptyString (public_key_hex keys) None None (imap (stamp height) txs) in
  let? payload_hash := block_payload_hash block in
  let block := b_set_payload_hash payload_hash block in
  let? hash := block_signing_hash block in
  let? signature := sign_ecdsa hash keys.(kp_private_key) in
  let block := b_set_block_signature (Some signature) block in
  let? block :=
    match pq with
    | Some pq =>
        if hybrid then
          let? m_b := block_pq_message block in
          let? sig := pq_sign_with_ctx pq m_b BLOCK_CTX in
          Ok (b_set_pq_signature (Some (mkPqBlock ALG_ML_DSA_44 (hex_encode sig))) block)
        else Ok block
    | None => Ok block
    end in
  let? id := block_id block in
  Ok (b_set_transactions (tx_set_block_id (Some id) <$> block.(b_transactions)) (b_set_id (Some id) block)).

(** Version 0, classic signature. *)
Definition forge_block (keys : KeyPair) : Block -> Z -> list Transaction -> Res Block := forge_block_with keys None.
End builder.
