(* ===== verification/BuilderFacts.v ===== *)
(** * What the builder guarantees

    The selection respects the limits and the nonces and leaves nothing behind that would have fitted;
    a forged block passes the verifier of [BlockVerify]. *)

From S2P Require Import Prelude Models Env Bytes Crypto Keys Config TxCodec BlockCodec BlockVerify Wallet Rules Tree Storage Builder.

Section selection.
Context `{E : Env}.
Variables (n : Network) (s : Store) (max_txs max_payload : Z) (pool : list Transaction).
Implicit Types (tx : Transaction) (st : Selection) (l dropped : list Transaction).

Definition base (pk : string) : Z :=
  match address_from_public_key pk n.(n_pubkey_hash) with Ok a => chain_nonce s a | Err _ => 0 end.
Definition size_of tx : Z := match tx_bytes n tx with Ok b => Z.of_nat (length b) | Err _ => 0 end.
Definition nonce_of tx : Z := default 0 tx.(tx_nonce).
Definition by_sender (pk : string) tx : bool := String.eqb tx.(tx_sender_public_key) pk.

(** The nonces a list has of one sender, in its order. *)
Definition nonces (pk : string) l : list Z := nonce_of <$> List.filter (by_sender pk) l.
(** The nonce that comes next for a sender after [l]. *)
Definition next_after l (pk : string) : Z := base pk + 1 + Z.of_nat (length (nonces pk l)).

(** Room in the counters for every sender of the pool. *)
Definition nonces_fit : Prop :=
  Forall (fun tx => 0 <= base tx.(tx_sender_public_key) /\
                    base tx.(tx_sender_public_key) + 1 + Z.of_nat (length pool) <= u64_max) pool.

(** Never to be taken any more, and to be looked at again. *)
Definition hopeless st tx : Prop :=
  nonce_of tx < next_after st.(sl_chosen) tx.(tx_sender_public_key) \/ max_payload < st.(sl_payload) + size_of tx.
Definition later st tx : Prop := next_after st.(sl_chosen) tx.(tx_sender_public_key) < nonce_of tx.

Record sel_ok l dropped st : Prop := {
  so_perm : st.(sl_chosen) ++ st.(sl_deferred) ++ l ++ dropped ≡ₚ pool;
  so_next : forall pk, match st.(sl_next_nonce) !! pk with
                       | Some k => k = next_after st.(sl_chosen) pk
                       | None => nonces pk st.(sl_chosen) = []
                       end;
  so_nonces : forall pk, nonces pk st.(sl_chosen) = seqZ (base pk + 1) (Z.of_nat (length (nonces pk st.(sl_chosen))));
  so_payload : st.(sl_payload) = zsum (size_of <$> st.(sl_chosen)) /\ st.(sl_payload) <= max_payload;
  so_length : Z.of_nat (length st.(sl_chosen)) <= max_txs;
  so_hopeless : Forall (hopeless st) dropped;
  so_later : st.(sl_progress) = false -> Forall (later st) st.(sl_deferred)
}.

Context (Hfit : nonces_fit).

Lemma nonces_app pk l1 l2 : nonces pk (l1 ++ l2) = nonces pk l1 ++ nonces pk l2.
Proof. unfold nonces. by rewrite List.filter_app, fmap_app. Qed.

Lemma nonces_one pk tx : nonces pk [tx] = if by_sender pk tx then [nonce_of tx] else [].
Proof. unfold nonces. cbn. by destruct (by_sender pk tx). Qed.

Lemma next_after_snoc pk l tx :
  next_after (l ++ [tx]) pk = next_after l pk + (if by_sender pk tx then 1 else 0).
Proof. unfold next_after. rewrite nonces_app, nonces_one, length_app. destruct (by_sender pk tx); cbn [length]; lia. Qed.

Lemma size_of_nonneg tx : 0 <= size_of tx.
Proof. unfold size_of. destruct (tx_bytes n tx); lia. Qed.

Lemma nonces_length pk l : (length (nonces pk l) <= length l)%nat.
Proof. unfold nonces. rewrite length_fmap. apply List.filter_length_le. Qed.

(** In the pool, the next nonce of a sender is within [u64]. *)
Lemma next_fits l dropped st tx : sel_ok (tx :: l) dropped st ->
  0 <= base tx.(tx_sender_public_key) /\ next_after st.(sl_chosen) tx.(tx_sender_public_key) + 1 <= u64_max.
Proof.
  intros [Hp _ _ _ _ _ _]. assert (Hin : tx ∈ pool) by (rewrite <-Hp; set_solver).
  unfold nonces_fit in Hfit. rewrite Forall_forall in Hfit. destruct (Hfit tx Hin) as [H0 H1]. split; [done|].
  pose proof (nonces_length tx.(tx_sender_public_key) st.(sl_chosen)). apply Permutation_length in Hp.
  rewrite !length_app in Hp. cbn [length app] in Hp. unfold next_after. lia.
Qed.

Lemma expected_next l dropped st tx k : sel_ok (tx :: l) dropped st -> expected_of n s st tx = Ok k ->
  k = next_after st.(sl_chosen) tx.(tx_sender_public_key).
Proof.
  intros Hok He. destruct (next_fits _ _ _ _ Hok) as [H0 H1]. pose proof (so_next _ _ _ Hok tx.(tx_sender_public_key)) as Hn.
  unfold expected_of in He. destruct (sl_next_nonce st !! _) as [k'|]; [by apply Ok_inj in He as <-|].
  apply rbind_ok_inv in He as (a & Ha & He). apply Ok_inj in He as <-. unfold next_after in *. rewrite Hn in *. cbn [length] in *.
  unfold base in *. rewrite Ha in *. rewrite as_u64_id; [lia|]. bounds. lia.
Qed.

Lemma hopeless_mono st st' tx : hopeless st tx ->
  (forall pk, next_after st.(sl_chosen) pk <= next_after st'.(sl_chosen) pk) -> st.(sl_payload) <= st'.(sl_payload) -> hopeless st' tx.
Proof. intros [H|H] Hn Hp; [left|right; lia]. specialize (Hn tx.(tx_sender_public_key)). lia. Qed.

(** How much is still to do: it never grows, and a pass that takes something leaves less. *)
Definition todo st l : nat := (length st.(sl_deferred) + length l + (if st.(sl_progress) then 1 else 0))%nat.

Lemma chosen_ok l dropped st tx b : sel_ok (tx :: l) dropped st -> tx_bytes n tx = Ok b ->
  nonce_of tx = next_after st.(sl_chosen) tx.(tx_sender_public_key) -> st.(sl_payload) + size_of tx <= max_payload ->
  Z.of_nat (length st.(sl_chosen)) < max_txs ->
  sel_ok l dropped (mkSelection (st.(sl_chosen) ++ [tx]) (st.(sl_payload) + size_of tx)
    (<[tx.(tx_sender_public_key) := as_u64 (nonce_of tx + 1)]> st.(sl_next_nonce)) st.(sl_deferred) true).
Proof.
  intros Hok Hb Hn Hs Hm. destruct (next_fits _ _ _ _ Hok) as [H0 H1]. destruct Hok as [Hp Hx Hq [Hy Hz] Hl Hh _].
  pose proof (size_of_nonneg tx). split; cbn [sl_chosen sl_payload sl_next_nonce sl_deferred sl_progress]; try done.
  - rewrite <-Hp, <-!app_assoc. f_equiv. cbn [app]. apply Permutation_middle.
  - intros pk. destruct (decide (tx.(tx_sender_public_key) = pk)) as [<-|Hne].
    + rewrite lookup_insert_eq, next_after_snoc. unfold by_sender. rewrite String.eqb_refl. rewrite as_u64_id; [lia|].
      unfold next_after in *. bounds. lia.
    + rewrite lookup_insert_ne by done. rewrite next_after_snoc, nonces_app, nonces_one. unfold by_sender.
      apply String.eqb_neq in Hne as ->. rewrite app_nil_r, Z.add_0_r. apply Hx.
  - intros pk. rewrite nonces_app, nonces_one, length_app. unfold by_sender.
    destruct (String.eqb_spec tx.(tx_sender_public_key) pk) as [<-|]; cbn [length]; [|by rewrite app_nil_r, Nat.add_0_r].
    replace (Z.of_nat (length (nonces (tx_sender_public_key tx) (sl_chosen st)) + 1)) with (Z.of_nat (length (nonces (tx_sender_public_key tx) (sl_chosen st))) + 1) by lia.
    rewrite seqZ_app by lia. rewrite <-Hq. f_equal. rewrite Hn. unfold next_after. cbn. done.
  - rewrite fmap_app, zsum_app. cbn. split; [lia|done].
  - rewrite length_app. cbn. lia.
  - eapply Forall_impl; [exact Hh|]. intros t Ht. eapply hopeless_mono; [exact Ht| |cbn; lia]. cbn [sl_chosen].
    intros pk. rewrite next_after_snoc. destruct (by_sender pk tx); lia.
Qed.

Lemma deferred_ok l dropped st tx : sel_ok (tx :: l) dropped st -> later st tx ->
  sel_ok l dropped (mkSelection st.(sl_chosen) st.(sl_payload) st.(sl_next_nonce) (st.(sl_deferred) ++ [tx]) st.(sl_progress)).
Proof.
  intros [Hp Hx Hq Hy Hl Hh Hd] Ht. split; cbn [sl_chosen sl_payload sl_next_nonce sl_deferred sl_progress]; try done.
  - rewrite <-Hp, <-!app_assoc. done.
  - intros Hpr. apply Forall_app. split; [by apply Hd|]. by apply Forall_singleton.
Qed.

Lemma dropped_ok l dropped st tx : sel_ok (tx :: l) dropped st -> hopeless st tx -> sel_ok l (tx :: dropped) st.
Proof.
  intros [Hp Hx Hq Hy Hl Hh Hd] Ht. split; try done.
  - rewrite <-Hp. f_equiv. f_equiv. cbn [app]. symmetry. apply Permutation_middle.
  - by constructor.
Qed.

Lemma consider_ok l dropped st tx st' : sel_ok (tx :: l) dropped st -> Z.of_nat (length st.(sl_chosen)) < max_txs ->
  consider n s max_payload st tx = Ok st' ->
  exists dropped', sel_ok l dropped' st' /\ (todo st' l <= todo st (tx :: l))%nat.
Proof.
  intros Hok Hm Hc. unfold consider in Hc. apply rbind_ok_inv in Hc as (k & Hk & Hc).
  pose proof (expected_next _ _ _ _ _ Hok Hk) as ->. fold (nonce_of tx) in Hc.
  destruct (Z.eqb_spec (nonce_of tx) (next_after (sl_chosen st) (tx_sender_public_key tx))) as [He|He]; cbn [negb] in Hc.
  - apply rbind_ok_inv in Hc as (b & Hb & Hc). assert (Hz : Z.of_nat (length b) = size_of tx) by (unfold size_of; by rewrite Hb).
    rewrite Hz in Hc. destruct (Z.ltb_spec max_payload (sl_payload st + size_of tx)) as [Hs|Hs]; apply Ok_inj in Hc as <-.
    + exists (tx :: dropped). split; [apply dropped_ok; [done|by right]|]. unfold todo. cbn [length]. lia.
    + exists dropped. split; [by eapply chosen_ok|]. unfold todo. cbn [sl_deferred sl_progress length]. destruct (sl_progress st); lia.
  - apply Ok_inj in Hc as <-. destruct (Z.ltb_spec (next_after (sl_chosen st) (tx_sender_public_key tx)) (nonce_of tx)).
    + exists dropped. split; [by apply deferred_ok|]. unfold todo. cbn [sl_deferred sl_progress length]. rewrite length_app. cbn [length]. lia.
    + exists (tx :: dropped). split; [apply dropped_ok; [done|left; lia]|]. unfold todo. cbn [length]. lia.
Qed.

Lemma pass_ok l : forall dropped st st', sel_ok l dropped st -> pass n s max_txs max_payload l st = Ok st' ->
  exists l' dropped', sel_ok l' dropped' st' /\ (l' = [] \/ max_txs <= Z.of_nat (length st'.(sl_chosen))) /\
    (todo st' l' <= todo st l)%nat.
Proof.
  induction l as [|tx l IH]; intros dropped st st' Hok Hp; cbn [pass] in Hp.
  { apply Ok_inj in Hp as <-. exists [], dropped. split_and!; [done|by left|done]. }
  destruct (Z.leb_spec max_txs (Z.of_nat (length (sl_chosen st)))) as [Hm|Hm].
  { apply Ok_inj in Hp as <-. exists (tx :: l), dropped. split_and!; [done|by right|done]. }
  apply rbind_ok_inv in Hp as (st1 & Hc & Hp). destruct (consider_ok _ _ _ _ _ Hok Hm Hc) as (d1 & Hok1 & Ht).
  destruct (IH _ _ _ Hok1 Hp) as (l' & d' & Hok' & Hl' & Ht'). exists l', d'. split_and!; [done|done|lia].
Qed.

(** Nothing that would fit is left. *)
Definition settled st : Prop :=
  Forall (fun tx => nonce_of tx = next_after st.(sl_chosen) tx.(tx_sender_public_key) -> max_payload < st.(sl_payload) + size_of tx) pool.

Lemma chosen_before l dropped st tx : sel_ok l dropped st -> tx ∈ st.(sl_chosen) ->
  nonce_of tx < next_after st.(sl_chosen) tx.(tx_sender_public_key).
Proof.
  intros Hok Hin. pose proof (so_nonces _ _ _ Hok tx.(tx_sender_public_key)) as Hq.
  assert (Hn : nonce_of tx ∈ nonces tx.(tx_sender_public_key) st.(sl_chosen)).
  { unfold nonces. apply list_elem_of_fmap. exists tx. split; [done|]. apply list_elem_of_In, filter_In.
    split; [by apply list_elem_of_In|]. unfold by_sender. apply String.eqb_refl. }
  rewrite Hq in Hn. apply elem_of_seqZ in Hn. unfold next_after. lia.
Qed.

Lemma settled_ok dropped l st : sel_ok l dropped st -> Forall (later st) (st.(sl_deferred) ++ l) -> settled st.
Proof.
  intros Hok Hl. unfold settled. apply Forall_forall. intros tx Hin He. rewrite <-(so_perm _ _ _ Hok) in Hin.
  rewrite Forall_forall in Hl. pose proof (so_hopeless _ _ _ Hok) as Hh. rewrite Forall_forall in Hh.
  assert (tx ∈ st.(sl_chosen) \/ tx ∈ st.(sl_deferred) ++ l \/ tx ∈ dropped) as [Hc|[Hc|Hc]] by (rewrite !elem_of_app in *; tauto).
  - pose proof (chosen_before _ _ _ _ Hok Hc). lia.
  - specialize (Hl _ Hc). unfold later in Hl. lia.
  - destruct (Hh _ Hc); lia.
Qed.

Lemma sel_ok_restart l dropped st : sel_ok l dropped st -> st.(sl_deferred) = [] ->
  sel_ok l dropped (mkSelection st.(sl_chosen) st.(sl_payload) st.(sl_next_nonce) st.(sl_deferred) false).
Proof. intros [] Hd. split; cbn; try done. rewrite Hd. by constructor. Qed.

Lemma sel_ok_again dropped st : sel_ok [] dropped st ->
  sel_ok st.(sl_deferred) dropped (mkSelection st.(sl_chosen) st.(sl_payload) st.(sl_next_nonce) [] st.(sl_progress)).
Proof. intros [Hp Hx Hq Hy Hl Hh Hd]. by split. Qed.

Lemma sel_ok_merge l dropped st : sel_ok l dropped st ->
  sel_ok (st.(sl_deferred) ++ l) dropped (mkSelection st.(sl_chosen) st.(sl_payload) st.(sl_next_nonce) [] st.(sl_progress)).
Proof. intros [Hp Hx Hq Hy Hl Hh Hd]. split; cbn; try done. by rewrite <-app_assoc. Qed.

Lemma passes_stop fuel l st : st.(sl_progress) && (Z.of_nat (length st.(sl_chosen)) <? max_txs) = false ->
  passes n s fuel max_txs max_payload l st = Ok st.
Proof. intros H. destruct fuel; cbn [passes]; [done|]. by rewrite H. Qed.

Lemma passes_ok fuel : forall l dropped st st', sel_ok l dropped st -> st.(sl_deferred) = [] -> (length l < fuel)%nat ->
  (st.(sl_progress) = false -> Forall (later st) l) -> passes n s fuel max_txs max_payload l st = Ok st' ->
  exists l' dropped', sel_ok l' dropped' st' /\ (Z.of_nat (length st'.(sl_chosen)) < max_txs -> settled st').
Proof.
  induction fuel as [|fuel IH]; intros l dropped st st' Hok Hd Hf Hl Hp; [lia|]. cbn [passes] in Hp.
  destruct (sl_progress st && (Z.of_nat (length (sl_chosen st)) <? max_txs)) eqn:Hc; cbn [negb] in Hp.
  2:{ apply Ok_inj in Hp as <-. exists l, dropped. split; [done|]. intros Hm. apply andb_false_iff in Hc as [Hc|Hc]; [|apply Z.ltb_ge in Hc; lia].
      eapply settled_ok; [done|]. rewrite Hd. by apply Hl. }
  apply rbind_ok_inv in Hp as (st1 & H1 & Hp). destruct (pass_ok _ _ _ _ (sel_ok_restart _ _ _ Hok Hd) H1) as (l1 & d1 & Hok1 & Hor & Ht).
  destruct (sl_deferred st1) as [|t ts] eqn:Hd1.
  - apply Ok_inj in Hp as <-. exists l1, d1. split; [done|]. intros Hm. destruct Hor as [->|]; [|lia].
    eapply settled_ok; [done|]. by rewrite Hd1.
  - rewrite <-Hd1 in Hp. set (st2 := mkSelection _ _ _ _ _) in Hp.
    destruct (sl_progress st1 && (Z.of_nat (length (sl_chosen st1)) <? max_txs)) eqn:Hgo.
    + apply andb_true_iff in Hgo as [Hpr Hm]. apply Z.ltb_lt in Hm. destruct Hor as [->|]; [|lia].
      eapply (IH _ _ _ _ (sel_ok_again _ _ Hok1)); [done| |cbn [sl_progress]; by rewrite Hpr|exact Hp].
      unfold todo in Ht. cbn [sl_deferred sl_progress length] in Ht. rewrite Hd, Hpr in Ht. cbn [length] in Ht. lia.
    + rewrite (passes_stop fuel (sl_deferred st1) st2 Hgo) in Hp.
      apply Ok_inj in Hp as <-. exists (sl_deferred st1 ++ l1), d1. split; [by apply sel_ok_merge|].
      cbn [st2 sl_chosen]. intros Hm. destruct Hor as [->|]; [|lia]. apply Z.ltb_lt in Hm. rewrite Hm, andb_true_r in Hgo.
      eapply settled_ok; [by apply sel_ok_again|]. by apply (so_later _ _ _ Hok1).
Qed.
End selection.

Section selected.
Context `{E : Env}.
Variables (n : Network) (s : Store).

Lemma selection_ok pool height chosen : nonces_fit n s pool ->
  let m := (milestone n height).(m_block) in 0 <= m.(bp_max_transactions) -> 0 <= m.(bp_max_payload) ->
  select_transactions n s pool height = Ok chosen ->
  exists st l dropped, st.(sl_chosen) = chosen /\ sel_ok n s m.(bp_max_transactions) m.(bp_max_payload) pool l dropped st /\
    (Z.of_nat (length chosen) < m.(bp_max_transactions) -> settled n s m.(bp_max_payload) pool st).
Proof.
  intros Hfit m Hm Hp H. unfold select_transactions in H. fold m in H. apply rbind_ok_inv in H as (st & Hst & H). apply Ok_inj in H as <-.
  assert (Hstart : sel_ok n s m.(bp_max_transactions) m.(bp_max_payload) pool (sort_by fee_order pool) [] selection_start).
  { split; cbn; try done. rewrite app_nil_r. apply sort_by_Permutation. }
  assert (Hlen : (length (sort_by fee_order pool) < S (length pool))%nat) by (rewrite (Permutation_length (sort_by_Permutation fee_order pool)); lia).
  destruct (passes_ok n s _ _ pool Hfit _ _ _ _ _ Hstart eq_refl Hlen ltac:(done) Hst) as (l & d & Hok & Hset).
  by exists st, l, d.
Qed.

(** What is selected can be forged.  The chosen transactions are from the pool, each as often as it
    is there; they are no more and no larger than the milestone allows; and those of each sender carry,
    in block order, exactly the nonces that follow the one in its wallet, without a gap. *)
Theorem selection_sound pool height chosen (m := (milestone n height).(m_block))
    (Hfit : nonces_fit n s pool) (Hm : 0 <= m.(bp_max_transactions)) (Hp : 0 <= m.(bp_max_payload))
    (H : select_transactions n s pool height = Ok chosen) :
  chosen ⊆+ pool /\ Z.of_nat (length chosen) <= m.(bp_max_transactions) /\
  zsum (size_of n <$> chosen) <= m.(bp_max_payload) /\
  forall pk, nonces pk chosen = seqZ (base n s pk + 1) (Z.of_nat (length (nonces pk chosen))).
Proof.
  destruct (selection_ok pool height chosen Hfit Hm Hp H) as (st & l & d & <- & [H1 _ H2 [H3 H4] H5 _ _] & _).
  split_and!; [|done|by rewrite <-H3|done]. rewrite <-H1. apply submseteq_inserts_r. reflexivity.
Qed.

(** Nothing that fits is left out.  The selection always ends, and unless the block is full, a
    transaction of the pool that would be the next of its sender after the chosen ones is left out only
    because it does not fit into the payload any more. *)
Theorem selection_complete pool height chosen (m := (milestone n height).(m_block))
    (Hfit : nonces_fit n s pool) (Hm : 0 <= m.(bp_max_transactions)) (Hp : 0 <= m.(bp_max_payload))
    (H : select_transactions n s pool height = Ok chosen) (Hroom : Z.of_nat (length chosen) < m.(bp_max_transactions)) :
  Forall (fun tx => nonce_of tx = next_after n s chosen tx.(tx_sender_public_key) ->
                    m.(bp_max_payload) < zsum (size_of n <$> chosen) + size_of n tx) pool.
Proof.
  destruct (selection_ok pool height chosen Hfit Hm Hp H) as (st & l & d & <- & Hok & Hset).
  destruct (so_payload _ _ _ _ _ _ _ _ Hok) as [Hpay _]. rewrite <-Hpay. by apply Hset.
Qed.
End selected.

(** ** Forged blocks *)

Section forged.
Context `{E : Env} `{SG : Signer} `{L : !EnvLaws E} `{LS : !SignerLaws E SG}.
Variable n : Network.

#[local] Instance seq_le_trans : Transitive seq_le.
Proof. intros x y z. unfold seq_le. lia. Qed.
#[local] Instance seq_le_total : Total seq_le.
Proof. intros x y. unfold seq_le. lia. Qed.

(** A strictly sorted list is the only sorted arrangement of its elements. *)
Lemma sorted_arrangement l1 : forall l2, l1 ≡ₚ l2 -> StronglySorted (fun x y => seq_key x < seq_key y) l1 -> StronglySorted seq_le l2 -> l2 = l1.
Proof.
  induction l1 as [|x l1 IH]; intros l2 Hp H1 H2; [by apply Permutation_nil_l in Hp|].
  destruct l2 as [|y l2]; [by apply Permutation_nil_r in Hp|].
  apply StronglySorted_cons in H1 as [Hx H1]. apply StronglySorted_cons in H2 as [Hy H2]. rewrite Forall_forall in Hx, Hy.
  assert (y = x) as ->.
  { assert (Hyin : y ∈ x :: l1) by (rewrite Hp; left). assert (Hxin : x ∈ y :: l2) by (rewrite <-Hp; left).
    apply elem_of_cons in Hyin as [|Hyin]; [done|]. apply elem_of_cons in Hxin as [|Hxin]; [done|].
    specialize (Hx _ Hyin). specialize (Hy _ Hxin). unfold seq_le in Hy. lia. }
  f_equal. apply IH; [by eapply Permutation_cons_inv|done|done].
Qed.

(** What the builder writes into a transaction is not part of its bytes. *)
Definition placed (id : option string) (h : Z) (i : nat) (tx : Transaction) : Transaction :=
  match id with Some id => tx_set_block_id (Some id) (stamp h i tx) | None => stamp h i tx end.

Lemma placed_id id h i tx : tx_id (placed id h i tx) = tx_id tx.
Proof. by destruct id, tx. Qed.
Lemma placed_amount id h i tx : tx_amount (placed id h i tx) = tx_amount tx.
Proof. by destruct id, tx. Qed.
Lemma placed_fee id h i tx : tx_fee (placed id h i tx) = tx_fee tx.
Proof. by destruct id, tx. Qed.
Lemma placed_seq id h i tx : tx_sequence (placed id h i tx) = Some (as_u32 (Z.of_nat i)).
Proof. by destruct id, tx. Qed.
Lemma placed_transaction_id id h i tx : transaction_id (placed id h i tx) = transaction_id tx.
Proof. by destruct id, tx. Qed.
Lemma placed_signature id h i tx : verify_transaction_signature (placed id h i tx) = verify_transaction_signature tx.
Proof. by destruct id, tx. Qed.
Lemma placed_valid id h i m height tx : valid_block_tx m height tx -> valid_block_tx m height (placed id h i tx).
Proof.
  intros [(x & H1 & H2) H3 H4 H5 H6]. split.
  - exists x. by rewrite placed_id, placed_transaction_id.
  - by rewrite placed_signature.
  - by destruct id, tx.
  - rewrite <-H5. by destruct id, tx.
  - by destruct id, tx.
Qed.

Definition id_bytes (tx : Transaction) : Res (list byte) :=
  let? id := match tx.(tx_id) with Some id => Ok id | None => transaction_id tx end in hex_dec id.

Lemma rmapM_imap {A B C} (f : B -> Res C) (g : A -> Res C) (h : nat -> A -> B) l :
  (forall i x, f (h i x) = g x) -> rmapM f (imap h l) = rmapM g l.
Proof.
  revert h. induction l as [|x l IH]; intros h Hfg; [done|]. cbn [imap rmapM]. rewrite Hfg.
  destruct (g x) as [y|]; [|done]. cbn [rbind]. by rewrite (IH (h ∘ S)) by (intros; apply Hfg).
Qed.

(** The payload hash does not depend on what the builder fills in. *)
Lemma payload_hash_placed id h txs block : Z.of_nat (length txs) <= 4294967296 ->
  block.(b_transactions) = imap (placed id h) txs ->
  block_payload_hash block = let? b := rmapM id_bytes txs in Ok (hex_encode (sha256 (concat b))).
Proof.
  intros Hlen Hb. unfold block_payload_hash. rewrite Hb.
  assert (Hf : forallb (fun tx => bool_decide (is_Some tx.(tx_sequence))) (imap (placed id h) txs) = true).
  { apply forallb_forall. intros t Ht%list_elem_of_In. apply elem_of_lookup_imap_1 in Ht as (i & x & -> & _). by rewrite placed_seq. }
  rewrite Hf. rewrite (sorted_arrangement (imap (placed id h) txs) (sort_by seq_le (imap (placed id h) txs))).
  - change (fun tx => let? id := match tx_id tx with Some id => Ok id | None => transaction_id tx end in hex_dec id) with id_bytes.
    rewrite (rmapM_imap id_bytes id_bytes); [done|]. intros i x. unfold id_bytes. by rewrite placed_id, placed_transaction_id.
  - symmetry. apply sort_by_Permutation.
  - assert (Hs : forall k l, Z.of_nat (k + length l) <= 4294967296 ->
      StronglySorted (fun x y => seq_key x < seq_key y) (imap (fun i => placed id h (k + i)) l)).
    { intros k l; revert k; induction l as [|x l IH]; intros k Hk; cbn [imap]; [constructor|]. cbn [length] in Hk. constructor.
      - replace (imap _ l) with (imap (fun i => placed id h (S k + i)) l); [apply IH; lia|]. apply imap_ext. intros i y _. cbn. f_equal. lia.
      - apply Forall_forall. intros t Ht. apply elem_of_lookup_imap_1 in Ht as (i & y & -> & Hi). apply lookup_lt_Some in Hi.
        unfold seq_key. cbn. rewrite !placed_seq. cbn. unfold as_u32. rewrite !Z.mod_small by lia. lia. }
    apply (Hs 0%nat). lia.
  - apply (StronglySorted_sort_by _ _).
Qed.

Lemma fmap_placed {A} (f : Transaction -> A) id h txs : (forall i tx, f (placed id h i tx) = f tx) -> f <$> imap (placed id h) txs = f <$> txs.
Proof. intros Hf. rewrite fmap_imap. apply list_eq. intros i. rewrite list_lookup_imap, list_lookup_fmap. destruct (txs !! i); cbn; [by rewrite Hf|done]. Qed.

Lemma serialize_previous block a b bytes : serialize_block_parts block a b = Ok bytes -> block.(b_previous_block) <> EmptyString.
Proof. unfold serialize_block_parts. intros H Hp. by rewrite Hp in H. Qed.

(** What goes into a forged block, and why it verifies. *)
Record forged_ok (sk : list byte) (keys : KeyPair) (pq : option PqKeyPair) (previous : Block) (timestamp : Z)
    (txs : list Transaction) (block : Block) : Prop := {
  fo_height : block.(b_height) = as_u64 (previous.(b_height) + 1);
  fo_previous : block.(b_previous_block) = ostr previous.(b_id) /\ block.(b_previous_block) <> EmptyString;
  fo_time : block.(b_timestamp) = timestamp;
  fo_reward : block.(b_reward) = (milestone n block.(b_height)).(m_reward);
  fo_count : block.(b_number_of_transactions) = as_u32 (Z.of_nat (length txs));
  fo_amount : block.(b_total_amount) = as_u64 (zsum (tx_amount <$> txs));
  fo_fee : block.(b_total_fee) = as_u64 (zsum (tx_fee <$> txs));
  fo_payload : exists b, rmapM id_bytes txs = Ok b /\ block.(b_payload_hash) = hex_encode (sha256 (concat b));
  fo_txs : block.(b_transactions) = imap (placed block.(b_id) block.(b_height)) txs;
  fo_id : exists id, block.(b_id) = Some id /\ block_id block = Ok id;
  fo_signature : verify_block_signature block = Ok true;
  fo_hybrid : if (milestone n block.(b_height)).(m_pq).(pq_blocks_on) && is_some pq
    then block.(b_version) = BLOCK_VERSION_PQ /\
         exists sg, block.(b_pq_signature) = Some (mkPqBlock ALG_ML_DSA_44 sg) /\ slen sg = SIG_LEN * 2 /\
           forall q, pq = Some q -> verify_block_pq_signature block (pq_public_key_hex q) = Ok true
    else block.(b_version) = (milestone n block.(b_height)).(m_block).(bp_version) /\ block.(b_pq_signature) = None
}.

(** The hybrid part of the signature. *)
Lemma forged_pq (pq : option PqKeyPair) (hybrid : bool) b1 b2 :
  match pq with
  | Some pq => if hybrid then
        let? m_b := block_pq_message b1 in
        let? sig := pq_sign_with_ctx pq m_b BLOCK_CTX in
        Ok (b_set_pq_signature (Some (mkPqBlock ALG_ML_DSA_44 (hex_encode sig))) b1)
      else Ok b1
  | None => Ok b1
  end = Ok b2 -> b1.(b_pq_signature) = None ->
  exists o, b2 = b_set_pq_signature o b1 /\
    if hybrid && is_some pq
    then exists sg, o = Some (mkPqBlock ALG_ML_DSA_44 sg) /\ slen sg = SIG_LEN * 2 /\
           forall q, pq = Some q -> verify_block_pq_signature b2 (pq_public_key_hex q) = Ok true
    else o = None.
Proof.
  intros H Hn. assert (Hb : b1 = b_set_pq_signature None b1) by (destruct b1; cbn in *; by subst).
  destruct pq as [q|]; [|apply Ok_inj in H as <-; exists None; by rewrite andb_false_r].
  destruct hybrid; [|apply Ok_inj in H as <-; by exists None].
  apply rbind_ok_inv in H as (mb & Hm & H). apply rbind_ok_inv in H as (sig & Hs & H). apply Ok_inj in H as <-.
  destruct (pq_sign_verify _ _ _ _ Hs) as [Hl Hv]. eexists. split; [reflexivity|]. cbn [andb is_some]. exists (hex_encode sig).
  split_and!; [done|unfold slen; rewrite hex_encode_length; lia|]. intros q' [= <-]. unfold verify_block_pq_signature.
  cbn [b_set_pq_signature b_pq_signature pb_algorithm pb_signature]. rewrite Z.eqb_refl. cbn [negb]. unfold pq_public_key_hex. rewrite hex_dec_encode. cbn [rbind].
  match goal with |- context [block_pq_message ?b] => replace (block_pq_message b) with (Ok mb : Res (list byte)) by (symmetry; exact Hm) end.
  cbn [rbind]. rewrite hex_dec_encode. exact Hv.
Qed.

Lemma forge_ok sk keys pq previous timestamp txs block :
  from_private_key sk = Ok keys -> Z.of_nat (length txs) <= 4294967296 ->
  forge_block_with n keys pq previous timestamp txs = Ok block -> forged_ok sk keys pq previous timestamp txs block.
Proof.
  intros Hk Hlen H. apply key_pair_derive in Hk as [Hsk Hd]. unfold forge_block_with in H.
  set (height := as_u64 _) in H. set (m := milestone n height) in H. set (hybrid := pq_blocks_on (m_pq m) && is_some pq) in H.
  apply rbind_ok_inv in H as (sizes & _ & H). set (b0 := mkBlock _ _ _ _ _ _ _ _ _ _ _ _ _ _ _) in H.
  apply rbind_ok_inv in H as (ph & Hph & H). apply rbind_ok_inv in H as (hash & Hhash & H).
  apply rbind_ok_inv in H as (sg & Hsg & H). rewrite Hsk in Hsg. destruct (ecdsa_sign_verify _ _ _ _ Hd Hsg) as (der & Hder & Hver).
  set (b1 := b_set_block_signature _ _) in H. apply rbind_ok_inv in H as (b2 & Hb2 & H). apply rbind_ok_inv in H as (id & Hid & H). apply Ok_inj in H as <-.
  rewrite (payload_hash_placed None height txs b0) in Hph by done. apply rbind_ok_inv in Hph as (bs & Hbs & Hph). apply Ok_inj in Hph.
  destruct (forged_pq _ _ _ _ Hb2 eq_refl) as (o & -> & Ho). split; cbn [b_set_transactions b_set_id b_set_pq_signature b1 b_set_block_signature b_set_payload_hash b0
    b_height b_previous_block b_timestamp b_reward b_number_of_transactions b_total_amount b_total_fee b_payload_hash b_transactions b_id b_version b_pq_signature]; try done.
  - split; [done|]. unfold block_signing_hash in Hhash. apply rbind_ok_inv in Hhash as (b & Hb & _). by apply serialize_previous in Hb.
  - by exists bs.
  - rewrite fmap_imap. done.
  - by exists id.
  - unfold verify_block_signature. match goal with |- context [b_block_signature ?b] => change (b_block_signature b) with (Some sg) end.
    match goal with |- context [block_signing_hash ?b] => replace (block_signing_hash b) with (Ok hash : Res (list byte)) by (symmetry; exact Hhash) end.
    cbn [ok_or rbind]. unfold hex_dec. rewrite Hder. cbn [ok_or rbind]. exact Hver.
  - assert (Hhy : hybrid && is_some pq = hybrid) by (unfold hybrid; destruct (pq_blocks_on _), pq; done). rewrite Hhy in Ho.
    fold m. fold hybrid. destruct hybrid; [|by split]. destruct Ho as (sg' & -> & Hl & Hq). split; [done|]. exists sg'. split_and!; [done|done|].
    intros q Hpq. specialize (Hq q Hpq). exact Hq.
Qed.

(** C20: a forged block verifies.  When the keys belong together, the transactions are valid for the
    height, pairwise different and within the limits, and the slot is not later than the verifier's
    clock allows, the block the builder returns passes [verify_block]; under [pq.blocks] with a quantum
    key it also carries a hybrid signature that verifies for that key. *)
Theorem forged_block_verifies sk keys pq previous timestamp txs now block
    (height := previous.(b_height) + 1) (m := milestone n height)
    (Hk : from_private_key sk = Ok keys) (Hh : 1 <= previous.(b_height)) (Hu : height <= u64_max)
    (Hv : m.(m_block).(bp_version) = 0 /\ (m.(m_pq).(pq_blocks_on) && is_some pq = false -> (block_versions_allowed n height).2 = true))
    (Htx : Forall (valid_block_tx m height) txs) (Hnd : NoDup (tx_id <$> txs))
    (Hc : Z.of_nat (length txs) <= m.(m_block).(bp_max_transactions)) (Hc32 : m.(m_block).(bp_max_transactions) <= u32_max)
    (Ha : in_u64 (zsum (tx_amount <$> txs))) (Hf : in_u64 (zsum (tx_fee <$> txs)))
    (Ht : timestamp <= as_u32 (now + m.(m_blocktime)))
    (H : forge_block_with n keys pq previous timestamp txs = Ok block) :
  (verify_block block n now).(bv_verified) = true /\ block.(b_height) = height /\
  (m.(m_pq).(pq_blocks_on) = true -> forall q, pq = Some q -> verify_block_pq_signature block (pq_public_key_hex q) = Ok true).
Proof.
  assert (Hlen : Z.of_nat (length txs) < 4294967296) by (unfold u32_max in *; lia).
  pose proof (forge_ok _ _ _ _ _ _ _ Hk ltac:(apply Z.lt_le_incl; exact Hlen) H) as [Fh [Fp Fp'] Ft Fr Fc Fa Ff (bs & Hbs & Fl) Fx (id & Fi & Fi') Fs Fy].
  assert (Hh' : b_height block = height) by (rewrite Fh; apply as_u64_id; bounds; lia). rewrite Hh' in *. fold m in Fr, Fy.
  rewrite Fi in Fx. rewrite as_u64_id in Fa, Ff by done.
  split_and!; [|done|intros Hon q ->; rewrite Hon in Fy; destruct Fy as (_ & sg & _ & _ & Hq); by apply Hq].
  apply verify_block_decides. split; rewrite ?Hh'; fold m.
  - split; rewrite ?Hh'; fold m; [by right|done|done| |by rewrite Ft| | |].
    + destruct (pq_blocks_on (m_pq m) && is_some pq) eqn:Hy.
      * destruct Fy as (-> & sg & -> & Hl & _). cbn. split; [|by exists sg]. apply andb_true_iff in Hy as [Hy _].
        unfold block_versions_allowed. fold m. by rewrite Hy.
      * destruct Fy as [-> ->]. destruct Hv as [-> Hv]. cbn. by split_and!; [apply Hv| |].
    + by rewrite Fx, length_imap.
    + intros _. rewrite Fx, length_imap. unfold as_u32. rewrite Z.mod_small by lia. done.
    + intros i Hi. rewrite Fi in Hi. injection Hi as <-. by exists id.
  - rewrite Fx. apply Forall_forall. intros t Hin. apply elem_of_lookup_imap_1 in Hin as (i & x & -> & Hi).
    apply placed_valid. eapply Forall_lookup_1; [exact Htx|exact Hi].
  - rewrite Fx, fmap_placed; [done|apply placed_id].
  - rewrite Fx, fmap_placed; [done|apply placed_amount].
  - rewrite Fx, fmap_placed; [done|apply placed_fee].
  - destruct (Z.eqb_spec height 1); [lia|]. rewrite (payload_hash_placed (Some id) height txs block) by (lia || done). rewrite Hbs, Fl. done.
Qed.
End forged.
