(* ===== verification/PushServer.v ===== *)
(** * The full block a peer pushes

    [decode_full_block] of [src/src/p2p_legacy/server.rs]: the message [serialize_block_with_transactions]
    of [BlockCodec] writes and the forger pushes, read back by the node it is pushed to; and the answer
    to a search for the fork point. *)

From S2P Require Import Prelude Models Env Bytes Crypto Config TxCodec TxWire TxRoundtrip BlockCodec Tree Storage.

(** [bytes.get(off..off + len)]. *)
Definition slice (b : list byte) (off len : nat) : option (list byte) :=
  if (off + len <=? length b)%nat then Some (take len (drop off b)) else None.

Section server.
Context `{E : Env}.
Variables (net : Network).

(** The [u32] length of every transaction. *)
Fixpoint read_lens (n : nat) (bytes : list byte) (off : nat) : Res (list nat * nat) :=
  match n with
  | O => Ok ([], off)
  | S n =>
      let? l := ok_or (slice bytes off 4) (ESync "postBlock: truncated lengths") in
      let? (lens, off) := read_lens n bytes (off + 4)%nat in
      Ok (Z.to_nat (le_value l) :: lens, off)
  end.

Fixpoint read_transactions (lens : list nat) (bytes : list byte) (off : nat) (seq : Z) (block : Block) : Res Block :=
  match lens with
  | [] => Ok block
  | len :: lens =>
      let? raw := ok_or (slice bytes off len) (ESync "postBlock: truncated transaction") in
      let? tx := deserialize_transaction raw in
      let tx := tx_set_sequence (Some (as_u32 seq)) (tx_set_block_height (Some block.(b_height)) (tx_set_block_id block.(b_id) tx)) in
      read_transactions lens bytes (off + len)%nat (seq + 1) (b_set_transactions (block.(b_transactions) ++ [tx]) block)
  end.

Definition decode_full_block (bytes : list byte) : Res Block :=
  let? (block, header_len) := deserialize_block_header_prefix bytes net in
  let n := block.(b_number_of_transactions) in
  let max_tx := (milestone net block.(b_height)).(m_block).(bp_max_transactions) in
  let payload := Z.max 0 (Z.of_nat (length bytes) - header_len) in
  if (max_tx <? n) || (payload / 4 <? n)
  then Err (ESync ("postBlock: implausible transaction count " +:+ fmt_u n +:+ " (max " +:+ fmt_u max_tx +:+ ", "
                   +:+ fmt_u (Z.of_nat (length bytes)) +:+ " payload bytes)"))
  else
    let? (lens, off) := read_lens (Z.to_nat n) bytes (Z.to_nat header_len) in
    read_transactions lens bytes off 0 block.

(** The highest of the first hundred ids asked for that is in our chain. *)
Definition get_common_blocks (s : Store) (ids : list string) : Res (option (Z * string)) :=
  rfold (fun common id =>
      let? b := get_block_by_id net s id in
      Ok (match b with
          | Some b =>
              let height := as_u32 b.(b_height) in
              if match common with Some (h, _) => h <? height | None => true end then Some (height, id) else common
          | None => common
          end)) (take 100 ids) None.
End server.

(** ** What a decoded push looks like *)

Section facts.
Context `{E : Env} `{L : !EnvLaws E}.
Implicit Types (net n : Network) (b : Block).

Lemma slice_at pre x suf : slice (pre ++ x ++ suf) (length pre) (length x) = Some x.
Proof.
  unfold slice. rewrite !length_app. destruct (Nat.leb_spec (length pre + length x) (length pre + (length x + length suf))); [|lia].
  by rewrite drop_app_length, take_app_length.
Qed.

Definition len_bytes (x : list byte) : list byte := le_bytes 4 (as_u32 (Z.of_nat (length x))).

Lemma len_bytes_length x : length (len_bytes x) = 4%nat.
Proof. apply le_bytes_length. Qed.

Lemma read_lens_at bodies : Forall fits_frame bodies -> forall pre suf,
  read_lens (length bodies) (pre ++ concat (len_bytes <$> bodies) ++ suf) (length pre)
  = Ok (length <$> bodies, (length pre + length (concat (len_bytes <$> bodies)))%nat).
Proof.
  induction 1 as [|x bodies Hx _ IH]; intros pre suf; cbn [read_lens length fmap list_fmap concat]; [by rewrite Nat.add_0_r|].
  rewrite <- app_assoc. pose proof (slice_at pre (len_bytes x) (concat (len_bytes <$> bodies) ++ suf)) as Hs.
  rewrite len_bytes_length in Hs. rewrite Hs. cbn [ok_or rbind].
  specialize (IH (pre ++ len_bytes x) suf). rewrite length_app, len_bytes_length, <- app_assoc in IH.
  rewrite IH. cbn [rbind]. unfold len_bytes at 1. rewrite le_value_bytes. unfold as_u32, fits_frame in *. rewrite Z.mod_mod by lia.
  change (256 ^ Z.of_nat 4) with 4294967296. rewrite Z.mod_small by (bounds; lia). rewrite Nat2Z.id. do 2 f_equal.
  rewrite length_app, len_bytes_length. lia.
Qed.

Lemma read_transactions_at n l : Forall wire_tx l -> exists bodies, rmapM (tx_bytes n) l = Ok bodies /\ length bodies = length l /\
  forall pre suf i blk, Z.of_nat (i + length l) <= u32_max ->
    read_transactions (length <$> bodies) (pre ++ concat bodies ++ suf) (length pre) (Z.of_nat i) blk
    = Ok (b_set_transactions (blk.(b_transactions) ++ imap (fun k => restored n blk.(b_id) blk.(b_height) (i + k)) l) blk).
Proof.
  induction 1 as [|tx l Hw _ (bodies & Hb & Hlen & Hd)].
  { exists []. split_and!; [done..|]. intros pre suf i blk _. cbn. rewrite app_nil_r. by destruct blk. }
  destruct (wire_roundtrip tx n.(n_pubkey_hash) Hw) as (x & Hx & Hdx). fold (tx_bytes n tx) in Hx.
  exists (x :: bodies). cbn [rmapM]. rewrite Hx. cbn [rbind]. rewrite Hb. cbn [rbind]. split_and!; [done|cbn; by rewrite Hlen|].
  intros pre suf i blk Hi. cbn [length fmap list_fmap concat read_transactions] in *. rewrite <- app_assoc, slice_at. cbn [ok_or rbind]. rewrite Hdx. cbn [rbind].
  replace (length pre + length x)%nat with (length (pre ++ x)) by apply length_app. rewrite (app_assoc pre).
  replace (Z.of_nat i + 1) with (Z.of_nat (S i)) by lia. rewrite Hd by lia. cbn [b_transactions b_set_transactions b_id b_height imap].
  rewrite <- app_assoc. cbn [app]. f_equal. unfold b_set_transactions. cbn. do 2 f_equal. rewrite Nat.add_0_r.
  f_equal; [|apply imap_ext; intros k y _; cbn; by rewrite Nat.add_succ_r].
  unfold restored, tx_hash_id. rewrite Hx. unfold as_u32. rewrite Z.mod_small by (bounds; lia). done.
Qed.

(** The blocks a push can carry: what the forger builds and any follower accepts. *)
Record wire_push n b : Prop := {
  wp_header : wire_header b;
  wp_signed : is_Some b.(b_block_signature) /\ (b.(b_version) < BLOCK_VERSION_PQ \/ is_Some b.(b_pq_signature));
  wp_txs : Forall wire_tx b.(b_transactions);
  wp_fits : forall bodies, rmapM (tx_bytes n) b.(b_transactions) = Ok bodies -> Forall fits_frame bodies;
  wp_count : b.(b_number_of_transactions) = Z.of_nat (length b.(b_transactions));
  wp_max : b.(b_number_of_transactions) <= (milestone n b.(b_height)).(m_block).(bp_max_transactions)
}.

Lemma concat_lens_length bodies : length (concat (len_bytes <$> bodies)) = (4 * length bodies)%nat.
Proof. induction bodies as [|x l IH]; [done|]. cbn [fmap list_fmap concat length]. rewrite length_app, IH, len_bytes_length. lia. Qed.

(** A pushed block arrives as it was sent.  The message written for a signed block is read back by
    the node it is pushed to as the same block: every header field, the id of its bytes, and every
    transaction in its place with the id of its bytes. *)
Theorem full_block_roundtrip n b (Hw : wire_push n b) :
  exists h p, serialize_block b true = Ok h /\ serialize_block_with_transactions b n = Ok p /\
    decode_full_block n p = Ok (b_set_transactions
      (imap (restored n (Some (header_id n b h)) b.(b_height)) b.(b_transactions))
      (b_set_id (Some (header_id n b h)) b)).
Proof.
  destruct Hw as [Hh Hsig Htx Hfit Hc Hm]. destruct (header_roundtrip b Hh) as (h & Hs & Hr).
  destruct (read_transactions_at n _ Htx) as (bodies & Hb & Hlen & Hd). specialize (Hfit _ Hb).
  set (lens := concat (len_bytes <$> bodies)). exists h, (h ++ lens ++ concat bodies). split; [done|]. split.
  { unfold serialize_block_with_transactions. rewrite Hs. cbn [rbind]. rewrite Hb. done. }
  unfold decode_full_block, deserialize_block_header_prefix. rewrite Hr; [|by right|done]. cbn [rbind b_header b_set_id b_set_transactions b_number_of_transactions b_height].
  assert (Hll : length lens = (4 * length (b_transactions b))%nat) by (unfold lens; by rewrite concat_lens_length, Hlen).
  destruct (Z.ltb_spec (bp_max_transactions (m_block (milestone n (b_height b)))) (b_number_of_transactions b)); [lia|].
  destruct (Z.ltb_spec (Z.max 0 (Z.of_nat (length (h ++ lens ++ concat bodies)) - Z.of_nat (length h)) / 4) (b_number_of_transactions b)) as [Hlt|]; cbn [orb].
  { exfalso. rewrite !length_app, Hll, Hc in Hlt. apply (Z.lt_irrefl (Z.of_nat (length (b_transactions b)))).
    eapply Z.le_lt_trans; [|exact Hlt]. apply Z.div_le_lower_bound; lia. }
  rewrite Hc, !Nat2Z.id, <- Hlen. unfold lens. rewrite read_lens_at by done. cbn [rbind].
  rewrite app_assoc, <- length_app, <- (app_nil_r (concat bodies)).
  change 0 with (Z.of_nat 0). rewrite Hd; [done|]. cbn [Nat.add]. pose proof (wh_count _ Hh) as Hu. rewrite Hc in Hu. unfold in_u32 in Hu. lia.
Qed.

End facts.

#[local] Existing Instance TestEnv.env.
#[local] Existing Instance TestEnv.laws.

Lemma demo_push_wire : wire_push demo_network demo_block.
Proof.
  destruct demo_record_wire as [Hh _ Ht _]. split; [done| |eapply Forall_impl; [exact Ht|by intros ? []]| |vm_compute; reflexivity|vm_compute; discriminate].
  - split; [by eexists|right; by eexists].
  - assert (Hf : match rmapM (tx_bytes demo_network) (b_transactions demo_block) with
                 | Ok bodies => forallb (fun x => Z.of_nat (length x) <=? u32_max) bodies
                 | Err _ => true
                 end = true) by (vm_compute; reflexivity).
    intros bodies Hb. rewrite Hb in Hf. rewrite forallb_forall in Hf. apply Forall_forall. intros x Hx%list_elem_of_In. apply Z.leb_le. by apply Hf.
Qed.

Lemma full_block_roundtrip_witness :
  exists h p, serialize_block demo_block true = Ok h /\ serialize_block_with_transactions demo_block demo_network = Ok p /\
    decode_full_block demo_network p = Ok (b_set_transactions
      (imap (restored demo_network (Some (header_id demo_network demo_block h)) 12) [demo_tx; demo_pq_tx])
      (b_set_id (Some (header_id demo_network demo_block h)) demo_block)).
Proof. exact (full_block_roundtrip demo_network demo_block demo_push_wire). Defined.
