(* ===== verification/NodePool.v ===== *)
(** * The pool of REST nodes and its request budget

    [src/src/node_pool.rs]: every node of the pool has a spacing between requests, a sliding window, and
    may be parked; [acquire] reserves the earliest free slot.  An instant or a duration is a number of
    nanoseconds; the clock is an argument of every call, so a call is one instant, as the code's calls
    hold the mutex.  Sleeping is a step of the clock. *)

From S2P Require Import Prelude.

Definition from_millis (k : Z) : Z := k * 1000000.
Definition from_secs (k : Z) : Z := k * 1000000000.
Definition saturating_duration_since (a b : Z) : Z := Z.max 0 (a - b).

Record RateLimitConfig : Type := mkRateLimit {
  per_node_rps : Z; window_limit : nat; rl_window : Z; ban_on_429 : Z; max_failures : Z; ban_on_failures : Z
}.
Definition rate_limit_default : RateLimitConfig := mkRateLimit 4 250 (from_secs 60) (from_secs 60) 5 (from_secs 30).

Record NodeState : Type := mkNode {
  ns_url : string; ns_host : string; ns_window : list Z; ns_next_slot : Z; ns_parked_until : option Z; ns_failures : Z
}.
Record Inner : Type := mkInner { in_nodes : list NodeState; in_last_used : nat }.
Record Lease : Type := mkLease { le_index : nat; le_url : string; le_host : string; le_slot : Z }.
Record PoolStatus : Type := mkPoolStatus { po_host : string; po_requests_in_window : nat; po_parked_nodes : nat }.

(** The requests that left the window are dropped from the front. *)
Fixpoint drop_old (now window : Z) (q : list Z) : list Z :=
  match q with
  | front :: rest => if window <=? saturating_duration_since now front then drop_old now window rest else q
  | [] => []
  end.
Definition prune (now window : Z) (n : NodeState) : NodeState :=
  mkNode n.(ns_url) n.(ns_host) (drop_old now window n.(ns_window)) n.(ns_next_slot) n.(ns_parked_until) n.(ns_failures).

Definition parked (now : Z) (n : NodeState) : bool := match n.(ns_parked_until) with Some t => now <? t | None => false end.

(** [trim_end_matches('/')], [trim_start_matches] of a text (which is taken off as often as it is
    there) and the part before the first [/]. *)
Fixpoint trim_end_slash (s : string) : string :=
  match s with
  | EmptyString => EmptyString
  | String c s =>
      match trim_end_slash s with
      | EmptyString => if Ascii.eqb c "/" then EmptyString else String c EmptyString
      | s => String c s
      end
  end.
Fixpoint trim_start_text (fuel : nat) (p s : string) : string :=
  match fuel with
  | O => s
  | S fuel => match strip_prefix p s with Some s => trim_start_text fuel p s | None => s end
  end.
Fixpoint before_slash (s : string) : string :=
  match s with
  | String c s => if Ascii.eqb c "/" then EmptyString else String c (before_slash s)
  | EmptyString => EmptyString
  end.
Definition host_of (url : string) : string :=
  let s := trim_start_text (String.length url) "https://" url in
  before_slash (trim_end_slash (trim_start_text (String.length s) "http://" s)).

Definition pool_new (urls : list string) (now : Z) : Inner :=
  mkInner ((fun u => mkNode (trim_end_slash u) (host_of u) [] now None 0) <$> urls) 0.
Definition pool_len (p : Inner) : nat := length p.(in_nodes).
Definition pool_is_empty (p : Inner) : bool := (pool_len p =? 0)%nat.

Section pool.
Variable (cfg : RateLimitConfig).
Implicit Types (p : Inner) (n : NodeState).

Definition spacing : Z := from_millis (1000 / Z.max cfg.(per_node_rps) 1).
Definition eligible (now : Z) n : bool := negb (parked now n || (cfg.(window_limit) <=? length n.(ns_window))%nat).
Definition slot_of (now : Z) n : Z := Z.max n.(ns_next_slot) now.

(** The first of the nodes whose slot is earliest. *)
Fixpoint choose (now : Z) (i : nat) (nodes : list NodeState) (best : option (nat * Z)) : option (nat * Z) :=
  match nodes with
  | [] => best
  | n :: nodes =>
      let best :=
        if eligible now n then
          match best with
          | Some (_, s) => if slot_of now n <? s then Some (i, slot_of now n) else best
          | None => Some (i, slot_of now n)
          end
        else best in
      choose now (S i) nodes best
  end.

Definition reserve (slot : Z) n : NodeState :=
  mkNode n.(ns_url) n.(ns_host) (n.(ns_window) ++ [slot]) (slot + spacing) n.(ns_parked_until) n.(ns_failures).

(** When a parked or exhausted node may be free again. *)
Definition candidates n : list Z :=
  option_list n.(ns_parked_until) ++
  (if (cfg.(window_limit) <=? length n.(ns_window))%nat
   then match n.(ns_window) with front :: _ => [front + cfg.(rl_window)] | [] => [] end else []).
Definition sooner (e : option Z) (c : Z) : option Z := Some (match e with Some e => Z.min e c | None => c end).
Definition earliest (cs : list Z) : option Z := foldl sooner None cs.
Definition wait_for (now : Z) (nodes : list NodeState) : Z :=
  Z.max (match earliest (nodes ≫= candidates) with Some e => saturating_duration_since e now | None => from_secs 1 end) (from_millis 50).

(** One turn of the loop of [acquire]: a lease, or how long to sleep. *)
Definition acquire_turn (now : Z) p : Inner * (Lease + Z) :=
  let nodes := prune now cfg.(rl_window) <$> p.(in_nodes) in
  match choose now 0 nodes None with
  | Some (i, slot) =>
      match nodes !! i with
      | Some n => (mkInner (alter (reserve slot) i nodes) i, inl (mkLease i n.(ns_url) n.(ns_host) slot))
      | None => (mkInner nodes p.(in_last_used), inr 0) (* does not happen: [choose_lookup] *)
      end
  | None => (mkInner nodes p.(in_last_used), inr (wait_for now nodes))
  end.

(** The loop, alone with the pool: the [k]-th sleep ends [late k] after it should. *)
Fixpoint acquire (fuel : nat) (late : nat -> Z) (now : Z) p : option (Z * Lease * Inner) :=
  match fuel with
  | O => None
  | S fuel =>
      match acquire_turn now p with
      | (p, inl lease) => Some (now, lease, p)
      | (p, inr wait) => acquire fuel (fun k => late (S k)) (now + wait + late 0%nat) p
      end
  end.

Definition next_free_host (now : Z) p (after : nat) : option string :=
  let len := length p.(in_nodes) in
  ns_host <$> List.find (fun n => negb (parked now n)) (omap (fun k => p.(in_nodes) !! ((after + k) mod len)%nat) (seq 1 len)).

Definition set_failures (f : Z) n : NodeState := mkNode n.(ns_url) n.(ns_host) n.(ns_window) n.(ns_next_slot) n.(ns_parked_until) f.
Definition park (until : Z) n : NodeState := mkNode n.(ns_url) n.(ns_host) n.(ns_window) n.(ns_next_slot) (Some until) 0.

Definition report_success (lease : Lease) p : Inner := mkInner (alter (set_failures 0) lease.(le_index) p.(in_nodes)) p.(in_last_used).

Definition report_rate_limited (now : Z) (lease : Lease) p : Inner * option string :=
  let p := mkInner (alter (park (now + cfg.(ban_on_429))) lease.(le_index) p.(in_nodes)) p.(in_last_used) in
  (p, next_free_host now p lease.(le_index)).

Definition report_failure (now : Z) (lease : Lease) p : Inner * (Z * option string) :=
  match p.(in_nodes) !! lease.(le_index) with
  | None => (p, (0, None))
  | Some n =>
      let failures := as_u32 (n.(ns_failures) + 1) in
      if cfg.(max_failures) <=? failures then
        let p := mkInner (alter (park (now + cfg.(ban_on_failures))) lease.(le_index) p.(in_nodes)) p.(in_last_used) in
        (p, (cfg.(max_failures), next_free_host now p lease.(le_index)))
      else (mkInner (alter (set_failures failures) lease.(le_index) p.(in_nodes)) p.(in_last_used), (failures, None))
  end.

Definition pool_status (now : Z) p : Inner * PoolStatus :=
  let nodes := prune now cfg.(rl_window) <$> p.(in_nodes) in
  let parked_nodes := length (List.filter (parked now) nodes) in
  (mkInner nodes p.(in_last_used),
   match nodes !! p.(in_last_used) with
   | Some n => mkPoolStatus n.(ns_host) (length n.(ns_window)) parked_nodes
   | None => mkPoolStatus "-" 0 parked_nodes
   end).

(** The calls the workers make, each at an instant of its own. *)
Inductive PoolCall : Type :=
| Turn | Success (lease : Lease) | RateLimited (lease : Lease) | Failure (lease : Lease) | Status.

Definition call (now : Z) (c : PoolCall) p : Inner * option Lease :=
  match c with
  | Turn => let '(p, r) := acquire_turn now p in (p, match r with inl lease => Some lease | inr _ => None end)
  | Success lease => (report_success lease p, None)
  | RateLimited lease => ((report_rate_limited now lease p).1, None)
  | Failure lease => ((report_failure now lease p).1, None)
  | Status => ((pool_status now p).1, None)
  end.

(** A run: the leases it hands out, each with the instant it was handed out. *)
Fixpoint run (calls : list (Z * PoolCall)) p : Inner * list (Z * Lease) :=
  match calls with
  | [] => (p, [])
  | (now, c) :: calls =>
      let '(p, l) := call now c p in
      let '(p, ls) := run calls p in
      (p, match l with Some lease => (now, lease) :: ls | None => ls end)
  end.
End pool.

(** ** The request budget is kept, and a request is served *)

Section pool.
Variable (cfg : RateLimitConfig).
Implicit Types (p : Inner) (n : NodeState) (nodes : list NodeState).

Abbreviation limit := (window_limit cfg).
Abbreviation width := (rl_window cfg).

(** ** The choice of a node *)

Definition chosen (now : Z) nodes (best : option (nat * Z)) : Prop :=
  match best with
  | None => Forall (fun n => eligible cfg now n = false) nodes
  | Some (i, s) =>
      exists n, nodes !! i = Some n /\ eligible cfg now n = true /\ s = slot_of now n /\
      forall j m, nodes !! j = Some m -> eligible cfg now m = true -> s <= slot_of now m /\ (slot_of now m = s -> (i <= j)%nat)
  end.

Lemma choose_go now nodes : forall before best, chosen now before best ->
  chosen now (before ++ nodes) (choose cfg now (length before) nodes best).
Proof.
  induction nodes as [|n nodes IH]; intros before best H; cbn [choose]; [by rewrite app_nil_r|].
  rewrite (app_assoc before [n] nodes : before ++ n :: nodes = _). replace (S (length before)) with (length (before ++ [n])) by (rewrite length_app; cbn; lia).
  apply IH. clear IH. destruct (eligible cfg now n) eqn:He.
  - destruct best as [[i s]|]; cbn.
    + destruct H as (m & Hm & He' & -> & Hb). destruct (Z.ltb_spec (slot_of now n) (slot_of now m)) as [Hlt|Hge].
      * exists n. rewrite list_lookup_middle by done. split_and!; [done..|]. intros j k [Hk|[Hj Hk]]%lookup_app_Some Hek.
        -- destruct (Hb j k Hk Hek). lia.
        -- destruct (j - length before)%nat eqn:Hd; cbn in Hk; [|done]. injection Hk as <-. lia.
      * exists m. apply lookup_lt_Some in Hm as Hl. rewrite lookup_app_l by done. split_and!; [done..|]. intros j k [Hk|[Hj Hk]]%lookup_app_Some Hek; [by apply Hb|].
        destruct (j - length before)%nat eqn:Hd; cbn in Hk; [|done]. injection Hk as <-. lia.
    + exists n. rewrite list_lookup_middle by done. split_and!; [done..|]. intros j k [Hk|[Hj Hk]]%lookup_app_Some Hek.
      * cbn in H. rewrite Forall_lookup in H. apply H in Hk. by rewrite Hk in Hek.
      * destruct (j - length before)%nat eqn:Hd; cbn in Hk; [|done]. injection Hk as <-. lia.
  - destruct best as [[i s]|]; cbn.
    + destruct H as (m & Hm & He' & -> & Hb). exists m. apply lookup_lt_Some in Hm as Hl. rewrite lookup_app_l by done. split_and!; [done..|].
      intros j k [Hk|[Hj Hk]]%lookup_app_Some Hek; [by apply Hb|]. destruct (j - length before)%nat eqn:Hd; cbn in Hk; [|done].
      injection Hk as <-. by rewrite He in Hek.
    + cbn in H. apply Forall_app. split; [done|]. by constructor.
Qed.

Lemma choose_spec now nodes : chosen now nodes (choose cfg now 0 nodes None).
Proof. apply (choose_go now nodes []). by constructor. Qed.

(** What one turn of [acquire] does. *)
Lemma turn_cases now p :
  let nodes := prune now width <$> p.(in_nodes) in
  (exists i n, nodes !! i = Some n /\ eligible cfg now n = true /\ chosen now nodes (Some (i, slot_of now n)) /\
     acquire_turn cfg now p = (mkInner (alter (reserve cfg (slot_of now n)) i nodes) i,
                               inl (mkLease i n.(ns_url) n.(ns_host) (slot_of now n)))) \/
  (Forall (fun n => eligible cfg now n = false) nodes /\
   acquire_turn cfg now p = (mkInner nodes p.(in_last_used), inr (wait_for cfg now nodes))).
Proof.
  intros nodes. unfold acquire_turn. fold nodes. pose proof (choose_spec now nodes) as H. destruct (choose cfg now 0 nodes None) as [[i s]|].
  - left. pose proof H as (n & Hn & He & -> & _). exists i, n. by rewrite Hn.
  - by right.
Qed.

(** ** One node and the slots it has given *)

(** Slots inside [t, t + width). *)
Definition in_window (t : Z) (slots : list Z) : nat := length (List.filter (fun s => (t <=? s) && (s <? t + width)) slots).

Fixpoint spaced (slots : list Z) : Prop :=
  match slots with
  | [] => True
  | s :: rest => Forall (fun r => s + spacing cfg <= r) rest /\ spaced rest
  end.

Lemma in_window_app t a b : in_window t (a ++ b) = (in_window t a + in_window t b)%nat.
Proof. unfold in_window. by rewrite List.filter_app, length_app. Qed.

Lemma in_window_le t a : (in_window t a <= length a)%nat.
Proof. apply List.filter_length_le. Qed.

Lemma in_window_past t a : Forall (fun s => s < t) a -> in_window t a = 0%nat.
Proof.
  unfold in_window. induction 1 as [|s a Hs _ IH]; cbn; [done|]. by destruct (Z.leb_spec t s); [lia|].
Qed.

Lemma spaced_snoc a s : spaced a -> Forall (fun r => r + spacing cfg <= s) a -> spaced (a ++ [s]).
Proof.
  induction a as [|x a IH]; cbn; [by intros; split|]. intros [H1 H2] H3. inversion H3; subst. split; [|by apply IH]. apply Forall_app. split; [done|]. by constructor.
Qed.

Record node_ok (now : Z) (slots : list Z) n : Prop := {
  no_split : exists old, slots = old ++ n.(ns_window) /\ Forall (fun s => s + width <= now) old;
  no_len : (length n.(ns_window) <= limit)%nat;
  no_next : Forall (fun s => s + spacing cfg <= n.(ns_next_slot)) slots;
  no_spaced : spaced slots;
  no_rate : forall t, (in_window t slots <= limit)%nat
}.

Lemma drop_old_split now w q : exists old, q = old ++ drop_old now w q /\ Forall (fun s => s + w <= Z.max now s) old.
Proof.
  induction q as [|s q (old & Hq & Ho)]; cbn; [by exists []|]. destruct (Z.leb_spec w (saturating_duration_since now s)); [|by exists []].
  exists (s :: old). rewrite <- app_comm_cons, <- Hq. split; [done|]. constructor; [|done]. unfold saturating_duration_since in *. lia.
Qed.

Lemma drop_old_length now w q : (length (drop_old now w q) <= length q)%nat.
Proof. destruct (drop_old_split now w q) as (old & Hq & _). rewrite Hq at 2. rewrite length_app. lia. Qed.


Context (Hw : 0 < width).

Lemma node_ok_prune now now' slots n : now <= now' -> node_ok now slots n -> node_ok now' slots (prune now' width n).
Proof.
  intros Hn [(old & Hs & Ho) Hl Hx Hp Hr]. destruct (drop_old_split now' width n.(ns_window)) as (more & Hq & Hm). split; cbn; try done.
  - exists (old ++ more). rewrite Hs, Hq at 1. rewrite app_assoc. split; [done|]. apply Forall_app. split.
    + eapply Forall_impl; [done|]. cbn. lia.
    + eapply Forall_impl; [done|]. cbn. lia.
  - pose proof (drop_old_length now' width n.(ns_window)). lia.
Qed.

Lemma node_ok_mono now now' slots n : now <= now' -> node_ok now slots n -> node_ok now' slots n.
Proof.
  intros Hn [(old & Hs & Ho) Hl Hx Hp Hr]. split; try done. exists old. split; [done|]. eapply Forall_impl; [done|]. cbn. lia.
Qed.

Lemma node_ok_same now slots n m : m.(ns_window) = n.(ns_window) -> m.(ns_next_slot) = n.(ns_next_slot) -> node_ok now slots n -> node_ok now slots m.
Proof. intros H1 H2 []. split; rewrite ?H1, ?H2; done. Qed.

Lemma node_ok_reserve now slots n : node_ok now slots n -> eligible cfg now n = true ->
  node_ok now (slots ++ [slot_of now n]) (reserve cfg (slot_of now n) n).
Proof.
  intros [(old & Hs & Ho) Hl Hx Hp Hr] He. set (s := slot_of now n). unfold eligible in He. apply negb_true_iff, orb_false_iff in He as [_ He].
  apply Nat.leb_gt in He. split; cbn.
  - exists old. rewrite Hs, app_assoc. done.
  - rewrite length_app. cbn. lia.
  - apply Forall_app. split; [|by constructor]. eapply Forall_impl; [done|]. cbn. unfold s, slot_of.
    assert (0 <= spacing cfg) by (unfold spacing, from_millis; pose proof (Z.div_pos 1000 (Z.max cfg.(per_node_rps) 1)); lia). lia.
  - apply spaced_snoc; [done|]. eapply Forall_impl; [done|]. cbn. unfold s, slot_of. lia.
  - intros t. rewrite in_window_app. destruct (Z.ltb_spec (s - width) t) as [Ht|Ht].
    + rewrite Hs, in_window_app, (in_window_past t old).
      * pose proof (in_window_le t n.(ns_window)). pose proof (in_window_le t [s]). cbn in *. lia.
      * eapply Forall_impl; [done|]. cbn. unfold s, slot_of in Ht. lia.
    + replace (in_window t [s]) with 0%nat; [pose proof (Hr t); lia|]. unfold in_window. cbn. destruct (Z.leb_spec t s), (Z.ltb_spec s (t + width)); cbn; try done; lia.
Qed.

(** ** The pool over a run *)

Definition pool_ok (now : Z) (hist : nat -> list Z) p : Prop := forall i n, p.(in_nodes) !! i = Some n -> node_ok now (hist i) n.

Definition given (l : option Lease) (i : nat) : list Z :=
  match l with Some lease => if (lease.(le_index) =? i)%nat then [lease.(le_slot)] else [] | None => [] end.
Definition slots_of (i : nat) (ls : list (Z * Lease)) : list Z :=
  (fun l => l.2.(le_slot)) <$> List.filter (fun l => (l.2.(le_index) =? i)%nat) ls.

(** The clock does not go back. *)
Fixpoint monotone (now : Z) (calls : list (Z * PoolCall)) : Prop :=
  match calls with [] => True | (now', _) :: calls => now <= now' /\ monotone now' calls end.

Lemma pool_ok_alter now hist f i nodes last last' :
  (forall n, (f n).(ns_window) = n.(ns_window)) -> (forall n, (f n).(ns_next_slot) = n.(ns_next_slot)) ->
  pool_ok now hist (mkInner nodes last) -> pool_ok now hist (mkInner (alter f i nodes) last').
Proof.
  intros H1 H2 H j n. cbn. destruct (decide (i = j)) as [->|Hij]; [rewrite list_lookup_alter_eq|rewrite list_lookup_alter_ne by done; apply H].
  intros (m & Hm & ->)%fmap_Some. eapply node_ok_same; [apply H1|apply H2|]. by apply H.
Qed.

Lemma pool_ok_prune now now' hist p last : now <= now' -> pool_ok now hist p -> pool_ok now' hist (mkInner (prune now' width <$> p.(in_nodes)) last).
Proof.
  intros Hn H i n. cbn. rewrite list_lookup_fmap. intros (m & Hm & ->)%fmap_Some. apply (node_ok_prune now); [done|]. by apply H.
Qed.

Lemma call_ok now now' hist c p p' l : now <= now' -> pool_ok now hist p -> call cfg now' c p = (p', l) ->
  pool_ok now' (fun i => hist i ++ given l i) p'.
Proof.
  intros Hn H.
  assert (Hnil : forall q, pool_ok now' hist q -> pool_ok now' (fun i => hist i ++ given None i) q).
  { intros q Hq i n Hi. cbn. rewrite app_nil_r. by apply Hq. }
  assert (Hm : pool_ok now' hist p) by (intros i n Hi; apply (node_ok_mono now); [done|]; by apply H).
  destruct c; cbn [call].
  - destruct (turn_cases now' p) as [(i & n & Hi & He & _ & ->)|[_ ->]]; intros [= <- <-].
    + intros j m. cbn. destruct (Nat.eqb_spec i j) as [->|Hij].
      * rewrite list_lookup_alter_eq, Hi. intros [= <-]. apply node_ok_reserve; [|done]. exact (pool_ok_prune now now' hist p 0 Hn H j n Hi).
      * rewrite list_lookup_alter_ne, app_nil_r by done. exact (pool_ok_prune now now' hist p 0 Hn H j m).
    + apply Hnil. by apply (pool_ok_prune now).
  - intros [= <- <-]. apply Hnil. apply (pool_ok_alter _ _ _ _ _ p.(in_last_used)); [done..|]. by destruct p.
  - intros [= <- <-]. apply Hnil. apply (pool_ok_alter _ _ _ _ _ p.(in_last_used)); [done..|]. by destruct p.
  - intros [= <- <-]. apply Hnil. unfold report_failure. destruct (in_nodes p !! le_index lease); [|done].
    destruct (_ <=? _); cbn; (apply (pool_ok_alter _ _ _ _ _ p.(in_last_used)); [done..|]; by destruct p).
  - intros [= <- <-]. apply Hnil. by apply (pool_ok_prune now).
Qed.

Lemma slots_of_cons i now l ls :
  slots_of i (match l with Some lease => (now, lease) :: ls | None => ls end) = given l i ++ slots_of i ls.
Proof. unfold slots_of, given. destruct l as [lease|]; [|done]. cbn. by destruct (le_index lease =? i)%nat. Qed.

Lemma run_ok calls : forall now hist p p' ls, monotone now calls -> pool_ok now hist p -> run cfg calls p = (p', ls) ->
  exists now', now <= now' /\ pool_ok now' (fun i => hist i ++ slots_of i ls) p'.
Proof.
  induction calls as [|[now' c] calls IH]; intros now hist p p' ls Hm H; cbn [run].
  - intros [= <- <-]. exists now. split; [done|]. intros i n Hi. cbn. rewrite app_nil_r. by apply H.
  - destruct Hm as [Hn Hm]. destruct (call cfg now' c p) as [p1 l] eqn:Hc. destruct (run cfg calls p1) as [p2 ls'] eqn:Hr. intros [= <- <-].
    pose proof (call_ok _ _ _ _ _ _ _ Hn H Hc) as H1. destruct (IH _ _ _ _ _ Hm H1 Hr) as (t & Ht & H2). exists t. split; [lia|].
    intros i n Hi. rewrite slots_of_cons, app_assoc. by apply H2.
Qed.

Lemma run_length calls : forall p, length (run cfg calls p).1.(in_nodes) = length p.(in_nodes).
Proof.
  induction calls as [|[now c] calls IH]; intros p; cbn [run]; [done|]. destruct (call cfg now c p) as [p1 l] eqn:Hc. destruct (run cfg calls p1) as [p2 ls] eqn:Hr.
  cbn. specialize (IH p1). rewrite Hr in IH. cbn in IH. rewrite IH. clear IH Hr. replace p1 with (call cfg now c p).1 by (by rewrite Hc). destruct c; cbn.
  - destruct (turn_cases now p) as [(i & n & _ & _ & _ & ->)|[_ ->]]; cbn; by rewrite ?length_alter, length_fmap.
  - by rewrite length_alter.
  - by rewrite length_alter.
  - unfold report_failure. destruct (in_nodes p !! _); [|done]. destruct (_ <=? _); cbn; by rewrite length_alter.
  - by rewrite length_fmap.
Qed.

Lemma pool_ok_new urls now : pool_ok now (fun _ => []) (pool_new urls now).
Proof.
  intros i n. cbn. rewrite list_lookup_fmap. intros (u & _ & ->)%fmap_Some. split; cbn; try done; try lia.
  by exists [].
Qed.

(** The slots of a node that does not exist. *)
Lemma no_slots_out_of_range calls i : forall p, (length p.(in_nodes) <= i)%nat -> slots_of i (run cfg calls p).2 = [].
Proof.
  induction calls as [|[now c] calls IH]; intros p Hi; cbn [run]; [done|]. destruct (call cfg now c p) as [p1 l] eqn:Hc.
  pose proof (run_length [(now, c)] p) as Hl. cbn [run] in Hl. rewrite Hc in Hl. cbn in Hl. specialize (IH p1 ltac:(lia)).
  destruct (run cfg calls p1) as [p2 ls] eqn:Hr. cbn [snd] in IH |- *. rewrite slots_of_cons, IH, app_nil_r. destruct c; cbn in Hc; try (injection Hc as _ <-; done).
  destruct (turn_cases now p) as [(j & n & Hj & _ & _ & He)|[_ He]]; rewrite He in Hc; injection Hc as _ <-; [|done]. cbn.
  destruct (Nat.eqb_spec j i) as [->|]; [|done]. apply lookup_lt_Some in Hj. rewrite length_fmap in Hj. lia.
Qed.

(** C24: the request budget of a node is never exceeded.  However many workers take leases and report
    back, in any order, the slots given for one node keep the spacing, and no window of time, wherever
    it starts, holds more of them than the limit; slots that are still to come are counted too. *)
Theorem pool_rate_bounded urls start calls (Hm : monotone start calls) i :
  let slots := slots_of i (run cfg calls (pool_new urls start)).2 in
  spaced slots /\ forall t, (in_window t slots <= limit)%nat.
Proof.
  intros slots. destruct (decide (length urls <= i)%nat) as [Hi|Hi].
  { unfold slots. rewrite no_slots_out_of_range by (cbn; by rewrite length_fmap). split; [done|]. intros t. cbn. lia. }
  unfold slots. destruct (run cfg calls (pool_new urls start)) as [p ls] eqn:Hr. cbn.
  destruct (run_ok _ _ _ _ _ _ Hm (pool_ok_new urls start) Hr) as (now & _ & H).
  destruct (lookup_lt_is_Some_2 p.(in_nodes) i) as [n Hn].
  { pose proof (run_length calls (pool_new urls start)) as Hl. rewrite Hr in Hl. cbn in Hl. rewrite length_fmap in Hl. lia. }
  destruct (H i n Hn) as [_ _ _ Hs Ht]. by split.
Qed.

(** ** A parked node rests *)

Definition reports_on (i : nat) (c : PoolCall) : bool :=
  match c with RateLimited lease | Failure lease => (lease.(le_index) =? i)%nat | _ => false end.

Definition resting (i : nat) (until : Z) p : Prop := forall n, p.(in_nodes) !! i = Some n -> n.(ns_parked_until) = Some until.

Lemma resting_alter i j until f nodes last last' : (j = i -> forall n, (f n).(ns_parked_until) = n.(ns_parked_until)) ->
  resting i until (mkInner nodes last) -> resting i until (mkInner (alter f j nodes) last').
Proof.
  intros Hf H n. cbn. destruct (decide (j = i)) as [->|Hij]; [rewrite list_lookup_alter_eq|rewrite list_lookup_alter_ne by done; apply H].
  intros (m & Hm & ->)%fmap_Some. rewrite Hf by done. by apply H.
Qed.

Lemma resting_prune i until now p last : resting i until p -> resting i until (mkInner (prune now width <$> p.(in_nodes)) last).
Proof. intros H n. cbn. rewrite list_lookup_fmap. intros (m & Hm & ->)%fmap_Some. exact (H m Hm). Qed.

Lemma call_resting i until now c p : reports_on i c = false -> resting i until p ->
  resting i until (call cfg now c p).1 /\ forall lease, (call cfg now c p).2 = Some lease -> now < until -> lease.(le_index) <> i.
Proof.
  intros Hc H. assert (Hp : forall last, resting i until (mkInner p.(in_nodes) last)) by (intros last n; apply H). destruct c; cbn in Hc |- *.
  - pose proof (resting_prune i until now p 0 H) as Hr.
    destruct (turn_cases now p) as [(j & n & Hj & He & _ & ->)|[_ ->]]; cbn [fst snd]; [|split; [by apply resting_prune|done]].
    split; [by apply (resting_alter _ _ _ _ _ 0)|]. intros lease [= <-] Ht. cbn. intros ->. apply Hr in Hj. unfold eligible, parked in He. rewrite Hj in He.
    by destruct (Z.ltb_spec now until); [|lia].
  - split; [|done]. apply (resting_alter _ _ _ _ _ 0); [done|apply Hp].
  - apply Nat.eqb_neq in Hc. split; [|done]. by apply (resting_alter _ _ _ _ _ 0).
  - apply Nat.eqb_neq in Hc. split; [|done]. unfold report_failure. destruct (in_nodes p !! _); [|done].
    destruct (_ <=? _); by apply (resting_alter _ _ _ _ _ 0).
  - split; [by apply resting_prune|done].
Qed.

Lemma run_resting i until calls : forall p, Forall (fun c => reports_on i c.2 = false) calls -> resting i until p ->
  Forall (fun l => l.1 < until -> l.2.(le_index) <> i) (run cfg calls p).2.
Proof.
  induction calls as [|[now c] calls IH]; intros p Hc H; cbn [run]; [constructor|]. apply Forall_cons in Hc as [Hc1 Hc2]. cbn in *.
  destruct (call_resting i until now c p) as [R1 R2]; [done..|]. destruct (call cfg now c p) as [p1 l]. cbn in R1, R2. specialize (IH p1 Hc2 R1).
  destruct (run cfg calls p1) as [p2 ls]. cbn in IH |- *. destruct l as [lease|]; [|done]. constructor; [|done]. by apply R2.
Qed.

(** A node that answered 429 rests.  After the report no lease names that node before the ban is
    over, as long as no later report on the same node replaces the ban; and a lease always goes to a
    node that is neither parked nor at its limit, at the earliest slot there is among those. *)
Theorem parked_node_rests now lease p calls (Hc : Forall (fun c => reports_on lease.(le_index) c.2 = false) calls) :
  Forall (fun l => l.1 < now + cfg.(ban_on_429) -> l.2.(le_index) <> lease.(le_index)) (run cfg calls (report_rate_limited cfg now lease p).1).2 /\
  forall now' p' q lease', acquire_turn cfg now' p' = (q, inl lease') ->
    exists n, (prune now' width <$> p'.(in_nodes)) !! lease'.(le_index) = Some n /\ parked now' n = false /\ (length n.(ns_window) < limit)%nat /\
      now' <= lease'.(le_slot) /\
      forall j m, (prune now' width <$> p'.(in_nodes)) !! j = Some m -> eligible cfg now' m = true -> lease'.(le_slot) <= slot_of now' m.
Proof.
  split.
  - apply run_resting; [done|]. intros n. cbn. rewrite list_lookup_alter_eq. by intros (m & _ & ->)%fmap_Some.
  - intros now' p' q lease' H. destruct (turn_cases now' p') as [(i & n & Hi & He & (m & Hm & _ & _ & Hb) & Ht)|[_ Ht]]; rewrite Ht in H; [|done].
    injection H as _ <-. cbn. exists n. unfold eligible in He. apply negb_true_iff, orb_false_iff in He as [Hp Hl]. apply Nat.leb_gt in Hl.
    split_and!; [done..|unfold slot_of; lia|]. intros j k Hk Hek. by apply Hb in Hk as [? _].
Qed.

(** ** A lease comes *)

(** The instant from which a node is free for sure. *)
Definition release n : Z :=
  Z.max (default 0 n.(ns_parked_until)) (match n.(ns_window) with front :: _ => front + width | [] => 0 end).

Definition free_by (T : Z) n : Prop :=
  (length n.(ns_window) <= limit)%nat /\ (forall t, n.(ns_parked_until) = Some t -> t <= T) /\
  ((limit <= length n.(ns_window))%nat -> forall s, head n.(ns_window) = Some s -> s + width <= T).

Lemma release_free_by n : (length n.(ns_window) <= limit)%nat -> free_by (release n) n.
Proof.
  intros Hl. split_and!; [done| |].
  - intros t Ht. unfold release. rewrite Ht. cbn. lia.
  - intros _ s Hs. unfold release. destruct (ns_window n); [done|]. cbn in Hs. injection Hs as ->. lia.
Qed.

Lemma drop_old_cases now w q : drop_old now w q = q \/ (length (drop_old now w q) < length q)%nat.
Proof.
  destruct q as [|s q]; cbn; [by left|]. destruct (_ <=? _); [|by left]. right. pose proof (drop_old_length now w q). lia.
Qed.

Lemma free_by_prune T now n : free_by T n -> free_by T (prune now width n).
Proof.
  intros (Hl & Hp & Hh). pose proof (drop_old_length now width n.(ns_window)). split_and!; cbn; [lia|done|].
  intros Hf. destruct (drop_old_cases now width n.(ns_window)) as [->|]; [|lia]. apply Hh. lia.
Qed.

Lemma free_by_eligible T now n : (0 < limit)%nat -> free_by T n -> T <= now -> eligible cfg now (prune now width n) = true.
Proof.
  intros H0 (Hl & Hp & Hh) HT. unfold eligible, parked. cbn. apply negb_true_iff, orb_false_iff. split.
  - destruct (ns_parked_until n) as [t|]; [|done]. specialize (Hp t eq_refl). lia.
  - apply Nat.leb_gt. destruct (drop_old_cases now width n.(ns_window)) as [He|]; [|lia]. rewrite He.
    destruct (Nat.ltb_spec (length n.(ns_window)) limit); [done|]. destruct (ns_window n) as [|s q]; [cbn in *; lia|].
    specialize (Hh ltac:(done) s eq_refl). cbn in He. unfold saturating_duration_since in He. destruct (Z.leb_spec width (Z.max 0 (now - s))); [|lia].
    pose proof (drop_old_length now width q). apply (f_equal length) in He. cbn in He. lia.
Qed.

Lemma earliest_le cs c : c ∈ cs -> exists e, earliest cs = Some e /\ e <= c.
Proof.
  assert (Hs : forall l e, exists e', foldl sooner (Some e) l = Some e' /\ e' <= e).
  { intros l. induction l as [|x l IH]; intros e; cbn; [by exists e|]. destruct (IH (Z.min e x)) as (e' & He & ?). exists e'. split; [exact He|lia]. }
  unfold earliest. generalize (None : option Z). induction cs as [|x l IH]; intros e Hc; [by apply elem_of_nil in Hc|]. cbn [foldl].
  apply elem_of_cons in Hc as [->|Hc]; [|by apply IH]. unfold sooner at 2.
  destruct (Hs l (match e with Some e => Z.min e x | None => x end)) as (e' & He & Hle). exists e'. split; [exact He|]. destruct e; lia.
Qed.

Lemma wait_bound now nodes i n T : nodes !! i = Some n -> free_by T n -> eligible cfg now n = false -> (0 < limit)%nat ->
  from_millis 50 <= wait_for cfg now nodes <= Z.max (T - now) (from_millis 50).
Proof.
  intros Hi (_ & Hp & Hh) He H0.
  assert (Hc : exists c, c ∈ candidates cfg n /\ c <= T).
  { unfold eligible in He. apply negb_false_iff, orb_true_iff in He as [He|He].
    - unfold parked in He. destruct (ns_parked_until n) as [t|] eqn:Ht; [|done]. exists t. split; [|by apply Hp]. unfold candidates. rewrite Ht. by left.
    - apply Nat.leb_le in He. unfold candidates. rewrite (proj2 (Nat.leb_le _ _) He). destruct (ns_window n) as [|s q]; [cbn in He; lia|].
      exists (s + width). split; [apply elem_of_app; right; by left|by apply Hh]. }
  destruct Hc as (c & Hc & HcT). unfold wait_for. destruct (earliest_le (nodes ≫= candidates cfg) c) as (e & -> & Hec).
  { apply list_elem_of_bind. exists n. split; [done|]. by apply list_elem_of_lookup_2 in Hi. }
  unfold saturating_duration_since, from_millis. lia.
Qed.

(** C25: a request is always served.  A caller alone with a pool that has a node gets a lease: from
    whatever state, the loop ends after at most one turn for every fifty milliseconds to the release of
    any one node, and no later than that release, plus fifty milliseconds, plus what a sleep overruns. *)
Theorem acquire_returns fuel late delay now p i n (H0 : (0 < limit)%nat) (Hi : p.(in_nodes) !! i = Some n)
    (Hl : (length n.(ns_window) <= limit)%nat) (Hd : forall k, 0 <= late k <= delay)
    (Hf : release n - now <= from_millis 50 * Z.of_nat fuel) :
  exists t lease q, acquire cfg (S fuel) late now p = Some (t, lease, q) /\ now <= t <= Z.max now (release n + from_millis 50 + delay).
Proof.
  pose proof (release_free_by n Hl) as Hr. set (T := release n) in *. clearbody T. clear Hl. revert late now p n Hi Hd Hf Hr.
  induction fuel as [|fuel IH]; intros late now p n Hi Hd Hf Hr; cbn [acquire].
  all: destruct (turn_cases now p) as [(j & m & _ & _ & _ & ->)|[He Ht]]; [by do 3 eexists; split; [done|lia]|].
  all: assert (Hi' : (prune now width <$> p.(in_nodes)) !! i = Some (prune now width n)) by (rewrite list_lookup_fmap, Hi; done).
  all: pose proof (proj1 (Forall_lookup _ _) He i _ Hi') as Hn; cbn in Hn.
  all: assert (HT : now < T) by (destruct (Z.ltb_spec now T); [done|]; by rewrite (free_by_eligible T) in Hn).
  { lia. }
  rewrite Ht. pose proof (wait_bound now _ i _ T Hi' (free_by_prune _ _ _ Hr) Hn H0) as Hw'. pose proof (Hd 0%nat) as Hd0.
  destruct (IH (fun k => late (S k)) (now + wait_for cfg now (prune now width <$> p.(in_nodes)) + late 0%nat)
               (mkInner (prune now width <$> p.(in_nodes)) p.(in_last_used)) (prune now width n)) as (t & lease & q & Ha & Hb); try done.
  - lia.
  - by apply free_by_prune.
  - exists t, lease, q. split; [exact Ha|]. unfold from_millis in *. lia.
Qed.
End pool.

(** ** A small pool *)

Definition small_cfg : RateLimitConfig := mkRateLimit 1000 2 (from_secs 60) (from_secs 60) 5 (from_secs 30).
Definition small_urls : list string := ["https://node0.example/"; "https://node1.example"]%string.
Definition small_run : list (Z * PoolCall) := [(0, Turn); (0, Turn); (1, Turn); (1, Turn); (2, Turn); (from_secs 60, Turn); (from_secs 61, Turn)].
Definition small_lease : Lease := mkLease 0 "https://node0.example" "node0.example" 0.

Lemma pool_rate_bounded_witness :
  length (run small_cfg small_run (pool_new small_urls 0)).2 = 6%nat /\
  (in_window small_cfg 5 (slots_of 0 (run small_cfg small_run (pool_new small_urls 0)).2) <= 2)%nat.
Proof.
  split; [vm_compute; reflexivity|].
  exact (proj2 (pool_rate_bounded small_cfg ltac:(vm_compute; reflexivity) small_urls 0 small_run ltac:(vm_compute; repeat split; discriminate) 0) 5).
Defined.

Lemma parked_node_rests_witness :
  let ls := (run small_cfg [(1, Turn); (2, Turn); (3, Turn); (from_secs 60, Turn); (from_secs 61, Turn)]
               (report_rate_limited small_cfg 0 small_lease (pool_new small_urls 0)).1).2 in
  length ls = 4%nat /\ Forall (fun l => l.1 < from_secs 60 -> l.2.(le_index) <> 0%nat) ls.
Proof.
  split; [vm_compute; reflexivity|].
  refine (proj1 (parked_node_rests small_cfg 0 small_lease (pool_new small_urls 0) _ _)). vm_compute. repeat constructor.
Defined.

Lemma acquire_returns_witness :
  exists t lease q, acquire small_cfg 2401 (fun _ => 7) (from_secs 1)
    (run small_cfg [(0, Turn); (0, Turn); (1, Turn); (1, Turn)] (pool_new small_urls 0)).1 = Some (t, lease, q) /\
    from_secs 1 <= t <= from_secs 60 + from_millis 50 + 7.
Proof.
  set (p := (run small_cfg [(0, Turn); (0, Turn); (1, Turn); (1, Turn)] (pool_new small_urls 0)).1).
  destruct (acquire_returns small_cfg ltac:(vm_compute; reflexivity) 2400 (fun _ => 7) 7 (from_secs 1) p 0
    (mkNode "https://node0.example" "node0.example" [0; 1000000] 2000000 None 0)) as (t & lease & q & Ha & Hb).
  - vm_compute. repeat constructor.
  - vm_compute. reflexivity.
  - vm_compute. repeat constructor.
  - intros k. lia.
  - vm_compute. discriminate.
  - exists t, lease, q. split; [exact Ha|]. exact Hb.
Defined.
