(* ===== verification/PeerHealth.v ===== *)
(** * The health table of the legacy peers

    [src/src/p2p_legacy/health.rs]: what the node knows about each peer, who is banned or parked as a
    source of blocks, and which peers are asked next.  Instants and durations are nanoseconds as in
    [NodePool]; the clock is an argument, one instant per call, as the code holds the mutex.  The
    answers of the probes that [refresh] sends are an argument. *)

From S2P Require Import Prelude Wallet Rules NodePool.

Definition UNKNOWN_LATENCY_MS : Z := 2000.
Definition BAN_AFTER_FAILURES : Z := 3.
Definition BAN_STEP : Z := from_secs 30.
Definition MAX_BAN : Z := from_secs 600.
Definition HISTORY_LEN : nat := 20.
Definition UNKNOWN_BLOCKS_MS : Z := 1500.
Definition BLOCKS_PARK_STEP : Z := from_secs 30.
Definition BLOCKS_BUDGET_MS : Z := 12000.
Definition BLOCKS_PROBE_LIMIT : Z := 100.
Definition BLOCKS_MIN_LIMIT : Z := 50.
Definition MAX_BLOCKS_PER_REQUEST : Z := 400.

Definition as_millis (d : Z) : Z := d / 1000000.
Definition before (now : Z) (until : option Z) : bool := match until with Some t => now <? t | None => false end.

Record PeerStats : Type := mkPeer {
  pe_ip : string; pe_height : Z; pe_latency_ms : Z; pe_failures : Z; pe_successes : Z; pe_total_failures : Z;
  pe_version : string; pe_pq : bool; pe_accepted_peers : list string; pe_last_ok : option Z; pe_banned_until : option Z;
  pe_latency_history : list Z; pe_blocks_latency_ms : option Z; pe_blocks_failures : Z; pe_blocks_parked_until : option Z
}.
Definition peer_new (ip : string) : PeerStats :=
  mkPeer ip 0 UNKNOWN_LATENCY_MS 0 0 0 EmptyString false [] None None [] None 0 None.

Implicit Types (p : PeerStats).

Definition is_banned (now : Z) p : bool := before now p.(pe_banned_until).
Definition is_blocks_parked (now : Z) p : bool := before now p.(pe_blocks_parked_until).
Definition lag_ms (best_height : Z) p : Z := Z.min (sat_sub best_height p.(pe_height)) 10000 * 50.
Definition score (best_height : Z) p : Z :=
  as_u64 (p.(pe_latency_ms) + lag_ms best_height p + p.(pe_failures) * 1000).
Definition blocks_score (best_height : Z) p : Z :=
  as_u64 (default (p.(pe_latency_ms) + UNKNOWN_BLOCKS_MS) p.(pe_blocks_latency_ms) + lag_ms best_height p + p.(pe_blocks_failures) * 1000).
Definition peer_blocks_limit p : Z :=
  match p.(pe_blocks_latency_ms) with
  | None => BLOCKS_PROBE_LIMIT
  | Some ms => Z.max BLOCKS_MIN_LIMIT (Z.min (as_u32 (MAX_BLOCKS_PER_REQUEST * BLOCKS_BUDGET_MS / Z.max ms 1)) MAX_BLOCKS_PER_REQUEST)
  end.

(** ** The table *)

Record PeerTable : Type := mkTable { pt_port : Z; pt_peers : gmap string PeerStats }.
Implicit Types (t : PeerTable).

(** [str::trim_end], for text: no other byte of a character is white space on its own. *)
Fixpoint trim_end (s : string) : string :=
  match s with
  | EmptyString => EmptyString
  | String c rest => if String.eqb (trim_start s) EmptyString then EmptyString else String c (trim_end rest)
  end.

Definition add (ip : string) t : PeerTable * bool :=
  let ip := trim_end (trim_start ip) in
  if String.eqb ip EmptyString then (t, false) else
  match t.(pt_peers) !! ip with
  | Some _ => (t, false)
  | None => (mkTable t.(pt_port) (<[ip := peer_new ip]> t.(pt_peers)), true)
  end.
Definition add_many (ips : list string) t : PeerTable * nat :=
  foldl (fun '(t, k) ip => let '(t, new) := add ip t in (t, if new then S k else k)) (t, 0%nat) ips.
Definition table_new (port : Z) (seeds : list string) : PeerTable := (add_many seeds (mkTable port ∅)).1.

(** [entry(ip).or_insert_with(new)], then the change; [get_mut(ip)], then the change. *)
Definition at_entry (ip : string) (f : PeerStats -> PeerStats) t : PeerTable :=
  mkTable t.(pt_port) (<[ip := f (default (peer_new ip) (t.(pt_peers) !! ip))]> t.(pt_peers)).
Definition at_known (ip : string) (f : PeerStats -> PeerStats) t : PeerTable := mkTable t.(pt_port) (alter f ip t.(pt_peers)).

Definition succeed (now latency : Z) (height : option Z) p : PeerStats :=
  let ms := as_u64 (as_millis latency) in
  mkPeer p.(pe_ip) (match height with Some h => Z.max p.(pe_height) h | None => p.(pe_height) end)
    (if p.(pe_successes) =? 0 then ms else as_u64 (p.(pe_latency_ms) * 3 + ms) / 4)
    0 (as_u64 (p.(pe_successes) + 1)) p.(pe_total_failures) p.(pe_version) p.(pe_pq) p.(pe_accepted_peers) (Some now) None
    ((if (length p.(pe_latency_history) =? HISTORY_LEN)%nat then tail p.(pe_latency_history) else p.(pe_latency_history)) ++ [ms])
    p.(pe_blocks_latency_ms) p.(pe_blocks_failures) p.(pe_blocks_parked_until).
Definition record_success (now : Z) (ip : string) (latency : Z) (height : option Z) t : PeerTable :=
  at_entry ip (succeed now latency height) t.

Definition ban_for (failures : Z) : Z := Z.min (BAN_STEP * (failures - BAN_AFTER_FAILURES + 1)) MAX_BAN.
Definition misstep (now : Z) p : PeerStats :=
  let failures := as_u32 (p.(pe_failures) + 1) in
  mkPeer p.(pe_ip) p.(pe_height) p.(pe_latency_ms) failures p.(pe_successes) (as_u64 (p.(pe_total_failures) + 1)) p.(pe_version) p.(pe_pq)
    p.(pe_accepted_peers) p.(pe_last_ok)
    (if BAN_AFTER_FAILURES <=? failures then Some (now + ban_for failures) else p.(pe_banned_until))
    p.(pe_latency_history) p.(pe_blocks_latency_ms) p.(pe_blocks_failures) p.(pe_blocks_parked_until).
Definition record_failure (now : Z) (ip : string) t : PeerTable := at_entry ip (misstep now) t.

Definition set_version (ip version : string) (pq : bool) t : PeerTable :=
  at_known ip (fun p => mkPeer p.(pe_ip) p.(pe_height) p.(pe_latency_ms) p.(pe_failures) p.(pe_successes) p.(pe_total_failures) version pq
    p.(pe_accepted_peers) p.(pe_last_ok) p.(pe_banned_until) p.(pe_latency_history) p.(pe_blocks_latency_ms) p.(pe_blocks_failures)
    p.(pe_blocks_parked_until)) t.
Definition set_accepted (ip : string) (accepted : list string) t : PeerTable :=
  at_known ip (fun p => mkPeer p.(pe_ip) p.(pe_height) p.(pe_latency_ms) p.(pe_failures) p.(pe_successes) p.(pe_total_failures) p.(pe_version)
    p.(pe_pq) accepted p.(pe_last_ok) p.(pe_banned_until) p.(pe_latency_history) p.(pe_blocks_latency_ms) p.(pe_blocks_failures)
    p.(pe_blocks_parked_until)) t.

(** The three fields of a peer as a source of blocks. *)
Definition as_source (latency_ms : option Z) (failures : Z) (parked_until : option Z) p : PeerStats :=
  mkPeer p.(pe_ip) p.(pe_height) p.(pe_latency_ms) p.(pe_failures) p.(pe_successes) p.(pe_total_failures) p.(pe_version) p.(pe_pq)
    p.(pe_accepted_peers) p.(pe_last_ok) p.(pe_banned_until) p.(pe_latency_history) latency_ms failures parked_until.

Definition record_blocks_success (now : Z) (ip : string) (latency count : Z) (reached : option Z) t : PeerTable :=
  let t := record_success now ip latency reached t in
  at_known ip (fun p =>
      let per_range := as_u64 (as_u64 (as_millis latency) * MAX_BLOCKS_PER_REQUEST) / Z.max count 1 in
      as_source (Some (match p.(pe_blocks_latency_ms) with Some prev => as_u64 (prev * 3 + per_range) / 4 | None => per_range end)) 0 None p) t.

Definition park_for (failures : Z) (few : bool) : Z :=
  let park := Z.min (BLOCKS_PARK_STEP * Z.shiftl 1 (Z.min (as_u32 (failures - 1)) 5)) MAX_BAN in
  if few then Z.min park (from_secs 5) else park.
Definition record_blocks_failure (now : Z) (ip : string) t : PeerTable :=
  let t := record_failure now ip t in
  let few := (size t.(pt_peers) <=? 2)%nat in
  at_known ip (fun p =>
      let failures := as_u32 (p.(pe_blocks_failures) + 1) in
      as_source p.(pe_blocks_latency_ms) failures (Some (now + park_for failures few)) p) t.

Definition park_blocks_for (now : Z) (ip : string) (d : Z) t : PeerTable :=
  at_known ip (fun p => as_source p.(pe_blocks_latency_ms) p.(pe_blocks_failures) (Some (now + d)) p) t.

Definition unparkable (now : Z) p : bool := negb (is_banned now p) && is_blocks_parked now p.
Definition unpark_blocks (now : Z) t : PeerTable * nat :=
  (mkTable t.(pt_port) ((fun p => if unparkable now p then as_source p.(pe_blocks_latency_ms) 0 None p else p) <$> t.(pt_peers)),
   length (List.filter (unparkable now) (map_to_list t.(pt_peers)).*2)).

(** ** Reading it *)

Definition values t : list PeerStats := (map_to_list t.(pt_peers)).*2.
Definition table_len t : nat := size t.(pt_peers).
Definition best_height (now : Z) t : Z :=
  foldr Z.max 0 (pe_height <$> List.filter (fun p => negb (is_banned now p)) (values t)).
Definition alive (now : Z) t : nat := length (List.filter (fun p => negb (is_banned now p) && (0 <? p.(pe_successes))) (values t)).
Definition alive_by_kind (now : Z) t : nat * nat :=
  foldl (fun '(l, q) p => if p.(pe_pq) then (l, S q) else (S l, q)) (0%nat, 0%nat)
    (List.filter (fun p => (0 <? p.(pe_successes)) && negb (is_banned now p)) (values t)).
Definition is_pq (ip : string) t : bool := match t.(pt_peers) !! ip with Some p => p.(pe_pq) | None => false end.
Definition blocks_limit (ip : string) t : Z := match t.(pt_peers) !! ip with Some p => peer_blocks_limit p | None => BLOCKS_PROBE_LIMIT end.

(** Sorting by a number, then by the address. *)
Definition by_key (key : PeerStats -> Z) (p q : PeerStats) : Prop :=
  key p < key q \/ key p = key q /\ String.leb p.(pe_ip) q.(pe_ip) = true.
#[export] Instance by_key_dec key p q : Decision (by_key key p q).
Proof. unfold by_key. apply _. Defined.

Definition source_ready (now : Z) p : bool := negb (is_banned now p) && negb (is_blocks_parked now p).
Definition best_for_blocks (now : Z) (n : nat) t : list string :=
  let best := best_height now t in
  pe_ip <$> take n (sort_by (by_key (blocks_score best)) (List.filter (source_ready now) (values t))).

(** The banned peers last, as the tuple [(is_banned, score, ip)] sorts. *)
Definition ranks (now best : Z) (p q : PeerStats) : Prop :=
  if Bool.eqb (is_banned now p) (is_banned now q) then by_key (score best) p q else is_banned now q = true.
#[export] Instance ranks_dec now best p q : Decision (ranks now best p q).
Proof. unfold ranks. destruct (Bool.eqb _ _); apply _. Defined.
Definition table_snapshot (now : Z) t : list PeerStats := sort_by (ranks now (best_height now t)) (values t).
Definition best_peers (now : Z) (n : nat) t : list string :=
  pe_ip <$> take n (List.filter (fun p => negb (is_banned now p)) (table_snapshot now t)).

(** ** Probes *)

Record Probe : Type := mkProbe {
  pr_latency : Z; pr_height : Z; pr_version : string; pr_pq : bool; pr_peers : list string; pr_accepted : list string
}.

(** The answers of [refresh], each with the instant it is recorded. *)
Definition absorb (t : PeerTable) (r : Z * string * option Probe) : PeerTable :=
  let '(now, ip, answer) := r in
  match answer with
  | Some pr =>
      (add_many pr.(pr_peers)
         (set_accepted ip pr.(pr_accepted)
            (set_version ip pr.(pr_version) pr.(pr_pq) (record_success now ip pr.(pr_latency) (Some pr.(pr_height)) t)))).1
  | None => record_failure now ip t
  end.
Definition refresh (results : list (Z * string * option Probe)) t : PeerTable * nat :=
  (foldl absorb t results, length (List.filter (fun r => is_some r.2) results)).

Record AcceptanceReport : Type := mkAcceptance { ar_asked : nat; ar_listed : nat; ar_peers : list (string * Z * string * bool) }.
Definition report_order (x y : string * Z * string * bool) : Prop :=
  if Bool.eqb x.2 y.2 then String.leb x.1.1.1 y.1.1.1 = true else x.2 = true.
#[export] Instance report_order_dec x y : Decision (report_order x y).
Proof. unfold report_order. destruct (Bool.eqb _ _); apply _. Defined.
Definition acceptance_check (now : Z) (me : string) t : AcceptanceReport :=
  let asked := List.filter (fun p => (0 <? p.(pe_successes)) && is_some p.(pe_last_ok)) (table_snapshot now t) in
  let lists p := existsb (String.eqb me) p.(pe_accepted_peers) in
  mkAcceptance (length asked) (length (List.filter lists asked))
    (sort_by report_order ((fun p => (p.(pe_ip), p.(pe_height), p.(pe_version), lists p)) <$> asked)).

(** ** Bans end, and the best sources are asked

    Theorems about the health table of [PeerHealth]. *)

(** ** The head of a sorted list *)

Lemma StronglySorted_merge_weak {A} (R W : A -> A -> Prop) `{!RelDecision R} `{!Total R} `{!Transitive W} (l : list A) :
  (forall x y, R x y -> W x y) -> StronglySorted W (sort_by R l).
Proof.
  intros HW. apply Sorted_StronglySorted; [apply _|]. pose proof (Sorted_sort_by R l) as H.
  induction H as [|x k H IH Hx]; constructor; [done|]. destruct Hx; constructor. by apply HW.
Qed.

(** Whoever is left out is no better than anybody who is in, and there was no room. *)
Lemma take_best {A} (W : A -> A -> Prop) n (l : list A) x : StronglySorted W l -> x ∈ l ->
  x ∈ take n l \/ (length (take n l) = n /\ forall y, y ∈ take n l -> W y x).
Proof.
  intros Hs Hx. rewrite <- (take_drop n l) in Hx. apply elem_of_app in Hx as [Hx|Hx]; [by left|right]. split.
  - rewrite length_take. destruct (decide (n <= length l)%nat); [lia|]. rewrite drop_ge in Hx by lia. by apply elem_of_nil in Hx.
  - intros y Hy. rewrite <- (take_drop n l) in Hs. eapply StronglySorted_app_1_elem_of; [exact Hs|done|done].
Qed.

(** ** The sources of blocks *)

#[local] Instance by_key_total key : Total (by_key key).
Proof.
  intros p q. unfold by_key. destruct (Z.lt_trichotomy (key p) (key q)) as [|[->|]]; [by left; left| |by right; left].
  destruct (String.leb_total p.(pe_ip) q.(pe_ip)); [left|right]; by right.
Qed.

Definition key_weak (key : PeerStats -> Z) (p q : PeerStats) : Prop := key p <= key q.
#[local] Instance key_weak_trans key : Transitive (key_weak key).
Proof. intros p q r. unfold key_weak. lia. Qed.


(** Every entry is stored under its address. *)
Definition addressed t : Prop := map_Forall (fun ip p => p.(pe_ip) = ip) t.(pt_peers).

Lemma elem_of_peers t p : p ∈ values t <-> exists ip, t.(pt_peers) !! ip = Some p.
Proof.
  unfold values. rewrite list_elem_of_fmap. split.
  - intros ([ip q] & -> & H). exists ip. by apply elem_of_map_to_list.
  - intros (ip & H). exists (ip, p). split; [done|]. by apply elem_of_map_to_list.
Qed.

Lemma NoDup_values_ip t : addressed t -> NoDup (pe_ip <$> values t).
Proof.
  intros H. unfold values. rewrite <- list_fmap_compose. assert (He : (pe_ip ∘ snd) <$> map_to_list t.(pt_peers) = (map_to_list t.(pt_peers)).*1).
  { apply list_fmap_ext. intros i [ip p] Hi. apply list_elem_of_lookup_2, elem_of_map_to_list in Hi. exact (H ip p Hi). }
  rewrite He. apply NoDup_fst_map_to_list.
Qed.

(** The sources that may be asked, best first. *)
Definition ready_sources (now : Z) t : list PeerStats :=
  sort_by (by_key (blocks_score (best_height now t))) (List.filter (source_ready now) (values t)).

Lemma elem_of_ready now t p : p ∈ ready_sources now t <-> source_ready now p = true /\ exists ip, t.(pt_peers) !! ip = Some p.
Proof.
  unfold ready_sources. rewrite sort_by_Permutation, list_elem_of_In, filter_In, <- list_elem_of_In, elem_of_peers. tauto.
Qed.

(** The node asks the best sources it has.  [best_for_blocks] names at most [n] different known
    peers, none of them banned or parked; and a peer that could be asked but is not named means that [n]
    are named, none of which scores worse. *)
Theorem best_for_blocks_top now n t (Ha : addressed t) :
  let best := best_for_blocks now n t in
  (length best <= n)%nat /\ NoDup best /\
  (forall ip, ip ∈ best -> exists p, t.(pt_peers) !! ip = Some p /\ source_ready now p = true) /\
  (forall ip p, t.(pt_peers) !! ip = Some p -> source_ready now p = true ->
     ip ∈ best \/ length best = n /\ forall ip' p', ip' ∈ best -> t.(pt_peers) !! ip' = Some p' ->
       blocks_score (best_height now t) p' <= blocks_score (best_height now t) p).
Proof.
  intros best. unfold best, best_for_blocks. fold (ready_sources now t). set (l := ready_sources now t).
  assert (Hs : StronglySorted (key_weak (blocks_score (best_height now t))) l).
  { apply (StronglySorted_merge_weak (by_key _)); [apply _..|]. intros p q [H|[H _]]; unfold key_weak; lia. }
  assert (Hin : forall p, p ∈ take n l -> p ∈ l) by (intros p H; eapply elem_of_sublist; [exact H|apply sublist_take]).
  split_and!.
  - rewrite length_fmap, length_take. lia.
  - apply (sublist_NoDup _ (pe_ip <$> l)); [|rewrite fmap_take; apply sublist_take]. unfold l, ready_sources. rewrite sort_by_Permutation.
    apply (sublist_NoDup _ (pe_ip <$> values t)); [by apply NoDup_values_ip|]. apply fmap_sublist.
    generalize (values t). intros q. induction q as [|x q IH]; cbn; [constructor|]. destruct (source_ready now x); by constructor.
  - intros ip (p & -> & Hp)%list_elem_of_fmap. apply Hin, elem_of_ready in Hp as (Hr & ip & Hp). exists p. split; [|done]. by rewrite (Ha ip p Hp).
  - intros ip p Hp Hr. assert (Hl : p ∈ l) by (apply elem_of_ready; eauto). destruct (take_best _ n l p Hs Hl) as [Ht|[Hlen Hw]].
    + left. apply list_elem_of_fmap. exists p. split; [|done]. by rewrite (Ha ip p Hp).
    + right. rewrite length_fmap. split; [done|]. intros ip' p' (q & -> & Hq)%list_elem_of_fmap Hp'. pose proof (Hw q Hq) as Hk.
      apply Hin, elem_of_ready in Hq as (_ & a & Hq). rewrite (Ha a q Hq), Hq in Hp'. by injection Hp' as <-.
Qed.

(** ** Bans *)

(** What the node does with the table, each call at an instant of its own; [refresh] is one [Probed] for
    each peer. *)
Inductive PeerCall : Type :=
| Add (ip : string)
| Success (ip : string) (latency : Z) (height : option Z)
| Failure (ip : string)
| BlocksSuccess (ip : string) (latency count : Z) (reached : option Z)
| BlocksFailure (ip : string)
| ParkBlocks (ip : string) (d : Z)
| Unpark
| Probed (ip : string) (answer : option Probe).

Definition peer_call t (c : Z * PeerCall) : PeerTable :=
  let '(now, c) := c in
  match c with
  | Add ip => (add ip t).1
  | Success ip latency height => record_success now ip latency height t
  | Failure ip => record_failure now ip t
  | BlocksSuccess ip latency count reached => record_blocks_success now ip latency count reached t
  | BlocksFailure ip => record_blocks_failure now ip t
  | ParkBlocks ip d => park_blocks_for now ip d t
  | Unpark => (unpark_blocks now t).1
  | Probed ip answer => absorb t (now, ip, answer)
  end.
Definition peer_calls (cs : list (Z * PeerCall)) t : PeerTable := foldl peer_call t cs.

(** No call asks for a longer park than the longest ban, and none comes after [now]. *)
Definition within (now : Z) (c : Z * PeerCall) : Prop := c.1 <= now /\ match c.2 with ParkBlocks _ d => d <= MAX_BAN | _ => True end.

Definition ends_by (until : Z) (o : option Z) : Prop := match o with Some u => u <= until | None => True end.

Record peer_ok (until : Z) (ip : string) p : Prop := {
  po_ip : p.(pe_ip) = ip;
  po_ban : ends_by until p.(pe_banned_until);
  po_park : ends_by until p.(pe_blocks_parked_until);
  po_history : (length p.(pe_latency_history) <= HISTORY_LEN)%nat
}.
Definition table_ok (until : Z) t : Prop := map_Forall (peer_ok until) t.(pt_peers).

Lemma peer_ok_new until ip : peer_ok until ip (peer_new ip).
Proof. split; cbn; [done..|unfold HISTORY_LEN; lia]. Qed.

Lemma table_ok_entry until ip f t : (forall p, peer_ok until ip p -> peer_ok until ip (f p)) -> table_ok until t -> table_ok until (at_entry ip f t).
Proof.
  intros Hf H. apply map_Forall_insert_2; [|done]. apply Hf. destruct (pt_peers t !! ip) eqn:Hp; [exact (H ip _ Hp)|apply peer_ok_new].
Qed.

Lemma table_ok_known until ip f t : (forall p, peer_ok until ip p -> peer_ok until ip (f p)) -> table_ok until t -> table_ok until (at_known ip f t).
Proof.
  intros Hf H ip' p. cbn. rewrite lookup_alter_Some. intros [(<- & q & Hq & ->)|[_ Hp]]; [apply Hf; exact (H ip q Hq)|exact (H ip' p Hp)].
Qed.

Lemma add_ok until ip t : table_ok until t -> table_ok until (add ip t).1.
Proof.
  intros H. unfold add. destruct (String.eqb _ _); [done|]. destruct (pt_peers t !! _) eqn:Hp; [done|]. cbn. apply map_Forall_insert_2; [apply peer_ok_new|done].
Qed.

Lemma add_many_table_ok until ips : forall t, table_ok until t -> table_ok until (add_many ips t).1.
Proof.
  unfold add_many. generalize 0%nat. induction ips as [|ip ips IH]; intros k t H; cbn [foldl]; [done|].
  pose proof (add_ok until ip t H) as H1. destruct (add ip t) as [t1 new]. by apply IH.
Qed.

Lemma success_ok until now ip latency height t : table_ok until t -> table_ok until (record_success now ip latency height t).
Proof.
  apply table_ok_entry. intros p [H1 H2 H3 H4]. split; cbn; try done. rewrite length_app. cbn.
  destruct (Nat.eqb_spec (length (pe_latency_history p)) HISTORY_LEN); [|unfold HISTORY_LEN in *; lia].
  destruct (pe_latency_history p); cbn in *; unfold HISTORY_LEN in *; lia.
Qed.

Lemma ban_for_le failures : ban_for failures <= MAX_BAN.
Proof. unfold ban_for. lia. Qed.
Lemma park_for_le failures few : park_for failures few <= MAX_BAN.
Proof. unfold park_for. destruct few; lia. Qed.

Lemma failure_ok until now ip t : now + MAX_BAN <= until -> table_ok until t -> table_ok until (record_failure now ip t).
Proof.
  intros Hu. apply table_ok_entry. intros p [H1 H2 H3 H4]. split; cbn; try done. destruct (_ <=? _); [|done]. cbn. pose proof (ban_for_le (as_u32 (pe_failures p + 1))). lia.
Qed.

Lemma source_ok until ip latency failures parked p : ends_by until parked -> peer_ok until ip p -> peer_ok until ip (as_source latency failures parked p).
Proof. intros H []. by split. Qed.

Lemma absorb_ok until now ip answer t : now + MAX_BAN <= until -> table_ok until t -> table_ok until (absorb t (now, ip, answer)).
Proof.
  intros Hu H. destruct answer as [pr|]; cbn; [|by apply failure_ok].
  apply add_many_table_ok. unfold set_accepted, set_version. do 2 (apply table_ok_known; [intros p []; by split|]). by apply success_ok.
Qed.

Lemma peer_call_ok now c t : within now c -> table_ok (now + MAX_BAN) t -> table_ok (now + MAX_BAN) (peer_call t c).
Proof.
  destruct c as [at_ c]. intros [Hle Hd] H. cbn in Hle, Hd. destruct c; cbn [peer_call].
  - by apply add_ok.
  - by apply success_ok.
  - apply failure_ok; [lia|done].
  - apply table_ok_known; [|by apply success_ok]. intros p. by apply source_ok.
  - apply table_ok_known; [|apply failure_ok; [lia|done]]. intros p. apply source_ok. unfold ends_by. eapply Z.add_le_mono; [exact Hle|apply park_for_le].
  - apply table_ok_known; [|done]. intros p. apply source_ok. cbn. lia.
  - intros ip p. cbn. rewrite lookup_fmap. intros (q & Hq & ->)%fmap_Some. pose proof (H ip q Hq) as Hok. destruct (unparkable at_ q); [by apply source_ok|done].
  - apply absorb_ok; [lia|done].
Qed.

Lemma peer_calls_ok now cs t : Forall (within now) cs -> table_ok (now + MAX_BAN) t -> table_ok (now + MAX_BAN) (peer_calls cs t).
Proof. intros H. revert t. induction H as [|c cs Hc _ IH]; intros t Ht; cbn; [done|]. by apply IH, peer_call_ok. Qed.

Lemma table_new_ok until port seeds : table_ok until (table_new port seeds).
Proof. apply add_many_table_ok. apply map_Forall_empty. Qed.

(** No peer is given up for good.  Whatever a peer did, and whatever the table was told about it,
    ten minutes after the last call it is neither banned nor parked, and it is among the sources the node
    asks when it asks as many as it knows; the table keeps at most twenty latencies for each peer. *)
Theorem exclusions_end port seeds cs now later n
    (Hc : Forall (within now) cs) (Hl : now + MAX_BAN <= later) :
  let t := peer_calls cs (table_new port seeds) in
  (table_len t <= n)%nat -> forall ip p, t.(pt_peers) !! ip = Some p ->
    source_ready later p = true /\ ip ∈ best_for_blocks later n t /\ (length p.(pe_latency_history) <= HISTORY_LEN)%nat.
Proof.
  intros t Hn ip p Hp. assert (Hok : table_ok (now + MAX_BAN) t) by (apply peer_calls_ok; [done|apply table_new_ok]).
  destruct (Hok ip p Hp) as [Hip Hb Hk Hh].
  assert (Hr : source_ready later p = true).
  { unfold source_ready, is_banned, is_blocks_parked, before. unfold ends_by in *. destruct (pe_banned_until p), (pe_blocks_parked_until p); cbn; lia. }
  split_and!; [done| |done]. apply list_elem_of_fmap. exists p. split; [done|]. fold (ready_sources later t).
  rewrite take_ge; [apply elem_of_ready; eauto|]. unfold ready_sources. rewrite sort_by_Permutation.
  pose proof (List.filter_length_le (source_ready later) (values t)). unfold values in *. rewrite length_fmap, length_map_to_list in H. unfold table_len in Hn. lia.
Qed.

(** ** The ladder *)

(** [k] failures in a row, the last one at [now]. *)
Definition fails (ip : string) (times : list Z) t : PeerTable := foldl (fun t now => record_failure now ip t) t times.

Lemma fails_spec ip times : forall t p, t.(pt_peers) !! ip = Some p -> 0 <= p.(pe_failures) -> p.(pe_failures) + Z.of_nat (length times) <= u32_max ->
  exists q, (fails ip times t).(pt_peers) !! ip = Some q /\ q.(pe_failures) = p.(pe_failures) + Z.of_nat (length times) /\
    q.(pe_banned_until) =
      (match last times with
       | Some now => if BAN_AFTER_FAILURES <=? q.(pe_failures) then Some (now + ban_for q.(pe_failures)) else p.(pe_banned_until)
       | None => p.(pe_banned_until)
       end).
Proof.
  induction times as [|now times IH]; intros t p Hp H0 Hb; cbn [fails foldl].
  - exists p. cbn in *. split_and!; [done|lia|done].
  - fold (fails ip times (record_failure now ip t)). cbn [length] in Hb.
    assert (H1 : (record_failure now ip t).(pt_peers) !! ip = Some (misstep now p)) by (cbn; by rewrite lookup_insert_eq, Hp).
    assert (Hf : (misstep now p).(pe_failures) = p.(pe_failures) + 1) by (cbn; rewrite as_u32_id; [done|bounds; lia]).
    destruct (IH _ _ H1) as (q & Hq & Hqf & Hqb); [lia|lia|]. exists q. rewrite Hf in Hqf. split_and!; [done|cbn [length]; lia|].
    rewrite Hqb. destruct times as [|x times]; cbn [last]; [|].
    + cbn in Hqf. rewrite Z.add_0_r in Hqf. cbn. rewrite Hqf, as_u32_id by (bounds; lia). done.
    + change (last (now :: x :: times)) with (last (x :: times)). destruct (last_is_Some (x :: times)) as [_ Hl]. destruct (Hl ltac:(done)) as [u Hu]. rewrite Hu.
      destruct (Z.leb_spec BAN_AFTER_FAILURES (pe_failures q)); [done|]. cbn. rewrite as_u32_id by (bounds; lia).
      destruct (Z.leb_spec BAN_AFTER_FAILURES (pe_failures p + 1)); [|done]. rewrite Hqf in *. cbn [length] in *. lia.
Qed.

(** A peer that fails is banned by degrees.  After an answer and then [k] failures in a row it is
    free while [k < 3], and otherwise banned for thirty seconds more with every failure, up to ten
    minutes from the last one; the next answer lifts the ban at once. *)
Theorem ban_ladder ip now latency height times last_time t (Hb : Z.of_nat (length times) <= u32_max) (Hl : last times = Some last_time) :
  let k := Z.of_nat (length times) in
  let t' := fails ip times (record_success now ip latency height t) in
  (exists p, t'.(pt_peers) !! ip = Some p /\
     forall later, is_banned later p = (3 <=? k) && (later <? last_time + Z.min (from_secs 30 * (k - 2)) (from_secs 600))) /\
  forall now' latency' height', exists p, (record_success now' ip latency' height' t').(pt_peers) !! ip = Some p /\ forall later, is_banned later p = false.
Proof.
  intros k t'. split.
  - set (t1 := record_success now ip latency height t) in *.
    assert (H1 : exists p, t1.(pt_peers) !! ip = Some p /\ p.(pe_failures) = 0 /\ p.(pe_banned_until) = None).
    { eexists. split; [cbn; apply lookup_insert_eq|done]. }
    destruct H1 as (p & Hp & Hf & Hn). destruct (fails_spec ip times t1 p Hp) as (q & Hq & Hqf & Hqb); [lia|lia|].
    exists q. split; [done|]. intros later. rewrite Hf in Hqf. rewrite Hl in Hqb. unfold is_banned, before. rewrite Hqb, Hqf, Hn.
    change (0 + Z.of_nat (length times)) with k. unfold ban_for, BAN_AFTER_FAILURES, BAN_STEP, MAX_BAN.
    destruct (3 <=? k); [|done]. cbn [andb]. replace (k - 3 + 1) with (k - 2) by lia. done.
  - intros now' latency' height'. eexists. split; [cbn; apply lookup_insert_eq|]. done.
Qed.

(** ** A small table *)

Definition small_table : PeerTable :=
  peer_calls [(1, Success "10.0.0.1" (from_millis 40) (Some 90)); (2, Success "10.0.0.2" (from_millis 900) (Some 100)); (3, Failure "10.0.0.3");
              (4, BlocksFailure "10.0.0.2"); (5, Failure "10.0.0.3"); (6, Failure "10.0.0.3")] (table_new 4001 ["10.0.0.1"; " 10.0.0.2 "]%string).

Lemma small_table_addressed : addressed small_table.
Proof. apply map_Forall_to_list. vm_compute. repeat constructor. Qed.

Lemma best_for_blocks_top_witness :
  best_for_blocks 7 5 small_table = ["10.0.0.1"]%string /\ NoDup (best_for_blocks (from_secs 40) 1 small_table) /\
  (length (best_for_blocks (from_secs 40) 1 small_table) <= 1)%nat.
Proof.
  split; [vm_compute; reflexivity|]. destruct (best_for_blocks_top (from_secs 40) 1 small_table small_table_addressed) as (Hlen & Hnd & _ & _).
  split; [exact Hnd|exact Hlen].
Defined.

Lemma exclusions_end_witness : "10.0.0.3"%string ∈ best_for_blocks (from_secs 601) 3 small_table.
Proof.
  assert (Hp : exists p, small_table.(pt_peers) !! "10.0.0.3"%string = Some p) by (eexists; vm_compute; reflexivity).
  destruct Hp as [p Hp]. refine (proj1 (proj2 (exclusions_end 4001 _ _ 6 (from_secs 601) 3 _ _ _ _ p Hp))).
  - repeat constructor; cbn; lia.
  - vm_compute. discriminate.
  - vm_compute. repeat constructor.
Defined.

Lemma ban_ladder_witness :
  exists p, (fails "10.0.0.9" [10; 20; 30; 40] (record_success 5 "10.0.0.9" 1 None (table_new 4001 []))).(pt_peers) !! "10.0.0.9"%string = Some p /\
    is_banned (from_secs 60) p = true /\ is_banned (from_secs 61) p = false.
Proof.
  destruct (ban_ladder "10.0.0.9" 5 1 None [10; 20; 30; 40] 40 (table_new 4001 []) ltac:(vm_compute; discriminate) ltac:(reflexivity))
    as [(p & Hp & Hl) _].
  exists p. split; [exact Hp|]. rewrite !Hl. split; vm_compute; reflexivity.
Defined.
