(* ===== verification/NetAddr.v ===== *)
(** * Socket addresses as text

    [str::parse::<SocketAddr>] of the standard library, which decides which addresses of a signed record count
    ([src/src/p2p_iroh/addrbook.rs]): four decimal numbers without leading zeros, or up to eight groups in brackets
    with one gap and an optional scope, and a port.  A parser takes the text and returns the value with the rest. *)

From S2P Require Import Prelude.

Inductive IpAddr : Type := V4 (octets : list Z) | V6 (segments : list Z).
Record SocketAddr : Type := mkSocket { so_ip : IpAddr; so_port : Z; so_scope : Z }.
#[export] Instance ip_addr_eq_dec : EqDecision IpAddr.
Proof. solve_decision. Defined.
#[export] Instance socket_addr_eq_dec : EqDecision SocketAddr.
Proof. solve_decision. Defined.

Definition parser (A : Type) : Type := string -> option (A * string).

Definition code (a : ascii) : Z := Z.of_N (Ascii.N_of_ascii a).

Definition to_digit (radix : Z) (a : ascii) : option Z :=
  let c := code a in
  let d := if is_digit c then Some (c - 48) else if is_lower c then Some (c - 87) else if is_upper c then Some (c - 55) else None in
  match d with Some d => if d <? radix then Some d else None | None => None end.

(** The digits in front; a value above [top] or more than [most] digits end it without a result. *)
Fixpoint digits (radix top : Z) (most : option nat) (s : string) (value : Z) (count : nat) : option (Z * nat * string) :=
  match s with
  | String a rest =>
      match to_digit radix a with
      | Some d =>
          let value := value * radix + d in
          if top <? value then None else
          if match most with Some m => (m <? S count)%nat | None => false end then None
          else digits radix top most rest value (S count)
      | None => Some (value, count, s)
      end
  | EmptyString => Some (value, count, s)
  end.

Definition leads_zero (s : string) : bool := match s with String a _ => Ascii.eqb a "0" | EmptyString => false end.

Definition read_number (radix top : Z) (most : option nat) (zero_prefix : bool) : parser Z := fun s =>
  match digits radix top most s 0 0 with
  | Some (v, count, rest) =>
      if (count =? 0)%nat || (negb zero_prefix && leads_zero s && (1 <? count)%nat) then None else Some (v, rest)
  | None => None
  end.

Definition read_char (c : ascii) : parser unit := fun s =>
  match s with String a rest => if Ascii.eqb a c then Some (tt, rest) else None | EmptyString => None end.

(** The separator stands before every element but the first. *)
Definition read_separator {A} (sep : ascii) (index : nat) (p : parser A) : parser A := fun s =>
  if (index =? 0)%nat then p s else match read_char sep s with Some (_, rest) => p rest | None => None end.

Fixpoint read_octets (k index : nat) (s : string) : option (list Z * string) :=
  match k with
  | O => Some ([], s)
  | S k =>
      match read_separator "." index (read_number 10 u8_max (Some 3%nat) false) s with
      | Some (x, s) => match read_octets k (S index) s with Some (l, s) => Some (x :: l, s) | None => None end
      | None => None
      end
  end.
Definition read_ipv4 : parser (list Z) := read_octets 4 0.

(** Up to [k] groups; the flag says that the last two were written as an IPv4 address. *)
Fixpoint read_groups (k index : nat) (s : string) : list Z * bool * string :=
  match k with
  | O => ([], false, s)
  | S k' =>
      match (if (1 <? k)%nat then read_separator ":" index read_ipv4 s else None) with
      | Some ([a; b; c; d], rest) => ([a * 256 + b; c * 256 + d], true, rest)
      | _ =>
          match read_separator ":" index (read_number 16 u16_max (Some 4%nat) true) s with
          | Some (g, rest) => let '(l, v4, rest) := read_groups k' (S index) rest in (g :: l, v4, rest)
          | None => ([], false, s)
          end
      end
  end.

Definition read_ipv6 : parser (list Z) := fun s =>
  let '(head, head_v4, rest) := read_groups 8 0 s in
  if (length head =? 8)%nat then Some (head, rest) else
  if head_v4 then None else
  match read_char ":" rest with
  | Some (_, rest) =>
      match read_char ":" rest with
      | Some (_, rest) =>
          let '(tail, _, rest) := read_groups (7 - length head) 0 rest in
          Some (head ++ repeat 0 (8 - length head - length tail) ++ tail, rest)
      | None => None
      end
  | None => None
  end.

Definition read_port : parser Z := fun s =>
  match read_char ":" s with Some (_, rest) => read_number 10 u16_max None true rest | None => None end.

(** Without one the scope is zero and nothing is taken. *)
Definition read_scope (s : string) : Z * string :=
  match read_char "%" s with
  | Some (_, rest) => match read_number 10 u32_max None true rest with Some r => r | None => (0, s) end
  | None => (0, s)
  end.

Definition read_socket_v4 : parser SocketAddr := fun s =>
  match read_ipv4 s with
  | Some (ip, rest) => match read_port rest with Some (port, rest) => Some (mkSocket (V4 ip) port 0, rest) | None => None end
  | None => None
  end.

Definition read_socket_v6 : parser SocketAddr := fun s =>
  match read_char "[" s with
  | Some (_, rest) =>
      match read_ipv6 rest with
      | Some (ip, rest) =>
          let '(scope, rest) := read_scope rest in
          match read_char "]" rest with
          | Some (_, rest) => match read_port rest with Some (port, rest) => Some (mkSocket (V6 ip) port scope, rest) | None => None end
          | None => None
          end
      | None => None
      end
  | None => None
  end.

Definition parse_socket (s : string) : option SocketAddr :=
  match match read_socket_v4 s with Some r => Some r | None => read_socket_v6 s end with
  | Some (a, EmptyString) => Some a
  | _ => None
  end.

Example parse_v4 : parse_socket "185.199.110.5:4004" = Some (mkSocket (V4 [185; 199; 110; 5]) 4004 0).
Proof. vm_compute. reflexivity. Qed.
Example parse_v6 : parse_socket "[2a01:4f8::ff:10.0.0.1%3]:80" = Some (mkSocket (V6 [10753; 1272; 0; 0; 0; 255; 2560; 1]) 80 3).
Proof. vm_compute. reflexivity. Qed.
Example parse_v6_gap : parse_socket "[::1]:80" = Some (mkSocket (V6 [0; 0; 0; 0; 0; 0; 0; 1]) 80 0).
Proof. vm_compute. reflexivity. Qed.
Example parse_leading_zero : parse_socket "10.0.0.01:80" = None /\ parse_socket "10.0.0.1" = None /\ parse_socket "10.0.0.1:65536" = None
  /\ parse_socket "10.0.0.1:080" = Some (mkSocket (V4 [10; 0; 0; 1]) 80 0) /\ parse_socket "[1:2]:3" = None.
Proof. vm_compute. auto. Qed.
