(* ===== verification/IrohPeers.v ===== *)
(** * The peer table of the iroh layer

    [src/src/p2p_iroh/peers.rs].  A [HashMap] iterates in an order of its own: the class [PeerOrder] gives
    some permutation.  The clock is an argument. *)

From S2P Require Import Prelude.

Record IrohPeerInfo : Type := mkIrohPeer {
  ip_id : string; ip_height : Z; ip_latency_ms : option Z; ip_last_seen : Z; ip_messages : Z; ip_failures : Z;
  ip_neighbor : bool; ip_neighbor_topics : list bool; ip_gateway : option string; ip_path : option string
}.
Definition TOPIC_BLOCKS : nat := 0.
Definition TOPIC_TXS : nat := 1.
Definition TOPIC_FINALITY : nat := 2.

Definition IrohPeers : Type := gmap string IrohPeerInfo.

Class PeerOrder : Type := {
  ih_values : IrohPeers -> list IrohPeerInfo;
  ih_values_perm m : ih_values m ≡ₚ (map_to_list m).*2
}.

Definition iroh_new (now : Z) (id : string) : IrohPeerInfo := mkIrohPeer id 0 None now 0 0 false [false; false; false] None None.

Section peers.
Implicit Types (m : IrohPeers) (p : IrohPeerInfo).

Definition iroh_entry (now : Z) (id : string) (f : IrohPeerInfo -> IrohPeerInfo) m : IrohPeers :=
  <[id := f (default (iroh_new now id) (m !! id))]> m.

Definition higher (height : option Z) (h : Z) : Z := match height with Some h' => Z.max h h' | None => h end.

Definition iroh_seen (now : Z) (id : string) (height : option Z) m : IrohPeers :=
  iroh_entry now id (fun p => mkIrohPeer p.(ip_id) (higher height p.(ip_height)) p.(ip_latency_ms) now (as_u64 (p.(ip_messages) + 1)) p.(ip_failures)
    p.(ip_neighbor) p.(ip_neighbor_topics) p.(ip_gateway) p.(ip_path)) m.

(** The topic is one of the three constants. *)
Definition iroh_set_neighbor (now : Z) (id : string) (topic : nat) (up : bool) m : IrohPeers :=
  iroh_entry now id (fun p =>
      let topics := <[topic := up]> p.(ip_neighbor_topics) in
      mkIrohPeer p.(ip_id) p.(ip_height) p.(ip_latency_ms) p.(ip_last_seen) p.(ip_messages) p.(ip_failures)
        (existsb (fun t => t) topics) topics p.(ip_gateway) p.(ip_path)) m.

Definition iroh_record_rpc (now : Z) (id : string) (latency_ms height : option Z) m : IrohPeers :=
  iroh_entry now id (fun p =>
      mkIrohPeer p.(ip_id) (higher height p.(ip_height))
        (match latency_ms with
         | Some ms => Some (match p.(ip_latency_ms) with Some old => as_u64 (old * 3 + ms) / 4 | None => ms end)
         | None => p.(ip_latency_ms)
         end)
        now p.(ip_messages) (match latency_ms with Some _ => p.(ip_failures) | None => as_u64 (p.(ip_failures) + 1) end)
        p.(ip_neighbor) p.(ip_neighbor_topics) p.(ip_gateway) p.(ip_path)) m.

Definition iroh_set_path (now : Z) (id kind : string) m : IrohPeers :=
  iroh_entry now id (fun p => mkIrohPeer p.(ip_id) p.(ip_height) p.(ip_latency_ms) p.(ip_last_seen) p.(ip_messages) p.(ip_failures)
    p.(ip_neighbor) p.(ip_neighbor_topics) p.(ip_gateway) (Some kind)) m.
Definition iroh_set_gateway (now : Z) (id : string) (addr : option string) m : IrohPeers :=
  iroh_entry now id (fun p => mkIrohPeer p.(ip_id) p.(ip_height) p.(ip_latency_ms) p.(ip_last_seen) p.(ip_messages) p.(ip_failures)
    p.(ip_neighbor) p.(ip_neighbor_topics) addr p.(ip_path)) m.

Context `{PO : PeerOrder}.

Definition neighbors_on (topic : nat) m : nat :=
  length (List.filter (fun p => default false (p.(ip_neighbor_topics) !! topic)) (ih_values m)).

(** [v.sort(); v.dedup()]. *)
Fixpoint dedup_sorted (l : list string) : list string :=
  match l with
  | x :: ((y :: _) as rest) => if String.eqb x y then dedup_sorted rest else x :: dedup_sorted rest
  | l => l
  end.
Definition str_le (x y : string) : Prop := String.leb x y = true.
#[export] Instance str_le_dec x y : Decision (str_le x y) := bool_eq_dec _ _.
Definition gateways m : list string :=
  dedup_sorted (sort_by str_le (omap ip_gateway (ih_values m))).

(** Neighbours first, then the highest first; a stable sort. *)
Definition iroh_rank (p q : IrohPeerInfo) : Prop :=
  if Bool.eqb p.(ip_neighbor) q.(ip_neighbor) then q.(ip_height) <= p.(ip_height) else p.(ip_neighbor) = true.
#[export] Instance iroh_rank_dec p q : Decision (iroh_rank p q).
Proof. unfold iroh_rank. destruct (Bool.eqb _ _); apply _. Defined.
Definition iroh_snapshot m : list IrohPeerInfo := sort_by iroh_rank (ih_values m).

Definition iroh_best_height m : Z := foldr Z.max 0 (ip_height <$> ih_values m).
End peers.
