(* ===== verification/AddrBook.v ===== *)
(** * The address book

    [src/src/p2p_iroh/addrbook.rs]: the signed record with which a node says where it can be dialled, what makes one
    acceptable, and the book of the records of other nodes.  An [EndpointId] is its 64-digit text, so ids are ordered as
    their texts; parsing one, parsing a relay address and the Ed25519 operations are code of iroh, the class [IrohKeys].
    A [HashMap] iterates in an order of its own ([BookOrder]); the clock is an argument; the book in the key/value tree
    ([ab:]) is a map of its own, apart from the keys of the chain.  What iroh is told to dial is the list of the calls
    of [add_endpoint_info].  The tasks that call the book are in [Gossip]. *)

From S2P Require Import Prelude Models Env Bytes Crypto Rules NodePool PeerHealth NetAddr IrohPeers.

Definition DOMAIN : string := "sthpq-addr-v1".
Definition RELAY_RECORDS : nat := 16.
Definition MAX_RECORDS : nat := 100.
Definition MAX_ADDRS : nat := 8.
Definition FUTURE_SKEW : Z := 600.
Definition FRESH_SECS : Z := 3 * 86400.

Class IrohKeys : Type := {
  (** [str::parse::<PublicKey>], [str::parse::<RelayUrl>] *)
  endpoint_parse : string -> option string;
  relay_parse : string -> option string;
  (** [SecretKey::public], [SecretKey::sign], [PublicKey::verify] *)
  iroh_public : list byte -> string;
  iroh_sign : list byte -> list byte -> list byte;
  iroh_verify : string -> list byte -> list byte -> bool
}.

Class IrohKeysLaws (K : IrohKeys) : Prop := {
  endpoint_parse_public : forall sk, endpoint_parse (iroh_public sk) = Some (iroh_public sk);
  iroh_sign_length : forall sk m, length (iroh_sign sk m) = 64%nat;
  iroh_sign_verifies : forall sk m, iroh_verify (iroh_public sk) m (iroh_sign sk m) = true
}.

Record SignedAddr : Type := mkSigned {
  sa_v : Z; sa_id : string; sa_addrs : list string; sa_relay : option string; sa_seq : Z; sa_version : string; sa_signature : string
}.

(** [DiscoveryConfig] of [src/src/node_config.rs]. *)
Record DiscoveryConfig : Type := mkDiscovery {
  ds_enabled : bool; ds_listen_port : Z; ds_external_addr : string; ds_announce_secs : Z; ds_expire_days : Z; ds_max_entries : Z;
  ds_n0_dns : bool; ds_mainline : bool; ds_mainline_bootstrap : list string; ds_mainline_port : Z; ds_mainline_server : bool
}.
Definition discovery_default : DiscoveryConfig := mkDiscovery true 4004 "" 1800 30 2000 true true [] 0 false.

(** ** Public addresses *)

Definition within (lo hi x : Z) : bool := (lo <=? x) && (x <=? hi).

(** [Ipv4Addr::is_private], [is_loopback], [is_link_local], [is_unspecified], [is_broadcast], [is_documentation]. *)
Definition v4_reserved (a b c d : Z) : bool :=
  (a =? 10) || ((a =? 172) && within 16 31 b) || ((a =? 192) && (b =? 168))
  || (a =? 127)
  || ((a =? 169) && (b =? 254))
  || ((a =? 0) && (b =? 0) && (c =? 0) && (d =? 0))
  || ((a =? 255) && (b =? 255) && (c =? 255) && (d =? 255))
  || ((a =? 192) && (b =? 0) && (c =? 2)) || ((a =? 198) && (b =? 51) && (c =? 100)) || ((a =? 203) && (b =? 0) && (c =? 113)).

(** The parser makes four octets and eight segments. *)
Definition is_public (ip : IpAddr) : bool :=
  match ip with
  | V4 [a; b; c; d] => negb (v4_reserved a b c d || ((a =? 100) && within 64 127 b))
  | V4 _ => true
  | V6 segments =>
      let s := default 0 (segments !! 0%nat) in
      negb (bool_decide (segments = [0; 0; 0; 0; 0; 0; 0; 1]) || bool_decide (segments = [0; 0; 0; 0; 0; 0; 0; 0])
            || (Z.land s 65024 =? 64512) || (Z.land s 65472 =? 65152))
  end.

Definition public_text (a : string) : bool := opt_test (fun s => is_public s.(so_ip)) (parse_socket a).

(** ** Records *)

Record EndpointAddr : Type := mkEndpointAddr { ea_id : string; ea_ips : list SocketAddr; ea_relay : option string }.

(** [addrs.join(",")]. *)
Definition joined (l : list string) : string := String.concat "," l.

Section records.
Context `{E : Env} `{IK : IrohKeys}.
Implicit Types (r : SignedAddr).

Definition addr_message (nethash id : string) (seq : Z) (addrs : list string) (relay : option string) : list byte :=
  sha256 (bytes_of DOMAIN ++ bytes_of nethash ++ bytes_of id ++ le_bytes 8 seq ++ bytes_of (joined addrs) ++ bytes_of (default EmptyString relay)).

Definition sign_addr (version : string) (secret : list byte) (nethash : string) (addrs : list string) (relay : option string) (seq : Z) : SignedAddr :=
  let addrs := take MAX_ADDRS (dedup_sorted (sort_by str_le addrs)) in
  let id := iroh_public secret in
  mkSigned 1 id addrs relay seq version (hex_encode (iroh_sign secret (addr_message nethash id seq addrs relay))).

(** The text of a parse error is left out. *)
Definition verify_addr (nethash : string) (now expire_secs : Z) r : Res string :=
  if negb (r.(sa_v) =? 1) || (MAX_ADDRS <? length r.(sa_addrs))%nat then Err (ESync "sthpq addr: unsupported version or too many addresses") else
  if (as_u64 (now + FUTURE_SKEW) <? r.(sa_seq)) || (as_u64 (r.(sa_seq) + expire_secs) <? now)
  then Err (ESync ("sthpq addr: seq " +:+ fmt_u r.(sa_seq) +:+ " outside the accepted window")) else
  if existsb (fun a => negb (public_text a)) r.(sa_addrs) then Err (ESync "sthpq addr: non-public or malformed address") else
  let? id := ok_or (endpoint_parse r.(sa_id)) (ESync "sthpq addr: bad id") in
  let? sig := ok_or (hex_decode r.(sa_signature)) (ESync "sthpq addr: bad signature hex") in
  if negb (length sig =? 64)%nat then Err (ESync "sthpq addr: signature must be 64 bytes") else
  if iroh_verify id (addr_message nethash r.(sa_id) r.(sa_seq) r.(sa_addrs) r.(sa_relay)) sig then Ok id
  else Err (ESync "sthpq addr: invalid signature").

Definition endpoint_addr (id : string) r : EndpointAddr := mkEndpointAddr id (omap parse_socket r.(sa_addrs)) (r.(sa_relay) ≫= relay_parse).

(** What to dial while no relay answers. *)
Definition direct_only_addr r : option EndpointAddr :=
  match endpoint_parse r.(sa_id) with
  | Some id =>
      match List.filter (fun s => is_public s.(so_ip)) (omap parse_socket r.(sa_addrs)) with
      | [] => None
      | ips => Some (mkEndpointAddr id ips None)
      end
  | None => None
  end.

(** [own_record]: from the addresses the endpoint knows of itself, as text, and its first relay. *)
Definition own_record (version : string) (secret : list byte) (nethash : string) (ips : list (SocketAddr * string)) (relays : list string) (now : Z) : option SignedAddr :=
  let addrs := (List.filter (fun a => is_public a.1.(so_ip)) ips).*2 in
  let relay := head relays in
  match addrs, relay with
  | [], None => None
  | _, _ => Some (sign_addr version secret nethash addrs relay now)
  end.

Definition parse_endpoint_id (s : string) : Res string :=
  ok_or (endpoint_parse (trim_end (trim_start s))) (EConfig ("invalid iroh EndpointId '" +:+ s +:+ "'")).

(** An entry of [bootstrap]: [id@ip:port] or an id. *)
Definition parse_bootstrap (s : string) : Res (string * option SocketAddr) :=
  match split_once "@" s with
  | Some (id, addr) =>
      let? sock := ok_or (parse_socket (trim_end (trim_start addr))) (EConfig ("bootstrap `" +:+ s +:+ "`: bad ip:port")) in
      let? id := parse_endpoint_id (trim_end (trim_start id)) in
      Ok (id, Some sock)
  | None => let? id := parse_endpoint_id (trim_end (trim_start s)) in Ok (id, None)
  end.
End records.

(** ** The book *)

Record Entry : Type := mkEntry {
  en_record : SignedAddr; en_first_seen : Z; en_last_seen : Z; en_last_success : Z; en_last_attempt : Z; en_failures : Z; en_source : string
}.

Definition is_terrible (now expire_secs : Z) (e : Entry) : bool :=
  if e.(en_last_success) =? 0 then (3 <=? e.(en_failures)) && (86400 <? sat_sub now e.(en_first_seen))
  else expire_secs <? sat_sub now e.(en_last_success).
Definition is_fresh (now : Z) (e : Entry) : bool := (0 <? e.(en_last_success)) && (sat_sub now e.(en_last_success) <=? FRESH_SECS).

Definition entry_new (now : Z) (source : string) (r : SignedAddr) : Entry := mkEntry r now now 0 0 0 source.
Definition entry_seen (now : Z) (e : Entry) : Entry :=
  mkEntry e.(en_record) e.(en_first_seen) now e.(en_last_success) e.(en_last_attempt) e.(en_failures) e.(en_source).
Definition entry_renewed (now : Z) (r : SignedAddr) (e : Entry) : Entry :=
  mkEntry r e.(en_first_seen) now e.(en_last_success) e.(en_last_attempt) e.(en_failures) e.(en_source).
Definition entry_tried (now : Z) (success : bool) (e : Entry) : Entry :=
  mkEntry e.(en_record) e.(en_first_seen) e.(en_last_seen) (if success then now else e.(en_last_success)) now
    (if success then 0 else as_u32 (e.(en_failures) + 1)) e.(en_source).

(** Without a store or a lookup the calls on it are skipped. *)
Record AddrBook : Type := mkBook { ab_entries : gmap string Entry; ab_disk : option (gmap string Entry); ab_lookup : option (list EndpointAddr) }.

Definition on_entries (f : gmap string Entry -> gmap string Entry) (b : AddrBook) : AddrBook := mkBook (f b.(ab_entries)) b.(ab_disk) b.(ab_lookup).
Definition on_disk (f : gmap string Entry -> gmap string Entry) (b : AddrBook) : AddrBook := mkBook b.(ab_entries) (f <$> b.(ab_disk)) b.(ab_lookup).
Definition tell_lookup (a : EndpointAddr) (b : AddrBook) : AddrBook := mkBook b.(ab_entries) b.(ab_disk) ((fun l => l ++ [a]) <$> b.(ab_lookup)).
Definition book_new (disk : option (gmap string Entry)) (lookup : option (list EndpointAddr)) : AddrBook := mkBook ∅ disk lookup.

(** [save_addr_entry], [remove_addr_entry], [load_addr_entries] of [src/src/storage.rs]. *)
Definition persist (e : Entry) : AddrBook -> AddrBook := on_disk <[e.(en_record).(sa_id) := e]>.
Definition remove_addr_entry (id_hex : string) : AddrBook -> AddrBook := on_disk (delete id_hex).
Definition load_addr_entries (b : AddrBook) : list Entry := match b.(ab_disk) with Some disk => (bt_entries disk).*2 | None => [] end.

Class BookOrder : Type := {
  bk_items : gmap string Entry -> list (string * Entry);
  bk_items_perm m : bk_items m ≡ₚ map_to_list m
}.

Section book.
Context `{E : Env} `{IK : IrohKeys}.
Variables (cfg : DiscoveryConfig) (nethash me : string).
Implicit Types (b : AddrBook) (r : SignedAddr) (e : Entry).

Definition expire_secs : Z := as_u64 (Z.max cfg.(ds_expire_days) 1 * 86400).

Definition load_one (now : Z) (acc : AddrBook * nat) e : AddrBook * nat :=
  let '(b, k) := acc in
  if is_terrible now expire_secs e then (remove_addr_entry e.(en_record).(sa_id) b, k) else
  match verify_addr nethash now (u64_max / 2) e.(en_record) with
  | Ok id => (on_entries <[id := e]> (tell_lookup (endpoint_addr id e.(en_record)) b), S k)
  | Err _ => (b, k)
  end.
Definition load (now : Z) b : AddrBook * nat := foldl (load_one now) (b, O) (load_addr_entries b).

(** The record is news: it goes to iroh and to the tree. *)
Definition stored (id : string) e b : AddrBook :=
  persist e (tell_lookup (endpoint_addr id e.(en_record)) (on_entries <[id := e]> b)).

Definition insert_addr (now : Z) (source : string) r b : AddrBook * Res bool :=
  match verify_addr nethash now expire_secs r with
  | Err e => (b, Err e)
  | Ok id =>
      if String.eqb id me then (b, Ok false) else
      match r.(sa_addrs), r.(sa_relay) with
      | [], None => (b, Err (ESync "sthpq addr: no addresses"))
      | _, _ =>
          match b.(ab_entries) !! id with
          | Some e =>
              if r.(sa_seq) <=? e.(en_record).(sa_seq) then (on_entries <[id := entry_seen now e]> b, Ok false)
              else (stored id (entry_renewed now r e) b, Ok true)
          | None =>
              if Z.max cfg.(ds_max_entries) 1 <=? Z.of_nat (size b.(ab_entries)) then (b, Err (ESync "sthpq addr: address book full"))
              else (stored id (entry_new now source r) b, Ok true)
          end
      end
  end.

Definition mark (now : Z) (id : string) (success : bool) b : AddrBook :=
  match b.(ab_entries) !! id with
  | Some e => let e := entry_tried now success e in persist e (on_entries <[id := e]> b)
  | None => b
  end.

Context `{BO : BookOrder}.

Definition evict_one b (g : string * string) : AddrBook := remove_addr_entry g.2 (on_entries (delete g.1) b).
Definition gone (now : Z) b : list (string * string) :=
  (fun x => (x.1, x.2.(en_record).(sa_id))) <$> List.filter (fun x => is_terrible now expire_secs x.2) (bk_items b.(ab_entries)).
Definition evict (now : Z) b : AddrBook * nat := (foldl evict_one b (gone now b), length (gone now b)).

(** Newest success first; the sort is stable. *)
Definition later_success (x y : Z * SignedAddr) : Prop := y.1 <= x.1.
#[export] Instance later_success_dec x y : Decision (later_success x y) := Z_le_dec _ _.
Definition fresh_all (now : Z) b : list (Z * SignedAddr) :=
  (fun x => (x.2.(en_last_success), x.2.(en_record))) <$> List.filter (fun x => is_fresh now x.2) (bk_items b.(ab_entries)).
Definition fresh (now : Z) (limit : nat) b : list SignedAddr := take (limit `min` MAX_RECORDS) (sort_by later_success (fresh_all now b)).*2.

(** [v.sort()] on pairs. *)
Definition attempt_le (x y : Z * string) : Prop := x.1 < y.1 \/ (x.1 = y.1 /\ str_le x.2 y.2).
#[export] Instance attempt_le_dec x y : Decision (attempt_le x y).
Proof. unfold attempt_le. apply _. Defined.
Definition is_stale (now : Z) e : bool := (3600 <? sat_sub now e.(en_last_success)) && (1800 <? sat_sub now e.(en_last_attempt)).
Definition stale (now : Z) (limit : nat) b : list string :=
  take limit (sort_by attempt_le
    ((fun x => (x.2.(en_last_attempt), x.1)) <$> List.filter (fun x => is_stale now x.2) (bk_items b.(ab_entries)))).*2.

Definition ids b : list string := (bk_items b.(ab_entries)).*1.
Definition book_len b : nat := size b.(ab_entries).

(** The counts of [snapshot]; the rest of it is the configuration and the list of entries as JSON. *)
Record BookSnapshot : Type := mkBookSnapshot { bs_entries : nat; bs_fresh : nat; bs_never_answered : nat; bs_peers : list Entry }.
Definition later_entry (x y : Entry) : Prop := y.(en_last_success) <= x.(en_last_success).
#[export] Instance later_entry_dec x y : Decision (later_entry x y) := Z_le_dec _ _.
Definition snapshot (now : Z) b : BookSnapshot :=
  let values := (bk_items b.(ab_entries)).*2 in
  mkBookSnapshot (size b.(ab_entries)) (length (List.filter (is_fresh now) values))
    (length (List.filter (fun e => e.(en_last_success) =? 0) values)) (take 200 (sort_by later_entry values)).

(** ** The tasks *)

(** The records of a message or an answer; the number of new ones. *)
Definition take_records (now : Z) (source : string) (records : list SignedAddr) b : AddrBook * nat :=
  foldl (fun '(b, k) r => match insert_addr now source r b with (b, Ok true) => (b, S k) | (b, _) => (b, k) end) (b, O) records.

(** A peer is asked for its records: what it answers, or that it cannot, or no answer in time. *)
Inductive Pull : Type := PullRecords (records : list SignedAddr) | PullError (text : string) | PullTimeout.

Definition crawl_one (now : Z) b (p : string * Pull) : AddrBook :=
  match p.2 with
  | PullRecords records => (take_records now "rpc" records (mark now p.1 true b)).1
  | PullError text => mark now p.1 (str_contains text "invalid request") b
  | PullTimeout => mark now p.1 false b
  end.

(** The crawler: who spoke within ten minutes is alive. *)
Definition crawl_alive (now instant : Z) (peers : list IrohPeerInfo) b : AddrBook :=
  foldl (fun b p => if (instant - p.(ip_last_seen) <? from_secs 600) && negb (String.eqb p.(ip_id) me) then mark now p.(ip_id) true b else b) b peers.
Definition crawl_targets (now : Z) (peers : list IrohPeerInfo) b : list string :=
  let near := take 3 (ip_id <$> List.filter (fun p => p.(ip_neighbor) && negb (String.eqb p.(ip_id) me)) peers) in
  dedup_sorted (sort_by str_le (near ++ stale now 6 b)).

(** [pull_over_legacy]: the first PQ peers of the table that ever answered; [answer ip] is none when the pull failed. *)
Definition legacy_sources (peers : list PeerStats) (k : nat) : list string :=
  take k (pe_ip <$> List.filter (fun p => p.(pe_pq) && (0 <? p.(pe_successes))) peers).
Definition pull_over_legacy (now : Z) (peers : list PeerStats) (k : nat) (answer : string -> option (list SignedAddr)) b : AddrBook * nat :=
  foldl (fun '(b, total) ip =>
    match answer ip with
    | Some records => let '(b, k) := take_records now "legacy" records b in (b, (total + k)%nat)
    | None => (b, total)
    end) (b, O) (legacy_sources peers k).

(** A turn of the crawler; [answer id] is what the peer does, [legacy] the legacy table and what its peers answer. *)
Definition crawl (now instant : Z) (peers : list IrohPeerInfo) (answer : string -> Pull)
    (legacy : option (list PeerStats * (string -> option (list SignedAddr)))) b : AddrBook :=
  let b := crawl_alive now instant peers b in
  let b := foldl (crawl_one now) b ((fun id => (id, answer id)) <$> crawl_targets now peers b) in
  let b := (evict now b).1 in
  match legacy with Some (table, answer) => (pull_over_legacy now table 4 answer b).1 | None => b end.
End book.
