(* ===== verification/AddrBookFacts.v ===== *)
(** * What the address book promises

    Whatever records arrive and whatever the clock does, the book holds verified records only, the newest of each
    node, and no more of them than configured; the tree holds what the book holds.  The crawler and the pulls are
    sequences of the three operations.  A signed record is accepted by every node of the network, but the
    signature does not say where the addresses end. *)

From S2P Require Import Prelude Models Env Bytes Crypto Rules NodePool PeerHealth NetAddr IrohPeers AddrBook.

Section facts.
Context `{E : Env} `{EL : !EnvLaws E} `{IK : IrohKeys} `{BO : BookOrder}.
Variables (cfg : DiscoveryConfig) (nethash me : string).
Implicit Types (b : AddrBook) (r : SignedAddr) (e : Entry).

#[local] Abbreviation insert_addr := (insert_addr cfg nethash me).
#[local] Abbreviation evict := (evict cfg).
#[local] Abbreviation load := (load cfg nethash).

(** ** Acceptable records *)

Definition signed_by (id : string) r : Prop :=
  exists sig, hex_decode r.(sa_signature) = Some sig /\ length sig = 64%nat /\
    iroh_verify id (addr_message nethash r.(sa_id) r.(sa_seq) r.(sa_addrs) r.(sa_relay)) sig = true.
Definition genuine (id : string) r : Prop :=
  endpoint_parse r.(sa_id) = Some id /\ r.(sa_v) = 1 /\ (length r.(sa_addrs) <= MAX_ADDRS)%nat /\
  Forall (fun a => public_text a = true) r.(sa_addrs) /\ signed_by id r.
Definition in_window (now expire_secs : Z) r : Prop :=
  r.(sa_seq) <= as_u64 (now + FUTURE_SKEW) /\ now <= as_u64 (r.(sa_seq) + expire_secs).

Lemma not_public_existsb l : existsb (fun a => negb (public_text a)) l = false <-> Forall (fun a => public_text a = true) l.
Proof.
  induction l as [|a l IH]; cbn; [by split|]. rewrite orb_false_iff, negb_false_iff, IH. split; [intros []; by constructor|by inversion 1].
Qed.

Lemma verify_addr_ok now x r id : verify_addr nethash now x r = Ok id <-> genuine id r /\ in_window now x r.
Proof.
  unfold verify_addr, genuine, in_window, signed_by. destruct (Z.eqb_spec (sa_v r) 1) as [Hv|Hv]; cbn [negb orb]; [|by split; [|intros [(_ & ? & _) _]]].
  destruct (Nat.ltb_spec MAX_ADDRS (length (sa_addrs r))) as [Hl|Hl]; [split; [done|intros [(_ & _ & ? & _) _]; lia]|].
  destruct (Z.ltb_spec (as_u64 (now + FUTURE_SKEW)) (sa_seq r)) as [H1|H1]; cbn [orb]; [split; [done|intros [_ []]; lia]|].
  destruct (Z.ltb_spec (as_u64 (sa_seq r + x)) now) as [H2|H2]; [split; [done|intros [_ []]; lia]|].
  destruct (existsb _ _) eqn:He.
  { split; [done|]. intros [(_ & _ & _ & H & _) _]. apply not_public_existsb in H. congruence. }
  apply not_public_existsb in He. destruct (endpoint_parse _) as [i|]; cbn; [|by split; [|intros [[] _]]].
  destruct (hex_decode _) as [sig|]; cbn; [|split; [done|intros [(_ & _ & _ & _ & ? & ? & _) _]; done]].
  destruct (Nat.eqb_spec (length sig) 64) as [Hs|Hs]; cbn [negb]; [|split; [done|intros [(_ & _ & _ & _ & ? & [= <-] & ? & _) _]; done]].
  destruct (iroh_verify _ _ _) eqn:Hver.
  - split; [intros [= <-]; naive_solver|intros [([= <-] & _) _]; done].
  - split; [done|]. intros [([= <-] & _ & _ & _ & ? & [= <-] & _ & ?) _]. congruence.
Qed.

Lemma genuine_id id id' r : genuine id r -> genuine id' r -> id = id'.
Proof. intros (H & _) (H' & _). congruence. Qed.
Lemma genuine_spelling id id' r r' : genuine id r -> genuine id' r' -> r.(sa_id) = r'.(sa_id) -> id = id'.
Proof. intros (H & _) (H' & _) Heq. congruence. Qed.

(** ** The operations as steps *)

Inductive book_step : AddrBook -> AddrBook -> Prop :=
| bs_insert now source r b : book_step b (insert_addr now source r b).1
| bs_mark now id success b : book_step b (mark now id success b)
| bs_evict now b : book_step b (evict now b).1.

Definition room (base : nat) : Prop := Z.of_nat base <= Z.max cfg.(ds_max_entries) 1.

(** What the tree says of an entry: all but when it was last heard of. *)
Definition agrees e e' : Prop := entry_seen 0 e = entry_seen 0 e'.
Definition on_record (id : string) (disk : gmap string Entry) e : Prop := exists e', disk !! e.(en_record).(sa_id) = Some e' /\ agrees e e'.
Definition dials_public (a : EndpointAddr) : Prop := Forall (fun s => is_public s.(so_ip) = true) a.(ea_ips).

Record book_ok b : Prop := {
  bo_genuine id e : b.(ab_entries) !! id = Some e -> genuine id e.(en_record);
  bo_disk id e disk : b.(ab_entries) !! id = Some e -> b.(ab_disk) = Some disk -> on_record id disk e;
  bo_keys disk k e : b.(ab_disk) = Some disk -> disk !! k = Some e -> k = e.(en_record).(sa_id);
  bo_lookup calls : b.(ab_lookup) = Some calls -> Forall dials_public calls
}.

Lemma parsed_public l : Forall (fun a => public_text a = true) l -> Forall (fun s => is_public s.(so_ip) = true) (omap parse_socket l).
Proof.
  induction 1 as [|a l H _ IH]; [constructor|]. cbn. unfold public_text, opt_test in H. destruct (parse_socket a); [by constructor|done].
Qed.
Lemma genuine_dials id r : genuine id r -> dials_public (endpoint_addr id r).
Proof. intros (_ & _ & _ & H & _). by apply parsed_public. Qed.

(** An entry goes in under its id, in the book and in the tree. *)
Lemma stored_ok id e b : book_ok b -> genuine id e.(en_record) -> book_ok (stored id e b).
Proof.
  intros [Hg Hd Hk Hl] He. unfold stored, persist, on_disk, tell_lookup, on_entries. cbn. split; cbn.
  - intros id' e' H. apply lookup_insert_Some in H as [[<- <-]|[_ H]]; [done|by eapply Hg].
  - intros id' e' disk H Hdisk. apply fmap_Some in Hdisk as (d & Hd0 & ->). apply lookup_insert_Some in H as [[<- <-]|[Hne H]].
    + exists e. by rewrite lookup_insert_eq.
    + destruct (Hd _ _ _ H Hd0) as (e'' & H1 & H2). exists e''. split; [|done]. rewrite lookup_insert_ne; [done|].
      intros Heq. apply Hne. eapply genuine_spelling; [exact He|by eapply Hg|done].
  - intros disk k e' Hdisk. apply fmap_Some in Hdisk as (d & Hd0 & ->). intros H. apply lookup_insert_Some in H as [[<- <-]|[_ H]]; [done|by eapply Hk].
  - intros calls Hc. apply fmap_Some in Hc as (l & Hl0 & ->). apply Forall_app. split; [by eapply Hl|]. constructor; [by apply genuine_dials|constructor].
Qed.

(** Only the time an entry was last heard of changes, in the book alone. *)
Lemma seen_ok now id e b : book_ok b -> b.(ab_entries) !! id = Some e -> book_ok (on_entries <[id := entry_seen now e]> b).
Proof.
  intros [Hg Hd Hk Hl] He. split; cbn; [| |done..].
  - intros id' e' H. apply lookup_insert_Some in H as [[<- <-]|[_ H]]; [|by eapply Hg]. cbn. by apply Hg.
  - intros id' e' disk H Hdisk. apply lookup_insert_Some in H as [[<- <-]|[_ H]]; [|by eapply Hd]. by destruct (Hd _ _ _ He Hdisk) as (e' & H1 & H2); exists e'.
Qed.

Definition reachable r : Prop := r.(sa_addrs) <> [] \/ is_Some r.(sa_relay).

(** How an insertion ends. *)
Inductive inserted (now : Z) (source : string) r b : AddrBook * Res bool -> Prop :=
| ins_refused err : inserted now source r b (b, Err err)
| ins_own : inserted now source r b (b, Ok false)
| ins_older id e : verify_addr nethash now (expire_secs cfg) r = Ok id -> b.(ab_entries) !! id = Some e -> r.(sa_seq) <= e.(en_record).(sa_seq) ->
    inserted now source r b (on_entries <[id := entry_seen now e]> b, Ok false)
| ins_newer id e : verify_addr nethash now (expire_secs cfg) r = Ok id -> id <> me -> reachable r ->
    b.(ab_entries) !! id = Some e -> e.(en_record).(sa_seq) < r.(sa_seq) -> inserted now source r b (stored id (entry_renewed now r e) b, Ok true)
| ins_new id : verify_addr nethash now (expire_secs cfg) r = Ok id -> id <> me -> reachable r ->
    b.(ab_entries) !! id = None -> Z.of_nat (size b.(ab_entries)) < Z.max cfg.(ds_max_entries) 1 ->
    inserted now source r b (stored id (entry_new now source r) b, Ok true).

Lemma insert_inserted now source r b : inserted now source r b (insert_addr now source r b).
Proof.
  unfold AddrBook.insert_addr. destruct (verify_addr _ _ _ _) as [id|] eqn:Hv; [|by constructor]. destruct (String.eqb_spec id me) as [->|Hme]; [constructor|].
  set (X := match ab_entries b !! id with Some _ => _ | None => _ end).
  assert (Hcase : (r.(sa_addrs) = [] /\ r.(sa_relay) = None) \/ reachable r) by (unfold reachable; destruct (sa_addrs r), (sa_relay r); eauto).
  destruct Hcase as [[-> ->]|Hr]; [constructor|].
  replace (match sa_addrs r with [] => _ | _ :: _ => X end) with X by (unfold reachable, is_Some in Hr; destruct (sa_addrs r), (sa_relay r); naive_solver).
  subst X. destruct (ab_entries b !! id) as [e|] eqn:He; [destruct (Z.leb_spec (sa_seq r) (sa_seq (en_record e)))|destruct (Z.leb_spec (Z.max (ds_max_entries cfg) 1) (Z.of_nat (size (ab_entries b))))].
  - by eapply ins_older.
  - by eapply ins_newer.
  - constructor.
  - by eapply ins_new.
Qed.

Lemma verified now x r id : verify_addr nethash now x r = Ok id -> genuine id r.
Proof. intros H. by apply verify_addr_ok in H as []. Qed.

Lemma insert_ok now source r b : book_ok b -> book_ok (insert_addr now source r b).1.
Proof.
  intros Hb. destruct (insert_inserted now source r b); cbn [fst]; try done.
  - by apply seen_ok.
  - apply stored_ok; [done|]. cbn. by eapply verified.
  - apply stored_ok; [done|]. cbn. by eapply verified.
Qed.

Lemma mark_ok now id success b : book_ok b -> book_ok (mark now id success b).
Proof.
  intros Hb. unfold mark. destruct (_ !! id) as [e|] eqn:He; [|done]. set (e' := entry_tried now success e).
  pose proof (stored_ok id e' b Hb (bo_genuine _ Hb _ _ He)) as Hs. destruct Hs as [Hg Hd Hk _]. split; [exact Hg|exact Hd|exact Hk|]. apply (bo_lookup _ Hb).
Qed.

Lemma evict_one_ok g b : book_ok b -> endpoint_parse g.2 = Some g.1 -> book_ok (evict_one b g).
Proof.
  intros [Hg Hd Hk Hl] Hp. unfold evict_one, remove_addr_entry, on_disk, on_entries. split; cbn.
  - intros id e H. apply lookup_delete_Some in H as [_ H]. by apply Hg.
  - intros id e disk H Hdisk. apply fmap_Some in Hdisk as (d & Hd0 & ->). apply lookup_delete_Some in H as [Hne H].
    destruct (Hd _ _ _ H Hd0) as (e' & H1 & H2). exists e'. split; [|done]. rewrite lookup_delete_ne; [done|].
    intros Heq. apply Hne. apply Hg in H as (H & _). rewrite <- Heq in H. congruence.
  - intros disk k e Hdisk H. apply fmap_Some in Hdisk as (d & Hd0 & ->). apply lookup_delete_Some in H as [_ H]. by eapply Hk.
  - done.
Qed.

Lemma elem_of_items (x : string * Entry) m : x ∈ bk_items m <-> m !! x.1 = Some x.2.
Proof. rewrite bk_items_perm. destruct x. by rewrite elem_of_map_to_list. Qed.

Lemma gone_spec now b g : g ∈ gone cfg now b <-> exists e, b.(ab_entries) !! g.1 = Some e /\ is_terrible now (expire_secs cfg) e = true /\ g.2 = e.(en_record).(sa_id).
Proof.
  unfold gone. rewrite list_elem_of_fmap. split.
  - intros (x & -> & H). rewrite list_elem_of_In, filter_In, <- list_elem_of_In, elem_of_items in H. destruct H. by exists x.2.
  - intros (e & H & Ht & Heq). exists (g.1, e). split; [destruct g; cbn in *; by subst|]. by rewrite list_elem_of_In, filter_In, <- list_elem_of_In, elem_of_items.
Qed.

Lemma book_evict_all_ok l : forall b, book_ok b -> Forall (fun g => endpoint_parse g.2 = Some g.1) l -> book_ok (foldl evict_one b l).
Proof. induction l as [|g l IH]; intros b Hb H; [done|]. inversion H; subst. cbn. apply IH; [by apply evict_one_ok|done]. Qed.

Lemma book_evict_ok now b : book_ok b -> book_ok (evict now b).1.
Proof.
  intros Hb. apply book_evict_all_ok; [done|]. apply Forall_forall. intros g H. apply gone_spec in H as (e & He & _ & ->). by apply (bo_genuine _ Hb) in He as [].
Qed.

Lemma step_ok b b' : book_step b b' -> book_ok b -> book_ok b'.
Proof. intros [] Hb; [by apply insert_ok|by apply mark_ok|by apply book_evict_ok]. Qed.

(** ** Loading *)

Definition keyed (disk : gmap string Entry) : Prop := forall k e, disk !! k = Some e -> k = e.(en_record).(sa_id).

(** In the course of a load: the tree keeps what is not terrible, the book holds such entries of the tree. *)
Record loading (now : Z) (disk0 : gmap string Entry) b : Prop := {
  lo_disk : exists disk, b.(ab_disk) = Some disk /\ disk ⊆ disk0 /\
    forall k e, disk0 !! k = Some e -> is_terrible now (expire_secs cfg) e = false -> disk !! k = Some e;
  lo_entries id e : b.(ab_entries) !! id = Some e ->
    genuine id e.(en_record) /\ disk0 !! e.(en_record).(sa_id) = Some e /\ is_terrible now (expire_secs cfg) e = false;
  lo_lookup calls : b.(ab_lookup) = Some calls -> Forall dials_public calls
}.

Lemma loading_ok now disk0 b : keyed disk0 -> loading now disk0 b -> book_ok b.
Proof.
  intros Hkey [(disk & Hdisk & Hsub & Hkeep) He Hl]. split; [| | |done].
  - intros id e H. by apply He in H as [].
  - intros id e d H Hd. rewrite Hdisk in Hd. injection Hd as <-. apply He in H as (_ & H & Ht). exists e. split; [by eapply Hkeep|done].
  - intros d k e Hd H. rewrite Hdisk in Hd. injection Hd as <-. apply Hkey. eapply lookup_weaken; eauto.
Qed.

Lemma load_one_loading now disk0 acc e : keyed disk0 -> disk0 !! e.(en_record).(sa_id) = Some e -> loading now disk0 acc.1 ->
  loading now disk0 (load_one cfg nethash now acc e).1.
Proof.
  intros Hkey He [(disk & Hdisk & Hsub & Hkeep) Hb Hl]. destruct acc as [b k]. cbn [fst] in *. unfold load_one. destruct (is_terrible _ _ e) eqn:Ht; cbn [fst].
  - unfold remove_addr_entry, on_disk. split; cbn; [|done..]. rewrite Hdisk. exists (delete e.(en_record).(sa_id) disk). split; [done|]. split.
    + etransitivity; [apply delete_subseteq|done].
    + intros k' e' H Ht'. rewrite lookup_delete_ne; [by apply Hkeep|]. intros <-. rewrite He in H. injection H as <-. congruence.
  - destruct (verify_addr _ _ _ _) as [id|] eqn:Hv; cbn [fst]; [|split; eauto]. apply verified in Hv. split; cbn.
    + eauto.
    + intros id' e' H. apply lookup_insert_Some in H as [[<- <-]|[_ H]]; [done|by apply Hb].
    + intros calls Hc. apply fmap_Some in Hc as (l & Hl0 & ->). apply Forall_app. split; [by apply Hl|]. constructor; [by apply genuine_dials|constructor].
Qed.

Lemma load_loading now disk0 l : keyed disk0 -> Forall (fun e => disk0 !! e.(en_record).(sa_id) = Some e) l -> forall acc,
  loading now disk0 acc.1 -> loading now disk0 (foldl (load_one cfg nethash now) acc l).1.
Proof. intros Hkey. induction 1 as [|e l He _ IH]; intros acc Hb; [done|]. cbn. by apply IH, load_one_loading. Qed.

Lemma load_ok now disk calls : keyed disk -> Forall dials_public calls -> book_ok (load now (book_new (Some disk) (Some calls))).1.
Proof.
  intros Hkey Hc. apply (loading_ok now disk); [done|]. unfold AddrBook.load. apply load_loading; [done| |].
  - cbn. rewrite Forall_fmap, Forall_forall. intros [k e] H. apply elem_of_bt_entries in H. cbn. rewrite <- (Hkey _ _ H). exact H.
  - cbn. split; cbn; [by exists disk|intros id e H; by apply lookup_empty_Some in H|by intros ? [= <-]].
Qed.

(** ** Size, and the newest record *)

Lemma size_stored id e b : size (stored id e b).(ab_entries) = match b.(ab_entries) !! id with Some _ => size b.(ab_entries) | None => S (size b.(ab_entries)) end.
Proof. cbn. by rewrite map_size_insert; destruct (_ !! id). Qed.

Lemma evict_entries l : forall b, (foldl evict_one b l).(ab_entries) = foldr (fun g m => delete g.1 m) b.(ab_entries) l.
Proof.
  induction l as [|g l IH]; intros b; [done|]. cbn [foldl foldr]. rewrite IH. cbn. clear IH. induction l as [|g' l IH]; [done|]. cbn. by rewrite IH, delete_delete.
Qed.
Lemma deletes_lookup (l : list (string * string)) (m : gmap string Entry) id : foldr (fun g m => delete g.1 m) m l !! id = if bool_decide (id ∈ l.*1) then None else m !! id.
Proof.
  induction l as [|g l IH]; [done|]. cbn. destruct (decide (id = g.1)) as [->|Hne].
  - rewrite lookup_delete_eq, bool_decide_true; [done|]. apply elem_of_cons. by left.
  - rewrite lookup_delete_ne by done. rewrite IH. assert (Hiff : id ∈ g.1 :: l.*1 <-> id ∈ l.*1) by (rewrite elem_of_cons; naive_solver). by rewrite (bool_decide_ext _ _ Hiff).
Qed.

(** An eviction takes exactly the terrible entries. *)
Lemma evict_exact now b id : (evict now b).1.(ab_entries) !! id =
  match b.(ab_entries) !! id with Some e => if is_terrible now (expire_secs cfg) e then None else Some e | None => None end.
Proof.
  cbn. rewrite evict_entries, deletes_lookup. destruct (b.(ab_entries) !! id) as [e|] eqn:He; [|by destruct (bool_decide _)].
  assert (Hiff : id ∈ (gone cfg now b).*1 <-> is_terrible now (expire_secs cfg) e = true).
  { rewrite list_elem_of_fmap. split.
    - intros (g & -> & H). apply gone_spec in H as (e' & H & Ht & _). congruence.
    - intros Ht. exists (id, e.(en_record).(sa_id)). split; [done|]. apply gone_spec. eauto. }
  rewrite (bool_decide_ext _ _ Hiff). by destruct (is_terrible _ _ e).
Qed.

Lemma evict_subset now b : (evict now b).1.(ab_entries) ⊆ b.(ab_entries).
Proof.
  apply map_subseteq_spec. intros id e. rewrite evict_exact. destruct (_ !! id) as [e'|]; [|done]. by destruct (is_terrible _ _ e').
Qed.

Lemma size_alike id e e' b : b.(ab_entries) !! id = Some e -> size (<[id := e']> b.(ab_entries)) = size b.(ab_entries).
Proof. intros H. by rewrite map_size_insert, H. Qed.

Lemma step_size b b' : book_step b b' -> Z.of_nat (size b'.(ab_entries)) <= Z.max (Z.of_nat (size b.(ab_entries))) (Z.max cfg.(ds_max_entries) 1).
Proof.
  intros [now source r b0|now id success b0|now b0].
  - destruct (insert_inserted now source r b0); cbn [fst]; [lia|lia| | |]; rewrite ?size_stored; simplify_option_eq; try lia.
    cbn. rewrite (size_alike _ _ _ _ ltac:(eassumption)). lia.
  - unfold mark. destruct (_ !! id) as [e|] eqn:He; [|lia]. cbn. rewrite (size_alike _ _ _ _ He). lia.
  - pose proof (map_subseteq_size _ _ (evict_subset now b0)). lia.
Qed.

(** A record is replaced by a newer one only. *)
Definition newer e e' : Prop := e'.(en_record) = e.(en_record) \/ e.(en_record).(sa_seq) < e'.(en_record).(sa_seq).

Lemma step_newest b b' id e e' : book_step b b' -> b.(ab_entries) !! id = Some e -> b'.(ab_entries) !! id = Some e' -> newer e e'.
Proof.
  intros [now source r b0|now id0 success b0|now b0] He He'.
  - destruct (insert_inserted now source r b0) as [| |id0 e0 Hv H0 Hle|id0 e0 Hv Hme Hr H0 Hlt|id0 Hv Hme Hr H0 Hlt]; cbn in He'; unfold newer.
    all: try (rewrite He in He'; injection He' as ->; by left).
    all: apply lookup_insert_Some in He' as [[<- <-]|[_ H]]; [|rewrite He in H; injection H as ->; by left]; cbn; simplify_eq; auto; congruence.
  - unfold mark in He'. destruct (_ !! id0) as [e0|] eqn:H0; [|rewrite He in He'; injection He' as ->; by left].
    cbn in He'. apply lookup_insert_Some in He' as [[<- <-]|[_ H]]; [|rewrite He in H; injection H as ->; by left]. left. cbn. congruence.
  - rewrite evict_exact, He in He'. destruct (is_terrible _ _ e); [done|]. injection He' as ->. by left.
Qed.

(** Our own id never enters. *)
Lemma step_me b b' : book_step b b' -> is_Some (b'.(ab_entries) !! me) -> is_Some (b.(ab_entries) !! me).
Proof.
  intros [now source r b0|now id0 success b0|now b0] [e He].
  - destruct (insert_inserted now source r b0) as [| |id0 e0 Hv H0 Hle|id0 e0 Hv Hme Hr H0 Hlt|id0 Hv Hme Hr H0 Hlt]; cbn in He; eauto;
      apply lookup_insert_Some in He as [[<- <-]|[_ He]]; eauto; done.
  - unfold mark in He. destruct (_ !! id0) as [e0|] eqn:H0; [|eauto]. cbn in He. apply lookup_insert_Some in He as [[<- <-]|[_ He]]; eauto.
  - rewrite evict_exact in He. destruct (_ !! me) as [e0|]; [eauto|done].
Qed.

Lemma steps_ok b b' : rtc book_step b b' -> book_ok b -> book_ok b'.
Proof. induction 1; [done|]. intros. eauto using step_ok. Qed.
Lemma steps_size b b' : rtc book_step b b' -> Z.of_nat (size b'.(ab_entries)) <= Z.max (Z.of_nat (size b.(ab_entries))) (Z.max cfg.(ds_max_entries) 1).
Proof. induction 1 as [|b1 b2 b3 H _ IH]; [lia|]. apply step_size in H. lia. Qed.
Lemma steps_me b b' : rtc book_step b b' -> is_Some (b'.(ab_entries) !! me) -> is_Some (b.(ab_entries) !! me).
Proof. induction 1; [done|]. eauto using step_me. Qed.
Lemma step_disk b b' : book_step b b' -> is_Some b.(ab_disk) -> is_Some b'.(ab_disk).
Proof.
  intros [now source r b0|now id0 success b0|now b0] Hd.
  - by destruct (insert_inserted now source r b0); cbn; rewrite ?fmap_is_Some.
  - unfold mark. destruct (_ !! id0); [|done]. cbn. by rewrite fmap_is_Some.
  - cbn. revert Hd. generalize (gone cfg now b0). intros l. revert b0. induction l as [|g l IH]; intros b0 Hd; [done|]. cbn. apply IH. cbn. by rewrite fmap_is_Some.
Qed.
Lemma steps_disk b b' : rtc book_step b b' -> is_Some b.(ab_disk) -> is_Some b'.(ab_disk).
Proof. induction 1; [done|]. eauto using step_disk. Qed.

Lemma load_disk now disk calls : is_Some (load now (book_new (Some disk) calls)).1.(ab_disk).
Proof.
  unfold AddrBook.load. assert (H : is_Some (book_new (Some disk) calls, O).1.(ab_disk)) by done. revert H. generalize (book_new (Some disk) calls, O).
  generalize (load_addr_entries (book_new (Some disk) calls)). induction l as [|e l IH]; intros [b k] H; [done|]. cbn [foldl]. apply IH. unfold load_one.
  destruct (is_terrible _ _ _); [cbn; by rewrite fmap_is_Some|]. by destruct (verify_addr _ _ _ _).
Qed.

(** C18: After a restart and any insertions, marks and evictions at any times, every entry is a record its own node signed
    for this network, with at most eight public addresses, and is also in the tree up to when it was last heard of; no
    entry of the node itself and none beyond the configured number was added; iroh was told public addresses only; and no step
    replaced a record by one that is not newer. *)
Theorem address_book_sound now disk b : keyed disk ->
  let b0 := (load now (book_new (Some disk) (Some []))).1 in
  rtc book_step b0 b ->
  (forall id e, b.(ab_entries) !! id = Some e ->
    genuine id e.(en_record) /\ exists saved e', b.(ab_disk) = Some saved /\ saved !! e.(en_record).(sa_id) = Some e' /\ agrees e e') /\
  (is_Some (b.(ab_entries) !! me) -> is_Some (b0.(ab_entries) !! me)) /\
  Z.of_nat (size b.(ab_entries)) <= Z.max (Z.of_nat (size b0.(ab_entries))) (Z.max cfg.(ds_max_entries) 1) /\
  (forall calls, b.(ab_lookup) = Some calls -> Forall dials_public calls) /\
  (forall b' id e e', book_step b b' -> b.(ab_entries) !! id = Some e -> b'.(ab_entries) !! id = Some e' -> newer e e').
Proof.
  intros Hkey b0 Hrun. assert (Hb : book_ok b) by (apply (steps_ok b0); [done|apply load_ok; [done|constructor]]).
  destruct (steps_disk b0 b Hrun (load_disk now disk (Some []))) as [saved Hs].
  split; [|split; [by eapply steps_me|split; [by apply steps_size|split; [by apply bo_lookup|intros; by eapply step_newest]]]].
  intros id e He. split; [by apply (bo_genuine _ Hb)|]. destruct (bo_disk _ Hb id e saved He Hs) as (e' & H1 & H2). eauto.
Qed.

(** ** The tasks are steps *)

Lemma foldl_steps {A} (f : AddrBook -> A -> AddrBook) l : (forall b a, rtc book_step b (f b a)) -> forall b, rtc book_step b (foldl f b l).
Proof. intros Hf. induction l as [|a l IH]; intros b; [done|]. cbn. etrans; [apply Hf|apply IH]. Qed.

Lemma take_records_steps now source records b : rtc book_step b (take_records cfg nethash me now source records b).1.
Proof.
  unfold take_records. generalize O at 1. revert b. induction records as [|r records IH]; intros b k; [done|]. cbn [foldl].
  pose proof (bs_insert now source r b) as Hs. destruct (insert_addr now source r b) as [b' [[]|]] eqn:Hi; cbn [fst] in Hs; (etrans; [by apply rtc_once|apply IH]).
Qed.

Lemma pull_steps now peers k answer b : rtc book_step b (pull_over_legacy cfg nethash me now peers k answer b).1.
Proof.
  unfold pull_over_legacy. generalize (legacy_sources peers k). intros l. generalize O at 1. revert b. induction l as [|ip l IH]; intros b t; [done|]. cbn [foldl].
  destruct (answer ip) as [records|]; [|apply IH]. pose proof (take_records_steps now "legacy" records b) as Hs. destruct (take_records _ _ _ _ _ _ _) as [b' k']. etrans; [exact Hs|apply IH].
Qed.

Lemma mark_step now id success b : rtc book_step b (mark now id success b).
Proof. apply rtc_once, bs_mark. Qed.

Lemma crawl_steps now instant peers answer legacy b : rtc book_step b (crawl cfg nethash me now instant peers answer legacy b).
Proof.
  unfold crawl. set (b1 := crawl_alive _ _ _ _ _). set (b2 := foldl (crawl_one _ _ _ _) b1 _). transitivity b1.
  { apply foldl_steps. intros b' p. destruct (_ && _); [apply mark_step|done]. }
  transitivity b2.
  { apply foldl_steps. intros b' [id [records|text|]]; unfold crawl_one; cbn [fst snd]; [|apply mark_step..]. etrans; [apply (mark_step now id true)|apply take_records_steps]. }
  transitivity (evict now b2).1; [apply rtc_once, bs_evict|]. destruct legacy as [[table la]|]; [apply pull_steps|done].
Qed.

(** ** Own records are accepted *)

Lemma dedup_sorted_subset l : forall a, a ∈ dedup_sorted l -> a ∈ l.
Proof.
  induction l as [|x l IH]; intros a H; [done|]. destruct l as [|y l]; [done|]. cbn [dedup_sorted] in H. destruct (String.eqb_spec x y) as [->|].
  - apply elem_of_cons. right. by apply IH.
  - apply elem_of_cons in H as [->|H]; apply elem_of_cons; [by left|right; by apply IH].
Qed.

Lemma sign_verifies `{IL : !IrohKeysLaws IK} now version secret addrs relay x : Forall (fun a => public_text a = true) addrs -> in_window now x (sign_addr version secret nethash addrs relay now) ->
  verify_addr nethash now x (sign_addr version secret nethash addrs relay now) = Ok (iroh_public secret).
Proof.
  intros Hp Hw. apply verify_addr_ok. split; [|done]. unfold genuine, sign_addr. cbn. split; [apply endpoint_parse_public|]. split; [done|]. split; [rewrite length_take; apply Nat.le_min_l|]. split.
  - apply Forall_take, Forall_forall. intros a Ha. apply dedup_sorted_subset in Ha. rewrite sort_by_Permutation in Ha. rewrite Forall_forall in Hp. by apply Hp.
  - eexists. split; [apply hex_decode_encode|]. split; [apply iroh_sign_length|apply iroh_sign_verifies].
Qed.

(** ** Where the addresses end *)

Lemma bytes_of_app x y : bytes_of (x +:+ y) = bytes_of x ++ bytes_of y.
Proof.
  unfold bytes_of, String.list_byte_of_string. rewrite <- map_app. f_equal.
  induction x as [|c x IH]; [done|]. change (String c x +:+ y) with (String c (x +:+ y)). cbn. by rewrite IH.
Qed.

Lemma str_assoc x y z : (x +:+ y) +:+ z = x +:+ (y +:+ z).
Proof. induction x as [|c x IH]; [done|]. exact (f_equal (String c) IH). Qed.

Lemma joined_last l a c : joined (l ++ [a +:+ c]) = joined (l ++ [a]) +:+ c.
Proof.
  unfold joined. induction l as [|x l IH]; [done|]. destruct l as [|y l]; cbn [app String.concat] in *; [|rewrite IH]; by rewrite ?str_assoc.
Qed.

(** The record with the end of its last address moved to its relay. *)
Definition shifted (init : list string) (a c : string) r : SignedAddr :=
  mkSigned r.(sa_v) r.(sa_id) (init ++ [a]) (Some (c +:+ default EmptyString r.(sa_relay))) r.(sa_seq) r.(sa_version) r.(sa_signature).

Lemma shifted_message init a c r : r.(sa_addrs) = init ++ [a +:+ c] ->
  addr_message nethash r.(sa_id) r.(sa_seq) (init ++ [a]) (Some (c +:+ default EmptyString r.(sa_relay))) = addr_message nethash r.(sa_id) r.(sa_seq) r.(sa_addrs) r.(sa_relay).
Proof. intros ->. unfold addr_message. rewrite joined_last, bytes_of_app. change (default EmptyString (Some ?x)) with x. by rewrite (bytes_of_app c), <- (app_assoc _ (bytes_of c)). Qed.

Lemma shifted_verifies now x init a c r id : r.(sa_addrs) = init ++ [a +:+ c] -> public_text a = true ->
  verify_addr nethash now x r = Ok id -> verify_addr nethash now x (shifted init a c r) = Ok id.
Proof.
  intros Ha Hp. rewrite !verify_addr_ok. intros [(Hid & Hv & Hl & Hpub & sig & Hs & Hlen & Hver) Hw]. split; [|done]. split; [done|]. split; [done|]. split.
  { rewrite Ha, length_app in Hl. cbn. by rewrite length_app. }
  split; [rewrite Ha in Hpub; apply Forall_app in Hpub as [H _]; cbn; apply Forall_app; split; [done|by constructor]|].
  exists sig. split; [done|]. split; [done|]. cbn. by rewrite (shifted_message _ _ _ _ Ha).
Qed.

(** C40: The signature of an address record does not say where its addresses end: whoever passes a record on can move the
    end of the last address to the relay, and while the rest is still an address the altered record is accepted in
    its place, sends iroh to the shortened address, and keeps the true record of that time out. *)
Theorem record_end_unsigned now source source' init a c r id b : r.(sa_addrs) = init ++ [a +:+ c] -> public_text a = true ->
  verify_addr nethash now (expire_secs cfg) r = Ok id -> id <> me -> b.(ab_entries) !! id = None ->
  Z.of_nat (size b.(ab_entries)) < Z.max cfg.(ds_max_entries) 1 ->
  let b1 := (insert_addr now source (shifted init a c r) b).1 in
  (insert_addr now source (shifted init a c r) b).2 = Ok true /\ (insert_addr now source' r b1).2 = Ok false /\
  en_record <$> (insert_addr now source' r b1).1.(ab_entries) !! id = Some (shifted init a c r) /\
  (endpoint_addr id (shifted init a c r)).(ea_ips) = omap parse_socket (init ++ [a]).
Proof.
  intros Ha Hp Hv Hme Hb Hroom b1. pose proof (shifted_verifies now (expire_secs cfg) init a c r id Ha Hp Hv) as Hv'. apply String.eqb_neq in Hme.
  assert (Hins : insert_addr now source (shifted init a c r) b = (stored id (entry_new now source (shifted init a c r)) b, Ok true)).
  { unfold AddrBook.insert_addr. rewrite Hv', Hme, Hb. cbn. destruct (init ++ [a]); [|]; by rewrite (proj2 (Z.leb_gt _ _) Hroom). }
  unfold b1. rewrite Hins. cbn [fst snd]. split; [done|]. unfold AddrBook.insert_addr. rewrite Hv, Hme, Ha. cbn. rewrite lookup_insert_eq. cbn. rewrite Z.leb_refl.
  destruct (init ++ [a +:+ c]) eqn:Hnil; [by destruct init|]. cbn. by rewrite lookup_insert_eq.
Qed.

(** ** Who counts as alive *)

Context `{PO : PeerOrder}.

Definition alive_at (now : Z) (r : SignedAddr) (o : option Entry) : Prop :=
  exists e, o = Some e /\ e.(en_record) = r /\ e.(en_last_success) = now /\ e.(en_failures) = 0.

(** The peers of the table that were marked in a turn, one after the other. *)
Lemma marked_alive now instant peers id r : forall b, (exists e, b.(ab_entries) !! id = Some e /\ e.(en_record) = r) ->
  (alive_at now r (b.(ab_entries) !! id) \/ exists p, p ∈ peers /\ p.(ip_id) = id /\ instant - p.(ip_last_seen) < from_secs 600 /\ id <> me) ->
  alive_at now r ((crawl_alive me now instant peers b).(ab_entries) !! id).
Proof.
  unfold crawl_alive. induction peers as [|p peers IH]; intros b (e & He & Hr) H; cbn [foldl].
  { destruct H as [H|(p & H & _)]; [done|by apply elem_of_nil in H]. }
  set (b' := if _ && _ then mark now (ip_id p) true b else b).
  assert (Hmark : (mark now (ip_id p) true b).(ab_entries) !! id = Some (if decide (ip_id p = id) then entry_tried now true e else e)).
  { unfold mark. destruct (decide (ip_id p = id)) as [->|Hne].
    - rewrite He. cbn. by rewrite lookup_insert_eq.
    - destruct (ab_entries b !! ip_id p); [|done]. cbn. by rewrite lookup_insert_ne. }
  assert (Hb' : exists e', b'.(ab_entries) !! id = Some e' /\ e'.(en_record) = r).
  { unfold b'. destruct (_ && _); [|by exists e]. rewrite Hmark. eexists. split; [done|]. by destruct (decide _). }
  apply IH; [done|]. destruct H as [(e0 & He0 & Hr0 & Hs & Hf)|(q & [->|Hq]%elem_of_cons & Hid & Hrest)]; [| |right; by exists q].
  - left. rewrite He in He0. injection He0 as <-. unfold b'. destruct (_ && _); [|by exists e]. rewrite Hmark. eexists. split; [done|]. by destruct (decide _).
  - left. destruct Hrest as [Hlt Hme]. unfold b'. rewrite Hid in *. rewrite (proj2 (String.eqb_neq id me) Hme), (proj2 (Z.ltb_lt _ _) Hlt). cbn [andb negb].
    rewrite Hmark, decide_True by done. by eexists.
Qed.

Lemma elem_of_snapshot p m : p ∈ iroh_snapshot m <-> exists k, m !! k = Some p.
Proof.
  unfold iroh_snapshot. rewrite sort_by_Permutation, ih_values_perm, list_elem_of_fmap. split.
  - intros ([k q] & -> & H). apply elem_of_map_to_list in H. by exists k.
  - intros [k H]. exists (k, p). split; [done|]. by apply elem_of_map_to_list.
Qed.

(** A request that fails keeps a node alive: the peer table takes the failure for a sign of life, so as long as requests to a
    node that is gone are tried every ten minutes, the crawler notes a success for it, forgets its failures, and the
    node is handed on as fresh and never evicted. *)
Theorem failed_requests_keep_alive now instant tried id (m : IrohPeers) b e : 0 < now -> (forall k p, m !! k = Some p -> p.(ip_id) = k) -> id <> me ->
  instant - tried < from_secs 600 -> b.(ab_entries) !! id = Some e ->
  exists e', (crawl_alive me now instant (iroh_snapshot (iroh_record_rpc tried id None None m)) b).(ab_entries) !! id = Some e' /\
    e'.(en_record) = e.(en_record) /\ e'.(en_failures) = 0 /\ is_fresh now e' = true /\ is_terrible now (expire_secs cfg) e' = false.
Proof.
  intros Hnow Hm Hme Ht He. set (m' := iroh_record_rpc tried id None None m).
  assert (Hp : exists p, m' !! id = Some p /\ p.(ip_id) = id /\ p.(ip_last_seen) = tried).
  { eexists. split; [apply (lookup_insert_eq (M := gmap string))|]. cbn. split; [|done]. destruct (m !! id) as [p|] eqn:Hp; [by apply Hm|done]. }
  destruct Hp as (p & Hp & Hid & Hseen). destruct (marked_alive now instant (iroh_snapshot m') id e.(en_record) b) as (e' & He' & Hr & Hs & Hf).
  { by exists e. }
  { right. exists p. split; [apply elem_of_snapshot; by exists id|]. by rewrite Hseen. }
  exists e'. split; [done|]. split; [done|]. split; [done|]. unfold is_fresh, is_terrible, sat_sub. rewrite Hs, Z.sub_diag.
  destruct (Z.ltb_spec 0 now); [|lia]. destruct (Z.eqb_spec now 0); [lia|]. split; [done|]. apply Z.ltb_ge. unfold expire_secs. pose proof (Z.mod_pos_bound (Z.max (ds_expire_days cfg) 1 * 86400) 18446744073709551616).
  change (Z.max 0 0) with 0. unfold as_u64. lia.
Qed.
End facts.
