(* ===== verification/RelayGuard.v ===== *)
(** * The relay guard

    [src/src/p2p_iroh/relay_guard.rs]: handshakes that time out are counted for each relay, and a relay through which
    too many fail within the window is taken out of the relay map, once, unless it is one of the protected ones.
    Instants are nanoseconds, one for each call; the endpoint's [remove_relay] is the list of the urls it is called
    with; log lines and alerts are not modelled. *)

From S2P Require Import Prelude Rules NodePool PeerHealth.

(** [RelayGuardConfig] of [src/src/node_config.rs]. *)
Record RelayGuardConfig : Type := mkRelayGuard { rg_enabled : bool; rg_max_failures : Z; rg_window_secs : Z }.
Definition relay_guard_default : RelayGuardConfig := mkRelayGuard true 5 600.

Record RemovedRelay : Type := mkRemoved { rr_url : string; rr_failures : nat; rr_at_unix : Z }.
Record GuardState : Type := mkGuardState { gs_failures : gmap string (list Z); gs_removed : list RemovedRelay }.
Definition guard_state_default : GuardState := mkGuardState ∅ [].

Definition norm (url : string) : string := trim_end_slash (trim_end (trim_start url)).

(** [trim_end_matches('.')]. *)
Fixpoint trim_end_dot (s : string) : string :=
  match s with
  | EmptyString => EmptyString
  | String c rest =>
      match trim_end_dot rest with
      | EmptyString => if Ascii.eqb c "." then EmptyString else String c EmptyString
      | rest => String c rest
      end
  end.
Fixpoint ends_with (suffix s : string) : bool :=
  String.eqb suffix s || match s with String _ rest => ends_with suffix rest | EmptyString => false end.
Definition is_n0_relay (url : string) : bool := ends_with ".relay.n0.iroh.link" (trim_end_dot (trim_end_slash url)).

(** [RelaySetup] of [src/src/p2p_iroh/mod.rs]; [relay_parse] is iroh's, [n0_urls] its public relays. *)
Definition N1_RELAYS : list string := ["https://relay-fsn7.sth.cx"; "https://relay-ru1.sth.cx"]%string.
Definition protected_relays (extra : list string) : list string := N1_RELAYS ++ extra.
Definition relay_map (relay_parse : string -> option string) (n0 : bool) (n0_urls extra : list string) : list string :=
  foldl (fun urls raw =>
    match relay_parse (trim_end (trim_start raw)) with
    | Some u => if existsb (String.eqb u) urls then urls else urls ++ [u]
    | None => urls
    end) (if n0 then n0_urls else []) (protected_relays extra).

Section relay_guard.
Variables (cfg : RelayGuardConfig) (protected_urls : list string).
Implicit Types (st : GuardState).

Definition protected (url : string) : bool := existsb (fun u => String.eqb (norm u) url) protected_urls.
Definition window : Z := from_secs (Z.max cfg.(rg_window_secs) 1).
Definition max_failures : Z := Z.max cfg.(rg_max_failures) 1.

Definition since (now t : Z) : Z := Z.max (now - t) 0.
(** The failures in front that are older than the window. *)
Fixpoint drop_old (now : Z) (q : list Z) : list Z :=
  match q with
  | t :: rest => if window <? since now t then drop_old now rest else q
  | [] => []
  end.

Definition was_removed (url : string) st : bool := existsb (fun r => String.eqb r.(rr_url) url) st.(gs_removed).

Definition note_failure (url : string) (now now_unix : Z) st : GuardState * option (string * nat) :=
  let url := norm url in
  if was_removed url st then (st, None) else
  let q := drop_old now (default [] (st.(gs_failures) !! url) ++ [now]) in
  let n := length q in
  let failures := <[url := q]> st.(gs_failures) in
  if (max_failures <=? Z.of_nat n) && negb (protected url)
  then (mkGuardState failures (st.(gs_removed) ++ [mkRemoved url n now_unix]), Some (url, n))
  else (mkGuardState failures st.(gs_removed), None).

(** The url is taken out of the relay map when it parses. *)
Definition remove_relay (relay_parse : string -> option string) (url : string) (calls : list string) : list string :=
  match relay_parse (url +:+ "/") with Some relay => calls ++ [relay] | None => calls end.

(** [note_handshake_failure]: the relay the connection came through, if it came through one. *)
Definition note_handshake_failure (relay_parse : string -> option string) (remote : option string) (now now_unix : Z) (g : GuardState * list string) :
    GuardState * list string :=
  if negb cfg.(rg_enabled) then g else
  match remote with
  | Some url =>
      match note_failure url now now_unix g.1 with
      | (st, Some (url, _)) => (st, remove_relay relay_parse url g.2)
      | (st, None) => (st, g.2)
      end
  | None => g
  end.

(** The counts of the metrics page. *)
Definition recent (now : Z) st : list (string * nat) :=
  List.filter (fun x => (0 <? x.2)%nat) ((fun x => (x.1, length (List.filter (fun t => since now t <=? window) x.2))) <$> bt_entries st.(gs_failures)).

(** ** What it promises *)

(** A history: which relay failed a handshake, and when. *)
Definition Failure : Type := string * (Z * Z).
Definition note (acc : GuardState * list (string * nat)) (f : Failure) : GuardState * list (string * nat) :=
  let '(st, out) := acc in
  let '(st, hit) := note_failure f.1 f.2.1 f.2.2 st in (st, out ++ match hit with Some h => [h] | None => [] end).
Definition notes (fs : list Failure) : GuardState * list (string * nat) := foldl note (guard_state_default, []) fs.

(** Failures of a relay that are not older than the window at an instant. *)
Definition in_window (url : string) (now : Z) (fs : list Failure) : list Failure :=
  List.filter (fun f => String.eqb (norm f.1) url && (since now f.2.1 <=? window)) fs.
End relay_guard.

(** ** The guard counts exactly *)

Section facts.
Variables (cfg : RelayGuardConfig) (protected_urls : list string).
Implicit Types (st : GuardState) (fs : list Failure) (f : Failure).

#[local] Abbreviation note_failure := (note_failure cfg protected_urls).
#[local] Abbreviation note := (note cfg protected_urls).
#[local] Abbreviation notes := (notes cfg protected_urls).
#[local] Abbreviation window := (window cfg).
#[local] Abbreviation drop_old := (drop_old cfg).
#[local] Abbreviation in_window := (in_window cfg).

Definition time f : Z := f.2.1.
Definition of_url (url : string) f : bool := String.eqb (norm f.1) url.
Definition times (url : string) fs : list Z := time <$> List.filter (of_url url) fs.
Definition ordered fs : Prop := StronglySorted Z.le (time <$> fs).

Lemma guard_window_pos : 0 < window.
Proof. unfold RelayGuard.window, from_secs. lia. Qed.

Lemma ordered_snoc fs f : ordered (fs ++ [f]) -> ordered fs /\ Forall (fun g => time g <= time f) fs.
Proof.
  unfold ordered. rewrite fmap_app. intros H. apply StronglySorted_app in H as (H & Hs & _). split; [done|]. apply Forall_forall. intros g Hg.
  apply (H (time g)); [by apply list_elem_of_fmap_2|by left].
Qed.

Lemma times_snoc url fs f : times url (fs ++ [f]) = times url fs ++ (if of_url url f then [time f] else []).
Proof. unfold times. rewrite List.filter_app, fmap_app. cbn. by destruct (of_url url f). Qed.

(** What is still counted at an instant, all instants lying before it. *)
Definition after (cut : Z) (l : list Z) : list Z := List.filter (fun t => cut <=? t) l.

Lemma sorted_times url fs : ordered fs -> StronglySorted Z.le (times url fs).
Proof.
  unfold ordered, times. induction fs as [|f fs IH]; intros H; [constructor|]. cbn in H. apply StronglySorted_inv in H as [H Hf]. cbn. destruct (of_url url f); [|by apply IH].
  cbn. constructor; [by apply IH|]. rewrite Forall_fmap, Forall_forall in *. intros g Hg. cbn in *. apply Hf. rewrite list_elem_of_In, filter_In in Hg. destruct Hg. by apply list_elem_of_In.
Qed.

Lemma drop_old_after now l : StronglySorted Z.le l -> Forall (fun t => t <= now) l -> drop_old now l = after (now - window) l.
Proof.
  induction l as [|t l IH]; intros Hs Hl; [done|]. apply StronglySorted_inv in Hs as [Hs Ht]. inversion_clear Hl as [|? ? Hnow Hl']. cbn [RelayGuard.drop_old]. unfold after. cbn [List.filter].
  unfold since. pose proof guard_window_pos. destruct (Z.ltb_spec window (Z.max (now - t) 0)), (Z.leb_spec (now - window) t); try lia; [by apply IH|].
  f_equal. clear IH. induction Ht as [|u l Hu Ht IH]; [done|]. cbn. destruct (Z.leb_spec (now - window) u); [|lia].
  inversion_clear Hl'. apply StronglySorted_inv in Hs as [Hs _]. f_equal. by apply IH.
Qed.

Lemma after_after c1 c2 l : c1 <= c2 -> after c2 (after c1 l) = after c2 l.
Proof.
  intros Hc. unfold after. induction l as [|t l IH]; [done|]. cbn. destruct (Z.leb_spec c1 t); cbn; [by rewrite IH|]. destruct (Z.leb_spec c2 t); [lia|done].
Qed.
Lemma after_app c l1 l2 : after c (l1 ++ l2) = after c l1 ++ after c l2.
Proof. apply List.filter_app. Qed.

Lemma in_window_after url now fs : Forall (fun f => time f <= now) fs -> length (in_window url now fs) = length (after (now - window) (times url fs)).
Proof.
  unfold RelayGuard.in_window, times, after, of_url, time. induction 1 as [|f fs Hf _ IH]; [done|]. cbn [List.filter]. cbn in Hf.
  destruct (String.eqb (norm f.1) url); cbn [andb]; [|done]. cbn [fmap list_fmap List.filter]. unfold since at 1. pose proof guard_window_pos.
  destruct (Z.leb_spec (Z.max (now - f.2.1) 0) window), (Z.leb_spec (now - window) f.2.1); cbn [length]; lia.
Qed.

(** The queue of a relay that was not removed holds what can still count at the instant [last] and later. *)
Record counted (last : Z) fs st : Prop := {
  ct_before : Forall (fun f => time f <= last) fs;
  ct_queue url : was_removed url st = false -> exists cut, cut <= last - window /\ default [] (st.(gs_failures) !! url) = after cut (times url fs)
}.

Definition due (fs : list Failure) f : Prop :=
  max_failures cfg <= Z.of_nat (length (in_window (norm f.1) (time f) (fs ++ [f]))) /\ protected protected_urls (norm f.1) = false.

Lemma was_removed_snoc url st r failures : was_removed url (mkGuardState failures (st.(gs_removed) ++ [r])) = was_removed url st || String.eqb r.(rr_url) url.
Proof. unfold was_removed. cbn. rewrite existsb_app. cbn. by rewrite orb_false_r. Qed.

Lemma sorted_after c l : StronglySorted Z.le l -> StronglySorted Z.le (after c l).
Proof.
  unfold after. induction l as [|t l IH]; intros H; [constructor|]. apply StronglySorted_inv in H as [H Ht]. cbn. destruct (c <=? t); [|by apply IH].
  constructor; [by apply IH|]. rewrite Forall_forall in *. intros u Hu. apply Ht. rewrite list_elem_of_In, filter_In in Hu. destruct Hu. by apply list_elem_of_In.
Qed.
Lemma Forall_filter {A} (P : A -> Prop) (p : A -> bool) l : Forall P l -> Forall P (List.filter p l).
Proof. rewrite !Forall_forall. intros H x Hx. apply H. rewrite list_elem_of_In, filter_In in Hx. destruct Hx. by apply list_elem_of_In. Qed.

(** A failure is queued, and what is too old leaves the queue. *)
Lemma queue_next fs f cut : ordered (fs ++ [f]) -> Forall (fun g => time g <= time f) fs -> cut <= time f - window ->
  drop_old (time f) (after cut (times (norm f.1) fs) ++ [time f]) = after (time f - window) (times (norm f.1) (fs ++ [f])).
Proof.
  intros Hord Hb Hc. assert (Hs : times (norm f.1) (fs ++ [f]) = times (norm f.1) fs ++ [time f]) by (rewrite times_snoc; unfold of_url; by rewrite String.eqb_refl).
  assert (Ha : after cut [time f] = [time f]) by (unfold after; cbn; destruct (Z.leb_spec cut (time f)); [done|pose proof guard_window_pos; lia]).
  rewrite <- Ha, <- after_app, <- Hs, drop_old_after; [by apply after_after|by apply sorted_after, sorted_times|].
  apply Forall_filter. rewrite Hs. apply Forall_app. split; [|by constructor]. apply Forall_fmap. by apply Forall_filter.
Qed.

Lemma note_step last fs f st : ordered (fs ++ [f]) -> counted last fs st -> last <= time f ->
  let '(st', hit) := note_failure f.1 f.2.1 f.2.2 st in
  counted (time f) (fs ++ [f]) st' /\
  match hit with
  | Some (url, n) => url = norm f.1 /\ was_removed url st = false /\ due fs f /\ n = length (in_window url (time f) (fs ++ [f])) /\
      (forall u, was_removed u st' = was_removed u st || String.eqb url u)
  | None => (was_removed (norm f.1) st = true \/ ~ due fs f) /\ (forall u, was_removed u st' = was_removed u st)
  end.
Proof.
  intros Hord [Hb Hq] Hlast. assert (Hb1 : Forall (fun g => time g <= time f) fs) by (eapply Forall_impl; [exact Hb|]; cbn; lia).
  assert (Hb' : Forall (fun g => time g <= time f) (fs ++ [f])) by (apply Forall_app; split; [done|by constructor]).
  assert (Hother : forall url, url <> norm f.1 -> times url (fs ++ [f]) = times url fs).
  { intros url Hne. rewrite times_snoc. unfold of_url. destruct (String.eqb_spec (norm f.1) url); [congruence|by rewrite app_nil_r]. }
  unfold RelayGuard.note_failure. destruct (was_removed (norm f.1) st) eqn:Hr.
  { split; [|by split; [left|]]. split; [done|]. intros url Hurl. destruct (Hq url Hurl) as (cut & Hc & Hcut). exists cut. split; [lia|].
    rewrite Hother; [done|congruence]. }
  destruct (Hq _ Hr) as (cut & Hc & Hcut). rewrite Hcut. change f.2.1 with (time f). rewrite (queue_next fs f cut) by (done || lia).
  rewrite <- (in_window_after _ _ _ Hb'). set (n := length _). set (failures := <[_ := _]> _).
  assert (Hcount : forall removed, (forall u, was_removed u (mkGuardState failures removed) = false -> was_removed u st = false) -> counted (time f) (fs ++ [f]) (mkGuardState failures removed)).
  { intros removed Hrem. split; [done|]. intros url Hurl. cbn. unfold failures. destruct (decide (url = norm f.1)) as [->|Hne].
    - rewrite lookup_insert_eq. by exists (time f - window).
    - rewrite lookup_insert_ne by done. destruct (Hq url (Hrem _ Hurl)) as (c & Hc' & Hcut'). exists c. split; [lia|]. by rewrite Hother. }
  destruct (Z.leb_spec (max_failures cfg) (Z.of_nat n)) as [Hn|Hn]; cbn [andb]; [destruct (protected _ _) eqn:Hp; cbn [negb]|].
  - split; [by apply Hcount|]. split; [|done]. right. intros [_ H]. congruence.
  - split; [|by split_and!; [| | |done|intros u; rewrite was_removed_snoc]]. apply Hcount. intros u. rewrite was_removed_snoc. by intros [? _]%orb_false_iff.
  - split; [by apply Hcount|]. split; [|done]. right. intros [H _]. unfold n in Hn. lia.
Qed.

Record exact fs (r : GuardState * list (string * nat)) : Prop := {
  ex_counted now : Forall (fun f => time f <= now) fs -> counted now fs r.1;
  ex_removed u : was_removed u r.1 = true <-> u ∈ r.2.*1;
  ex_once : NoDup r.2.*1;
  ex_due u : u ∈ r.2.*1 <-> exists fs1 f fs2, fs = fs1 ++ f :: fs2 /\ u = norm f.1 /\ due fs1 f;
  ex_enough u n : (u, n) ∈ r.2 -> protected protected_urls u = false /\ max_failures cfg <= Z.of_nat n
}.

Lemma counted_later last now fs st : counted last fs st -> last <= now -> counted now fs st.
Proof.
  intros [Hb Hq] Hl. split; [eapply Forall_impl; [exact Hb|]; cbn; lia|]. intros url Hu. destruct (Hq url Hu) as (cut & ? & ?). exists cut. split; [lia|done].
Qed.

Lemma split_snoc {A} (l : list A) x l1 y l2 : l ++ [x] = l1 ++ y :: l2 <-> (l2 = [] /\ l = l1 /\ x = y) \/ exists l2', l2 = l2' ++ [x] /\ l = l1 ++ y :: l2'.
Proof.
  split.
  - destruct l2 as [|z l2 _] using rev_ind; [intros [-> [= ->]]%app_inj_tail; by left|]. rewrite app_comm_cons, app_assoc. intros [-> ->]%app_inj_tail. right. eauto.
  - intros [(-> & -> & ->)|(l2' & -> & ->)]; [done|]. by rewrite <- app_assoc.
Qed.

Lemma notes_exact fs : ordered fs -> exact fs (notes fs).
Proof.
  induction fs as [|f fs IH] using rev_ind; intros Hord.
  { split; cbn.
    - intros now _. split; [constructor|]. intros url _. exists (now - window). split; [lia|reflexivity].
    - intros u. split; [done|by intros ?%elem_of_nil].
    - constructor.
    - intros u. split; [by intros ?%elem_of_nil|by intros ([] & ? & ? & ? & _)].
    - by intros u n ?%elem_of_nil. }
  destruct (ordered_snoc _ _ Hord) as [Ho Hb]. specialize (IH Ho). unfold RelayGuard.notes in *. rewrite foldl_snoc. destruct (foldl note _ fs) as [st out]. destruct IH as [Hc Hr Hn Hd He].
  cbn [fst snd] in *. unfold RelayGuard.note. pose proof (note_step (time f) fs f st Hord (Hc _ Hb) (Z.le_refl _)) as Hs. destruct (note_failure _ _ _ st) as [st' [[url n]|]]; destruct Hs as [Hcount Hs].
  - destruct Hs as (-> & Hnew & Hdue & -> & Hu). assert (Hnot : norm f.1 ∉ out.*1) by (rewrite <- Hr; by destruct (was_removed _ st)).
    split; cbn [fst snd].
    + intros now Hnow. eapply counted_later; [exact Hcount|]. apply Forall_app in Hnow as [_ Hnow]. by inversion_clear Hnow.
    + intros u. rewrite Hu, orb_true_iff, Hr, fmap_app, elem_of_app, String.eqb_eq. cbn. rewrite list_elem_of_singleton. naive_solver.
    + rewrite fmap_app. apply NoDup_app. split; [done|]. split; [|apply NoDup_singleton]. intros u H ->%list_elem_of_singleton. done.
    + intros u. rewrite fmap_app, elem_of_app, Hd. cbn. rewrite list_elem_of_singleton. split.
      * intros [(fs1 & g & fs2 & -> & -> & H)| ->]; [exists fs1, g, (fs2 ++ [f]); split; [by rewrite <- app_assoc|done]|by exists fs, f, []].
      * intros (fs1 & g & fs2 & [(-> & -> & ->)|(fs2' & -> & ->)]%split_snoc & -> & H); [by right|left; eauto 10].
    + intros u m [H|[= -> ->]%list_elem_of_singleton]%elem_of_app; [by apply He|]. destruct Hdue as [H1 H2]. done.
  - destruct Hs as [Hs Hu]. rewrite app_nil_r. split; cbn [fst snd].
    + intros now Hnow. eapply counted_later; [exact Hcount|]. apply Forall_app in Hnow as [_ Hnow]. by inversion_clear Hnow.
    + intros u. by rewrite Hu.
    + done.
    + intros u. rewrite Hd. split.
      * intros (fs1 & g & fs2 & -> & -> & H). exists fs1, g, (fs2 ++ [f]). by rewrite <- app_assoc.
      * intros (fs1 & g & fs2 & [(-> & -> & ->)|(fs2' & -> & ->)]%split_snoc & -> & H); [|eauto 10]. destruct Hs as [Hs|Hs]; [|done]. apply Hd. by apply Hr.
    + done.
Qed.

(** While the clock does not run backwards, the guard takes out exactly the relays that are not protected and of which
    some failure was the last of at least [max_failures] within the window, each of them once, and at that failure. *)
Theorem relay_guard_exact fs : ordered fs ->
  NoDup (notes fs).2.*1 /\
  (forall url, url ∈ (notes fs).2.*1 <-> exists fs1 f fs2, fs = fs1 ++ f :: fs2 /\ url = norm f.1 /\ due fs1 f) /\
  (forall url n, (url, n) ∈ (notes fs).2 -> protected protected_urls url = false /\ max_failures cfg <= Z.of_nat n).
Proof. intros H. destruct (notes_exact fs H) as [_ _ H1 H2 H3]. done. Qed.
End facts.

(** ** A concrete history *)

Definition sample_guard : RelayGuardConfig := mkRelayGuard true 3 600.
Definition n0 : string := "https://euc1-1.relay.n0.iroh.link./".
Definition n1 : string := "https://relay-fsn7.sth.cx".
Definition sample_failures : list Failure :=
  [(n1, (from_secs 1, 1)); (n0, (from_secs 1, 1)); (n1 +:+ "/", (from_secs 2, 2)); (n0, (from_secs 2, 2)); (n1, (from_secs 3, 3));
   (n0, (from_secs 700, 700)); (n0, (from_secs 701, 701)); (n0, (from_secs 702, 702)); (n0, (from_secs 703, 703))]%string.

Example n0_found : is_n0_relay n0 = true /\ is_n0_relay n1 = false.
Proof. vm_compute. auto. Qed.
Example sample_hits : (notes sample_guard [n1] sample_failures).2 = [("https://euc1-1.relay.n0.iroh.link.", 3%nat)]%string.
Proof. vm_compute. reflexivity. Qed.

Lemma relay_guard_exact_witness : ordered sample_failures /\
  (notes sample_guard [n1] sample_failures).2 = [("https://euc1-1.relay.n0.iroh.link.", 3%nat)]%string /\ NoDup (notes sample_guard [n1] sample_failures).2.*1.
Proof.
  assert (H : ordered sample_failures) by (unfold ordered; vm_compute; repeat (constructor; try done)).
  split; [exact H|]. split; [vm_compute; reflexivity|]. exact (proj1 (relay_guard_exact sample_guard [n1] sample_failures H)).
Defined.
