(* ===== verification/LegacyWire.v ===== *)
(** * The messages of the legacy network

    The binary frames and the block lists of [src/src/p2p_legacy/client.rs] and [server.rs]: what a
    node writes for [getBlocks] and what the node that asked reads.  The protobuf coding of one block
    header is prost's and is the class [Proto]; sockets are not modelled. *)

From S2P Require Import Prelude Models Env Bytes Crypto Config TxCodec TxWire TxRoundtrip BlockCodec BlockVerify Wallet Rules Tree Storage PushServer PeerHealth.

(** ** Frames *)

Definition NES_VERSION : Z := 2.
Definition TYPE_HELLO : Z := 0.
Definition TYPE_PING : Z := 1.
Definition TYPE_REQUEST : Z := 3.
Definition HEADER_LEN : nat := 14.

Record NesMessage : Type := mkNes { nm_type : Z; nm_id : Z; nm_status_code : Z; nm_path : string; nm_payload : list byte }.

Definition encode_frame (type_ id : Z) (path : string) (payload : list byte) : list byte :=
  [byte_of_Z NES_VERSION; byte_of_Z type_] ++ be_bytes 4 id ++ be_bytes 2 200 ++ [byte_of_Z (slen path); x00]
  ++ be_bytes 2 0 ++ be_bytes 2 0 ++ bytes_of path ++ payload.

(** The answer of the server: the frame with the status in its place. *)
Definition reply_frame (type_ id status : Z) (payload : list byte) : list byte :=
  let f := encode_frame type_ id EmptyString payload in
  take 6 f ++ be_bytes 2 status ++ drop 8 f.

(** The protobuf message of a block. *)
Record HeaderProto : Type := mkHeader {
  hp_id : string; hp_version : Z; hp_timestamp : Z; hp_previous_block : string; hp_height : Z; hp_number_of_transactions : Z;
  hp_total_amount : string; hp_total_fee : string; hp_reward : string; hp_payload_length : Z; hp_payload_hash : string;
  hp_generator_public_key : string; hp_block_signature : string; hp_transactions : list byte
}.

(** [Message::encode_to_vec], [Message::decode] with the text of its error. *)
Class Proto : Type := {
  header_encode : HeaderProto -> list byte;
  header_decode : list byte -> result HeaderProto string
}.

Section wire.
Context `{E : Env}.
Variables (net : Network).

Definition decode_frame (buf : list byte) : Res NesMessage :=
  if (length buf <? HEADER_LEN)%nat then Err (ESync ("nes frame too short (" +:+ fmt_u (Z.of_nat (length buf)) +:+ " bytes)")) else
  let path_len := Z.to_nat (byte_at buf 8) in
  let socket_len := Z.to_nat (byte_at buf 9) in
  let payload_start := (HEADER_LEN + path_len + socket_len)%nat in
  if (length buf <? payload_start)%nat then Err (ESync "nes frame truncated") else
  Ok (mkNes (byte_at buf 1) (be_value (take 4 (drop 2 buf))) (be_value (take 2 (drop 6 buf)))
        (from_utf8_lossy (take path_len (drop HEADER_LEN buf))) (drop payload_start buf)).

(** ** Block lists *)

(** [[u32 BE len][bytes]]: every frame takes four bytes or more, so the length of the buffer is enough fuel. *)
Definition be_frame (x : list byte) : list byte := be_bytes 4 (as_u32 (Z.of_nat (length x))) ++ x.
Fixpoint be_frames_go (fuel : nat) (buf : list byte) : Res (list (list byte)) :=
  match fuel with
  | O => Ok []
  | S fuel =>
      if (4 <=? length buf)%nat then
        let len := Z.to_nat (be_value (take 4 buf)) in
        let? chunk := ok_or (slice buf 4 len) (ESync "truncated length-prefixed frame in getBlocks response") in
        let? rest := be_frames_go fuel (drop (4 + len) buf) in
        Ok (chunk :: rest)
      else Ok []
  end.
Definition be_frames (buf : list byte) : Res (list (list byte)) := be_frames_go (length buf) buf.

(** The store's blocks in the range of heights. *)
Definition get_blocks_from (s : Store) (from_height limit : Z) : Res (list Block) :=
  rmapM (fun v => decode_block v net) (omap (fun h => s.(st_blocks) !! h) (seqZ from_height (sat_add_u64 from_height limit - from_height))).

Context `{PR : Proto}.

Definition header_of (b : Block) (txs : list byte) : HeaderProto :=
  mkHeader (ostr b.(b_id)) b.(b_version) b.(b_timestamp) b.(b_previous_block) (as_u32 b.(b_height)) b.(b_number_of_transactions)
    (fmt_u b.(b_total_amount)) (fmt_u b.(b_total_fee)) (fmt_u b.(b_reward)) b.(b_payload_length) b.(b_payload_hash)
    b.(b_generator_public_key) (ostr b.(b_block_signature)) txs.

(** The body of [get_blocks]. *)
Definition block_message (headers_only : bool) (b : Block) : Res (list byte) :=
  let? txs := if headers_only then Ok []
              else rmap (fun l => concat (be_frame <$> l)) (rmapM (tx_bytes net) b.(b_transactions)) in
  Ok (be_frame (header_encode (header_of b txs))).
Definition blocks_message (headers_only : bool) (blocks : list Block) : Res (list byte) :=
  rmap (@concat _) (rmapM (block_message headers_only) blocks).

Definition get_blocks (s : Store) (last_block_height block_limit : Z) (headers_only : bool) : Res (list byte) :=
  let limit := Z.min (Z.max block_limit 1) MAX_BLOCKS_PER_REQUEST in
  let? blocks := get_blocks_from s (last_block_height + 1) limit in
  blocks_message headers_only blocks.

Definition parse_amount (s what : string) : Res Z :=
  ok_or (parse_u64 s) (ESync ("bad " +:+ what +:+ " '" +:+ s +:+ "' in peer block")).

Fixpoint read_txs (h : HeaderProto) (seq : Z) (raws : list (list byte)) : Res (list Transaction) :=
  match raws with
  | [] => Ok []
  | raw :: raws =>
      let? tx := deserialize_transaction raw in
      let? rest := read_txs h (seq + 1) raws in
      Ok (tx_set_sequence (Some (as_u32 seq)) (tx_set_block_height (Some h.(hp_height)) (tx_set_block_id (Some h.(hp_id)) tx)) :: rest)
  end.

Definition read_block (raw : list byte) : Res Block :=
  let? h := map_err (fun e => ESync ("block header decode: " +:+ e)) (header_decode raw) in
  let? raws := be_frames h.(hp_transactions) in
  let? transactions := read_txs h 0 raws in
  let? total_amount := parse_amount h.(hp_total_amount) "totalAmount" in
  let? total_fee := parse_amount h.(hp_total_fee) "totalFee" in
  let? reward := parse_amount h.(hp_reward) "reward" in
  Ok (mkBlock (Some h.(hp_id)) h.(hp_version) h.(hp_timestamp) h.(hp_previous_block) h.(hp_height) h.(hp_number_of_transactions)
        total_amount total_fee reward h.(hp_payload_length) h.(hp_payload_hash) h.(hp_generator_public_key)
        (if bool_decide (h.(hp_block_signature) = EmptyString) then None else Some h.(hp_block_signature)) None transactions).

Definition by_height (x y : Block) : Prop := x.(b_height) <= y.(b_height).
#[export] Instance by_height_dec x y : Decision (by_height x y).
Proof. unfold by_height. apply _. Defined.

#[export] Instance by_height_total : Total by_height.
Proof. intros x y. unfold by_height. lia. Qed.
#[export] Instance by_height_trans : Transitive by_height.
Proof. intros x y z. unfold by_height. lia. Qed.

Definition decode_blocks (payload : list byte) : Res (list Block) :=
  let? raws := be_frames payload in
  let? blocks := rmapM read_block raws in
  Ok (sort_by by_height blocks).
End wire.

(** What prost's documentation promises: a message is read back, its strings being UTF-8 and its integers 32 bits wide. *)
Section laws.
Context `{E : Env}.
Record header_ok (h : HeaderProto) : Prop := {
  ho_text : Forall utf8_str [h.(hp_id); h.(hp_previous_block); h.(hp_total_amount); h.(hp_total_fee); h.(hp_reward); h.(hp_payload_hash);
                             h.(hp_generator_public_key); h.(hp_block_signature)];
  ho_range : Forall in_u32 [h.(hp_version); h.(hp_timestamp); h.(hp_height); h.(hp_number_of_transactions); h.(hp_payload_length)]
}.
Class ProtoLaws (PR : Proto) : Prop := { header_read : forall h, header_ok h -> header_decode (header_encode h) = Ok h }.

(** The blocks this port can serve. *)
Context `{PR : Proto}.
Record wire_served (n : Network) (b : Block) : Prop := {
  sv_id : exists id, b.(b_id) = Some id /\ utf8_str id;
  sv_text : Forall utf8_str [b.(b_previous_block); b.(b_payload_hash); b.(b_generator_public_key)];
  sv_signature : forall s, b.(b_block_signature) = Some s -> s <> EmptyString /\ utf8_str s;
  sv_range : Forall in_u32 [b.(b_version); b.(b_timestamp); b.(b_height); b.(b_number_of_transactions); b.(b_payload_length)];
  sv_amounts : Forall in_u64 [b.(b_total_amount); b.(b_total_fee); b.(b_reward)];
  sv_txs : Forall wire_tx b.(b_transactions) /\ Z.of_nat (length b.(b_transactions)) <= u32_max;
  sv_fits : forall bodies, rmapM (tx_bytes n) b.(b_transactions) = Ok bodies ->
    Forall fits_frame bodies /\ fits_frame (header_encode (header_of b (concat (be_frame <$> bodies))))
}.

(** The block on the other side: no quantum signature, ids and positions filled in. *)
Definition as_read (n : Network) (b : Block) : Block :=
  b_set_pq_signature None (b_set_transactions (imap (restored n b.(b_id) b.(b_height)) b.(b_transactions)) b).
End laws.

(** ** Frames are read back *)

Section facts.
Context `{E : Env} `{L : !EnvLaws E}.

Lemma dec_go_ascii fuel k acc : str_forall (fun c => c <? 128) acc = true -> str_forall (fun c => c <? 128) (dec_go fuel k acc) = true.
Proof.
  revert k acc; induction fuel as [|fuel IH]; intros k acc H; cbn [dec_go]; [done|].
  assert (Hd : str_forall (fun c => c <? 128) (String (digit_char (k mod 10)) acc) = true).
  { cbn [str_forall]. rewrite H, andb_true_r. unfold digit_char. pose proof (Z.mod_pos_bound k 10 ltac:(lia)).
    rewrite N_ascii_embedding by lia. apply Z.ltb_lt. lia. }
  destruct (k <? 10); [done|]. by apply IH.
Qed.
Lemma fmt_u_utf8 k : utf8_str (fmt_u k).
Proof. apply from_utf8_ascii. by apply dec_go_ascii. Qed.

Lemma be_value_u32 x : fits_frame x -> Z.to_nat (be_value (be_bytes 4 (as_u32 (Z.of_nat (length x))))) = length x.
Proof.
  intros Hx. unfold fits_frame in Hx. rewrite be_value_bytes. change (256 ^ Z.of_nat 4) with 4294967296. unfold as_u32.
  rewrite Z.mod_mod, Z.mod_small by (bounds; lia). lia.
Qed.

Lemma be_frames_go_ok xs fuel : Forall fits_frame xs -> (length xs <= fuel)%nat -> be_frames_go fuel (concat (be_frame <$> xs)) = Ok xs.
Proof.
  intros H. revert fuel; induction H as [|x xs Hx _ IH]; intros fuel Hf; [by destruct fuel|].
  cbn [length] in Hf. destruct fuel as [|fuel]; [lia|]. cbn [fmap list_fmap concat be_frames_go].
  set (l := be_bytes 4 (as_u32 (Z.of_nat (length x)))). change (be_frame x) with (l ++ x). rewrite <- app_assoc.
  assert (Hl : length l = 4%nat) by apply be_bytes_length.
  rewrite (length_app l), Hl, take_app_length' by done. cbn [Nat.add Nat.leb]. 
  assert (Hb : Z.to_nat (be_value l) = length x) by (by apply be_value_u32). rewrite Hb.
  rewrite <- Hl, slice_at. cbn [ok_or rbind]. rewrite (app_assoc l), drop_app_length' by (by rewrite length_app).
  by rewrite IH by lia.
Qed.

Lemma concat_frames_length xs : (length xs <= length (concat (be_frame <$> xs)))%nat.
Proof. induction xs as [|x xs IH]; [done|]. cbn [fmap list_fmap concat length]. unfold be_frame at 1. rewrite !length_app, be_bytes_length. lia. Qed.

Lemma be_frames_ok xs : Forall fits_frame xs -> be_frames (concat (be_frame <$> xs)) = Ok xs.
Proof. intros H. apply be_frames_go_ok; [done|apply concat_frames_length]. Qed.

(** ** Block lists are read back *)

Lemma sorted_once l : StronglySorted (fun x y => x.(b_height) < y.(b_height)) l -> sort_by by_height l = l.
Proof.
  intros Hs. apply (StronglySorted_unique_strong by_height).
  - intros x y Hx Hy Hxy Hyx. rewrite sort_by_Permutation in Hx. revert Hx Hy Hxy Hyx. clear -Hs.
    induction Hs as [|b l _ IH Hb]; intros Hx Hy Hxy Hyx; [by apply not_elem_of_nil in Hx|]. rewrite Forall_forall in Hb. unfold by_height in *.
    apply elem_of_cons in Hx as [->|Hx], Hy as [->|Hy]; [done|apply Hb in Hy; lia|apply Hb in Hx; lia|by apply IH].
  - apply (StronglySorted_sort_by _).
  - clear -Hs. induction Hs as [|b l _ IH Hb]; constructor; [done|]. eapply Forall_impl; [exact Hb|]. intros y Hy. unfold by_height. cbn in Hy. lia.
  - apply sort_by_Permutation.
Qed.

Context `{PR : Proto} `{PL : !ProtoLaws PR}.
Implicit Types (n : Network) (b : Block).

Lemma read_txs_ok n h l bodies (i : nat) : Forall wire_tx l -> rmapM (tx_bytes n) l = Ok bodies -> Z.of_nat (i + length l) <= u32_max ->
  read_txs h (Z.of_nat i) bodies = Ok (imap (fun k => restored n (Some h.(hp_id)) h.(hp_height) (i + k)) l).
Proof.
  intros Hw. revert bodies i; induction Hw as [|tx l Htx _ IH]; intros bodies i Hb Hi; cbn [rmapM] in Hb; [by apply Ok_inj in Hb as <-|].
  destruct (wire_roundtrip tx n.(n_pubkey_hash) Htx) as (x & Hx & Hd). fold (tx_bytes n tx) in Hx. rewrite Hx in Hb. cbn [rbind] in Hb.
  apply rbind_ok_inv in Hb as (xs & Hxs & Hb). apply Ok_inj in Hb as <-. cbn [read_txs length] in *. rewrite Hd. cbn [rbind].
  replace (Z.of_nat i + 1) with (Z.of_nat (S i)) by lia. rewrite (IH xs (S i) Hxs) by lia. cbn [rbind imap]. rewrite Nat.add_0_r. do 2 f_equal.
  - unfold restored, tx_hash_id. rewrite Hx. unfold as_u32. rewrite Z.mod_small by (bounds; lia). done.
  - apply imap_ext. intros k y _. cbn. by rewrite Nat.add_succ_r.
Qed.

Lemma bodies_exist n l : Forall wire_tx l -> exists bodies, rmapM (tx_bytes n) l = Ok bodies.
Proof.
  induction 1 as [|tx l Htx _ [bodies IH]]; [by exists []|]. destruct (wire_roundtrip tx n.(n_pubkey_hash) Htx) as (x & Hx & _).
  fold (tx_bytes n tx) in Hx. exists (x :: bodies). cbn [rmapM]. by rewrite Hx, IH.
Qed.

Lemma served_header_ok n b txs : wire_served n b -> header_ok (header_of b txs).
Proof.
  intros [(id & Hid & Hidu) Ht Hs Hr _ _ _]. assert (He : utf8_str EmptyString) by (by apply from_utf8_ascii).
  assert (Hh : as_u32 b.(b_height) = b.(b_height)).
  { apply as_u32_id. rewrite !Forall_cons in Hr. tauto. }
  split; cbn [header_of hp_id hp_previous_block hp_total_amount hp_total_fee hp_reward hp_payload_hash hp_generator_public_key hp_block_signature
               hp_version hp_timestamp hp_height hp_number_of_transactions hp_payload_length].
  - rewrite Hid. rewrite !Forall_cons in Ht. destruct Ht as (H1 & H2 & H3 & _).
    repeat constructor; try done; try apply fmt_u_utf8. destruct (b_block_signature b) as [s|] eqn:Hsig; [|done]. by apply (Hs s).
  - rewrite Hh. done.
Qed.

Lemma block_message_read n b : wire_served n b -> exists raw, block_message n false b = Ok (be_frame raw) /\ fits_frame raw /\
  read_block raw = Ok (as_read n b).
Proof.
  intros Hb. pose proof Hb as [(id & Hid & _) _ Hs Hr Ha [Htx Hlen] Hfit]. destruct (bodies_exist n _ Htx) as [bodies Hbo].
  destruct (Hfit _ Hbo) as [Hf1 Hf2]. set (txs := concat (be_frame <$> bodies)) in *. exists (header_encode (header_of b txs)).
  split_and!; [|done|].
  { unfold block_message. rewrite Hbo. done. }
  unfold read_block. rewrite header_read by (by eapply served_header_ok). cbn [map_err rbind].
  cbn [header_of hp_transactions]. unfold txs at 1. rewrite be_frames_ok by done. cbn [rbind].
  change 0 with (Z.of_nat 0). rewrite (read_txs_ok n _ _ _ 0 Htx Hbo) by lia. cbn [rbind].
  rewrite !Forall_cons in Ha. destruct Ha as (A1 & A2 & A3 & _). unfold parse_amount.
  cbn [header_of hp_total_amount hp_total_fee hp_reward]. rewrite !parse_fmt_u by done. cbn [ok_or rbind].
  cbn [header_of hp_id hp_version hp_timestamp hp_previous_block hp_height hp_number_of_transactions hp_payload_length hp_payload_hash
       hp_generator_public_key hp_block_signature].
  assert (Hh : as_u32 b.(b_height) = b.(b_height)) by (apply as_u32_id; rewrite !Forall_cons in Hr; tauto).
  rewrite Hh, Hid. unfold as_read. destruct b; cbn in *; subst. do 2 f_equal.
  destruct b_block_signature as [s|]; cbn; [|done]. destruct (Hs s eq_refl) as [Hne _]. by rewrite bool_decide_false.
Qed.

(** A list of blocks served over the legacy port is read back by the node that asked: the same blocks in the
    same order, every transaction in its place with the id of its bytes; only the quantum signature of a
    block does not travel. *)
Theorem served_blocks_read n bs (Hw : Forall (wire_served n) bs) (Hs : StronglySorted (fun x y => x.(b_height) < y.(b_height)) bs) :
  exists m, blocks_message n false bs = Ok m /\ decode_blocks m = Ok (as_read n <$> bs).
Proof.
  assert (H : exists raws, rmapM (block_message n false) bs = Ok (be_frame <$> raws) /\ Forall fits_frame raws /\
                rmapM read_block raws = Ok (as_read n <$> bs)).
  { clear Hs. induction Hw as [|b bs Hb _ (raws & H1 & H2 & H3)]; [by exists []|].
    destruct (block_message_read n b Hb) as (raw & R1 & R2 & R3). exists (raw :: raws). cbn [rmapM fmap list_fmap].
    rewrite R1. cbn [rbind]. rewrite H1. cbn [rbind]. rewrite R3. cbn [rbind]. rewrite H3. split_and!; [done|by constructor|done]. }
  destruct H as (raws & H1 & H2 & H3). exists (concat (be_frame <$> raws)). unfold blocks_message. rewrite H1. split; [done|].
  unfold decode_blocks. rewrite be_frames_ok by done. cbn [rbind]. rewrite H3. cbn [rbind]. f_equal.
  apply sorted_once. clear -Hs. induction Hs as [|b bs _ IH Hb]; cbn; constructor; [done|]. by apply Forall_fmap.
Qed.

(** A hybrid block of the next protocol stage reaches no node over this port: the one that asked reads it without its
    quantum signature, and its checks refuse it. *)
Theorem hybrid_block_not_served n b now (Hw : wire_served n b) (Hv : b.(b_version) = BLOCK_VERSION_PQ) :
  exists raw b', block_message n false b = Ok (be_frame raw) /\ read_block raw = Ok b' /\ b'.(b_version) = BLOCK_VERSION_PQ /\
    (verify_block b' n now).(bv_verified) = false.
Proof.
  destruct (block_message_read n b Hw) as (raw & H1 & _ & H2). exists raw, (as_read n b). split_and!; [done..|].
  destruct (bv_verified (verify_block (as_read n b) n now)) eqn:Hb; [|done]. exfalso.
  apply verify_block_decides in Hb as [Hh _ _ _ _ _]. pose proof (vh_version _ _ _ Hh) as H. cbn in H. rewrite Hv in H.
  destruct H as (_ & s & Hs & _). discriminate Hs.
Qed.

(** A frame is read back: its type, its id, the path of the request and the payload, and the status the server
    wrote into it. *)
Theorem frame_roundtrip type_ mid status path payload
    (Ht : in_u8 type_) (Hi : in_u32 mid) (Hs : in_u16 status) (Hp : utf8_str path) (Hl : slen path <= u8_max) :
  decode_frame (encode_frame type_ mid path payload) = Ok (mkNes type_ mid 200 path payload) /\
  decode_frame (reply_frame type_ mid status payload) = Ok (mkNes type_ mid status EmptyString payload).
Proof.
  assert (H : forall st p, in_u16 st -> utf8_str p -> slen p <= u8_max ->
    decode_frame ([byte_of_Z NES_VERSION; byte_of_Z type_] ++ be_bytes 4 mid ++ be_bytes 2 st ++ [byte_of_Z (slen p); x00]
      ++ be_bytes 2 0 ++ be_bytes 2 0 ++ bytes_of p ++ payload) = Ok (mkNes type_ mid st p payload)).
  { clear Hs Hp Hl. intros st p Hs Hp Hl. unfold decode_frame, HEADER_LEN.
    assert (H4 : length (be_bytes 4 mid) = 4%nat) by apply be_bytes_length. assert (H2 : length (be_bytes 2 st) = 2%nat) by apply be_bytes_length.
    assert (Hid : be_value (be_bytes 4 mid) = mid) by (rewrite be_value_bytes; apply Z.mod_small; bounds; lia).
    assert (Hst : be_value (be_bytes 2 st) = st) by (rewrite be_value_bytes; apply Z.mod_small; bounds; lia).
    revert H4 H2 Hid Hst. generalize (be_bytes 4 mid) (be_bytes 2 st). intros i4 s2 H4 H2 Hid Hst.
    destruct i4 as [|i0 [|i1 [|i2 [|i3 [|]]]]], s2 as [|s0 [|s1 [|]]]; try discriminate H4; try discriminate H2.
    change (be_bytes 2 0) with [x00; x00]. cbn [app]. unfold byte_at. cbn [lookup list_lookup fmap option_fmap option_map default id].
    rewrite !Z_of_byte_of_Z. change (Z.to_nat (Z_of_byte x00)) with 0%nat.
    assert (Hn : Z.to_nat (slen p mod 256) = length (bytes_of p)).
    { rewrite length_bytes_of. unfold slen in *. rewrite Z.mod_small by (bounds; lia). lia. }
    rewrite Hn. cbn [length]. rewrite length_app. rewrite !(proj2 (Nat.ltb_ge _ _)) by lia.
    rewrite Nat.add_0_r. cbn [take drop Nat.add]. rewrite Hid, Hst, drop_0, take_app_length, drop_app_length.
    rewrite utf8_str_lossy by done. do 2 f_equal. rewrite Z.mod_small by (bounds; lia). done. }
  split; [apply (H 200 path); [bounds; lia|done..]|].
  replace (reply_frame type_ mid status payload) with ([byte_of_Z NES_VERSION; byte_of_Z type_] ++ be_bytes 4 mid ++ be_bytes 2 status
    ++ [byte_of_Z (slen EmptyString); x00] ++ be_bytes 2 0 ++ be_bytes 2 0 ++ bytes_of EmptyString ++ payload).
  { apply (H status EmptyString); [done|by apply from_utf8_ascii|vm_compute; discriminate]. }
  unfold reply_frame, encode_frame. assert (H4 : length (be_bytes 4 mid) = 4%nat) by apply be_bytes_length.
  revert H4. generalize (be_bytes 4 mid). intros i4 H4. destruct i4 as [|i0 [|i1 [|i2 [|i3 [|]]]]]; try discriminate H4. done.
Qed.
End facts.

(** ** A concrete coding

    Texts are marked byte by byte, so that no length bounds them; integers are four bytes. *)

Module TestProto.
Definition put_text (s : string) : list byte := concat ((fun c => [x01; c]) <$> bytes_of s) ++ [x00].
Fixpoint get_text (b : list byte) : option (list byte * list byte) :=
  match b with
  | x00 :: b => Some ([], b)
  | x01 :: c :: b => match get_text b with Some (l, b) => Some (c :: l, b) | None => None end
  | _ => None
  end.
Definition put_int (k : Z) : list byte := le_bytes 4 k.
Definition get_int (b : list byte) : option (Z * list byte) :=
  if (length b <? 4)%nat then None else Some (le_value (take 4 b), drop 4 b).

Definition encode (h : HeaderProto) : list byte :=
  put_text h.(hp_id) ++ put_int h.(hp_version) ++ put_int h.(hp_timestamp) ++ put_text h.(hp_previous_block) ++ put_int h.(hp_height)
  ++ put_int h.(hp_number_of_transactions) ++ put_text h.(hp_total_amount) ++ put_text h.(hp_total_fee) ++ put_text h.(hp_reward)
  ++ put_int h.(hp_payload_length) ++ put_text h.(hp_payload_hash) ++ put_text h.(hp_generator_public_key)
  ++ put_text h.(hp_block_signature) ++ h.(hp_transactions).

Notation "'let!' p := m 'in' k" := (match m with Some p => k | None => None end) (at level 10, p pattern, m at level 100, k at level 200).
Definition decode (b : list byte) : option HeaderProto :=
  let! (id, b) := get_text b in let! (version, b) := get_int b in let! (timestamp, b) := get_int b in
  let! (previous, b) := get_text b in let! (height, b) := get_int b in let! (count, b) := get_int b in
  let! (amount, b) := get_text b in let! (fee, b) := get_text b in let! (reward, b) := get_text b in
  let! (len, b) := get_int b in let! (hash, b) := get_text b in let! (generator, b) := get_text b in
  let! (signature, b) := get_text b in
  Some (mkHeader (str_of id) version timestamp (str_of previous) height count (str_of amount) (str_of fee) (str_of reward)
    len (str_of hash) (str_of generator) (str_of signature) b).

Lemma get_put_text s b : get_text (put_text s ++ b) = Some (bytes_of s, b).
Proof. unfold put_text. induction (bytes_of s) as [|c l IH]; [done|]. cbn. cbn in IH. by rewrite IH. Qed.

Lemma get_put_int k b : in_u32 k -> get_int (put_int k ++ b) = Some (k, b).
Proof.
  intros Hk. unfold get_int, put_int. rewrite length_app, le_bytes_length. cbn [Nat.ltb Nat.leb Nat.add].
  rewrite take_app_length', drop_app_length' by (by rewrite le_bytes_length). rewrite le_value_bytes, Z.mod_small by (bounds; lia). done.
Qed.

#[local] Instance proto : Proto := {| header_encode := encode; header_decode b := ok_or (decode b) "malformed"%string |}.

Lemma proto_laws `{E : Env} : ProtoLaws proto.
Proof.
  split. intros h [_ Hr]. cbn [header_encode header_decode proto]. rewrite !Forall_cons in Hr. destruct Hr as (R1 & R2 & R3 & R4 & R5 & _).
  unfold decode, encode. rewrite <- ?app_assoc.
  repeat (rewrite get_put_text || (rewrite get_put_int by done)). rewrite !str_of_bytes_of. by destruct h.
Qed.
End TestProto.

#[local] Existing Instance TestEnv.env.
#[local] Existing Instance TestEnv.laws.
#[local] Existing Instance TestProto.proto.
#[local] Existing Instance TestProto.proto_laws.

Definition served_block : Block := b_set_id (Some demo_hash) demo_block.

Lemma demo_served : wire_served demo_network served_block.
Proof.
  destruct demo_push_wire as [_ _ Ht Hf _ _]. split; [| | | | | |].
  - eexists. split; [reflexivity|]. vm_compute. reflexivity.
  - repeat constructor; vm_compute; reflexivity.
  - intros s [= <-]. split; [done|vm_compute; reflexivity].
  - repeat constructor; vm_compute; discriminate.
  - repeat constructor; vm_compute; discriminate.
  - split; [done|vm_compute; discriminate].
  - assert (Hb : match rmapM (tx_bytes demo_network) (b_transactions served_block) with
                 | Ok bodies => (Z.of_nat (length (header_encode (header_of served_block (concat (be_frame <$> bodies))))) <=? u32_max)
                 | Err _ => true
                 end = true) by (vm_compute; reflexivity).
    intros bodies H. split; [by apply Hf|]. rewrite H in Hb. by apply Z.leb_le in Hb.
Qed.

Definition served_next : Block :=
  mkBlock (Some demo_hash) 0 95101464 demo_hash 13 0 0 0 0 0 demo_hash demo_key None None [].
Lemma demo_served_next : wire_served demo_network served_next.
Proof.
  split; [| | | | | |].
  - eexists. split; [reflexivity|]. vm_compute. reflexivity.
  - repeat constructor; vm_compute; reflexivity.
  - discriminate.
  - repeat constructor; vm_compute; discriminate.
  - repeat constructor; vm_compute; discriminate.
  - split; [constructor|vm_compute; discriminate].
  - intros bodies H. apply Ok_inj in H as <-. split; [constructor|]. vm_compute. discriminate.
Qed.

Lemma served_blocks_read_witness :
  exists m, blocks_message demo_network false [served_block; served_next] = Ok m /\
    decode_blocks m = Ok [as_read demo_network served_block; served_next].
Proof.
  assert (Hs : StronglySorted (fun x y => x.(b_height) < y.(b_height)) [served_block; served_next]) by (repeat constructor).
  exact (served_blocks_read demo_network [served_block; served_next]
    (Forall_cons_2 _ _ _ demo_served (Forall_cons_2 _ _ _ demo_served_next (Forall_nil_2 _))) Hs).
Defined.

Lemma hybrid_block_not_served_witness :
  exists raw b', block_message demo_network false served_block = Ok (be_frame raw) /\ read_block raw = Ok b' /\
    b'.(b_version) = BLOCK_VERSION_PQ /\ (verify_block b' demo_network 95101456).(bv_verified) = false.
Proof. exact (hybrid_block_not_served demo_network served_block 95101456 demo_served eq_refl). Defined.

Lemma frame_roundtrip_witness :
  decode_frame (reply_frame TYPE_REQUEST 7 400 [x61; x62]) = Ok (mkNes TYPE_REQUEST 7 400 EmptyString [x61; x62]).
Proof.
  refine (proj2 (frame_roundtrip TYPE_REQUEST 7 400 "p2p.peer.getStatus" [x61; x62] _ _ _ _ _)); [bounds; unfold TYPE_REQUEST; lia|bounds; lia|bounds; lia| |].
  - vm_compute. reflexivity.
  - vm_compute. discriminate.
Defined.
