(* ===== verification/CatchUp.v ===== *)
(** * Catching up with the network

    [src/src/p2p_legacy/follow.rs]: the ranges the download workers take, and the loop that applies what
    they fetch strictly in the order of heights, rolls back on a fork and puts failed ranges back.

    The workers and the loop share the scheduler under a mutex, and the workers answer through a channel:
    an execution is a sequence of [Event]s, one for each time one of them holds the mutex or takes from
    the channel.  What a peer answers, the clocks and the probes of the peer table are part of the event.
    The store can be changed by the other intake paths at any time ([OtherPath]).  Progress display and
    log lines are not modelled; the sleeps only space the events.  A range starts below the target and
    inside the window behind the tip, so [f + 1], [f + 400] and the end of the window stay within [u64]
    and are written without the wrap-around. *)

From S2P Require Import Prelude Models Env Bytes Crypto Config TxCodec BlockCodec BlockVerify Wallet Rules Round Tree Storage Chain Sync.
From S2P Require Import NodePool PeerHealth IrohPeers.

Definition MIN_ROUND : Z := from_millis 1500.
Definition LAG_BLOCKS : Z := 2.

(** Whether the followed peer is behind the network for longer than a slot, and since when. *)
Definition lagging_peer (peer_height tip best_height blocktime now : Z) (lag_since : option Z) : bool * option Z :=
  if (tip <? peer_height) || (best_height <? as_u64 (tip + LAG_BLOCKS)) then (false, None) else
  let since := default now lag_since in
  (Z.max blocktime 1 <=? Z.max 0 (now - since) / from_secs 1, Some since).

Inductive BlockSource : Type := LegacyIp (ip : string) | IrohId (id : string).
#[export] Instance block_source_eq_dec : EqDecision BlockSource.
Proof. solve_decision. Defined.
#[export] Instance block_source_countable : Countable BlockSource.
Proof.
  refine (inj_countable' (fun s => match s with LegacyIp ip => inl ip | IrohId id => inr id end)
                         (fun s => match s with inl ip => LegacyIp ip | inr id => IrohId id end) _). by intros [].
Defined.

Definition Range : Type := Z * Z.

Record Scheduler : Type := mkSched {
  sc_next_from : Z; sc_target : Z; sc_window_end : Z; sc_retry : list Range; sc_busy : gset BlockSource; sc_last_request : gmap BlockSource Z
}.
Record Job : Type := mkJob { jb_range : Range; jb_limit : Z; jb_source : BlockSource }.
Record Fetched : Type := mkFetched { ft_range : Range; ft_source : BlockSource; ft_blocks : option (list Block) }.

(** [BTreeSet<(u64, u64)>::insert]: a sorted list without duplicates; [pop_first] takes the head. *)
Definition range_lt (a b : Range) : bool := (a.1 <? b.1) || ((a.1 =? b.1) && (a.2 <? b.2)).
Fixpoint set_insert (r : Range) (l : list Range) : list Range :=
  match l with
  | [] => [r]
  | x :: rest => if range_lt r x then r :: l else if decide (r = x) then l else x :: set_insert r rest
  end.

Definition set_retry (f : list Range -> list Range) (s : Scheduler) : Scheduler :=
  mkSched s.(sc_next_from) s.(sc_target) s.(sc_window_end) (f s.(sc_retry)) s.(sc_busy) s.(sc_last_request).

(** [s.retry.clear(); s.next_from = from]. *)
Definition restart_at (from : Z) (s : Scheduler) : Scheduler :=
  mkSched from s.(sc_target) s.(sc_window_end) [] s.(sc_busy) s.(sc_last_request).

Definition next_range (s : Scheduler) : option (Range * Scheduler) :=
  match s.(sc_retry) with
  | r :: rest => Some (r, set_retry (fun _ => rest) s)
  | [] =>
      if (s.(sc_next_from) <? s.(sc_target)) && (s.(sc_next_from) <? s.(sc_window_end)) then
        let to := Z.min (s.(sc_next_from) + MAX_BLOCKS_PER_REQUEST) s.(sc_target) in
        Some ((s.(sc_next_from), to), mkSched to s.(sc_target) s.(sc_window_end) [] s.(sc_busy) s.(sc_last_request))
      else None
  end.

Section catch_up.
Context `{E : Env} `{PO : PeerOrder}.
Variables (n : Network) (verify undo_enabled : bool) (parallel : Z).

(** Sources for a range that ends at [need_height]: iroh peers that have it, the fastest first, then the
    legacy peers with the best measured speed. *)
Definition latency_key (p : IrohPeerInfo) : Z := default u64_max p.(ip_latency_ms).
Definition latency_le (p q : IrohPeerInfo) : Prop := latency_key p <= latency_key q.
#[export] Instance latency_le_dec p q : Decision (latency_le p q).
Proof. unfold latency_le. apply _. Defined.
Definition candidate_sources (now : Z) (table : PeerTable) (iroh : option IrohPeers) (need_height : Z) : list BlockSource :=
  (match iroh with
   | Some m => IrohId ∘ ip_id <$> sort_by latency_le
       (List.filter (fun p => (need_height <=? p.(ip_height)) && (p.(ip_failures) <? 3)) (iroh_snapshot m))
   | None => []
   end) ++ (LegacyIp <$> best_for_blocks now 8 table).

Definition idle (now : Z) (s : Scheduler) (src : BlockSource) : bool :=
  negb (bool_decide (src ∈ s.(sc_busy))) &&
  match src with
  | IrohId _ => true
  | LegacyIp _ => match s.(sc_last_request) !! src with Some t => MIN_ROUND <=? Z.max 0 (now - t) | None => true end
  end.

(** What a worker does while it holds the mutex: take a range and a source, or put the range back. *)
Definition take_job (now : Z) (table : PeerTable) (iroh : option IrohPeers) (s : Scheduler) : Scheduler * option Job :=
  match next_range s with
  | None => (s, None)
  | Some ((from, to), s) =>
      match List.find (idle now s) (candidate_sources now table iroh to) with
      | None => (set_retry (set_insert (from, to)) s, None)
      | Some src =>
          let cap := match src with LegacyIp ip => blocks_limit ip table | IrohId _ => MAX_BLOCKS_PER_REQUEST end in
          (mkSched s.(sc_next_from) s.(sc_target) s.(sc_window_end) s.(sc_retry) ({[src]} ∪ s.(sc_busy)) (<[src := now]> s.(sc_last_request)),
           Some (mkJob (from, to) (as_u32 (Z.min (to - from) cap)) src))
      end
  end.

Definition job_done (now : Z) (src : BlockSource) (s : Scheduler) : Scheduler :=
  mkSched s.(sc_next_from) s.(sc_target) s.(sc_window_end) s.(sc_retry) (s.(sc_busy) ∖ {[src]}) (<[src := now]> s.(sc_last_request)).

(** ** The loop *)

Record CatchUp : Type := mkCatchUp {
  cu_store : Store; cu_table : PeerTable; cu_iroh : option IrohPeers; cu_sched : Scheduler; cu_tip : ChainTip;
  cu_pending : gmap Z (BlockSource * list Block); cu_supplier : gmap Z BlockSource;
  cu_fork_depth : Z; cu_last_fork_height : Z; cu_failures : Z; cu_applied : Z;
  cu_jobs : list Job; cu_channel : list Fetched
}.
Implicit Types (c : CatchUp).

Definition on_sched (f : Scheduler -> Scheduler) c : CatchUp :=
  mkCatchUp c.(cu_store) c.(cu_table) c.(cu_iroh) (f c.(cu_sched)) c.(cu_tip) c.(cu_pending) c.(cu_supplier) c.(cu_fork_depth)
    c.(cu_last_fork_height) c.(cu_failures) c.(cu_applied) c.(cu_jobs) c.(cu_channel).
Definition on_pending (f : gmap Z (BlockSource * list Block) -> gmap Z (BlockSource * list Block)) c : CatchUp :=
  mkCatchUp c.(cu_store) c.(cu_table) c.(cu_iroh) c.(cu_sched) c.(cu_tip) (f c.(cu_pending)) c.(cu_supplier) c.(cu_fork_depth)
    c.(cu_last_fork_height) c.(cu_failures) c.(cu_applied) c.(cu_jobs) c.(cu_channel).
Definition at_tip (s : Store) (tip : ChainTip) c : CatchUp :=
  mkCatchUp s c.(cu_table) c.(cu_iroh) c.(cu_sched) tip c.(cu_pending) c.(cu_supplier) c.(cu_fork_depth)
    c.(cu_last_fork_height) c.(cu_failures) c.(cu_applied) c.(cu_jobs) c.(cu_channel).
Definition set_failing (k : Z) c : CatchUp :=
  mkCatchUp c.(cu_store) c.(cu_table) c.(cu_iroh) c.(cu_sched) c.(cu_tip) c.(cu_pending) c.(cu_supplier) c.(cu_fork_depth)
    c.(cu_last_fork_height) k c.(cu_applied) c.(cu_jobs) c.(cu_channel).
Definition set_peers (table : PeerTable) (iroh : option IrohPeers) c : CatchUp :=
  mkCatchUp c.(cu_store) table iroh c.(cu_sched) c.(cu_tip) c.(cu_pending) c.(cu_supplier) c.(cu_fork_depth)
    c.(cu_last_fork_height) c.(cu_failures) c.(cu_applied) c.(cu_jobs) c.(cu_channel).
Definition set_fork (depth last : Z) c : CatchUp :=
  mkCatchUp c.(cu_store) c.(cu_table) c.(cu_iroh) c.(cu_sched) c.(cu_tip) c.(cu_pending) c.(cu_supplier) depth
    last c.(cu_failures) c.(cu_applied) c.(cu_jobs) c.(cu_channel).
Definition set_traffic (jobs : list Job) (channel : list Fetched) c : CatchUp :=
  mkCatchUp c.(cu_store) c.(cu_table) c.(cu_iroh) c.(cu_sched) c.(cu_tip) c.(cu_pending) c.(cu_supplier) c.(cu_fork_depth)
    c.(cu_last_fork_height) c.(cu_failures) c.(cu_applied) jobs channel.

Definition tip_of (s : Store) : Res ChainTip :=
  let? b := get_last_block n s in
  Ok (match b with Some b => mkTip b.(b_height) b.(b_id) | None => mkTip 0 None end).

Definition punish (now : Z) (src : BlockSource) c : CatchUp :=
  match src with
  | LegacyIp ip => set_peers (record_blocks_failure now ip c.(cu_table)) c.(cu_iroh) c
  | IrohId id => set_peers c.(cu_table) (iroh_record_rpc now id None None <$> c.(cu_iroh)) c
  end.

Definition window : Z := Z.max parallel 1 * 3 * MAX_BLOCKS_PER_REQUEST.
Definition best_known (now : Z) c : Z :=
  Z.max (best_height now c.(cu_table)) (match c.(cu_iroh) with Some m => iroh_best_height m | None => 0 end).

Definition forked (tip : ChainTip) (blocks : list Block) : bool :=
  match blocks with
  | b :: _ => (b.(b_height) =? as_u64 (tip.(tip_height) + 1)) && opt_test (fun id => negb (String.eqb b.(b_previous_block) id)) tip.(tip_id)
  | [] => false
  end.

(** How the range at the tip was settled. *)
Inductive Outcome : Type := Applied | Forked | Stale | Rejected | Stopped (e : Error).

(** The clocks of one application: monotonic, network seconds, unix milliseconds. *)
Record Clocks : Type := mkClocks { ck_now : Z; ck_epoch : Z; ck_unix_ms : Z }.

Definition settle_fork (ck : Clocks) (source : BlockSource) c : CatchUp * Outcome :=
  let tip := c.(cu_tip).(tip_height) in
  let target := Z.max (sat_sub tip c.(cu_fork_depth)) 1 in
  let c := match c.(cu_supplier) !! tip with
           | Some bad => if negb (bool_decide (bad = source)) then punish ck.(ck_now) bad c else c
           | None => c
           end in
  let s := (rollback_to n c.(cu_store) target).1 in
  let c := set_fork (Z.min (as_u64 (c.(cu_fork_depth) * 3)) UNDO_DEPTH) tip c in
  match tip_of s with
  | Err e => (at_tip s c.(cu_tip) c, Stopped e)
  | Ok tip => (on_sched (restart_at tip.(tip_height)) (on_pending (fun _ => ∅) (at_tip s tip c)), Forked)
  end.

Definition settle_applied (source : BlockSource) (new_tip : ChainTip) (s : Store) c : CatchUp :=
  let old := c.(cu_tip).(tip_height) in
  let new := new_tip.(tip_height) in
  let supplier := foldl (fun m h => <[h := source]> m) c.(cu_supplier) (seqZ (old + 1) (new - old)) in
  mkCatchUp s c.(cu_table) c.(cu_iroh) c.(cu_sched) new_tip c.(cu_pending)
    (filter (fun x => new < x.1 + 2 * UNDO_DEPTH) supplier)
    (if as_u64 (c.(cu_last_fork_height) + 10) <? new then 1 else c.(cu_fork_depth)) c.(cu_last_fork_height) 0
    (as_u64 (c.(cu_applied) + (new - old))) c.(cu_jobs) c.(cu_channel).

(** The range fetched for the tip, if there is one, is settled. *)
Definition settle (ck : Clocks) c : option (CatchUp * Outcome) :=
  let from := c.(cu_tip).(tip_height) in
  match c.(cu_pending) !! from with
  | None => None
  | Some (source, blocks) =>
      let c := on_pending (delete from) c in
      Some (
      if forked c.(cu_tip) blocks then settle_fork ck source c
      else
        match sync_apply_blocks n c.(cu_store) verify undo_enabled ck.(ck_epoch) ck.(ck_unix_ms) blocks c.(cu_tip) with
        | (s, _, Some tip) => (settle_applied source tip s c, Applied)
        | (s, ex, None) =>
            match ex with
            | Failed (EStaleTip _) =>
                match tip_of s with
                | Err e => (at_tip s c.(cu_tip) c, Stopped e)
                | Ok tip => (on_pending (filter (fun x => tip.(tip_height) <= x.1)) (at_tip s tip c), Stale)
                end
            | _ => (on_sched (restart_at from) (on_pending (fun _ => ∅) (punish ck.(ck_now) source (at_tip s c.(cu_tip) c))), Rejected)
            end
        end)
  end.

(** The [while let] loop: a turn takes an entry of [pending] away and none puts one in. *)
Fixpoint drain (fuel : nat) (ck : Clocks) c : CatchUp * list Outcome :=
  match fuel with
  | O => (c, [])
  | S fuel =>
      match settle ck c with
      | None => (c, [])
      | Some (c, Stopped e) => (c, [Stopped e])
      | Some (c, o) => let '(c, os) := drain fuel ck c in (c, o :: os)
      end
  end.

(** After the ranges at the tip: the target follows the network, the window the tip. *)
Definition retarget (now : Z) c : CatchUp :=
  on_sched (fun s => mkSched s.(sc_next_from) (Z.max s.(sc_target) (best_known now c)) (c.(cu_tip).(tip_height) + window)
                       s.(sc_retry) s.(sc_busy) s.(sc_last_request)) c.
Definition finished c : bool := c.(cu_sched).(sc_target) <=? c.(cu_tip).(tip_height).

(** An answer is taken from the channel; [probes] is what a refresh of the peer table hears, if one is due. *)
Definition receive (probes : list (Z * string * option Probe)) (f : Fetched) c : CatchUp :=
  let '(from, to) := f.(ft_range) in
  let tip := c.(cu_tip).(tip_height) in
  let failed :=
    let c := set_failing (as_u32 (c.(cu_failures) + 1)) c in
    let c := if tip <=? from then on_sched (set_retry (set_insert (from, to))) c else c in
    if as_u32 (Z.max parallel 1 * 3) <=? c.(cu_failures)
    then set_failing 0 (set_peers (PeerHealth.refresh probes c.(cu_table)).1 c.(cu_iroh) c) else c in
  match f.(ft_blocks) with
  | Some ((b :: _) as blocks) =>
      if b.(b_height) =? from + 1 then
        let c := set_failing 0 c in
        let last := (List.last blocks b).(b_height) in
        let c := if tip <=? from then on_pending (insert from (f.(ft_source), blocks)) c else c in
        if (last <? to) && (tip <=? last) then on_sched (set_retry (set_insert (last, to))) c else c
      else failed
  | _ => failed
  end.

(** [fetch_range], [fetch_range_iroh]: what the request leaves in the tables.  [Err true] is a request that
    failed, [Err false] an answer of another kind, which only an iroh peer can give. *)
Definition fetch_range (now latency : Z) (src : BlockSource) (reply : result (list Block) bool) c : CatchUp * option (list Block) :=
  match src, reply with
  | LegacyIp ip, Ok ((b :: _) as blocks) =>
      (set_peers (record_blocks_success now ip latency (Z.of_nat (length blocks)) (Some (List.last blocks b).(b_height)) c.(cu_table)) c.(cu_iroh) c,
       Some blocks)
  | LegacyIp ip, _ => (set_peers (record_blocks_failure now ip c.(cu_table)) c.(cu_iroh) c, None)
  | IrohId id, Ok blocks =>
      (set_peers c.(cu_table) (iroh_record_rpc now id (Some (as_u64 (as_millis latency))) (b_height <$> List.nth_error blocks (length blocks - 1))
         <$> c.(cu_iroh)) c, Some blocks)
  | IrohId id, Err true => (set_peers c.(cu_table) (iroh_record_rpc now id None None <$> c.(cu_iroh)) c, None)
  | IrohId _, Err false => (c, None)
  end.

Inductive Event : Type :=
| Worker (now : Z)                                        (* a worker asks for a range *)
| Answer (k : nat) (now latency : Z) (reply : result (list Block) bool) (* the [k]-th request ends *)
| Turn (ck : Clocks) (probes : list (Z * string * option Probe)) (* the loop takes an answer, then settles *)
| OtherPath (s : Store)                                   (* another intake path changes the store *)
| Peers (table : PeerTable) (iroh : option IrohPeers).    (* the tables change in the background *)

Definition step c (e : Event) : CatchUp * list Outcome :=
  match e with
  | Worker now =>
      let '(s, job) := take_job now c.(cu_table) c.(cu_iroh) c.(cu_sched) in
      (set_traffic (c.(cu_jobs) ++ option_list job) c.(cu_channel) (on_sched (fun _ => s) c), [])
  | Answer k now latency reply =>
      match c.(cu_jobs) !! k with
      | None => (c, [])
      | Some job =>
          let '(c, blocks) := fetch_range now latency job.(jb_source) reply c in
          (set_traffic (delete k c.(cu_jobs)) (c.(cu_channel) ++ [mkFetched job.(jb_range) job.(jb_source) blocks])
             (on_sched (job_done now job.(jb_source)) c), [])
      end
  | Turn ck probes =>
      if finished c then (c, []) else
      match c.(cu_channel) with
      | [] => (c, [])
      | f :: rest =>
          let c := receive probes f (set_traffic c.(cu_jobs) rest c) in
          let '(c, os) := drain (S (size c.(cu_pending))) ck c in
          (retarget ck.(ck_now) c, os)
      end
  | OtherPath s => (at_tip s c.(cu_tip) c, [])
  | Peers table iroh => (set_peers table iroh c, [])
  end.

(** An error the loop does not handle ends it. *)
Definition is_stopped (o : Outcome) : bool := match o with Stopped _ => true | _ => false end.
Fixpoint run c (es : list Event) : CatchUp * list Outcome :=
  match es with
  | [] => (c, [])
  | e :: es =>
      let '(c, os) := step c e in
      if existsb is_stopped os then (c, os) else let '(c, os') := run c es in (c, os ++ os')
  end.

(** The state the loop starts in. *)
Definition start (s : Store) (table : PeerTable) (iroh : option IrohPeers) (now : Z) (tip : ChainTip) : CatchUp :=
  let h := tip.(tip_height) in
  retarget now (mkCatchUp s table iroh (mkSched h (Z.max (best_height now table) (match iroh with Some m => iroh_best_height m | None => 0 end))
                    (h + window) [] ∅ ∅) tip ∅ ∅ 1 0 0 0 [] []).
End catch_up.
