(* ===== verification/CatchUpFacts.v ===== *)
(** * The ranges of the catch-up

    While nothing else moves the tip, the range the tip waits for is always queued, requested, answered or
    next to be taken; once it is lost, it is lost for good. *)

From S2P Require Import Prelude Models Env Bytes Crypto Config TxCodec BlockCodec Wallet Rules Tree Storage Chain Sync.
From S2P Require Import NodePool PeerHealth IrohPeers CatchUp.

(** ** Chains of ranges *)

Fixpoint chain (a : Z) (l : list Range) (b : Z) : Prop :=
  match l with
  | [] => a = b
  | (x, y) :: l => x = a /\ x < y /\ chain y l b
  end.

Lemma chain_le l : forall a b, chain a l b -> a <= b.
Proof. induction l as [|[x y] l IH]; intros a b; cbn; [lia|]. intros (-> & Hl & H). apply IH in H. lia. Qed.

Lemma chain_app l1 l2 : forall a b, chain a (l1 ++ l2) b <-> exists m, chain a l1 m /\ chain m l2 b.
Proof.
  induction l1 as [|[x y] l1 IH]; intros a b; cbn; [split; [by exists a|by intros (m & <- & ?)]|].
  rewrite IH. split; [intros (-> & ? & m & ? & ?); by exists m|intros (m & (-> & ? & ?) & ?); eauto].
Qed.

Lemma chain_bounds l : forall a b x y, chain a l b -> (x, y) ∈ l -> a <= x < y /\ y <= b.
Proof.
  induction l as [|[u v] l IH]; intros a b x y; cbn; [intros _ H; by apply elem_of_nil in H|]. intros (-> & Hl & H) [[= -> ->]|Hin]%elem_of_cons.
  - apply chain_le in H. lia.
  - specialize (IH _ _ _ _ H Hin). lia.
Qed.

Lemma chain_NoDup l : forall a b, chain a l b -> NoDup (fst <$> l).
Proof.
  induction l as [|[x y] l IH]; intros a b; cbn; [constructor|]. intros (-> & Hl & H). constructor; [|by eapply IH].
  intros ([u v] & Hu & Hin)%list_elem_of_fmap. cbn in Hu. pose proof (chain_bounds _ _ _ _ _ H Hin). lia.
Qed.

Lemma chain_first l a b : chain a l b -> a < b -> exists y, (a, y) ∈ l.
Proof. destruct l as [|[x y] l]; cbn; [lia|]. intros (-> & _) _. exists y. by left. Qed.

(** Taking the first range off moves the start; a range may be cut in two. *)
Lemma chain_take l l' a b y : chain a l b -> l ≡ₚ (a, y) :: l' -> exists l2, chain y l2 b /\ l2 ≡ₚ l'.
Proof.
  destruct l as [|[x z] l]; cbn; [by intros _ H%Permutation_nil_cons|]. intros (-> & Hl & H) Hp. exists l.
  assert (Hin : (a, y) ∈ (a, z) :: l) by (rewrite Hp; by left). apply elem_of_cons in Hin as [[= ->]|Hin]; [split; [done|]; by eapply Permutation_cons_inv|].
  pose proof (chain_bounds _ _ _ _ _ H Hin). lia.
Qed.

Lemma chain_cut l l' a b x y z : chain a l b -> l ≡ₚ (x, y) :: l' -> x < z < y -> exists l2, chain a l2 b /\ l2 ≡ₚ (x, z) :: (z, y) :: l'.
Proof.
  intros H Hp Hz. assert (Hin : (x, y) ∈ l) by (rewrite Hp; by left). apply list_elem_of_split in Hin as (l1 & l2 & ->).
  apply chain_app in H as (m & H1 & -> & Hl & H2). exists (l1 ++ (m, z) :: (z, y) :: l2). split.
  - apply chain_app. exists m. split; [done|]. cbn. split_and!; try done; lia.
  - rewrite <- !Permutation_middle. do 2 constructor. eapply (Permutation_cons_inv (a := (m, y))). by rewrite <- Hp, <- Permutation_middle.
Qed.

Lemma set_insert_perm r l : r ∉ l -> set_insert r l ≡ₚ r :: l.
Proof.
  induction l as [|x l IH]; cbn; [done|]. intros H. apply not_elem_of_cons in H as [Hn H]. destruct (range_lt r x); [done|].
  destruct (decide (r = x)); [done|]. rewrite IH by done. constructor.
Qed.

Section catch_up.
Context `{E : Env} `{PO : PeerOrder}.
Variables (n : Network) (verify undo_enabled : bool) (parallel : Z).
Implicit Types (c : CatchUp) (s : Scheduler).

#[local] Abbreviation step := (step n verify undo_enabled parallel).
#[local] Abbreviation run := (run n verify undo_enabled parallel).
#[local] Abbreviation settle := (settle n verify undo_enabled).
#[local] Abbreviation drain := (drain n verify undo_enabled).

(** ** What is outstanding *)

Definition last_height (blocks : list Block) : Z := match blocks with b :: _ => (List.last blocks b).(b_height) | [] => 0 end.
Definition pending_range (x : Z * (BlockSource * list Block)) : Range := (x.1, last_height x.2.2).
Definition pending_ranges c : list Range := pending_range <$> map_to_list c.(cu_pending).
Definition awaited c : list Range := c.(cu_sched).(sc_retry) ++ (jb_range <$> c.(cu_jobs)) ++ (ft_range <$> c.(cu_channel)).
Definition outstanding c : list Range := awaited c ++ pending_ranges c.

(** The outstanding ranges lead from the tip to the next range, each once. *)
Definition tiled c : Prop := exists l, chain c.(cu_tip).(tip_height) l c.(cu_sched).(sc_next_from) /\ l ≡ₚ outstanding c.

(** A peer answers with blocks inside the range it was asked for. *)
Definition honest (r : Range) (blocks : list Block) : Prop :=
  match blocks with b :: _ => b.(b_height) = r.1 + 1 -> r.1 < last_height blocks <= r.2 | [] => True end.
Definition answered_honestly c : Prop := Forall (fun f => match f.(ft_blocks) with Some bs => honest f.(ft_range) bs | None => True end) c.(cu_channel).

Record in_order c : Prop := {
  io_tiled : tiled c;
  io_honest : answered_honestly c;
  io_target : c.(cu_sched).(sc_next_from) <= c.(cu_sched).(sc_target);
  io_window : c.(cu_sched).(sc_window_end) = c.(cu_tip).(tip_height) + window parallel
}.

Lemma window_pos : 0 < window parallel.
Proof. unfold window, MAX_BLOCKS_PER_REQUEST. lia. Qed.

(** Nothing that changes peers, requests of sources or counters matters here. *)
Lemma in_order_ext c c' : awaited c' ≡ₚ awaited c -> c'.(cu_pending) = c.(cu_pending) -> c'.(cu_tip) = c.(cu_tip) ->
  c'.(cu_sched).(sc_next_from) = c.(cu_sched).(sc_next_from) -> c'.(cu_sched).(sc_target) = c.(cu_sched).(sc_target) ->
  c'.(cu_sched).(sc_window_end) = c.(cu_sched).(sc_window_end) -> answered_honestly c' -> in_order c -> in_order c'.
Proof.
  intros H1 H2 H3 H4 H5 H6 H7 [(l & Hc & Hl) _ Ht Hw]. split; [|done|by rewrite H4, H5|by rewrite H3, H6].
  exists l. rewrite H3, H4. split; [done|]. rewrite Hl. unfold outstanding, pending_ranges. by rewrite H1, H2.
Qed.

(** ** The workers *)

Lemma next_range_cases s r s' : next_range s = Some (r, s') ->
  (s.(sc_retry) = r :: s'.(sc_retry) /\ s'.(sc_next_from) = s.(sc_next_from) \/
   s.(sc_retry) = [] /\ s'.(sc_retry) = [] /\ r = (s.(sc_next_from), s'.(sc_next_from)) /\
   s.(sc_next_from) < s'.(sc_next_from) <= s.(sc_target)) /\
  s'.(sc_target) = s.(sc_target) /\ s'.(sc_window_end) = s.(sc_window_end).
Proof.
  unfold next_range. destruct (sc_retry s) as [|x rest] eqn:Hr; [|by intros [= <- <-]; cbn; auto].
  destruct (Z.ltb_spec (sc_next_from s) (sc_target s)); [|done]. destruct (_ <? _); [|done]. cbn. intros [= <- <-]. cbn.
  split; [|done]. right. split_and!; try done; unfold MAX_BLOCKS_PER_REQUEST in *; lia.
Qed.

Lemma awaited_NoDup c : tiled c -> NoDup (awaited c).
Proof.
  intros (l & Hc & Hl). apply chain_NoDup, (NoDup_fmap_1 _) in Hc. rewrite Hl in Hc. by apply NoDup_app in Hc as [? _].
Qed.

Lemma worker_in_order now c : in_order c -> in_order (step c (Worker now)).1.
Proof.
  intros H. pose proof H as [(l & Hc & Hl) Hh Ht Hw]. cbn. unfold take_job. destruct (next_range (cu_sched c)) as [[[from to] s']|] eqn:Hn.
  2:{ cbn. revert H. apply in_order_ext; try done. unfold awaited. cbn. by rewrite app_nil_r. }
  apply next_range_cases in Hn as [Hr [Ht' Hw']]. destruct Hr as [[Hr Hf]|(Hr & Hr' & [= -> ->] & Hf)].
  - destruct (List.find _ _) as [src|]; cbn; revert H; apply in_order_ext; try done.
    + unfold awaited. cbn. rewrite fmap_app, Hr. cbn. rewrite <- app_assoc. cbn. by rewrite <- !Permutation_middle.
    + unfold awaited. cbn. rewrite app_nil_r, Hr. pose proof (awaited_NoDup c (ex_intro _ l (conj Hc Hl))) as Hd. unfold awaited in Hd. rewrite Hr in Hd. cbn in Hd.
      apply NoDup_cons in Hd as [Hd _]. rewrite set_insert_perm; [done|]. intros Hi. apply Hd, elem_of_app. by left.
  - assert (Ho : exists l', chain (tip_height (cu_tip c)) l' (sc_next_from s') /\ l' ≡ₚ (sc_next_from (cu_sched c), sc_next_from s') :: outstanding c).
    { exists (l ++ [(sc_next_from (cu_sched c), sc_next_from s')]). split; [|by rewrite <- Permutation_cons_append, Hl].
      apply chain_app. exists (sc_next_from (cu_sched c)). split; [done|]. cbn. split_and!; [done|lia|done]. }
    destruct Ho as (l' & Hc' & Hl'). destruct (List.find _ _) as [src|]; cbn; (split; cbn; [|done|lia|congruence]); exists l'; cbn; (split; [done|]); rewrite Hl';
      unfold outstanding, awaited, pending_ranges; cbn; rewrite Hr, Hr'; cbn.
    + rewrite fmap_app. cbn. rewrite <- !app_assoc. cbn. by rewrite <- !Permutation_middle.
    + by rewrite app_nil_r.
Qed.

Definition honest_reply c (e : Event) : Prop :=
  match e with
  | Answer k _ _ (Ok blocks) => forall job, c.(cu_jobs) !! k = Some job -> honest job.(jb_range) blocks
  | OtherPath _ => False
  | _ => True
  end.

Lemma fetch_range_same now latency src reply c : let '(c', _) := fetch_range now latency src reply c in
  c'.(cu_sched) = c.(cu_sched) /\ c'.(cu_jobs) = c.(cu_jobs) /\ c'.(cu_channel) = c.(cu_channel) /\ c'.(cu_pending) = c.(cu_pending) /\ c'.(cu_tip) = c.(cu_tip).
Proof. destruct src, reply as [[|b bs]|[]]; done. Qed.

Lemma fetch_range_blocks now latency src reply c blocks : (fetch_range now latency src reply c).2 = Some blocks -> reply = Ok blocks.
Proof. by destruct src, reply as [[|b bs]|[]]; cbn; intros [= <-]. Qed.

Lemma jobs_perm (jobs : list Job) k job : jobs !! k = Some job -> jb_range <$> jobs ≡ₚ jb_range job :: (jb_range <$> delete k jobs).
Proof. intros H. change (jb_range job :: (jb_range <$> delete k jobs)) with (jb_range <$> (job :: delete k jobs)). by rewrite <- delete_Permutation. Qed.

Lemma answer_in_order k now latency reply c : honest_reply c (Answer k now latency reply) -> in_order c ->
  in_order (step c (Answer k now latency reply)).1.
Proof.
  intros Hr H. cbn. destruct (cu_jobs c !! k) as [job|] eqn:Hj; [|done]. pose proof (fetch_range_same now latency (jb_source job) reply c) as Hs.
  pose proof (fetch_range_blocks now latency (jb_source job) reply c) as Hb. destruct (fetch_range _ _ _ _ _) as [c' blocks].
  destruct Hs as (H1 & H2 & H3 & H4 & H5). cbn. pose proof (io_honest _ H) as Hi. revert H. apply in_order_ext; cbn; try by rewrite ?H1.
  - unfold awaited. cbn. rewrite H1, H2, H3, fmap_app. cbn. apply Permutation_app_head. rewrite (jobs_perm _ _ _ Hj), app_assoc.
    by rewrite <- Permutation_cons_append.
  - unfold answered_honestly. cbn. rewrite H3. apply Forall_app. split; [exact Hi|]. constructor; [|constructor]. cbn.
    destruct blocks as [bs|]; [|done]. specialize (Hb bs eq_refl). subst reply. by apply Hr.
Qed.

(** ** The loop *)

(** With one range taken out of the outstanding ones. *)
Definition without (r : Range) c : Prop := exists l, chain c.(cu_tip).(tip_height) l c.(cu_sched).(sc_next_from) /\ l ≡ₚ r :: outstanding c.

Lemma pending_ranges_insert from src blocks c : c.(cu_pending) !! from = None ->
  pending_ranges (on_pending (insert from (src, blocks)) c) ≡ₚ (from, last_height blocks) :: pending_ranges c.
Proof. intros H. unfold pending_ranges. cbn. by rewrite map_to_list_insert. Qed.

Lemma pending_starts c from src blocks : c.(cu_pending) !! from = Some (src, blocks) -> (from, last_height blocks) ∈ pending_ranges c.
Proof. intros H. apply list_elem_of_fmap. exists (from, (src, blocks)). split; [done|]. by apply elem_of_map_to_list. Qed.

Lemma put_back from to c : without (from, to) c -> tiled (on_sched (set_retry (set_insert (from, to))) c).
Proof.
  intros (l & Hc & Hl). exists l. split; [done|]. rewrite Hl. unfold outstanding, awaited, pending_ranges. cbn.
  rewrite set_insert_perm; [done|]. intros Hi. apply chain_NoDup, (NoDup_fmap_1 _) in Hc. rewrite Hl in Hc. apply NoDup_cons in Hc as [Hc _].
  apply Hc. unfold outstanding, awaited. rewrite !elem_of_app. auto.
Qed.

(** A good answer: what came is pending, the rest of the range is queued again. *)
Lemma received_good from to src blocks c : without (from, to) c -> from < last_height blocks <= to ->
  let c1 := on_pending (insert from (src, blocks)) c in
  tiled (if last_height blocks <? to then on_sched (set_retry (set_insert (last_height blocks, to))) c1 else c1).
Proof.
  intros (l & Hc & Hl) Hlast c1.
  assert (Hn : c.(cu_pending) !! from = None).
  { destruct (cu_pending c !! from) as [[src' bs]|] eqn:Hp; [|done]. apply pending_starts in Hp. pose proof (chain_NoDup _ _ _ Hc) as Hd. rewrite Hl in Hd. cbn in Hd.
    apply NoDup_cons in Hd as [Hd _]. destruct Hd. apply list_elem_of_fmap. eexists. split; [|unfold outstanding; apply elem_of_app; by right]. done. }
  assert (Ho : outstanding c1 ≡ₚ (from, last_height blocks) :: outstanding c).
  { unfold outstanding at 1, c1. rewrite pending_ranges_insert by done. unfold outstanding, awaited. cbn. by rewrite <- !Permutation_middle. }
  destruct (Z.ltb_spec (last_height blocks) to).
  - apply put_back. destruct (chain_cut _ _ _ _ _ _ (last_height blocks) Hc Hl) as (l2 & Hc2 & Hl2); [lia|]. exists l2. split; [done|].
    rewrite Hl2, Ho. constructor.
  - exists l. split; [done|]. rewrite Hl, Ho. by replace to with (last_height blocks) by lia.
Qed.

Lemma receive_same probes f c : let c' := receive parallel probes f c in
  c'.(cu_tip) = c.(cu_tip) /\ c'.(cu_channel) = c.(cu_channel) /\ c'.(cu_jobs) = c.(cu_jobs) /\
  c'.(cu_sched).(sc_next_from) = c.(cu_sched).(sc_next_from) /\ c'.(cu_sched).(sc_target) = c.(cu_sched).(sc_target) /\
  c'.(cu_sched).(sc_window_end) = c.(cu_sched).(sc_window_end).
Proof.
  cbn. unfold receive. destruct (ft_range f) as [from to]. destruct (ft_blocks f) as [[|b bs]|];
    repeat (match goal with |- context [if ?b then _ else _] => destruct b end; cbn); done.
Qed.

Lemma receive_store probes f c : (receive parallel probes f c).(cu_store) = c.(cu_store).
Proof.
  unfold receive. destruct (ft_range f) as [from to]. destruct (ft_blocks f) as [[|b bs]|];
    repeat (match goal with |- context [if ?b then _ else _] => destruct b end; cbn); done.
Qed.

Lemma tiled_same c c' : c'.(cu_tip) = c.(cu_tip) -> c'.(cu_sched) = c.(cu_sched) -> c'.(cu_jobs) = c.(cu_jobs) -> c'.(cu_channel) = c.(cu_channel) ->
  c'.(cu_pending) = c.(cu_pending) -> tiled c -> tiled c'.
Proof.
  intros H1 H2 H3 H4 H5 (l & Hc & Hl). exists l. unfold outstanding, awaited, pending_ranges. by rewrite H1, H2, H3, H4, H5.
Qed.

Lemma receive_tiled probes f c : without f.(ft_range) c -> (match f.(ft_blocks) with Some bs => honest f.(ft_range) bs | None => True end) ->
  tiled (receive parallel probes f c).
Proof.
  intros Hw Hh. unfold receive. destruct (ft_range f) as [from to] eqn:Hf. cbn [ft_range] in Hw.
  assert (Hfrom : c.(cu_tip).(tip_height) <= from).
  { destruct Hw as (l & Hc & Hl). assert (Hin : (from, to) ∈ l) by (rewrite Hl; by left). pose proof (chain_bounds _ _ _ _ _ Hc Hin). lia. }
  match goal with |- tiled ?c' => set (failed := if as_u32 _ <=? _ then _ else _) end.
  assert (Hfail : tiled failed).
  { unfold failed. cbn [set_failing cu_tip]. destruct (Z.leb_spec (tip_height (cu_tip c)) from); [|lia].
    pose proof (put_back from to c Hw) as Hp. destruct (_ <=? _); (eapply tiled_same; [..|exact Hp]; done). }
  destruct (ft_blocks f) as [[|b bs]|]; [exact Hfail| |exact Hfail].
  destruct (Z.eqb_spec (b_height b) (from + 1)) as [Hb|]; [|exact Hfail]. unfold honest in Hh. cbn [fst snd] in Hh. specialize (Hh Hb).
  cbn [set_failing cu_tip on_pending]. destruct (Z.leb_spec (tip_height (cu_tip c)) from); [|lia].
  assert (Hw' : without (from, to) (set_failing 0 c)) by exact Hw.
  pose proof (received_good from to (ft_source f) (b :: bs) (set_failing 0 c) Hw' Hh) as Hr. cbv zeta in Hr. cbn [last_height fst snd] in Hr, Hh.
  destruct (Z.leb_spec (tip_height (cu_tip c)) (b_height (List.last (b :: bs) b))); [|lia]. rewrite andb_true_r. exact Hr.
Qed.

(** ** Settling what is at the tip *)

Lemma last_cons_default {A} (l : list A) : forall x d, List.last (x :: l) d = List.last l x.
Proof. induction l as [|y l IH]; intros x d; [done|]. change (List.last (x :: y :: l) d) with (List.last (y :: l) d). by rewrite !IH. Qed.

Lemma linked_height now_ms blocks : forall tip tip', rfold (link n now_ms) blocks tip = Ok tip' -> blocks <> [] -> tip'.(tip_height) = last_height blocks.
Proof.
  assert (Hl : forall tip b tip', link n now_ms tip b = Ok tip' -> tip'.(tip_height) = b.(b_height)).
  { intros tip b tip'. unfold link. destruct (negb _); [done|]. destruct (future_slot_ms _ _ _); [done|]. destruct (b_id b); cbn; [|done].
    destruct (tip_id tip); [|by intros [= <-]]. destruct (String.eqb _ _); [|done]. by intros [= <-]. }
  assert (Hg : forall blocks d tip tip', rfold (link n now_ms) blocks tip = Ok tip' -> tip.(tip_height) = d.(b_height) -> tip'.(tip_height) = (List.last blocks d).(b_height)).
  { intros bs. induction bs as [|b bs IH]; intros d tip tip' H Hd; cbn in H; [by injection H as <-|]. apply rbind_ok_inv in H as (t & Ht & H).
    pose proof (IH b t tip' H (Hl _ _ _ Ht)) as Hr. rewrite Hr. f_equal. symmetry. apply last_cons_default. }
  intros tip tip' H Hne. destruct blocks as [|b bs]; [done|]. cbn in H. apply rbind_ok_inv in H as (t & Ht & H). cbn [last_height].
  by rewrite (Hg bs b t tip' H (Hl _ _ _ Ht)), last_cons_default.
Qed.

Lemma applied_height (s : Store) epoch ms blocks tip (s' : Store) ex tip' : sync_apply_blocks n s verify undo_enabled epoch ms blocks tip = (s', ex, Some tip') ->
  blocks <> [] -> tip'.(tip_height) = last_height blocks.
Proof.
  unfold sync_apply_blocks. destruct (accept n s verify epoch ms blocks tip) as [t|e] eqn:Ha; [|done].
  destruct (apply_blocks _ _ _ _) as [s1 []]; intros [= _ _ ->] Hne. unfold accept in Ha. apply rbind_ok_inv in Ha as (t & Ht & Ha).
  apply rbind_ok_inv in Ha as (_ & _ & Ha). apply rbind_ok_inv in Ha as (_ & _ & Ha). apply Ok_inj in Ha as <-. by eapply linked_height.
Qed.

(** The answers that wait in the map are not empty. *)
Definition filled c : Prop := map_Forall (fun _ x => x.2 <> []) c.(cu_pending).

Lemma settle_tiled ck c c' : tiled c -> filled c -> settle ck c = Some (c', Applied) ->
  tiled c' /\ filled c' /\ c'.(cu_channel) = c.(cu_channel) /\ (size c'.(cu_pending) < size c.(cu_pending))%nat /\ c'.(cu_sched) = c.(cu_sched).
Proof.
  intros (l & Hc & Hl) Hne. unfold settle. destruct (cu_pending c !! _) as [[src blocks]|] eqn:Hp; [|done]. intros [= H].
  destruct (forked _ _); [unfold settle_fork in H; destruct (tip_of _ _); by injection H|].
  destruct (sync_apply_blocks _ _ _ _ _ _ _ _) as [[s ex] [tip|]] eqn:Ha.
  2:{ destruct ex as [|[]|]; try (by injection H). destruct (tip_of _ _); by injection H. }
  injection H as <-. assert (Hh : tip.(tip_height) = last_height blocks) by (eapply applied_height; [exact Ha|]; exact (Hne _ _ Hp)).
  assert (Hpr : pending_ranges c ≡ₚ (tip_height (cu_tip c), last_height blocks) :: (pending_range <$> map_to_list (delete (tip_height (cu_tip c)) (cu_pending c)))).
  { unfold pending_ranges. by rewrite <- (map_to_list_delete (cu_pending c) _ _ Hp). }
  unfold settle_applied. cbn. split_and!; try done.
  - assert (Hl' : l ≡ₚ (tip_height (cu_tip c), last_height blocks) :: (awaited c ++ (pending_range <$> map_to_list (delete (tip_height (cu_tip c)) (cu_pending c))))).
    { rewrite Hl. unfold outstanding. by rewrite Hpr, <- Permutation_middle. }
    destruct (chain_take _ _ _ _ _ Hc Hl') as (l2 & Hc2 & Hl2). exists l2. cbn. rewrite Hh. split; [done|]. by rewrite Hl2.
  - by apply map_Forall_delete.
  - rewrite map_size_delete, Hp. assert (size (cu_pending c) <> 0%nat); [|lia]. intros H0%map_size_empty_inv. by rewrite H0 in Hp.
Qed.

Lemma drain_tiled fuel ck : forall c, tiled c -> filled c -> (size c.(cu_pending) < fuel)%nat -> Forall (eq Applied) (drain fuel ck c).2 ->
  let c' := (drain fuel ck c).1 in
  tiled c' /\ filled c' /\ c'.(cu_channel) = c.(cu_channel) /\ c'.(cu_sched) = c.(cu_sched) /\ c'.(cu_pending) !! c'.(cu_tip).(tip_height) = None.
Proof.
  induction fuel as [|fuel IH]; intros c Ht Hf Hs Ho; [lia|]. cbn [drain] in *. fold drain in *. destruct (settle ck c) as [[c1 o]|] eqn:He.
  - assert (Hoa : o = Applied).
    { destruct o; [done|..]; cbn in Ho; try (destruct (drain fuel ck c1); cbn in Ho); by inversion Ho. }
    subst o. destruct (settle_tiled _ _ _ Ht Hf He) as (H1 & H2 & H3 & H4 & H5).
    destruct (drain fuel ck c1) as [c2 os] eqn:Hd. cbn in Ho |- *. inversion Ho; subst.
    specialize (IH c1 H1 H2 ltac:(lia)). rewrite Hd in IH. cbn in IH. destruct (IH ltac:(done)) as (J1 & J2 & J3 & J4 & J5).
    split_and!; try done; congruence.
  - cbn in *. split_and!; try done. unfold settle in He. destruct (cu_pending c !! tip_height (cu_tip c)) as [[]|]; [done|]. done.
Qed.

(** ** Any run *)

Record going c : Prop := {
  gg_order : in_order c;
  gg_filled : filled c;
  gg_drained : c.(cu_pending) !! c.(cu_tip).(tip_height) = None
}.

Lemma receive_pending probes f c : let c' := receive parallel probes f c in
  c'.(cu_pending) = c.(cu_pending) \/ exists b bs, f.(ft_blocks) = Some (b :: bs) /\ c'.(cu_pending) = <[f.(ft_range).1 := (f.(ft_source), b :: bs)]> c.(cu_pending).
Proof.
  cbn. unfold receive. destruct (ft_range f) as [from to].
  match goal with |- context [match ft_blocks f with Some _ => _ | None => ?x end] => set (failed := x) end.
  assert (Hf : cu_pending failed = cu_pending c) by (unfold failed; destruct (_ <=? from), (_ <=? _); done).
  destruct (ft_blocks f) as [[|b bs]|]; [by left| |by left]. destruct (_ =? _); [|by left].
  destruct (_ <=? from), (_ && _); cbn; eauto.
Qed.

Lemma receive_filled probes f c : filled c -> filled (receive parallel probes f c).
Proof.
  intros H. unfold filled. destruct (receive_pending probes f c) as [->|(b & bs & _ & ->)]; [done|]. by apply map_Forall_insert_2.
Qed.

Lemma turn_going ck probes c : going c -> Forall (eq Applied) (step c (Turn ck probes)).2 -> going (step c (Turn ck probes)).1.
Proof.
  intros [Hi Hf Hd] Ho. cbn [CatchUp.step] in Ho |- *. destruct (finished c); [by split|]. destruct (cu_channel c) as [|f rest] eqn:Hch; [by split|].
  set (c0 := set_traffic (cu_jobs c) rest c) in *. pose proof Hi as [(l & Hc & Hl) Hh Ht Hw].
  unfold answered_honestly in Hh. rewrite Hch in Hh. apply Forall_cons in Hh as [Hhf Hhr].
  assert (Hwo : without f.(ft_range) c0).
  { exists l. split; [done|]. rewrite Hl. unfold outstanding, awaited, pending_ranges, c0. cbn. rewrite Hch. cbn. rewrite <- !app_assoc. cbn. by rewrite <- !Permutation_middle. }
  pose proof (receive_tiled probes f c0 Hwo Hhf) as Hrt. pose proof (receive_filled probes f c0 Hf) as Hrf. pose proof (receive_same probes f c0) as Hrs.
  set (c1 := receive parallel probes f c0) in *. cbv zeta in Hrs. destruct Hrs as (R1 & R2 & R3 & R4 & R5 & R6).
  pose proof (drain_tiled (S (size (cu_pending c1))) ck c1 Hrt Hrf ltac:(lia)) as Hdr. destruct (drain _ ck c1) as [c2 os]. cbn in Ho, Hdr |- *.
  destruct (Hdr Ho) as (D1 & D2 & D3 & D4 & D5). split; [|done|done]. destruct D1 as (l2 & Hc2 & Hl2). split; cbn.
  - exists l2. split; done.
  - unfold answered_honestly. cbn. by rewrite D3, R2.
  - rewrite D4, R4, R5. unfold c0. cbn. lia.
  - done.
Qed.

Lemma step_going c e : going c -> honest_reply c e -> Forall (eq Applied) (step c e).2 -> going (step c e).1.
Proof.
  intros H Hr Ho. pose proof H as [Hi Hf Hd]. destruct e as [now|k now latency reply|ck probes|s|table iroh].
  - split; [by apply worker_in_order|..]; cbn; destruct (take_job _ _ _ _); done.
  - split; [by apply answer_in_order|..]; cbn; destruct (cu_jobs c !! k) as [job|]; try done;
      pose proof (fetch_range_same now latency (jb_source job) reply c) as Hs; destruct (fetch_range _ _ _ _ _) as [c' blocks];
      destruct Hs as (_ & _ & _ & Hp & Ht); cbn; unfold filled; cbn; by rewrite ?Ht, Hp.
  - by apply turn_going.
  - done.
  - split; [|done|done]. cbn. pose proof (io_honest _ Hi) as Hh. revert Hi. by apply in_order_ext.
Qed.

(** Every answer of the run is honest, and no other path moves the store. *)
Fixpoint honest_run c (es : list Event) : Prop :=
  match es with [] => True | e :: es => honest_reply c e /\ honest_run (step c e).1 es end.

Lemma run_going es : forall c, going c -> honest_run c es -> Forall (eq Applied) (run c es).2 -> going (run c es).1.
Proof.
  induction es as [|e es IH]; intros c H Hr Ho; [done|]. destruct Hr as [Hr1 Hr2]. cbn [CatchUp.run] in *. fold run in *.
  pose proof (step_going c e H Hr1) as Hs. destruct (step c e) as [c1 os]. cbn in Hs, Hr2.
  destruct (existsb is_stopped os) eqn:Hx.
  - by apply Hs.
  - specialize (IH c1). destruct (run c1 es) as [c2 os']. cbn in *. apply Forall_app in Ho as [Ho1 Ho2]. by apply IH; [apply Hs|..].
Qed.

Lemma start_going (s : Store) table iroh now tip : tip.(tip_height) <= (start parallel s table iroh now tip).(cu_sched).(sc_target) -> going (start parallel s table iroh now tip).
Proof.
  intros Ht. split; [|apply map_Forall_empty|done]. split; [|constructor|done|done]. exists []. split; [done|]. unfold outstanding, awaited, pending_ranges. cbn. by rewrite map_to_list_empty.
Qed.

(** C17: the catch-up always works on the block it needs.  From its start on, whatever order the workers
    and the loop run in, however short, late or failed the answers are, as long as the blocks that come
    are ones that were asked for and can be applied and no other path changes the store: while the tip is
    below the target, the range that starts at the tip is queued, requested or answered, or is the next
    one a worker takes. *)
Theorem needed_range_awaited (s : Store) table iroh now tip es
    (Ht : tip.(tip_height) <= (start parallel s table iroh now tip).(cu_sched).(sc_target))
    (Hh : honest_run (start parallel s table iroh now tip) es)
    (Ho : Forall (eq Applied) (run (start parallel s table iroh now tip) es).2) :
  let c := (run (start parallel s table iroh now tip) es).1 in
  finished c = false -> exists to, (c.(cu_tip).(tip_height), to) ∈ awaited c \/
    is_Some (next_range c.(cu_sched)) /\ awaited c = [] /\ c.(cu_sched).(sc_next_from) = c.(cu_tip).(tip_height).
Proof.
  intros c Hf. destruct (run_going es _ (start_going s table iroh now tip Ht) Hh Ho) as [[(l & Hc & Hl) _ Htg Hw] Hfi Hd]. fold c in Hc, Hl, Htg, Hw, Hfi, Hd.
  unfold finished in Hf. apply Z.leb_gt in Hf. pose proof (chain_le _ _ _ Hc) as Hle. destruct (Z.ltb_spec c.(cu_tip).(tip_height) c.(cu_sched).(sc_next_from)) as [Hlt|Hge].
  - destruct (chain_first _ _ _ Hc Hlt) as [to Hin]. exists to. left. rewrite Hl in Hin. unfold outstanding in Hin. apply elem_of_app in Hin as [Hin|Hin]; [done|].
    apply list_elem_of_fmap in Hin as ([from [src blocks]] & Hp & Hin). injection Hp as Hp _. apply elem_of_map_to_list in Hin. cbn in Hp. by rewrite <- Hp, Hd in Hin.
  - exists 0. right. assert (He : sc_next_from (cu_sched c) = tip_height (cu_tip c)) by lia. assert (Hn : l = []).
    { destruct l as [|[x y] l]; [done|]. cbn in Hc. destruct Hc as (-> & Hxy & Hc). apply chain_le in Hc. lia. }
    subst l. symmetry in Hl. apply Permutation_nil_r in Hl. apply app_eq_nil in Hl as [Ha _]. split_and!; [|done|done]. apply app_eq_nil in Ha as [Hr _].
    unfold next_range. rewrite Hr. pose proof window_pos. destruct (Z.ltb_spec (sc_next_from (cu_sched c)) (sc_target (cu_sched c))); [|lia].
    destruct (Z.ltb_spec (sc_next_from (cu_sched c)) (sc_window_end (cu_sched c))); [by eexists|lia].
Qed.

(** ** A range that is lost *)

(** Everything that is outstanding starts past the tip, and so does the next range. *)
Record lost c : Prop := {
  lo_target : c.(cu_tip).(tip_height) < c.(cu_sched).(sc_target);
  lo_next : c.(cu_tip).(tip_height) < c.(cu_sched).(sc_next_from);
  lo_awaited : Forall (fun r => c.(cu_tip).(tip_height) < r.1) (awaited c);
  lo_pending : c.(cu_pending) !! c.(cu_tip).(tip_height) = None
}.

(** Heights inside an answer do not go back. *)
Definition ascending_blocks (blocks : list Block) : Prop := match blocks with b :: _ => b.(b_height) <= last_height blocks | [] => True end.
Definition ascending_answers c : Prop := Forall (fun f => match f.(ft_blocks) with Some bs => ascending_blocks bs | None => True end) c.(cu_channel).
Definition ascending_event (e : Event) : Prop := match e with Answer _ _ _ (Ok blocks) => ascending_blocks blocks | _ => True end.

Lemma set_insert_Forall (P : Range -> Prop) r l : P r -> Forall P l -> Forall P (set_insert r l).
Proof.
  intros Hr. induction 1 as [|x l Hx H IH]; cbn; [by constructor|]. destruct (range_lt r x); [by repeat constructor|]. destruct (decide (r = x)); by constructor.
Qed.

Lemma receive_lost probes f c : let T := c.(cu_tip).(tip_height) in
  T < f.(ft_range).1 -> match f.(ft_blocks) with Some bs => ascending_blocks bs | None => True end ->
  Forall (fun r => T < r.1) c.(cu_sched).(sc_retry) -> c.(cu_pending) !! T = None ->
  let c' := receive parallel probes f c in
  Forall (fun r => T < r.1) c'.(cu_sched).(sc_retry) /\ c'.(cu_pending) !! T = None.
Proof.
  intros T Hr Ha Hq Hp. cbn. unfold receive. destruct (ft_range f) as [from to]. cbn in Hr.
  assert (Hfail : forall c', c'.(cu_sched).(sc_retry) = (if T <=? from then set_insert (from, to) c.(cu_sched).(sc_retry) else c.(cu_sched).(sc_retry)) ->
    c'.(cu_pending) = c.(cu_pending) -> Forall (fun r => T < r.1) c'.(cu_sched).(sc_retry) /\ c'.(cu_pending) !! T = None).
  { intros c' -> ->. split; [|done]. destruct (T <=? from); [by apply set_insert_Forall|done]. }
  fold T. destruct (ft_blocks f) as [[|b bs]|]; [|destruct (Z.eqb_spec (b_height b) (from + 1)) as [Hb|]|].
  2:{ unfold ascending_blocks in Ha. cbn [last_height] in Ha. set (last := b_height (List.last (b :: bs) b)) in *.
      destruct (T <=? from), ((last <? to) && (T <=? last)); cbn; (split; [try apply set_insert_Forall; cbn; try done; lia|]); try done; rewrite lookup_insert_ne; [done|lia|done|lia]. }
  all: apply Hfail; fold T; destruct (T <=? from); destruct (_ <=? _); done.
Qed.

Lemma lost_drain fuel ck c : c.(cu_pending) !! c.(cu_tip).(tip_height) = None -> drain (S fuel) ck c = (c, []).
Proof. intros H. cbn [CatchUp.drain]. unfold CatchUp.settle. by rewrite H. Qed.

Lemma step_lost c e : lost c -> ascending_answers c -> ascending_event e ->
  lost (step c e).1 /\ ascending_answers (step c e).1 /\ (step c e).1.(cu_tip).(tip_height) = c.(cu_tip).(tip_height) /\ (step c e).2 = [].
Proof.
  intros Hl Hu He. pose proof (conj Hl (conj Hu (conj (eq_refl (tip_height (cu_tip c))) (eq_refl (@nil Outcome))))) as Hid.
  destruct Hl as [Ht Hn Ha Hp]. unfold awaited in Ha. apply Forall_app in Ha as [Hr Ha]. apply Forall_app in Ha as [Hj Hc].
  destruct e as [now|k now latency reply|ck probes|s|table iroh]; cbn [CatchUp.step].
  - unfold take_job. destruct (next_range (cu_sched c)) as [[[from to] s']|] eqn:Hx.
    2:{ cbn. split_and!; try done. split; try done. unfold awaited. cbn. by rewrite app_nil_r, !Forall_app. }
    apply next_range_cases in Hx as [Hx [Hs1 Hs2]].
    assert (Hy : c.(cu_tip).(tip_height) < from /\ Forall (fun r => tip_height (cu_tip c) < r.1) (sc_retry s') /\ tip_height (cu_tip c) < sc_next_from s').
    { destruct Hx as [[Hx ->]|(Hx & -> & [= -> ->] & Hz)]; [rewrite Hx in Hr; apply Forall_cons in Hr as [? ?]; done|]. split_and!; [done|constructor|lia]. }
    destruct Hy as (Hy1 & Hy2 & Hy3). destruct (List.find _ _) as [src|]; cbn; (split_and!; [|done..]); (split; cbn; [by rewrite Hs1|done| |done]);
      unfold awaited; cbn; rewrite ?fmap_app, ?app_nil_r, !Forall_app; split_and!; try done.
    + by repeat constructor.
    + by apply set_insert_Forall.
  - destruct (cu_jobs c !! k) as [job|] eqn:Hk; [|exact Hid].
    pose proof (fetch_range_same now latency (jb_source job) reply c) as Hs. pose proof (fetch_range_blocks now latency (jb_source job) reply c) as Hb.
    destruct (fetch_range _ _ _ _ _) as [c' blocks]. destruct Hs as (H1 & H2 & H3 & H4 & H5). cbn. rewrite H5. split_and!; [split; cbn; rewrite ?H1, ?H4, ?H5; try done| |done|done].
    + unfold awaited. cbn. rewrite ?H1, H2, H3, fmap_app, !Forall_app. pose proof (jobs_perm _ _ _ Hk) as Hjp. rewrite Hjp in Hj. apply Forall_cons in Hj as [Hj1 Hj2].
      split_and!; try done. by repeat constructor.
    + unfold ascending_answers. cbn. rewrite H3. apply Forall_app. split; [done|]. constructor; [|constructor]. cbn. destruct blocks as [bs|]; [|done].
      specialize (Hb bs eq_refl). by subst reply.
  - destruct (finished c); [exact Hid|].
    destruct (cu_channel c) as [|f rest] eqn:Hch; [exact Hid|].
    cbn in Hc. apply Forall_cons in Hc as [Hc1 Hc2]. unfold ascending_answers in Hu. rewrite Hch in Hu. apply Forall_cons in Hu as [Hu1 Hu2].
    set (c0 := set_traffic (cu_jobs c) rest c). pose proof (receive_lost probes f c0 Hc1 Hu1 Hr Hp) as [Q1 Q2]. pose proof (receive_same probes f c0) as (R1 & R2 & R3 & R4 & R5 & R6).
    set (c1 := receive parallel probes f c0) in *. rewrite lost_drain by (by rewrite R1). cbn. rewrite R1. split_and!; [split; cbn; rewrite ?R1, ?R4, ?R5| |done|done]; try done.
    + unfold c0. cbn. lia.
    + unfold awaited. cbn. rewrite R2, R3, !Forall_app. done.
    + unfold ascending_answers. cbn. by rewrite R2.
  - cbn. split_and!; try done. split; try done. unfold awaited. by rewrite !Forall_app.
  - cbn. split_and!; try done. split; try done. unfold awaited. by rewrite !Forall_app.
Qed.

(** A range that is lost is never asked for again.  Once everything outstanding and the next range
    start past the tip, no worker, answer or change of the store brings the block after the tip back:
    the tip stays, the loop does not finish, and the node never leaves the catch-up.  [NetworkDemo] shows
    that the loop gets there when another intake path applies the first block of a range. *)
Theorem lost_range_stays_lost c es (Hl : lost c) (Ha : ascending_answers c) (He : Forall ascending_event es) :
  let c' := (run c es).1 in
  (run c es).2 = [] /\ c'.(cu_tip).(tip_height) = c.(cu_tip).(tip_height) /\ finished c' = false /\
  Forall (fun r => c.(cu_tip).(tip_height) < r.1) (awaited c').
Proof.
  assert (H : lost (run c es).1 /\ (run c es).1.(cu_tip).(tip_height) = c.(cu_tip).(tip_height) /\ (run c es).2 = []).
  { revert c Hl Ha. induction He as [|e es He _ IH]; intros c Hl Ha; [done|]. cbn [CatchUp.run]. fold run. destruct (step_lost c e Hl Ha He) as (H1 & H2 & H3 & H4).
    destruct (step c e) as [c1 os]. cbn in H1, H2, H3, H4. subst os. cbn [existsb]. destruct (IH c1 H1 H2) as (J1 & J2 & J3). destruct (run c1 es) as [c2 os'].
    cbn in *. split_and!; [done|congruence|done]. }
  destruct H as ([H1 H2 H3 H4] & H5 & H6). cbv zeta. split_and!; [done|done|unfold finished; apply Z.leb_gt; lia|]. by rewrite <- H5.
Qed.
End catch_up.
