(* ===== verification/Finality.v ===== *)
(** * Finality votes

    [src/src/p2p_iroh/finality.rs]: the tracker of the votes of the active delegates, the
    certificates it writes once a quorum has voted for a block of the chain, and the proofs against
    delegates that voted twice.  The keys of the node are those of [Keys]; the clock of
    the machine is an argument; logging and gossip are not modelled. *)

From S2P Require Import Prelude Models Env Bytes Crypto Keys Config TxCodec BlockCodec Wallet Rules Round Tree Storage Chain.

Definition KEEP_BEHIND : Z := 120.
Definition AHEAD : Z := 21.

(** [FinalityVote] of [src/src/p2p_iroh/proto.rs]. *)
Record FinalityVote : Type := mkVote {
  fv_height : Z;
  fv_block_id : string;
  fv_public_key : string;
  fv_signature : string
}.

(** [Inner]: votes by height, block and key; own votes; counters of the metrics page. *)
Record Inner : Type := mkInner {
  in_votes : gmap Z (gmap string (gmap string string));
  in_own : gmap Z string;
  in_received : Z;
  in_rejected : Z;
  in_last_own_vote_unix : Z;
  in_last_own_votes : Z;
  in_broadcast_failed : Z;
  in_last_error : string;
  in_warned_unix : Z
}.

Definition inner_default : Inner := mkInner ∅ ∅ 0 0 0 0 0 "" 0.

Definition on_votes f (i : Inner) : Inner :=
  mkInner (f i.(in_votes)) i.(in_own) i.(in_received) i.(in_rejected) i.(in_last_own_vote_unix) i.(in_last_own_votes)
    i.(in_broadcast_failed) i.(in_last_error) i.(in_warned_unix).
Definition on_own f (i : Inner) : Inner :=
  mkInner i.(in_votes) (f i.(in_own)) i.(in_received) i.(in_rejected) i.(in_last_own_vote_unix) i.(in_last_own_votes)
    i.(in_broadcast_failed) i.(in_last_error) i.(in_warned_unix).
Definition count_received (i : Inner) : Inner :=
  mkInner i.(in_votes) i.(in_own) (as_u64 (i.(in_received) + 1)) i.(in_rejected) i.(in_last_own_vote_unix) i.(in_last_own_votes)
    i.(in_broadcast_failed) i.(in_last_error) i.(in_warned_unix).
Definition count_rejected (i : Inner) : Inner :=
  mkInner i.(in_votes) i.(in_own) i.(in_received) (as_u64 (i.(in_rejected) + 1)) i.(in_last_own_vote_unix) i.(in_last_own_votes)
    i.(in_broadcast_failed) i.(in_last_error) i.(in_warned_unix).
Definition note_own (now k : Z) (i : Inner) : Inner :=
  mkInner i.(in_votes) i.(in_own) i.(in_received) i.(in_rejected) now k i.(in_broadcast_failed) i.(in_last_error) i.(in_warned_unix).
Definition note_warned (now : Z) (i : Inner) : Inner :=
  mkInner i.(in_votes) i.(in_own) i.(in_received) i.(in_rejected) i.(in_last_own_vote_unix) i.(in_last_own_votes)
    i.(in_broadcast_failed) i.(in_last_error) now.

(** Publisher bookkeeping. *)
Definition note_broadcast_failed (error : string) (i : Inner) : Inner :=
  mkInner i.(in_votes) i.(in_own) i.(in_received) i.(in_rejected) i.(in_last_own_vote_unix) i.(in_last_own_votes)
    (as_u64 (i.(in_broadcast_failed) + 1)) error i.(in_warned_unix).

Definition votes_in_memory (i : Inner) : Z :=
  map_sum (fun by_block => map_sum (fun v => Z.of_nat (size v)) by_block) i.(in_votes).

Definition votes_for (i : Inner) (height : Z) (block_id : string) : gmap string string :=
  default ∅ (default ∅ (i.(in_votes) !! height) !! block_id).

(** [votes.entry(height).or_default().entry(id).or_default().insert(key, signature)]. *)
Definition put_vote (v : FinalityVote) : Inner -> Inner :=
  on_votes (fun m =>
    let at_height := default ∅ (m !! v.(fv_height)) in
    <[v.(fv_height) := <[v.(fv_block_id) := <[v.(fv_public_key) := v.(fv_signature)]> (default ∅ (at_height !! v.(fv_block_id)))]> at_height]> m).

(** [split_off(&cut)]: what is not below the cut. *)
Definition split_off {A} (cut : Z) (m : gmap Z A) : gmap Z A := filter (fun p => cut <= p.1) m.

Definition prune_votes (tip : Z) (i : Inner) : Inner :=
  let cut := sat_sub tip KEEP_BEHIND in on_own (split_off cut) (on_votes (split_off cut) i).

Section finality.
Context `{E : Env} `{SG : Signer}.
Variable n : Network.
Implicit Types (s : Store) (i : Inner) (v : FinalityVote) (p : EquivocationProof).

Definition vote_hash (height : Z) (block_id : string) : list byte :=
  sha256 (bytes_of "sth-finality-v1" ++ le_bytes 8 height ++ default (bytes_of block_id) (hex_decode block_id)).

Definition sign_vote (k : KeyPair) (height : Z) (block_id : string) : option FinalityVote :=
  (fun signature => mkVote height block_id (public_key_hex k) signature)
    <$> res_ok (sign_schnorr_legacy (vote_hash height block_id) k.(kp_private_key)).

Definition verify_vote v : bool :=
  (slen v.(fv_block_id) =? 64)
  && match hex_decode v.(fv_signature) with
     | Some sig => default false (res_ok (verify_schnorr_legacy (vote_hash v.(fv_height) v.(fv_block_id)) sig v.(fv_public_key)))
     | None => false
     end.

Definition round_of (height : Z) : Z := (round_info height (milestone n (Z.max height 1)).(m_active_delegates)).(ri_round).

(** Active delegates of the round that contains a height. *)
Definition active_set s (height : Z) : list string :=
  dr_public_key <$> forging_order_or_live n s (round_of height) (milestone n (Z.max height 1)).(m_active_delegates).

(** The round as ranked by votes: a banned key can still be proven against. *)
Definition ranked_set s (height : Z) : list string :=
  dr_public_key <$> match get_round s (round_of height) with
                    | Some l => l
                    | None => active_delegates_ranked s (milestone n (Z.max height 1)).(m_active_delegates)
                    end.

Definition contains (l : list string) (x : string) : bool := existsb (String.eqb x) l.

(** ** Certificates *)

Definition finalized s : option (Z * string) := (fun c => (c.(fc_height), c.(fc_block_id))) <$> latest_finality_cert s.
Definition is_final s (height : Z) : bool := opt_test (fun f => height <=? f.1) (finalized s).

Definition own_block_id s (height : Z) : Res (option string) :=
  rmap (fun b => b ≫= b_id) (get_block_by_height n s height).

Definition quorum_at (height : Z) : Z := finality_quorum (milestone n (Z.max height 1)).

Definition try_certify (height : Z) (block_id : string) s i : Store :=
  if is_final s height then s else
  match i.(in_votes) !! height ≫= fun m => m !! block_id with
  | Some sigs =>
      if Z.of_nat (size sigs) <? quorum_at height then s else
      if negb (bool_decide (match res_ok (own_block_id s height) with Some o => o | None => None end = Some block_id)) then s else
      put_finality_cert (mkCert height block_id sigs) s
  | None => s
  end.

Definition check_cert_vote s (cert : FinalityCert) (set : list string) (q : string * string) : result unit string :=
  if negb (contains set q.1) then Err ("vote by " +:+ q.1 +:+ " — not an active delegate of that round") else
  if negb (verify_vote (mkVote cert.(fc_height) cert.(fc_block_id) q.1 q.2)) then Err ("invalid vote signature by " +:+ q.1)
  else Ok tt.

(** A certificate from a peer; [true] when it is stored. *)
Definition adopt_certificate (cert : FinalityCert) s : Store * result bool string :=
  let quorum := quorum_at cert.(fc_height) in
  let k := Z.of_nat (size cert.(fc_votes)) in
  if k <? quorum then (s, Err ("certificate has " +:+ fmt_u k +:+ " votes, quorum is " +:+ fmt_u quorum)) else
  let set := active_set s cert.(fc_height) in
  match rfold (fun _ q => check_cert_vote s cert set q) (bt_entries cert.(fc_votes)) tt with
  | Err e => (s, Err e)
  | Ok _ =>
      match own_block_id s cert.(fc_height) with
      | Err e => (s, Err (err_text e))
      | Ok ours =>
          if negb (bool_decide (ours = Some cert.(fc_block_id)))
          then (s, Err ("block " +:+ fmt_u cert.(fc_height) +:+ " is not in our chain under id " +:+ cert.(fc_block_id)))
          else if is_final s cert.(fc_height) then (s, Ok false)
          else (put_finality_cert cert s, Ok true)
      end
  end.

(** ** Proofs of a double vote *)

(** The round after the tip, from which bans are counted. *)
Definition next_round s : Z :=
  let tip := get_last_height s in
  (round_info (as_u64 (tip + 1)) (milestone n (Z.max tip 1)).(m_active_delegates)).(ri_round).
Definition ban_end s : Z :=
  as_u64 (next_round s + slashing_rounds (milestone n (Z.max (get_last_height s) 1)).(m_finality)).

Definition make_proof s v (other_id other_sig : string) : EquivocationProof :=
  mkEquivocation v.(fv_height) v.(fv_public_key) (other_id, v.(fv_block_id)) (other_sig, v.(fv_signature))
    (get_last_height s) (ban_end s).

Definition verify_proof s p : result unit string :=
  if String.eqb p.(eq_block_ids).1 p.(eq_block_ids).2 then Err "same block id twice"%string else
  if negb (contains (ranked_set s p.(eq_height)) p.(eq_public_key))
  then Err (p.(eq_public_key) +:+ " is not an active delegate of that round") else
  if negb (verify_vote (mkVote p.(eq_height) p.(eq_block_ids).1 p.(eq_public_key) p.(eq_signatures).1))
  then Err "vote 0 does not verify"%string else
  if negb (verify_vote (mkVote p.(eq_height) p.(eq_block_ids).2 p.(eq_public_key) p.(eq_signatures).2))
  then Err "vote 1 does not verify"%string else Ok tt.

(** [Storage::equivocation]: the proof against a key with the greatest height. *)
Definition eq_height_le (x y : EquivocationProof) : Prop := x.(eq_height) <= y.(eq_height).
#[export] Instance eq_height_le_dec x y : Decision (eq_height_le x y) := Z.le_dec _ _.
Definition equivocation_history s (public_key : string) : list EquivocationProof :=
  sort_by eq_height_le (snd <$> List.filter (fun q => String.eqb q.1.1 public_key) (map_to_list s.(st_equivocations))).
Definition equivocation s (public_key : string) : option EquivocationProof := last (equivocation_history s public_key).

Definition with_ban (until : Z) p : EquivocationProof :=
  mkEquivocation p.(eq_height) p.(eq_public_key) p.(eq_block_ids) p.(eq_signatures) p.(eq_detected_height) until.

(** Keep a verified proof; [true] when it is new. *)
Definition adopt_proof p s : Store * result bool string :=
  match verify_proof s p with
  | Err e => (s, Err e)
  | Ok _ =>
      let p := with_ban (Z.min p.(eq_banned_until_round) (ban_end s)) p in
      if opt_test (fun have => p.(eq_height) <=? have.(eq_height)) (equivocation s p.(eq_public_key)) then (s, Ok false)
      else (put_equivocation p s, Ok true)
  end.

(** ** Votes of the network *)

(** Another id the key has voted for at this height, with its signature. *)
Definition conflict_of i v : option (string * string) :=
  head (omap (fun q => if String.eqb q.1 v.(fv_block_id) then None else (fun sig => (q.1, sig)) <$> q.2 !! v.(fv_public_key))
          (bt_entries (default ∅ (i.(in_votes) !! v.(fv_height))))).

Definition in_range (tip : Z) v : bool :=
  (tip <=? as_u64 (v.(fv_height) + KEEP_BEHIND)) && (v.(fv_height) <=? as_u64 (tip + AHEAD)).

(** The cache holds one active set for a round and call. *)
Definition cached_set s (cache : gmap Z (list string)) (height : Z) : gmap Z (list string) * list string :=
  let round := round_of height in
  match cache !! round with
  | Some l => (cache, l)
  | None => let l := active_set s height in (<[round := l]> cache, l)
  end.

Record Recording : Type := mkRecording {
  rc_store : Store;
  rc_inner : Inner;
  rc_cache : gmap Z (list string);
  rc_accepted : Z;
  rc_proofs : list EquivocationProof
}.

Definition record_vote (tip : Z) (r : Recording) v : Recording :=
  let s := r.(rc_store) in
  let i := r.(rc_inner) in
  let '(cache, active) :=
    if in_range tip v then let '(c, l) := cached_set s r.(rc_cache) v.(fv_height) in (c, contains l v.(fv_public_key))
    else (r.(rc_cache), false) in
  if negb active || negb (verify_vote v)
  then mkRecording s (count_rejected i) cache r.(rc_accepted) r.(rc_proofs) else
  let i := count_received i in
  let conflict := conflict_of i v in
  let i := put_vote v i in
  let '(s, proofs) :=
    match conflict with
    | Some (id, sig) =>
        let proof := make_proof s v id sig in
        match adopt_proof proof s with
        | (s, Ok true) => (s, r.(rc_proofs) ++ [proof])
        | (s, _) => (s, r.(rc_proofs))
        end
    | None => (s, r.(rc_proofs))
    end in
  mkRecording (try_certify v.(fv_height) v.(fv_block_id) s i) i cache (r.(rc_accepted) + 1) proofs.

(** [record]: the first 64 votes of a message. *)
Definition record (votes : list FinalityVote) s i : Store * Inner * Z * list EquivocationProof :=
  let tip := get_last_height s in
  let r := foldl (record_vote tip) (mkRecording s i ∅ 0 []) (take 64 votes) in
  (r.(rc_store), prune_votes tip r.(rc_inner), r.(rc_accepted), r.(rc_proofs)).

(** ** Our own votes *)

Definition sign_with (height : Z) (block_id : string) (st : Inner * list FinalityVote) (k : KeyPair) : Inner * list FinalityVote :=
  match sign_vote k height block_id with
  | Some v => (put_vote v st.1, st.2 ++ [v])
  | None => st
  end.

Definition own_votes (now : Z) (keys : list KeyPair) (height : Z) (block_id : string) s i : Store * Inner * list FinalityVote :=
  match keys with
  | [] => (s, i, [])
  | _ =>
      let set := active_set s height in
      if opt_test (fun id => negb (String.eqb id block_id)) (i.(in_own) !! height) then (s, i, []) else
      let '(i, out) := foldl (sign_with height block_id) (i, []) (List.filter (fun k => contains set (public_key_hex k)) keys) in
      let i := match out with
               | [] => if 60 <=? sat_sub now i.(in_warned_unix) then note_warned now i else i
               | _ => note_own now (Z.of_nat (length out)) (on_own (insert height block_id) i)
               end in
      (try_certify height block_id s i, i, out)
  end.

(** ** Snapshot of the metrics page *)

Record HeightVotes : Type := mkHeightVotes { hv_height : Z; hv_block_id : string; hv_votes : Z; hv_certified : bool }.
Record FinalitySnapshot : Type := mkSnapshot {
  fs_finalized_height : Z; fs_finalized_id : option string; fs_lag : Z; fs_quorum : Z; fs_active_delegates : Z; fs_hard : bool;
  fs_tip_votes : Z; fs_received : Z; fs_rejected : Z; fs_own_votes : Z; fs_own_votes_at_tip : Z; fs_last_own_vote_age : option Z;
  fs_last_own_votes : Z; fs_broadcast_failed : Z; fs_last_error : string; fs_heights : list HeightVotes
}.

Definition above (x y : Z * gmap string (gmap string string)) : Prop := y.1 <= x.1.
#[export] Instance above_dec x y : Decision (above x y) := Z.le_dec _ _.

Definition snapshot (now : Z) s i : FinalitySnapshot :=
  let tip := get_last_height s in
  let ms := milestone n (Z.max tip 1) in
  let tip_id := match res_ok (get_last_block n s) with Some b => b ≫= b_id | None => None end in
  let '(fh, fid) := match finalized s with Some (h, id) => (h, Some id) | None => (0, None) end in
  let tip_votes := match tip_id with Some id => Z.of_nat (size (votes_for i tip id)) | None => 0 end in
  let at_tip := if bool_decide (i.(in_own) !! tip = tip_id) && is_some tip_id then i.(in_last_own_votes) else 0 in
  let heights := concat ((fun q => (fun e => mkHeightVotes q.1 e.1 (Z.of_nat (size e.2)) ((q.1 <=? fh) && (0 <? fh))) <$> bt_entries q.2)
                           <$> take 8 (sort_by above (map_to_list i.(in_votes)))) in
  mkSnapshot fh fid (sat_sub tip fh) (finality_quorum ms) ms.(m_active_delegates) ms.(m_finality).(fp_active) tip_votes
    i.(in_received) i.(in_rejected) (Z.of_nat (size i.(in_own))) at_tip
    (if 0 <? i.(in_last_own_vote_unix) then Some (sat_sub now i.(in_last_own_vote_unix)) else None)
    i.(in_last_own_votes) i.(in_broadcast_failed) i.(in_last_error) heights.
End finality.
