(* ===== verification/FinalityFacts.v ===== *)
(** * What a certificate is worth

    The certificates the tracker writes are backed by a quorum of valid votes for a block of the
    chain; a node does not vote twice; two certificates for one height convict a delegate; and the
    ban that should follow can be avoided. *)

From S2P Require Import Prelude Models Env Bytes Crypto Keys Config TxCodec BlockCodec Wallet Rules Round Tree Storage Chain Finality.

Section facts.
Context `{E : Env} `{SG : Signer} `{L : !EnvLaws E} `{LS : !SignerLaws E SG}.
Variable n : Network.
Implicit Types (s : Store) (i : Inner) (v : FinalityVote) (p : EquivocationProof).

#[local] Abbreviation quorum_at := (quorum_at n).
#[local] Abbreviation try_certify := (try_certify n).
#[local] Abbreviation record_vote := (record_vote n).

(** ** Soundness of certificates *)

Definition backed (height : Z) (id : string) (sigs : gmap string string) : Prop :=
  map_Forall (fun pk sig => verify_vote (mkVote height id pk sig) = true) sigs.
Definition votes_ok i : Prop := map_Forall (fun h m => map_Forall (fun id sigs => backed h id sigs) m) i.(in_votes).

Lemma votes_ok_default : votes_ok inner_default.
Proof. unfold votes_ok, inner_default. cbn [in_votes]. apply map_Forall_empty. Qed.

Record sound s (c : FinalityCert) : Prop := {
  so_quorum : quorum_at c.(fc_height) <= Z.of_nat (size c.(fc_votes));
  so_votes : backed c.(fc_height) c.(fc_block_id) c.(fc_votes);
  so_chain : own_block_id n s c.(fc_height) = Ok (Some c.(fc_block_id))
}.

(** Same chain, and every certificate that was not there before is sound. *)
Record certified s s' : Prop := {
  ce_blocks : s'.(st_blocks) = s.(st_blocks) /\ s'.(st_last_height) = s.(st_last_height) /\ s'.(st_rounds) = s.(st_rounds)
              /\ s'.(st_wallets) = s.(st_wallets);
  ce_certs : forall h c, s'.(st_finality) !! h = Some c -> s.(st_finality) !! h = Some c \/ sound s c
}.

Lemma own_block_same s s' h : s'.(st_blocks) = s.(st_blocks) -> own_block_id n s' h = own_block_id n s h.
Proof. intros Hb. unfold own_block_id, get_block_by_height. by rewrite Hb. Qed.

Lemma sound_same s s' c : s'.(st_blocks) = s.(st_blocks) -> sound s' c -> sound s c.
Proof. intros Hb [H1 H2 H3]. split; [done|done|]. by rewrite <-(own_block_same s s'). Qed.

Lemma certified_refl s : certified s s.
Proof. split; [done|]. by left. Qed.

Lemma certified_trans s1 s2 s3 : certified s1 s2 -> certified s2 s3 -> certified s1 s3.
Proof.
  intros [(B1 & L1 & R1 & W1) C1] [(B2 & L2 & R2 & W2) C2]. split; [split_and!; congruence|].
  intros h c Hc. destruct (C2 h c Hc) as [H|H]; [by apply C1|]. right. by apply (sound_same s1 s2).
Qed.

Lemma put_certified s c : sound s c -> certified s (put_finality_cert c s).
Proof.
  intros Hs. split; [done|]. intros h c'. cbn. intros Hc. apply lookup_insert_Some in Hc as [[_ <-]|[_ Hc]]; [by right|by left].
Qed.

(** The two writes of the tracker: a sound certificate, a verified proof with a ban that is not too long. *)
Inductive track : Store -> Store -> Prop :=
| track_certificate c s : sound s c -> track s (put_finality_cert c s)
| track_proof p until s : verify_proof n s p = Ok tt -> until <= ban_end n s -> track s (put_equivocation (with_ban until p) s).

Lemma track_certified s s' : rtc track s s' -> certified s s'.
Proof.
  induction 1 as [|s1 s2 s3 [c s0 Hs|p until s0 _ _] _ IH]; [apply certified_refl|..]; (eapply certified_trans; [|exact IH]).
  - by apply put_certified.
  - split; [done|]. by left.
Qed.

Lemma try_certify_tracks h id s i : votes_ok i -> rtc track s (try_certify h id s i).
Proof.
  intros Hv. unfold Finality.try_certify. destruct (is_final s h); [done|].
  destruct (in_votes i !! h) as [m|] eqn:Hm; cbn; [|done]. destruct (m !! id) as [sigs|] eqn:Hs; [|done].
  destruct (Z.ltb_spec (Z.of_nat (size sigs)) (quorum_at h)); [done|].
  destruct (bool_decide_reflect (match res_ok (own_block_id n s h) with Some o => o | None => None end = Some id)) as [Ho|]; [|done].
  apply rtc_once, track_certificate. split; cbn; [done|by apply (Hv h m Hm id)|].
  destruct (own_block_id n s h); cbn in Ho; [by rewrite Ho|done].
Qed.

Lemma put_vote_ok v i : votes_ok i -> verify_vote v = true -> votes_ok (put_vote v i).
Proof.
  intros Hi Hv. unfold votes_ok, put_vote. cbn. apply map_Forall_insert_2; [|done].
  assert (Hat : map_Forall (fun id sigs => backed (fv_height v) id sigs) (default ∅ (in_votes i !! fv_height v))).
  { destruct (in_votes i !! fv_height v) as [m|] eqn:Hm; [by apply (Hi _ _ Hm)|apply map_Forall_empty]. }
  apply map_Forall_insert_2; [|done]. apply map_Forall_insert_2; [by destruct v|].
  destruct (default ∅ (in_votes i !! fv_height v) !! fv_block_id v) as [m|] eqn:Hm; [by apply (Hat _ _ Hm)|apply map_Forall_empty].
Qed.

Lemma adopt_proof_tracks p s : rtc track s (adopt_proof n p s).1.
Proof.
  unfold adopt_proof. destruct (verify_proof n s p) as [[]|] eqn:Hv; [|done]. destruct (opt_test _ _); [done|].
  apply rtc_once, track_proof; [done|lia].
Qed.

Lemma record_vote_ok tip r v : votes_ok r.(rc_inner) ->
  votes_ok (record_vote tip r v).(rc_inner) /\ rtc track r.(rc_store) (record_vote tip r v).(rc_store).
Proof.
  intros Hi. unfold Finality.record_vote. set (x := if in_range tip v then _ else _). destruct x as [cache active].
  destruct (negb active || negb (verify_vote v)) eqn:Hbad; [done|].
  apply orb_false_iff in Hbad as [_ Hv]. apply negb_false_iff in Hv.
  assert (Hp : votes_ok (put_vote v (count_received (rc_inner r)))) by (by apply put_vote_ok).
  destruct (conflict_of _ v) as [[id sig]|]; [|split; [done|by apply try_certify_tracks]].
  set (proof := make_proof n _ _ _ _). pose proof (adopt_proof_tracks proof (rc_store r)) as Hc.
  destruct (adopt_proof n proof (rc_store r)) as [s' [[]|]]; cbn in *; (split; [done|]);
    (etrans; [exact Hc|by apply try_certify_tracks]).
Qed.

Lemma record_all_ok tip l : forall r, votes_ok r.(rc_inner) ->
  votes_ok (foldl (record_vote tip) r l).(rc_inner) /\ rtc track r.(rc_store) (foldl (record_vote tip) r l).(rc_store).
Proof.
  induction l as [|v l IH]; intros r Hi; cbn; [done|].
  destruct (record_vote_ok tip r v Hi) as [H1 H2]. destruct (IH _ H1) as [H3 H4]. split; [done|by etrans].
Qed.

Lemma split_off_ok {A} (P : Z -> A -> Prop) cut (m : gmap Z A) : map_Forall P m -> map_Forall P (split_off cut m).
Proof. intros H k x Hk. apply map_lookup_filter_Some in Hk as [Hk _]. by apply H. Qed.

(** Keys of the node: the public half belongs to the private one, and no signature has a zero [s]
    (which the verifier refuses and happens with probability [2^-256]). *)
Definition signs (k : KeyPair) : Prop :=
  secp_derive k.(kp_private_key) = Some k.(kp_public_key) /\
  forall hash sg b, sign_schnorr_legacy hash k.(kp_private_key) = Ok sg -> hex_decode sg = Some b -> scalar_is_zero (drop 32 b) = false.

Lemma signs_verify k h id v : signs k -> slen id = 64 -> sign_vote k h id = Some v -> verify_vote v = true.
Proof.
  intros [Hk Hz] Hid Hv. unfold sign_vote in Hv. destruct (sign_schnorr_legacy _ _) as [sg|] eqn:Hs; [|done]. injection Hv as <-.
  destruct (schnorr_signed _ _ _ _ Hk Hs) as (b & Hb & _ & Hver). unfold verify_vote, public_key_hex.
  cbn [fv_block_id fv_signature fv_height fv_public_key]. rewrite Hid, Hb, Hver, (Hz _ _ _ Hs Hb). done.
Qed.

Lemma sign_all_ok h id keys : slen id = 64 -> Forall signs keys -> forall st, votes_ok st.1 ->
  votes_ok (foldl (sign_with h id) st keys).1.
Proof.
  intros Hid. induction 1 as [|k keys Hk _ IH]; intros st Hst; cbn [foldl]; [done|]. apply IH. unfold sign_with.
  destruct (sign_vote k h id) as [v|] eqn:Hv; [|done]. cbn. apply put_vote_ok; [done|]. by eapply signs_verify.
Qed.

(** One thing that happens to the tracker. *)
Inductive tracker_step : Store * Inner -> Store * Inner -> Prop :=
| step_record votes s i : tracker_step (s, i) ((record n votes s i).1.1.1, (record n votes s i).1.1.2)
| step_own now keys h id s i : slen id = 64 -> Forall signs keys ->
    tracker_step (s, i) (own_votes n now keys h id s i).1
| step_adopt cert s i : tracker_step (s, i) ((adopt_certificate n cert s).1, i)
| step_proof p s i : tracker_step (s, i) ((adopt_proof n p s).1, i)
| step_unsent error s i : tracker_step (s, i) (s, note_broadcast_failed error i).

Lemma adopt_cert_tracks cert s : rtc track s (adopt_certificate n cert s).1.
Proof.
  unfold adopt_certificate. destruct (Z.ltb_spec (Z.of_nat (size (fc_votes cert))) (quorum_at (fc_height cert))); [done|].
  destruct (rfold _ _ _) as [u|] eqn:Hf; [|done]. destruct (own_block_id n s (fc_height cert)) as [ours|] eqn:Ho; [|done].
  destruct (bool_decide_reflect (ours = Some (fc_block_id cert))) as [->|]; [|done]. cbn [negb].
  destruct (is_final _ _); [done|]. apply rtc_once, track_certificate. split; cbn; [done| |done].
  intros pk sig Hpk. apply elem_of_bt_entries in Hpk. revert Hf Hpk. generalize (bt_entries (fc_votes cert)) tt.
  intros l. induction l as [|q l IH]; intros t0 Hf Hin; [by apply elem_of_nil in Hin|]. cbn in Hf. apply rbind_ok_inv in Hf as (t1 & Hq & Hf).
  apply elem_of_cons in Hin as [<-|Hin]; [|by eapply IH]. unfold check_cert_vote in Hq. destruct (negb (contains _ _)); [done|].
  cbn in Hq. by destruct (verify_vote _).
Qed.

(** Whatever happens to the tracker, its votes verify and it writes nothing else. *)
Lemma tracker_tracks s i s' i' : votes_ok i -> tracker_step (s, i) (s', i') -> votes_ok i' /\ rtc track s s'.
Proof.
  intros Hi H. remember (s, i) as x eqn:Ex. remember (s', i') as y eqn:Ey. destruct H as [votes s0 i0|now keys h id s0 i0 Hid Hk|cert s0 i0|p s0 i0|error s0 i0];
    injection Ex as -> ->.
  - injection Ey as <- <-. unfold record. cbn.
    destruct (record_all_ok (get_last_height s) (take 64 votes) (mkRecording s i ∅ 0 []) Hi) as [H1 H2]. split; [|exact H2].
    unfold votes_ok, prune_votes. cbn. by apply split_off_ok.
  - unfold own_votes in Ey. destruct keys as [|k keys]; [by injection Ey as <- <-|]. destruct (opt_test _ _); [by injection Ey as <- <-|].
    set (l := List.filter _ _) in Ey. assert (Hl : Forall signs l).
    { apply Forall_forall. intros x Hx. apply list_elem_of_In, filter_In in Hx as [Hx _]. rewrite Forall_forall in Hk. by apply Hk, list_elem_of_In. }
    pose proof (sign_all_ok h id l Hid Hl (i, []) Hi) as Hs. destruct (foldl _ _ l) as [i1 out]. cbn in Hs. cbn [fst] in Ey.
    injection Ey as <- <-. set (i2 := match out with [] => _ | _ => _ end).
    assert (Hi2 : votes_ok i2) by (unfold i2; destruct out; [destruct (_ <=? _)|]; done). split; [done|by apply try_certify_tracks].
  - injection Ey as <- <-. split; [done|apply adopt_cert_tracks].
  - injection Ey as <- <-. split; [done|apply adopt_proof_tracks].
  - injection Ey as <- <-. done.
Qed.

(** Every certificate the tracker stores (from votes it heard, from its own votes, or taken over
    from a peer) has a quorum of votes of different keys, each with a signature that verifies for its
    height and block, and names the block the chain has at that height; votes that do not verify
    never get into the tracker, and the chain itself is left alone. *)
Theorem certificates_sound s i s' i' (Hi : votes_ok i) (H : tracker_step (s, i) (s', i')) : votes_ok i' /\ certified s s'.
Proof. apply tracker_tracks in H as [H1 H2]; [|done]. split; [done|by apply track_certified]. Qed.

(** ** One vote for a height *)

(** What a node does with its tracker, on whatever chain it has at the time; the votes it signs. *)
Inductive Action : Type :=
| ActVote (now : Z) (keys : list KeyPair) (height : Z) (block_id : string) (s : Store)
| ActRecord (votes : list FinalityVote) (s : Store).

Definition act (a : Action) i : Inner * list FinalityVote :=
  match a with
  | ActVote now keys h id s => let '(_, i, out) := own_votes n now keys h id s i in (i, out)
  | ActRecord votes s => ((record n votes s i).1.1.2, [])
  end.

Fixpoint acts (l : list Action) i : Inner * list FinalityVote :=
  match l with
  | [] => (i, [])
  | a :: l => let '(i, out) := act a i in let '(i, outs) := acts l i in (i, out ++ outs)
  end.

(** The tip is never more than the window above the height. *)
Definition in_window (h : Z) (a : Action) : Prop :=
  match a with ActVote _ _ _ _ _ => True | ActRecord _ s => get_last_height s <= h + KEEP_BEHIND end.

Lemma record_vote_own tip r v : (record_vote tip r v).(rc_inner).(in_own) = r.(rc_inner).(in_own).
Proof.
  unfold Finality.record_vote. set (x := if in_range tip v then _ else _). destruct x as [cache active].
  destruct (_ || _); [done|]. destruct (conflict_of _ v) as [[id sig]|]; [|done].
  by destruct (adopt_proof n _ (rc_store r)) as [s' [[]|]].
Qed.

Lemma record_own votes s i : (record n votes s i).1.1.2.(in_own) = split_off (sat_sub (get_last_height s) KEEP_BEHIND) i.(in_own).
Proof.
  unfold record. cbn. f_equal. generalize (take 64 votes). intros l.
  assert (H : forall r, in_own (rc_inner (foldl (record_vote (get_last_height s)) r l)) = in_own (rc_inner r)).
  { induction l as [|v l IH]; intros r; cbn [foldl]; [done|]. by rewrite IH, record_vote_own. }
  apply H.
Qed.

Lemma sign_vote_names k h id v : sign_vote k h id = Some v -> v.(fv_height) = h /\ v.(fv_block_id) = id.
Proof. unfold sign_vote. destruct (sign_schnorr_legacy _ _); cbn; [|done]. by intros [= <-]. Qed.

Lemma sign_all h id keys : forall st, Forall (fun v => v.(fv_height) = h /\ v.(fv_block_id) = id) st.2 ->
  (foldl (sign_with h id) st keys).1.(in_own) = st.1.(in_own) /\
  Forall (fun v => v.(fv_height) = h /\ v.(fv_block_id) = id) (foldl (sign_with h id) st keys).2.
Proof.
  induction keys as [|k keys IH]; intros st Hst; cbn [foldl]; [done|].
  assert (Hs : in_own (sign_with h id st k).1 = in_own st.1 /\ Forall (fun v => fv_height v = h /\ fv_block_id v = id) (sign_with h id st k).2).
  { unfold sign_with. destruct (sign_vote k h id) as [v|] eqn:Hv; [|done]. split; [done|]. cbn [snd]. apply Forall_app. split; [done|].
    constructor; [by eapply sign_vote_names|constructor]. }
  destruct Hs as [E1 Hs]. destruct (IH _ Hs) as [E2 H2]. split; [congruence|done].
Qed.

(** What one action does to the votes for [h]. *)
Lemma act_height h a i : 0 <= h -> in_window h a ->
  let '(i', out) := act a i in
  (forall id, i.(in_own) !! h = Some id -> i'.(in_own) !! h = Some id) /\
  Forall (fun v => v.(fv_height) = h -> i'.(in_own) !! h = Some v.(fv_block_id)) out.
Proof.
  intros H0 Hw. destruct a as [now keys h' id s|votes s]; cbn [act].
  - unfold own_votes. destruct keys as [|k keys]; [by split; [|constructor]|].
    destruct (opt_test _ _) eqn:Hg; [by split; [|constructor]|]. set (l := List.filter _ _).
    destruct (sign_all h' id l (i, [])) as [H1 H2]; [constructor|]. destruct (foldl _ _ l) as [i1 out]. cbn [fst snd] in H1, H2. destruct out as [|v out].
    { split; [|constructor]. intros id' Hid. destruct (_ <=? _); cbn; by rewrite H1. }
    cbn [note_own on_own in_own]. rewrite H1. split.
    + intros id' Hid. destruct (decide (h' = h)) as [->|Hne]; [|by rewrite lookup_insert_ne].
      rewrite Hid in Hg. cbn in Hg. apply negb_false_iff, String.eqb_eq in Hg as ->. apply lookup_insert_eq.
    + eapply Forall_impl; [exact H2|]. intros w [Hh Hi] He. rewrite <-He, Hh, Hi. apply lookup_insert_eq.
  - split; [|constructor]. intros id Hid. rewrite record_own. unfold split_off. apply map_lookup_filter_Some. split; [done|].
    unfold in_window in Hw. unfold sat_sub, KEEP_BEHIND in *. cbn [fst]. lia.
Qed.

Lemma acts_height h l : 0 <= h -> Forall (in_window h) l -> forall i,
  let '(i', out) := acts l i in
  (forall id, i.(in_own) !! h = Some id -> i'.(in_own) !! h = Some id) /\
  Forall (fun v => v.(fv_height) = h -> i'.(in_own) !! h = Some v.(fv_block_id)) out.
Proof.
  intros H0. induction 1 as [|a l Ha _ IH]; intros i; cbn [acts]; [by split; [|constructor]|].
  pose proof (act_height h a i H0 Ha) as H1. destruct (act a i) as [i1 out]. destruct H1 as [K1 O1].
  specialize (IH i1). destruct (acts l i1) as [i2 outs]. destruct IH as [K2 O2]. split; [auto|].
  apply Forall_app. split; [|done]. eapply Forall_impl; [exact O1|]. cbn. auto.
Qed.

(** C16: a node votes for one block at a height.  Over any sequence of own votes and votes heard, with
    any keys, through rollbacks and other chains, all votes the node signs for a height name the same
    block, as long as the tip stays within 120 blocks of it (the tracker forgets older heights). *)
Theorem one_vote_per_height h l i (H0 : 0 <= h) (H : Forall (in_window h) l) :
  forall v w, v ∈ (acts l i).2 -> w ∈ (acts l i).2 -> v.(fv_height) = h -> w.(fv_height) = h -> v.(fv_block_id) = w.(fv_block_id).
Proof.
  intros v w Hv Hw Hh Hh'. pose proof (acts_height h l H0 H i) as Ha. destruct (acts l i) as [i' out]. destruct Ha as [_ Ha].
  rewrite Forall_forall in Ha. pose proof (Ha v Hv Hh) as E1. pose proof (Ha w Hw Hh') as E2. congruence.
Qed.

(** ** Two certificates *)

Lemma size_set_le (l : list string) : (size (list_to_set l : gset string) <= length l)%nat.
Proof.
  induction l as [|x l IH]; cbn [list_to_set length]; [by rewrite size_empty|].
  rewrite size_union_alt, size_singleton. assert (Hle : list_to_set l ∖ {[x]} ⊆ (list_to_set l : gset string)) by set_solver.
  apply subseteq_size in Hle. lia.
Qed.

(** The key sets of two quorums of one set meet. *)
Lemma quorums_meet {A} (l : list string) (m1 m2 : gmap string A) :
  (forall k, is_Some (m1 !! k) -> k ∈ l) -> (forall k, is_Some (m2 !! k) -> k ∈ l) ->
  Z.of_nat (length l) < Z.of_nat (size m1) + Z.of_nat (size m2) -> exists k x y, m1 !! k = Some x /\ m2 !! k = Some y.
Proof.
  intros H1 H2 Hlt. destruct (decide (dom m1 ∩ dom m2 = ∅)) as [Hd|Hd].
  - exfalso. assert (Hsub : dom m1 ∪ dom m2 ⊆ list_to_set (C := gset string) l).
    { intros k Hk. apply elem_of_list_to_set. apply elem_of_union in Hk as [Hk|Hk]; apply elem_of_dom in Hk; auto. }
    apply subseteq_size in Hsub. rewrite size_union in Hsub by set_solver. rewrite !size_dom in Hsub.
    pose proof (size_set_le l). lia.
  - apply set_choose_L in Hd as [k Hk]. apply elem_of_intersection in Hk as [Hk1 Hk2]. apply elem_of_dom in Hk1 as [x Hx], Hk2 as [y Hy]. eauto.
Qed.

Lemma contains_elem l x : contains l x = true <-> x ∈ l.
Proof.
  unfold contains. rewrite existsb_exists, list_elem_of_In. split; [|intros H; exists x; by rewrite String.eqb_refl].
  intros (y & Hy & ->%String.eqb_eq). done.
Qed.

Lemma active_snapshot s h l : get_round s (round_of n h) = Some l -> active_set n s h ≡ₚ dr_public_key <$> l /\ ranked_set n s h = dr_public_key <$> l.
Proof.
  intros Hr. unfold active_set, ranked_set, forging_order_or_live. rewrite Hr. split; [|done]. by rewrite (proj2 (shuffle_correct _ _)).
Qed.

(** A certificate a node has taken over. *)
Lemma adopted_votes cert s s' b : adopt_certificate n cert s = (s', Ok b) ->
  quorum_at cert.(fc_height) <= Z.of_nat (size cert.(fc_votes)) /\
  map_Forall (fun pk sig => pk ∈ active_set n s cert.(fc_height) /\
                verify_vote (mkVote cert.(fc_height) cert.(fc_block_id) pk sig) = true) cert.(fc_votes).
Proof.
  unfold adopt_certificate. destruct (Z.ltb_spec (Z.of_nat (size (fc_votes cert))) (quorum_at (fc_height cert))); [done|].
  destruct (rfold _ _ _) as [u|] eqn:Hf; [|done]. intros _. split; [done|].
  intros pk sig Hpk. apply elem_of_bt_entries in Hpk. revert Hf Hpk. generalize (bt_entries (fc_votes cert)) tt.
  intros l. induction l as [|q l IH]; intros t0 Hf Hin; [by apply elem_of_nil in Hin|]. cbn in Hf. apply rbind_ok_inv in Hf as (t1 & Hq & Hf).
  apply elem_of_cons in Hin as [<-|Hin]; [|by eapply IH]. unfold check_cert_vote in Hq. cbn [fst snd] in Hq.
  destruct (contains (active_set n s (fc_height cert)) pk) eqn:Hc; cbn in Hq; [|done]. apply contains_elem in Hc.
  split; [done|]. by destruct (verify_vote _).
Qed.

Lemma adopted_true cert s : (adopt_certificate n cert s).2 = Ok true -> adopt_certificate n cert s = (put_finality_cert cert s, Ok true).
Proof.
  unfold adopt_certificate. destruct (_ <? _); [done|]. destruct (rfold _ _ _); [|done]. destruct (own_block_id _ _ _); [|done].
  destruct (negb _); [done|]. by destruct (is_final _ _).
Qed.

(** C28: two certificates convict.  If two nodes that took the same snapshot of the round accept
    certificates for two blocks at one height, there is a delegate whose two votes form a proof that
    every node with that snapshot accepts: more than a third of the round has to double-vote, and
    each of them can be named. *)
Theorem certificates_convict s1 s2 s3 c1 c2 s1' s2' b1 b2 l
    (H1 : adopt_certificate n c1 s1 = (s1', Ok b1)) (H2 : adopt_certificate n c2 s2 = (s2', Ok b2))
    (Hh : c1.(fc_height) = c2.(fc_height)) (Hid : c1.(fc_block_id) <> c2.(fc_block_id))
    (R1 : get_round s1 (round_of n c1.(fc_height)) = Some l) (R2 : get_round s2 (round_of n c1.(fc_height)) = Some l)
    (R3 : get_round s3 (round_of n c1.(fc_height)) = Some l) (Hq : Z.of_nat (length l) < 2 * quorum_at c1.(fc_height)) :
  exists pk x y, c1.(fc_votes) !! pk = Some x /\ c2.(fc_votes) !! pk = Some y /\
    forall detected until, verify_proof n s3 (mkEquivocation c1.(fc_height) pk (c1.(fc_block_id), c2.(fc_block_id)) (x, y) detected until) = Ok tt.
Proof.
  apply adopted_votes in H1 as [Q1 V1], H2 as [Q2 V2]. rewrite <-Hh in Q2, V2.
  destruct (active_snapshot _ _ _ R1) as [A1 _], (active_snapshot _ _ _ R2) as [A2 _], (active_snapshot _ _ _ R3) as [_ A3].
  destruct (quorums_meet (dr_public_key <$> l) c1.(fc_votes) c2.(fc_votes)) as (pk & x & y & Hx & Hy).
  - intros k [x Hx]. rewrite <-A1. by apply (V1 k x).
  - intros k [y Hy]. rewrite <-A2. by apply (V2 k y).
  - rewrite length_fmap. lia.
  - exists pk, x, y. split_and!; [done|done|]. intros detected until. unfold verify_proof.
    cbn [eq_height eq_public_key eq_block_ids eq_signatures fst snd].
    destruct (V1 _ _ Hx) as [Hin Hvx], (V2 _ _ Hy) as [_ Hvy]. apply String.eqb_neq in Hid. rewrite Hid.
    assert (Hc : contains (ranked_set n s3 (fc_height c1)) pk = true) by (apply contains_elem; rewrite A3, <-A1; done).
    by rewrite Hc, Hvx, Hvy.
Qed.

(** ** Avoiding the ban *)

Lemma filter_perm {A} (f : A -> bool) l1 l2 : l1 ≡ₚ l2 -> List.filter f l1 ≡ₚ List.filter f l2.
Proof.
  induction 1 as [|x l1 l2 _ IH|x y l|l1 l2 l3 _ IH1 _ IH2]; cbn.
  - done.
  - destruct (f x); [by rewrite IH|done].
  - destruct (f x), (f y); try done. by constructor.
  - by rewrite IH1.
Qed.

Lemma history_new s p : (forall k q, s.(st_equivocations) !! k = Some q -> k.1 <> p.(eq_public_key)) ->
  equivocation (put_equivocation p s) p.(eq_public_key) = Some p.
Proof.
  intros Hn. unfold equivocation, equivocation_history. set (m := st_equivocations (put_equivocation p s)).
  assert (Hm : m = <[(p.(eq_public_key), p.(eq_height)) := p]> s.(st_equivocations)) by done.
  assert (Hnone : s.(st_equivocations) !! (p.(eq_public_key), p.(eq_height)) = None).
  { apply eq_None_not_Some. intros [q Hq]. by apply (Hn _ _ Hq). }
  assert (Hperm : List.filter (fun q => String.eqb q.1.1 p.(eq_public_key)) (map_to_list m) ≡ₚ [((p.(eq_public_key), p.(eq_height)), p)]).
  { rewrite Hm. rewrite (filter_perm _ _ _ (map_to_list_insert _ _ p Hnone)). cbn. rewrite String.eqb_refl. constructor.
    assert (Hall : Forall (fun q => String.eqb q.1.1 p.(eq_public_key) = false) (map_to_list s.(st_equivocations))).
    { apply Forall_forall. intros [k q] Hq. apply elem_of_map_to_list in Hq. apply String.eqb_neq. by apply (Hn k q). }
    induction Hall as [|q l Hq _ IH]; cbn; [done|]. by rewrite Hq. }
  assert (Hs : sort_by eq_height_le (snd <$> List.filter (fun q => String.eqb q.1.1 p.(eq_public_key)) (map_to_list m)) = [p]).
  { apply Permutation_singleton_r. rewrite sort_by_Permutation, Hperm. done. }
  by rewrite Hs.
Qed.

Lemma elem_of_dedup l x : x ∈ dedup l -> x ∈ l.
Proof.
  induction l as [|y l IH]; cbn; [done|]. destruct l as [|z l]; [done|]. destruct (decide (y = z)).
  - intros H. right. by apply IH.
  - intros H. apply elem_of_cons in H as [->|H]; [left|right]. by apply IH.
Qed.

(** A delegate that voted twice can keep its seat.  The ban of an adopted proof is the smaller of
    the number the proof carries and the node's own, and a second proof for the same height is not
    taken: whoever first spreads the proof with [banned_until_round] zero makes the node store it
    without a ban, and the honest proof that follows is dropped, so the delegate is banned from no
    round. *)
Theorem ban_evaded s p height round
    (Hv : verify_proof n s p = Ok tt) (H0 : 0 <= ban_end n s) (Hr : 0 <= round)
    (Hn : forall k q, s.(st_equivocations) !! k = Some q -> k.1 <> p.(eq_public_key) /\ q.(eq_public_key) <> p.(eq_public_key)) :
  exists s', adopt_proof n (with_ban 0 p) s = (s', Ok true) /\ adopt_proof n p s' = (s', Ok false) /\
    p.(eq_public_key) ∉ banned_delegates n s' round height.
Proof.
  assert (Hnone : equivocation s p.(eq_public_key) = None).
  { unfold equivocation, equivocation_history. assert (Hf : List.filter (fun q => String.eqb q.1.1 p.(eq_public_key)) (map_to_list s.(st_equivocations)) = []).
    { assert (Hall : Forall (fun q => String.eqb q.1.1 p.(eq_public_key) = false) (map_to_list s.(st_equivocations))).
      { apply Forall_forall. intros [k q] Hq. apply elem_of_map_to_list in Hq. apply String.eqb_neq. by apply (Hn k q). }
      induction Hall as [|q l Hq _ IH]; cbn; [done|]. by rewrite Hq. }
    by rewrite Hf. }
  set (p0 := with_ban 0 p). assert (Hmin : with_ban (Z.min 0 (ban_end n s)) p0 = p0) by (unfold p0, with_ban; cbn; by rewrite Z.min_l).
  exists (put_equivocation p0 s). split_and!.
  - unfold adopt_proof. assert (Hv0 : verify_proof n s p0 = Ok tt) by (rewrite <-Hv; done). rewrite Hv0. change (eq_public_key p0) with (eq_public_key p) in *. cbn zeta.
    change (eq_banned_until_round p0) with 0. rewrite Hmin. change (eq_public_key p0) with (eq_public_key p). by rewrite Hnone.
  - unfold adopt_proof. assert (Hv' : verify_proof n (put_equivocation p0 s) p = Ok tt) by (rewrite <-Hv; done). rewrite Hv'.
    cbn [with_ban eq_public_key eq_height]. change (eq_public_key p) with (eq_public_key p0).
    rewrite (history_new s p0) by (intros k q Hq; by apply (Hn k q)). change (eq_height p) with (eq_height p0). cbn [opt_test].
    by rewrite Z.leb_refl.
  - unfold banned_delegates. destruct (negb _); [apply not_elem_of_nil|]. intros Hin. apply elem_of_dedup in Hin.
    apply list_elem_of_fmap in Hin as (q & Hpk & Hq). apply list_elem_of_filter in Hq as [Hb Hq]. unfold equivocations in Hq.
    apply list_elem_of_fmap in Hq as ([k q'] & -> & Hq). rewrite sort_by_Permutation in Hq. apply elem_of_map_to_list in Hq.
    cbn [put_equivocation on_equivocations st_equivocations] in Hq. cbn [snd] in *.
    apply lookup_insert_Some in Hq as [[_ <-]|[_ Hq]]; [cbn in Hb; lia|]. by apply (Hn _ _ Hq).
Qed.
End facts.
