(* ===== verification/Ledger.v ===== *)
(** * What a running node does to its chain

    The abstract specification of the node: whatever path a block comes in by, the store changes in four ways only (a certificate and a proof of the finality tracker are one)
    ([ledger_step]), each under the apply lock of [src/src/storage.rs].  Two invariants are proved against it, so they
    hold for every interleaving of the tasks: the stored blocks are the heights up to the tip without a gap, and in
    hard finality mode the history up to a certificate never changes.  [Node] shows that the handlers refine it. *)

From S2P Require Import Prelude Floats Models Env Bytes Crypto Keys Config TxCodec BlockCodec BlockVerify Wallet Rules Round Tree.
From S2P Require Import Storage StorageFacts Deltas Chain ChainFacts ChainRounds Sync SyncFacts Intake Finality FinalityFacts.

(** Heights are [u64]; the greatest alone has no successor.  Blocks of the legacy network and of the store have heights
    of four bytes. *)
Definition low (b : Block) : Prop := 0 <= b.(b_height) < u64_max.

Section ledger.
Context `{E : Env} `{SG : Signer}.
Variable n : Network.
Implicit Types (s : Store) (blocks : list Block).

(** The changes. *)
Inductive ledger_step : Store -> Store -> Prop :=
| ls_accept verify undo epoch unix_ms blocks tip s : Forall low blocks ->
    ledger_step s (sync_apply_blocks n s verify undo epoch unix_ms blocks tip).1.1
| ls_rollback height s : ledger_step s (rollback_to n s height).1
| ls_swap undo ours theirs s : ledger_step s (prefer_earlier_slot n undo s ours theirs).1
| ls_track s s' : track n s s' -> ledger_step s s'.

(** ** What an application leaves *)

(** [s'] is [s] with blocks on top of its tip, without a gap. *)
Record grows s s' : Prop := {
  gr_certs : s'.(st_finality) = s.(st_finality);
  gr_tip : get_last_height s <= get_last_height s' < u64_max;
  gr_below : forall k, k <= get_last_height s -> s'.(st_blocks) !! k = s.(st_blocks) !! k;
  gr_between : forall k, get_last_height s < k <= get_last_height s' -> is_Some (s'.(st_blocks) !! k);
  gr_above : forall k, get_last_height s' < k -> s'.(st_blocks) !! k = s.(st_blocks) !! k
}.

Definition spine s := (s.(st_blocks), s.(st_finality), s.(st_last_height)).

Lemma ledger_spine s s' : ledger s' = ledger s -> spine s' = spine s.
Proof. intros H. apply ledger_parts in H as (B & _ & _ & _ & _ & F & _ & L). unfold spine. congruence. Qed.

Lemma grows_same s s' : spine s' = spine s -> get_last_height s < u64_max -> grows s s'.
Proof.
  intros H Hb. injection H as B F L.
  assert (Hl : get_last_height s' = get_last_height s) by (unfold get_last_height; by rewrite L). split; rewrite ?Hl, ?B; (done || lia).
Qed.
Lemma grows_refl s : get_last_height s < u64_max -> grows s s.
Proof. by apply grows_same. Qed.

Lemma grows_trans s1 s2 s3 : grows s1 s2 -> grows s2 s3 -> grows s1 s3.
Proof.
  intros [C1 T1 B1 W1 A1] [C2 T2 B2 W2 A2]. split.
  - congruence.
  - lia.
  - intros k Hk. rewrite B2 by lia. by apply B1.
  - intros k Hk. destruct (decide (k <= get_last_height s2)); [rewrite B2 by done; apply W1; lia|apply W2; lia].
  - intros k Hk. rewrite A2 by lia. apply A1. lia.
Qed.

(** Heights that follow each other. *)
Definition consecutive blocks : Prop := exists a, b_height <$> blocks = seqZ a (Z.of_nat (length blocks)).

Lemma consecutive_app l1 l2 : consecutive (l1 ++ l2) -> consecutive l1 /\ consecutive l2.
Proof.
  intros [a H]. rewrite fmap_app, length_app, Nat2Z.inj_add, seqZ_app in H by lia.
  apply app_inj_1 in H as [H1 H2]; [split; eexists; eassumption|]. by rewrite length_fmap, length_seqZ, Nat2Z.id.
Qed.

Lemma consecutive_concat (ls : list (list Block)) : consecutive (concat ls) -> Forall consecutive ls.
Proof.
  induction ls as [|l ls IH]; intros H; constructor; [by apply consecutive_app in H as [? _]|]. apply IH. by apply consecutive_app in H as [_ ?].
Qed.

Lemma consecutive_cons b blocks : consecutive (b :: blocks) -> b_height <$> blocks = seqZ (b.(b_height) + 1) (Z.of_nat (length blocks)).
Proof.
  intros [a H]. cbn [fmap list_fmap length] in H. rewrite seqZ_cons in H by lia. injection H as -> H. rewrite H. f_equal; lia.
Qed.

(** The writes of one sled transaction, the first block being the successor of the tip. *)
Lemma write_blocks_grow prepared s s' :
  rfold (fun s (p : Block * list byte) => write_block p.1 p.2 n.(n_pubkey_hash) s) prepared s = Ok s' ->
  b_height <$> prepared.*1 = seqZ (get_last_height s + 1) (Z.of_nat (length prepared)) -> Forall low prepared.*1 ->
  get_last_height s < u64_max -> grows s s'.
Proof.
  revert s; induction prepared as [|[b enc] prepared IH]; intros s H Hh Hl Hb; cbn [rfold] in H; [apply Ok_inj in H as <-; by apply grows_refl|].
  apply rbind_ok_inv in H as (s1 & H1 & H). cbn [fst snd] in H1. apply write_block_ok in H1 as (B & S & L). unfold state in S. injection S as _ _ _ _ F _.
  cbn [fmap list_fmap length fst] in Hh, Hl. rewrite seqZ_cons in Hh by lia. injection Hh as H0 Hh. apply Forall_cons in Hl as [Hb0 Hl]. unfold low in Hb0.
  rewrite H0 in L. rewrite (proj2 (Z.ltb_lt _ _)) in L by lia. assert (Hl1 : get_last_height s1 = get_last_height s + 1) by (unfold get_last_height at 1; by rewrite L).
  apply (grows_trans s s1 s').
  - split; rewrite ?Hl1, ?B, ?H0; [done|lia|..]; intros k Hk.
    + apply lookup_insert_ne. lia.
    + assert (k = get_last_height s + 1) as -> by lia. rewrite lookup_insert_eq. by eexists.
    + apply lookup_insert_ne. lia.
  - apply (IH s1 H); [|done|lia]. rewrite Hl1, Hh. f_equal; lia.
Qed.

Lemma prepared_heights blocks prepared : rmapM (prepare_block n) blocks = Ok prepared -> b_height <$> prepared.*1 = b_height <$> blocks.
Proof.
  revert prepared; induction blocks as [|b blocks IH]; intros prepared H; cbn in H; [by apply Ok_inj in H as <-|].
  apply rbind_ok_inv in H as ([b' enc] & Hb & H). apply rbind_ok_inv in H as (l & Hl & H). apply Ok_inj in H as <-. cbn.
  by rewrite (prepare_block_height n _ _ _ Hb), (IH _ Hl).
Qed.

Lemma low_heights l1 l2 : b_height <$> l1 = b_height <$> l2 -> Forall low l2 -> Forall low l1.
Proof. unfold low. intros H H2. apply (Forall_fmap b_height (fun h => 0 <= h < u64_max)). rewrite H. by apply Forall_fmap. Qed.

Lemma commit_grows b enc prepared ds undo s s' : consecutive (b :: prepared.*1) -> Forall low (b :: prepared.*1) ->
  0 < get_last_height s < u64_max -> commit n s b ((b, enc) :: prepared) ds undo = Ok s' -> grows s s'.
Proof.
  intros Hc Hl Hb H. unfold commit in H. apply rbind_ok_inv in H as ([] & Ht & H). apply rbind_ok_inv in H as ([[s2 ur] out] & Hw & H).
  apply rbind_ok_inv in H as (s3 & Hwr & H). apply Ok_inj in H as <-. apply check_tip_ok in Ht.
  pose proof Hl as Hl'. apply Forall_cons in Hl' as [Hb0 _]. unfold low in Hb0. rewrite as_u64_id in Ht by (bounds; lia).
  apply write_wallets_ok in Hw as (_ & _ & _ & Hch). unfold chain in Hch. injection Hch as B _ _ _ _ _ _ F _ L _.
  assert (H2 : grows s s2) by (apply grows_same; [unfold spine; congruence|lia]). pose proof (gr_tip _ _ H2) as Hl2.
  assert (Hl2' : get_last_height s2 = get_last_height s) by (unfold get_last_height; by rewrite L).
  assert (H3 : grows s2 s3).
  { apply (write_blocks_grow _ _ _ Hwr); [|done|lia]. apply consecutive_cons in Hc. cbn [fmap list_fmap length fst].
    rewrite seqZ_cons by lia. rewrite Hc, length_fmap. f_equal; [lia|]. f_equal; lia. }
  pose proof (gr_tip _ _ H3) as Hl3. apply (grows_trans s s2 _ H2), (grows_trans s2 s3 _ H3).
  destruct undo; [|apply grows_refl; cbn [fst]; lia]. apply grows_same; [|lia]. unfold spine. by destruct (keep_undo_parts (b_height b) ur s3) as (-> & _ & _ & -> & -> & _).
Qed.

Lemma apply_locked_grows blocks force undo s : consecutive blocks -> Forall low blocks -> 0 < get_last_height s < u64_max ->
  grows s (apply_locked n s blocks force undo).1.
Proof.
  intros [a Hc] Hl Hb. unfold apply_locked. destruct (rmapM _ _) as [prepared|e] eqn:Hp; [|apply grows_refl; cbn [fst]; lia].
  apply prepared_heights in Hp. destruct (batch_deltas _ _ _) as [ds|e]; [|apply grows_refl; cbn [fst]; lia].
  pose proof (low_heights _ _ Hp Hl) as Hlp.
  assert (Hcp : consecutive prepared.*1).
  { exists a. rewrite Hp, Hc. f_equal. apply (f_equal length) in Hp. rewrite !length_fmap in Hp. by rewrite length_fmap, Hp. }
  destruct prepared as [|[b enc] prepared]; cbn [fmap list_fmap fst] in *; [apply grows_refl; cbn [fst]; lia|].
  destruct (commit _ _ _ _ _ _) as [s1|e] eqn:Hcm; [|apply grows_refl; cbn [fst]; lia].
  pose proof (commit_grows _ _ _ _ _ _ _ Hcp Hlp Hb Hcm) as Hg. apply (grows_trans s s1 _ Hg). pose proof (gr_tip _ _ Hg).
  apply grows_same; [|lia]. apply ledger_spine. rewrite (record_all_frame n ledger) by done. destruct (last _); [|done]. by rewrite (snapshot_frame n ledger).
Qed.

Lemma run_all_grows {A} (f : Store -> A -> Store * Exit) (l : list A) s : 0 < get_last_height s < u64_max ->
  (forall s x, x ∈ l -> 0 < get_last_height s < u64_max -> grows s (f s x).1) -> grows s (run_all f l s).1.
Proof.
  revert s; induction l as [|x l IH]; intros s Hb Hf; cbn [run_all]; [apply grows_refl; cbn [fst]; lia|].
  pose proof (Hf s x ltac:(by left) Hb) as Hg. destruct (f s x) as [s1 []]; cbn [fst] in *; [|done..]. apply (grows_trans s s1 _ Hg).
  pose proof (gr_tip _ _ Hg). apply IH; [lia|]. intros s2 y Hy. apply Hf. by right.
Qed.

Lemma consecutive_one b : consecutive [b].
Proof. exists b.(b_height). cbn. by rewrite seqZ_cons by lia. Qed.

Lemma apply_blocks_grows blocks undo s : consecutive blocks -> Forall low blocks -> 0 < get_last_height s < u64_max ->
  grows s (apply_blocks n s blocks undo).1.
Proof.
  intros Hc Hl Hb. destruct blocks as [|b [|b2 blocks]]; [apply grows_refl, Hb|by apply apply_locked_grows|].
  cbn [apply_blocks]. destruct undo.
  - apply run_all_grows; [done|]. intros s1 x Hx Hb1. apply apply_locked_grows; [apply consecutive_one| |done].
    constructor; [|constructor]. rewrite Forall_forall in Hl. by apply Hl.
  - rewrite bulk_run. pose proof (batches_concat n [] (b :: b2 :: blocks) ltac:(done)) as Hcat. cbn [app] in Hcat.
    rewrite <- Hcat in Hc, Hl. apply consecutive_concat in Hc. apply Forall_concat in Hl.
    apply run_all_grows; [done|]. intros s1 l Hin Hb1. rewrite Forall_forall in Hc, Hl. apply apply_locked_grows; auto.
Qed.

Lemma linked_consecutive now_ms blocks : forall tip tip', rfold (link n now_ms) blocks tip = Ok tip' -> Forall low blocks ->
  b_height <$> blocks = seqZ (as_u64 (tip.(tip_height) + 1)) (Z.of_nat (length blocks)).
Proof.
  induction blocks as [|b blocks IH]; intros tip tip' H Hl; cbn [rfold] in H; [done|]. apply rbind_ok_inv in H as (t & Ht & H).
  apply link_ok in Ht as (Hh & _ & _ & _ & ->). apply Forall_cons in Hl as [Hb Hl]. specialize (IH _ _ H Hl). cbn [tip_height] in IH. unfold low in Hb.
  rewrite as_u64_id in IH by (bounds; lia). cbn [fmap list_fmap length]. rewrite seqZ_cons by lia. rewrite IH, <- Hh. f_equal. f_equal; lia.
Qed.

Lemma accept_grows verify undo epoch ms blocks tip s : Forall low blocks -> 0 < get_last_height s < u64_max ->
  grows s (sync_apply_blocks n s verify undo epoch ms blocks tip).1.1.
Proof.
  intros Hl Hb. unfold sync_apply_blocks, accept. destruct (rfold (link n ms) blocks tip) as [t|e] eqn:Ht; cbn [rbind]; [|apply grows_refl; cbn [fst]; lia].
  apply linked_consecutive in Ht; [|done]. destruct (rbind _ _) as [t'|e]; [|apply grows_refl; cbn [fst]; lia].
  pose proof (apply_blocks_grows blocks undo s ltac:(by eexists) Hl Hb) as Hg. by destruct (apply_blocks n s blocks undo) as [s1 []].
Qed.

(** ** What a rollback leaves *)

Lemma undo_block_spine s h b undo sy s' : undo_block n s h b undo sy = Ok s' ->
  spine s' = (delete h s.(st_blocks), s.(st_finality), Some (as_u64 (h - 1))).
Proof.
  unfold undo_block. intros H. apply rbind_ok_inv in H as (s2 & H2 & H). apply Ok_inj in H as <-.
  apply (rfold_frame ledger) in H2; [|intros; by eapply undo_tx_ledger]. apply ledger_spine in H2.
  assert (H3 : spine s2 = spine s).
  { rewrite H2, (foldl_frame spine) by (intros; apply ledger_spine, undo_order_ledger).
    rewrite (foldl_frame spine) by (intros s0 p; pose proof (restore_wallet_ok s0 p) as (_ & _ & Hh); unfold history in Hh; unfold spine; congruence).
    by rewrite (foldl_frame spine) by (intros; apply ledger_spine, clear_market_ledger). }
  set (x := as_i64 _). assert (H4 : spine (bump_tx_count x s2) = spine s2) by (unfold bump_tx_count; by destruct (x =? 0)).
  rewrite H3 in H4. injection H4 as B F _. unfold spine. destruct (b_id b); cbn; by rewrite B, F.
Qed.

(** The tip is taken off, or the chain stays; certificates are dropped in soft mode only, and a certified tip stays in hard mode. *)
Record shrinks s s' : Prop := {
  sh_chain : (s'.(st_blocks) = s.(st_blocks) /\ get_last_height s' = get_last_height s) \/
             (1 < get_last_height s /\ s'.(st_blocks) = delete (get_last_height s) s.(st_blocks) /\ get_last_height s' = get_last_height s - 1);
  sh_certs : (milestone n (get_last_height s)).(m_finality).(fp_active) = true -> s'.(st_finality) = s.(st_finality);
  sh_final : (milestone n (get_last_height s)).(m_finality).(fp_active) = true ->
    (exists c, latest_finality_cert s = Some c /\ get_last_height s <= c.(fc_height)) -> s' = s
}.

Lemma rollback_block_shrinks s s' r : rollback_block n s (get_last_height s) = (s', r) -> 1 < get_last_height s <= u64_max ->
  s'.(st_finality) = s.(st_finality) /\
  (s' = s \/ (s'.(st_blocks) = delete (get_last_height s) s.(st_blocks) /\ get_last_height s' = get_last_height s - 1)).
Proof.
  intros H Hb. unfold rollback_block in H. destruct (get_block_by_height _ _ _) as [[b|]|]; [|injection H as <- _; auto..].
  destruct (st_undo s !! _) as [undo|]; [|injection H as <- _; auto].
  match type of H with context [undo_block n s ?h b undo ?sy] => destruct (undo_block n s h b undo sy) as [s2|] eqn:Hu end; [|injection H as <- _; auto].
  apply undo_block_spine in Hu. assert (Hs : spine s' = spine s2).
  { injection H as <- _. destruct (_ =? 0); by rewrite <- (ledger_spine _ _ (drop_missed_ledger s2 (get_last_height s))). }
  rewrite Hu in Hs. injection Hs as B F L. split; [done|]. right. split; [done|]. unfold get_last_height at 1. rewrite L. cbn. apply as_u64_id. bounds. lia.
Qed.

Lemma rollback_shrinks s s' r : rollback_last_block n s = (s', r) -> get_last_height s <= u64_max -> shrinks s s'.
Proof.
  unfold rollback_last_block. intros H Hb. destruct (Z.leb_spec (get_last_height s) 1) as [|H1]; [injection H as <- _; split; auto|].
  assert (Hgo : forall s1, s1.(st_blocks) = s.(st_blocks) -> s1.(st_last_height) = s.(st_last_height) -> rollback_block n s1 (get_last_height s) = (s', r) ->
    s'.(st_finality) = s1.(st_finality) /\ ((s'.(st_blocks) = s.(st_blocks) /\ get_last_height s' = get_last_height s) \/
             (1 < get_last_height s /\ s'.(st_blocks) = delete (get_last_height s) s.(st_blocks) /\ get_last_height s' = get_last_height s - 1))).
  { intros s1 B L Hr. assert (Hl : get_last_height s1 = get_last_height s) by (unfold get_last_height; by rewrite L). rewrite <- Hl in Hr.
    apply rollback_block_shrinks in Hr as (F & [->|[B' L']]); [| |lia]; (split; [done|]); [left|right]; rewrite <- ?B, <- ?Hl; auto with lia. }
  destruct (latest_finality_cert s) as [c|] eqn:Hc.
  - destruct (Z.leb_spec (get_last_height s) c.(fc_height)) as [Hle|Hgt].
    + destruct (fp_active _) eqn:Ha; [injection H as <- _; split; auto|]. apply Hgo in H as [F Hx]; [|done..]. split; [done|congruence..].
    + apply Hgo in H as [F Hx]; [|done..]. split; [done|auto|]. intros _ (c' & Hc' & Hle). rewrite Hc in Hc'. injection Hc' as <-. lia.
  - apply Hgo in H as [F Hx]; [|done..]. split; [done|auto|]. intros _ (c' & Hc' & _). congruence.
Qed.

(** ** Invariants of the changes *)

Section invariant.
Variable P : Store -> Prop.
Hypothesis (Hbound : forall s, P s -> 0 < get_last_height s < u64_max) (Hgrow : forall s s', P s -> grows s s' -> P s').
Hypothesis (Hshrink : forall s s', P s -> shrinks s s' -> P s') (Hcert : forall s c, sound n s c -> P s -> P (put_finality_cert c s)) (Hproof : forall s p, P s -> P (put_equivocation p s)).

Lemma rollback_go_keeps fuel height tip s : P s -> P (rollback_go n fuel s height tip).1.
Proof.
  revert tip s; induction fuel as [|fuel IH]; intros tip s Hs; cbn [rollback_go]; (destruct (_ <=? _); [done|]); [done|].
  pose proof (Hbound s Hs). destruct (rollback_last_block n s) as [s1 [t|e]] eqn:Hr; [apply IH|cbn [fst]]; (eapply Hshrink; [exact Hs|eapply rollback_shrinks; [exact Hr|lia]]).
Qed.

Lemma swap_keeps undo ours theirs s : P s -> P (prefer_earlier_slot n undo s ours theirs).1.
Proof.
  intros Hs. destruct (prefer_cases n undo s ours theirs) as [->|[[Ho Ht _ _ _ _] ->]]; [done|]. pose proof (Hbound s Hs) as Hb.
  assert (Hone : forall s b, P s -> b.(b_height) = get_last_height s \/ low b -> P (apply_blocks n s [b] undo).1).
  { intros s0 b H0 Hlb. pose proof (Hbound s0 H0). apply (Hgrow s0 _ H0). apply apply_blocks_grows; [apply consecutive_one|constructor; [|constructor]|done].
    destruct Hlb as [Hlb|]; [unfold low; lia|done]. }
  unfold swap_tip. pose proof (rollback_go_keeps (Z.to_nat (get_last_height s)) (sat_sub (get_last_height s) 1) (get_last_height s) s Hs) as Hr.
  change (P (rollback_to n s (sat_sub (get_last_height s) 1)).1) in Hr.
  destruct (rollback_to n s _) as [s1 [t|e]]; [|done]. cbn [fst] in Hr.
  pose proof (Hone s1 theirs Hr ltac:(right; unfold low; lia)) as H1. destruct (apply_blocks n s1 [theirs] undo) as [s2 []]; cbn [fst] in *; [done| |done].
  apply (Hone s2 ours H1). right. unfold low. lia.
Qed.

Lemma ledger_keeps s s' : ledger_step s s' -> P s -> P s'.
Proof.
  intros H Hs. destruct H as [verify undo epoch ms blocks tip s Hl|height s|undo ours theirs s|s s' [c s0 Hc|p until s0 _ _]].
  - eapply Hgrow; [exact Hs|]. apply accept_grows; [done|by apply Hbound].
  - by apply rollback_go_keeps.
  - by apply swap_keeps.
  - by apply Hcert.
  - by apply Hproof.
Qed.

Lemma ledger_run_keeps s s' : rtc ledger_step s s' -> P s -> P s'.
Proof. induction 1 as [|s s1 s' H _ IH]; [done|]. intros Hs. apply IH. by eapply ledger_keeps. Qed.
End invariant.

(** Stored blocks are the heights up to the tip. *)
Record gapless s : Prop := {
  gl_tip : 0 < get_last_height s < u64_max;
  gl_blocks : forall k, is_Some (s.(st_blocks) !! k) <-> 1 <= k <= get_last_height s
}.

Lemma gapless_grows s s' : gapless s -> grows s s' -> gapless s'.
Proof.
  intros [T B] [C T' Be Bw Ab]. split; [lia|]. intros k.
  destruct (decide (k <= get_last_height s)); [rewrite Be, B by done; lia|]. destruct (decide (k <= get_last_height s')).
  - split; [lia|]. intros _. apply Bw. lia.
  - rewrite Ab, B by lia. lia.
Qed.

Lemma gapless_shrinks s s' : gapless s -> shrinks s s' -> gapless s'.
Proof.
  intros [T B] [[[E1 E2]|(H1 & E1 & E2)] _ _]; split; rewrite ?E1, ?E2; try done; try lia. intros k. rewrite lookup_delete_is_Some, B. lia.
Qed.

Lemma gapless_kept s s' : rtc ledger_step s s' -> gapless s -> gapless s'.
Proof.
  apply ledger_run_keeps; [by intros s0 []|exact gapless_grows|exact gapless_shrinks|by intros s0 c _ [T B]|by intros s0 c [T B]].
Qed.

(** The history up to the certified height [h] is that of [B]. *)
Record keeps (h : Z) (B : gmap Z (list byte)) s : Prop := {
  ke_certs : certs_ok s;
  ke_cert : is_Some (s.(st_finality) !! h);
  ke_tip : h <= get_last_height s < u64_max;
  ke_blocks : forall k, k <= h -> s.(st_blocks) !! k = B !! k
}.

Lemma keeps_kept h B s s' : 0 < h -> (forall k, h <= k -> (milestone n k).(m_finality).(fp_active) = true) ->
  rtc ledger_step s s' -> keeps h B s -> keeps h B s'.
Proof.
  intros Hh Ha. apply ledger_run_keeps.
  - intros s0 [_ _ T _]. lia.
  - intros s0 s1 [Ok' Ce T Bl] [C T' Be _ _]. split; [unfold certs_ok; by rewrite C|by rewrite C|lia|]. intros k Hk. rewrite Be by lia. by apply Bl.
  - intros s0 s1 [Ok' Ce T Bl] [Ch C Fi]. specialize (C (Ha _ (proj1 T))). split; [unfold certs_ok; by rewrite C|by rewrite C|..].
    + destruct Ch as [[_ ->]|(H1 & _ & E2)]; [done|]. destruct (decide (get_last_height s0 = h)) as [He|]; [|lia].
      destruct Ce as [c Hc]. destruct (latest_cert_max s0 h c Ok' Hc) as (top & Ht & Hle).
      rewrite (Fi (Ha _ (proj1 T))) by (exists top; split; [done|lia]). lia.
    + intros k Hk. destruct Ch as [[-> _]|(H1 & E1 & E2)]; [by apply Bl|]. destruct (decide (get_last_height s0 = h)) as [He|].
      * destruct Ce as [c Hc]. destruct (latest_cert_max s0 h c Ok' Hc) as (top & Ht & Hle).
        rewrite (Fi (Ha _ (proj1 T))) by (exists top; split; [done|lia]). by apply Bl.
      * rewrite E1, lookup_delete_ne by lia. by apply Bl.
  - intros s0 c _ [Ok' Ce T Bl]. split; [by apply put_cert_ok| |done|done]. cbn. apply lookup_insert_is_Some. destruct (decide (fc_height c = h)); auto.
  - intros s0 c [Ok' Ce T Bl]. by split.
Qed.

(** Every stored certificate is for the block the chain has at its height, and carries at least a quorum of votes for it,
    each by another key and with a signature that verifies. *)
Record attested s : Prop := {
  at_gapless : gapless s;
  at_certs : certs_ok s;
  at_chain : forall h c, s.(st_finality) !! h = Some c -> h <= get_last_height s /\ own_block_id n s h = Ok (Some c.(fc_block_id));
  at_quorum : forall h c, s.(st_finality) !! h = Some c ->
    quorum_at n h <= Z.of_nat (size c.(fc_votes)) /\
    forall pk sig, c.(fc_votes) !! pk = Some sig -> verify_vote (mkVote h c.(fc_block_id) pk sig) = true
}.

Lemma own_block_at s s' h : s'.(st_blocks) !! h = s.(st_blocks) !! h -> own_block_id n s' h = own_block_id n s h.
Proof. intros H. unfold own_block_id, get_block_by_height. by rewrite H. Qed.

Lemma attested_kept s s' : (forall k, (milestone n k).(m_finality).(fp_active) = true) -> rtc ledger_step s s' -> attested s -> attested s'.
Proof.
  intros Ha. apply ledger_run_keeps.
  - by intros s0 [[] _ _ _].
  - intros s0 s1 [G Ok' Ch Qu] Hg. split; [eapply gapless_grows; done|unfold certs_ok; by rewrite (gr_certs _ _ Hg)| |by rewrite (gr_certs _ _ Hg)].
    intros h c Hc. rewrite (gr_certs _ _ Hg) in Hc. apply Ch in Hc as [Hh Hid]. pose proof (gr_tip _ _ Hg). split; [lia|].
    rewrite (own_block_at s0 s1) by (by apply (gr_below _ _ Hg)). done.
  - intros s0 s1 [G Ok' Ch Qu] Hd. pose proof (sh_certs _ _ Hd (Ha _)) as C. split; [eapply gapless_shrinks; done|unfold certs_ok; by rewrite C| |by rewrite C].
    intros h c Hc. rewrite C in Hc. pose proof (Ch h c Hc) as [Hh Hid]. destruct (sh_chain _ _ Hd) as [[B ->]|(H1 & B & L)].
    + by rewrite (own_block_at s0 s1) by (by rewrite B).
    + destruct (decide (h = get_last_height s0)) as [->|Hne].
      * destruct (latest_cert_max s0 _ c Ok' Hc) as (top & Ht & Hle). rewrite (sh_final _ _ Hd (Ha _)) in L by eauto. lia.
      * split; [lia|]. rewrite (own_block_at s0 s1); [done|]. rewrite B, lookup_delete_ne; done.
  - intros s0 c Hc [G Ok' Ch Qu]. split; [by destruct G|by apply put_cert_ok|..]; cbn; intros h c' Hc'; apply lookup_insert_Some in Hc' as [[<- <-]|[_ Hc']];
      [| |split; [exact (so_quorum _ _ _ Hc)|exact (so_votes _ _ _ Hc)]|by apply Qu].
    + pose proof (so_chain _ _ _ Hc) as Hid. split; [|exact Hid]. apply (gl_blocks _ G). revert Hid. unfold own_block_id, get_block_by_height.
      destruct (_ !! _); [by eexists|done].
    + apply (Ch h c' Hc').
  - intros s0 c [G Ok' Ch Qu]. split; [by destruct G|done..].
Qed.
End ledger.
