(* ===== verification/ReadsFacts.v ===== *)
(** * What the listings find

    The search for a time on a chain without gaps whose blocks are read back and whose timestamps do not fall. *)

From S2P Require Import Prelude Models Env Bytes Crypto Config TxCodec BlockCodec Wallet Round Tree Storage Chain Sync Intake Finality FinalityFacts Ledger Reads.

(** The least key is the first of a listing. *)
Lemma head_ordered {A} (m : gmap Z A) k x : m !! k = Some x -> (forall j y, m !! j = Some y -> k <= j) -> fst <$> head (ordered Z.le m) = Some k.
Proof.
  intros Hk Hmin. apply (elem_of_ordered Z.le) in Hk. pose proof (ordered_sorted Z.le m) as Hs.
  destruct (ordered Z.le m) as [|[j y] l] eqn:Ho; [by apply not_elem_of_nil in Hk|]. cbn. f_equal.
  assert (Hj : m !! j = Some y) by (apply (elem_of_ordered Z.le); rewrite Ho; by left). specialize (Hmin _ _ Hj).
  apply StronglySorted_inv in Hs as [_ Hs]. apply elem_of_cons in Hk as [[= -> ->]|Hk]; [done|].
  rewrite Forall_forall in Hs. specialize (Hs _ Hk). unfold entry_le in Hs. cbn in Hs. lia.
Qed.

Section search.
Context `{E : Env}.
Variables (n : Network) (s : Store).

(** The chain, its blocks readable, its time not running backwards. *)
Record timeline : Prop := {
  tl_gapless : gapless s;
  tl_read : forall h v, s.(st_blocks) !! h = Some v -> exists b, decode_block v n = Ok b;
  tl_ascend : forall h h' b b', h <= h' -> get_block_by_height n s h = Ok (Some b) -> get_block_by_height n s h' = Ok (Some b') ->
    b.(b_timestamp) <= b'.(b_timestamp)
}.
Hypothesis H : timeline.
#[local] Abbreviation tip := (get_last_height s).

Lemma block_there h : 1 <= h <= tip -> exists b, get_block_by_height n s h = Ok (Some b).
Proof.
  intros Hh. destruct (tl_gapless H) as [_ B]. destruct (B h) as [_ Hx]. destruct (Hx Hh) as [v Hv]. destruct (tl_read H h v Hv) as [b Hb].
  exists b. unfold get_block_by_height. by rewrite Hv, Hb.
Qed.
Lemma block_height_range h b : get_block_by_height n s h = Ok (Some b) -> 1 <= h <= tip.
Proof.
  unfold get_block_by_height. destruct (tl_gapless H) as [_ B]. destruct (st_blocks s !! h) eqn:Hv; [|done]. intros _. apply B. eauto.
Qed.

(** [h] is before, or not before, the time [ts]. *)
Definition before (ts h : Z) : Prop := forall b, get_block_by_height n s h = Ok (Some b) -> b.(b_timestamp) < ts.
Definition since (ts h : Z) : Prop := forall b, get_block_by_height n s h = Ok (Some b) -> ts <= b.(b_timestamp).
(** [r] is the boundary. *)
Definition boundary (ts r : Z) : Prop := (forall h, h < r -> before ts h) /\ (forall h, r <= h -> since ts h).

Lemma halves lo hi k : lo < hi -> hi - lo < 2 * k ->
  lo <= lo + (hi - lo) / 2 < hi /\ (hi - lo) / 2 < k /\ hi - (lo + (hi - lo) / 2 + 1) < k.
Proof.
  intros Hlt Hk. pose proof (Z.div_mod (hi - lo) 2 ltac:(lia)). pose proof (Z.mod_pos_bound (hi - lo) 2 ltac:(lia)). lia.
Qed.

Lemma search_found ts fuel lo hi : 1 <= lo <= hi -> hi <= tip + 1 -> hi - lo < 2 ^ Z.of_nat fuel ->
  (forall h, h < lo -> before ts h) -> (forall h, hi <= h -> since ts h) ->
  exists r, search n (S fuel) s ts lo hi = Ok (Some r) /\ lo <= r <= hi /\ boundary ts r.
Proof.
  assert (Hend : forall f lo hi, lo <= hi -> hi <= lo -> (forall h, h < lo -> before ts h) -> (forall h, hi <= h -> since ts h) ->
    exists r, search n (S f) s ts lo hi = Ok (Some r) /\ lo <= r <= hi /\ boundary ts r).
  { intros f lo' hi' H1 H2 Hb Hs. replace hi' with lo' in * by lia. cbn [search]. rewrite Z.ltb_irrefl. exists lo'. split_and!; (done || lia). }
  revert lo hi; induction fuel as [|fuel IH]; intros lo hi Hlo Hhi Hf Hb Hs; [cbn in Hf; apply Hend; (done || lia)|].
  destruct (decide (lo < hi)) as [Hlt|]; [|apply Hend; (done || lia)].
  rewrite Nat2Z.inj_succ, Z.pow_succ_r in Hf by lia. destruct (halves lo hi _ Hlt Hf) as (Hm & Hl & Hr).
  change (search n (S (S fuel)) s ts lo hi) with
    (if lo <? hi then let mid := lo + (hi - lo) / 2 in let? o := get_block_by_height n s mid in
       match o with Some b => if b.(b_timestamp) <? ts then search n (S fuel) s ts (mid + 1) hi else search n (S fuel) s ts lo mid
                  | None => search n (S fuel) s ts lo mid end else Ok (Some lo)).
  rewrite (proj2 (Z.ltb_lt _ _) Hlt). cbn zeta. set (mid := lo + (hi - lo) / 2) in *.
  destruct (block_there mid) as [b Hmid]; [lia|]. rewrite Hmid. cbn [rbind].
  destruct (Z.ltb_spec b.(b_timestamp) ts) as [Ht|Ht].
  - destruct (IH (mid + 1) hi) as (r & Hr1 & Hr2 & Hr3); [lia|lia|lia| |done|exists r; split_and!; (done || lia)].
    intros h Hh' b' Hb'. pose proof (tl_ascend H h mid b' b ltac:(lia) Hb' Hmid). lia.
  - destruct (IH lo mid) as (r & Hr1 & Hr2 & Hr3); [lia|lia|unfold mid; lia|done| |exists r; split_and!; (done || lia)].
    intros h Hh' b' Hb'. pose proof (tl_ascend H mid h b b' ltac:(lia) Hmid Hb'). lia.
Qed.

Lemma first_is_one : 1 <= tip -> first_height s = 1.
Proof.
  intros Ht. destruct (tl_gapless H) as [_ B]. destruct (proj2 (B 1) ltac:(lia)) as [v Hv].
  unfold first_height. rewrite (head_ordered _ 1 v Hv); [done|]. intros j y Hj. apply B. eauto.
Qed.

(** The binary search ends and finds the first block that is not older. *)
Lemma height_at_or_after_found ts : 1 <= tip -> exists r, height_at_or_after n s ts = Ok (Some r) /\ 1 <= r <= tip + 1 /\ boundary ts r.
Proof.
  intros Ht. unfold height_at_or_after. rewrite first_is_one by done. change (Z.max 1 1) with 1.
  destruct (tl_gapless H) as [Hb _]. rewrite as_u64_id by (bounds; lia). apply search_found; [lia|lia| | |].
  - change (2 ^ Z.of_nat 64) with 18446744073709551616. bounds. lia.
  - intros h Hh b Hg. apply block_height_range in Hg. lia.
  - intros h Hh b Hg. apply block_height_range in Hg. lia.
Qed.

Definition in_time (from to : option Z) (b : Block) : Prop :=
  (forall f, from = Some f -> f <= b.(b_timestamp)) /\ (forall t, to = Some t -> b.(b_timestamp) <= t).
Definition in_heights (r : option (Z * Z)) (h : Z) : Prop := exists lo hi, r = Some (lo, hi) /\ lo <= h <= hi.

Definition from_bound (from : option Z) : Res (option Z) := match from with Some f => height_at_or_after n s f | None => Ok (Some 1) end.
Definition to_bound (to : option Z) : Res (option Z) :=
  match to with Some t => rmap (fmap (fun h => sat_sub h 1)) (height_at_or_after n s (Z.min (t + 1) u32_max)) | None => Ok (Some tip) end.

Lemma range_lo from : 1 <= tip -> exists lo, from_bound from = Ok (Some lo) /\ 1 <= lo /\
  forall h b, get_block_by_height n s h = Ok (Some b) -> ((forall f, from = Some f -> f <= b.(b_timestamp)) <-> lo <= h).
Proof.
  intros Ht. destruct from as [f|]; cbn [from_bound].
  - destruct (height_at_or_after_found f Ht) as (r & Hr & Hb & R1 & R2). exists r. split_and!; [done|lia|]. intros h b Hg. split.
    + intros Hf. specialize (Hf f eq_refl). destruct (decide (r <= h)); [done|]. specialize (R1 h ltac:(lia) b Hg). lia.
    + intros Hh f' [= <-]. by eapply R2.
  - exists 1. split_and!; [done|done|]. intros h b Hg. split; [|done]. intros _. apply block_height_range in Hg. lia.
Qed.

Lemma range_hi to : 1 <= tip -> (forall t, to = Some t -> t < u32_max) -> exists hi, to_bound to = Ok (Some hi) /\
  forall h b, get_block_by_height n s h = Ok (Some b) -> ((forall t, to = Some t -> b.(b_timestamp) <= t) <-> h <= hi).
Proof.
  intros Ht Hto. destruct to as [t|]; cbn [to_bound].
  - specialize (Hto t eq_refl). rewrite Z.min_l by (bounds; lia).
    destruct (height_at_or_after_found (t + 1) Ht) as (r & -> & Hr2 & R1 & R2). eexists. split; [reflexivity|].
    intros h b Hb. pose proof (block_height_range h b Hb). unfold sat_sub. split.
    + intros Hf. specialize (Hf t eq_refl). destruct (decide (r <= h)); [|lia]. specialize (R2 h ltac:(lia) b Hb). lia.
    + intros Hh t' [= <-]. specialize (R1 h ltac:(lia) b Hb). lia.
  - eexists. split; [reflexivity|]. intros h b Hb. apply block_height_range in Hb. split; [lia|done].
Qed.

(** C37: The search for a stretch of time answers with exactly the heights whose blocks lie in it, on every chain without
    gaps whose timestamps do not fall; it always answers, and says nothing when no height is left. *)
Theorem heights_for_timestamps_exact from to (Hto : forall t, to = Some t -> t < u32_max) :
  exists r, heights_for_timestamps n s from to = Ok (Some r) /\
    (forall h b, get_block_by_height n s h = Ok (Some b) -> (in_time from to b <-> in_heights r h)) /\
    (forall lo hi, r = Some (lo, hi) -> 1 <= lo <= hi /\ hi <= tip).
Proof.
  unfold heights_for_timestamps. destruct (Z.eqb_spec tip 0) as [H0|H0].
  { exists None. split_and!; [done| |done]. intros h b Hb. apply block_height_range in Hb. lia. }
  destruct (tl_gapless H) as [Ht _]. assert (Ht1 : 1 <= tip) by lia.
  destruct (range_lo from Ht1) as (lo & El & Bl & Hlo). destruct (range_hi to Ht1 Hto) as (hi & Eh & Hhi).
  unfold from_bound in El. unfold to_bound in Eh. cbv zeta. rewrite El, Eh. cbn [rbind]. eexists. split; [reflexivity|]. split.
  - intros h b Hb. pose proof (block_height_range h b Hb). unfold in_time. rewrite (Hlo h b Hb), (Hhi h b Hb). unfold in_heights.
    destruct (Z.leb_spec lo hi), (Z.leb_spec lo tip); cbn [andb]; split;
      try (intros (? & ? & [= <- <-] & ?); lia); try (intros (? & ? & ? & ?); done); intros; try lia. eexists _, _. split; [done|lia].
  - intros lo' hi'. destruct (Z.leb_spec lo hi), (Z.leb_spec lo tip); cbn [andb]; try done. intros [= <- <-]. lia.
Qed.
End search.
