(* ===== verification/Render.v ===== *)
(** * What the node shows of its state

    [src/src/api/render.rs] with the views of [tokens.rs] and [sobj.rs]: blocks, transactions, wallets, locks, tokens,
    orders and SmartObjects as JSON values.  A JSON value is the [Value] of [Models]; the keys of an object are kept in
    order, as serde_json keeps them.  The JSON text of a value and the forms serde derives are the class [JsonText].
    [human_time] is proved to be the calendar. *)

From Stdlib Require Import Floats.SpecFloat.
From S2P Require Import Prelude Floats Models Env Bytes Crypto Config TxCodec BlockCodec Wallet Rules Round Tree Storage Chain Reads.

#[local] Open Scope string_scope.
#[local] Open Scope list_scope.
#[local] Open Scope Z_scope.

(** ** JSON objects *)

Fixpoint o_insert (k : string) (v : Value) (m : list (string * Value)) : list (string * Value) :=
  match m with
  | [] => [(k, v)]
  | (k', v') :: m' => if String.eqb k k' then (k, v) :: m' else if String.ltb k k' then (k, v) :: m else (k', v') :: o_insert k v m'
  end.
Definition o_remove (k : string) (m : list (string * Value)) : list (string * Value) := List.filter (fun e => negb (String.eqb k e.1)) m.
Fixpoint o_get (k : string) (m : list (string * Value)) : option Value :=
  match m with
  | [] => None
  | (k', v) :: m => if String.eqb k k' then Some v else o_get k m
  end.

(** [json!({ .. })]. *)
Definition obj (fields : list (string * Value)) : Value := VObject (foldl (fun m e => o_insert e.1 e.2 m) [] fields).

(** [v[k]], [v[k] = x], and the readers of a value. *)
Definition vget (k : string) (v : Value) : Value := match v with VObject m => default VNull (o_get k m) | _ => VNull end.
Definition vset (k : string) (x v : Value) : Value :=
  match v with VObject m => VObject (o_insert k x m) | VNull => VObject [(k, x)] | v => v end.
Definition as_str (v : Value) : option string := match v with VString s => Some s | _ => None end.
Definition as_number (v : Value) : option Z := match v with VNumber x => if (0 <=? x) && (x <=? u64_max) then Some x else None | _ => None end.
Definition as_bool (v : Value) : option bool := match v with VBool b => Some b | _ => None end.
Definition as_array (v : Value) : option (list Value) := match v with VArray l => Some l | _ => None end.

(** [json!(o)] of an [Option]. *)
Definition vopt {A} (f : A -> Value) (o : option A) : Value := match o with Some x => f x | None => VNull end.
Definition vstr (o : option string) : Value := vopt VString o.
Definition vstrings (l : list string) : Value := VArray (VString <$> l).
Definition field {A} (k : string) (f : A -> Value) (o : option A) : list (string * Value) := match o with Some x => [(k, f x)] | None => [] end.

Class JsonText : Type := {
  (** [serde_json::from_slice::<Value>], [serde_json::to_vec] *)
  json_parse : list byte -> option Value;
  json_print : Value -> list byte;
  (** the derived [Serialize] of a transaction, a block, an asset, a token state, a SmartObject; the number an [f64] becomes *)
  tx_value : Transaction -> Value;
  block_value : Block -> Value;
  asset_value : TransactionAsset -> Value;
  token_state_value : TokenState -> Value;
  sobject_record_value : SmartObject -> Value;
  float_value : F64 -> Value
}.

(** A value serde_json reads or writes: numbers of 64 bits, keys in order, no more than [depth] arrays and objects inside each other. *)
Fixpoint ascending (l : list string) : bool :=
  match l with x :: ((y :: _) as l') => String.ltb x y && ascending l' | _ => true end.
Fixpoint canonical (depth : nat) (v : Value) : bool :=
  match v with
  | VNull | VBool _ | VFloat _ | VString _ => true
  | VNumber x => (i64_min <=? x) && (x <=? u64_max)
  | VArray l => match depth with O => false | S depth => forallb (canonical depth) l end
  | VObject m => match depth with O => false | S depth => ascending m.*1 && forallb (fun e => let '(_, v) := e in canonical depth v) m end
  end.
Fixpoint float_free (v : Value) : bool :=
  match v with
  | VFloat _ => false
  | VArray l => forallb float_free l
  | VObject m => forallb (fun e => let '(_, v) := e in float_free v) m
  | _ => true
  end.
Definition JSON_DEPTH : nat := 127.

(** What is read is canonical; an object that is written is read back with its values, those without floats as they were. *)
Class JsonTextLaws (J : JsonText) : Prop := {
  json_parse_canonical : forall b v, json_parse b = Some v -> canonical JSON_DEPTH v = true;
  json_print_object : forall m, canonical JSON_DEPTH (VObject m) = true -> exists m', json_parse (json_print (VObject m)) = Some (VObject m') /\
    forall k v, o_get k m = Some v -> float_free v = true -> o_get k m' = Some v
}.

(** ** Time *)

(** [days] since 1970-01-01 as year, month and day (Hinnant's [civil_from_days]). *)
Definition civil (days : Z) : Z * Z * Z :=
  let z := days + 719468 in
  let era := z / 146097 in
  let doe := z mod 146097 in
  let yoe := (doe - doe / 1460 + doe / 36524 - doe / 146096) / 365 in
  let y := yoe + era * 400 in
  let doy := doe - (365 * yoe + yoe / 4 - yoe / 100) in
  let mp := (5 * doy + 2) / 153 in
  let d := doy - (153 * mp + 2) / 5 + 1 in
  let m := if mp <? 10 then mp + 3 else mp - 9 in
  ((if m <=? 2 then y + 1 else y), m, d).

(** [{x:0w}] of a signed number. *)
Definition zeros (k : Z) : string := string_of_list_ascii (repeat "0"%char (Z.to_nat k)).
Definition fmt_0 (w x : Z) : string :=
  if x <? 0 then "-" +:+ zeros (w - 1 - slen (fmt_u (- x))) +:+ fmt_u (- x) else zeros (w - slen (fmt_u x)) +:+ fmt_u x.

Definition human_time (unix : Z) : string :=
  let secs := unix mod 86400 in
  let '(y, m, d) := civil (unix / 86400) in
  fmt_0 4 y +:+ "-" +:+ fmt_0 2 m +:+ "-" +:+ fmt_0 2 d +:+ "T" +:+ fmt_0 2 (secs / 3600) +:+ ":" +:+ fmt_0 2 (secs mod 3600 / 60)
  +:+ ":" +:+ fmt_0 2 (secs mod 60) +:+ ".000Z".

Definition timestamp_json (n : Network) (epoch : Z) : Value :=
  let unix := epoch_to_unix n epoch in
  obj [("epoch", VNumber epoch); ("unix", VNumber unix); ("human", VString (human_time unix))].

(** [f64::round] of a non-negative number: halves go up. *)
Definition f64_round (x : F64) : F64 :=
  match x with
  | S754_finite sg m e => if 0 <=? e then x else f64_of ((2 * Z.pos m + 2 ^ (- e)) / (2 * 2 ^ (- e)))
  | x => x
  end.

Section views.
Context `{E : Env} `{J : JsonText}.
Variables (n : Network) (s : Store).

Definition sender_address (tx : Transaction) : string :=
  match address_from_public_key tx.(tx_sender_public_key) n.(n_pubkey_hash) with Ok a => a | Err _ => EmptyString end.

Definition finalized_at (h : Z) : bool := match latest_finality_cert s with Some c => h <=? c.(fc_height) | None => false end.

(** [block.reward + block.total_fee] wraps. *)
Definition block_json (b : Block) (raw : bool) (tip : Z) : Value :=
  if raw then block_value (b_header b) else
  let generator := find_wallet s b.(b_generator_public_key) in
  let address := match generator with
                 | Some w => w.(ws_address)
                 | None => match address_from_public_key b.(b_generator_public_key) n.(n_pubkey_hash) with Ok a => a | Err _ => EmptyString end
                 end in
  let gen := field "username" VString (match generator with Some w => w.(ws_username) | None => None end)
             ++ [("address", VString address); ("publicKey", VString b.(b_generator_public_key))] in
  obj [("id", vstr b.(b_id)); ("version", VNumber b.(b_version)); ("height", VNumber b.(b_height)); ("previous", VString b.(b_previous_block));
       ("forged", obj [("reward", VString (fmt_u b.(b_reward))); ("fee", VString (fmt_u b.(b_total_fee)));
                       ("amount", VString (fmt_u b.(b_total_amount))); ("total", VString (fmt_u (as_u64 (b.(b_reward) + b.(b_total_fee)))))]);
       ("payload", obj [("hash", VString b.(b_payload_hash)); ("length", VNumber b.(b_payload_length))]);
       ("generator", obj gen); ("signature", vstr b.(b_block_signature));
       ("pqSignature", vopt (fun p => obj [("algorithm", VNumber p.(pb_algorithm)); ("bytes", VNumber (slen p.(pb_signature) / 2))]) b.(b_pq_signature));
       ("confirmations", VNumber (sat_sub tip b.(b_height))); ("finalized", VBool (finalized_at b.(b_height)));
       ("transactions", VNumber b.(b_number_of_transactions)); ("timestamp", timestamp_json n b.(b_timestamp))].

Definition pq_block_value (p : PqSignatureBlock) : Value :=
  obj [("algorithm", VNumber p.(pb_algorithm)); ("signature", VString p.(pb_signature))].

Definition tx_json (tx : Transaction) (block_ts : option Z) (raw : bool) (tip : Z) : Value :=
  if raw then tx_value tx else
  let confirmed := match tx.(tx_block_height), block_ts with
                   | Some h, Some ts => [("confirmations", VNumber (as_u64 (sat_sub tip h + 1))); ("finalized", VBool (finalized_at h));
                                         ("timestamp", timestamp_json n ts)]
                   | _, _ => [("confirmations", VNumber 0); ("finalized", VBool false)]
                   end in
  obj ([("id", vstr tx.(tx_id))] ++ field "blockId" VString tx.(tx_block_id)
       ++ [("version", VNumber tx.(tx_version)); ("type", VNumber tx.(tx_type_)); ("typeGroup", VNumber tx.(tx_type_group));
           ("amount", VString (fmt_u tx.(tx_amount))); ("fee", VString (fmt_u tx.(tx_fee)));
           ("sender", VString (sender_address tx)); ("senderPublicKey", VString tx.(tx_sender_public_key))]
       ++ field "recipient" VString tx.(tx_recipient_id) ++ [("signature", vstr tx.(tx_signature))]
       ++ field "signSignature" VString (second_signature_any tx)
       ++ field "secondSignatures" (fun l => VArray (pq_block_value <$> l)) tx.(tx_second_signatures)
       ++ field "signatures" vstrings tx.(tx_signatures) ++ field "vendorField" VString tx.(tx_vendor_field)
       ++ field "asset" asset_value tx.(tx_asset) ++ confirmed ++ [("nonce", VString (fmt_u (default 0 tx.(tx_nonce))))]).

(** Expiration type 1 is a time, any other a height; [now] is the epoch of the clock. *)
Definition lock_expired (now : Z) (l : LockRecord) : bool :=
  if l.(lk_expiration).(he_type_) =? 1 then l.(lk_expiration).(he_value) <=? now else l.(lk_expiration).(he_value) <=? get_last_height s.
Definition lock_json (now : Z) (l : LockRecord) : Value :=
  let v := obj [("lockId", VString l.(lk_lock_id)); ("amount", VString (fmt_u l.(lk_amount))); ("secretHash", VString l.(lk_secret_hash));
                ("senderPublicKey", VString l.(lk_sender_public_key)); ("recipientId", VString l.(lk_recipient_id));
                ("timestamp", timestamp_json n l.(lk_timestamp)); ("expirationType", VNumber l.(lk_expiration).(he_type_));
                ("expirationValue", VNumber l.(lk_expiration).(he_value)); ("isExpired", VBool (lock_expired now l))] in
  match l.(lk_vendor_field) with Some vf => vset "vendorField" (VString vf) v | None => v end.

(** [TokenMeta::logo_bytes]. *)
Definition logo_bytes (m : TokenMeta) : option (list byte) := m.(tm_logo) ≫= base64_decode.
Definition meta_json (id : string) (t : TokenState) : Value :=
  match t.(ts_meta) with
  | Some m => obj [("name", VString m.(tm_name)); ("description", vstr m.(tm_description)); ("website", vstr m.(tm_website));
                   ("logoType", vstr m.(tm_logo_type)); ("logoSize", VNumber (Z.of_nat (default 0%nat (length <$> logo_bytes m))));
                   ("logoUrl", vopt (fun _ => VString ("/api/tokens/" +:+ id +:+ "/logo")) m.(tm_logo))]
  | None => VNull
  end.

Definition sobject_value (r : SmartObject) : Value :=
  obj [("ntfryData", vstr r.(so_data).(sd_ntfry_data)); ("resigned", VBool r.(so_resigned)); ("price", vopt (fun p => VString (fmt_u p)) r.(so_price));
       ("forSale", VBool (is_some r.(so_price)))].
Definition token_json (id : string) (t : TokenState) : Value :=
  let sobj := match get_sobject n s id with Ok (Some (_, r)) => sobject_value r | _ => VNull end in
  obj [("id", VString id); ("symbol", VString t.(ts_symbol)); ("decimals", VNumber t.(ts_decimals)); ("flags", VNumber t.(ts_flags));
       ("mintable", VBool (negb (Z.land t.(ts_flags) token.FLAG_MINTABLE =? 0))); ("burnable", VBool (negb (Z.land t.(ts_flags) token.FLAG_BURNABLE =? 0)));
       ("supply", VString (fmt_u t.(ts_supply))); ("supplyCap", VString (fmt_u t.(ts_supply_cap))); ("owner", VString t.(ts_owner));
       ("initHeight", VNumber t.(ts_init_height)); ("sobj", sobj); ("meta", meta_json id t)].

Definition order_json (o : TokenOrder) (t : option TokenState) : Value :=
  obj [("orderId", VString o.(od_id)); ("tokenId", VString o.(od_token_id)); ("symbol", vopt (fun t => VString t.(ts_symbol)) t);
       ("decimals", vopt (fun t => VNumber t.(ts_decimals)) t); ("seller", VString o.(od_seller)); ("price", VString (fmt_u o.(od_price)));
       ("amount", VString (fmt_u o.(od_amount))); ("filled", VString (fmt_u o.(od_filled))); ("remaining", VString (fmt_u (remaining o)));
       ("total", VString (fmt_u (remaining o * o.(od_price)))); ("height", VNumber o.(od_height)); ("open", VBool (is_open o));
       ("closed", vopt VNumber o.(od_closed)); ("fills", vstrings o.(od_fills))].

Definition sobj_json (id owner : string) (r : SmartObject) : Value :=
  obj [("id", VString id); ("address", VString owner); ("publicKey", vstr (get_wallet s owner ≫= ws_public_key)); ("isResigned", VBool r.(so_resigned));
       ("type", VNumber r.(so_type_)); ("subType", VNumber r.(so_sub_type));
       ("data", obj [("name", vstr r.(so_data).(sd_name)); ("ntfryData", vstr r.(so_data).(sd_ntfry_data))]);
       ("price", vopt (fun p => VString (fmt_u p)) r.(so_price)); ("forSale", VBool (is_some r.(so_price)))].

Definition last_block_json (lb : LastBlock) : Value :=
  obj [("id", VString lb.(lb_id)); ("height", VNumber lb.(lb_height)); ("timestamp", timestamp_json n lb.(lb_timestamp))].

Definition wallet_lock_json (l : LockRecord) : Value :=
  obj [("amount", VString (fmt_u l.(lk_amount))); ("recipientId", VString l.(lk_recipient_id)); ("timestamp", VNumber l.(lk_timestamp));
       ("vendorField", vstr l.(lk_vendor_field)); ("secretHash", VString l.(lk_secret_hash));
       ("expiration", obj [("type", VNumber l.(lk_expiration).(he_type_)); ("value", VNumber l.(lk_expiration).(he_value))])].

Definition non_empty {A} (m : gmap string A) : option (gmap string A) := if bool_decide (m = ∅) then None else Some m.

Definition delegate_attributes (w : WalletState) (rank : option Z) (votes : option Z) (u : string) : Value :=
  obj ([("username", VString u); ("voteBalance", VString (fmt_u (default 0 votes))); ("forgedFees", VString (fmt_u w.(ws_forged_fees)));
        ("forgedRewards", VString (fmt_u w.(ws_forged_rewards))); ("producedBlocks", VNumber w.(ws_produced_blocks))]
       ++ field "rank" VNumber rank ++ field "lastBlock" last_block_json w.(ws_last_block)
       ++ (if w.(ws_resigned) then [("resigned", VBool true)] else [])).

Definition wallet_json (w : WalletState) (rank : option Z) (votes : option Z) : Value :=
  let attrs := field "vote" VString w.(ws_vote) ++ field "secondPublicKey" VString w.(ws_second_public_key)
               ++ field "multiSignature" (fun m => obj [("min", VNumber m.(ms_min)); ("publicKeys", vstrings m.(ms_public_keys))]) w.(ws_multi_signature)
               ++ field "sobjects" (fun m => obj (prod_map Datatypes.id sobject_record_value <$> bt_entries m)) (non_empty w.(ws_sobjects))
               ++ field "htlc" (fun m => obj [("locks", obj ((fun e => (e.2.(lk_lock_id), wallet_lock_json e.2)) <$> bt_entries m));
                                              ("lockedBalance", VString (fmt_u (locked_balance w)))]) (non_empty w.(ws_locks))
               ++ field "delegate" (delegate_attributes w rank votes) w.(ws_username)
               ++ field "tokens" (fun m => obj (prod_map Datatypes.id (fun b => VString (fmt_u b)) <$> bt_entries m)) (non_empty w.(ws_tokens))
               ++ field "tokensIssued" (fun m => obj ((fun e => (e.1, vset "meta" (meta_json e.1 e.2) (token_state_value e.2))) <$> bt_entries m))
                    (non_empty w.(ws_tokens_issued)) in
  let shield := match w.(ws_pq_commitment) with
                | Some c => obj [("committed", VBool true); ("algorithm", VNumber c.(pc_algorithm)); ("commitment", VString c.(pc_commitment));
                                 ("height", VNumber c.(pc_height))]
                | None => obj [("committed", VBool false)]
                end in
  let shield := match w.(ws_pq_key) with
                | Some k => vset "since" (VNumber k.(pk_since)) (vset "publicKey" (VString k.(pk_public_key))
                              (vset "algorithm" (VNumber k.(pk_algorithm)) (vset "active" (VBool true) shield)))
                | None => vset "active" (VBool false) shield
                end in
  obj [("address", VString w.(ws_address)); ("publicKey", vstr w.(ws_public_key)); ("balance", VString (fmt_i w.(ws_balance)));
       ("nonce", VString (fmt_u w.(ws_nonce))); ("attributes", obj attrs); ("quantumShield", shield)].

(** The share of the supply in percent, to two digits. *)
Definition approval (votes : Z) : F64 :=
  f64_div (f64_round (f64_mul (f64_div (f64_of votes) (f64_of (Z.max (supply n (get_last_height s)) 1))) (f64_of 10000))) (f64_of 100).
Definition delegate_json (w : WalletState) (votes rank : Z) : Value :=
  obj [("username", vstr w.(ws_username)); ("address", VString w.(ws_address)); ("publicKey", vstr w.(ws_public_key));
       ("votes", VString (fmt_u votes)); ("rank", VNumber rank); ("isResigned", VBool w.(ws_resigned));
       ("blocks", obj [("produced", VNumber w.(ws_produced_blocks));
                       ("missed", VNumber (match w.(ws_public_key) with Some pk => missed_count s pk | None => 0 end));
                       ("last", vopt last_block_json w.(ws_last_block))]);
       ("production", obj [("approval", float_value (approval votes))]);
       ("forged", obj [("fees", VString (fmt_u w.(ws_forged_fees))); ("rewards", VString (fmt_u w.(ws_forged_rewards)));
                       ("total", VString (fmt_u (as_u64 (w.(ws_forged_fees) + w.(ws_forged_rewards)))))])].
End views.

(** ** The calendar *)

Definition is_leap (y : Z) : bool := (y mod 4 =? 0) && (negb (y mod 100 =? 0) || (y mod 400 =? 0)).
Definition month_days (y m : Z) : Z :=
  if m =? 2 then if is_leap y then 29 else 28
  else if (m =? 4) || (m =? 6) || (m =? 9) || (m =? 11) then 30 else 31.
Definition next_date (date : Z * Z * Z) : Z * Z * Z :=
  let '(y, m, d) := date in
  if d <? month_days y m then (y, m, d + 1) else if m <? 12 then (y, m + 1, 1) else (y + 1, 1, 1).

(** The day of a year that begins in March, as month, day and whether it lies in the next calendar year. *)
Definition march_day (doy : Z) : Z * Z * bool :=
  let mp := (5 * doy + 2) / 153 in
  let m := if mp <? 10 then mp + 3 else mp - 9 in
  (m, doy - (153 * mp + 2) / 5 + 1, m <=? 2).
Definition year_start (yoe : Z) : Z := 365 * yoe + yoe / 4 - yoe / 100.
Definition year_of (doe : Z) : Z := (doe - doe / 1460 + doe / 36524 - doe / 146096) / 365.
Definition year_len (yoe : Z) : Z := if is_leap (yoe + 1) then 366 else 365.

Lemma civil_unfold days :
  let z := days + 719468 in let doe := z mod 146097 in let yoe := year_of doe in
  let '(m, d, next) := march_day (doe - year_start yoe) in
  civil days = (yoe + z / 146097 * 400 + (if next : bool then 1 else 0), m, d).
Proof.
  cbv zeta. unfold civil, march_day, year_of, year_start. destruct (_ <=? 2); [done|]. by rewrite Z.add_0_r.
Qed.

Lemma year_of_mono a b : 0 <= a <= b -> b < 146097 -> year_of a <= year_of b.
Proof.
  intros Hab Hb. unfold year_of. apply Z.div_le_mono; [lia|].
  assert (H : forall c, 0 <= c < 146096 -> c - c / 1460 + c / 36524 - c / 146096 <= (c + 1) - (c + 1) / 1460 + (c + 1) / 36524 - (c + 1) / 146096).
  { intros c Hc. assert (c / 146096 = 0) by (apply Z.div_small; lia). assert ((c + 1) / 146096 <= (c + 1) / 36524 - c / 36524).
    { destruct (decide (c = 146095)) as [->|]; [vm_compute; discriminate|]. rewrite (Z.div_small (c + 1) 146096) by lia.
      pose proof (Z.div_le_mono c (c + 1) 36524). lia. }
    assert ((c + 1) / 1460 <= c / 1460 + 1) by (rewrite <- (Z.div_add c 1 1460) by lia; apply Z.div_le_mono; lia). lia. }
  replace b with (a + Z.of_nat (Z.to_nat (b - a))) in * by lia. generalize dependent (Z.to_nat (b - a)). intros k. clear b. induction k as [|k IH]; intros.
  - by rewrite Z.add_0_r.
  - etransitivity; [apply IH; lia|]. replace (a + Z.of_nat (S k)) with (a + Z.of_nat k + 1) by lia. apply H. lia.
Qed.

Lemma years_table : forallb (fun y => (year_of (year_start y) =? y) && (year_of (year_start y + year_len y - 1) =? y)
                                      && (year_start y + year_len y =? if y =? 399 then 146097 else year_start (y + 1))
                                      && (0 <=? year_start y) && (year_start y + year_len y <=? 146097)) (seqZ 0 400) = true.
Proof. vm_compute. reflexivity. Qed.
Lemma years_at y : 0 <= y < 400 -> year_of (year_start y) = y /\ year_of (year_start y + year_len y - 1) = y
                                   /\ year_start y + year_len y = (if y =? 399 then 146097 else year_start (y + 1))
                                   /\ 0 <= year_start y /\ year_start y + year_len y <= 146097.
Proof.
  intros Hy. pose proof years_table as H. rewrite forallb_forall in H. specialize (H y).
  assert (Hin : In y (seqZ 0 400)) by (apply list_elem_of_In, elem_of_seqZ; lia). apply H in Hin. lia.
Qed.
Lemma year_start_bounds y : 0 <= y < 400 -> 0 <= year_start y /\ year_start y + year_len y <= 146097.
Proof. intros Hy. by destruct (years_at y Hy) as (_ & _ & _ & H). Qed.

Lemma year_of_spec doe : 0 <= doe < 146097 -> 0 <= year_of doe < 400 /\ year_start (year_of doe) <= doe < year_start (year_of doe) + year_len (year_of doe).
Proof.
  intros Hd. assert (Hr : 0 <= year_of doe < 400).
  { pose proof (year_of_mono 0 doe). pose proof (year_of_mono doe 146096). change (year_of 0) with 0 in *. change (year_of 146096) with 399 in *. lia. }
  split; [done|]. set (y := year_of doe) in *. split.
  - destruct (Z_le_gt_dec (year_start y) doe) as [|Hlt]; [done|]. exfalso.
    destruct (decide (y = 0)) as [Hy|Hy]; [rewrite Hy in Hlt; change (year_start 0) with 0 in Hlt; lia|].
    destruct (years_at (y - 1)) as (_ & He & Hn & _); [lia|]. rewrite (proj2 (Z.eqb_neq (y - 1) 399)) in Hn by lia.
    replace (y - 1 + 1) with y in Hn by lia. pose proof (year_start_bounds (y - 1)). pose proof (year_of_mono doe (year_start (y - 1) + year_len (y - 1) - 1)). lia.
  - destruct (Z_lt_le_dec doe (year_start y + year_len y)) as [|Hge]; [done|]. exfalso.
    destruct (years_at y) as (_ & _ & Hn & _); [lia|]. destruct (Z.eqb_spec y 399) as [->|Hy]; [lia|].
    destruct (years_at (y + 1)) as (Hs & _); [lia|]. pose proof (year_start_bounds (y + 1)). pose proof (year_of_mono (year_start (y + 1)) doe).
    pose proof (year_start_bounds y). lia.
Qed.

Lemma months_table : forallb (fun doy =>
  let '(m, d, nx) := march_day doy in let '(m', d', nx') := march_day (doy + 1) in
  if d <? month_days 1 m then (m' =? m) && (d' =? d + 1) && Bool.eqb nx' nx
  else negb (m =? 2) && if m <? 12 then (m' =? m + 1) && (d' =? 1) && Bool.eqb nx' nx else (m' =? 1) && (d' =? 1) && negb nx && nx') (seqZ 0 364) = true.
Proof. vm_compute. reflexivity. Qed.

Lemma date_eq (a b c x y z : Z) : a = x -> b = y -> c = z -> (a, b, c) = (x, y, z).
Proof. by intros -> -> ->. Qed.
Ltac same_date := apply date_eq; lia.

Lemma month_days_other y m d : (d <? month_days 1 m) = true -> (d <? month_days y m) = true.
Proof. unfold month_days. change (is_leap 1) with false. destruct (m =? 2); [destruct (is_leap y); lia|done]. Qed.

(** The date [doy] days after the first of March of a year [yoe] of the era. *)
Definition date_at (era yoe doy : Z) : Z * Z * Z :=
  let '(m, d, next) := march_day doy in (yoe + era * 400 + (if next : bool then 1 else 0), m, d).

Lemma civil_at days era yoe doy : days + 719468 = 146097 * era + year_start yoe + doy -> 0 <= yoe < 400 -> 0 <= doy < year_len yoe ->
  civil days = date_at era yoe doy.
Proof.
  intros Hz Hy Hdoy. pose proof (civil_unfold days) as H. cbv zeta in H. pose proof (year_start_bounds yoe Hy) as Hb.
  assert (Hm : (days + 719468) mod 146097 = year_start yoe + doy) by (symmetry; apply (Z.mod_unique_pos _ _ era); lia).
  assert (He : (days + 719468) / 146097 = era) by (symmetry; apply (Z.div_unique_pos _ _ _ (year_start yoe + doy)); lia).
  rewrite Hm, He in H. assert (Hyo : year_of (year_start yoe + doy) = yoe).
  { destruct (years_at yoe Hy) as (Hs & Hl & _). pose proof (year_of_mono (year_start yoe) (year_start yoe + doy)).
    pose proof (year_of_mono (year_start yoe + doy) (year_start yoe + year_len yoe - 1)). lia. }
  rewrite Hyo in H. replace (year_start yoe + doy - year_start yoe) with doy in H by lia. unfold date_at. destruct (march_day doy) as [[m d] nx]. exact H.
Qed.

Lemma is_leap_era y era : is_leap (y + era * 400) = is_leap y.
Proof.
  unfold is_leap. replace (y + era * 400) with (y + era * 100 * 4) by lia. rewrite (Z.mod_add y _ 4) by lia.
  replace (y + era * 100 * 4) with (y + era * 4 * 100) by lia. rewrite (Z.mod_add y _ 100) by lia.
  replace (y + era * 4 * 100) with (y + era * 400) by lia. by rewrite (Z.mod_add y _ 400) by lia.
Qed.

Lemma next_in_year era yoe doy : 0 <= doy -> doy + 1 < year_len yoe -> date_at era yoe (doy + 1) = next_date (date_at era yoe doy).
Proof.
  intros H0 Hin. unfold date_at. destruct (decide (doy = 364)) as [->|Hf].
  - change (march_day (364 + 1)) with (2, 29, true). change (march_day 364) with (2, 28, true). cbn beta iota.
    unfold next_date, month_days. cbn [Z.eqb Pos.eqb]. replace (yoe + era * 400 + 1) with (yoe + 1 + era * 400) by lia. rewrite is_leap_era.
    unfold year_len in Hin. destruct (is_leap (yoe + 1)); [done|lia].
  - pose proof months_table as HT. rewrite forallb_forall in HT. specialize (HT doy). cbv beta in HT.
    assert (Hdoy : In doy (seqZ 0 364)).
    { apply list_elem_of_In, elem_of_seqZ. unfold year_len in Hin. destruct (is_leap (yoe + 1)); lia. }
    apply HT in Hdoy. clear HT. destruct (march_day doy) as [[m d] nx]. destruct (march_day (doy + 1)) as [[m' d'] nx']. unfold next_date.
    destruct (d <? month_days 1 m) eqn:Hlt.
    + rewrite (month_days_other _ _ _ Hlt). apply andb_prop in Hdoy as [Hdoy Hnx]. apply eqb_prop in Hnx as ->. same_date.
    + apply andb_prop in Hdoy as [Hm2 Hdoy]. assert (Hsame : forall y, month_days y m = month_days 1 m) by (intros y; unfold month_days; by destruct (m =? 2)).
      rewrite Hsame, Hlt. destruct (m <? 12); [apply andb_prop in Hdoy as [Hdoy Hnx]; apply eqb_prop in Hnx as ->; same_date|].
      rewrite !andb_true_iff in Hdoy. destruct Hdoy as (((? & ?) & Hnx) & ->). destruct nx; [done|]. same_date.
Qed.

Lemma last_of_february era yoe : date_at era yoe (year_len yoe - 1) = (yoe + 1 + era * 400, 2, month_days (yoe + 1 + era * 400) 2).
Proof.
  unfold year_len, month_days. cbn [Z.eqb Pos.eqb]. rewrite is_leap_era. unfold date_at. destruct (is_leap (yoe + 1)).
  - change (march_day (366 - 1)) with (2, 29, true). same_date.
  - change (march_day (365 - 1)) with (2, 28, true). same_date.
Qed.
Lemma next_in_march era yoe : next_date (date_at era yoe (year_len yoe - 1)) = (yoe + 1 + era * 400, 3, 1).
Proof. rewrite last_of_february. unfold next_date. by rewrite Z.ltb_irrefl. Qed.

(** The date [human_time] prints is that of the Gregorian calendar: day 0 is 1 January 1970, and the date of the next day is the next date,
    with months of their length and the leap years of the calendar; for days before 1970 too. *)
Theorem civil_is_calendar : civil 0 = (1970, 1, 1) /\ forall days, civil (days + 1) = next_date (civil days).
Proof.
  split; [done|]. intros days. pose proof (Z.mod_pos_bound (days + 719468) 146097 ltac:(lia)) as Hd.
  pose proof (Z.div_mod (days + 719468) 146097 ltac:(lia)) as Hz. set (doe := (days + 719468) mod 146097) in *. set (era := (days + 719468) / 146097) in *.
  destruct (year_of_spec doe Hd) as [Hy Hs]. set (yoe := year_of doe) in *. destruct (years_at yoe Hy) as (_ & _ & Hn & _).
  rewrite (civil_at days era yoe (doe - year_start yoe)) by lia.
  destruct (Z_lt_le_dec (doe - year_start yoe + 1) (year_len yoe)) as [Hin|Hlast].
  - rewrite (civil_at (days + 1) era yoe (doe - year_start yoe + 1)) by lia. apply next_in_year; lia.
  - replace (doe - year_start yoe) with (year_len yoe - 1) by lia. rewrite next_in_march.
    assert (Hpos : forall y, 0 < year_len y) by (intros y; unfold year_len; destruct (is_leap _); lia).
    destruct (decide (yoe = 399)) as [He|He].
    + rewrite (proj2 (Z.eqb_eq yoe 399) He) in Hn. rewrite (civil_at (days + 1) (era + 1) 0 0); [|change (year_start 0) with 0; lia|lia|split; [lia|apply Hpos]].
      unfold date_at. change (march_day 0) with (3, 1, false). same_date.
    + rewrite (proj2 (Z.eqb_neq yoe 399) He) in Hn. rewrite (civil_at (days + 1) era (yoe + 1) 0); [|lia|lia|split; [lia|apply Hpos]].
      unfold date_at. change (march_day 0) with (3, 1, false). same_date.
Qed.

(** ** Objects *)

Lemma o_get_insert k v m : o_get k (o_insert k v m) = Some v.
Proof.
  induction m as [|[k' v'] m IH]; cbn [o_insert o_get]; [by rewrite String.eqb_refl|]. destruct (String.eqb_spec k k') as [->|Hk]; [cbn; by rewrite String.eqb_refl|].
  destruct (String.ltb k k'); cbn [o_get]; [by rewrite String.eqb_refl|]. by rewrite (proj2 (String.eqb_neq k k')).
Qed.
Lemma o_get_insert_ne k k' v m : k <> k' -> o_get k (o_insert k' v m) = o_get k m.
Proof.
  intros Hk. induction m as [|[j w] m IH]; cbn [o_insert o_get]; [by rewrite (proj2 (String.eqb_neq k k'))|].
  destruct (String.eqb_spec k' j) as [->|Hj]; [cbn; by rewrite (proj2 (String.eqb_neq k j))|].
  destruct (String.ltb k' j); cbn [o_get]; [by rewrite (proj2 (String.eqb_neq k k'))|]. destruct (String.eqb k j); [done|exact IH].
Qed.

Lemma ltb_total x y : x <> y -> String.ltb x y = false -> String.ltb y x = true.
Proof. unfold String.ltb. rewrite (String.compare_antisym y x). destruct (String.compare x y) eqn:Hc; [apply String.compare_eq_iff in Hc; congruence|done|done]. Qed.
Lemma ascending_insert k v m : ascending m.*1 = true -> ascending (o_insert k v m).*1 = true.
Proof.
  induction m as [|[j w] m IH]; [done|]. intros H. cbn [o_insert]. destruct (String.eqb_spec k j) as [->|Hk]; [exact H|].
  destruct (String.ltb k j) eqn:Hlt; [cbn [fmap list_fmap ascending fst]; by rewrite Hlt|]. assert (Hjk : String.ltb j k = true) by by apply ltb_total.
  cbn [fmap list_fmap fst] in *. destruct m as [|[i x] m]; [cbn; by rewrite Hjk|]. cbn [fmap list_fmap fst ascending] in H. apply andb_prop in H as [H1 H2].
  specialize (IH H2). cbn [o_insert] in *. destruct (String.eqb k i); [cbn [fmap list_fmap fst ascending] in *; apply andb_true_iff; split; [|exact IH]|].
  - destruct (String.eqb_spec k i); [by subst|]. done.
  - destruct (String.ltb k i); cbn [fmap list_fmap fst ascending] in *; apply andb_true_iff; auto.
Qed.
