(* ===== verification/Snapshot.v ===== *)
(** * Snapshots and the first block

    [src/src/snapshot.rs]: the files of a dump, the import that applies them chunk by chunk, the dump that writes them,
    and the choice of an archive; [ensure_genesis] of [src/src/genesis.rs].  The formats around the records (gzip,
    MessagePack, the JSON of [meta.json]) belong to other crates and are the class [Archive]; the directory is a map
    from names to bytes.  Downloading and unpacking an archive, progress and durations are not modelled. *)

From S2P Require Import Prelude Models Env Bytes Crypto Config TxCodec BlockCodec BlockVerify Wallet Rules Round Tree Storage Deltas Chain Sync.
From S2P Require Import NodePool PeerHealth IrohPeers.

(** ** Files *)

Record MetaRange : Type := mkRange { mr_count : Z; mr_start : Z; mr_end : Z }.
Record SnapshotMeta : Type := mkMeta {
  sm_blocks : MetaRange; sm_transactions : MetaRange; sm_rounds : MetaRange; sm_folder : string; sm_skip_compression : bool;
  sm_network : string; sm_package_version : string; sm_codec : string
}.

(** What a reader gives: the bytes, and how it fails behind them if it does; [io_eof] is the kind [UnexpectedEof]. *)
Record IoError : Type := mkIo { io_eof : bool; io_text : string }.
Record Stream : Type := mkStream { sr_bytes : list byte; sr_fault : option IoError }.

(** [flate2], [rmpv] and the serde impls of [SnapshotMeta]; [is_string] and [value_binary] look at the variant of a value. *)
Class Archive : Type := {
  gzip : list byte -> list byte;
  gunzip : list byte -> Stream;
  Value : Type;
  v_array : list Value -> Value;
  v_str : string -> Value;
  v_u64 : Z -> Value;
  v_binary : list byte -> Value;
  value_array : Value -> option (list Value);
  value_str : Value -> option string;
  value_u64 : Value -> option Z;
  value_binary : Value -> option (list byte);
  is_string : Value -> bool;
  value_text : Value -> string;
  write_value : Value -> result (list byte) string;
  read_value : list byte -> result Value string;
  meta_to_json : SnapshotMeta -> list byte;
  meta_from_json : list byte -> Res SnapshotMeta
}.

(** Their documented behaviour: what was written is read back. *)
Class ArchiveLaws (A : Archive) : Prop := {
  gunzip_gzip : forall b, gunzip (gzip b) = mkStream b None;
  array_back : forall l, value_array (v_array l) = Some l;
  str_back : forall s, value_str (v_str s) = Some s;
  u64_back : forall z, in_u64 z -> value_u64 (v_u64 z) = Some z;
  binary_back : forall b, value_binary (v_binary b) = Some b;
  value_back : forall v, exists b, write_value v = Ok b /\ read_value b = Ok v;
  meta_back : forall m, meta_from_json (meta_to_json m) = Ok m
}.

(** A directory, and the texts of the errors of the file system. *)
Record Dir : Type := mkDir { d_path : string; d_files : gmap string (list byte); d_missing : string }.
Definition joined_path (d : Dir) (name : string) : string := d.(d_path) +:+ "/" +:+ name.

(** [{:?}] of a list of texts without quotes or backslashes. *)
Definition debug_list (l : list string) : string :=
  let q := String (Ascii.ascii_of_N 34) EmptyString in "[" +:+ String.concat ", " ((fun x => q +:+ x +:+ q) <$> l) +:+ "]".

Section snapshot.
Context `{E : Env} `{A : Archive}.
Variables (n : Network) (net_name : string).
Implicit Types (s : Store) (block : Block) (d : Dir) (tx : Transaction).

Definition read_meta d : Res SnapshotMeta :=
  match d.(d_files) !! "meta.json"%string with
  | Some raw => meta_from_json raw
  | None => Err (ESync ("cannot read " +:+ joined_path d "meta.json" +:+ ": " +:+ d.(d_missing)))
  end.

(** ** Records *)

(** [RecordReader::open]. *)
Definition open_records d (name : string) (compressed : bool) : Res Stream :=
  match d.(d_files) !! name with
  | Some raw => Ok (if compressed then gunzip raw else mkStream raw None)
  | None => Err (ESync ("cannot open " +:+ joined_path d name +:+ ": " +:+ d.(d_missing)))
  end.

(** What [read_exact] says at the end of a stream. *)
Definition fault_text (fault : option IoError) : string :=
  match fault with Some f => f.(io_text) | None => "failed to fill whole buffer" end.

(** [next_record]: the record and the bytes behind it. *)
Definition next_record (fault : option IoError) (count : Z) (rest : list byte) : Res (option (list byte * list byte)) :=
  if (length rest <? 4)%nat then
    match fault with
    | Some f => if f.(io_eof) then Ok None else Err (ESync ("snapshot read error: " +:+ f.(io_text)))
    | None => Ok None
    end
  else
    let len := Z.to_nat (le_value (take 4 rest)) in
    let body := drop 4 rest in
    if (length body <? len)%nat
    then Err (ESync ("snapshot record truncated (record " +:+ fmt_u count +:+ "): " +:+ fault_text fault))
    else Ok (Some (take len body, drop len body)).

(** [decode_transaction_record]. *)
Definition decode_transaction_record (record : list byte) : Res Transaction :=
  let? value := map_err (fun e => ESync ("transaction record is not msgpack: " +:+ e)) (read_value record) in
  let shape := ESync ("unexpected transaction record shape: " +:+ value_text value) in
  let? items := ok_or (value_array value) shape in
  guard (6 <=? length items)%nat else shape in
  let str_at i := ok_or (items !! i ≫= value_str) (ESync ("transaction record field " +:+ fmt_u (Z.of_nat i) +:+ " is not a string")) in
  let u64_at i := ok_or (items !! i ≫= value_u64) (ESync ("transaction record field " +:+ fmt_u (Z.of_nat i) +:+ " is not an integer")) in
  let? id := str_at 0%nat in
  let? block_id := str_at 1%nat in
  let? block_height := u64_at 2%nat in
  let? sequence := u64_at 3%nat in
  let? serialized := match items !! 5%nat with
                     | None => Err shape
                     | Some v => match value_binary v with
                                 | Some b => Ok b
                                 | None => if is_string v then hex_dec (default EmptyString (value_str v))
                                           else Err (ESync ("transaction " +:+ id +:+ ": serialized field has type " +:+ value_text v))
                                 end
                     end in
  let? tx := deserialize_transaction serialized in
  guard bool_decide (tx.(tx_id) = Some id)
  else EBlockValidation ("snapshot transaction id " +:+ id +:+ " does not match its bytes (" +:+ default EmptyString tx.(tx_id) +:+ ")") in
  Ok (tx_set_sequence (Some (as_u32 sequence)) (tx_set_block_height (Some block_height) (tx_set_block_id (Some block_id) tx))).

(** [HashMap<u64, Vec<Transaction>>]. *)
#[local] Abbreviation ByHeight := (gmap Z (list Transaction)).
Definition push_tx tx (m : ByHeight) : ByHeight :=
  let h := default 0 tx.(tx_block_height) in <[h := default [] (m !! h) ++ [tx]]> m.

Definition file_seq tx : Z := default u32_max tx.(tx_sequence).
Definition file_seq_le t1 t2 : Prop := file_seq t1 <= file_seq t2.
#[export] Instance file_seq_le_dec t1 t2 : Decision (file_seq_le t1 t2) := Z.le_dec _ _.

(** The [while let] loop of [load_transactions]; a record takes four bytes at least. *)
Fixpoint load_go (fuel : nat) (fault : option IoError) (count : Z) (rest : list byte) (m : ByHeight) : Res ByHeight :=
  match fuel with
  | O => Ok m
  | S fuel =>
      let? r := next_record fault count rest in
      match r with
      | None => Ok m
      | Some (record, rest) => let? tx := decode_transaction_record record in load_go fuel fault (count + 1) rest (push_tx tx m)
      end
  end.

Definition load_transactions d (meta : SnapshotMeta) : Res ByHeight :=
  let? reader := open_records d "transactions" (negb meta.(sm_skip_compression)) in
  let? m := load_go (S (length reader.(sr_bytes))) reader.(sr_fault) 0 reader.(sr_bytes) ∅ in
  Ok (sort_by file_seq_le <$> m).

Definition tx_total (m : ByHeight) : Z := map_sum (fun l => Z.of_nat (length l)) m.

(** ** Import *)

Definition IMPORT_CHUNK : nat := 1000.

Record ImportOptions : Type := mkImportOptions { io_fast : bool; io_strict : bool }.
Record ImportReport : Type := mkReport {
  ir_snapshot_end : Z; ir_start_height : Z; ir_end_height : Z; ir_imported : Z; ir_skipped : Z; ir_interrupted : bool
}.

(** What the loop over the blocks changes. *)
Record Import : Type := mkImport {
  im_store : Store; im_tip : ChainTip; im_txs : ByHeight; im_chunk : list Block; im_imported : Z; im_skipped : Z
}.
Implicit Types (i : Import).
Definition im_skip i : Import := mkImport i.(im_store) i.(im_tip) i.(im_txs) i.(im_chunk) i.(im_imported) (i.(im_skipped) + 1).
Definition im_push block (txs : ByHeight) i : Import :=
  mkImport i.(im_store) (mkTip block.(b_height) block.(b_id)) txs (i.(im_chunk) ++ [block]) i.(im_imported) i.(im_skipped).
Definition im_written s i : Import :=
  mkImport s i.(im_tip) i.(im_txs) [] (i.(im_imported) + Z.of_nat (length i.(im_chunk))) i.(im_skipped).
Definition im_on_store s i : Import := mkImport s i.(im_tip) i.(im_txs) i.(im_chunk) i.(im_imported) i.(im_skipped).

(** What a block is checked for by itself. *)
Definition check_imported (fast : bool) (now : Z) block : Res unit :=
  if fast then
    if 1 <? block.(b_height) then
      let? h := block_payload_hash block in
      guard String.eqb h block.(b_payload_hash)
      else EBlockValidation ("block " +:+ fmt_u block.(b_height) +:+ ": invalid payload hash") in Ok tt
    else Ok tt
  else
    let v := verify_block block n now in
    guard v.(bv_verified)
    else EBlockValidation ("block " +:+ fmt_u block.(b_height) +:+ ": " +:+ String.concat "; " v.(bv_errors)) in Ok tt.

(** A block above the tip: it must follow it, get its transactions, and pass the checks. *)
Definition take_block (opts : ImportOptions) (now : Z) block i : Res Import :=
  let tip := i.(im_tip) in
  guard block.(b_height) =? tip.(tip_height) + 1
  else ESync ("snapshot height gap: expected " +:+ fmt_u (tip.(tip_height) + 1) +:+ ", got " +:+ fmt_u block.(b_height)) in
  guard match tip.(tip_id) with Some prev => String.eqb block.(b_previous_block) prev | None => true end
  else EBlockValidation ("block " +:+ fmt_u block.(b_height) +:+ " previousBlock " +:+ block.(b_previous_block)
         +:+ " does not match tip " +:+ default EmptyString tip.(tip_id)) in
  let? (block, txs) :=
    if 0 <? block.(b_number_of_transactions) then
      let l := default [] (i.(im_txs) !! block.(b_height)) in
      guard as_u32 (Z.of_nat (length l)) =? block.(b_number_of_transactions)
      else ESync ("block " +:+ fmt_u block.(b_height) +:+ ": snapshot has " +:+ fmt_u (Z.of_nat (length l)) +:+ " transactions, header says "
             +:+ fmt_u block.(b_number_of_transactions)) in
      Ok (b_set_transactions l block, delete block.(b_height) i.(im_txs))
    else Ok (block, i.(im_txs)) in
  let? _ := check_imported opts.(io_fast) now block in
  Ok (im_push block txs i).

(** The chunk is checked against the wallets when asked for, and applied. *)
Definition write_chunk (opts : ImportOptions) (undo : bool) i : Import * Exit :=
  match (if opts.(io_strict) then check_stateful_rules n i.(im_store) i.(im_chunk) else Ok tt) with
  | Err e => (i, Failed e)
  | Ok _ =>
      match apply_blocks n i.(im_store) i.(im_chunk) undo with
      | (s, Done) => (im_written s i, Done)
      | (s, x) => (im_on_store s i, x)
      end
  end.

(** How the loop ends. *)
Inductive Ending : Type :=
| AtEnd
| Interrupted
| Broken (x : Exit).

(** The loop over the records; [chunk] is [IMPORT_CHUNK] (the theorems hold for chunks of any length), [clock k] is the time at the [k]-th record, and [cancel k] whether the user has asked to
    stop when [k] blocks have been applied. *)
Fixpoint import_go (chunk : nat) (opts : ImportOptions) (undo : bool) (clock : Z -> Z) (cancel : Z -> bool) (fuel : nat) (fault : option IoError) (count : Z)
    (rest : list byte) i : Import * Ending :=
  match fuel with
  | O => (i, AtEnd)
  | S fuel =>
      match next_record fault count rest with
      | Err e => (i, Broken (Failed e))
      | Ok None => (i, AtEnd)
      | Ok (Some (record, rest)) =>
          match deserialize_block_header record n with
          | Err e => (i, Broken (Failed e))
          | Ok block =>
              if block.(b_height) <=? i.(im_tip).(tip_height)
              then import_go chunk opts undo clock cancel fuel fault (count + 1) rest (im_skip i)
              else
                match take_block opts (clock count) block i with
                | Err e => (i, Broken (Failed e))
                | Ok i =>
                    if (chunk <=? length i.(im_chunk))%nat then
                      match write_chunk opts undo i with
                      | (i, Done) => if cancel i.(im_imported) then (i, Interrupted)
                                     else import_go chunk opts undo clock cancel fuel fault (count + 1) rest i
                      | (i, x) => (i, Broken x)
                      end
                    else import_go chunk opts undo clock cancel fuel fault (count + 1) rest i
                end
          end
      end
  end.

(** The last chunk, and the report. *)
Definition finish_import (opts : ImportOptions) (undo : bool) (p : Import * Ending) : Import * (Exit + bool) :=
  match p with
  | (i, Broken x) => (i, inl x)
  | (i, ending) =>
      let interrupted := match ending with Interrupted => true | _ => false end in
      match i.(im_chunk) with
      | [] => (i, inr interrupted)
      | _ => match write_chunk opts undo i with
             | (i, Done) => (i, inr interrupted)
             | (i, x) => (i, inl x)
             end
      end
  end.

Definition tip_now s : Res ChainTip :=
  let? b := get_last_block n s in
  Ok (match b with Some b => mkTip b.(b_height) b.(b_id) | None => mkTip 0 None end).

(** What is found out before the first block is read. *)
Definition prepare_import s d : Res (SnapshotMeta * ByHeight * ChainTip * Stream) :=
  let? meta := read_meta d in
  guard String.eqb meta.(sm_network) net_name
  else ESync ("snapshot is for network '" +:+ meta.(sm_network) +:+ "', node runs '" +:+ net_name +:+ "'") in
  guard String.eqb meta.(sm_codec) "default"
  else ESync ("unsupported snapshot codec '" +:+ meta.(sm_codec) +:+ "' (only 'default' / MessagePack)") in
  let? txs := load_transactions d meta in
  guard tx_total txs =? meta.(sm_transactions).(mr_count)
  else ESync ("snapshot transactions: read " +:+ fmt_u (tx_total txs) +:+ ", meta.json says " +:+ fmt_u meta.(sm_transactions).(mr_count)) in
  let? tip := tip_now s in
  let? reader := open_records d "blocks" (negb meta.(sm_skip_compression)) in
  Ok (meta, txs, tip, reader).

Inductive Imported : Type :=
| Reported (r : ImportReport)
| Refused (x : Exit).

Definition import_snapshot (chunk : nat) (opts : ImportOptions) (undo : bool) (clock : Z -> Z) (cancel : Z -> bool) s d : Store * Imported :=
  match prepare_import s d with
  | Err e => (s, Refused (Failed e))
  | Ok (meta, txs, tip, reader) =>
      let bytes := reader.(sr_bytes) in
      match finish_import opts undo (import_go chunk opts undo clock cancel (S (length bytes)) reader.(sr_fault) 0 bytes (mkImport s tip txs [] 0 0)) with
      | (i, inr interrupted) =>
          (i.(im_store), Reported (mkReport meta.(sm_blocks).(mr_end) tip.(tip_height) i.(im_tip).(tip_height) i.(im_imported) i.(im_skipped) interrupted))
      | (i, inl x) => (i.(im_store), Refused x)
      end
  end.

(** ** Dump *)

(** What the two encoders have been given, and the number of transactions. *)
Record Dump : Type := mkDump { du_blocks : list byte; du_transactions : list byte; du_count : Z }.

(** The record of one transaction. *)
Definition transaction_value (height : Z) block (seq : nat) tx (raw : list byte) : Value :=
  v_array [
    v_str (default EmptyString tx.(tx_id)); v_str (default EmptyString block.(b_id)); v_u64 height;
    v_u64 (default (Z.of_nat seq) tx.(tx_sequence)); v_u64 (default block.(b_timestamp) tx.(tx_timestamp)); v_binary raw].

Definition dump_transaction (height : Z) block (acc : Dump) (p : nat * Transaction) : Res Dump :=
  let? raw := tx_bytes n p.2 in
  let? buf := map_err (fun e => ESync ("msgpack: " +:+ e)) (write_value (transaction_value height block p.1 p.2 raw)) in
  Ok (mkDump acc.(du_blocks) (acc.(du_transactions) ++ frame buf) (acc.(du_count) + 1)).

Definition dump_height s (acc : Dump) (height : Z) : Res Dump :=
  let? b := get_block_by_height n s height in
  let? block := ok_or b (ENotFound ("block " +:+ fmt_u height)) in
  let? header := serialize_block block true in
  let acc := mkDump (acc.(du_blocks) ++ frame header) acc.(du_transactions) acc.(du_count) in
  rfold (dump_transaction height block) (imap pair block.(b_transactions)) acc.

(** The directory that is written, and packed as it is. *)
Definition dump s (version out missing : string) (end_ : option Z) : Res Dir :=
  let tip := get_last_height s in
  let end_ := Z.min (default tip end_) tip in
  guard negb (end_ =? 0) else ESync "empty database, nothing to dump" in
  let name := "1-" +:+ fmt_u end_ in
  let? du := rfold (dump_height s) (seqZ 1 end_) (mkDump [] [] 0) in
  let meta := mkMeta (mkRange end_ 1 end_) (mkRange du.(du_count) 1 end_) (mkRange 0 0 0) name false net_name ("sth-core-pq " +:+ version) "default" in
  Ok (mkDir (out +:+ "/" +:+ name)
        (<["meta.json" := meta_to_json meta]> (<["rounds" := gzip []]> (<["transactions" := gzip du.(du_transactions)]>
          {["blocks" := gzip du.(du_blocks)]}))) missing)%string.

(** ** The first block *)

(** [ensure_genesis]; [genesis] is what [genesis_block] reads out of the network files. *)
Definition ensure_genesis (undo : bool) (now : Z) (genesis : Res Block) s : Store * result bool Exit :=
  if negb (get_last_height s =? 0) then (s, Ok false) else
  match genesis with
  | Err e => (s, Err (Failed e))
  | Ok block =>
      if negb (bool_decide (block.(b_id) = Some n.(n_genesis_block_id)))
      then (s, Err (Failed (EBlockValidation "embedded genesis id does not match the network"))) else
      let v := verify_block block n now in
      if negb v.(bv_verified)
      then (s, Err (Failed (EBlockValidation ("embedded genesis rejected: " +:+ debug_list v.(bv_errors))))) else
      match apply_block n s block undo with
      | (s, Done) => (s, Ok true)
      | (s, x) => (s, Err x)
      end
  end.
End snapshot.

(** ** Choosing an archive *)

(** [str::split] on a text; [skip] is what is left of the separator under the cursor. *)
Fixpoint split_text (sep : string) (skip : nat) (s : string) : list string :=
  match s with
  | EmptyString => [EmptyString]
  | String c rest =>
      match skip with
      | S k => split_text sep k rest
      | O => if String.prefix sep s then EmptyString :: split_text sep (String.length sep - 1) rest
             else match split_text sep 0 rest with
                  | part :: parts => String c part :: parts
                  | [] => [String c EmptyString]
                  end
      end
  end.

Definition strip_suffix (p s : string) : option string :=
  let k := (String.length s - String.length p)%nat in
  if (String.length p <=? String.length s)%nat && String.eqb (String.substring k (String.length p) s) p then Some (String.substring 0 k s) else None.

Definition quote : ascii := Ascii.ascii_of_N 34.

(** One [href] of the index: an archive [<start>-<end>.tgz] with its last height. *)
Definition archive_link (part : string) : option (string * Z) :=
  let href := trim_end (trim_start (default EmptyString (head (str_split quote part)))) in
  let name := default href (last (str_split "/" href)) in
  match strip_suffix ".tgz" name with
  | None => None
  | Some stem =>
      match str_split "-" stem with
      | [start; end_] => match parse_u64 start, parse_u64 end_ with
                         | Some _, Some e => Some (href, e)
                         | _, _ => None
                         end
      | _ => None
      end
  end.

Definition archive_links (index_html : string) : list (string * Z) :=
  omap archive_link (tail (split_text ("href=" +:+ String quote EmptyString) 0 index_html)).

Definition pick_latest_archive (index_html : string) : option (string * Z) :=
  foldl (fun best p => match best with Some b => if b.2 <? p.2 then Some p else best | None => Some p end) None (archive_links index_html).

(** [locate_snapshot_dir], for a directory that is none itself: of the directories in it that hold a [meta.json] the last
    one in the order of the names. *)
Definition locate_candidate (names : list string) : option string :=
  last (sort_by str_le names).
