(* ===== verification/StoreAudit.v ===== *)
(** * The audit of the stored wallets

    [audit_wallet], [audit_all], [audit_all_live] and the repair of [src/src/storage.rs]: balances and nonces are computed
    again from the blocks and compared with the stored wallets.  The sums are [i128] in the code and never reach its
    limits; the progress calls are not modelled. *)

From S2P Require Import Prelude Models Env Bytes Crypto Config TxCodec BlockCodec Wallet Round Tree Storage Deltas Reads.

(** ** Data *)

Record WalletAudit : Type := mkWalletAudit {
  wa_address : string; wa_height : Z; wa_stored_nonce : option Z; wa_stored_balance : option Z; wa_computed_nonce : Z; wa_computed_balance : Z;
  wa_sent : Z; wa_received : Z; wa_skipped : Z; wa_forged : Z; wa_delegate : bool; wa_nonce_ok : bool; wa_balance_ok : bool
}.
Definition audit_default : WalletAudit := mkWalletAudit EmptyString 0 None None 0 0 0 0 0 0 false false false.

(** The fields the scan books: nonce, balance, sent, received, skipped, forged. *)
Definition au_book (nonce : Z -> Z) (balance sent received skipped forged : Z) (a : WalletAudit) : WalletAudit :=
  mkWalletAudit a.(wa_address) a.(wa_height) a.(wa_stored_nonce) a.(wa_stored_balance) (nonce a.(wa_computed_nonce)) (a.(wa_computed_balance) + balance)
    (a.(wa_sent) + sent) (a.(wa_received) + received) (a.(wa_skipped) + skipped) (a.(wa_forged) + forged)
    a.(wa_delegate) a.(wa_nonce_ok) a.(wa_balance_ok).
Definition au_pay (balance : Z) : WalletAudit -> WalletAudit := au_book id balance 0 0 0 0.
Definition au_receive (amount : Z) : WalletAudit -> WalletAudit := au_book id amount 0 1 0 0.
Definition au_skip : WalletAudit -> WalletAudit := au_book id 0 0 0 1 0.

Record ChainAudit : Type := mkChainAudit { ca_height : Z; ca_wallets : Z; ca_checked : Z; ca_skipped : Z; ca_drifted : list WalletAudit }.
Record AuditSummary : Type := mkAuditSummary {
  as_at_unix : Z; as_height : Z; as_wallets : Z; as_checked : Z; as_skipped : Z; as_drifted : Z; as_drifted_addresses : list string; as_fixed : bool;
  as_version : string
}.
(** [AuditSummary::from_audit], the duration aside. *)
Definition from_audit (at_unix : Z) (version : string) (a : ChainAudit) (fixed : bool) : AuditSummary :=
  mkAuditSummary at_unix a.(ca_height) a.(ca_wallets) a.(ca_checked) a.(ca_skipped) (Z.of_nat (length a.(ca_drifted)))
    (wa_address <$> take 20 a.(ca_drifted)) fixed version.

(** [HashMap<String, WalletAudit>]. *)
Abbreviation Audits := (gmap string WalletAudit).
Definition book (address : string) (f : WalletAudit -> WalletAudit) (acc : Audits) : Audits :=
  <[address := f (default audit_default (acc !! address))]> acc.

Section audit.
Context `{E : Env}.
Variables (n : Network) (s : Store).
Implicit Types (acc : Audits) (tx : Transaction) (block : Block).

(** ** A transaction *)

(** [only] is the one address looked at, or everybody. *)
Definition want (only : option string) (address : string) : bool := match only with Some o => String.eqb o address | None => true end.

Definition payments tx : list Payment := default [] (asset_part as_payments tx).

(** A purchase whose price goes to a party known from the state only. *)
Definition is_buy tx : bool :=
  (match sobj_asset tx with Some e => is_sobj tx && (e.(sa_action) =? sobj.ACTION_BUY) | None => false end)
  || ((tx.(tx_type_group) =? TYPE_GROUP_TOKEN) && (tx.(tx_type_) =? token.BUY)).

(** What leaves the sender besides the fee. *)
Definition outgoing tx : Z :=
  if tx.(tx_type_) =? tx_type.MULTI_PAYMENT then zsum (p_amount <$> payments tx)
  else if (tx.(tx_type_) =? tx_type.HTLC_CLAIM) || (tx.(tx_type_) =? tx_type.HTLC_REFUND) then 0
  else tx.(tx_amount).

Definition audit_sender (sender : string) tx (a : WalletAudit) : WalletAudit :=
  let a := au_book (fun x => Z.max x (default 0 tx.(tx_nonce))) (- tx.(tx_fee)) 1 0 0 0 a in
  if tx.(tx_type_group) =? TYPE_GROUP_CORE then au_pay (- outgoing tx) a else if is_buy tx then au_skip a else a.

(** The payments to each wanted recipient together, in the order of the addresses. *)
Definition audit_payments (only : option string) tx acc : Audits :=
  let mine := foldl (fun m p => add_in p.(p_recipient_id) p.(p_amount) m) ∅ (List.filter (fun p => want only p.(p_recipient_id)) (payments tx)) in
  foldl (fun acc e => book e.1 (au_receive e.2) acc) acc (bt_entries mine).

Definition lock_id tx : option string :=
  match tx.(tx_asset) with
  | Some x => opt_or (hc_lock_transaction_id <$> x.(as_claim)) (hr_lock_transaction_id <$> x.(as_refund))
  | None => None
  end.
Definition audit_lock (only : option string) (sender : string) tx acc : Res Audits :=
  let? lock := match lock_id tx with Some id => get_transaction n s id | None => Ok None end in
  match lock with
  | Some lock =>
      let? to := if tx.(tx_type_) =? tx_type.HTLC_CLAIM then Ok (default EmptyString lock.(tx_recipient_id))
                 else address_from_public_key lock.(tx_sender_public_key) n.(n_pubkey_hash) in
      Ok (if want only to then book to (au_receive lock.(tx_amount)) acc else acc)
  | None => Ok (if want only sender then book sender au_skip acc else acc)
  end.

Definition audit_recipient (only : option string) (sender : string) tx acc : Audits :=
  match tx.(tx_recipient_id) with
  | Some r =>
      if want only r
      then book r (fun a => if negb (String.eqb sender r) then au_receive tx.(tx_amount) a
                            else if tx.(tx_type_) =? tx_type.TRANSFER then au_pay tx.(tx_amount) a else a) acc
      else acc
  | None => acc
  end.

Definition audit_tx (only : option string) acc tx : Res Audits :=
  let? sender := address_from_public_key tx.(tx_sender_public_key) n.(n_pubkey_hash) in
  let acc := if want only sender then book sender (audit_sender sender tx) acc else acc in
  if negb (tx.(tx_type_group) =? TYPE_GROUP_CORE) then Ok acc
  else if tx.(tx_type_) =? tx_type.MULTI_PAYMENT then Ok (audit_payments only tx acc)
  else if (tx.(tx_type_) =? tx_type.HTLC_CLAIM) || (tx.(tx_type_) =? tx_type.HTLC_REFUND) then audit_lock only sender tx acc
  else if tx.(tx_type_) =? tx_type.HTLC_LOCK then Ok acc
  else Ok (audit_recipient only sender tx acc).

(** ** The blocks *)

Definition audit_forger (generator : string) block acc : Audits :=
  let acc := if 0 <? burned n block then book n.(n_burn_address) (au_pay (burned n block)) acc else acc in
  book generator (au_book id (block.(b_reward) + block.(b_total_fee) - burned n block) 0 0 0 1) acc.
Definition audit_block acc block : Res Audits :=
  let? generator := address_from_public_key block.(b_generator_public_key) n.(n_pubkey_hash) in
  rfold (audit_tx None) block.(b_transactions) (audit_forger generator block acc).

Definition audit_record acc (v : list byte) : Res Audits := let? block := decode_block v n in audit_block acc block.
Definition audit_scan acc (from to : Z) : Res Audits :=
  if to <? from then Ok acc else rfold audit_record (omap (fun h => s.(st_blocks) !! h) (seqZ from (to + 1 - from))) acc.

(** ** The comparison *)

Definition audit_finish (a : WalletAudit) (address : string) (tip : Z) (full_chain : bool) (stored : option WalletState) : WalletAudit :=
  let nonce := ws_nonce <$> stored in
  let balance := ws_balance <$> stored in
  let delegate := match stored with Some w => bool_decide (is_Some w.(ws_username)) || (0 <? w.(ws_produced_blocks)) | None => false end in
  let comparable := (full_chain || negb delegate) && (a.(wa_skipped) =? 0) in
  mkWalletAudit address tip nonce balance a.(wa_computed_nonce) a.(wa_computed_balance) a.(wa_sent) a.(wa_received) a.(wa_skipped) a.(wa_forged) delegate
    (default 0 nonce =? a.(wa_computed_nonce)) (negb comparable || (default 0 balance =? a.(wa_computed_balance))).

Definition drifts (a : WalletAudit) : bool := negb a.(wa_nonce_ok) || negb a.(wa_balance_ok).

Definition compare_step (tip : Z) (st : ChainAudit * Audits) (w : WalletState) : ChainAudit * Audits :=
  let '(out, acc) := st in
  let a := audit_finish (default audit_default (acc !! w.(ws_address))) w.(ws_address) tip true (Some w) in
  let acc := delete w.(ws_address) acc in
  if 0 <? a.(wa_skipped) then (mkChainAudit out.(ca_height) (out.(ca_wallets) + 1) out.(ca_checked) (out.(ca_skipped) + 1) out.(ca_drifted), acc) else
  (mkChainAudit out.(ca_height) (out.(ca_wallets) + 1) (out.(ca_checked) + 1) out.(ca_skipped)
     (if drifts a then out.(ca_drifted) ++ [a] else out.(ca_drifted)), acc).
Definition audit_compare acc (tip : Z) : ChainAudit := (foldl (compare_step tip) (mkChainAudit tip 0 0 0 [], acc) (all_wallets s)).1.

Definition audit_all : Res ChainAudit :=
  let tip := get_last_height s in
  let? acc := audit_scan ∅ 0 tip in
  Ok (audit_compare acc tip).

(** One wallet, from its own transaction index, newest first. *)
Definition wallet_step (address : string) (st : Audits * option (Z * Block)) (e : TxIndexEntry) : Res (Audits * option (Z * Block)) :=
  let '(acc, cache) := st in
  let? (tx, cache) := transaction_at n s e cache in
  match tx with
  | Some (tx, _) => rmap (fun acc => (acc, cache)) (audit_tx (Some address) acc tx)
  | None => Ok (acc, cache)
  end.
Definition audit_wallet (address : string) : Res WalletAudit :=
  let tip := get_last_height s in
  let? (acc, _) := rfold (wallet_step address) (transaction_index s (Some address) 1 tip false) (∅, None) in
  Ok (audit_finish (default audit_default (acc !! address)) address tip false (get_wallet s address)).
End audit.

(** ** Repair *)

Definition ws_set_account (balance nonce : Z) (w : WalletState) : WalletState :=
  mkWallet w.(ws_address) w.(ws_public_key) balance nonce w.(ws_username) w.(ws_vote) w.(ws_second_public_key) w.(ws_produced_blocks)
    w.(ws_forged_fees) w.(ws_forged_rewards) w.(ws_last_block) w.(ws_resigned) w.(ws_locks) w.(ws_multi_signature) w.(ws_sobjects)
    w.(ws_pq_commitment) w.(ws_pq_key) w.(ws_tokens) w.(ws_tokens_issued).

(** Both values are overwritten, also when only one of them was found wrong. *)
Definition repair_wallet (audit : WalletAudit) (s : Store) : Res Store :=
  if negb ((i64_min <=? audit.(wa_computed_balance)) && (audit.(wa_computed_balance) <=? i64_max))
  then Err (ESync ("audited balance " +:+ fmt_i audit.(wa_computed_balance) +:+ " out of range"))
  else
    let previous := get_wallet s audit.(wa_address) in
    let state := ws_set_account audit.(wa_computed_balance) audit.(wa_computed_nonce) (default (wallet_new audit.(wa_address)) previous) in
    Ok (on_wallets (insert audit.(wa_address) state) (adjust_votes (vote_weight previous) (vote_weight (Some state)) s)).

(** [audit-all --fix] of [src/src/main.rs]: the report and the store it leaves. *)
Definition audit_fix `{E : Env} (n : Network) (s : Store) : Res (ChainAudit * Store) :=
  let? report := audit_all n s in
  let? s := rfold (fun s a => repair_wallet a s) report.(ca_drifted) s in
  Ok (report, rebuild_vote_index s).
(** [audit-wallet --fix]. *)
Definition audit_wallet_fix `{E : Env} (n : Network) (s : Store) (address : string) : Res (WalletAudit * Store) :=
  let? a := audit_wallet n s address in
  if negb (drifts a) then Ok (a, s) else let? s := repair_wallet a s in Ok (a, s).

(** ** On a running node *)

Section live.
Context `{E : Env}.
(** The order in which a [HashMap] is left. *)
Variable drain : Audits -> list (string * WalletAudit).
Variable n : Network.

Definition id_at (s : Store) (height : Z) : Res (option string) := rmap (fun o => o ≫= b_id) (get_block_by_height n s height).

Definition tail_step (st : list string * Audits) (e : string * WalletAudit) : list string * Audits :=
  let '(candidates, acc) := st in
  let '(address, t) := e in
  let candidates := if existsb (String.eqb address) candidates then candidates else candidates ++ [address] in
  (candidates, book address (au_book (fun x => Z.max x t.(wa_computed_nonce)) t.(wa_computed_balance) t.(wa_sent) t.(wa_received) t.(wa_skipped) t.(wa_forged)) acc).

Definition candidate_step (s : Store) (tip : Z) (st : list WalletAudit * Audits) (address : string) : list WalletAudit * Audits :=
  let '(drifted, acc) := st in
  match get_wallet s address with
  | None => (drifted, acc)
  | Some stored =>
      let a := audit_finish (default audit_default (acc !! address)) address tip true (Some stored) in
      let acc := delete address acc in
      (if (a.(wa_skipped) =? 0) && drifts a then drifted ++ [a] else drifted, acc)
  end.

(** [scanned] is the store during the long scan, [compared] during the first comparison, [s] under the lock. *)
Definition audit_all_live (scanned compared s : Store) (fix_ : bool) : Store * Res (ChainAudit * Z) :=
  let anchor_height := get_last_height scanned in
  let report :=
    let? anchor_id := id_at scanned anchor_height in
    let? acc := audit_scan n scanned ∅ 0 anchor_height in
    let unlocked := audit_compare compared acc anchor_height in
    let? now_id := id_at s anchor_height in
    if negb (bool_decide (now_id = anchor_id))
    then Err (ESync ("chain reorganized during the audit (block " +:+ fmt_u anchor_height +:+ " changed) — run it again")) else
    let tip := get_last_height s in
    let? tail := audit_scan n s ∅ (anchor_height + 1) tip in
    let '(candidates, acc) := foldl tail_step (wa_address <$> unlocked.(ca_drifted), acc) (drain tail) in
    let '(drifted, _) := foldl (candidate_step s tip) ([], acc) candidates in
    Ok (mkChainAudit tip unlocked.(ca_wallets) unlocked.(ca_checked) unlocked.(ca_skipped) drifted) in
  match report with
  | Err e => (s, Err e)
  | Ok out =>
      if fix_ && negb (length out.(ca_drifted) =? 0)%nat then
        match foldl (fun (st : Store * option Error) a =>
                match st with
                | (s, None) => match repair_wallet a s with Ok s => (s, None) | Err e => (s, Some e) end
                | stopped => stopped
                end) (s, None) out.(ca_drifted) with
        | (s, None) => (rebuild_vote_index s, Ok (out, Z.of_nat (length out.(ca_drifted))))
        | (s, Some e) => (s, Err e)
        end
      else (s, Ok (out, 0))
  end.
End live.
