(* ===== verification/Api.v ===== *)
(** * The listings of the node

    [src/src/api/mod.rs], [transactions.rs], [blocks.rs], [wallets.rs], [delegates.rs], [locks.rs], [tokens.rs],
    [sobj.rs] and [audit.rs]: query parameters, pages with their links, filters, and what every listing answers.  The cached lists
    ([wallets_cache], [delegates_cache]) are what they cache: the lists of the current store.  A failed read of the store
    is the status 500.  Routing and HTTP are axum's. *)

From S2P Require Import Prelude Floats Models Env Bytes Crypto Config TxCodec BlockCodec Wallet Rules Round Tree Storage Chain Reads LegacyWire.
From S2P Require Import Sync AntiSpam Mempool ReadsFacts StoreAudit Render.

#[local] Open Scope string_scope.
#[local] Open Scope list_scope.
#[local] Open Scope Z_scope.

(** A status and a message. *)
Abbreviation ApiRes A := (result A (Z * string)).
Definition of_res {A} (r : Res A) : ApiRes A := map_err (fun e => (500, err_text e)) r.
Definition not_found {A} (what : string) : ApiRes A := Err (404, what +:+ " not found").
Definition found {A} (what : string) (o : option A) : ApiRes A := match o with Some x => Ok x | None => not_found what end.

(** ** Query parameters *)

(** In the order of the caller; the first of two with one name counts. *)
Definition Params : Type := list (string * string).
Definition p_get (key : string) (q : Params) : option string := snd <$> List.find (fun e => String.eqb e.1 key) q.

(** [str::parse] to an unsigned integer of at most [max]. *)
Definition parse_to (max : Z) (v : string) : option Z := match parse_u64 v with Some x => if x <=? max then Some x else None | None => None end.
Definition p_parse (max : Z) (key : string) (q : Params) : option Z := p_get key q ≫= parse_to max.

Definition dotted (key suffix : string) : string := key +:+ "." +:+ suffix.
Definition from_key (key : string) : string := dotted key "from".
Definition to_key (key : string) : string := dotted key "to".

Definition range_ok (key : string) (value : Z) (q : Params) : bool :=
  match p_parse u64_max key q with
  | Some exact => value =? exact
  | None => match p_parse u64_max (from_key key) q with Some f => f <=? value | None => true end
            && match p_parse u64_max (to_key key) q with Some t => value <=? t | None => true end
  end.
Definition has_range (key : string) (q : Params) : bool := is_some (p_get key q) || is_some (p_get (from_key key) q) || is_some (p_get (to_key key) q).

Definition eq_ignore_case (a b : string) : bool := String.eqb (ascii_lower a) (ascii_lower b).
Definition p_order (q : Params) : option (string * bool) :=
  (fun o => match split_once ":" o with Some (f, dir) => (f, eq_ignore_case dir "asc") | None => (o, false) end) <$> p_get "orderBy" q.
Definition ascending (q : Params) : bool := match p_order q with Some (_, asc) => asc | None => false end.
Definition transform (q : Params) : bool := match p_get "transform" q with Some v => negb (String.eqb v "false") | None => true end.

(** ** Pages *)

Definition page_limit (q : Params) : Z := Z.max 1 (Z.min 100 (default 100 (p_parse u64_max "limit" q))).
Definition page_number (q : Params) : Z := Z.max 1 (default 1 (p_parse u64_max "page" q)).
(** [(page - 1) * limit] wraps. *)
Definition page_skip (q : Params) : Z := as_u64 ((page_number q - 1) * page_limit q).

Definition page_of {A} (q : Params) (l : list A) : list A := take (Z.to_nat (page_limit q)) (drop (Z.to_nat (page_skip q)) l).
Definition slice_page {A} (l : list A) (q : Params) : Z * list A := (Z.of_nat (length l), page_of q l).

(** The parameters of the caller with another page, then the defaults, the order last. *)
Definition link (path : string) (q : Params) (p : Z) : string :=
  let page := "page=" +:+ fmt_u p in
  let part (e : string * string) : option string :=
    if String.eqb e.1 "page" then Some page
    else if String.eqb e.1 "orderBy" || String.eqb e.1 "transform" then None
    else Some (e.1 +:+ "=" +:+ e.2) in
  let parts := omap part q
               ++ (if existsb (fun e => String.eqb e.1 "page") q then [] else [page])
               ++ (if is_some (p_get "limit" q) then [] else ["limit=" +:+ fmt_u (page_limit q)])
               ++ ["transform=" +:+ (if transform q then "true" else "false")]
               ++ match p_get "orderBy" q with Some o => ["orderBy=" +:+ o] | None => [] end in
  path +:+ "?" +:+ String.concat "&" parts.

Definition page_count (q : Params) (total : Z) : Z := Z.max 1 ((total + page_limit q - 1) / page_limit q).

Definition paginate_with (path : string) (q : Params) (total : Z) (estimate : bool) (data : list Value) : Value :=
  let page := page_number q in
  let last := page_count q total in
  let to p := VString (link path q p) in
  obj [("meta", obj [("totalCountIsEstimate", VBool estimate); ("count", VNumber (Z.of_nat (length data))); ("pageCount", VNumber last);
                     ("totalCount", VNumber total); ("next", if page <? last then to (page + 1) else VNull);
                     ("previous", if 1 <? page then to (page - 1) else VNull); ("self", to page); ("first", to 1); ("last", to last)]);
       ("data", VArray data)].
Definition paginate (path : string) (q : Params) (total : Z) (data : list Value) : Value := paginate_with path q total false data.
Definition paginate_slice (path : string) (q : Params) (items : list Value) : Value :=
  let '(total, page) := slice_page items q in paginate path q total page.
Definition data_of (v : Value) : Value := obj [("data", v)].

(** ** Transactions *)

Inductive Role := AnyRole | Sent | Received.
#[export] Instance role_dec : EqDecision Role.
Proof. solve_decision. Defined.

Definition TX_FILTER_KEYS : list string :=
  ["type"; "typeGroup"; "id"; "version"; "senderPublicKey"; "senderId"; "recipientId"; "blockId"; "vendorField"; "amount"; "fee"; "nonce"; "sequence"].
Definition SCAN_BUDGET : Z := 50000.
Definition filter_key (k : string) : bool :=
  existsb (fun f => String.eqb k f || match strip_prefix f k with Some rest => starts_with "." rest | None => false end) TX_FILTER_KEYS.
Definition has_tx_filters (q : Params) : bool := existsb (fun e => filter_key e.1) q.

Definition oeq (o : option string) (v : string) : bool := bool_decide (o = Some v).
(** [q.get(key).map_or(true, f)], [q.parse(key).map_or(true, |v| v == x)]. *)
Definition when_given (key : string) (q : Params) (f : string -> bool) : bool := match p_get key q with Some v => f v | None => true end.
Definition when_number (max : Z) (key : string) (q : Params) (x : Z) : bool := match p_parse max key q with Some v => x =? v | None => true end.

Section listings.
Context `{E : Env} `{J : JsonText}.
Variables (n : Network) (s : Store).
Implicit Types (q : Params) (tx : Transaction).

Definition tip : Z := get_last_height s.
Definition raw q : bool := negb (transform q).

Definition receives tx (addr : string) : bool :=
  oeq tx.(tx_recipient_id) addr
  || match tx.(tx_asset) with Some a => existsb (fun p => String.eqb p.(p_recipient_id) addr) (default [] a.(as_payments)) | None => false end
  || match token_asset tx with
     | Some a => oeq a.(ta_recipient_id) addr || existsb (fun t => String.eqb t.(ti_recipient_id) addr) (default [] a.(ta_transfers))
     | None => false
     end
  || match sobj_asset tx with Some e => oeq e.(sa_recipient_id) addr | None => false end.

Definition matches tx q : bool :=
  when_number u16_max "type" q tx.(tx_type_) && when_number u32_max "typeGroup" q tx.(tx_type_group)
  && when_given "id" q (oeq tx.(tx_id)) && when_number 255 "version" q tx.(tx_version)
  && when_given "senderPublicKey" q (String.eqb tx.(tx_sender_public_key))
  && when_given "senderId" q (String.eqb (sender_address n tx)) && when_given "recipientId" q (receives tx)
  && when_given "blockId" q (oeq tx.(tx_block_id)) && when_given "vendorField" q (oeq tx.(tx_vendor_field))
  && range_ok "amount" tx.(tx_amount) q && range_ok "fee" tx.(tx_fee) q && range_ok "nonce" (default 0 tx.(tx_nonce)) q
  && range_ok "sequence" (default 0 tx.(tx_sequence)) q.

Definition role_ok (wallet : option string) (role : Role) tx : bool :=
  match wallet with
  | None => true
  | Some w => match role with AnyRole => true | Sent => String.eqb (sender_address n tx) w | Received => receives tx w end
  end.
Definition extra_ok (extra : Params) tx : bool :=
  when_number u16_max "type" extra tx.(tx_type_) && when_number u32_max "typeGroup" extra tx.(tx_type_group).
Definition keeps q (wallet : option string) (role : Role) (extra : Params) tx : bool :=
  role_ok wallet role tx && extra_ok extra tx && matches tx q.

(** The wallet whose index is walked. *)
Definition index_of q (wallet : option string) : option string :=
  opt_or wallet (opt_or (p_get "address" q) (opt_or (p_get "senderId" q) (p_get "recipientId" q))).

(** The heights asked for; none when no block lies in the time asked for.  Running out of fuel does not happen
    ([height_at_or_after_found]). *)
Definition heights_of q : ApiRes (option (Z * Z)) :=
  if has_range "timestamp" q then
    let exact := p_parse u32_max "timestamp" q in
    let? r := of_res (heights_for_timestamps n s (opt_or exact (p_parse u32_max "timestamp.from" q)) (opt_or exact (p_parse u32_max "timestamp.to" q))) in
    match r with Some r => Ok r | None => Err (500, EmptyString) end
  else Ok (Some (0, u64_max)).

Abbreviation Cache := (option (Z * Block)).

(** One row for each entry whose transaction is there. *)
Fixpoint rows q (entries : list TxIndexEntry) (cache : Cache) : Res (list Value) :=
  match entries with
  | [] => Ok []
  | e :: entries =>
      let? (o, cache) := transaction_at n s e cache in
      let? rest := rows q entries cache in
      Ok (match o with Some (tx, ts) => tx_json n s tx (Some ts) (raw q) tip :: rest | None => rest end)
  end.

Record Scan : Type := mkScan { sc_matched : list Value; sc_total : Z; sc_scanned : Z; sc_estimate : bool }.

Fixpoint scan q (keep : Transaction -> bool) (entries : list TxIndexEntry) (cache : Cache) (sc : Scan) : Res Scan :=
  match entries with
  | [] => Ok sc
  | e :: entries =>
      if (page_limit q <=? Z.of_nat (length sc.(sc_matched))) && (SCAN_BUDGET <=? sc.(sc_scanned))
      then Ok (mkScan sc.(sc_matched) sc.(sc_total) sc.(sc_scanned) true) else
      let scanned := sc.(sc_scanned) + 1 in
      let? (o, cache) := transaction_at n s e cache in
      match o with
      | Some (tx, ts) =>
          if keep tx then
            let total := sc.(sc_total) + 1 in
            let matched := if (page_skip q <? total) && (Z.of_nat (length sc.(sc_matched)) <? page_limit q)
                           then sc.(sc_matched) ++ [tx_json n s tx (Some ts) (raw q) tip] else sc.(sc_matched) in
            scan q keep entries cache (mkScan matched total scanned false)
          else scan q keep entries cache (mkScan sc.(sc_matched) sc.(sc_total) scanned false)
      | None => scan q keep entries cache (mkScan sc.(sc_matched) sc.(sc_total) scanned false)
      end
  end.

(** The total of a scan that stopped early is extrapolated. *)
Definition scan_total q (sc : Scan) (in_range : Z) : Z :=
  if sc.(sc_estimate) then
    Z.max (as_u64 (sc.(sc_total) * in_range / Z.max sc.(sc_scanned) 1)) (as_u64 (page_skip q + Z.of_nat (length sc.(sc_matched))))
  else sc.(sc_total).

Definition list_transactions q (wallet : option string) (role : Role) (extra : Params) (path : string) : ApiRes Value :=
  let? r := heights_of q in
  match r with
  | None => Ok (paginate path q 0 [])
  | Some (lo, hi) =>
      let address := index_of q wallet in
      let needs_tx := has_tx_filters q || negb (bool_decide (extra = [])) || (is_some wallet && negb (bool_decide (role = AnyRole))) in
      let entries := transaction_index s address lo hi (ascending q) in
      if negb needs_tx then
        let? data := of_res (rows q (page_of q entries) None) in
        Ok (paginate path q (transaction_index_count s address lo hi) data)
      else
        let? sc := of_res (scan q (keeps q wallet role extra) entries None (mkScan [] 0 0 false)) in
        Ok (paginate_with path q (scan_total q sc (transaction_index_count s address lo hi)) sc.(sc_estimate) sc.(sc_matched))
  end.

Definition VOTES : Params := [("type", "3"); ("typeGroup", "1")].
Definition transactions_list q : ApiRes Value := list_transactions q None AnyRole [] "/transactions".
Definition votes_list q : ApiRes Value := list_transactions q None AnyRole VOTES "/votes".
Definition transaction_by_id (pool : gmap string Transaction) (id : string) q : ApiRes Value :=
  let? o := of_res (get_transaction_with_timestamp n s id) in
  match o with
  | Some (tx, ts) => Ok (data_of (tx_json n s tx (Some ts) (raw q) tip))
  | None => match pool !! id with
            | Some tx => Ok (data_of (tx_json n s tx None (raw q) tip))
            | None => not_found "Transaction"
            end
  end.
Definition vote_by_id (id : string) q : ApiRes Value :=
  let? o := of_res (get_transaction_with_timestamp n s id) in
  let? (tx, ts) := found "Vote" o in
  if negb (tx.(tx_type_) =? tx_type.VOTE) || negb (tx.(tx_type_group) =? TYPE_GROUP_CORE) then not_found "Vote"
  else Ok (data_of (tx_json n s tx (Some ts) (raw q) tip)).

(** ** Pending transactions *)

(** By sender, then nonce; none comes first. *)
Definition nonce_key (o : option Z) : Z := match o with Some x => x + 1 | None => 0 end.
Definition pending_le (x y : Transaction) : Prop :=
  if String.eqb x.(tx_sender_public_key) y.(tx_sender_public_key) then nonce_key x.(tx_nonce) <= nonce_key y.(tx_nonce)
  else String.leb x.(tx_sender_public_key) y.(tx_sender_public_key) = true.
#[local] Instance pending_le_dec : RelDecision pending_le.
Proof. intros x y. unfold pending_le. destruct (String.eqb _ _); apply _. Defined.

Context `{HO : HashOrder}.
Variables (cfg : MempoolConfig) (json_len : Transaction -> Z).

Definition hint_json tx : option Value :=
  (fun h => obj [("fee", VString (fmt_u tx.(tx_fee))); ("legacyMinFee", VString (fmt_u h.1));
                 ("legacyDynamicFees", VBool cfg.(mc_legacy_dynamic_fees)); ("message", VString h.2)]) <$> fee_hint cfg n s json_len tx.

Definition pending_row (p : Pool) q tx : Value :=
  let v := tx_json n s tx None (raw q) tip in
  match v, tx.(tx_id) ≫= fun id => p.(pl_meta) !! id with
  | VObject _, Some m => vset "pool" (obj [("enteredHeight", VNumber m.(pm_entered)); ("ageBlocks", VNumber (sat_sub tip m.(pm_entered)));
                                          ("lastRelayHeight", VNumber m.(pm_relayed)); ("feeHint", default VNull (hint_json tx))]) v
  | _, _ => v
  end.
Definition pending_of (p : Pool) q : list Transaction :=
  sort_by pending_le (List.filter (fun t => when_given "senderId" q (String.eqb (sender_address n t))) (pool_values p.(pl_txs))).
Definition unconfirmed (p : Pool) q : ApiRes Value :=
  Ok (paginate_slice "/transactions/unconfirmed" q (pending_row p q <$> pending_of p q)).
Definition unconfirmed_by_id (p : Pool) (id : string) q : ApiRes Value :=
  match p.(pl_txs) !! id with Some tx => Ok (data_of (tx_json n s tx None (raw q) tip)) | None => not_found "Transaction" end.

(** Only for a caller on the machine itself: the address of the connection, and whether a proxy passed it on. *)
Definition local_only (message : string) (loopback proxied : bool) : ApiRes unit :=
  if negb loopback || proxied then Err (403, message) else Ok tt.
Definition purge_unconfirmed (loopback proxied : bool) q (p : Pool) : Pool * ApiRes Value :=
  match local_only "mempool purge is allowed only from 127.0.0.1 on the node itself (sth-cli mempool-purge)" loopback proxied with
  | Err e => (p, Err e)
  | Ok _ =>
      let '(p, removed) := purge n json_len (p_get "senderId" q) p in
      (p, Ok (data_of (obj [("removed", VNumber removed); ("senderId", vstr (p_get "senderId" q))])))
  end.

(** The body read as a list of transactions, or the message of serde. *)
Definition response_json (r : PoolResponse) : Value :=
  obj [("accept", vstrings r.(pr_accept)); ("broadcast", vstrings r.(pr_broadcast)); ("excess", vstrings r.(pr_excess)); ("invalid", vstrings r.(pr_invalid))].
Definition errors_json (errors : Errors) : Value :=
  if bool_decide (errors = ∅) then VNull
  else obj ((fun e => (e.1, obj [("type", VString e.2.(pe_type)); ("message", VString e.2.(pe_message))])) <$> bt_entries errors).
Definition post (now : Z) (body : string + list Transaction) (p : Pool) : Pool * ApiRes Value :=
  match body with
  | inl e => (p, Err (422, "Invalid transaction payload: " +:+ e))
  | inr txs =>
      if (length txs =? 0)%nat || (40 <? length txs)%nat then (p, Err (422, "transactions must contain 1..40 items")) else
      let hints := omap (fun t => match transaction_id t, hint_json t with Ok id, Some h => Some (id, h) | _, _ => None end) txs in
      let '(p, resp, errors) := add_many cfg n s json_len now txs p in
      let hints := List.filter (fun e => existsb (String.eqb e.1) resp.(pr_accept)) hints in
      (p, Ok (obj [("data", response_json resp); ("errors", errors_json errors);
                   ("feeHints", if bool_decide (length hints = 0%nat) then VNull else obj hints)]))
  end.

(** ** Blocks *)

Definition blocks_json q (l : list Block) : list Value := (fun b => block_json n s b (raw q) tip) <$> l.
Definition one_block q (o : Res (option Block)) : ApiRes Value :=
  let? o := of_res o in
  let data := blocks_json q (opt_list o) in
  Ok (paginate "/blocks" q (Z.of_nat (length data)) data).

Definition height_at (ts : Z) : ApiRes Z :=
  let? o := of_res (height_at_or_after n s ts) in
  match o with Some h => Ok h | None => Err (500, EmptyString) end.

(** [ts + 1] wraps. *)
Definition height_after (ts : Z) : ApiRes Z := rmap (fun h => sat_sub h 1) (height_at (as_u32 (ts + 1))).
Definition narrow (o : option Z) (at_ : Z -> ApiRes Z) (combine : Z -> Z -> Z) (bound : Z) : ApiRes Z :=
  match o with Some ts => rmap (combine bound) (at_ ts) | None => Ok bound end.
Definition block_window q : ApiRes (Z * Z) :=
  let from := Z.max (default 1 (p_parse u64_max "height.from" q)) 1 in
  let to := Z.min (default tip (p_parse u64_max "height.to" q)) tip in
  let? from := narrow (p_parse u32_max "timestamp" q) height_at Z.max from in
  let? to := narrow (p_parse u32_max "timestamp" q) height_after Z.min to in
  let? from := narrow (p_parse u32_max "timestamp.from" q) height_at Z.max from in
  let? to := narrow (p_parse u32_max "timestamp.to" q) height_after Z.min to in
  Ok ((if has_range "timestamp" q then Z.max from (first_height s) else from), to).

(** Newest first, at most 200000 blocks back. *)
Fixpoint by_generator_go (fuel : nat) q (pk : string) (from h scanned : Z) (found : list Value) (total : Z) : Res (list Value * Z) :=
  match fuel with
  | O => Ok (found, total)
  | S fuel =>
      if negb (from <=? h) || negb (scanned <? 200000) then Ok (found, total) else
      let? o := get_block_by_height n s h in
      let '(found, total) :=
        match o with
        | Some b => if String.eqb b.(b_generator_public_key) pk then
                      let total := total + 1 in
                      (if (page_skip q <? total) && (Z.of_nat (length found) <? page_limit q)
                       then found ++ [block_json n s b (raw q) tip] else found, total)
                    else (found, total)
        | None => (found, total)
        end in
      if h =? 0 then Ok (found, total) else by_generator_go fuel q pk from (h - 1) (scanned + 1) found total
  end.
Definition by_generator q (pk : string) (from to : Z) : ApiRes Value :=
  let? (found, total) := of_res (by_generator_go (Z.to_nat (to - from + 1)) q pk from to 0 [] 0) in
  Ok (paginate "/blocks" q total (if ascending q then rev found else found)).

(** The blocks of one page of the window. *)
Definition block_page q (from to : Z) : Res (list Block) :=
  let limit := page_limit q in
  let offset := page_skip q in
  if ascending q then
    let first := as_u64 (from + offset) in
    if to <? first then Ok [] else LegacyWire.get_blocks_from n s first (Z.min limit (to - first + 1))
  else
    let last := sat_sub to offset in
    if (last <? from) || (to <? offset) then Ok [] else
    let first := Z.max (sat_sub last (limit - 1)) from in
    rmap (fun l => rev l) (LegacyWire.get_blocks_from n s first (last - first + 1)).

Definition blocks_list q : ApiRes Value :=
  match p_get "id" q with
  | Some id => one_block q (get_block_by_id n s id)
  | None =>
      match p_parse u64_max "height" q with
      | Some h => one_block q (get_block_by_height n s h)
      | None =>
          let? (from, to) := block_window q in
          if to <? from then Ok (paginate "/blocks" q 0 []) else
          match p_get "generatorPublicKey" q with
          | Some pk => by_generator q pk from to
          | None => let? blocks := of_res (block_page q from to) in Ok (paginate "/blocks" q (to - from + 1) (blocks_json q blocks))
          end
      end
  end.

Definition resolve_block (id : string) : ApiRes Block :=
  let? o := of_res (if slen id =? 64 then get_block_by_id n s id
                    else match parse_u64 id with Some h => get_block_by_height n s h | None => Ok None end) in
  found "Block" o.
Definition block_by_id (id : string) q : ApiRes Value :=
  let? b := resolve_block id in Ok (data_of (block_json n s b (raw q) tip)).
Definition block_first q : ApiRes Value :=
  let? o := of_res (get_block_by_height n s 1) in let? b := found "Block" o in Ok (data_of (block_json n s b (raw q) tip)).
Definition block_last q : ApiRes Value :=
  let? o := of_res (get_last_block n s) in let? b := found "Block" o in Ok (data_of (block_json n s b (raw q) tip)).
Definition block_transactions (id : string) q : ApiRes Value :=
  let? b := resolve_block id in
  let txs := List.filter (fun t => matches t q) b.(b_transactions) in
  let txs := if ascending q then txs else if is_some (p_get "orderBy" q) then rev txs else txs in
  Ok (paginate_slice ("/blocks/" +:+ id +:+ "/transactions") q ((fun t => tx_json n s t (Some b.(b_timestamp)) (raw q) tip) <$> txs)).

(** ** Wallets *)

(** Richest first, then by address. *)
Definition rich_le (x y : WalletState) : Prop :=
  y.(ws_balance) < x.(ws_balance) \/ (x.(ws_balance) = y.(ws_balance) /\ String.leb x.(ws_address) y.(ws_address) = true).
Definition nonce_le (x y : WalletState) : Prop :=
  y.(ws_nonce) < x.(ws_nonce) \/ (x.(ws_nonce) = y.(ws_nonce) /\ String.leb x.(ws_address) y.(ws_address) = true).
Definition address_le (x y : WalletState) : Prop := String.leb x.(ws_address) y.(ws_address) = true.
#[local] Instance rich_le_dec : RelDecision rich_le.
Proof. intros x y. unfold rich_le. apply _. Defined.
#[local] Instance nonce_le_dec : RelDecision nonce_le.
Proof. intros x y. unfold nonce_le. apply _. Defined.
#[local] Instance address_le_dec : RelDecision address_le.
Proof. intros x y. unfold address_le. apply _. Defined.
Definition wallets_snapshot : list WalletState := sort_by rich_le (all_wallets s).

Definition filtered_wallets q : list WalletState :=
  match p_get "address" q with
  | Some a => opt_list (get_wallet s a)
  | None =>
      match p_get "publicKey" q with
      | Some pk => List.filter (fun w => oeq w.(ws_public_key) pk) (opt_list (find_wallet s pk))
      | None =>
          let '(by_field, asc) := default ("balance", false) (p_order q) in
          let out := List.filter (fun w => range_ok "balance" (Z.max w.(ws_balance) 0) q && range_ok "nonce" w.(ws_nonce) q) wallets_snapshot in
          let out := if String.eqb by_field "nonce" then sort_by nonce_le out
                     else if String.eqb by_field "address" then sort_by address_le out else out in
          if asc : bool then rev out else out
      end
  end.
Definition wallet_row (w : WalletState) : Value := wallet_json n w None None.
Definition wallets_list q : ApiRes Value :=
  let '(total, page) := slice_page (filtered_wallets q) q in Ok (paginate "/wallets" q total (wallet_row <$> page)).
Definition wallets_top q : ApiRes Value :=
  Ok (paginate "/wallets/top" q (Z.of_nat (length wallets_snapshot)) (wallet_row <$> page_of q wallets_snapshot)).

(** What a needle (trimmed, and in lower case) matches in a wallet. *)
Definition search_hit (needle lower : string) (w : WalletState) : option string :=
  let is_hex := (4 <=? slen needle) && str_forall is_hexdigit needle in
  if starts_with needle w.(ws_address) then Some "address"
  else if match w.(ws_username) with Some u => starts_with lower (to_lowercase u) | None => false end then Some "username"
  else if is_hex && match w.(ws_public_key) with Some pk => starts_with lower pk | None => false end then Some "publicKey"
  else None.
Definition search_row (w : WalletState) (kind : string) : Value :=
  obj [("address", VString w.(ws_address)); ("publicKey", vstr w.(ws_public_key)); ("username", vstr w.(ws_username));
       ("balance", VString (fmt_i w.(ws_balance))); ("isDelegate", VBool (is_delegate w)); ("isResigned", VBool w.(ws_resigned)); ("match", VString kind)].
(** [needle] is the parameter [q], trimmed by the standard library. *)
Definition wallets_search (needle : string) q : ApiRes Value :=
  let limit := Z.max 1 (Z.min 50 (default 10 (p_parse u64_max "limit" q))) in
  if slen needle <? 2 then Ok (obj [("meta", obj [("query", VString needle); ("count", VNumber 0)]); ("data", VArray [])]) else
  let hits := omap (fun w => search_row w <$> search_hit needle (to_lowercase needle) w) wallets_snapshot in
  let data := take (Z.to_nat limit) hits in
  Ok (obj [("meta", obj [("query", VString needle); ("count", VNumber (Z.of_nat (length data))); ("totalCount", VNumber (Z.of_nat (length hits)))]);
           ("data", VArray data)]).

Definition wallet_of (id : string) : ApiRes WalletState := found "Wallet" (find_wallet s id).
Definition wallet_transactions (id : string) (role : Role) (extra : Params) (suffix : string) q : ApiRes Value :=
  let? w := wallet_of id in list_transactions q (Some w.(ws_address)) role extra ("/wallets/" +:+ id +:+ "/" +:+ suffix).
Definition wallet_all_transactions (id : string) q : ApiRes Value := wallet_transactions id AnyRole [] "transactions" q.
Definition wallet_sent (id : string) q : ApiRes Value := wallet_transactions id Sent [] "transactions/sent" q.
Definition wallet_received (id : string) q : ApiRes Value := wallet_transactions id Received [] "transactions/received" q.
Definition wallet_votes (id : string) q : ApiRes Value := wallet_transactions id Sent VOTES "votes" q.
Definition wallet_locks (now : Z) (id : string) q : ApiRes Value :=
  let? w := wallet_of id in
  Ok (paginate_slice ("/wallets/" +:+ id +:+ "/locks") q ((fun e => lock_json n s now e.2) <$> bt_entries w.(ws_locks))).

(** ** Delegates *)

Definition ranked : list Value := imap (fun i p => delegate_json n s p.1 p.2 (Z.of_nat i + 1)) (delegate_ranking s).
Definition vtext (k : string) (v : Value) : option string := as_str (vget k v).
Definition is_delegate_row (id : string) (d : Value) : bool := oeq (vtext "username" d) id || oeq (vtext "address" d) id || oeq (vtext "publicKey" d) id.
Definition find_delegate (id : string) : option Value := List.find (is_delegate_row id) ranked.
Definition text_number (o : option string) : Z := default 0 (o ≫= parse_u64).
Definition value_number (v : Value) : Z := default 0 (as_number v).

Definition delegate_ok q (d : Value) : bool :=
  forallb (fun k => when_given k q (oeq (vtext k d))) ["username"; "address"; "publicKey"]
  && when_given "isResigned" q (fun r => bool_decide (as_bool (vget "isResigned" d) = Some (String.eqb r "true")))
  && range_ok "votes" (text_number (vtext "votes" d)) q
  && range_ok "blocks.produced" (value_number (vget "produced" (vget "blocks" d))) q
  && range_ok "blocks.missed" (value_number (vget "missed" (vget "blocks" d))) q
  && range_ok "forged.fees" (text_number (vtext "fees" (vget "forged" d))) q
  && range_ok "forged.total" (text_number (vtext "total" (vget "forged" d))) q.

Definition delegate_key (by_field : string) (d : Value) : Z :=
  if String.eqb by_field "votes" then text_number (vtext "votes" d)
  else if String.eqb by_field "blocks.produced" then value_number (vget "produced" (vget "blocks" d))
  else if String.eqb by_field "blocks.missed" then value_number (vget "missed" (vget "blocks" d))
  else if String.eqb by_field "forged.total" then text_number (vtext "total" (vget "forged" d))
  else value_number (vget "rank" d).
(** No name comes first. *)
Definition opt_str_leb (x y : option string) : bool :=
  match x, y with None, _ => true | Some _, None => false | Some x, Some y => String.leb x y end.
#[local] Instance bool_rel_dec {A} (f : A -> A -> bool) : RelDecision (fun x y => f x y = true) := fun x y => bool_eq_dec _ _.
#[local] Instance delegate_key_dec f : RelDecision (fun x y => delegate_key f x <= delegate_key f y) := fun x y => Z.le_dec _ _.
Definition delegates_sorted q (l : list Value) : list Value :=
  match p_order q with
  | None => l
  | Some (by_field, asc) =>
      if String.eqb by_field "username" then
        let l := sort_by (fun x y => opt_str_leb (vtext "username" x) (vtext "username" y) = true) l in if asc then l else rev l
      else
        let l := sort_by (fun x y => delegate_key by_field x <= delegate_key by_field y) l in
        if Bool.eqb (String.eqb by_field "rank") asc then l else rev l
  end.
Definition delegates_list q : ApiRes Value := Ok (paginate_slice "/delegates" q (delegates_sorted q (List.filter (delegate_ok q) ranked))).
Definition delegate_by_id (id : string) : ApiRes Value := rmap data_of (found "Delegate" (find_delegate id)).

Definition voter_ok q (pk : string) (w : WalletState) : bool :=
  oeq w.(ws_vote) pk && range_ok "balance" (Z.max w.(ws_balance) 0) q && range_ok "nonce" w.(ws_nonce) q
  && when_given "address" q (String.eqb w.(ws_address)) && when_given "publicKey" q (oeq w.(ws_public_key)).
Definition delegate_voters (id : string) q : ApiRes Value :=
  let? d := found "Delegate" (find_delegate id) in
  let voters := List.filter (voter_ok q (default EmptyString (vtext "publicKey" d))) wallets_snapshot in
  let '(total, page) := slice_page (if ascending q then rev voters else voters) q in
  Ok (paginate ("/delegates/" +:+ id +:+ "/voters") q total (wallet_row <$> page)).

(** The first [skip] of them are passed over; at most 200000 blocks back. *)
Fixpoint delegate_blocks_go (fuel : nat) q (pk : string) (h scanned : Z) (found_ : list Value) (skipped : Z) : Res (list Value) :=
  match fuel with
  | O => Ok found_
  | S fuel =>
      if negb (0 <? h) || negb (Z.of_nat (length found_) <? page_limit q) || negb (scanned <? 200000) then Ok found_ else
      let? o := get_block_by_height n s h in
      let '(found_, skipped) :=
        match o with
        | Some b => if String.eqb b.(b_generator_public_key) pk then
                      if skipped <? page_skip q then (found_, skipped + 1) else (found_ ++ [block_json n s b (raw q) tip], skipped)
                    else (found_, skipped)
        | None => (found_, skipped)
        end in
      delegate_blocks_go fuel q pk (h - 1) (scanned + 1) found_ skipped
  end.
Definition delegate_blocks (id : string) q : ApiRes Value :=
  let? d := found "Delegate" (find_delegate id) in
  let? l := of_res (delegate_blocks_go (Z.to_nat tip) q (default EmptyString (vtext "publicKey" d)) tip 0 [] 0) in
  Ok (paginate ("/delegates/" +:+ id +:+ "/blocks") q (value_number (vget "produced" (vget "blocks" d))) (if ascending q then rev l else l)).

Definition round_delegates (round : Z) : ApiRes Value :=
  let count := (milestone n (Z.max tip 1)).(m_active_delegates) in
  let current := (Z.max tip 1 - 1) / count + 1 in
  let? l := match get_round s round with
            | Some l => Ok l
            | None => if (round =? current) || (round =? current + 1) then Ok (active_delegates n s count) else not_found "Round"
            end in
  Ok (data_of (VArray ((fun d => obj [("publicKey", VString d.(dr_public_key)); ("votes", VString (fmt_u d.(dr_votes)))]) <$> l))).

Definition wallet_by_id (id : string) : ApiRes Value :=
  let? w := wallet_of id in
  let d := if is_delegate w then find_delegate w.(ws_address) else None in
  Ok (data_of (wallet_json n w (d ≫= fun d => as_number (vget "rank" d)) (d ≫= fun d => vtext "votes" d ≫= parse_u64))).

(** ** Locks *)

Definition lock_ok q (l : LockRecord) : bool :=
  when_given "lockId" q (String.eqb l.(lk_lock_id)) && when_given "senderPublicKey" q (String.eqb l.(lk_sender_public_key))
  && when_given "recipientId" q (String.eqb l.(lk_recipient_id)) && when_given "secretHash" q (String.eqb l.(lk_secret_hash))
  && when_given "vendorField" q (oeq l.(lk_vendor_field)) && when_number 255 "expirationType" q l.(lk_expiration).(he_type_)
  && range_ok "amount" l.(lk_amount) q && range_ok "expirationValue" l.(lk_expiration).(he_value) q && range_ok "timestamp.epoch" l.(lk_timestamp) q.
Definition epoch_of (v : Value) : Z := match as_number (vget "epoch" (vget "timestamp" v)) with Some x => x + 1 | None => 0 end.
#[local] Instance epoch_dec : RelDecision (fun x y => epoch_of y <= epoch_of x) := fun x y => Z.le_dec _ _.
Definition locks_list (now : Z) q : ApiRes Value :=
  let items := lock_json n s now <$> List.filter (lock_ok q) (open_locks s) in
  let items := List.filter (fun l => when_given "isExpired" q (fun v => bool_decide (as_bool (vget "isExpired" l) = Some (String.eqb v "true")))) items in
  let items := sort_by (fun x y => epoch_of y <= epoch_of x) items in
  Ok (paginate_slice "/locks" q (if ascending q then rev items else items)).
Definition lock_by_id (now : Z) (id : string) : ApiRes Value :=
  let? l := found "Lock" (get_lock s id) in Ok (data_of (lock_json n s now l)).

(** The claim or refund that closed a lock, among what the recipient's index names. *)
Definition closes (id : string) tx : bool :=
  if tx.(tx_type_) =? tx_type.HTLC_CLAIM then match tx.(tx_asset) ≫= as_claim with Some c => String.eqb c.(hc_lock_transaction_id) id | None => false end
  else if tx.(tx_type_) =? tx_type.HTLC_REFUND then match tx.(tx_asset) ≫= as_refund with Some r => String.eqb r.(hr_lock_transaction_id) id | None => false end
  else false.
Fixpoint closing (id : string) (candidates : list string) : Res (option (Transaction * Z)) :=
  match candidates with
  | [] => Ok None
  | cand :: candidates =>
      let? o := get_transaction_with_timestamp n s cand in
      match o with
      | Some (tx, ts) => if closes id tx then Ok (Some (tx, ts)) else closing id candidates
      | None => closing id candidates
      end
  end.
Definition unlocked_one (id : string) : Res (option (Transaction * Z)) :=
  let? lock := get_transaction n s id in
  match lock with
  | Some lock =>
      if negb (lock.(tx_type_) =? tx_type.HTLC_LOCK) then Ok None else
      match lock.(tx_recipient_id) with
      | Some recipient => closing id (transaction_ids s (Some recipient))
      | None => Ok None
      end
  | None => Ok None
  end.
Definition locks_unlocked (body : string + list string) q : ApiRes Value :=
  match body with
  | inl e => Err (422, "Invalid payload: " +:+ e)
  | inr ids =>
      let? l := of_res (rmapM unlocked_one (take 100 ids)) in
      Ok (paginate_slice "/locks/unlocked" q ((fun p => tx_json n s p.1 (Some p.2) (raw q) tip) <$> omap Datatypes.id l))
  end.

(** ** Tokens *)

(** By id, or by symbol in capitals ([to_uppercase] of a symbol is an argument). *)
Definition resolve_token (upper : string) (key : string) : ApiRes (string * TokenState) :=
  let? id := if slen key =? 64 then Ok key else found "Token" (token_id_by_symbol s upper) in
  let? t := found "Token" (token_state s id) in Ok (id, t).
Definition init_height (v : Value) : Z := value_number (vget "initHeight" v).
#[local] Instance init_height_dec : RelDecision (fun x y => init_height x <= init_height y) := fun x y => Z.le_dec _ _.
Definition tokens_list q : ApiRes Value :=
  Ok (paginate_slice "/tokens" q (sort_by (fun x y => init_height x <= init_height y) ((fun e => token_json n s e.1 e.2) <$> all_tokens s))).
Definition token_by_id (upper key : string) : ApiRes Value :=
  let? (id, t) := resolve_token upper key in Ok (data_of (token_json n s id t)).
Definition token_holders_list (upper key : string) q : ApiRes Value :=
  let? (id, t) := resolve_token upper key in
  let items := (fun h => obj [("address", VString h.1); ("balance", VString (fmt_u h.2)); ("symbol", VString t.(ts_symbol));
                              ("decimals", VNumber t.(ts_decimals))]) <$> token_holders s id in
  Ok (paginate_slice ("/tokens/" +:+ key +:+ "/holders") q items).
Definition token_orders_list (upper key : string) q : ApiRes Value :=
  let? (id, t) := resolve_token upper key in
  Ok (paginate_slice ("/tokens/" +:+ key +:+ "/orders") q ((fun o => order_json o (Some t)) <$> token_orders s id)).
Definition token_order_by_id (upper key order_id : string) : ApiRes Value :=
  let? (id, t) := resolve_token upper key in
  let? o := found "Order" (match token_order s order_id with Some o => if String.eqb o.(od_token_id) id then Some o else None | None => None end) in
  Ok (data_of (order_json o (Some t))).
Definition wallet_orders (address : string) : ApiRes Value :=
  Ok (data_of (VArray ((fun o => order_json o (token_state s o.(od_token_id))) <$> Sync.wallet_orders s address))).
Definition wallet_tokens (address : string) : ApiRes Value :=
  let? w := found "Wallet" (get_wallet s address) in
  Ok (data_of (VArray ((fun e => let t := token_state s e.1 in
                                 obj [("id", VString e.1); ("balance", VString (fmt_u e.2)); ("symbol", vopt (fun t => VString t.(ts_symbol)) t);
                                      ("decimals", vopt (fun t => VNumber t.(ts_decimals)) t)]) <$> bt_entries w.(ws_tokens)))).

(** *** Candles *)

Record Candle : Type := mkCandle { cn_open : Z; cn_high : Z; cn_low : Z; cn_close : Z; cn_volume : Z; cn_value : Z; cn_trades : Z }.

(** The trades come newest first; the sums wrap. *)
Definition slot_of (bucket ts : Z) : Z := ts - ts mod bucket.
Definition candle_add (tr : TokenTrade) (c : Candle) : Candle :=
  mkCandle tr.(tt_price) (Z.max c.(cn_high) tr.(tt_price)) (Z.min c.(cn_low) tr.(tt_price)) c.(cn_close)
    (as_u64 (c.(cn_volume) + tr.(tt_amount))) (as_u64 (c.(cn_value) + tr.(tt_total))) (as_u64 (c.(cn_trades) + 1)).
Definition candle_new (tr : TokenTrade) : Candle := mkCandle tr.(tt_price) tr.(tt_price) tr.(tt_price) tr.(tt_price) 0 0 0.
Fixpoint candles_go (bucket since : Z) (trades : list TokenTrade) (m : gmap Z Candle) : gmap Z Candle :=
  match trades with
  | [] => m
  | tr :: trades =>
      if tr.(tt_timestamp) <? since then m else
      let slot := slot_of bucket tr.(tt_timestamp) in
      candles_go bucket since trades (<[slot := candle_add tr (default (candle_new tr) (m !! slot))]> m)
  end.
Definition candles (bucket since : Z) (trades : list TokenTrade) : gmap Z Candle := candles_go bucket since trades ∅.

Definition candle_json (e : Z * Candle) : Value :=
  let c := e.2 in
  obj [("timestamp", VNumber e.1); ("time", VString (human_time (epoch_to_unix n e.1))); ("open", VString (fmt_u c.(cn_open)));
       ("high", VString (fmt_u c.(cn_high))); ("low", VString (fmt_u c.(cn_low))); ("close", VString (fmt_u c.(cn_close)));
       ("volume", VString (fmt_u c.(cn_volume))); ("value", VString (fmt_u c.(cn_value))); ("trades", VNumber c.(cn_trades))].
Definition bucket_of q : option Z :=
  match p_get "groupBy" q with
  | Some g => if String.eqb g "day" then Some 86400 else if String.eqb g "hour" then Some 3600 else None
  | None => None
  end.
Definition trade_json (t : TokenState) (tr : TokenTrade) : Value :=
  obj [("txId", VString tr.(tt_tx_id)); ("orderId", VString tr.(tt_order_id)); ("buyer", VString tr.(tt_buyer)); ("seller", VString tr.(tt_seller));
       ("amount", VString (fmt_u tr.(tt_amount))); ("price", VString (fmt_u tr.(tt_price))); ("total", VString (fmt_u tr.(tt_total)));
       ("height", VNumber tr.(tt_height)); ("timestamp", VNumber tr.(tt_timestamp)); ("time", VString (human_time (epoch_to_unix n tr.(tt_timestamp))));
       ("symbol", VString t.(ts_symbol)); ("decimals", VNumber t.(ts_decimals))].
(** [now] is the epoch of the clock; zero days are the whole history. *)
Definition candles_since (now : Z) q : Z :=
  let days := Z.min (default 30 (p_parse u32_max "days" q)) 365 in if days =? 0 then 0 else sat_sub now (days * 86400).
Definition trades_list (now : Z) (upper key : string) q : ApiRes Value :=
  let? (id, t) := resolve_token upper key in
  match bucket_of q with
  | Some bucket =>
      let data := candle_json <$> ordered Z.le (candles bucket (candles_since now q) (token_trades s id)) in
      Ok (obj [("meta", obj [("groupBy", vstr (p_get "groupBy" q)); ("days", VNumber (Z.min (default 30 (p_parse u32_max "days" q)) 365));
                             ("symbol", VString t.(ts_symbol)); ("decimals", VNumber t.(ts_decimals)); ("count", VNumber (Z.of_nat (length data)))]);
               ("data", VArray data)])
  | None =>
      let trades := token_trades s id in
      Ok (paginate ("/tokens/" +:+ key +:+ "/trades") q (Z.of_nat (length trades)) (trade_json t <$> page_of q trades))
  end.
Definition token_logo (upper key : string) : ApiRes (list (string * string) * list byte) :=
  let? (_, t) := resolve_token upper key in
  let? m := found "Logo" (match t.(ts_meta) with Some m => if is_some m.(tm_logo) then Some m else None | None => None end) in
  let? bytes := found "Logo" (logo_bytes m) in
  let mime := match m.(tm_logo_type) with
              | Some k => if String.eqb k "svg" then "image/svg+xml" else if String.eqb k "png" then "image/png" else "application/octet-stream"
              | None => "application/octet-stream"
              end in
  Ok ([("content-type", mime); ("cache-control", "public, max-age=3600");
       ("content-security-policy", "default-src 'none'; style-src 'unsafe-inline'")], bytes).

(** ** SmartObjects and service nodes *)

Definition sobj_name (v : Value) : option string := vtext "name" (vget "data" v).
Definition sobj_all : ApiRes (list Value) :=
  let? l := of_res (all_sobjects n s) in
  Ok (sort_by (fun x y => opt_str_leb (sobj_name x) (sobj_name y) = true) ((fun e => sobj_json s e.1.1 e.1.2 e.2) <$> l)).

Fixpoint value_eqb (a b : Value) : bool :=
  match a, b with
  | VNull, VNull => true
  | VBool x, VBool y => Bool.eqb x y
  | VNumber x, VNumber y => x =? y
  | VFloat x, VFloat y => String.eqb x y
  | VString x, VString y => String.eqb x y
  | VArray l, VArray k =>
      (fix go l k := match l, k with [], [] => true | x :: l, y :: k => value_eqb x y && go l k | _, _ => false end) l k
  | VObject l, VObject k =>
      (fix go l k := match l, k with [], [] => true | (kx, x) :: l, (ky, y) :: k => String.eqb kx ky && value_eqb x y && go l k | _, _ => false end) l k
  | _, _ => false
  end.
Definition field_eq (want item : Value) : bool :=
  match item, want with VString a, VString b => eq_ignore_case a b | VNull, VNull => true | a, b => value_eqb a b end.
(** A text that is JSON is read as its value, except for the three that are always text. *)
Definition want_of (key : string) (v : Value) : Value :=
  match v with
  | VString t => if existsb (String.eqb key) ["address"; "publicKey"; "id"] then v else default v (json_parse (bytes_of t))
  | v => v
  end.
Definition sobj_filter (filters : list (string * Value)) (items : list Value) : list Value :=
  let by_key items key :=
    match o_get key filters with
    | Some v => List.filter (fun i => field_eq (want_of key v) (vget key i)) items
    | None => items
    end in
  let items := foldl by_key items ["type"; "subType"; "isResigned"; "address"; "publicKey"; "id"] in
  match o_get "name" filters with
  | Some (VString name) => List.filter (fun i => match sobj_name i with Some x => eq_ignore_case x name | None => false end) items
  | _ => items
  end.
(** Of a parameter given twice the last one counts. *)
Definition filters_of q : list (string * Value) := foldl (fun m e => o_insert e.1 (VString e.2) m) [] q.
Definition sobj_list q : ApiRes Value :=
  let? items := sobj_all in Ok (paginate_slice "/sobj" q (sobj_filter (filters_of q) items)).
Definition sobj_by_id (id : string) : ApiRes Value :=
  let? o := of_res (get_sobject n s id) in
  let? (owner, r) := found "SmartObject" o in Ok (data_of (sobj_json s id owner r)).
Definition sobj_search (body : Value) q : ApiRes Value :=
  let? items := sobj_all in
  Ok (paginate_slice "/sobj/search" q (match body with VObject f => sobj_filter f items | _ => items end)).

(** A registration with its owner and the height it was made at. *)
Record Registration : Type := mkRegistration { rg_id : string; rg_owner : string; rg_object : SmartObject; rg_height : Z }.
#[local] Instance height_dec : RelDecision (fun x y => rg_height x <= rg_height y) := fun x y => Z.le_dec _ _.
Definition registration (e : string * string * SmartObject) : Res (list Registration) :=
  let '(id, owner, r) := e in
  if negb (r.(so_type_) =? sobj.TYPE_SERVICE_NODE) then Ok [] else
  let? o := get_transaction_with_timestamp n s id in
  Ok [mkRegistration id owner r (default 0 (o ≫= fun p => p.1.(tx_block_height)))].
Definition registrations : Res (list Registration) :=
  let? l := all_sobjects n s in
  let? l := rmapM registration l in
  Ok (sort_by (fun x y => rg_height x <= rg_height y) (concat l)).

Inductive Inactive := Resigned | Collateral | EndpointTaken.
Record ServiceEntry : Type := mkEntry { nd_registration : Registration; nd_endpoint : string; nd_service : ServiceNode; nd_balance : Z; nd_reason : option Inactive }.

(** The first registration of an endpoint that is not resigned has it, whether it is active or not. *)
Fixpoint nodes_go (collateral : Z) (l : list Registration) (seen : gset string) : list ServiceEntry :=
  match l with
  | [] => []
  | r :: l =>
      match parse_service_node (default EmptyString r.(rg_object).(so_data).(sd_ntfry_data)) with
      | None => nodes_go collateral l seen
      | Some (endpoint, service) =>
          let balance := match get_wallet s r.(rg_owner) with Some w => w.(ws_balance) | None => 0 end in
          let resigned := r.(rg_object).(so_resigned) in
          let duplicate := negb resigned && bool_decide (endpoint ∈ seen) in
          let seen := if resigned then seen else {[endpoint]} ∪ seen in
          let reason := if resigned then Some Resigned else if balance <? as_i64 collateral then Some Collateral
                        else if duplicate then Some EndpointTaken else None in
          mkEntry r endpoint service balance reason :: nodes_go collateral l seen
      end
  end.
Definition collateral : Z := (milestone n (Z.max tip 1)).(m_masternodes).(mn_collateral_amount).
Definition service_nodes : Res (list ServiceEntry) := let? l := registrations in Ok (nodes_go collateral l ∅).

Definition reason_text (r : Inactive) : string := match r with Resigned => "resigned" | Collateral => "collateral" | EndpointTaken => "endpointTaken" end.
Definition active (d : ServiceEntry) : bool := negb (is_some d.(nd_reason)).
Definition node_json (d : ServiceEntry) : Value :=
  let r := d.(nd_registration) in
  obj [("id", VString r.(rg_id)); ("name", vstr r.(rg_object).(so_data).(sd_name)); ("address", VString r.(rg_owner));
       ("publicKey", vstr (get_wallet s r.(rg_owner) ≫= ws_public_key)); ("endpointId", VString d.(nd_endpoint)); ("roles", vstrings d.(nd_service).(sn_roles));
       ("api", vstr d.(nd_service).(sn_api)); ("storageGb", vopt VNumber d.(nd_service).(sn_storage)); ("collateral", VString (fmt_u collateral));
       ("balance", VString (fmt_i d.(nd_balance))); ("active", VBool (active d)); ("inactiveReason", vopt (fun x => VString (reason_text x)) d.(nd_reason));
       ("since", VNumber r.(rg_height)); ("ntfryData", vstr r.(rg_object).(so_data).(sd_ntfry_data))].
Definition masternodes q : ApiRes Value :=
  let? l := of_res service_nodes in
  let l := List.filter (fun d => when_given "active" q (fun a => Bool.eqb (active d) (String.eqb a "true"))) l in
  let l := List.filter (fun d => when_given "role" q (fun r => existsb (String.eqb r) d.(nd_service).(sn_roles))) l in
  Ok (paginate_slice "/masternodes" q (node_json <$> l)).
Definition is_node (id : string) (d : ServiceEntry) : bool :=
  String.eqb d.(nd_registration).(rg_id) id || String.eqb d.(nd_registration).(rg_owner) id || String.eqb d.(nd_endpoint) (ascii_lower id)
  || match d.(nd_registration).(rg_object).(so_data).(sd_name) with Some x => eq_ignore_case x id | None => false end.
Definition masternode (id : string) : ApiRes Value :=
  let? l := of_res service_nodes in
  let? d := found "Service Node" (List.find (is_node id) l) in Ok (data_of (node_json d)).

(** The stored nonce and balance of a wallet beside what its history gives. *)
Definition wallet_audit (id : string) : ApiRes WalletAudit :=
  let? w := wallet_of id in of_res (audit_wallet n s w.(ws_address)).

(** ** The audit job *)

Record AuditJob : Type := mkAuditJob {
  aj_running : bool; aj_fix : bool; aj_started_unix : Z; aj_scanned : Z; aj_tip : Z; aj_repaired : Z; aj_result : option ChainAudit; aj_error : option string
}.
Definition audit_idle : AuditJob := mkAuditJob false false 0 0 0 0 None None.
Definition LOCAL_AUDIT : string := "state audit is allowed only from 127.0.0.1 on the node itself (sth-core audit-all)".
Definition audit_status (loopback proxied : bool) (job : AuditJob) : ApiRes AuditJob :=
  let? _ := local_only LOCAL_AUDIT loopback proxied in Ok job.
(** One job at a time; the parameters are a map, so of two [fix] the last counts. *)
Definition audit_start (loopback proxied : bool) (fix_ : option string) (now_unix : Z) (job : AuditJob) : AuditJob * ApiRes Value :=
  match local_only LOCAL_AUDIT loopback proxied with
  | Err e => (job, Err e)
  | Ok _ =>
      let repair := match fix_ with Some v => String.eqb v "true" || String.eqb v "1" | None => false end in
      if job.(aj_running) then (job, Err (409, "an audit is already running (scanned " +:+ fmt_u job.(aj_scanned) +:+ " of " +:+ fmt_u job.(aj_tip) +:+ ")"))
      else (mkAuditJob true repair now_unix 0 tip 0 None None,
            Ok (data_of (obj [("started", VBool true); ("fix", VBool repair); ("tip", VNumber tip)])))
  end.
Definition audit_progress (h : Z) (job : AuditJob) : AuditJob :=
  mkAuditJob job.(aj_running) job.(aj_fix) job.(aj_started_unix) h job.(aj_tip) job.(aj_repaired) job.(aj_result) job.(aj_error).
(** What the thread leaves behind with the outcome of [audit_all_live]. *)
Definition audit_finish (outcome : Res (ChainAudit * Z)) (job : AuditJob) : AuditJob :=
  match outcome with
  | Ok (report, repaired) =>
      mkAuditJob false job.(aj_fix) job.(aj_started_unix) report.(ca_height) job.(aj_tip) repaired (Some report) job.(aj_error)
  | Err e => mkAuditJob false job.(aj_fix) job.(aj_started_unix) job.(aj_scanned) job.(aj_tip) job.(aj_repaired) job.(aj_result) (Some (err_text e))
  end.

(** ** What a listing answers *)

(** The transaction of an entry, with the time of its block. *)
Definition entry_tx (e : TxIndexEntry) : option (Transaction * Z) :=
  match get_block_by_height n s e.(ie_height) with Ok (Some b) => Reads.in_block e b | _ => None end.

(** Every entry of the two indexes names a transaction that is there, and the counter counts them. *)
Record sound_index : Prop := {
  wallet_entries : forall a h j id, s.(st_wallet_tx) !! (a, h, j) = Some id -> is_Some (entry_tx (mkIndexEntry h j id));
  list_entries : forall h j id, s.(st_tx_list) !! (h, j) = Some id -> is_Some (entry_tx (mkIndexEntry h j id)) /\ 0 <= h <= u64_max /\ 0 <= j <= u32_max;
  entries_counted : transaction_count s = Z.of_nat (size s.(st_tx_list))
}.

Definition cache_ok (c : Cache) : Prop := match c with Some (h, b) => get_block_by_height n s h = Ok (Some b) | None => True end.

Lemma transaction_at_entry e c p : entry_tx e = Some p -> cache_ok c ->
  exists c', transaction_at n s e c = Ok (Some p, c') /\ cache_ok c'.
Proof.
  intros Hp Hc. unfold entry_tx in Hp. destruct (get_block_by_height n s (ie_height e)) as [[b|]|] eqn:Hb; try done.
  assert (Hd : forall c0 : Cache, exists c', (let? o := Ok (Some b) in
      Ok (match o with Some b => (Reads.in_block e b, Some (e.(ie_height), b)) | None => (None, c0) end) : Res _) = Ok (Some p, c') /\ cache_ok c').
  { intros c0. exists (Some (ie_height e, b)). split; [cbn; by rewrite Hp|exact Hb]. }
  unfold transaction_at. destruct c as [[h b']|].
  - destruct (Z.eqb_spec h (ie_height e)) as [->|Hne].
    + cbn in Hc. rewrite Hb in Hc. apply Ok_inj in Hc. injection Hc as <-. exists (Some (ie_height e, b)). by rewrite Hp.
    + rewrite Hb. apply Hd.
  - rewrite Hb. apply Hd.
Qed.

Definition row q (p : Transaction * Z) : Value := tx_json n s p.1 (Some p.2) (raw q) tip.

Lemma rows_listed q entries ps c : Forall2 (fun e p => entry_tx e = Some p) entries ps -> cache_ok c -> rows q entries c = Ok (row q <$> ps).
Proof.
  intros H. revert c. induction H as [|e [tx ts] entries ps He _ IH]; intros c Hc; [done|].
  destruct (transaction_at_entry e c (tx, ts) He Hc) as (c' & Ht & Hc'). cbn [rows]. rewrite Ht. cbn [rbind]. by rewrite (IH c' Hc').
Qed.

Lemma page_snoc {A} q (l : list A) x :
  page_of q (l ++ [x]) = if (page_skip q <? Z.of_nat (length l) + 1) && (Z.of_nat (length (page_of q l)) <? page_limit q) then page_of q l ++ [x] else page_of q l.
Proof.
  assert (Hlim : 1 <= page_limit q) by (unfold page_limit; lia). assert (Hskip : 0 <= page_skip q) by (unfold page_skip, as_u64; by apply Z.mod_pos_bound).
  unfold page_of. set (k := Z.to_nat (page_limit q)). set (d := Z.to_nat (page_skip q)). rewrite length_take, length_drop.
  destruct (Z.ltb_spec (page_skip q) (Z.of_nat (length l) + 1)) as [Hin|Hout]; cbn [andb].
  - rewrite drop_app_le by lia. destruct (Z.ltb_spec (Z.of_nat (k `min` (length l - d))) (page_limit q)).
    + rewrite !take_ge; rewrite ?length_app, ?length_drop; cbn [length]; [done|lia|lia].
    + rewrite take_app_le; [done|rewrite length_drop; lia].
  - rewrite !drop_ge; [done|lia|rewrite length_app; cbn [length]; lia].
Qed.

Definition kept (keep : Transaction -> bool) (ps : list (Transaction * Z)) : list (Transaction * Z) := List.filter (fun p => keep p.1) ps.

Lemma scan_listed q keep entries ps c (before : list (Transaction * Z)) scanned :
  Forall2 (fun e p => entry_tx e = Some p) entries ps -> cache_ok c -> scanned + Z.of_nat (length entries) <= SCAN_BUDGET ->
  scan q keep entries c (mkScan (page_of q (row q <$> before)) (Z.of_nat (length before)) scanned false)
  = Ok (mkScan (page_of q (row q <$> before ++ kept keep ps)) (Z.of_nat (length (before ++ kept keep ps))) (scanned + Z.of_nat (length entries)) false).
Proof.
  intros H. revert c before scanned. induction H as [|e [tx ts] entries ps He _ IH]; intros c before scanned Hc Hb.
  - cbn [scan kept List.filter length]. by rewrite app_nil_r, Z.add_0_r.
  - cbn [length] in Hb. destruct (transaction_at_entry e c (tx, ts) He Hc) as (c' & Ht & Hc').
    cbn [scan sc_matched sc_scanned sc_total]. rewrite (proj2 (Z.leb_gt SCAN_BUDGET scanned)), andb_false_r by lia. rewrite Ht. cbn [rbind].
    replace (scanned + Z.of_nat (length (e :: entries))) with (scanned + 1 + Z.of_nat (length entries)) by (cbn [length]; lia).
    unfold kept. cbn [List.filter fst]. destruct (keep tx).
    + fold (kept keep ps). replace (before ++ (tx, ts) :: kept keep ps) with ((before ++ [(tx, ts)]) ++ kept keep ps) by (by rewrite <- app_assoc).
      rewrite <- (IH c' (before ++ [(tx, ts)]) (scanned + 1) Hc') by lia. f_equal.
      rewrite fmap_app. cbn [fmap list_fmap]. rewrite page_snoc, length_fmap, length_app. cbn [length]. replace (Z.of_nat (length before) + 1) with (Z.of_nat (length before + 1)) by lia. reflexivity.
    + by apply IH; [|lia].
Qed.

Lemma filter_keys_absent q k : has_tx_filters q = false -> filter_key k = true -> p_get k q = None.
Proof.
  intros Hq Hk. unfold p_get. destruct (List.find _ q) as [e|] eqn:Hf; [|done]. apply List.find_some in Hf as [Hin He]. apply String.eqb_eq in He.
  unfold has_tx_filters in Hq. assert (Ht : existsb (fun e => filter_key e.1) q = true) by (apply existsb_exists; exists e; by rewrite He). congruence.
Qed.

Lemma matches_unfiltered q tx : has_tx_filters q = false -> matches tx q = true.
Proof.
  intros Hq. pose proof (fun k => filter_keys_absent q k Hq) as Hg.
  unfold matches, when_number, when_given, range_ok, p_parse. rewrite !Hg by reflexivity. reflexivity.
Qed.

Lemma kept_all q wallet role ps : has_tx_filters q = false -> is_some wallet && negb (bool_decide (role = AnyRole)) = false ->
  kept (keeps q wallet role []) ps = ps.
Proof.
  intros Hq Hr. assert (Hk : forall tx, keeps q wallet role [] tx = true).
  { intros tx. unfold keeps. rewrite (matches_unfiltered _ _ Hq), andb_true_r. unfold role_ok. destruct wallet; [|done]. by destruct role. }
  unfold kept. induction ps as [|p ps IH]; [done|]. cbn [List.filter]. rewrite Hk. by f_equal.
Qed.

Lemma elem_of_index address lo hi asc (e : TxIndexEntry) : e ∈ transaction_index s address lo hi asc <->
  tx_index s address !! (e.(ie_height), e.(ie_seq)) = Some e.(ie_id)
  /\ pos_le (lo, 0) (e.(ie_height), e.(ie_seq)) /\ pos_le (e.(ie_height), e.(ie_seq)) (hi, u32_max).
Proof.
  unfold transaction_index. set (m := tx_index s address).
  assert (Hf : forall p, p ∈ List.filter (fun k : Z * Z * string => bool_decide (pos_le (lo, 0) k.1 /\ pos_le k.1 (hi, u32_max))) (ordered pos_le m) <->
                 m !! p.1 = Some p.2 /\ pos_le (lo, 0) p.1 /\ pos_le p.1 (hi, u32_max)).
  { intros [k id]. rewrite list_elem_of_In, filter_In, <- list_elem_of_In, elem_of_ordered, bool_decide_eq_true. done. }
  rewrite list_elem_of_fmap. destruct e as [h j id]. cbn [ie_height ie_seq ie_id]. split.
  - intros ([[h' j'] id'] & Heq & Hin). injection Heq as -> -> ->. apply (Hf (h', j', id')). destruct asc; [done|].
    by rewrite list_elem_of_In, <- in_rev, <- list_elem_of_In in Hin.
  - intros H. exists (h, j, id). split; [done|]. apply (Hf (h, j, id)) in H. destruct asc; [done|]. by rewrite list_elem_of_In, <- in_rev, <- list_elem_of_In.
Qed.

Lemma wallet_index_lookup a h j id : tx_index s (Some a) !! (h, j) = Some id <-> s.(st_wallet_tx) !! (a, h, j) = Some id.
Proof.
  unfold tx_index. rewrite <- elem_of_list_to_map.
  - rewrite list_elem_of_omap. split.
    + intros ([[[a' h'] j'] id'] & Hin & Hd). apply elem_of_map_to_list in Hin. cbn in Hd. destruct (decide (a' = a)) as [->|]; [|done]. by injection Hd as <- <- <-.
    + intros Hl. exists (a, h, j, id). split; [by apply elem_of_map_to_list|]. cbn. by rewrite decide_True.
  - assert (Hnd : NoDup (map_to_list (st_wallet_tx s)).*1) by apply NoDup_fst_map_to_list. induction (map_to_list (st_wallet_tx s)) as [|[[[a' h'] j'] id'] l IH]; [constructor|].
    cbn in Hnd. apply NoDup_cons in Hnd as [Hno Hnd]. cbn. destruct (decide (a' = a)) as [->|]; [|by apply IH]. cbn. constructor; [|by apply IH].
    intros ([h2 i2] & Heq & Hi)%list_elem_of_fmap. cbn in Heq. subst h2. apply list_elem_of_omap in Hi as ([[[a3 h3] j3] id3] & Hi & Hd). cbn in Hd.
    destruct (decide (a3 = a)) as [->|]; [|done]. injection Hd as <- <- <-. apply Hno. apply list_elem_of_fmap. by exists (a, h3, j3, id3).
Qed.

Lemma elem_of_wallet_index a lo hi asc (e : TxIndexEntry) : e ∈ transaction_index s (Some a) lo hi asc <->
  s.(st_wallet_tx) !! (a, e.(ie_height), e.(ie_seq)) = Some e.(ie_id)
  /\ pos_le (lo, 0) (e.(ie_height), e.(ie_seq)) /\ pos_le (e.(ie_height), e.(ie_seq)) (hi, u32_max).
Proof. by rewrite elem_of_index, wallet_index_lookup. Qed.

Lemma index_resolves address lo hi asc : sound_index -> Forall (fun e => is_Some (entry_tx e)) (transaction_index s address lo hi asc).
Proof.
  intros Hs. apply Forall_forall. intros [h j id] He. apply elem_of_index in He as [He _]. cbn [ie_height ie_seq ie_id] in He.
  destruct address as [a|]; [apply wallet_index_lookup in He; by eapply wallet_entries|by apply (list_entries Hs)].
Qed.

Lemma index_counted lo hi asc : sound_index -> lo <= 0 -> u64_max <= hi -> transaction_count s = Z.of_nat (length (transaction_index s None lo hi asc)).
Proof.
  intros Hs Hlo Hhi. rewrite (entries_counted Hs). f_equal. unfold transaction_index. rewrite length_fmap. rewrite <- length_map_to_list.
  assert (Hall : List.filter (fun k : Z * Z * string => bool_decide (pos_le (lo, 0) k.1 /\ pos_le k.1 (hi, u32_max))) (ordered pos_le (st_tx_list s))
                 = ordered pos_le (st_tx_list s)).
  { apply forallb_filter_id, forallb_forall. intros [[h j] id] Hin. apply list_elem_of_In, elem_of_ordered in Hin.
    destruct (list_entries Hs _ _ _ Hin) as (_ & ? & ?). apply bool_decide_eq_true. unfold pos_le. cbn. lia. }
  cbn [tx_index]. rewrite Hall. assert (Hl : length (map_to_list (st_tx_list s)) = length (ordered pos_le (st_tx_list s))).
  { unfold ordered. by rewrite sort_by_Permutation. }
  destruct asc; [done|by rewrite length_rev].
Qed.

Lemma entries_found address lo hi asc : sound_index -> exists ps,
  Forall2 (fun e p => entry_tx e = Some p) (transaction_index s address lo hi asc) ps /\ omap entry_tx (transaction_index s address lo hi asc) = ps.
Proof.
  intros Hs. pose proof (index_resolves address lo hi asc Hs) as H. induction H as [|e l [p Hp] _ (ps & H2 & IH)]; [by exists []|].
  exists (p :: ps). split; [by constructor|]. cbn. by rewrite Hp, IH.
Qed.

Lemma index_count_length address lo hi asc : sound_index -> transaction_index_count s address lo hi = Z.of_nat (length (transaction_index s address lo hi asc)).
Proof.
  intros Hs. assert (Hd : forall b, length (transaction_index s address lo hi true) = length (transaction_index s address lo hi b)).
  { intros [|]; [done|]. unfold transaction_index. by rewrite !length_fmap, length_rev. }
  unfold transaction_index_count. destruct address as [a|]; [by rewrite (Hd asc)|].
  destruct ((lo =? 0) && (hi =? u64_max)) eqn:Hr; [|by rewrite (Hd asc)]. apply index_counted; (done || lia).
Qed.

(** What a listing should show: the transactions of the entries in order, without those a filter drops. *)
Definition listed q (wallet : option string) (role : Role) (extra : Params) (lo hi : Z) : list (Transaction * Z) :=
  kept (keeps q wallet role extra) (omap entry_tx (transaction_index s (index_of q wallet) lo hi (ascending q))).

(** C33: Every listing of transactions shows the page asked for of exactly the transactions that pass the filters, in the order of the index, and says
    how many there are: with filters, where every block is decoded, as without, where only the rows of the page are.  The index must name
    transactions that are there, and hold no more entries than one request may decode. *)
Theorem listing_exact q wallet role extra path lo hi :
  sound_index -> heights_of q = Ok (Some (lo, hi)) ->
  Z.of_nat (length (transaction_index s (index_of q wallet) lo hi (ascending q))) <= SCAN_BUDGET ->
  list_transactions q wallet role extra path
  = Ok (paginate path q (Z.of_nat (length (listed q wallet role extra lo hi))) (row q <$> page_of q (listed q wallet role extra lo hi))).
Proof.
  intros Hs Hh Hb. destruct (entries_found (index_of q wallet) lo hi (ascending q) Hs) as (ps & H2 & Hps).
  unfold list_transactions, listed. rewrite Hh, Hps. cbn [rbind]. pose proof (Forall2_length _ _ _ H2) as Hlen.
  destruct (has_tx_filters q || _ || _) eqn:Hn; cbn [negb].
  - pose proof (scan_listed q (keeps q wallet role extra) _ ps None [] 0 H2 I Hb) as Hsc. cbn [app length fmap list_fmap] in Hsc.
    replace (mkScan [] 0 0 false) with (mkScan (page_of q ([] : list Value)) (Z.of_nat 0) 0 false) by (unfold page_of; by rewrite drop_nil, take_nil).
    rewrite Hsc. cbn [of_res map_err rbind]. unfold scan_total. cbn [sc_estimate sc_total sc_matched]. unfold paginate, page_of.
    by rewrite <- fmap_drop, <- fmap_take.
  - apply orb_false_elim in Hn as [Hn Hr]. apply orb_false_elim in Hn as [Hq He]. apply negb_false_iff in He. apply bool_decide_eq_true in He as ->.
    rewrite (kept_all q wallet role ps Hq Hr). rewrite (rows_listed q (page_of q _) (page_of q ps) None); [|by apply Forall2_take, Forall2_drop|done].
    cbn [of_res map_err rbind]. by rewrite (index_count_length _ _ _ (ascending q) Hs), Hlen.
Qed.

(** ** Pages *)

Definition with_page (p : Z) q : Params := ("page", fmt_u p) :: q.

Lemma page_number_with p q : 1 <= p <= u64_max -> page_number (with_page p q) = p.
Proof.
  intros Hp. change (page_number (with_page p q)) with (Z.max 1 (default 1 (parse_to u64_max (fmt_u p)))). unfold parse_to. rewrite parse_fmt_u by (bounds; lia).
  rewrite (proj2 (Z.leb_le p u64_max)) by lia. change (Z.max 1 p = p). lia.
Qed.
Lemma page_limit_with p q : page_limit (with_page p q) = page_limit q.
Proof. reflexivity. Qed.

Lemma pages_take {A} (k c : nat) (l : list A) : concat ((fun i => take k (drop (i * k) l)) <$> seq 0 c) = take (c * k) l.
Proof.
  induction c as [|c IH]; [done|]. rewrite seq_S, fmap_app, concat_app, IH. cbn [fmap list_fmap concat]. rewrite app_nil_r, Nat.add_0_l.
  replace (S c * k)%nat with (c * k + k)%nat by lia. rewrite <- (take_drop (c * k) (take (c * k + k) l)). rewrite take_take, skipn_firstn_comm.
  f_equal; [f_equal; lia|f_equal; lia].
Qed.

(** Whatever the page size asked for, the pages from the first to the last, as their links count them, are the listing: no row twice, none left
    out, in order. *)
Theorem pages_partition {A} q (l : list A) : Z.of_nat (length l) <= i64_max ->
  concat ((fun p => page_of (with_page p q) l) <$> seqZ 1 (page_count q (Z.of_nat (length l)))) = l.
Proof.
  intros Hl. assert (Hlim : 1 <= page_limit q <= 100) by (unfold page_limit; lia). set (L := page_limit q) in *.
  set (c := page_count q (Z.of_nat (length l))). assert (Hc : 1 <= c /\ Z.of_nat (length l) <= c * L /\ (c - 1) * L <= Z.max (Z.of_nat (length l) - 1) 0).
  { unfold c, page_count. fold L. pose proof (Z.div_mod (Z.of_nat (length l) + L - 1) L ltac:(lia)). pose proof (Z.mod_pos_bound (Z.of_nat (length l) + L - 1) L ltac:(lia)). nia. }
  transitivity (take (Z.to_nat c * Z.to_nat L) l); [|apply take_ge; lia]. rewrite <- pages_take. f_equal.
  unfold seqZ. rewrite <- list_fmap_compose. apply list_fmap_ext. intros j i Hi. apply lookup_seq in Hi as [-> Hi].
  unfold compose, page_of. rewrite page_limit_with. fold L. do 2 f_equal. unfold page_skip. rewrite page_limit_with. fold L.
  rewrite page_number_with by (bounds; nia). unfold as_u64. rewrite Z.mod_small by (bounds; nia). lia.
Qed.

(** ** Candles *)

(** Price range and sums of the trades of one slot, newest first. *)
Definition sum_of (f : TokenTrade -> Z) (l : list TokenTrade) : Z := foldr (fun t x => f t + x) 0 l.
Definition candle_of (l : list TokenTrade) : option Candle :=
  match l with
  | [] => None
  | newest :: older =>
      let prices := tt_price <$> older in
      Some (mkCandle (default newest.(tt_price) (last prices)) (foldr Z.max newest.(tt_price) prices) (foldr Z.min newest.(tt_price) prices) newest.(tt_price)
              (as_u64 (sum_of tt_amount l)) (as_u64 (sum_of tt_total l)) (as_u64 (Z.of_nat (length l))))
  end.

Definition in_slot (bucket since slot : Z) (tr : TokenTrade) : bool := (since <=? tr.(tt_timestamp)) && (slot_of bucket tr.(tt_timestamp) =? slot).
Definition newest_first (l : list TokenTrade) : Prop := StronglySorted (fun x y => y.(tt_timestamp) <= x.(tt_timestamp)) l.

Lemma sum_of_snoc f l t : sum_of f (l ++ [t]) = sum_of f l + f t.
Proof. unfold sum_of. induction l as [|x l IH]; cbn in *; lia. Qed.

Lemma candle_of_snoc l t : candle_of (l ++ [t]) = Some (candle_add t (default (candle_new t) (candle_of l))).
Proof.
  assert (Hw : forall a b, as_u64 (as_u64 a + b) = as_u64 (a + b)) by (intros; unfold as_u64; by rewrite Zplus_mod_idemp_l).
  destruct l as [|x l].
  - cbn. unfold candle_add. cbn. by rewrite !Z.add_0_r, Z.max_id, Z.min_id.
  - change ((x :: l) ++ [t]) with (x :: (l ++ [t])). unfold candle_of. cbn [from_option Datatypes.id]. unfold candle_add. cbn [cn_high cn_low cn_close cn_volume cn_value cn_trades].
    rewrite !Hw. change (x :: l ++ [t]) with ((x :: l) ++ [t]). rewrite !sum_of_snoc, length_app. rewrite fmap_app, !foldr_app. cbn [fmap list_fmap foldr length].
    rewrite last_app. cbn [last from_option Datatypes.id]. f_equal. f_equal.
    + clear Hw. induction (tt_price <$> l) as [|p k IH]; cbn [foldr]; lia.
    + clear Hw. induction (tt_price <$> l) as [|p k IH]; cbn [foldr]; lia.
    + f_equal. lia.
Qed.

Lemma candles_go_slot bucket since l m slot : newest_first l ->
  candles_go bucket since l m !! slot
  = foldl (fun c t => Some (candle_add t (default (candle_new t) c))) (m !! slot) (List.filter (in_slot bucket since slot) l).
Proof.
  intros H. revert m. induction H as [|t l H IH Ht]; intros m; [done|]. cbn [candles_go List.filter]. unfold in_slot at 1.
  destruct (Z.ltb_spec t.(tt_timestamp) since) as [Hlt|Hge].
  - rewrite (proj2 (Z.leb_gt since _)) by done. cbn [andb]. assert (Hnone : List.filter (in_slot bucket since slot) l = []); [|by rewrite Hnone].
    clear IH H. induction Ht as [|x l Hx _ IH]; [done|]. cbn [List.filter]. unfold in_slot at 1. rewrite (proj2 (Z.leb_gt since _)) by lia. exact IH.
  - rewrite (proj2 (Z.leb_le since _)) by done. cbn [andb]. rewrite IH. destruct (Z.eqb_spec (slot_of bucket t.(tt_timestamp)) slot) as [->|Hne].
    + by rewrite lookup_insert_eq.
    + by rewrite lookup_insert_ne.
Qed.

(** The candle of a slot shows exactly its trades since the time asked for: opened at the oldest price, closed at the newest, between the least
    and the greatest, with their amounts and totals summed up; a slot without a trade has none. *)
Theorem candles_exact bucket since trades slot : newest_first trades ->
  candles bucket since trades !! slot = candle_of (List.filter (in_slot bucket since slot) trades).
Proof.
  intros H. unfold candles. rewrite candles_go_slot by done. rewrite lookup_empty. induction (List.filter _ trades) as [|t l IH] using rev_ind; [done|].
  rewrite foldl_app, candle_of_snoc, <- IH. reflexivity.
Qed.

(** ** Service nodes *)

Definition unresigned (d : ServiceEntry) : Prop := d.(nd_reason) <> Some Resigned.

Lemma nodes_go_spec col l seen : let out := nodes_go col l seen in
  Forall (fun d => d.(nd_reason) = None -> as_i64 col <= d.(nd_balance) /\ d.(nd_registration).(rg_object).(so_resigned) = false /\ d.(nd_endpoint) ∉ seen) out /\
  (forall before d after, out = before ++ d :: after -> d.(nd_reason) = None -> Forall (fun e => unresigned e -> e.(nd_endpoint) <> d.(nd_endpoint)) before).
Proof.
  cbv zeta. revert seen. induction l as [|r l IH]; intros seen; [split; [constructor|by intros []]|]. cbn [nodes_go].
  destruct (parse_service_node _) as [[endpoint service]|]; [|apply IH]. set (resigned := so_resigned (rg_object r)).
  set (balance := match get_wallet s (rg_owner r) with Some w => ws_balance w | None => 0 end).
  set (seen' := if resigned then seen else {[endpoint]} ∪ seen). destruct (IH seen') as [Hall Hfirst].
  assert (Hsub : forall x, x ∉ seen' -> x ∉ seen) by (intros x; unfold seen'; destruct resigned; set_solver). split.
  - constructor.
    + cbn [nd_reason nd_balance nd_registration nd_endpoint]. fold resigned. destruct resigned; [done|]. destruct (Z.ltb_spec balance (as_i64 col)); [done|]. cbn [negb andb].
      case_bool_decide as Hin; [done|]. auto.
    + eapply Forall_impl; [exact Hall|]. cbn. intros d Hd Hr. destruct (Hd Hr) as (? & ? & ?). auto.
  - intros before d after Hout Hr. destruct before as [|e before]; [constructor|]. injection Hout as <- Hout. constructor; [|by eapply Hfirst].
    unfold unresigned. cbn [nd_reason nd_endpoint]. fold resigned. intros Hu He. assert (Hd : d ∈ nodes_go col l seen') by (rewrite Hout; set_solver).
    rewrite Forall_forall in Hall. destruct (Hall d Hd Hr) as (_ & _ & Hns). apply Hns. unfold seen'. destruct resigned; [done|]. rewrite He. set_solver.
Qed.

(** Of the service nodes shown as active no two share an endpoint, each belongs to the first registration of its endpoint that is not resigned,
    and its owner holds the collateral. *)
Theorem service_nodes_exclusive l : service_nodes = Ok l ->
  Forall (fun d => active d = true -> as_i64 collateral <= d.(nd_balance) /\ d.(nd_registration).(rg_object).(so_resigned) = false) l /\
  (forall before d after, l = before ++ d :: after -> active d = true -> Forall (fun e => unresigned e -> e.(nd_endpoint) <> d.(nd_endpoint)) before) /\
  NoDup (nd_endpoint <$> List.filter active l).
Proof.
  unfold service_nodes. intros H. destruct registrations as [regs|] eqn:Hr; [|done]. cbn [rbind] in H. apply Ok_inj in H as <-.
  destruct (nodes_go_spec collateral regs ∅) as [Hall Hfirst]. set (out := nodes_go collateral regs ∅) in *.
  assert (Ha : forall d, active d = true -> d.(nd_reason) = None) by (intros d; unfold active; by destruct (nd_reason d)). split; [|split].
  - eapply Forall_impl; [exact Hall|]. cbn. intros d Hd Hact. destruct (Hd (Ha d Hact)) as (? & ? & _). auto.
  - intros before d after Ho Hact. eapply Hfirst; [exact Ho|by apply Ha].
  - clear Hall. assert (Hgen : forall done rest, out = done ++ rest -> NoDup (nd_endpoint <$> List.filter active done)); [|by apply (Hgen out []); rewrite app_nil_r].
    intros done. induction done as [|d done IH] using rev_ind; intros rest Ho; [constructor|]. rewrite List.filter_app, fmap_app.
    specialize (IH (d :: rest)). rewrite <- app_assoc in Ho. cbn [app] in Ho. specialize (IH Ho). cbn [List.filter].
    destruct (active d) eqn:Hact; [|by rewrite app_nil_r]. pose proof (Hfirst done d rest Ho (Ha d Hact)) as Hb. apply NoDup_app. split; [done|]. split; [|repeat constructor; set_solver].
    intros x Hx Hd. apply list_elem_of_fmap in Hx as (e & -> & He). apply list_elem_of_In, filter_In in He as [He Hea]. cbn in Hd. apply list_elem_of_singleton in Hd.
    rewrite Forall_forall in Hb. apply list_elem_of_In in He. apply (Hb e He); [|done]. unfold unresigned. by rewrite (Ha e Hea).
Qed.

(** ** Pages of blocks *)

Lemma page_seqZ q m k : 0 <= k -> page_skip q < k ->
  page_of q (seqZ m k) = seqZ (m + page_skip q) (Z.min (page_limit q) (k - page_skip q)).
Proof.
  intros Hk Hs. assert (Hskip : 0 <= page_skip q) by (unfold page_skip, as_u64; by apply Z.mod_pos_bound).
  assert (Hlim : 1 <= page_limit q) by (unfold page_limit; lia). unfold page_of. set (o := page_skip q) in *. set (L := page_limit q) in *.
  replace k with (o + (Z.min L (k - o) + (k - o - Z.min L (k - o)))) at 1 by lia. rewrite (seqZ_app m o), (seqZ_app (m + o) (Z.min L (k - o))) by lia.
  rewrite drop_app_length' by (rewrite length_seqZ; lia). destruct (Z_le_gt_dec L (k - o)) as [Hle|Hgt].
  - rewrite take_app_length' by (rewrite length_seqZ; lia). done.
  - replace (k - o - Z.min L (k - o)) with 0 by lia. rewrite (seqZ_nil _ 0) by lia. rewrite app_nil_r. apply take_ge. rewrite length_seqZ. lia.
Qed.

Lemma page_fmap {A B} (f : A -> B) q (l : list A) : page_of q (f <$> l) = f <$> page_of q l.
Proof. unfold page_of. by rewrite <- fmap_drop, <- fmap_take. Qed.
Lemma page_past {A} q (l : list A) : Z.of_nat (length l) <= page_skip q -> page_of q l = [].
Proof. intros H. unfold page_of. by rewrite drop_ge, take_nil by lia. Qed.

Lemma rev_fmap {A B} (f : A -> B) (l : list A) : rev (f <$> l) = f <$> rev l.
Proof. induction l as [|x l IH]; [done|]. cbn. by rewrite IH, fmap_app. Qed.

Lemma rev_seqZ m k : 0 <= k -> rev (seqZ m k) = (fun i => m + k - 1 - i) <$> seqZ 0 k.
Proof.
  intros Hk. replace k with (Z.of_nat (Z.to_nat k)) in * by lia. generalize (Z.to_nat k). clear k Hk. intros k. revert m. induction k as [|k IH]; intros m; [done|].
  rewrite seqZ_cons by lia. cbn [rev]. replace (Z.pred (Z.of_nat (S k))) with (Z.of_nat k) by lia. rewrite IH.
  rewrite Nat2Z.inj_succ. unfold Z.succ. rewrite (seqZ_app 0 (Z.of_nat k) 1), fmap_app by lia. f_equal; [|rewrite seqZ_cons, seqZ_nil by lia; cbn; f_equal; lia].
  apply list_fmap_ext. intros i x _. lia.
Qed.

(** The store has the blocks of a window. *)
Definition window_blocks (f : Z -> Block) (from to : Z) : Prop := forall h, from <= h <= to -> get_block_by_height n s h = Ok (Some (f h)).

Lemma blocks_from_window f from to a k : window_blocks f from to -> from <= a -> 0 <= k -> a + k - 1 <= to -> to < u64_max ->
  LegacyWire.get_blocks_from n s a k = Ok (f <$> seqZ a k).
Proof.
  intros Hw Ha Hk Hb Hto. unfold LegacyWire.get_blocks_from. replace (sat_add_u64 a k - a) with k by (unfold sat_add_u64; lia).
  assert (Hl : Forall (fun h => get_block_by_height n s h = Ok (Some (f h))) (seqZ a k)).
  { apply Forall_forall. intros h Hh. apply elem_of_seqZ in Hh. apply Hw. lia. }
  induction Hl as [|h l Hh _ IH]; [done|]. unfold get_block_by_height in Hh. destruct (st_blocks s !! h) as [v|] eqn:Hv; [|done].
  cbn [omap list_omap]. rewrite Hv. cbn [rmapM]. destruct (decode_block v n) as [b|]; [|done]. cbn [rbind] in Hh |- *. apply Ok_inj in Hh. injection Hh as ->.
  rewrite IH. reflexivity.
Qed.

(** A page of blocks is the page of the heights of the window, newest first or in ascending order as asked for. *)
Theorem block_page_exact f q from to : window_blocks f from to -> 0 <= from <= to -> to + page_skip q < u64_max ->
  block_page q from to = Ok (f <$> page_of q (if ascending q then seqZ from (to - from + 1) else rev (seqZ from (to - from + 1)))).
Proof.
  intros Hw Hft Hb. assert (Hskip : 0 <= page_skip q) by (unfold page_skip, as_u64; by apply Z.mod_pos_bound).
  assert (Hlim : 1 <= page_limit q <= 100) by (unfold page_limit; lia). unfold block_page. destruct (ascending q).
  - unfold as_u64. rewrite Z.mod_small by (bounds; lia). destruct (Z.ltb_spec to (from + page_skip q)) as [Hlt|Hge].
    + rewrite page_past by (rewrite length_seqZ; lia). done.
    + rewrite page_seqZ by lia. replace (to - from + 1 - page_skip q) with (to - (from + page_skip q) + 1) by lia.
      apply (blocks_from_window f from to); (done || lia).
  - rewrite rev_seqZ, page_fmap by lia. unfold sat_sub. destruct (Z_lt_le_dec (to - page_skip q) from) as [Hlt|Hge].
    + rewrite page_past by (rewrite length_seqZ; lia). destruct (_ || _) eqn:Hc; [done|lia].
    + destruct (_ || _) eqn:Hc; [lia|]. clear Hc. rewrite page_seqZ by lia. set (o := page_skip q) in *. set (L := page_limit q) in *.
      rewrite (Z.max_l (to - o) 0) by lia. set (a := Z.max (Z.max (to - o - (L - 1)) 0) from).
      rewrite (blocks_from_window f from to a (to - o - a + 1)) by (done || unfold a; lia). cbn [rmap]. rewrite rev_fmap, rev_seqZ by (unfold a; lia).
      f_equal. f_equal. replace (Z.min L (to - from + 1 - o)) with (to - o - a + 1) by (unfold a; lia).
      unfold seqZ. rewrite <- !list_fmap_compose. apply list_fmap_ext. intros j i _. unfold compose. lia.
Qed.
End listings.
