(* ===== verification/AuditFacts.v ===== *)
(** * What the audit finds

    On a chain whose blocks hold neither purchases nor HTLC claims, and in which the nonces of every sender follow each
    other, the figures of the scan are those of the stored wallets: the audit books what [accumulate_deltas] books,
    although it is written a second time. *)

From S2P Require Import Prelude Models Env Bytes Crypto Config TxCodec TxWire TxRoundtrip BlockCodec Wallet Rules Round Tree Storage StorageFacts Reads.
From S2P Require Import Deltas TokenFlow Chain ChainFacts Sync SyncBalance StoreAudit.

(** ** The figures of an address *)

Definition entry_at (c : string) (acc : gmap string WalletAudit) : WalletAudit := default audit_default (acc !! c).
Definition bal (c : string) (acc : gmap string WalletAudit) : Z := wa_computed_balance (entry_at c acc).
Definition non (c : string) (acc : gmap string WalletAudit) : Z := wa_computed_nonce (entry_at c acc).
Definition skp (c : string) (acc : gmap string WalletAudit) : Z := wa_skipped (entry_at c acc).

Lemma entry_book c a f acc : entry_at c (book a f acc) = if decide (a = c) then f (entry_at a acc) else entry_at c acc.
Proof.
  unfold entry_at, book. destruct (decide (a = c)) as [->|Hne]; [by rewrite lookup_insert_eq|by rewrite lookup_insert_ne].
Qed.
Lemma bal_book c a f acc x : (forall w, wa_computed_balance (f w) = wa_computed_balance w + x) -> bal c (book a f acc) = bal c acc + at_ a c x.
Proof. intros H. unfold bal, at_. rewrite entry_book. destruct (decide (a = c)) as [->|]; [apply H|lia]. Qed.
Lemma non_book c a f acc : (forall w, wa_computed_nonce (f w) = wa_computed_nonce w) -> non c (book a f acc) = non c acc.
Proof. intros H. unfold non. rewrite entry_book. destruct (decide (a = c)) as [->|]; [apply H|done]. Qed.
Lemma skp_book c a f acc : (forall w, wa_skipped (f w) = wa_skipped w) -> skp c (book a f acc) = skp c acc.
Proof. intros H. unfold skp. rewrite entry_book. destruct (decide (a = c)) as [->|]; [apply H|done]. Qed.

(** Nonce and exceptions untouched, [x] added to the balance. *)
Definition moves (acc acc' : gmap string WalletAudit) (x : string -> Z) : Prop :=
  forall c, bal c acc' = bal c acc + x c /\ non c acc' = non c acc /\ skp c acc' = skp c acc.

Lemma moves_refl acc : moves acc acc (fun _ => 0).
Proof. intros c. split_and!; [lia|done|done]. Qed.
Lemma moves_trans acc acc1 acc2 x y : moves acc acc1 x -> moves acc1 acc2 y -> moves acc acc2 (fun c => x c + y c).
Proof. intros H1 H2 c. destruct (H1 c) as (A1 & A2 & A3), (H2 c) as (B1 & B2 & B3). split_and!; [lia|congruence|congruence]. Qed.
Lemma moves_ext acc acc' x y : (forall c, x c = y c) -> moves acc acc' x -> moves acc acc' y.
Proof. intros Hx H c. rewrite <- Hx. apply H. Qed.
Lemma moves_book acc a x s r f : moves acc (book a (au_book id x s r 0 f) acc) (fun c => at_ a c x).
Proof. intros c. split_and!; [by apply bal_book|by apply non_book|apply skp_book; intros w; cbn; lia]. Qed.

Lemma zsum_permutation l l' : l ≡ₚ l' -> zsum l = zsum l'.
Proof. induction 1; cbn; lia. Qed.
Lemma entries_at c (m : gmap string Z) : zsum ((fun e => at_ e.1 c e.2) <$> bt_entries m) = default 0 (m !! c).
Proof.
  rewrite (zsum_permutation _ ((fun e => at_ e.1 c e.2) <$> map_to_list m)) by (apply Permutation_map, bt_entries_perm).
  induction m as [|k x m Hk IH] using map_ind; [done|].
  rewrite (zsum_permutation _ _ (fmap_Permutation _ _ _ (map_to_list_insert m k x Hk))). cbn [fmap list_fmap zsum]. rewrite IH. cbn.
  unfold at_. destruct (decide (k = c)) as [->|Hne]; [rewrite lookup_insert_eq, Hk; cbn; lia|by rewrite lookup_insert_ne].
Qed.

Lemma moves_receive l acc : moves acc (foldl (fun acc e => book e.1 (au_receive e.2) acc) acc l) (fun c => zsum ((fun e => at_ e.1 c e.2) <$> l)).
Proof.
  revert acc; induction l as [|e l IH]; intros acc; [apply moves_refl|]. cbn [foldl fmap list_fmap zsum].
  eapply moves_trans; [apply moves_book|apply IH].
Qed.

(** ** A transaction *)

Section tx.
Context `{E : Env}.
Variable n : Network.
Implicit Types (tx : Transaction) (s : Store) (acc : gmap string WalletAudit).

(** No price goes to a party the audit cannot see, and coins move in transfers and locks only. *)
Record regular tx : Prop := {
  rg_claim : is_claim tx = false;
  rg_buy : is_buy tx = false;
  rg_amount : tx.(tx_amount) = 0 \/ (tx.(tx_type_group) = TYPE_GROUP_CORE /\ (tx.(tx_type_) = tx_type.TRANSFER \/ tx.(tx_type_) = tx_type.HTLC_LOCK))
}.

(** What the balance of [c] changes by. *)
Definition effect (c : string) tx : Z := credits tx c - (if sent_by n c tx then tx.(tx_amount) + tx.(tx_fee) + paid tx else 0).
Definition nonce_after (c : string) (k : Z) tx : Z := if sent_by n c tx then Z.max k (default 0 tx.(tx_nonce)) else k.

Lemma sent_at sender c tx x : address_from_public_key tx.(tx_sender_public_key) n.(n_pubkey_hash) = Ok sender ->
  at_ sender c x = if sent_by n c tx then x else 0.
Proof. intros Hs. unfold sent_by, at_. rewrite Hs. destruct (decide (sender = c)); [by rewrite bool_decide_true|by rewrite bool_decide_false]. Qed.

Lemma filter_all {A} (l : list A) (f : A -> string) : List.filter (fun x => want None (f x)) l = l.
Proof. induction l as [|x l IH]; cbn; [done|]. f_equal. exact IH. Qed.

Lemma mine_at c l : default 0 (foldl (fun m p => add_in p.(p_recipient_id) p.(p_amount) m) ∅ l !! c) = zsum ((fun p => at_ p.(p_recipient_id) c p.(p_amount)) <$> l).
Proof.
  assert (H : forall m, default 0 (foldl (fun m p => add_in p.(p_recipient_id) p.(p_amount) m) m l !! c)
                        = default 0 (m !! c) + zsum ((fun p => at_ p.(p_recipient_id) c p.(p_amount)) <$> l)).
  { induction l as [|p l IH]; intros m; cbn [foldl fmap list_fmap zsum]; [lia|]. rewrite IH. unfold add_in, at_.
    destruct (decide (p_recipient_id p = c)) as [->|Hne]; [rewrite lookup_insert_eq; cbn; lia|rewrite lookup_insert_ne by done; lia]. }
  rewrite H, lookup_empty. done.
Qed.

Lemma payments_moves tx acc : moves acc (audit_payments None tx acc) (fun c => zsum ((fun p => at_ p.(p_recipient_id) c p.(p_amount)) <$> payments_of tx)).
Proof.
  unfold audit_payments. eapply moves_ext; cycle 1; [apply moves_receive|]. intros c. cbv beta. rewrite entries_at, mine_at.
  rewrite filter_all. done.
Qed.

Lemma recipient_moves sender tx acc : tx.(tx_amount) = 0 \/ tx.(tx_type_) = tx_type.TRANSFER ->
  moves acc (audit_recipient None sender tx acc) (fun c => match tx.(tx_recipient_id) with Some r => at_ r c tx.(tx_amount) | None => 0 end).
Proof.
  intros Ha. unfold audit_recipient. destruct (tx_recipient_id tx) as [r|]; [|apply moves_refl]. cbn [want]. intros c.
  destruct (negb (String.eqb sender r)); [apply moves_book|]. destruct Ha as [Ha|Ht].
  - rewrite Ha, at_zero. destruct (_ =? _); [|split_and!; [|by apply non_book|by apply skp_book]; rewrite (bal_book _ _ _ _ 0) by (intros; lia); rewrite at_zero; lia].
    destruct (moves_book acc r 0 0 0 0 c) as (H1 & H2 & H3). rewrite at_zero in H1. done.
  - rewrite Ht. apply moves_book.
Qed.

Lemma sender_booked sender tx acc c : is_buy tx = false -> address_from_public_key tx.(tx_sender_public_key) n.(n_pubkey_hash) = Ok sender ->
  let acc' := book sender (audit_sender sender tx) acc in
  bal c acc' = bal c acc - (if sent_by n c tx then tx.(tx_fee) + (if tx.(tx_type_group) =? TYPE_GROUP_CORE then outgoing tx else 0) else 0) /\
  non c acc' = nonce_after c (non c acc) tx /\ skp c acc' = skp c acc.
Proof.
  intros Hb Hs. cbn zeta. unfold audit_sender. rewrite Hb. split_and!.
  - rewrite (bal_book _ _ _ _ (- (tx.(tx_fee) + (if tx.(tx_type_group) =? TYPE_GROUP_CORE then outgoing tx else 0)))).
    + rewrite (sent_at sender c tx) by done. destruct (sent_by n c tx); lia.
    + intros w. destruct (_ =? _); cbn; lia.
  - unfold non, nonce_after, sent_by. rewrite entry_book, Hs. destruct (decide (sender = c)) as [->|Hne].
    + rewrite bool_decide_true by done. by destruct (_ =? _).
    + by rewrite bool_decide_false.
  - apply skp_book. intros w. destruct (_ =? _); cbn; lia.
Qed.

Lemma audit_regular s tx acc acc' : regular tx -> audit_tx n s None acc tx = Ok acc' ->
  forall c, bal c acc' = bal c acc + effect c tx /\ non c acc' = nonce_after c (non c acc) tx /\ skp c acc' = skp c acc.
Proof.
  intros [Hc Hb Ha] H c. unfold audit_tx in H. apply rbind_ok_inv in H as (sender & Hs & H). cbn [want] in H.
  destruct (sender_booked sender tx acc c Hb Hs) as (B & N & K). set (acc1 := book _ _ acc) in *. clearbody acc1. unfold effect, paid.
  assert (Hm : forall x, moves acc1 acc' x -> x c = credits tx c ->
    (if tx.(tx_type_group) =? TYPE_GROUP_CORE then outgoing tx else 0) = tx.(tx_amount) + paid tx ->
    bal c acc' = bal c acc + (credits tx c - (if sent_by n c tx then tx.(tx_amount) + tx.(tx_fee) + paid tx else 0)) /\
    non c acc' = nonce_after c (non c acc) tx /\ skp c acc' = skp c acc).
  { intros x Hx Hxc Ho. destruct (Hx c) as (M1 & M2 & M3). rewrite Ho in B. split_and!; [|congruence|congruence].
    rewrite M1, B, Hxc. destruct (sent_by n c tx); lia. }
  fold (paid tx). unfold is_claim in Hc. unfold credits, paid, outgoing in *. destruct (Z.eqb_spec tx.(tx_type_group) TYPE_GROUP_CORE) as [Hg|Hg]; cbn [negb andb] in *.
  2:{ apply Ok_inj in H as <-. eapply Hm; [apply moves_refl|done|]. destruct Ha as [->|[? _]]; [done|done]. }
  destruct (Z.eqb_spec tx.(tx_type_) tx_type.MULTI_PAYMENT) as [Ht|Ht].
  { apply Ok_inj in H as <-. eapply Hm; [apply payments_moves| |].
    - rewrite Ht. done.
    - destruct Ha as [->|[_ [Hx|Hx]]]; [done|by rewrite Ht in Hx|by rewrite Ht in Hx]. }
  rewrite Hc in H, Hm. destruct (Z.eqb_spec tx.(tx_type_) tx_type.HTLC_LOCK) as [Hl|Hl].
  { apply Ok_inj in H as <-. eapply Hm; [apply moves_refl|by rewrite Hl|lia]. }
  apply Ok_inj in H as <-. eapply Hm; [apply recipient_moves; tauto| |lia].
  destruct (Z.eqb_spec tx.(tx_type_) tx_type.TRANSFER) as [Hx|Hx]; [done|]. destruct Ha as [->|[_ [?|?]]]; [|done|done].
  destruct (tx_recipient_id tx); [apply at_zero|done].
Qed.

(** The other writing of the same. *)
Lemma lead_regular s block batch ds ds' i tx : regular tx -> tx_deltas n s block batch ds (i, tx) = Ok ds' -> forall c, lead c ds' = lead c ds + effect c tx.
Proof.
  intros [Hc Hb Ha] H c. unfold tx_deltas in H. apply rbind_ok_inv in H as (sender & Hs & H). unfold effect.
  pose proof (lead_sender c ds sender tx) as Hl. rewrite at_opp in Hl. rewrite (sent_at sender c tx _ Hs) in Hl.
  set (ds1 := sender_deltas ds sender tx) in *. clearbody ds1.
  apply orb_false_iff in Hb as [Hso Hto]. destruct (Z.eqb_spec (tx_type_group tx) TYPE_GROUP_CORE) as [Hg|Hg].
  - unfold sobj_asset, token_asset, is_sobj, is_token in H. rewrite Hg in H. cbn in H.
    rewrite (lead_core _ _ _ _ _ _ _ _ _ H Hc Hg), (sent_at sender c tx _ Hs), Hl. destruct (sent_by n c tx); lia.
  - apply Z.eqb_neq in Hg as Hg'. assert (Hcr : credits tx c = 0) by (unfold credits; by rewrite Hg').
    assert (Hpd : paid tx = 0) by (unfold paid; by rewrite Hg'). rewrite Hcr, Hpd.
    enough (lead c ds' = lead c ds1) by (destruct (sent_by n c tx); lia).
    destruct (sobj_asset tx) as [e|] eqn:He.
    + apply Ok_inj in H as <-. apply lead_sobj. unfold sobj_asset in He. destruct (is_sobj tx); [|done]. done.
    + destruct (token_asset tx) as [a|] eqn:Hta.
      * rewrite (lead_token n s c _ _ _ _ _ _ _ H Hta). unfold token_sale.
        destruct (tx_type_group tx =? TYPE_GROUP_TOKEN), (tx_type_ tx =? token.BUY); cbn in Hto |- *; try done; lia.
      * try rewrite Hg' in H. cbn [negb] in H. by apply Ok_inj in H as <-.
Qed.
End tx.

(** ** A block *)

Section chain.
Context `{E : Env} `{L : !EnvLaws E}.
Variable n : Network.
Implicit Types (s : Store) (tx : Transaction) (block : Block) (acc : gmap string WalletAudit) (ds : gmap string WalletDelta).
#[local] Abbreviation effect := (effect n).
#[local] Abbreviation nonce_after := (nonce_after n).
#[local] Abbreviation sent_by := (sent_by n).

(** A transaction without its id and its place, which the record of a block gives anew. *)
Definition bare tx : Transaction := tx_set_sequence None (tx_set_block_height None (tx_set_block_id None (tx_set_id None tx))).
Definition alike (l l' : list Transaction) : Prop := bare <$> l = bare <$> l'.

Lemma alike_fmap {A} (f : Transaction -> A) l l' : (forall tx, f (bare tx) = f tx) -> alike l l' -> f <$> l = f <$> l'.
Proof.
  intros Hf H. assert (Hb : forall l, f <$> l = f <$> (bare <$> l)) by (intros l0; rewrite <- list_fmap_compose; apply list_fmap_ext; intros; symmetry; apply Hf).
  by rewrite (Hb l), (Hb l'), H.
Qed.
Lemma cons_both {A} (x y : A) l l' : x :: l = y :: l' -> x = y /\ l = l'.
Proof. by intros [= -> ->]. Qed.
Lemma alike_filter (f : Transaction -> bool) l l' : (forall tx, f (bare tx) = f tx) -> alike l l' -> alike (List.filter f l) (List.filter f l').
Proof.
  intros Hf. revert l'; induction l as [|x l IH]; intros [|y l'] H; try done. unfold alike in H. rewrite !fmap_cons in H. apply cons_both in H as [Hxy Hl]. cbn [List.filter]. rewrite <- (Hf x), <- (Hf y), Hxy. destruct (f (bare y)); [|by apply IH].
  unfold alike. cbn [fmap list_fmap]. f_equal; [done|by apply IH].
Qed.
Lemma alike_length l l' : alike l l' -> length l = length l'.
Proof. intros H. apply (f_equal length) in H. by rewrite !length_fmap in H. Qed.
Lemma alike_forall (P : Transaction -> Prop) l l' : (forall tx, P (bare tx) <-> P tx) -> alike l l' -> Forall P l -> Forall P l'.
Proof.
  intros HP H Hl. assert (Hb : Forall P (bare <$> l)) by (apply Forall_fmap; eapply Forall_impl; [exact Hl|]; intros tx; apply HP).
  rewrite H, Forall_fmap in Hb. eapply Forall_impl; [exact Hb|]. intros tx; apply HP.
Qed.

Lemma bare_regular tx : regular (bare tx) <-> regular tx.
Proof. split; intros [A B C]; split; done. Qed.

Lemma audit_txs s l acc acc' : Forall regular l -> rfold (audit_tx n s None) l acc = Ok acc' -> forall c,
  bal c acc' = bal c acc + zsum (effect c <$> l) /\ non c acc' = foldl (nonce_after c) (non c acc) l /\ skp c acc' = skp c acc.
Proof.
  intros Hr. revert acc; induction Hr as [|tx l Htx _ IH]; intros acc H c; cbn [rfold] in H; [apply Ok_inj in H as <-; cbn; split_and!; (done || lia)|].
  apply rbind_ok_inv in H as (acc1 & H1 & H). destruct (audit_regular n _ _ _ _ Htx H1 c) as (A1 & A2 & A3).
  destruct (IH _ H c) as (B1 & B2 & B3). cbn [fmap list_fmap zsum foldl]. rewrite <- A2. split_and!; [lia|done|congruence].
Qed.

Lemma lead_txs s block batch l ds ds' : Forall (fun p => regular p.2) l -> rfold (tx_deltas n s block batch) l ds = Ok ds' -> forall c,
  lead c ds' = lead c ds + zsum ((fun p => effect c p.2) <$> l).
Proof.
  intros Hr. revert ds; induction Hr as [|[i tx] l Htx _ IH]; intros ds H c; cbn [rfold] in H; [apply Ok_inj in H as <-; cbn; lia|].
  apply rbind_ok_inv in H as (ds1 & H1 & H). rewrite (IH _ H c), (lead_regular n _ _ _ _ _ _ _ Htx H1 c). cbn. lia.
Qed.

(** A scan without claims does not look at the store, and it meets an error only at a key without address. *)
Lemma audit_tx_total s tx acc : is_claim tx = false -> has_sender n tx = true -> exists acc', forall s', audit_tx n s' None acc tx = Ok acc'.
Proof.
  intros Hc Hs. unfold has_sender in Hs. unfold audit_tx. destruct (address_from_public_key _ _) as [sender|]; [|done]. cbn [rbind want].
  unfold is_claim in Hc. destruct (Z.eqb_spec (tx_type_group tx) TYPE_GROUP_CORE); cbn [negb andb] in *; [|by eexists].
  rewrite Hc. repeat (destruct (_ =? _)); by eexists.
Qed.
Lemma audit_txs_total s l acc : Forall (fun tx => is_claim tx = false /\ has_sender n tx = true) l ->
  exists acc', forall s', rfold (audit_tx n s' None) l acc = Ok acc'.
Proof.
  intros H. revert acc; induction H as [|tx l [Hc Hs] _ IH]; intros acc; cbn [rfold]; [by eexists|].
  destruct (audit_tx_total s tx acc Hc Hs) as (acc1 & H1). destruct (IH acc1) as (acc' & H2). exists acc'. intros s'. rewrite H1. cbn [rbind]. apply H2.
Qed.
Lemma audit_tx_same s s' tx acc : is_claim tx = false -> audit_tx n s None acc tx = audit_tx n s' None acc tx.
Proof.
  intros Hc. unfold audit_tx. destruct (address_from_public_key _ _) as [sender|]; [|done]. cbn [rbind want].
  unfold is_claim in Hc. destruct (Z.eqb_spec (tx_type_group tx) TYPE_GROUP_CORE); cbn [negb andb] in *; [|done]. by rewrite Hc.
Qed.
Lemma audit_txs_same s s' l acc : Forall (fun tx => is_claim tx = false) l -> rfold (audit_tx n s None) l acc = rfold (audit_tx n s' None) l acc.
Proof.
  intros H. revert acc; induction H as [|tx l Hc _ IH]; intros acc; cbn [rfold]; [done|].
  rewrite (audit_tx_same s s') by done. destruct (audit_tx _ _ _ _ _); [apply IH|done].
Qed.

Lemma forger_moves g block acc : moves acc (audit_forger n g block acc) (fun c => at_ g c (income n block) + at_ n.(n_burn_address) c (burned n block)).
Proof.
  unfold audit_forger, income. pose proof (burned_nonneg n block). destruct (Z.ltb_spec 0 (burned n block)).
  - eapply moves_ext; cycle 1; [eapply moves_trans; apply moves_book|]. intros c. cbn. lia.
  - replace (burned n block) with 0 by lia. eapply moves_ext; cycle 1; [apply moves_book|]. intros c. cbn. rewrite at_zero. lia.
Qed.

(** A block as it is read back: another id, transactions with new ids and places. *)
Record reread block block' : Prop := {
  rr_txs : alike block.(b_transactions) block'.(b_transactions);
  rr_height : block'.(b_height) = block.(b_height);
  rr_generator : block'.(b_generator_public_key) = block.(b_generator_public_key);
  rr_reward : block'.(b_reward) = block.(b_reward);
  rr_fee : block'.(b_total_fee) = block.(b_total_fee)
}.

Lemma reread_burned block block' : reread block block' -> burned n block' = burned n block /\ income n block' = income n block.
Proof.
  intros [Ht Hh Hg Hr Hf]. assert (Hb : burned n block' = burned n block).
  { unfold burned. rewrite Hh. by rewrite (alike_length _ _ (alike_filter is_init _ _ (fun _ => eq_refl) Ht)). }
  split; [done|]. unfold income. by rewrite Hb, Hr, Hf.
Qed.

Lemma imap_regular (l : list Transaction) : Forall regular l -> Forall (fun p => regular p.2) (imap pair l).
Proof.
  intros Hl. apply Forall_lookup_2. intros i p Hp. rewrite list_lookup_imap in Hp. apply fmap_Some in Hp as (tx & Ht & ->).
  by eapply (Forall_lookup_1 _ _ _ _ Hl).
Qed.

(** The block as it was applied and as it is read back book the same. *)
Lemma audit_block_agrees s s' block block' ds acc acc' :
  Forall regular block.(b_transactions) -> reread block block' ->
  accumulate_deltas n s block [block] ∅ = Ok ds -> audit_block n s' acc block' = Ok acc' -> forall c,
  bal c acc' = bal c acc + lead c ds /\ non c acc' = foldl (nonce_after c) (non c acc) block.(b_transactions) /\ skp c acc' = skp c acc.
Proof.
  intros Hr Hrr Hd H c. destruct (reread_burned _ _ Hrr) as [Hb Hi]. destruct Hrr as [Ha _ Hgp _ _].
  unfold accumulate_deltas in Hd. apply rbind_ok_inv in Hd as (g & Hg & Hd).
  unfold audit_block in H. rewrite Hgp, Hg in H. cbn [rbind] in H.
  destruct (audit_txs _ _ _ _ (alike_forall _ _ _ bare_regular Ha Hr) H c) as (T1 & T2 & T3).
  destruct (forger_moves g block' acc c) as (F1 & F2 & F3). rewrite Hb, Hi in F1.
  pose proof (lead_txs _ _ _ _ _ _ (imap_regular _ Hr) Hd c) as Hl. rewrite zsum_imap_snd, lead_generator in Hl.
  change (lead c ∅) with 0 in Hl. rewrite (alike_fmap (effect c) _ _ (fun _ => eq_refl) Ha) in Hl.
  split_and!; [lia| |congruence]. rewrite T2, F2. clear -Ha.
  enough (Hf : forall l k, foldl (nonce_after c) k l = foldl (nonce_after c) k (bare <$> l)) by (by rewrite Hf, (Hf (b_transactions block)), Ha).
  induction l as [|tx l IH]; intros k; [done|]. cbn [foldl fmap list_fmap]. apply IH.
Qed.

(** ** The nonces of a block *)

(** The nonces of a sender's transactions are the ones that follow that of its wallet. *)
Definition in_turn s (l : list Transaction) : Prop := forall c,
  tx_nonce <$> List.filter (sent_by c) l
  = Some <$> seqZ (default 0 (ws_nonce <$> get_wallet s c) + 1) (Z.of_nat (length (List.filter (sent_by c) l))).

Lemma nonces_run c l k : tx_nonce <$> List.filter (sent_by c) l = Some <$> seqZ (k + 1) (Z.of_nat (length (List.filter (sent_by c) l))) ->
  foldl (nonce_after c) k l = k + Z.of_nat (length (List.filter (sent_by c) l)).
Proof.
  revert k; induction l as [|tx l IH]; intros k H; cbn [foldl List.filter length] in *; [lia|]. unfold AuditFacts.nonce_after at 2.
  destruct (sent_by c tx); [|by apply IH]. cbn [length] in H |- *. rewrite seqZ_cons in H by lia. cbn [fmap list_fmap] in H.
  apply cons_both in H as [Hn H]. rewrite Hn. change (default 0 (Some (k + 1))) with (k + 1). rewrite Z.max_r by lia. rewrite IH; [lia|].
  rewrite H. replace (Z.succ (k + 1)) with (k + 1 + 1) by lia. by replace (Z.pred (Z.of_nat (S (length (List.filter (sent_by c) l))))) with (Z.of_nat (length (List.filter (sent_by c) l))) by lia.
Qed.
End chain.

(** ** The audit of a chain

    Stores that grew from the empty one by blocks without purchases and claims, with rollbacks of the last block in
    between: the audit compares every wallet, finds nothing, and its repair changes no wallet. *)

(** Amounts the wire format carries stand in transfers and locks only. *)
Lemma wire_amount `{E : Env} tx : wire_tx tx ->
  tx.(tx_amount) = 0 \/ (tx.(tx_type_group) = TYPE_GROUP_CORE /\ (tx.(tx_type_) = tx_type.TRANSFER \/ tx.(tx_type_) = tx_type.HTLC_LOCK)).
Proof.
  intros [base mid tx0 Hb Hp Hs].
  assert (Hbase : base.(tx_amount) = 0) by (destruct Hb; by destruct vf).
  assert (Hmid : mid.(tx_amount) = 0 \/ (mid.(tx_type_group) = TYPE_GROUP_CORE /\ (mid.(tx_type_) = tx_type.TRANSFER \/ mid.(tx_type_) = tx_type.HTLC_LOCK))).
  { destruct Hp as [e|a|mid Hg Hc]; [by left|by left|]. destruct Hc; cbn; tauto. }
  assert (Hk : tx0.(tx_amount) = mid.(tx_amount) /\ tx0.(tx_type_group) = mid.(tx_type_group) /\ tx0.(tx_type_) = mid.(tx_type_)).
  { destruct Hs; try done; unfold with_signatures, with_second_signature, with_signature, with_blocks; repeat case_match; done. }
  destruct Hk as (-> & -> & ->). done.
Qed.

Section chain.
Context `{E : Env} `{L : !EnvLaws E}.
Variable n : Network.
Implicit Types (s : Store) (tx : Transaction) (b : Block).
#[local] Abbreviation sent_by := (sent_by n).

Definition stored_balance s (c : string) : Z := balance_of (get_wallet s c).
Definition stored_nonce s (c : string) : Z := default 0 (ws_nonce <$> get_wallet s c).

(** The records of the chain in the order of the heights. *)
Definition records s : list (list byte) := omap (fun h => s.(st_blocks) !! h) (seqZ 0 (get_last_height s + 1)).

Record reconciled s : Prop := {
  rc_tip : 0 <= get_last_height s < u64_max;
  rc_named : forall a w, s.(st_wallets) !! a = Some w -> w.(ws_address) = a;
  rc_plain : forall h v, s.(st_blocks) !! h = Some v -> exists bd, decode_block v n = Ok bd /\ Forall (fun tx => is_claim tx = false) bd.(b_transactions);
  rc_scan : exists acc, rfold (audit_record n s) (records s) ∅ = Ok acc /\
    forall c, bal c acc = stored_balance s c /\ non c acc = stored_nonce s c /\ skp c acc = 0
}.

(** The blocks the audit covers. *)
Record clean s b : Prop := {
  cl_wire : wire_record n b;
  cl_height : b.(b_height) = get_last_height s + 1;
  cl_bound : b.(b_height) < u64_max;
  cl_plain : Forall (fun tx => is_claim tx = false /\ is_buy tx = false) b.(b_transactions);
  cl_turn : in_turn n s b.(b_transactions)
}.

Lemma clean_regular s b : clean s b -> Forall regular b.(b_transactions).
Proof.
  intros [Hw _ _ Hp _]. pose proof (wr_txs _ _ Hw) as Ht. apply Forall_forall. intros tx Hin. rewrite Forall_forall in Hp, Ht.
  destruct (Hp _ Hin), (Ht _ Hin). split; [done|done|by apply wire_amount].
Qed.

(** ** What a block does to the wallets *)

Lemma wallets_follow s ds s1 ur out c : write_wallets_undo s ds true = Ok (s1, ur, out) ->
  stored_balance s1 c = stored_balance s c + lead c ds /\ stored_nonce s1 c = stored_nonce s c + nonce_of c ds.
Proof.
  intros H. apply write_wallets_ok in H as (F & G & _ & _). unfold stored_balance, stored_nonce, balance_of, get_wallet, lead, nonce_of.
  destruct (ds !! c) as [d|] eqn:Hd.
  - destruct (G c d Hd) as (w' & -> & Hw). apply wallet_apply_inv in Hw as (_ & _ & i1 & i2 & t & _ & _ & _ & ->).
    destruct (st_wallets s !! c); cbn; lia.
  - rewrite (F c Hd). cbn. lia.
Qed.

Lemma wallets_named s ds s1 ur out : write_wallets_undo s ds true = Ok (s1, ur, out) ->
  (forall a w, s.(st_wallets) !! a = Some w -> w.(ws_address) = a) -> forall a w, s1.(st_wallets) !! a = Some w -> w.(ws_address) = a.
Proof.
  intros H Hn a w Hw. apply write_wallets_ok in H as (F & G & _ & _). destruct (ds !! a) as [d|] eqn:Hd; [|apply Hn; by rewrite <- (F a Hd)].
  destruct (G a d Hd) as (w' & Hw' & Ha). rewrite Hw' in Hw. injection Hw as ->.
  apply wallet_apply_inv in Ha as (_ & _ & i1 & i2 & t & _ & _ & _ & ->). cbn. destruct (st_wallets s !! a) as [w0|] eqn:H0; cbn; [by apply Hn|done].
Qed.

(** ** What it does to the records *)

Lemma omap_agree {A B} (f g : A -> option B) l : Forall (fun x => f x = g x) l -> omap f l = omap g l.
Proof. induction 1 as [|x l Hx _ IH]; [done|]. cbn. by rewrite Hx, IH. Qed.

Lemma records_push s s' v : 0 <= get_last_height s -> get_last_height s' = get_last_height s + 1 ->
  s'.(st_blocks) = <[get_last_height s + 1 := v]> s.(st_blocks) -> records s' = records s ++ [v].
Proof.
  intros Hl Ht Hb. unfold records. rewrite Ht, Hb. rewrite (seqZ_app 0 (get_last_height s + 1) 1) by lia. rewrite omap_app. f_equal.
  - apply omap_agree, Forall_seqZ. intros h Hh. apply lookup_insert_ne. lia.
  - replace (0 + (get_last_height s + 1)) with (get_last_height s + 1) by lia. rewrite seqZ_cons, seqZ_nil by lia. cbn [omap list_omap]. by rewrite lookup_insert_eq.
Qed.

Lemma records_cut s s' h : get_last_height s' = get_last_height s -> get_last_height s < h -> s'.(st_blocks) = delete h s.(st_blocks) -> records s' = records s.
Proof.
  intros Ht Hh Hb. unfold records. rewrite Ht, Hb. apply omap_agree, Forall_seqZ. intros k Hk. apply lookup_delete_ne. lia.
Qed.

(** The scan does not depend on anything but the blocks. *)
Lemma scan_same s s' l acc : Forall (fun v => exists bd, decode_block v n = Ok bd /\ Forall (fun tx => is_claim tx = false) bd.(b_transactions)) l ->
  rfold (audit_record n s) l acc = rfold (audit_record n s') l acc.
Proof.
  intros H. revert acc; induction H as [|v l (bd & Hd & Hc) _ IH]; intros acc; cbn [rfold]; [done|].
  assert (Hv : audit_record n s acc v = audit_record n s' acc v).
  { unfold audit_record. rewrite Hd. cbn [rbind]. unfold audit_block. destruct (address_from_public_key _ _); [|done]. by apply audit_txs_same. }
  rewrite Hv. destruct (audit_record n s' acc v); cbn [rbind]; [apply IH|done].
Qed.

Lemma records_plain s : reconciled s -> Forall (fun v => exists bd, decode_block v n = Ok bd /\ Forall (fun tx => is_claim tx = false) bd.(b_transactions)) (records s).
Proof.
  intros H. apply Forall_forall. intros v Hv. unfold records in Hv. apply list_elem_of_omap in Hv as (h & _ & Hv). by eapply (rc_plain s H).
Qed.

(** The transactions with their ids filled in, and as they are read back. *)
Lemma fill_ids_alike l l' : rmapM fill_id l = Ok l' -> alike l l'.
Proof.
  revert l'; induction l as [|tx l IH]; intros l' H; cbn [rmapM] in H; [by apply Ok_inj in H as <-|].
  apply rbind_ok_inv in H as (tx' & Hx & H). apply rbind_ok_inv in H as (l1 & Hl & H). apply Ok_inj in H as <-.
  unfold alike. rewrite !fmap_cons. f_equal; [|by apply IH]. unfold fill_id in Hx. destruct (tx_id tx); [by apply Ok_inj in Hx as <-|].
  apply rbind_ok_inv in Hx as (i & _ & Hx). by apply Ok_inj in Hx as <-.
Qed.

Lemma restored_alike bid h l k : alike l (imap (fun i => restored n bid h (k + i)) l).
Proof.
  revert k; induction l as [|tx l IH]; intros k; [done|]. unfold alike. cbn [imap]. rewrite !fmap_cons. f_equal.
  rewrite (imap_ext _ (fun i => restored n bid h (S k + i))); [apply IH|]. intros i x _. cbn. f_equal. lia.
Qed.

(** The record of a clean block read back is the block that was applied, ids and places aside. *)
Lemma record_reread b b' enc : wire_record n b -> prepare_block n b = Ok (b', enc) ->
  exists bd, decode_block enc n = Ok bd /\ reread b' bd /\ alike b.(b_transactions) b'.(b_transactions).
Proof.
  intros Hw Hp. destruct (record_roundtrip n b Hw) as (h & p & _ & He & Hd). rewrite (prepare_encoded _ _ _ _ Hp) in He. apply Ok_inj in He as <-.
  eexists. split; [exact Hd|]. unfold prepare_block in Hp. apply rbind_ok_inv in Hp as (b1 & H1 & Hp). apply rbind_ok_inv in Hp as (txs & Ht & Hp).
  apply rbind_ok_inv in Hp as (e & _ & Hp). apply Ok_inj, pair_eq in Hp as [<- _].
  assert (Hb1 : b_set_id None b1 = b_set_id None b).
  { destruct (b_id b); [by apply Ok_inj in H1 as <-|]. apply rbind_ok_inv in H1 as (i & _ & H1). by apply Ok_inj in H1 as <-. }
  injection Hb1 as _ _ _ Hh _ _ Hf Hr _ _ Hg _ _ Htx. rewrite Htx in Ht. apply fill_ids_alike in Ht.
  split; [|done]. split; cbn; try done. unfold alike in *. rewrite <- Ht. exact (restored_alike _ _ _ 0).
Qed.

(** ** A block more, a block less *)

Lemma turn_alike s l l' : alike l l' -> in_turn n s l -> in_turn n s l'.
Proof.
  intros Ha H c. specialize (H c). pose proof (alike_filter (sent_by c) _ _ (fun _ => eq_refl) Ha) as Hf.
  by rewrite <- (alike_fmap tx_nonce _ _ (fun _ => eq_refl) Hf), <- (alike_length _ _ Hf).
Qed.

Lemma block_nonces s b ds c : in_turn n s b.(b_transactions) -> Z.of_nat (length b.(b_transactions)) <= u32_max ->
  accumulate_deltas n s b [b] ∅ = Ok ds -> foldl (nonce_after n c) (stored_nonce s c) b.(b_transactions) = stored_nonce s c + nonce_of c ds.
Proof.
  intros Ht Hl Hd. unfold stored_nonce. rewrite (nonces_run n c _ _ (Ht c)). f_equal. rewrite (nonce_counts n s c _ _ _ _ Hd) by (unfold nonce_of; rewrite lookup_empty; bounds; cbn; lia).
  unfold nonce_of. rewrite lookup_empty. cbn [fmap option_fmap option_map]. pose proof (filter_length_le (sent_by c) b.(b_transactions)).
  change (default 0 None) with 0. rewrite as_u64_id by (bounds; lia). done.
Qed.

Lemma apply_scan s b u s' : reconciled s -> clean s b -> apply_block n s b u = (s', Done) ->
  exists enc bd acc, records s' = records s ++ [enc] /\ decode_block enc n = Ok bd /\ Forall (fun tx => is_claim tx = false) bd.(b_transactions) /\
    s'.(st_blocks) = <[b.(b_height) := enc]> s.(st_blocks) /\ get_last_height s' = b.(b_height) /\
    (forall a w, s'.(st_wallets) !! a = Some w -> w.(ws_address) = a) /\
    rfold (audit_record n s') (records s ++ [enc]) ∅ = Ok acc /\
    forall c, bal c acc = stored_balance s' c /\ non c acc = stored_nonce s' c /\ skp c acc = 0.
Proof.
  intros Hrc Hcl H. pose proof (clean_regular _ _ Hcl) as Hreg. destruct Hcl as [Hw Hh Hb Hp Ht]. pose proof (rc_tip s Hrc) as Htip.
  apply apply_one_state in H as (b' & enc & ds & s1 & ur & out & Hpr & Hd & _ & Hww & W & _ & B & _ & _ & LH).
  destruct (record_reread _ _ _ Hw Hpr) as (bd & Hdec & Hrr & Hbb). assert (Hlt : (get_last_height s <? b.(b_height)) = true) by lia. rewrite Hlt in LH.
  assert (Htip' : get_last_height s' = b.(b_height)) by (unfold get_last_height; by rewrite LH).
  assert (Hcl : Forall (fun tx => is_claim tx = false) bd.(b_transactions)).
  { eapply (alike_forall (fun tx => is_claim tx = false)); [done|exact (rr_txs _ _ Hrr)|]. eapply (alike_forall (fun tx => is_claim tx = false)); [done|exact Hbb|].
    eapply Forall_impl; [exact Hp|]. by intros tx []. }
  pose proof (alike_forall _ _ _ bare_regular Hbb Hreg) as Hreg'. pose proof (accumulate_senders n _ _ _ _ _ Hd) as Hsd.
  destruct (rc_scan s Hrc) as (acc & Hacc & Hfig).
  assert (exists acc', audit_block n s' acc bd = Ok acc') as (acc' & Hblk).
  { unfold audit_block. unfold accumulate_deltas in Hd. apply rbind_ok_inv in Hd as (g & Hg & _). rewrite (rr_generator _ _ Hrr), Hg. cbn [rbind].
    destruct (audit_txs_total n s bd.(b_transactions) (audit_forger n g bd acc)) as (a & Ha); [|exists a; apply Ha].
    apply Forall_and. split; [done|]. eapply (alike_forall (fun tx => has_sender n tx = true)); [done|exact (rr_txs _ _ Hrr)|done]. }
  exists enc, bd, acc'. split_and!; try done.
  - apply records_push; [lia|lia|]. by rewrite B, Hh.
  - intros a w Hx. rewrite W in Hx. by eapply (wallets_named _ _ _ _ _ Hww (rc_named s Hrc)).
  - rewrite rfold_app, <- (scan_same s s') by by apply records_plain. rewrite Hacc. cbn [rbind rfold]. unfold audit_record. rewrite Hdec. cbn [rbind]. by rewrite Hblk.
  - intros c. destruct (audit_block_agrees n _ _ _ _ _ _ _ Hreg' Hrr Hd Hblk c) as (A1 & A2 & A3). destruct (Hfig c) as (F1 & F2 & F3).
    destruct (wallets_follow _ _ _ _ _ c Hww) as [W1 W2]. unfold stored_balance, stored_nonce, get_wallet in *. rewrite W.
    split_and!; [lia| |congruence]. rewrite A2, F2. fold (get_wallet s c). change (default 0 (ws_nonce <$> get_wallet s c)) with (stored_nonce s c).
    rewrite (block_nonces s b' ds c (turn_alike _ _ _ Hbb Ht)); [|rewrite <- (alike_length _ _ Hbb); exact (wr_count _ _ Hw)|exact Hd]. unfold stored_nonce, get_wallet. lia.
Qed.

Lemma reconciled_apply s b u s' : reconciled s -> clean s b -> apply_block n s b u = (s', Done) -> reconciled s'.
Proof.
  intros Hrc Hcl H. destruct (apply_scan _ _ _ _ Hrc Hcl H) as (enc & bd & acc & R & D & C & B & T & N & A & F).
  pose proof (rc_tip s Hrc). pose proof (cl_height _ _ Hcl). pose proof (cl_bound _ _ Hcl). split; [lia|done| |].
  - intros h v Hv. rewrite B in Hv. apply lookup_insert_Some in Hv as [[_ <-]|[_ Hv]]; [by exists bd|by eapply (rc_plain s Hrc)].
  - exists acc. by rewrite R.
Qed.

(** A rollback of the block gives back the wallets and the records. *)
Lemma reconciled_rollback s b u s1 s2 h : reconciled s -> clean s b -> apply_block n s b u = (s1, Done) ->
  rollback_last_block n s1 = (s2, Ok h) -> reconciled s2.
Proof.
  intros Hrc Hcl Ha Hr. destruct (apply_scan _ _ _ _ Hrc Hcl Ha) as (enc & bd & acc & _ & _ & _ & _ & T & _).
  pose proof (rc_tip s Hrc) as Htip. pose proof (cl_height _ _ Hcl) as Hh. pose proof (cl_bound _ _ Hcl).
  assert (1 <= get_last_height s).
  { destruct (decide (1 <= get_last_height s)); [done|]. unfold rollback_last_block in Hr. rewrite T in Hr.
    destruct (Z.leb_spec b.(b_height) 1); [done|lia]. }
  destruct (rollback_undone n s b u s1 s2 h Ha Hr) as (_ & T2 & W2 & B2 & _); [lia|].
  pose proof (records_cut s s2 b.(b_height) T2 ltac:(lia) B2) as R2. split; [lia| | |].
  - rewrite W2. apply (rc_named s Hrc).
  - intros k v Hk. rewrite B2 in Hk. apply lookup_delete_Some in Hk as [_ Hk]. by eapply (rc_plain s Hrc).
  - destruct (rc_scan s Hrc) as (acc0 & A & F). exists acc0. rewrite R2, <- (scan_same s s2) by by apply records_plain. split; [done|].
    intros c. unfold stored_balance, stored_nonce, get_wallet. rewrite W2. apply F.
Qed.

(** ** The comparison *)

Lemma compare_clean tip l out acc : NoDup (ws_address <$> l) ->
  Forall (fun w => let a := entry_at w.(ws_address) acc in wa_computed_balance a = w.(ws_balance) /\ wa_computed_nonce a = w.(ws_nonce) /\ wa_skipped a = 0) l ->
  (foldl (compare_step tip) (out, acc) l).1
  = mkChainAudit out.(ca_height) (out.(ca_wallets) + Z.of_nat (length l)) (out.(ca_checked) + Z.of_nat (length l)) out.(ca_skipped) out.(ca_drifted).
Proof.
  revert out acc; induction l as [|w l IH]; intros [h k c sk d] acc Hn Hf; [cbn; f_equal; lia|].
  rewrite fmap_cons in Hn. apply NoDup_cons in Hn as [Hnin Hn]. apply Forall_cons in Hf as [(Hb & Hno & Hs) Hf]. cbn [foldl].
  unfold compare_step at 2. fold (entry_at w.(ws_address) acc). set (a := audit_finish _ _ _ _ _).
  assert (Ha : wa_skipped a = 0 /\ drifts a = false).
  { unfold a, audit_finish, drifts. cbn [wa_skipped wa_nonce_ok wa_balance_ok]. rewrite Hb, Hno, Hs. cbn. by rewrite !Z.eqb_refl. }
  destruct Ha as [-> ->]. cbn [Z.ltb Z.compare]. rewrite IH; [cbn [ca_height ca_wallets ca_checked ca_skipped ca_drifted length]; f_equal; lia|done|].
  rewrite Forall_forall in Hf |- *. intros x Hx. cbn zeta. unfold entry_at at 1 2 3.
  rewrite lookup_delete_ne; [by apply Hf|]. intros He. apply Hnin. rewrite He. by apply list_elem_of_fmap_2.
Qed.

Lemma audit_reconciled s : reconciled s -> audit_all n s =
  Ok (mkChainAudit (get_last_height s) (Z.of_nat (wallet_count s)) (Z.of_nat (wallet_count s)) 0 []).
Proof.
  intros Hrc. pose proof (rc_tip s Hrc). destruct (rc_scan s Hrc) as (acc & A & F). unfold audit_all, audit_scan.
  destruct (Z.ltb_spec (get_last_height s) 0); [lia|]. rewrite Z.sub_0_r. fold (records s). rewrite A. cbn [rbind]. f_equal. unfold audit_compare.
  assert (Hfst : ws_address <$> all_wallets s = (bt_entries s.(st_wallets)).*1).
  { unfold all_wallets. rewrite <- list_fmap_compose. apply list_fmap_ext. intros i [a w] Hi. cbn. apply (rc_named s Hrc).
    apply elem_of_bt_entries. by eapply list_elem_of_lookup_2. }
  assert (Hlen : length (all_wallets s) = wallet_count s).
  { unfold all_wallets, wallet_count. rewrite length_fmap, (Permutation_length (bt_entries_perm _)). apply length_map_to_list. }
  rewrite compare_clean; [cbn [ca_height ca_wallets ca_checked ca_skipped ca_drifted]; by rewrite Hlen|rewrite Hfst; apply NoDup_bt_entries|].
  apply Forall_forall. intros w Hw. unfold all_wallets in Hw. apply list_elem_of_fmap in Hw as ([a w'] & -> & Hw). apply elem_of_bt_entries in Hw.
  cbn [snd]. rewrite (rc_named s Hrc a w' Hw). destruct (F a) as (F1 & F2 & F3). unfold bal, non, skp, stored_balance, stored_nonce, balance_of, get_wallet in *.
  rewrite Hw in F1, F2. done.
Qed.

(** ** Chains *)

(** The stores that grow from an empty one. *)
Inductive grown : Store -> Prop :=
| gw_empty : grown store_empty
| gw_block s b u s' : grown s -> clean s b -> apply_block n s b u = (s', Done) -> grown s'
| gw_undo s b u s1 s2 h : grown s -> clean s b -> apply_block n s b u = (s1, Done) -> rollback_last_block n s1 = (s2, Ok h) -> grown s2.

Lemma grown_reconciled s : grown s -> reconciled s.
Proof.
  induction 1; [|by eapply reconciled_apply|by eapply reconciled_rollback]. split; [vm_compute; by split|done|done|].
  exists ∅. split; [done|]. intros c. done.
Qed.

(** C10: the audit agrees with the state.  On every chain that grew from an empty store by blocks without purchases and
    claims whose nonces are in turn, rollbacks of the last block included, the second bookkeeping of the audit comes to
    the stored balances and nonces: it compares every wallet, skips none and reports no drift, and its repair leaves every
    wallet as it is. *)
Theorem audit_finds_no_drift s (H : grown s) :
  let report := mkChainAudit (get_last_height s) (Z.of_nat (wallet_count s)) (Z.of_nat (wallet_count s)) 0 [] in
  audit_all n s = Ok report /\ audit_fix n s = Ok (report, rebuild_vote_index s).
Proof.
  apply grown_reconciled, audit_reconciled in H. cbn zeta. split; [done|]. unfold audit_fix. by rewrite H.
Qed.
End chain.
