(* ===== verification/RestSync.v ===== *)
(** * Synchronisation over the REST API

    The [Syncer] of [src/src/sync.rs]: ranges of blocks are fetched from the nodes of the pool, each with the
    transactions of its blocks, and applied strictly in order.  What a node answers, the lease under which it is asked
    and the clocks are arguments; what a request tells the pool is a list of the [PoolCall]s of [NodePool], which the
    workers make in any interleaving.  Other tasks may change the store wherever the consumer waits ([tn_pause]).
    Sleeping, progress bars and log lines are not modelled. *)

From S2P Require Import Prelude Models Env Config BlockVerify Tree Storage Chain Sync NodePool CatchUp.
From S2P Require Import Ledger CatchUpFacts.

Definition MAX_API_LIMIT : Z := 100.
Definition NODES : list string :=
  ["https://node0.smartholdem.io"; "https://node1.smartholdem.io"; "https://node2.smartholdem.io";
   "https://node3.smartholdem.io"; "https://node4.smartholdem.io"; "https://node5.smartholdem.io"].

(** Durations are nanoseconds, as in [NodePool]. *)
Record SyncConfig : Type := mkSyncConfig {
  sy_nodes : list string; sy_batch_size : Z; sy_concurrency : Z; sy_request_timeout : Z; sy_verify : bool;
  sy_max_attempts : Z; sy_follow : bool; sy_quiet : bool; sy_rate_limit : RateLimitConfig
}.
Definition sync_config_default : SyncConfig := mkSyncConfig NODES MAX_API_LIMIT 8 (from_secs 30) true 30 false false rate_limit_default.

(** What [Syncer::new] makes of a configuration. *)
Definition syncer_config (c : SyncConfig) : Res SyncConfig :=
  match c.(sy_nodes) with
  | [] => Err (ESync "node pool is empty")
  | _ => Ok (mkSyncConfig c.(sy_nodes) (Z.min (Z.max c.(sy_batch_size) 1) MAX_API_LIMIT) (Z.max c.(sy_concurrency) 1) c.(sy_request_timeout)
               c.(sy_verify) (Z.max c.(sy_max_attempts) 1) c.(sy_follow) c.(sy_quiet) c.(sy_rate_limit))
  end.

Record SyncReport : Type := mkSyncReport {
  sr_start_height : Z; sr_end_height : Z; sr_network_height : Z; sr_blocks_applied : Z; sr_interrupted : bool
}.

Inductive SyncOutcome : Type := Finished | Interrupted.

(** ** Requests *)

Inductive RequestError : Type := TooManyRequests | Transient (e : Error).

(** What comes back for a request: nothing, or a status and what the body reads as. *)
Inductive Response (A : Type) : Type := NoResponse (e : Error) | Responded (status : Z) (body : Res A).
Arguments NoResponse {A} e.
Arguments Responded {A} status body.

Section requests.
(** How reqwest shows a status. *)
Variable status_text : Z -> string.

Definition get_json {A} (url : string) (r : Response A) : result A RequestError :=
  match r with
  | NoResponse e => Err (Transient e)
  | Responded status body =>
      if status =? 429 then Err TooManyRequests
      else if negb ((200 <=? status) && (status <? 300)) then Err (Transient (ESync ("HTTP " +:+ status_text status +:+ " from " +:+ url)))
      else map_err Transient body
  end.

(** [handle_429] and the line of the display, which counts the window of the node. *)
Definition handle_429 (lease : Lease) : list PoolCall := [RateLimited lease; Status].

(** ** The transactions of a block *)

Definition transactions_url (lease : Lease) (id : string) (page : Z) : string :=
  lease.(le_url) +:+ "/api/blocks/" +:+ id +:+ "/transactions?transform=false&limit=" +:+ fmt_u MAX_API_LIMIT +:+ "&page=" +:+ fmt_u page.

(** The answers to the page requests of a worker, in the order in which they are made. *)
Definition Pages : Type := list (Lease * Response (list Transaction)).

(** The pages of one block: the worker stops at a page that is not full or when it has as many as it expects.  The list
    of answers ends when the worker waits for ever. *)
Fixpoint fetch_pages (id : string) (expected : nat) (page : Z) (all : list Transaction) (answers : Pages)
    : Pages * list PoolCall * option (result (list Transaction) RequestError) :=
  match answers with
  | [] => ([], [], None)
  | (lease, r) :: answers =>
      match get_json (transactions_url lease id page) r with
      | Ok chunk =>
          let all := all ++ chunk in
          if (length chunk <? Z.to_nat MAX_API_LIMIT)%nat || (expected <=? length all)%nat then (answers, [Success lease], Some (Ok all))
          else let '(rest, calls, out) := fetch_pages id expected (as_u32 (page + 1)) all answers in (rest, Success lease :: calls, out)
      | Err TooManyRequests => (answers, handle_429 lease, Some (Err TooManyRequests))
      | Err (Transient e) => (answers, [Failure lease], Some (Err (Transient e)))
      end
  end.

Definition tx_seq (tx : Transaction) : Z := default u32_max tx.(tx_sequence).
Definition seq_le (a b : Transaction) : Prop := tx_seq a <= tx_seq b.
#[global] Instance seq_le_dec : RelDecision seq_le := fun a b => Z_le_dec _ _.

(** [dedup_by]: an element equal to the one kept before it goes. *)
Definition same_tx (a b : Transaction) : bool := match a.(tx_id) with Some _ => bool_decide (a.(tx_id) = b.(tx_id)) | None => false end.
Fixpoint dedup_after (kept : Transaction) (l : list Transaction) : list Transaction :=
  match l with
  | [] => []
  | a :: l => if same_tx a kept then dedup_after kept l else a :: dedup_after a l
  end.
Definition dedup_txs (l : list Transaction) : list Transaction :=
  match l with [] => [] | a :: l => a :: dedup_after a l end.

Definition fetch_block_transactions (block : Block) (answers : Pages) : Pages * list PoolCall * option (result (list Transaction) RequestError) :=
  match block.(b_id) with
  | None => (answers, [], Some (Err (Transient (ESync ("block " +:+ fmt_u block.(b_height) +:+ " has no id")))))
  | Some id =>
      let expected := Z.to_nat block.(b_number_of_transactions) in
      let '(answers, calls, out) := fetch_pages id expected 1 [] answers in
      (answers, calls,
       match out with
       | Some (Ok all) =>
           let all := dedup_txs (sort_by seq_le all) in
           Some (if (length all =? expected)%nat then Ok all
                 else Err (Transient (ESync ("block " +:+ fmt_u block.(b_height) +:+ " (" +:+ id +:+ "): got " +:+ fmt_u (Z.of_nat (length all))
                                               +:+ " transactions, header says " +:+ fmt_u (Z.of_nat expected)))))
       | _ => out
       end)
  end.

(** ** A range *)

Definition range_url (cfg : SyncConfig) (lease : Lease) (from to : Z) : string :=
  lease.(le_url) +:+ "/api/blocks?height.from=" +:+ fmt_u from +:+ "&height.to=" +:+ fmt_u to +:+ "&limit=" +:+ fmt_u cfg.(sy_batch_size)
  +:+ "&orderBy=height:asc&transform=false".

Definition height_le (a b : Block) : Prop := a.(b_height) <= b.(b_height).
#[global] Instance height_le_dec : RelDecision height_le := fun a b => Z_le_dec _ _.

(** The blocks that say they have transactions get them, one after the other. *)
Fixpoint fill_blocks (blocks : list Block) (answers : Pages) : list PoolCall * option (result (list Block) RequestError) :=
  match blocks with
  | [] => ([], Some (Ok []))
  | block :: blocks =>
      if 0 <? block.(b_number_of_transactions) then
        let '(answers, calls, out) := fetch_block_transactions block answers in
        match out with
        | Some (Ok txs) =>
            let '(calls', out) := fill_blocks blocks answers in
            (calls ++ calls', match out with Some (Ok l) => Some (Ok (b_set_transactions txs block :: l)) | _ => out end)
        | Some (Err e) => (calls, Some (Err e))
        | None => (calls, None)
        end
      else
        let '(calls, out) := fill_blocks blocks answers in
        (calls, match out with Some (Ok l) => Some (Ok (block :: l)) | _ => out end)
  end.

(** One attempt: the node that was asked for the blocks, its answer, and the answers for the pages. *)
Record Attempt : Type := mkAttempt { at_lease : Lease; at_blocks : Response (list Block); at_pages : Pages }.

Definition fetch_range_from (cfg : SyncConfig) (from to : Z) (a : Attempt) : list PoolCall * option (result (list Block) RequestError) :=
  match get_json (range_url cfg a.(at_lease) from to) a.(at_blocks) with
  | Err e => ([], Some (Err e))
  | Ok blocks =>
      let '(calls, out) := fill_blocks (sort_by height_le blocks) a.(at_pages) in (Status :: calls, out)
  end.

(** At most [tries] attempts; [last] is the error of the one before. *)
Fixpoint fetch_range_go (cfg : SyncConfig) (from to : Z) (tries : nat) (last : option Error) (attempts : list Attempt)
    : list PoolCall * option (Res (list Block)) :=
  match tries with
  | O => ([], Some (Err (default (ESync ("blocks " +:+ fmt_u from +:+ "-" +:+ fmt_u to +:+ ": gave up after " +:+ fmt_u cfg.(sy_max_attempts)
                                           +:+ " attempts")) last)))
  | S tries =>
      match attempts with
      | [] => ([], None)
      | a :: attempts =>
          let '(calls, out) := fetch_range_from cfg from to a in
          match out with
          | None => (calls, None)
          | Some (Ok blocks) => (calls ++ [Success a.(at_lease)], Some (Ok blocks))
          | Some (Err TooManyRequests) =>
              let '(calls', out) := fetch_range_go cfg from to tries (Some (ESync ("HTTP 429 from " +:+ a.(at_lease).(le_host)))) attempts in
              (calls ++ handle_429 a.(at_lease) ++ [Status] ++ calls', out)
          | Some (Err (Transient e)) =>
              let '(calls', out) := fetch_range_go cfg from to tries (Some e) attempts in
              (calls ++ [Failure a.(at_lease); Status] ++ calls', out)
          end
      end
  end.
Definition fetch_range (cfg : SyncConfig) (from to : Z) (attempts : list Attempt) : list PoolCall * option (Res (list Block)) :=
  fetch_range_go cfg from to (Z.to_nat cfg.(sy_max_attempts)) None attempts.

(** ** The height of the network *)

Definition blockchain_url (lease : Lease) : string := lease.(le_url) +:+ "/api/blockchain".

Fixpoint heights_heard (answers : list (Lease * Response Z)) (best : option Z) : list PoolCall * option Z :=
  match answers with
  | [] => ([], best)
  | (lease, r) :: answers =>
      match get_json (blockchain_url lease) r with
      | Ok h => let '(calls, best) := heights_heard answers (Some (match best with Some b => Z.max b h | None => h end)) in (Success lease :: calls, best)
      | Err TooManyRequests => let '(calls, best) := heights_heard answers best in (handle_429 lease ++ calls, best)
      | Err (Transient _) => let '(calls, best) := heights_heard answers best in (Failure lease :: calls, best)
      end
  end.
(** One request for each node of the pool. *)
Definition fetch_network_height (answers : list (Lease * Response Z)) : list PoolCall * Res Z :=
  let '(calls, best) := heights_heard answers None in
  (calls, match best with Some h => Ok h | None => Err (ESync "no node in the pool answered /api/blockchain") end).
End requests.

(** ** Applying what was fetched *)

Section syncer.
Context `{E : Env}.
Variables (n : Network) (status_text : Z -> string) (cfg : SyncConfig) (undo_enabled : bool).
Implicit Types (s : Store) (tip : ChainTip) (blocks : list Block).

(** The text of a failed join is not modelled. *)
Definition apply_blocking (ck : Clocks) tip blocks s : Store * Res ChainTip :=
  match sync_apply_blocks n s cfg.(sy_verify) undo_enabled ck.(ck_epoch) ck.(ck_unix_ms) blocks tip with
  | (s, _, Some tip) => (s, Ok tip)
  | (s, Failed e, None) => (s, Err e)
  | (s, _, None) => (s, Err (ESync "apply task failed"))
  end.

Definition above tip blocks : list Block := List.filter (fun b => tip.(tip_height) <? b.(b_height)) blocks.

(** What happens from one range to the next: the attempts to fetch it and to fetch it again, what the other tasks do to
    the store while the consumer waits for the [k]-th time, the clocks, and whether the operator interrupts first. *)
Record SyncTurn : Type := mkTurn {
  tn_interrupt : bool; tn_attempts : list Attempt; tn_retry : list Attempt; tn_pause : nat -> Store -> Store; tn_clock : nat -> Clocks
}.

Definition apply_batch (t : SyncTurn) tip blocks s : Store * option (Res ChainTip) :=
  let from := match blocks with b :: _ => b.(b_height) | [] => as_u64 (tip.(tip_height) + 1) end in
  let to := match last blocks with Some b => b.(b_height) | None => from end in
  let '(s, r) := apply_blocking (t.(tn_clock) 0%nat) tip blocks (t.(tn_pause) 1%nat s) in
  match r with
  | Ok tip => (s, Some (Ok tip))
  | Err (EStaleTip _) =>
      let s := t.(tn_pause) 2%nat s in
      match tip_of n s with
      | Err e => (s, Some (Err e))
      | Ok local =>
          match above local blocks with
          | [] => (s, Some (Ok local))
          | rest => let '(s, r) := apply_blocking (t.(tn_clock) 1%nat) local rest (t.(tn_pause) 3%nat s) in (s, Some r)
          end
      end
  | Err _ =>
      match (fetch_range status_text cfg from to t.(tn_retry)).2 with
      | None => (s, None)
      | Some (Err e) => (s, Some (Err e))
      | Some (Ok retry) => let '(s, r) := apply_blocking (t.(tn_clock) 1%nat) tip retry (t.(tn_pause) 2%nat s) in (s, Some r)
      end
  end.

(** [(tip, target]] in steps of a batch, all of them at once.  The sum for the end of a range is exact here: it wraps in [u64] only
    for heights near [u64::MAX], for which the list does not fit into any memory. *)
Definition ranges (tip target : Z) : list (Z * Z) :=
  let batch := cfg.(sy_batch_size) in
  (fun k => let from := tip + 1 + k * batch in (from, Z.min (from + batch - 1) target)) <$> seqZ 0 ((target - tip + batch - 1) / batch).

(** The consumer of [sync_until].  The ranges are fetched several at a time but arrive in order, and nothing arrives
    after an error.  The turns end when the consumer waits for ever. *)
Fixpoint sync_ranges (work : list (Z * Z)) (turns : list SyncTurn) tip s : Store * option (Res (ChainTip * SyncOutcome)) :=
  match work with
  | [] => (s, Some (Ok (tip, match turns with t :: _ => if t.(tn_interrupt) then Interrupted else Finished | [] => Finished end)))
  | (from, to) :: work =>
      match turns with
      | [] => (s, None)
      | t :: turns =>
          if t.(tn_interrupt) then (s, Some (Ok (tip, Interrupted))) else
          match (fetch_range status_text cfg from to t.(tn_attempts)).2 with
          | None => (s, None)
          | Some (Err e) => (s, Some (Err e))
          | Some (Ok blocks) =>
              let s := t.(tn_pause) 0%nat s in
              match tip_of n s with
              | Err e => (s, Some (Err e))
              | Ok local =>
                  let tip := if tip.(tip_height) <? local.(tip_height) then local else tip in
                  match above tip blocks with
                  | [] => sync_ranges work turns tip s
                  | new =>
                      match apply_batch t tip new s with
                      | (s, Some (Ok tip)) => sync_ranges work turns tip s
                      | (s, Some (Err e)) => (s, Some (Err e))
                      | (s, None) => (s, None)
                      end
                  end
              end
          end
      end
  end.
Definition sync_until tip (target : Z) (turns : list SyncTurn) s : Store * option (Res (ChainTip * SyncOutcome)) :=
  sync_ranges (ranges tip.(tip_height) target) turns tip s.

(** ** The loop of [run] *)

(** A turn of the loop: the ranges, the heights heard after them, what the other tasks do until the poll, whether the
    operator interrupts the wait, and the heights the poll hears. *)
Record SyncRound : Type := mkRound {
  rd_turns : list SyncTurn; rd_after : list (Lease * Response Z); rd_pause : Store -> Store; rd_interrupt : bool;
  rd_poll : list (Lease * Response Z)
}.
Definition heard_height (answers : list (Lease * Response Z)) : Res Z := (fetch_network_height status_text answers).2.

(** Once the target is reached, the end or the next poll; [again] is the rest of the loop. *)
Definition follow_on (rd : SyncRound) (again : ChainTip -> Z -> Store -> Store * option (Res (ChainTip * Z * bool)))
    tip (network_height : Z) s : Store * option (Res (ChainTip * Z * bool)) :=
  if negb cfg.(sy_follow) then (s, Some (Ok (tip, network_height, false))) else
  let s := rd.(rd_pause) s in
  let tip := match tip_of n s with
             | Ok local => if tip.(tip_height) <? local.(tip_height) then local else tip
             | Err _ => tip
             end in
  if rd.(rd_interrupt) then (s, Some (Ok (tip, network_height, true))) else
  again tip (match heard_height rd.(rd_poll) with
             | Ok h => if tip.(tip_height) <? h then h else network_height
             | Err _ => network_height
             end) s.

Fixpoint run_go (rounds : list SyncRound) tip (network_height : Z) s : Store * option (Res (ChainTip * Z * bool)) :=
  match rounds with
  | [] => (s, None)
  | rd :: rounds =>
      if tip.(tip_height) <? network_height then
        match sync_until tip network_height rd.(rd_turns) s with
        | (s, None) => (s, None)
        | (s, Some (Err e)) => (s, Some (Err e))
        | (s, Some (Ok (tip, Interrupted))) => (s, Some (Ok (tip, network_height, true)))
        | (s, Some (Ok (tip, Finished))) =>
            let network_height := match heard_height rd.(rd_after) with Ok h => h | Err _ => network_height end in
            if tip.(tip_height) <? network_height then run_go rounds tip network_height s
            else follow_on rd (run_go rounds) tip network_height s
        end
      else follow_on rd (run_go rounds) tip network_height s
  end.

Definition sync_run (first : list (Lease * Response Z)) (rounds : list SyncRound) s : Store * option (Res SyncReport) :=
  match tip_of n s with
  | Err e => (s, Some (Err e))
  | Ok start =>
      match heard_height first with
      | Err e => (s, Some (Err e))
      | Ok network_height =>
          match run_go rounds start network_height s with
          | (s, Some (Ok (tip, network_height, interrupted))) =>
              (s, Some (Ok (mkSyncReport start.(tip_height) tip.(tip_height) network_height
                              (sat_sub tip.(tip_height) start.(tip_height)) interrupted)))
          | (s, Some (Err e)) => (s, Some (Err e))
          | (s, None) => (s, None)
          end
      end
  end.
End syncer.

(** ** What a range is worth *)

Section fetching.
Variable status_text : Z -> string.
Implicit Types (b : Block) (txs : list Transaction).

Lemma get_json_ok {A} url code (a : A) : 200 <= code < 300 -> get_json status_text url (Responded code (Ok a)) = Ok a.
Proof.
  intros Hc. cbn. destruct (Z.eqb_spec code 429); [lia|]. by rewrite (proj2 (Z.leb_le 200 code)), (proj2 (Z.ltb_lt code 300)) by lia.
Qed.

(** A node that answers with the [k]-th page, the first being page 0. *)
Definition serves_page txs (k : nat) (a : Lease * Response (list Transaction)) : Prop :=
  exists code, 200 <= code < 300 /\ a.2 = Responded code (Ok (take 100 (drop (k * 100) txs))).
(** Answers that serve the whole list, each from some node. *)
Definition serves_all txs (answers : Pages) : Prop := Forall2 (serves_page txs) (seq 0 ((length txs + 99) / 100)) answers.

Lemma pages_read id txs rest : forall m k page answers, Forall2 (serves_page txs) (seq k m) answers -> (0 < m)%nat -> (k + m = (length txs + 99) / 100)%nat ->
  exists calls, fetch_pages status_text id (length txs) page (take (k * 100) txs) (answers ++ rest) = (rest, calls, Some (Ok txs)).
Proof.
  intros m. induction m as [|m IH]; intros k page answers H Hm Hk; [lia|]. cbn [seq] in H. inversion H as [|? a ? answers' (code & Hc & Ha) Hrest]; subst.
  destruct a as [lease r]. cbn [snd] in Ha. subst r. cbn [app fetch_pages]. rewrite get_json_ok by done.
  pose proof (Nat.div_mod (length txs + 99) 100 ltac:(lia)) as Hdm. pose proof (Nat.mod_upper_bound (length txs + 99) 100 ltac:(lia)) as Hmb.
  assert (Hall : take (k * 100) txs ++ take 100 (drop (k * 100) txs) = take (S k * 100) txs).
  { rewrite <- (take_drop (k * 100) (take (S k * 100) txs)). rewrite take_take, skipn_firstn_comm. f_equal; f_equal; lia. }
  rewrite Hall. rewrite !length_take, length_drop. change (Z.to_nat MAX_API_LIMIT) with 100%nat.
  destruct m as [|m].
  - cbn [seq] in Hrest. inversion Hrest; subst. cbn [app]. rewrite (take_ge txs (S k * 100)) by lia.
    replace ((_ <? _)%nat || _)%bool with true; [by eexists|]. symmetry. apply orb_true_iff. right. apply Nat.leb_le. lia.
  - assert (Hlt : (S k * 100 < length txs)%nat) by lia. rewrite (proj2 (Nat.ltb_ge _ _)), (proj2 (Nat.leb_gt _ _)) by lia. cbn [orb].
    destruct (IH (S k) (as_u32 (page + 1)) answers' Hrest) as (calls & ->); [lia|lia|]. by eexists.
Qed.

Lemma dedup_distinct txs : NoDup (tx_id <$> txs) -> dedup_txs txs = txs.
Proof.
  destruct txs as [|a txs]; [done|]. cbn [dedup_txs]. intros H. f_equal. revert a H. induction txs as [|b txs IH]; intros a H; [done|].
  cbn [dedup_after]. cbn [fmap list_fmap] in H. apply NoDup_cons in H as [Ha H]. unfold same_tx.
  destruct (tx_id b) as [i|] eqn:Hb; [rewrite bool_decide_eq_false_2|]; try (by f_equal; apply IH; cbn; rewrite ?Hb).
  intros He. apply Ha. rewrite <- He, <- Hb. set_solver.
Qed.

(** A block as the network has it: it counts its transactions, they are in order and no id comes twice. *)
Record complete b : Prop := {
  cp_count : b.(b_number_of_transactions) = Z.of_nat (length b.(b_transactions));
  cp_id : is_Some b.(b_id);
  cp_order : StronglySorted seq_le b.(b_transactions);
  cp_distinct : NoDup (tx_id <$> b.(b_transactions))
}.
Definition header b : Block := b_set_transactions [] b.

Lemma header_back b : b_set_transactions b.(b_transactions) (header b) = b.
Proof. by destruct b. Qed.

Lemma transactions_fetched b answers rest : complete b -> b.(b_transactions) <> [] -> serves_all b.(b_transactions) answers ->
  exists calls, fetch_block_transactions status_text (header b) (answers ++ rest) = (rest, calls, Some (Ok b.(b_transactions))).
Proof.
  intros [Hn [id Hid] Ho Hd] Hne Hs. unfold fetch_block_transactions. change (b_id (header b)) with (b_id b). rewrite Hid.
  change (b_number_of_transactions (header b)) with (b_number_of_transactions b). rewrite Hn, Nat2Z.id.
  destruct (pages_read id b.(b_transactions) rest _ 0%nat 1 answers Hs) as (calls & Hf); [|done|].
  { destruct (b_transactions b) as [|a l]; [done|]. apply Nat.div_str_pos. cbn [length]. lia. }
  change (take (0 * 100) _) with (@nil Transaction) in Hf. rewrite Hf.
  rewrite sort_by_sorted by done. rewrite dedup_distinct by done. rewrite Nat.eqb_refl. by eexists.
Qed.

(** The answers for the blocks that have transactions, one block after the other. *)
Inductive serves_blocks : list Block -> Pages -> Prop :=
| sb_nil : serves_blocks [] []
| sb_empty b blocks answers : b.(b_transactions) = [] -> serves_blocks blocks answers -> serves_blocks (b :: blocks) answers
| sb_full b blocks pages answers : b.(b_transactions) <> [] -> serves_all b.(b_transactions) pages -> serves_blocks blocks answers ->
    serves_blocks (b :: blocks) (pages ++ answers).

Lemma blocks_filled blocks answers rest : Forall complete blocks -> serves_blocks blocks answers ->
  exists calls, fill_blocks status_text (header <$> blocks) (answers ++ rest) = (calls, Some (Ok blocks)).
Proof.
  intros Hc H. induction H as [|b blocks answers Hb _ IH|b blocks pages answers Hb Hp _ IH]; [by eexists|..]; apply Forall_cons in Hc as [Hc Hcs];
    destruct (IH Hcs) as (calls & Hf); cbn [fmap list_fmap fill_blocks]; change (b_number_of_transactions (header b)) with (b_number_of_transactions b).
  - rewrite (cp_count _ Hc), Hb. cbn [length Z.of_nat Z.ltb Z.compare]. fold (header <$> blocks). rewrite Hf. eexists. do 4 f_equal. rewrite <- (header_back b) at 2. by rewrite Hb.
  - rewrite (cp_count _ Hc), (proj2 (Z.ltb_lt _ _)) by (destruct (b_transactions b); [done|cbn [length]; lia]). rewrite <- app_assoc.
    destruct (transactions_fetched b pages (answers ++ rest) Hc Hb Hp) as (calls' & ->). fold (header <$> blocks). rewrite Hf. eexists. by rewrite header_back.
Qed.

(** An attempt at a node that has the blocks, whose pages are answered by nodes that have them. *)
Definition honest blocks (a : Attempt) : Prop :=
  (exists code answered, 200 <= code < 300 /\ a.(at_blocks) = Responded code (Ok answered) /\ answered ≡ₚ header <$> blocks) /\
  exists pages rest, serves_blocks blocks pages /\ a.(at_pages) = pages ++ rest.
(** An attempt that fails, for whatever reason. *)
Definition failing (cfg : SyncConfig) (from to : Z) (a : Attempt) : Prop := exists e, (fetch_range_from status_text cfg from to a).2 = Some (Err e).

Lemma strictly_ascending blocks : StronglySorted Z.lt (b_height <$> blocks) -> StronglySorted height_le (header <$> blocks) /\
  forall a b, a ∈ blocks -> b ∈ blocks -> b_height a = b_height b -> a = b.
Proof.
  induction blocks as [|b blocks IH]; intros H; [split; [constructor|set_solver]|]. cbn in H. apply StronglySorted_inv in H as [H Hb].
  destruct (IH H) as [Hs Hu]. rewrite Forall_fmap in Hb. split.
  - cbn. constructor; [done|]. rewrite Forall_fmap. eapply Forall_impl; [exact Hb|]. cbn. unfold height_le. cbn. lia.
  - rewrite Forall_forall in Hb. intros x y Hx Hy He. apply elem_of_cons in Hx, Hy.
    destruct Hx as [->|Hx], Hy as [->|Hy]; [done|specialize (Hb y Hy); cbn in Hb; lia|specialize (Hb x Hx); cbn in Hb; lia|by apply Hu].
Qed.

Lemma honest_range cfg from to blocks a : Forall complete blocks -> StronglySorted Z.lt (b_height <$> blocks) -> honest blocks a ->
  exists calls, fetch_range_from status_text cfg from to a = (calls, Some (Ok blocks)).
Proof.
  intros Hc Hs [(code & answered & Hcode & Ha & Hp) (pages & rest & Hpages & Hat)]. unfold fetch_range_from. rewrite Ha, get_json_ok, Hat by done.
  destruct (strictly_ascending blocks Hs) as [Hsort Hu].
  replace (sort_by height_le answered) with (header <$> blocks).
  { destruct (blocks_filled blocks pages rest Hc Hpages) as (calls & ->). by eexists. }
  apply (StronglySorted_unique_strong height_le); [|done| |].
  - intros x y Hx Hy Hxy Hyx. assert (Hy' : y ∈ header <$> blocks) by (by rewrite <- Hp, <- (sort_by_Permutation (A:=Block) height_le answered)).
    apply list_elem_of_fmap in Hx as (x' & -> & Hx), Hy' as (y' & -> & Hy'). f_equal. apply Hu; [done|done|]. unfold height_le in *. cbn in Hxy, Hyx. lia.
  - apply StronglySorted_sort_by; intros ?; unfold height_le; lia.
  - by rewrite (sort_by_Permutation height_le answered), Hp.
Qed.

(** C36: Whatever nodes failed before, a node that has the blocks gives the range: exactly its blocks in order, each with all of its transactions read
    page by page, as long as fewer attempts failed than are allowed.  The blocks are [complete] and of distinct heights. *)
Theorem range_fetched cfg from to blocks bad a rest :
  Forall complete blocks -> StronglySorted Z.lt (b_height <$> blocks) -> Forall (failing cfg from to) bad -> Z.of_nat (length bad) < cfg.(sy_max_attempts) ->
  honest blocks a -> (fetch_range status_text cfg from to (bad ++ a :: rest)).2 = Some (Ok blocks).
Proof.
  intros Hc Hs Hbad Hlen Ha. unfold fetch_range. assert (Ht : (length bad < Z.to_nat cfg.(sy_max_attempts))%nat) by lia.
  generalize (@None Error) as last. clear Hlen. revert Ht. generalize (Z.to_nat cfg.(sy_max_attempts)). induction Hbad as [|x bad [e Hx] _ IH]; intros tries Ht last.
  - destruct tries as [|tries]; [cbn in Ht; lia|]. cbn [app fetch_range_go]. destruct (honest_range cfg from to blocks a Hc Hs Ha) as (calls & ->). done.
  - destruct tries as [|tries]; [lia|]. cbn [app fetch_range_go]. cbn [length] in Ht. destruct (fetch_range_from status_text cfg from to x) as [calls out]. cbn [snd] in Hx. subst out.
    destruct e as [|e].
    + specialize (IH tries ltac:(lia) (Some (ESync ("HTTP 429 from " +:+ x.(at_lease).(le_host))))). destruct (fetch_range_go _ _ _ _ _ _ _). exact IH.
    + specialize (IH tries ltac:(lia) (Some e)). destruct (fetch_range_go _ _ _ _ _ _ _). exact IH.
Qed.
End fetching.

(** ** What a run does to the chain *)

Section ledger.
Context `{E : Env} `{SG : Signer}.
Variables (n : Network) (status_text : Z -> string) (cfg : SyncConfig) (undo_enabled : bool).
Implicit Types (s : Store) (tip : ChainTip) (b : Block).

(** Heights of an answer; the other tasks change the store as the abstract chain does. *)
Definition low_answer (a : Attempt) : Prop := match a.(at_blocks) with Responded _ (Ok blocks) => Forall low blocks | _ => True end.
Record calm_turn (t : SyncTurn) : Prop := {
  ct_attempts : Forall low_answer t.(tn_attempts);
  ct_retry : Forall low_answer t.(tn_retry);
  ct_pause k s : rtc (ledger_step n) s (t.(tn_pause) k s)
}.
Record calm_round (rd : SyncRound) : Prop := {
  cr_turns : Forall calm_turn rd.(rd_turns);
  cr_pause s : rtc (ledger_step n) s (rd.(rd_pause) s)
}.

Lemma fill_low blocks : forall answers l, (fill_blocks status_text blocks answers).2 = Some (Ok l) -> Forall low blocks -> Forall low l.
Proof.
  induction blocks as [|b blocks IH]; intros answers l H Hl; cbn [fill_blocks] in H; [injection H as <-; constructor|].
  apply Forall_cons in Hl as [Hb Hl]. destruct (0 <? _).
  - destruct (fetch_block_transactions _ _ _) as [[answers' calls] [[txs|]|]]; [|done..]. specialize (IH answers').
    destruct (fill_blocks _ _ answers') as [calls' [[l'|]|]]; [|done..]. injection H as <-. constructor; [exact Hb|by apply IH].
  - specialize (IH answers). destruct (fill_blocks _ _ answers) as [calls [[l'|]|]]; [|done..]. injection H as <-. constructor; [exact Hb|by apply IH].
Qed.

Lemma range_low from to a l : low_answer a -> (fetch_range_from status_text cfg from to a).2 = Some (Ok l) -> Forall low l.
Proof.
  unfold low_answer, fetch_range_from. destruct (at_blocks a) as [e|code body]; [done|]. intros Ha.
  destruct (get_json _ _ _) as [blocks|] eqn:Hg; [|done]. cbn [get_json] in Hg. destruct (code =? 429); [done|]. destruct (negb _); [done|].
  destruct body as [blocks'|]; [|done]. injection Hg as ->. intros H. apply (fill_low (sort_by height_le blocks) (at_pages a) l).
  - destruct (fill_blocks _ _ _). exact H.
  - by rewrite (sort_by_Permutation height_le blocks).
Qed.

Lemma fetched_low from to attempts l : Forall low_answer attempts -> (fetch_range status_text cfg from to attempts).2 = Some (Ok l) -> Forall low l.
Proof.
  unfold fetch_range. generalize (Z.to_nat (sy_max_attempts cfg)) as tries, (@None Error) as last. induction attempts as [|a attempts IH]; intros [|tries] last Ha H; try done.
  apply Forall_cons in Ha as [Ha Hr]. cbn [fetch_range_go] in H. pose proof (range_low from to a) as Hl.
  destruct (fetch_range_from _ _ _ _ a) as [calls [[blocks|[|e]]|]]; [injection H as <-; by apply Hl| | |done].
  - specialize (IH tries (Some (ESync ("HTTP 429 from " +:+ a.(at_lease).(le_host)))) Hr). destruct (fetch_range_go _ _ _ _ _ _ _). by apply IH.
  - specialize (IH tries (Some e) Hr). destruct (fetch_range_go _ _ _ _ _ _ _). by apply IH.
Qed.

Lemma apply_blocking_step ck tip blocks s : Forall low blocks -> ledger_step n s (apply_blocking n cfg undo_enabled ck tip blocks s).1.
Proof.
  intros H. pose proof (ls_accept n cfg.(sy_verify) undo_enabled ck.(ck_epoch) ck.(ck_unix_ms) blocks tip s H) as Hs. unfold apply_blocking.
  by destruct (sync_apply_blocks _ _ _ _ _ _ _ _) as [[s' []] [t|]].
Qed.

Lemma above_low tip blocks : Forall low blocks -> Forall low (above tip blocks).
Proof. intros H. apply Forall_forall. intros b Hb. apply list_elem_of_In, filter_In in Hb as [Hb _]. rewrite Forall_forall in H. by apply H, list_elem_of_In. Qed.

Lemma apply_batch_ledger t tip blocks s : calm_turn t -> Forall low blocks ->
  rtc (ledger_step n) s (apply_batch n status_text cfg undo_enabled t tip blocks s).1.
Proof.
  intros [_ Hr Hp] Hb. unfold apply_batch. set (s0 := tn_pause t 1%nat s). transitivity s0; [apply Hp|].
  pose proof (apply_blocking_step (tn_clock t 0%nat) tip blocks s0 Hb) as H1.
  destruct (apply_blocking _ _ _ _ tip blocks s0) as [s1 r]. cbn [fst] in H1. eapply rtc_l; [exact H1|].
  assert (Hretry : rtc (ledger_step n) s1 (match (fetch_range status_text cfg (match blocks with b :: _ => b.(b_height) | [] => as_u64 (tip.(tip_height) + 1) end)
      (match last blocks with Some b => b.(b_height) | None => match blocks with b :: _ => b.(b_height) | [] => as_u64 (tip.(tip_height) + 1) end end) t.(tn_retry)).2 with
    | None => (s1, None) | Some (Err e) => (s1, Some (Err e))
    | Some (Ok retry) => let '(s, r) := apply_blocking n cfg undo_enabled (tn_clock t 1%nat) tip retry (tn_pause t 2%nat s1) in (s, Some r) end).1).
  { destruct (fetch_range _ _ _ _ _) as [calls [[retry|]|]] eqn:Hf; cbn [snd]; [|done..].
    pose proof (apply_blocking_step (tn_clock t 1%nat) tip retry (tn_pause t 2%nat s1) ltac:(eapply fetched_low; [exact Hr|by rewrite Hf])) as H2.
    destruct (apply_blocking _ _ _ _ tip retry _). cbn [fst] in H2 |- *. etransitivity; [apply Hp|by apply rtc_once]. }
  destruct r as [t'|[]]; try exact Hretry; [done|]. transitivity (tn_pause t 2%nat s1); [apply Hp|]. destruct (tip_of _ _) as [local|]; [|done].
  destruct (above local blocks) as [|b0 bs] eqn:Ha; [done|]. pose proof (above_low local blocks Hb) as Hl. rewrite Ha in Hl.
  pose proof (apply_blocking_step (tn_clock t 1%nat) local (b0 :: bs) (tn_pause t 3%nat (tn_pause t 2%nat s1)) Hl) as H2.
  destruct (apply_blocking _ _ _ _ local _ _). cbn [fst] in H2 |- *. etransitivity; [apply Hp|by apply rtc_once].
Qed.

Lemma sync_ranges_ledger work : forall turns tip s, Forall calm_turn turns ->
  rtc (ledger_step n) s (sync_ranges n status_text cfg undo_enabled work turns tip s).1.
Proof.
  induction work as [|[from to] work IH]; intros turns tip s Ht; [done|]. cbn [sync_ranges]. destruct turns as [|t turns]; [done|].
  apply Forall_cons in Ht as [Hc Ht]. destruct (tn_interrupt t); [done|]. pose proof Hc as [Ha _ Hp].
  destruct (fetch_range _ _ _ _ _) as [calls [[blocks|]|]] eqn:Hf; cbn [snd]; [|done..]. apply (f_equal snd) in Hf. apply fetched_low in Hf; [|done].
  transitivity (tn_pause t 0%nat s); [apply Hp|]. set (s0 := tn_pause t 0%nat s). destruct (tip_of _ s0) as [local|]; [|done].
  set (tip0 := if (_ <? _) then local else tip). pose proof (above_low tip0 blocks Hf) as Hl.
  destruct (above tip0 blocks) as [|b bs]; [by apply IH|]. pose proof (apply_batch_ledger t tip0 (b :: bs) s0 Hc Hl) as Hb.
  destruct (apply_batch _ _ _ _ t tip0 _ s0) as [s1 [[tip1|]|]]; cbn [fst] in Hb; [|done..]. transitivity s1; [done|]. by apply IH.
Qed.

Lemma follow_on_ledger rd again tip h s : calm_round rd -> (forall tip h s, rtc (ledger_step n) s (again tip h s).1) ->
  rtc (ledger_step n) s (follow_on n status_text cfg rd again tip h s).1.
Proof. intros [_ Hp] Ha. unfold follow_on. destruct (negb _); [done|]. transitivity (rd_pause rd s); [apply Hp|]. by destruct (rd_interrupt rd). Qed.

Lemma run_go_ledger rounds : Forall calm_round rounds -> forall tip h s, rtc (ledger_step n) s (run_go n status_text cfg undo_enabled rounds tip h s).1.
Proof.
  induction 1 as [|rd rounds Hr _ IH]; intros tip h s; [done|]. cbn [run_go]. destruct (_ <? h); [|by apply follow_on_ledger]. unfold sync_until.
  pose proof (sync_ranges_ledger (ranges cfg tip.(tip_height) h) rd.(rd_turns) tip s (cr_turns _ Hr)) as Hs.
  destruct (sync_ranges _ _ _ _ _ _ _ _) as [s1 [[[tip1 []]|]|]]; cbn [fst] in Hs; [|done..].
  set (h1 := match heard_height _ _ with Ok h => h | Err _ => _ end). destruct (_ <? h1); etransitivity; [exact Hs|apply IH|exact Hs|by apply follow_on_ledger].
Qed.

(** Whatever the nodes answer and the other tasks do meanwhile, the syncer changes the store by accepted batches only. *)
Lemma sync_run_ledger first rounds s : Forall calm_round rounds -> rtc (ledger_step n) s (sync_run n status_text cfg undo_enabled first rounds s).1.
Proof.
  intros Hr. unfold sync_run. destruct (tip_of n s) as [start|]; [|done]. destruct (heard_height _ _) as [h|]; [|done].
  pose proof (run_go_ledger rounds Hr start h s) as H. by destruct (run_go _ _ _ _ _ _ _ _) as [s1 [[[[tip1 h1] i]|]|]].
Qed.
End ledger.
