(* ===== verification/Live.v ===== *)
(** * The live intake of blocks

    How a running node takes new blocks besides the catch-up: pulled from the followed peer or to fill a gap
    ([src/src/p2p_legacy/follow.rs]), pushed by a legacy peer ([post_block] of [server.rs]), heard over gossip
    ([on_block] and [fill_gap_from] of [src/src/p2p_iroh/gossip.rs]).

    The tasks of the process share the store, the peer tables, the guard and the pool: the record [Live].  Where
    a handler waits, the others run: [pause k] is what they do to the shared state while the handler waits for the
    [k]-th time, an argument of every handler that waits.  What a peer answers and the clocks are arguments too;
    log lines, alerts, and the text of a failed join are not modelled. *)

From S2P Require Import Prelude Models Env Bytes Crypto Config TxCodec BlockCodec BlockVerify Wallet Rules Round Tree Storage Chain Sync.
From S2P Require Import AntiSpam Mempool Intake Guard PushServer PeerHealth IrohPeers CatchUp.

Record Live : Type := mkLive {
  lv_store : Store; lv_undo_enabled : bool; lv_table : PeerTable; lv_iroh : IrohPeers; lv_guard : Guard.State; lv_intake : Intake;
  lv_stall : Stall; lv_pool : Pool; lv_heights : gset Z; lv_tx_ids : gset string
}.

Definition on_store (f : Store -> Store) (l : Live) : Live :=
  mkLive (f l.(lv_store)) l.(lv_undo_enabled) l.(lv_table) l.(lv_iroh) l.(lv_guard) l.(lv_intake) l.(lv_stall) l.(lv_pool) l.(lv_heights) l.(lv_tx_ids).
Definition set_undo_enabled (b : bool) (l : Live) : Live :=
  mkLive l.(lv_store) b l.(lv_table) l.(lv_iroh) l.(lv_guard) l.(lv_intake) l.(lv_stall) l.(lv_pool) l.(lv_heights) l.(lv_tx_ids).
Definition on_table (f : PeerTable -> PeerTable) (l : Live) : Live :=
  mkLive l.(lv_store) l.(lv_undo_enabled) (f l.(lv_table)) l.(lv_iroh) l.(lv_guard) l.(lv_intake) l.(lv_stall) l.(lv_pool) l.(lv_heights) l.(lv_tx_ids).
Definition on_iroh (f : IrohPeers -> IrohPeers) (l : Live) : Live :=
  mkLive l.(lv_store) l.(lv_undo_enabled) l.(lv_table) (f l.(lv_iroh)) l.(lv_guard) l.(lv_intake) l.(lv_stall) l.(lv_pool) l.(lv_heights) l.(lv_tx_ids).
Definition on_guard (f : Guard.State -> Guard.State) (l : Live) : Live :=
  mkLive l.(lv_store) l.(lv_undo_enabled) l.(lv_table) l.(lv_iroh) (f l.(lv_guard)) l.(lv_intake) l.(lv_stall) l.(lv_pool) l.(lv_heights) l.(lv_tx_ids).
Definition on_intake (f : Intake -> Intake) (l : Live) : Live :=
  mkLive l.(lv_store) l.(lv_undo_enabled) l.(lv_table) l.(lv_iroh) l.(lv_guard) (f l.(lv_intake)) l.(lv_stall) l.(lv_pool) l.(lv_heights) l.(lv_tx_ids).
Definition on_stall (f : Stall -> Stall) (l : Live) : Live :=
  mkLive l.(lv_store) l.(lv_undo_enabled) l.(lv_table) l.(lv_iroh) l.(lv_guard) l.(lv_intake) (f l.(lv_stall)) l.(lv_pool) l.(lv_heights) l.(lv_tx_ids).
Definition on_pool (f : Pool -> Pool) (l : Live) : Live :=
  mkLive l.(lv_store) l.(lv_undo_enabled) l.(lv_table) l.(lv_iroh) l.(lv_guard) l.(lv_intake) l.(lv_stall) (f l.(lv_pool)) l.(lv_heights) l.(lv_tx_ids).
(** [Seen]: what came in over gossip, forgotten when it grows. *)
Definition on_seen (f : gset Z * gset string -> gset Z * gset string) (l : Live) : Live :=
  let '(heights, ids) := f (l.(lv_heights), l.(lv_tx_ids)) in
  mkLive l.(lv_store) l.(lv_undo_enabled) l.(lv_table) l.(lv_iroh) l.(lv_guard) l.(lv_intake) l.(lv_stall) l.(lv_pool) heights ids.
Definition trim (seen : gset Z * gset string) : gset Z * gset string :=
  (if 4096 <? Z.of_nat (size seen.1) then ∅ else seen.1, if 16384 <? Z.of_nat (size seen.2) then ∅ else seen.2).

Section live.
Context `{E : Env} `{PO : PeerOrder} `{HO : HashOrder}.
Variables (n : Network) (gc : DoubleForgeGuardConfig) (own_keys : gset string) (mc : MempoolConfig) (json_len : Transaction -> Z) (verify : bool).
Implicit Types (l : Live) (ck : Clocks) (block ours theirs : Block) (pause : nat -> Live -> Live).

(** ** Application *)

(** The block at which a batch is refused because its slot has not started. *)
Fixpoint future_block (now_ms : Z) (tip : ChainTip) (blocks : list Block) : option (Block * Z) :=
  match blocks with
  | [] => None
  | b :: blocks =>
      if negb (b.(b_height) =? as_u64 (tip.(tip_height) + 1)) then None else
      match future_slot_ms n now_ms b with
      | Some early => Some (b, early)
      | None => match link n now_ms tip b with Ok tip => future_block now_ms tip blocks | Err _ => None end
      end
  end.

(** [apply_blocks] of [sync.rs] with its note of a block from the future; the store is that of the moment. *)
Definition apply ck (blocks : list Block) (tip : ChainTip) l : Live * Res ChainTip :=
  let l := match future_block ck.(ck_unix_ms) tip blocks with
           | Some (b, early) => on_intake (note_future_block n ck.(ck_unix_ms) l.(lv_store) b early) l
           | None => l
           end in
  match sync_apply_blocks n l.(lv_store) verify l.(lv_undo_enabled) ck.(ck_epoch) ck.(ck_unix_ms) blocks tip with
  | (s, _, Some tip) => (on_store (fun _ => s) l, Ok tip)
  | (s, Failed e, None) => (on_store (fun _ => s) l, Err e)
  | (s, _, None) => (on_store (fun _ => s) l, Err (ESync "apply task failed"))
  end.

Definition unix_secs ck : Z := ck.(ck_unix_ms) ÷ 1000.

(** [intake::record], [guard::on_accepted] and [guard::on_competing]. *)
Definition record_block ck (source : Source) (peer : string) (height timestamp : Z) (generator : string) : Live -> Live :=
  on_intake (record n ck.(ck_unix_ms) source peer height timestamp generator).
Definition tell_guard (e : Guard.Event) l : Live := on_guard (fun g => hear n gc own_keys (Some l.(lv_store)) g e) l.
Definition headers_of (blocks : list Block) : list Block := b_set_transactions [] <$> blocks.

(** ** Filling a gap *)

(** What a legacy peer answers when it is asked for blocks above a height, and when. *)
Record Reply : Type := mkReply { rp_now : Z; rp_latency : Z; rp_blocks : result (list Block) string }.

Definition fetch_range (ip : string) (r : Reply) (t : PeerTable) : PeerTable * result (list Block) string :=
  match r.(rp_blocks) with
  | Ok ((b :: _) as blocks) =>
      (record_blocks_success r.(rp_now) ip r.(rp_latency) (Z.of_nat (length blocks)) (Some (List.last blocks b).(b_height)) t, Ok blocks)
  | Ok [] => (record_blocks_failure r.(rp_now) ip t, Err "empty reply"%string)
  | Err e => (record_blocks_failure r.(rp_now) ip t, Err e)
  end.

(** [pull_gap_from]; [peer from limit] is what the peer answers. *)
Definition pull_gap_from pause ck (ip : string) (target : Z) (peer : Z -> Z -> Reply) l : Live * Res ChainTip :=
  match tip_of n l.(lv_store) with
  | Err e => (l, Err e)
  | Ok tip =>
      if target <=? tip.(tip_height) then (l, Ok tip) else
      let want := as_u32 (Z.min (target - tip.(tip_height)) MAX_BLOCKS_PER_REQUEST) in
      let l := pause 0%nat l in
      let '(t, r) := fetch_range ip (peer tip.(tip_height) want) l.(lv_table) in
      let l := on_table (fun _ => t) l in
      match r with
      | Err e => (l, Err (ESync e))
      | Ok blocks => apply ck blocks tip (pause 1%nat l)
      end
  end.

(** What an iroh peer answers: blocks, another message, or an error. *)
Record IrohReply : Type := mkIrohReply { ir_now : Z; ir_latency_ms : Z; ir_blocks : result (option (list Block)) Error }.

Definition fetch_blocks (id : string) (r : IrohReply) (m : IrohPeers) : IrohPeers * Res (list Block) :=
  match r.(ir_blocks) with
  | Ok (Some blocks) =>
      (iroh_record_rpc r.(ir_now) id (Some r.(ir_latency_ms)) (b_height <$> List.nth_error blocks (length blocks - 1)) m, Ok blocks)
  | Ok None => (m, Err (ESync "unexpected iroh response"))
  | Err e => (iroh_record_rpc r.(ir_now) id None None m, Err e)
  end.

(** [fill_gap_from]: at most eight rounds; [k] counts the pauses. *)
Fixpoint fill_rounds (rounds k : nat) pause ck (id : string) (target : Z) (peer : Z -> Z -> IrohReply) (tip : ChainTip) l : Live * Res ChainTip :=
  match rounds with
  | O => (l, Ok tip)
  | S rounds =>
      if target <=? tip.(tip_height) then (l, Ok tip) else
      let l := pause k l in
      let '(m, r) := fetch_blocks id (peer tip.(tip_height) MAX_BLOCKS_PER_REQUEST) l.(lv_iroh) in
      let l := on_iroh (fun _ => m) l in
      match r with
      | Err e => (l, Err e)
      | Ok [] => (l, Ok tip)
      | Ok batch =>
          match apply ck batch tip (pause (S k) l) with
          | (l, Err e) => (l, Err e)
          | (l, Ok tip) => fill_rounds rounds (S (S k)) pause ck id target peer tip l
          end
      end
  end.
Definition fill_gap_from pause ck (id : string) (target : Z) (peer : Z -> Z -> IrohReply) l : Live * Res ChainTip :=
  match tip_of n l.(lv_store) with
  | Err e => (l, Err e)
  | Ok tip => fill_rounds 8 0 pause ck id target peer tip l
  end.

(** ** A block at the height of the tip or below it *)

(** Another block at a height of ours: the guard hears of it, and the earlier slot wins at the tip. *)
Definition rival ck (peer : string) ours theirs l : Live * bool :=
  let l := tell_guard (Competing (unix_secs ck) peer ours theirs) l in
  let '(s, swapped) := prefer_earlier_slot n l.(lv_undo_enabled) l.(lv_store) ours theirs in
  (on_store (fun _ => s) l, swapped).

(** [Option::as_deref] of the two ids. *)
Definition same_id (x y : option string) : bool := bool_decide (x = y).

(** ** Gossip *)

(** [from] is the short text of the peer's id, [id] the id. *)
Definition on_block pause ck (from id : string) block (peer : Z -> Z -> IrohReply) l : Live * Res unit :=
  match tip_of n l.(lv_store) with
  | Err e => (l, Err e)
  | Ok tip =>
      if block.(b_height) <=? tip.(tip_height) then
        if tip.(tip_height) <=? as_u64 (block.(b_height) + 1) then
          match get_block_by_height n l.(lv_store) block.(b_height) with
          | Err e => (l, Err e)
          | Ok (Some ours) => if same_id ours.(b_id) block.(b_id) then (l, Ok tt) else ((rival ck from ours block l).1, Ok tt)
          | Ok None => (l, Ok tt)
          end
        else (l, Ok tt)
      else if block.(b_height) =? as_u64 (tip.(tip_height) + 1) then
        match apply ck [block] tip (pause 0%nat l) with
        | (l, Err e) => (l, Err e)
        | (l, Ok tip) =>
            let l := record_block ck GossipIroh from block.(b_height) block.(b_timestamp) block.(b_generator_public_key) l in
            let l := tell_guard (Accepted ck.(ck_epoch) (unix_secs ck) GossipIroh from (b_set_transactions [] block)) l in
            (on_seen (fun seen => trim ({[block.(b_height)]} ∪ seen.1, seen.2)) l, Ok tt)
        end
      else
        match fill_gap_from pause ck id block.(b_height) peer l with
        | (l, Err e) => (l, Err e)
        | (l, Ok tip) =>
            let from := sat_sub tip.(tip_height) 64 in
            (on_seen (fun seen => trim (list_to_set (seqZ from (tip.(tip_height) - from + 1)) ∪ seen.1, seen.2)) l, Ok tt)
        end
  end.

(** ** A pushed block *)

Record PostBlockResponse : Type := mkPostBlock { ps_status : bool; ps_height : Z }.

Definition id_at (s : Store) (height : Z) : Res (option string) :=
  let? found := get_block_by_height n s height in Ok (found ≫= b_id).

(** The end of [post_block]: the block is the successor of the tip. *)
Definition push_apply pause ck (ip : string) block (tip : ChainTip) l : Live * Res PostBlockResponse :=
  match apply ck [block] tip (pause 2%nat l) with
  | (l, Err (EStaleTip _)) =>
      (l, let? our_id := id_at l.(lv_store) block.(b_height) in
          Ok (mkPostBlock (same_id our_id block.(b_id)) (as_u32 (get_last_height l.(lv_store)))))
  | (l, Err e) => (l, Err e)
  | (l, Ok _) =>
      let l := record_block ck PushLegacy ip block.(b_height) block.(b_timestamp) block.(b_generator_public_key) l in
      let l := tell_guard (Accepted ck.(ck_epoch) (unix_secs ck) PushLegacy ip (b_set_transactions [] block)) l in
      let l := on_pool (fun p => (prune_confirmed mc n l.(lv_store) json_len ck.(ck_now) p).1) l in
      (l, Ok (mkPostBlock true (as_u32 block.(b_height))))
  end.

Definition not_chained (height tip : Z) : Error :=
  ESync ("block " +:+ fmt_u height +:+ " is not chained to our tip " +:+ fmt_u tip).

Definition push_known ck (ip : string) block (tip : ChainTip) l : Live * Res PostBlockResponse :=
  match get_block_by_height n l.(lv_store) block.(b_height) with
  | Err e => (l, Err e)
  | Ok found =>
      let known := same_id (found ≫= b_id) block.(b_id) in
      let answer := Ok (mkPostBlock known (as_u32 tip.(tip_height))) in
      match found with
      | Some ours =>
          if negb known && (tip.(tip_height) <=? as_u64 (block.(b_height) + 1)) then
            match rival ck ip ours block l with
            | (l, true) => (l, Ok (mkPostBlock true (as_u32 block.(b_height))))
            | (l, false) => (l, answer)
            end
          else (l, answer)
      | None => (l, answer)
      end
  end.

(** [post_block] once the protobuf message is read: [bytes] is its block. *)
Definition post_block pause ck (ip : string) (bytes : list byte) (peer : Z -> Z -> Reply) l : Live * Res PostBlockResponse :=
  match decode_full_block n bytes with
  | Err e => (l, Err e)
  | Ok block =>
      let height := block.(b_height) in
      match tip_of n l.(lv_store) with
      | Err e => (l, Err e)
      | Ok tip =>
          if height <=? tip.(tip_height) then push_known ck ip block tip l else
          let l := if (tip.(tip_height) + 1 <? height) && (height - tip.(tip_height) <=? 8)
                   then (pull_gap_from pause ck ip (height - 1) peer l).1 else l in
          match tip_of n l.(lv_store) with
          | Err e => (l, Err e)
          | Ok tip =>
              if height <=? tip.(tip_height) then
                (l, let? our_id := id_at l.(lv_store) height in Ok (mkPostBlock (same_id our_id block.(b_id)) (as_u32 tip.(tip_height))))
              else if negb (height =? as_u64 (tip.(tip_height) + 1)) || opt_test (fun id => negb (String.eqb block.(b_previous_block) id)) tip.(tip_id)
              then (l, Err (not_chained height tip.(tip_height)))
              else push_apply pause ck ip block tip l
          end
      end
  end.
End live.
