(* ===== verification/Gossip.v ===== *)
(** * Gossip and requests between the nodes

    [src/src/p2p_iroh/gossip.rs], [delegates.rs], [rpc.rs] and [proto.rs]: what is done with a message of each of the
    four topics, what is published and when, the answers to requests, and who is joined again when a topic is empty.
    The tasks share the node: the chain and the pool are the [Live] of [Live.v], the votes the [Inner] of
    [Finality], the book that of [AddrBook].  A handler is a function from the node to the node and the messages it
    broadcasts; a task hears events until its stream ends.  What peers answer, which broadcasts fail and the clocks
    are arguments.  A message is its value, or none when it cannot be read; topics, streams and connections are iroh's. *)

From S2P Require Import Prelude Models Env Bytes Crypto Keys Config TxCodec BlockCodec BlockVerify Wallet Rules Round Tree Storage Chain Sync.
From S2P Require Import AntiSpam Mempool Intake Guard PushServer NodePool PeerHealth NetAddr IrohPeers AddrBook LegacyWire CatchUp Finality Live.

(** ** Messages *)

Record DelegateAnnounce : Type := mkAnnounce { da_public_key : string; da_version : string; da_timestamp : Z; da_signature : string }.
Record PeerHint : Type := mkHint { ph_ip : string; ph_port : Z; ph_height : Z; ph_latency_ms : Z; ph_version : string }.
Inductive GossipMessage : Type :=
| MBlock (block : Block)
| MTransactions (transactions : list Transaction)
| MPeers (peers : list PeerHint) (gateway : option string)
| MDelegates (delegates : list DelegateAnnounce)
| MFinality (votes : list FinalityVote)
| MEquivocation (proof : EquivocationProof)
| MAddrs (records : list SignedAddr).

Inductive Request : Type := GetStatus | GetBlocks (last_block_height limit : Z) | GetFinality | GetAddrs (limit : Z).
Inductive Response : Type :=
| RStatus (version : Z) (core_version nethash : string) (height : Z) (id : option string)
| RBlocks (blocks : list Block)
| RFinality (certificate : option FinalityCert)
| RAddrs (records : list SignedAddr)
| RError (message : string).
Definition VERSION : Z := 1.

(** What a topic delivers. *)
Inductive TopicEvent : Type :=
| Received (from : string) (msg : option GossipMessage)
| NeighborUp (id : string)
| NeighborDown (id : string)
| Lagged
| Ended.

(** A task hears events until the stream ends. *)
Fixpoint listen {S} (handle : TopicEvent -> S -> S) (events : list TopicEvent) (s : S) : S :=
  match events with
  | [] | Ended :: _ => s
  | e :: events => listen handle events (handle e s)
  end.

(** ** Delegates on Rust nodes *)

Record RustDelegateInfo : Type := mkRustDelegate { rd_version : string; rd_node : string; rd_last_seen : Z }.
#[export] Instance rust_delegate_eq_dec : EqDecision RustDelegateInfo.
Proof. solve_decision. Defined.
Definition RustDelegates : Type := gmap string RustDelegateInfo.
Definition MAX_SKEW : Z := 600.
Definition STALE_AFTER : Z := from_secs (15 * 60).

Section delegates.
Context `{E : Env} `{SG : Signer}.

(** An [EndpointId] is its hex text. *)
Definition announce_hash (node : string) (timestamp : Z) : list byte :=
  sha256 (bytes_of "sth-delegate-announce" ++ default [] (hex_decode node) ++ le_bytes 8 timestamp).

Definition sign_announces (version : string) (now : Z) (keys : list KeyPair) (node : string) : list DelegateAnnounce :=
  omap (fun k => (fun signature => mkAnnounce (public_key_hex k) version now signature) <$> res_ok (sign_ecdsa (announce_hash node now) k.(kp_private_key))) keys.

Definition verify_announce (now : Z) (a : DelegateAnnounce) (from : string) : bool :=
  if MAX_SKEW <? Z.abs (a.(da_timestamp) - now) then false
  else default false (res_ok (verify_signature (announce_hash from a.(da_timestamp)) a.(da_signature) a.(da_public_key))).

(** [now] in seconds, [instant] in nanoseconds. *)
Definition record_announces (now instant : Z) (from : string) (announces : list DelegateAnnounce) (m : RustDelegates) : RustDelegates * nat :=
  foldl (fun '(m, ok) a => if verify_announce now a from then (<[a.(da_public_key) := mkRustDelegate a.(da_version) from instant]> m, S ok) else (m, ok))
    (m, O) (take 64 announces).

Definition delegates_snapshot (instant : Z) (m : RustDelegates) : RustDelegates := filter (fun p => instant - p.2.(rd_last_seen) < STALE_AFTER) m.
End delegates.

(** ** The node *)

Record Swarm : Type := mkSwarm { sw_live : Live; sw_finality : Inner; sw_delegates : RustDelegates; sw_book : option AddrBook }.
Definition on_live (f : Live -> Live) (w : Swarm) : Swarm := mkSwarm (f w.(sw_live)) w.(sw_finality) w.(sw_delegates) w.(sw_book).
Definition at_finality (s : Store) (i : Inner) (w : Swarm) : Swarm := mkSwarm (on_store (fun _ => s) w.(sw_live)) i w.(sw_delegates) w.(sw_book).
Definition on_delegates_map (f : RustDelegates -> RustDelegates) (w : Swarm) : Swarm := mkSwarm w.(sw_live) w.(sw_finality) (f w.(sw_delegates)) w.(sw_book).
Definition on_book (f : AddrBook -> AddrBook) (w : Swarm) : Swarm := mkSwarm w.(sw_live) w.(sw_finality) w.(sw_delegates) (f <$> w.(sw_book)).
Definition store (w : Swarm) : Store := w.(sw_live).(lv_store).
Definition heard (now : Z) (id : string) (height : option Z) : Swarm -> Swarm := on_live (on_iroh (iroh_seen now id height)).
Definition neighbor (now : Z) (id : string) (topic : nat) (up : bool) : Swarm -> Swarm := on_live (on_iroh (iroh_set_neighbor now id topic up)).

Section gossip.
Context `{E : Env} `{SG : Signer} `{PO : PeerOrder} `{HO : HashOrder} `{IK : IrohKeys} `{BO : BookOrder}.
Variables (n : Network) (gc : DoubleForgeGuardConfig) (own_keys : gset string) (mc : MempoolConfig) (json_len : Transaction -> Z) (verify : bool).
Variables (legacy : bool) (dc : DiscoveryConfig) (core_version me : string) (secret : list byte) (fmt_short : string -> string).
Implicit Types (w : Swarm) (ck : Clocks) (id from : string).

(** ** Finality: votes and proofs *)

Definition on_finality_msg ck from (msg : GossipMessage) w : Swarm * list GossipMessage :=
  match msg with
  | MFinality votes =>
      let w := heard ck.(ck_now) from None w in
      let '(s, i, _, proofs) := Finality.record n votes (store w) w.(sw_finality) in (at_finality s i w, MEquivocation <$> proofs)
  | MEquivocation proof =>
      match adopt_proof n proof (store w) with
      | (s, Ok true) => (at_finality s w.(sw_finality) w, [MEquivocation proof])
      | (s, _) => (at_finality s w.(sw_finality) w, [])
      end
  | _ => (w, [])
  end.

Definition on_finality ck (e : TopicEvent) (acc : Swarm * list GossipMessage) : Swarm * list GossipMessage :=
  let '(w, out) := acc in
  match e with
  | Received from (Some msg) => let '(w, sent) := on_finality_msg ck from msg w in (w, out ++ sent)
  | NeighborUp id => (neighbor ck.(ck_now) id TOPIC_FINALITY true w, out)
  | NeighborDown id => (neighbor ck.(ck_now) id TOPIC_FINALITY false w, out)
  | _ => (w, out)
  end.

(** ** Hints *)

(** [rsplit_once] and [parse::<u16>]. *)
Fixpoint rsplit_once (c : ascii) (s : string) : option (string * string) :=
  match s with
  | EmptyString => None
  | String a rest =>
      match rsplit_once c rest with
      | Some (x, y) => Some (String a x, y)
      | None => if Ascii.eqb a c then Some (EmptyString, rest) else None
      end
  end.
Definition parse_u16 (s : string) : option Z := match parse_u64 s with Some v => if v <=? u16_max then Some v else None | None => None end.

Definition take_hint (now : Z) (t : PeerTable) (h : PeerHint) : PeerTable :=
  let '(t, new) := PeerHealth.add h.(ph_ip) t in
  if new then set_version h.(ph_ip) h.(ph_version) false (record_success now h.(ph_ip) (Z.max h.(ph_latency_ms) 1 * 1000000) (Some h.(ph_height)) t) else t.
Definition gateway_ip (t : PeerTable) (gateway : option string) : option string :=
  match gateway ≫= rsplit_once ":" with
  | Some (ip, port) => if bool_decide (parse_u16 port = Some t.(pt_port)) then Some ip else None
  | None => None
  end.

Definition on_peers ck from (hints : list PeerHint) (gateway : option string) w : Swarm :=
  let w := on_live (on_iroh (iroh_set_gateway ck.(ck_now) from gateway)) (heard ck.(ck_now) from None w) in
  if negb legacy then w else
  on_live (on_table (fun t =>
    let t := match gateway_ip t gateway with Some ip => (PeerHealth.add ip t).1 | None => t end in
    foldl (take_hint ck.(ck_now)) t (take 64 (List.filter (fun h => h.(ph_port) =? t.(pt_port)) hints)))) w.

Definition on_delegates ck from (announces : list DelegateAnnounce) w : Swarm :=
  let '(m, ok) := record_announces (unix_secs ck) ck.(ck_now) from announces w.(sw_delegates) in
  let w := on_delegates_map (fun _ => m) w in
  if (0 <? ok)%nat then heard ck.(ck_now) from None w else w.

(** ** Blocks *)

(** [peer] is what the sender answers when blocks are pulled from it. *)
Definition on_block_msg (pause : nat -> Live -> Live) ck from (peer : Z -> Z -> IrohReply) (msg : GossipMessage) w : Swarm :=
  match msg with
  | MBlock block =>
      on_live (fun l => (on_block n gc own_keys verify pause ck (fmt_short from) from block peer l).1) (heard ck.(ck_now) from (Some block.(b_height)) w)
  | MPeers hints gateway => on_peers ck from hints gateway w
  | MDelegates announces => on_delegates ck from announces w
  | _ => w
  end.
Definition on_blocks (pause : nat -> Live -> Live) ck (peer : Z -> Z -> IrohReply) (e : TopicEvent) w : Swarm :=
  match e with
  | Received from (Some msg) => on_block_msg pause ck from peer msg w
  | NeighborUp id => neighbor ck.(ck_now) id TOPIC_BLOCKS true w
  | NeighborDown id => neighbor ck.(ck_now) id TOPIC_BLOCKS false w
  | _ => w
  end.

(** ** Transactions *)

Definition remember_ids (txs : list Transaction) : Live -> Live :=
  on_seen (fun seen => trim (seen.1, list_to_set (omap tx_id txs) ∪ seen.2)).
Definition admit_txs ck from (txs : list Transaction) (l : Live) : Live :=
  on_pool (fun p => (add_many_from mc n l.(lv_store) json_len ck.(ck_now) txs (IrohPeer from) p).1.1) l.

Definition on_tx_msg ck from (msg : GossipMessage) w : Swarm :=
  match msg with
  | MTransactions txs => on_live (fun l => admit_txs ck from txs (remember_ids txs l)) (heard ck.(ck_now) from None w)
  | MPeers hints gateway => on_peers ck from hints gateway w
  | MDelegates announces => on_delegates ck from announces w
  | _ => w
  end.
Definition on_txs ck (e : TopicEvent) w : Swarm :=
  match e with
  | Received from (Some msg) => on_tx_msg ck from msg w
  | NeighborUp id => neighbor ck.(ck_now) id TOPIC_TXS true w
  | NeighborDown id => neighbor ck.(ck_now) id TOPIC_TXS false w
  | _ => w
  end.

(** ** The address topic *)

Definition on_addrs ck (e : TopicEvent) w : Swarm :=
  match e with
  | Received from (Some (MAddrs records)) =>
      on_book (fun b => (take_records dc n.(n_nethash) me (unix_secs ck) "gossip" (take (RELAY_RECORDS + 1) records) b).1) (heard ck.(ck_now) from None w)
  | _ => w
  end.
(** The announcer, from what the endpoint knows of itself. *)
Definition announce_addrs ck (ips : list (SocketAddr * string)) (relays : list string) (b : AddrBook) : list GossipMessage :=
  match own_record core_version secret n.(n_nethash) ips relays (unix_secs ck) with
  | Some own => [MAddrs (own :: fresh (unix_secs ck) RELAY_RECORDS b)]
  | None => []
  end.

(** ** Publishing *)

(** A batch the pool admitted ([fresh_only]) or wants relayed again. *)
Definition publish_transactions (fresh_only : bool) (batch : list Transaction) (l : Live) : list GossipMessage :=
  let fresh := if fresh_only then List.filter (fun t => match t.(tx_id) with Some id => negb (bool_decide (id ∈ l.(lv_tx_ids))) | None => true end) batch else batch in
  match fresh with [] => [] | _ => [MTransactions fresh] end.

(** What wakes the publisher of blocks. *)
Inductive ChainSignal : Type := Tick | Applied | RolledBack (height : Z) | Missed.

Definition publish_blocks (signal : ChainSignal) (last : Z) (l : Live) : Z * list GossipMessage :=
  match signal with
  | RolledBack height => (Z.min last height, [])
  | _ =>
      let tip := get_last_height l.(lv_store) in
      if tip <=? last then (last, []) else
      if (10 <? tip - last) || bool_decide (l.(lv_iroh) = ∅) then (tip, []) else
      (tip, omap (fun h => if bool_decide (h ∈ l.(lv_heights)) then None else
                           match get_block_by_height n l.(lv_store) h with Ok (Some block) => Some (MBlock block) | _ => None end)
              (seqZ (last + 1) (tip - last)))
  end.

Definition publish_delegates ck (announce : bool) (keys : list KeyPair) w : Swarm * list GossipMessage :=
  match keys with
  | [] => (w, [])
  | _ =>
      if negb announce then (w, []) else
      let delegates := sign_announces core_version (unix_secs ck) keys me in
      (on_delegates_map (fun m => (record_announces (unix_secs ck) ck.(ck_now) me delegates m).1) w, [MDelegates delegates])
  end.
(** [set_forging_keys] of [mod.rs]: what it does to the registry. *)
Definition set_forging_keys ck (announce : bool) (keys : list KeyPair) w : Swarm :=
  if announce then on_delegates_map (fun m => (record_announces (unix_secs ck) ck.(ck_now) me (sign_announces core_version (unix_secs ck) keys me) m).1) w else w.

Definition publish_peers ck (gateway : option string) (t : PeerTable) : list GossipMessage :=
  let peers := (fun p => mkHint p.(pe_ip) t.(pt_port) p.(pe_height) p.(pe_latency_ms) p.(pe_version))
                 <$> take 32 (List.filter (fun p => (0 <? p.(pe_successes)) && (p.(pe_failures) =? 0)) (table_snapshot ck.(ck_now) t)) in
  match peers, gateway with [], None => [] | _, _ => [MPeers peers gateway] end.

(** ** Our votes *)

Definition FINALITY_VOTES_PER_MESSAGE : nat := 8.
Inductive Sent : Type := SentOk | SentErr (text : string) | SentTimeout.
Record Voted : Type := mkVoted { vo_height : Z; vo_id : string; vo_at : Z; vo_resent : bool }.

Fixpoint chunks {A} (fuel k : nat) (l : list A) : list (list A) :=
  match fuel, l with
  | S fuel, _ :: _ => take k l :: chunks fuel k (drop k l)
  | _, _ => []
  end.

Definition note_sent (r : Sent) (i : Inner) : Inner :=
  match r with
  | SentOk => i
  | SentErr text => note_broadcast_failed text i
  | SentTimeout => note_broadcast_failed "broadcast timed out after 5s" i
  end.

(** A turn of [publish_finality]; [sent k] is how the broadcast of the [k]-th message ends. *)
Definition publish_finality ck (keys : list KeyPair) (sent : nat -> Sent) (voted : option Voted) w : Swarm * option Voted * list GossipMessage :=
  match res_ok (get_last_block n (store w)) with
  | Some (Some tip) =>
      match tip.(b_id), keys with
      | Some id, _ :: _ =>
          let blocktime := (milestone n tip.(b_height)).(m_blocktime) in
          let same v := (v.(vo_height) =? tip.(b_height)) && String.eqb v.(vo_id) id in
          let resend := opt_test (fun v => same v && negb v.(vo_resent) && (from_secs blocktime <=? ck.(ck_now) - v.(vo_at)) && negb (is_final (store w) v.(vo_height))) voted in
          let fresh := negb (opt_test same voted) in
          if negb fresh && negb resend then (w, voted, []) else
          let '(s, i, votes) := own_votes n (unix_secs ck) keys tip.(b_height) id (store w) w.(sw_finality) in
          match votes with
          | [] => (at_finality s i w, Some (mkVoted tip.(b_height) id ck.(ck_now) true), [])
          | _ =>
              let messages := chunks (length votes) FINALITY_VOTES_PER_MESSAGE votes in
              let i := foldl (fun i k => note_sent (sent k) i) i (seq 0 (length messages)) in
              (at_finality s i w, Some (mkVoted tip.(b_height) id ck.(ck_now) resend), MFinality <$> messages)
          end
      | _, _ => (w, voted, [])
      end
  | _ => (w, voted, [])
  end.

(** [fetch_finality]: no answer in time, an error, another message, or a certificate. *)
Inductive CertReply : Type := CertTimeout | CertError | CertOther | CertAnswer (latency_ms : Z) (cert : option FinalityCert).
Definition fetch_finality (now : Z) id (r : CertReply) (m : IrohPeers) : IrohPeers * option FinalityCert :=
  match r with
  | CertTimeout | CertOther => (m, None)
  | CertError => (iroh_record_rpc now id None None m, None)
  | CertAnswer ms cert => (iroh_record_rpc now id (Some ms) None m, cert)
  end.

Fixpoint adopt_from ck (ours : Z) (reply : string -> CertReply) (ids : list string) w : Swarm :=
  match ids with
  | [] => w
  | id :: ids =>
      let '(m, cert) := fetch_finality ck.(ck_now) id (reply id) w.(sw_live).(lv_iroh) in
      let w := on_live (on_iroh (fun _ => m)) w in
      match cert with
      | Some cert =>
          if cert.(fc_height) <=? ours then adopt_from ck ours reply ids w else
          match adopt_certificate n cert (store w) with
          | (s, Ok true) => at_finality s w.(sw_finality) w
          | (s, _) => adopt_from ck ours reply ids (at_finality s w.(sw_finality) w)
          end
      | None => adopt_from ck ours reply ids w
      end
  end.
Definition healthy (l : Live) : list string :=
  ip_id <$> List.filter (fun p => (p.(ip_failures) <? 3) && negb (String.eqb p.(ip_id) me)) (iroh_snapshot l.(lv_iroh)).
(** A turn of [sync_finality]. *)
Definition sync_finality ck (reply : string -> CertReply) w : Swarm :=
  let tip := get_last_height (store w) in
  let ours := match finalized (store w) with Some (h, _) => h | None => 0 end in
  if tip <=? as_u64 (ours + 2) then w else adopt_from ck ours reply (take 3 (healthy w.(sw_live))) w.

(** ** Joining again *)

Definition RELAY_DOWN_AFTER : Z := from_secs 60.
Record Rejoin : Type := mkRejoin { rj_down_since : option Z; rj_down_mode : bool }.

(** [add_peer_addr] of [mod.rs]. *)
Definition pin ck (a : EndpointAddr) w : Swarm := on_book (tell_lookup a) (heard ck.(ck_now) a.(ea_id) None w).

(** No relay answers: fresh records over the legacy port, and direct addresses only. *)
Definition relay_down ck (answer : string -> option (list SignedAddr)) w : Swarm :=
  match w.(sw_book) with
  | None => w
  | Some _ =>
      let w := if legacy then on_book (fun b => (pull_over_legacy dc n.(n_nethash) me (unix_secs ck) (table_snapshot ck.(ck_now) w.(sw_live).(lv_table)) 6 answer b).1) w else w in
      let records := match w.(sw_book) with Some b => fresh (unix_secs ck) MAX_RECORDS b | None => [] end in
      foldl (fun w a => pin ck a w) w (List.filter (fun a => negb (String.eqb a.(ea_id) me)) (omap direct_only_addr records))
  end.

Definition topics : list nat := [TOPIC_BLOCKS; TOPIC_TXS; TOPIC_FINALITY].
Definition low_topics (l : Live) : list nat := List.filter (fun t => (neighbors_on t l.(lv_iroh) <? 2)%nat) topics.
Definition join (targets : list string) (t : nat) : option (nat * list string) := match targets with [] => None | _ => Some (t, targets) end.

(** Any topic without a neighbour. *)
Definition rejoin (bootstrap : list string) (l : Live) : list (nat * list string) :=
  let targets := dedup_sorted (sort_by str_le (bootstrap ++ (ip_id <$> List.filter (fun p => p.(ip_failures) <? 3) (iroh_snapshot l.(lv_iroh))))) in
  omap (join targets) (List.filter (fun t => (neighbors_on t l.(lv_iroh) =? 0)%nat) topics).

(** A turn of [rejoin_watchdog]; who is joined on which topic. *)
Definition rejoin_turn ck (relay_urls connected bootstrap : list string) (answer : string -> option (list SignedAddr)) (r : Rejoin) w :
    Rejoin * Swarm * list (nat * list string) :=
  let down := match relay_urls, connected with _ :: _, [] => true | _, _ => false end in
  if down then
    let since := default ck.(ck_now) r.(rj_down_since) in
    if RELAY_DOWN_AFTER <=? ck.(ck_now) - since then
      let w := relay_down ck answer w in
      (mkRejoin (Some since) true, w, omap (join (healthy w.(sw_live))) (low_topics w.(sw_live)) ++ rejoin bootstrap w.(sw_live))
    else (mkRejoin (Some since) r.(rj_down_mode), w, rejoin bootstrap w.(sw_live))
  else (mkRejoin None false, w, rejoin bootstrap w.(sw_live)).

(** ** Requests *)

Definition handle (req : Request) (s : Store) (book : option AddrBook) (now : Z) : Response :=
  match req with
  | GetStatus =>
      match get_last_block n s with
      | Ok last => RStatus VERSION core_version n.(n_nethash) (match last with Some b => b.(b_height) | None => 0 end) (last ≫= b_id)
      | Err e => RError (err_text e)
      end
  | GetBlocks last_block_height limit =>
      match get_blocks_from n s (as_u64 (last_block_height + 1)) (Z.max 1 (Z.min limit MAX_BLOCKS_PER_REQUEST)) with
      | Ok blocks => RBlocks blocks
      | Err e => RError (err_text e)
      end
  | GetFinality => RFinality (latest_finality_cert s)
  | GetAddrs limit => match book with Some b => RAddrs (fresh now (Z.to_nat limit) b) | None => RError "address book disabled" end
  end.
(** One stream of a connection; the answer to bytes that are no request carries the text of the parse error. *)
Definition serve (req : result Request string) (s : Store) (book : option AddrBook) (now : Z) : Response :=
  match req with Ok req => handle req s book now | Err e => RError ("invalid request: " +:+ e) end.
End gossip.
