(* ===== verification/LegacyServer.v ===== *)
(** * The server of the legacy network

    [src/src/p2p_legacy/server.rs] as a function of the state it shares with the rest of the node: a frame comes in, a
    route answers, a frame goes out.  The other side of [getBlocks], the client of [client.rs], is here too, so that the
    two can be put together.  The relay of transactions to the best peers is [relay.rs].  The protobuf coding of the
    messages is prost's (class [Messages]); sockets, timeouts and log lines are not modelled, nor the
    size limits the WebSocket library puts on messages and frames. *)

From S2P Require Import Prelude Models Env Bytes Crypto Config TxCodec TxWire TxRoundtrip BlockCodec Wallet Rules BlockVerify Round Tree Storage Chain.
From S2P Require Import Sync AntiSpam Mempool Intake Guard PushServer PeerHealth IrohPeers LegacyWire CatchUp Finality FinalityFacts Ledger Live.

(** ** Messages *)

Record StatusBlockHeader : Type := mkStatusHeader {
  sh_id : string; sh_id_hex : string; sh_version : Z; sh_timestamp : Z; sh_previous_block : string; sh_previous_block_hex : string;
  sh_height : Z; sh_number_of_transactions : Z; sh_total_amount : string; sh_total_fee : string; sh_reward : string;
  sh_payload_length : Z; sh_payload_hash : string; sh_generator_public_key : string; sh_block_signature : string
}.
Record StatusState : Type := mkStatusState { ss_height : Z; ss_forging_allowed : bool; ss_current_slot : Z; ss_header : option StatusBlockHeader }.
Record StatusToken : Type := mkStatusToken { sk_name : string; sk_symbol : string }.
Record StatusNetwork : Type := mkStatusNetwork { sn_name : string; sn_nethash : string; sn_explorer : string; sn_token : option StatusToken; sn_version : Z }.
Record StatusPlugin : Type := mkStatusPlugin { sp_port : Z; sp_enabled : bool; sp_estimate_total_count : bool }.
Record StatusConfig : Type := mkStatusConfig { sc_version : string; sc_network : option StatusNetwork; sc_plugins : gmap string StatusPlugin }.
Record GetStatusResponse : Type := mkStatus { gs_state : option StatusState; gs_config : option StatusConfig }.
Record PeerInfo : Type := mkPeerInfo { pi_ip : string; pi_port : Z }.
Record GetBlocksRequest : Type := mkBlocksRequest { br_last_block_height : Z; br_block_limit : Z; br_headers_only : bool; br_serialized : bool }.

(** What the server and the client ask of prost and, for the ids of a batch, of serde. *)
Class Messages : Type := {
  status_encode : GetStatusResponse -> list byte;
  peers_encode : list PeerInfo -> list byte;
  common_decode : list byte -> result (list string) string;
  common_encode : option (Z * string) -> list byte;
  blocks_req_encode : GetBlocksRequest -> list byte;
  blocks_req_decode : list byte -> result GetBlocksRequest string;
  push_req_encode : list byte -> list byte;
  push_decode : list byte -> result (list byte) string;
  push_encode : PostBlockResponse -> list byte;
  push_resp_decode : list byte -> option PostBlockResponse;
  txs_encode : list (list byte) -> list byte;
  txs_decode : list byte -> result (list (list byte)) string;
  ids_encode : list string -> list byte;
  ids_decode : list byte -> option (list string)
}.

(** The texts of the network the status shows. *)
Record NetworkTexts : Type := mkTexts { nt_name : string; nt_explorer : string; nt_token : string; nt_symbol : string }.

Definition PEER_VERSION : string := "3.8.2".
Definition CORE_API_PLUGIN : string := "@arkecosystem/core-api".
Definition CORE_PQ_PLUGIN : string := "@smartholdem/core-pq".
Definition MAX_POST_TRANSACTIONS : Z := 40.

Definition non_empty (v fallback : string) : string := if String.eqb (trim_end (trim_start v)) EmptyString then fallback else v.
(** [chars().take(max)]: a character goes on while its bytes start with the bits 10. *)
Fixpoint take_chars (max : nat) (s : string) : string :=
  match s with
  | EmptyString => EmptyString
  | String c rest =>
      if Z.land (Z.of_N (N_of_ascii c)) 192 =? 128 then String c (take_chars max rest)
      else match max with O => EmptyString | S max => String c (take_chars max rest) end
  end.
Definition clip (v : string) (max : nat) : string :=
  let s := take_chars max v in if String.eqb s EmptyString then "-" else s.

Section server.
Context `{E : Env} `{PO : PeerOrder} `{HO : HashOrder} `{PR : Proto} `{MS : Messages}.
Variables (n : Network) (texts : NetworkTexts) (gc : DoubleForgeGuardConfig) (own_keys : gset string) (mc : MempoolConfig) (json_len : Transaction -> Z).
Variables (verify api_enabled : bool) (api_port : Z).
Implicit Types (l : Live) (ck : Clocks) (pause : nat -> Live -> Live).

(** The last block as the status shows it; [{n:016x}] are the hex digits of the eight bytes. *)
Definition hex_digits16 (k : Z) : string := hex_encode (be_bytes 8 k).
Definition status_hex (id : string) : string :=
  if slen id =? 64 then id else match parse_u64 id with Some k => hex_digits16 k | None => EmptyString end.
Definition status_header (b : Block) : StatusBlockHeader :=
  mkStatusHeader (ostr b.(b_id)) (status_hex (ostr b.(b_id))) b.(b_version) b.(b_timestamp) b.(b_previous_block) (status_hex b.(b_previous_block))
    (as_u32 b.(b_height)) b.(b_number_of_transactions) (fmt_u b.(b_total_amount)) (fmt_u b.(b_total_fee)) (fmt_u b.(b_reward))
    b.(b_payload_length) b.(b_payload_hash) b.(b_generator_public_key) (ostr b.(b_block_signature)).

(** ** Routes *)

Definition get_status ck l : Res (list byte) :=
  let? last := get_last_block n l.(lv_store) in
  let height := default 0 (b_height <$> last) in
  let blocktime := (milestone n (Z.max height 1)).(m_blocktime) in
  let token := mkStatusToken (clip (non_empty texts.(nt_token) texts.(nt_symbol)) 8) (clip (non_empty texts.(nt_symbol) texts.(nt_token)) 4) in
  let net := mkStatusNetwork texts.(nt_name) n.(n_nethash) (non_empty texts.(nt_explorer) "-") (Some token) n.(n_pubkey_hash) in
  let plugins := <[CORE_PQ_PLUGIN := mkStatusPlugin api_port true false]> {[ CORE_API_PLUGIN := mkStatusPlugin api_port api_enabled false ]} in
  Ok (status_encode (mkStatus (Some (mkStatusState (as_u32 height) true (ck.(ck_epoch) / blocktime) (status_header <$> last)))
                              (Some (mkStatusConfig PEER_VERSION (Some net) plugins)))).

Definition get_peers ck l : list byte :=
  peers_encode ((fun p => mkPeerInfo p.(pe_ip) l.(lv_table).(pt_port)) <$> List.filter (fun p => 0 <? p.(pe_successes)) (table_snapshot ck.(ck_now) l.(lv_table))).

Definition common_route (payload : list byte) l : Res (list byte) :=
  let? ids := map_err (fun e => ESync ("getCommonBlocks request: " +:+ e)) (common_decode payload) in
  rmap common_encode (get_common_blocks n l.(lv_store) ids).

Definition blocks_route (payload : list byte) l : Res (list byte) :=
  let? req := map_err (fun e => ESync ("getBlocks request: " +:+ e)) (blocks_req_decode payload) in
  get_blocks n l.(lv_store) req.(br_last_block_height) req.(br_block_limit) req.(br_headers_only).

Definition push_route pause ck (ip : string) (payload : list byte) (peer : Z -> Z -> Reply) l : Live * Res (list byte) :=
  match push_decode payload with
  | Err e => (l, Err (ESync ("postBlock request: " +:+ e)))
  | Ok block => let '(l, r) := post_block n gc own_keys mc json_len verify pause ck ip block peer l in (l, rmap push_encode r)
  end.

(** More than forty transactions are a flood; one that cannot be read spoils the batch. *)
Definition post_transactions ck (ip : string) (payload : list byte) l : Live * Res (list byte) :=
  match map_err (fun e => ESync ("postTransactions request: " +:+ e)) (txs_decode payload) with
  | Err e => (l, Err e)
  | Ok raws =>
      if MAX_POST_TRANSACTIONS <? Z.of_nat (length raws)
      then (l, Err (ESync ("postTransactions: " +:+ fmt_u (Z.of_nat (length raws)) +:+ " transactions in one request (max "
                             +:+ fmt_u MAX_POST_TRANSACTIONS +:+ ")"))) else
      match rmapM deserialize_transaction raws with
      | Err e => (l, Err e)
      | Ok txs =>
          let '(p, resp, _) := add_many_from mc n l.(lv_store) json_len ck.(ck_now) txs (LegacyPeer ip) l.(lv_pool) in
          (on_pool (fun _ => p) l, Ok (ids_encode resp.(pr_accept)))
      end
  end.

(** [dispatch]; [addrs] is the answer of the address book.  Who sends blocks is a peer to be. *)
Definition dispatch pause ck (path : string) (payload : list byte) (ip : string) (addrs : Res (list byte)) (peer : Z -> Z -> Reply) l
    : Live * (Z * list byte) :=
  let l := if starts_with "p2p.blocks." path then on_table (fun t => (PeerHealth.add ip t).1) l else l in
  let '(l, r) :=
    if String.eqb path "p2p.peer.getStatus" then (l, get_status ck l)
    else if String.eqb path "p2p.peer.getPeers" then (l, Ok (get_peers ck l))
    else if String.eqb path "p2p.peer.getCommonBlocks" then (l, common_route payload l)
    else if String.eqb path "p2p.blocks.getBlocks" then (l, blocks_route payload l)
    else if String.eqb path "p2p.blocks.postBlock" then push_route pause ck ip payload peer l
    else if String.eqb path "p2p.transactions.postTransactions" then post_transactions ck ip payload l
    else if String.eqb path "p2p.pq.getAddrs" then (l, addrs)
    else (l, Err (ESync ("unknown route " +:+ path))) in
  match r with
  | Ok bytes => (l, (200, bytes))
  | Err e => (l, (if starts_with "p2p." path then 400 else 404, bytes_of (err_text e)))
  end.

(** The answer to one binary message; [Err] closes the connection, a message of an unknown type has no answer. *)
Definition handle_frame pause ck (ip : string) (addrs : Res (list byte)) (peer : Z -> Z -> Reply) (data : list byte) l : Live * Res (option (list byte)) :=
  match decode_frame data with
  | Err e => (l, Err e)
  | Ok f =>
      if (f.(nm_type) =? TYPE_HELLO) || (f.(nm_type) =? TYPE_PING) then (l, Ok (Some (encode_frame f.(nm_type) f.(nm_id) EmptyString [])))
      else if f.(nm_type) =? TYPE_REQUEST then
        let '(l, (status, payload)) := dispatch pause ck f.(nm_path) f.(nm_payload) ip addrs peer l in
        (l, Ok (Some (reply_frame TYPE_REQUEST f.(nm_id) status payload)))
      else (l, Ok None)
  end.
End server.

(** ** The other side *)

Section client.
Context `{E : Env} `{PR : Proto} `{MS : Messages}.
Variables (host : string) (roundtrip : string -> list byte -> Res NesMessage). (* path, payload *)

Definition refused (route : string) (shown : nat) (reply : NesMessage) : Error :=
  ESync (host +:+ ": " +:+ route +:+ " → status " +:+ fmt_u reply.(nm_status_code) +:+ " (" +:+ from_utf8_lossy (take shown reply.(nm_payload)) +:+ ")").

Definition ask_blocks (last_block_height limit : Z) : Res (list Block) :=
  let req := mkBlocksRequest (as_u32 last_block_height) (Z.min (Z.max limit 1) MAX_BLOCKS_PER_REQUEST) false true in
  let? reply := roundtrip "p2p.blocks.getBlocks" (blocks_req_encode req) in
  if negb (reply.(nm_status_code) =? 200) then Err (refused "getBlocks" 200 reply) else decode_blocks reply.(nm_payload).

Definition push_block (serialized : list byte) : Res PostBlockResponse :=
  let? reply := roundtrip "p2p.blocks.postBlock" (push_req_encode serialized) in
  if negb (reply.(nm_status_code) =? 200) then Err (refused "postBlock" 300 reply)
  else Ok (default (mkPostBlock false 0) (push_resp_decode reply.(nm_payload))).

(** How many the pool of the peer took. *)
Definition push_transactions (serialized : list (list byte)) : Res Z :=
  let? reply := roundtrip "p2p.transactions.postTransactions" (txs_encode serialized) in
  if negb (reply.(nm_status_code) =? 200) then Err (refused "postTransactions" 200 reply)
  else Ok (default 0 ((fun ids => Z.of_nat (length ids)) <$> ids_decode reply.(nm_payload))).
End client.

(** What arrives on the connection: frames as binary or text messages, and what the WebSocket itself sends. *)
Inductive WsMessage : Type := WsBinary (data : list byte) | WsText (data : list byte) | WsPing | WsClose | WsOther.
(** A frame that is not the answer awaited: a ping of the other side or the answer to another request. *)
Definition unrelated (id : Z) (reply : NesMessage) : bool := (reply.(nm_type) =? TYPE_PING) || negb (reply.(nm_id) =? id).
(** The loop of [LegacyPeer::roundtrip]; when nothing more arrives, the timeout is over. *)
Fixpoint await_reply `{E : Env} (host path : string) (id : Z) (msgs : list WsMessage) : Res NesMessage :=
  match msgs with
  | [] => Err (ESync (host +:+ ": response timeout for " +:+ path))
  | WsClose :: _ => Err (ESync (host +:+ ": closed by peer"))
  | (WsPing | WsOther) :: rest => await_reply host path id rest
  | (WsBinary data | WsText data) :: rest =>
      let? reply := decode_frame data in
      if unrelated id reply then await_reply host path id rest else Ok reply
  end.

(** [LegacyPeer::roundtrip] with a server at the other end: the request is framed, [before] arrives first, then what the
    server answers; a server that leaves or stays silent ends in the timeout.  Frames of any size are taken. *)
Definition over `{E : Env} (host : string) (id : Z) (before : list WsMessage) (server : list byte -> Res (option (list byte)))
    (path : string) (payload : list byte) : Res NesMessage :=
  let answer := match server (encode_frame TYPE_REQUEST id path payload) with Ok (Some data) => [WsBinary data] | Ok None => [] | Err _ => [WsClose] end in
  await_reply host path id (before ++ answer).
(** The number of the next request. *)
Definition next_id (id : Z) : Z := Z.max (as_u32 (id + 1)) 1.

(** ** The relay of transactions *)

Definition MIN_RELAY_FANOUT : nat := 20.
Record RelayCoverage : Type := mkCoverage {
  rc_at_unix : Z; rc_count : Z; rc_legacy_delivered : Z; rc_legacy_total : Z; rc_pq_delivered : Z; rc_pq_total : Z;
  rc_legacy_accepted : Z; rc_pq_accepted : Z; rc_alive_legacy : Z; rc_alive_pq : Z; rc_relays : Z
}.
Definition coverage_default : RelayCoverage := mkCoverage 0 0 0 0 0 0 0 0 0 0 0.

Definition one_if (b : bool) : Z := if b then 1 else 0.
Definition cover (t : PeerTable) (c : RelayCoverage) (r : string * (bool * bool)) : RelayCoverage :=
  let '(ip, (ok, accepted)) := r in
  if is_pq ip t
  then mkCoverage c.(rc_at_unix) c.(rc_count) c.(rc_legacy_delivered) c.(rc_legacy_total) (c.(rc_pq_delivered) + one_if ok) (c.(rc_pq_total) + 1)
         c.(rc_legacy_accepted) (c.(rc_pq_accepted) + one_if accepted) c.(rc_alive_legacy) c.(rc_alive_pq) c.(rc_relays)
  else mkCoverage c.(rc_at_unix) c.(rc_count) (c.(rc_legacy_delivered) + one_if ok) (c.(rc_legacy_total) + 1) c.(rc_pq_delivered) c.(rc_pq_total)
         (c.(rc_legacy_accepted) + one_if accepted) c.(rc_pq_accepted) c.(rc_alive_legacy) c.(rc_alive_pq) c.(rc_relays).

Section relay.
Context `{PO : PeerOrder}.
Implicit Types (t : PeerTable).

(** How a peer took the batch: when, after how long, and how many it accepted. *)
Definition delivery (t : PeerTable) (ip : string) (now latency : Z) (sent : result Z string) : PeerTable * (bool * bool) :=
  match sent with
  | Ok accepted => (record_success now ip latency None t, (true, 0 <? accepted))
  | Err _ => (record_failure now ip t, (false, false))
  end.
Definition deliver (sent : string -> Z * Z * result Z string) (st : PeerTable * list (string * (bool * bool))) (ip : string) :=
  let '(now, latency, r) := sent ip in
  let '(t, o) := delivery st.1 ip now latency r in (t, st.2 ++ [(ip, o)]).

(** [relay::broadcast]; [now] at the start, [later] and [unix] when all have answered. *)
Definition relay_broadcast (now later unix : Z) (count fanout : nat) (sent : string -> Z * Z * result Z string) (last : RelayCoverage) t
    : PeerTable * RelayCoverage * Z :=
  if (count =? 0)%nat then (t, last, 0) else
  match best_peers now (Nat.max fanout MIN_RELAY_FANOUT) t with
  | [] => (t, last, 0)
  | peers =>
      let '(t, results) := foldl (deliver sent) (t, []) peers in
      let '(legacy, pq) := alive_by_kind later t in
      let c := foldl (cover t) (mkCoverage unix (Z.of_nat count) 0 0 0 0 0 0 (Z.of_nat legacy) (Z.of_nat pq) 0) results in
      (t, mkCoverage c.(rc_at_unix) c.(rc_count) c.(rc_legacy_delivered) c.(rc_legacy_total) c.(rc_pq_delivered) c.(rc_pq_total)
            c.(rc_legacy_accepted) c.(rc_pq_accepted) c.(rc_alive_legacy) c.(rc_alive_pq) (as_u64 (last.(rc_relays) + 1)),
       c.(rc_legacy_delivered) + c.(rc_pq_delivered))
  end.
End relay.

(** ** Pulling blocks over the legacy network *)

(** What prost's documentation promises of the request. *)
Class MessagesLaws (MS : Messages) : Prop := {
  blocks_req_read : forall r, in_u32 r.(br_last_block_height) -> in_u32 r.(br_block_limit) -> blocks_req_decode (blocks_req_encode r) = Ok r
}.

Section facts.
Context `{E : Env} `{L : !EnvLaws E} `{PO : PeerOrder} `{HO : HashOrder} `{PR : Proto} `{PL : !ProtoLaws PR} `{MS : Messages} `{ML : !MessagesLaws MS}.
Variables (n : Network) (texts : NetworkTexts) (gc : DoubleForgeGuardConfig) (own_keys : gset string) (mc : MempoolConfig) (json_len : Transaction -> Z).
Variables (verify api_enabled : bool) (api_port : Z).
Implicit Types (s : Store) (l : Live).
#[local] Abbreviation handle_frame := (handle_frame n texts gc own_keys mc json_len verify api_enabled api_port).

(** Every record is that of its height and in the format the port can carry. *)
Definition serves s : Prop := forall h v, s.(st_blocks) !! h = Some v -> exists b, decode_block v n = Ok b /\ b.(b_height) = h /\ wire_served n b.

Definition stored_as s (b : Block) : Prop := exists v b0, s.(st_blocks) !! b.(b_height) = Some v /\ decode_block v n = Ok b0 /\ b = as_read n b0.

Lemma read_range s hs : serves s -> Forall (fun h => is_Some (s.(st_blocks) !! h)) hs ->
  exists bs, rmapM (fun v => decode_block v n) (omap (fun h => s.(st_blocks) !! h) hs) = Ok bs /\ b_height <$> bs = hs /\
    Forall (wire_served n) bs /\ Forall (fun b => stored_as s (as_read n b)) bs.
Proof.
  intros Hs. induction 1 as [|h hs [v Hv] _ (bs & H1 & H2 & H3 & H4)]; [by exists []|]. destruct (Hs h v Hv) as (b & Hd & Hh & Hw).
  exists (b :: bs). cbn [omap list_omap fmap list_fmap]. rewrite Hv. cbn [rmapM]. rewrite Hd. cbn [rbind]. rewrite H1. cbn [rbind].
  split_and!; [done|by rewrite Hh, H2|by constructor|]. constructor; [|done]. exists v, b. cbn. by rewrite Hh.
Qed.

Lemma omap_none s hs : Forall (fun h => s.(st_blocks) !! h = None) hs -> omap (fun h => s.(st_blocks) !! h) hs = [].
Proof. induction 1 as [|h hs Hh _ IH]; [done|]. cbn. by rewrite Hh. Qed.

Lemma blocks_from s from limit : gapless s -> serves s -> 1 <= from <= u32_max + 1 -> 1 <= limit <= 400 ->
  exists bs, get_blocks_from n s from limit = Ok bs /\ b_height <$> bs = seqZ from (Z.min limit (get_last_height s + 1 - from)) /\
    Forall (wire_served n) bs /\ Forall (fun b => stored_as s (as_read n b)) bs.
Proof.
  intros [T B] Hs Hf Hl. unfold get_blocks_from. set (tip := get_last_height s) in *.
  replace (sat_add_u64 from limit - from) with limit by (unfold sat_add_u64; bounds; lia).
  set (k := Z.max 0 (Z.min limit (tip + 1 - from))). assert (Hk : seqZ from (Z.min limit (tip + 1 - from)) = seqZ from k).
  { destruct (decide (0 <= Z.min limit (tip + 1 - from))); [f_equal; lia|]. rewrite !seqZ_nil by lia. done. }
  rewrite Hk. replace limit with (k + (limit - k)) by lia. rewrite seqZ_app by lia. rewrite omap_app.
  rewrite (omap_none s (seqZ (from + k) _)), app_nil_r.
  - apply read_range; [done|]. apply Forall_seqZ. intros h Hh. apply B. lia.
  - apply Forall_seqZ. intros h Hh. apply eq_None_not_Some. rewrite B. lia.
Qed.

Lemma heights_sorted (bs : list Block) a k : b_height <$> bs = seqZ a k -> StronglySorted (fun x y => x.(b_height) < y.(b_height)) bs.
Proof.
  revert a k; induction bs as [|b bs IH]; intros a k H; constructor.
  - destruct (decide (0 < k)); [|rewrite seqZ_nil in H by lia; done]. rewrite seqZ_cons in H by lia. cbn in H. injection H as _ H. by eapply IH.
  - destruct (decide (0 < k)); [|rewrite seqZ_nil in H by lia; done]. rewrite seqZ_cons in H by lia. cbn in H. injection H as Hb H.
    apply (Forall_fmap b_height (fun h => b.(b_height) < h)). rewrite H. apply Forall_seqZ. intros h Hr; lia.
Qed.

(** What the client passes over while it waits. *)
Definition passed_over (id : Z) (m : WsMessage) : Prop :=
  match m with
  | WsPing | WsOther => True
  | WsClose => False
  | WsBinary data | WsText data => exists reply, decode_frame data = Ok reply /\ unrelated id reply = true
  end.

Lemma await_passes host path id before rest : Forall (passed_over id) before ->
  await_reply host path id (before ++ rest) = await_reply host path id rest.
Proof. induction 1 as [|[data|data| | |] ms Hm _ IH]; cbn; try done; destruct Hm as (reply & -> & Hu); cbn; by rewrite Hu. Qed.

(** C30: a node that asks another one for the blocks above a height it has gets exactly the ones the other node's chain
    has there, from the next height on and without a gap, at most 400 of them; each is the stored block as the port
    carries it; the request goes through the frames, the route and the messages on both sides, and whatever pings and
    answers to other requests come first are passed over. *)
Theorem pulled_blocks_in_sequence host mid before pause ck ip addrs peer l last_height limit
    (Hg : gapless l.(lv_store)) (Hs : serves l.(lv_store)) (Hi : in_u32 mid) (Hl : in_u32 last_height) (Hm : Forall (passed_over mid) before) :
  exists bs, ask_blocks host (over host mid before (fun data => (handle_frame pause ck ip addrs peer data l).2)) last_height limit = Ok bs /\
    b_height <$> bs = seqZ (last_height + 1) (Z.min (Z.min (Z.max limit 1) 400) (get_last_height l.(lv_store) - last_height)) /\
    Forall (stored_as l.(lv_store)) bs.
Proof.
  set (lim := Z.min (Z.max limit 1) MAX_BLOCKS_PER_REQUEST). assert (Hlim : 1 <= lim <= 400) by (unfold lim, MAX_BLOCKS_PER_REQUEST; lia).
  unfold ask_blocks. fold lim. rewrite (as_u32_id last_height) by done. set (req := mkBlocksRequest _ _ _ _).
  unfold over. rewrite await_passes by done. clear Hm. unfold LegacyServer.handle_frame.
  destruct (frame_roundtrip TYPE_REQUEST mid 200 "p2p.blocks.getBlocks" (blocks_req_encode req)) as [Hreq _];
    [bounds; unfold TYPE_REQUEST; lia|done|bounds; lia|apply from_utf8_ascii; reflexivity|vm_compute; discriminate|].
  rewrite Hreq. cbn [nm_type nm_path nm_payload nm_id]. change ((TYPE_REQUEST =? TYPE_HELLO) || (TYPE_REQUEST =? TYPE_PING)) with false.
  rewrite Z.eqb_refl. set (l1 := on_table (fun t => (PeerHealth.add ip t).1) l).
  destruct (blocks_from l.(lv_store) (last_height + 1) lim Hg Hs) as (bs & Hb & Hh & Hw & Hst); [bounds; lia|lia|].
  destruct (served_blocks_read n bs Hw (heights_sorted _ _ _ Hh)) as (m & Hm & Hd).
  assert (Hr : blocks_route n (blocks_req_encode req) l1 = Ok m).
  { unfold blocks_route. rewrite blocks_req_read by (unfold req; cbn; (done || bounds; lia)). cbn [map_err rbind].
    unfold get_blocks. cbn [req br_last_block_height br_block_limit br_headers_only]. fold lim.
    replace (Z.min (Z.max lim 1) MAX_BLOCKS_PER_REQUEST) with lim by (unfold lim, MAX_BLOCKS_PER_REQUEST; lia).
    change (lv_store l1) with (lv_store l). rewrite Hb. exact Hm. }
  assert (Hdis : dispatch n texts gc own_keys mc json_len verify api_enabled api_port pause ck "p2p.blocks.getBlocks" (blocks_req_encode req) ip addrs peer l
                 = (l1, match blocks_route n (blocks_req_encode req) l1 with Ok bytes => (200, bytes) | Err e => (400, bytes_of (err_text e)) end)).
  { unfold dispatch. cbn -[blocks_route on_table]. fold l1. by destruct (blocks_route _ _ _). }
  rewrite Hdis, Hr. cbn [snd await_reply]. destruct (frame_roundtrip TYPE_REQUEST mid 200 EmptyString m) as [_ Hrep];
    [bounds; unfold TYPE_REQUEST; lia|done|bounds; lia|apply from_utf8_ascii; reflexivity|vm_compute; discriminate|].
  rewrite Hrep. cbn [rbind]. unfold unrelated. cbn [nm_type nm_id nm_status_code nm_payload]. rewrite Z.eqb_refl.
  change ((TYPE_REQUEST =? TYPE_PING) || negb true) with false. cbn [rbind nm_status_code nm_payload]. change (negb (200 =? 200)) with false. rewrite Hd. exists (as_read n <$> bs). split_and!; [done| |].
  - rewrite <- list_fmap_compose. change (b_height ∘ as_read n) with b_height. rewrite Hh. f_equal. unfold lim, MAX_BLOCKS_PER_REQUEST. lia.
  - by apply Forall_fmap.
Qed.
End facts.
