(* ===== verification/FollowLive.v ===== *)
(** * Following the chain

    [follow_live] of [src/src/p2p_legacy/follow.rs], the steady state of a node: the best legacy peer is asked for
    its status every second or so and for the blocks above our tip.  A turn of the loop is one step: it either looks for
    a peer and connects, or asks the peer of the open session once.  What the peer answers, the clocks and what the
    other tasks do meanwhile are the [Turn]; the sleeps only space the turns. *)

From S2P Require Import Prelude Models Env Bytes Crypto Config TxCodec BlockCodec BlockVerify Wallet Rules Round Tree Storage Chain Sync.
From S2P Require Import AntiSpam Mempool Intake Guard PushServer NodePool PeerHealth IrohPeers CatchUp Live.

Definition LAG_PARK : Z := from_secs 60.

(** An open connection. *)
Record Session : Type := mkSession { ss_ip : string; ss_started : Z; ss_just_fetched : bool; ss_lag_since : option Z }.
Record Follow : Type := mkFollow { fo_live : Live; fo_fork_depth : Z; fo_last_ip : string; fo_session : option Session }.

Record Turn : Type := mkTurn {
  tn_ck : Clocks; tn_pause : nat -> Live -> Live;
  tn_probes : list (Z * string * option Probe); tn_connected : bool;  (* while there is no session *)
  tn_status : result (option Z) string; tn_blocks : Z -> Z -> result (list Block) string  (* of the session's peer *)
}.

(** [Ok(())]: the node fell too far behind; or the error that ends the loop. *)
Inductive FollowExit : Type := Behind | Broken (e : Error).

Definition set_live (l : Live) (f : Follow) : Follow := mkFollow l f.(fo_fork_depth) f.(fo_last_ip) f.(fo_session).
Definition set_session (s : option Session) (f : Follow) : Follow := mkFollow f.(fo_live) f.(fo_fork_depth) f.(fo_last_ip) s.
Definition set_depth (d : Z) (f : Follow) : Follow := mkFollow f.(fo_live) d f.(fo_last_ip) f.(fo_session).
Definition fetched (b : bool) (s : Session) : Session := mkSession s.(ss_ip) s.(ss_started) b s.(ss_lag_since).
Definition lag (o : option Z) (s : Session) : Session := mkSession s.(ss_ip) s.(ss_started) s.(ss_just_fetched) o.

Section follow.
Context `{E : Env} `{PO : PeerOrder} `{HO : HashOrder}.
Variables (n : Network) (gc : DoubleForgeGuardConfig) (own_keys : gset string) (verify : bool).
Implicit Types (t : Turn) (f : Follow) (ss : Session).

(** No session: take the best block source, or forgive the parked ones, or probe. *)
Definition connect t f : Follow :=
  let now := t.(tn_ck).(ck_now) in
  let l := f.(fo_live) in
  match best_for_blocks now 1 l.(lv_table) with
  | [] =>
      let '(table, unparked) := unpark_blocks now l.(lv_table) in
      set_live (on_table (fun _ => if (0 <? unparked)%nat then table else (PeerHealth.refresh t.(tn_probes) table).1) l) f
  | ip :: _ =>
      if t.(tn_connected) then mkFollow l f.(fo_fork_depth) ip (Some (mkSession ip now false None))
      else set_live (on_table (record_failure now ip) l) f
  end.

Definition lag_text (ip : string) (peer_height best : Z) : string :=
  "followed peer " +:+ ip +:+ " stuck at " +:+ group peer_height +:+ " while the network is at " +:+ group best +:+ " — switched block source".
Definition fork_text (ip : string) (first tip h : Z) : string :=
  "peer " +:+ ip +:+ " served block " +:+ group first +:+ " on another branch — rolled back " +:+ group tip +:+ " → " +:+ group h.

(** The network went on on another branch. *)
Definition follow_fork t ss (first tip : Z) f : Follow :=
  let l := t.(tn_pause) 1%nat f.(fo_live) in
  let target := Z.max (sat_sub tip f.(fo_fork_depth)) 1 in
  let '(s, r) := rollback_to n l.(lv_store) target in
  let l := on_store (fun _ => s) l in
  let l := match r with
           | Ok h => on_stall (note_stall_reason (unix_secs t.(tn_ck)) "fork" ss.(ss_ip) (fork_text ss.(ss_ip) first tip h) tip) l
           | Err _ => l
           end in
  set_session None (set_depth (Z.min (as_u64 (f.(fo_fork_depth) * 3)) UNDO_DEPTH) (set_live l f)).

Definition follow_apply t ss (blocks : list Block) (last : Block) (tip : ChainTip) f : Follow :=
  let ck := t.(tn_ck) in
  match apply n verify ck blocks tip (t.(tn_pause) 1%nat f.(fo_live)) with
  | (l, Ok _) =>
      let l := record_block n ck PullLegacy ss.(ss_ip) last.(b_height) last.(b_timestamp) last.(b_generator_public_key) l in
      let l := tell_guard n gc own_keys (AcceptedBatch ck.(ck_epoch) (unix_secs ck) PullLegacy ss.(ss_ip) (headers_of blocks)) l in
      set_depth 1 (set_live l f)
  | (l, Err (EStaleTip _)) => set_session (Some (fetched true ss)) (set_live l f)
  | (l, Err (EFutureBlock _)) => set_session (Some (fetched true ss)) (set_live l f)
  | (l, Err _) => set_session None (set_live (on_table (record_blocks_failure ck.(ck_now) ss.(ss_ip)) l) f)
  end.

(** The blocks above our tip are asked for and settled. *)
Definition take_blocks t ss (tip : ChainTip) f : Follow * option FollowExit :=
  let f := set_session (Some ss) f in
  let l := t.(tn_pause) 0%nat f.(fo_live) in
  let f := set_live l f in
  match t.(tn_blocks) tip.(tip_height) MAX_BLOCKS_PER_REQUEST with
  | Err _ => (set_session None f, None)
  | Ok [] => (f, None)
  | Ok ((first :: _) as blocks) =>
      match tip_of n l.(lv_store) with
      | Err e => (f, Some (Broken e))
      | Ok current =>
          if negb (current.(tip_height) =? tip.(tip_height)) then (set_session (Some (fetched true ss)) f, None)
          else if forked tip blocks then (follow_fork t ss first.(b_height) tip.(tip_height) f, None)
          else (follow_apply t ss blocks (List.last blocks first) tip f, None)
      end
  end.

(** The status of the peer. *)
Definition poll t ss f : Follow * option FollowExit :=
  let now := t.(tn_ck).(ck_now) in
  let l := f.(fo_live) in
  match tip_of n l.(lv_store) with
  | Err e => (f, Some (Broken e))
  | Ok tip =>
      match t.(tn_status) with
      | Err text =>
          if ss.(ss_just_fetched) || str_contains text "Connection reset" then (set_session None f, None)
          else (set_session None (set_live (on_table (record_failure now ss.(ss_ip)) l) f), None)
      | Ok state =>
          let peer_height := default 0 state in
          let l := on_table (record_success now ss.(ss_ip) (Z.max 0 (now - ss.(ss_started))) (Some peer_height)) l in
          let best := best_height now l.(lv_table) in
          let blocktime := (milestone n (Z.max tip.(tip_height) 1)).(m_blocktime) in
          let '(lagging, since) := lagging_peer peer_height tip.(tip_height) best blocktime now ss.(ss_lag_since) in
          let ss := lag since (fetched false ss) in
          if lagging then
            let l := on_stall (note_stall_reason (unix_secs t.(tn_ck)) "lagging-peer" ss.(ss_ip) (lag_text ss.(ss_ip) peer_height best) tip.(tip_height)) l in
            (set_session None (set_live (on_table (park_blocks_for now ss.(ss_ip) LAG_PARK) l) f), None)
          else
            let f := set_session (Some ss) (set_live l f) in
            if peer_height <=? tip.(tip_height) then (f, None)
            else if 2 * MAX_BLOCKS_PER_REQUEST <? peer_height - tip.(tip_height) then (f, Some Behind)
            else take_blocks t ss tip f
      end
  end.

Definition follow_turn t f : Follow * option FollowExit :=
  match f.(fo_session) with
  | None => (connect t f, None)
  | Some ss => poll t ss f
  end.

(** [follow_live] until it ends or the turns are used up; undo records are written from its first turn on. *)
Fixpoint follow_turns (ts : list Turn) f : Follow * option FollowExit :=
  match ts with
  | [] => (f, None)
  | t :: ts => match follow_turn t f with
               | (f, None) => follow_turns ts f
               | r => r
               end
  end.
Definition follow_live (ts : list Turn) (l : Live) : Follow * option FollowExit :=
  follow_turns ts (mkFollow (set_undo_enabled true l) 1 EmptyString None).
End follow.
