(* ===== verification/Watchdog.v ===== *)
(** * The watchdogs

    The two tasks that undo blocks on their own: the stall watchdog of [src/src/intake.rs], which frees parked
    sources, rolls a forked tip back and pulls the gap from the iroh peers, and the orphan watchdog of
    [src/src/delegate/forger.rs], which rolls a forged block back when the network follows another one.  One turn is
    one step; what the peers answer, the clocks and the other tasks are arguments.  Alerts are not modelled. *)

From S2P Require Import Prelude Models Env Bytes Crypto Config TxCodec BlockCodec BlockVerify Wallet Rules Round Tree Storage Chain Sync.
From S2P Require Import AntiSpam Mempool Intake Guard PushServer NodePool PeerHealth IrohPeers CatchUp Live.

(** What the loop remembers; times are the monotone clock. *)
Record Watch : Type := mkWatch {
  wa_last_move : Z * Z; wa_last_error : option Z; wa_was_stalled : bool; wa_stalled_since : option (Z * Z);
  wa_fork_depth : Z; wa_split_since : option Z; wa_split_alerted : option Z
}.
Definition watch_start (now : Z) : Watch := mkWatch (0, now) None false None 1 None None.

(** The first ten characters of an id. *)
Definition id10 (id : string) : string := String.substring 0 10 id.
Definition secs (d : Z) : Z := d / from_secs 1.

Section watchdog.
Context `{E : Env} `{PO : PeerOrder} `{HO : HashOrder}.
Variables (n : Network) (verify : bool) (fmt_short : string -> string). (* [EndpointId::fmt_short] *)
Implicit Types (l : Live) (w : Watch).

(** [branch_check]: the first of the best three sources whose answer holds the successor of our tip. *)
Definition branch_check (now : Z) (answers : string -> option (list Block)) l : option (string * string * string) :=
  match res_ok (get_last_block n l.(lv_store)) with
  | Some (Some tip) =>
      match tip.(b_id) with
      | None => None
      | Some ours =>
          head (omap (fun ip => match answers ip with
                                | None => None
                                | Some blocks => (fun next => (ours, next.(b_previous_block), ip))
                                    <$> List.find (fun b => b.(b_height) =? as_u64 (tip.(b_height) + 1)) blocks
                                end) (best_for_blocks now 3 l.(lv_table)))
      end
  | _ => None
  end.

Definition split_text (behind best tip : Z) : string :=
  fmt_u behind +:+ " legacy peers at ≤ " +:+ group best +:+ " while we are at " +:+ group tip.

(** The legacy side far behind for long enough. *)
Definition watch_split ck (tip : Z) w l : Watch * Live :=
  let now := ck.(ck_now) in
  let heights := pe_height <$> List.filter (fun p => negb (is_banned now p)) (table_snapshot now l.(lv_table)) in
  match legacy_split tip heights with
  | None => (mkWatch w.(wa_last_move) w.(wa_last_error) w.(wa_was_stalled) w.(wa_stalled_since) w.(wa_fork_depth) None w.(wa_split_alerted), l)
  | Some (behind, best) =>
      let since := default now w.(wa_split_since) in
      let due := (SPLIT_AFTER_SECS <=? secs (Z.max 0 (now - since)))
                 && match w.(wa_split_alerted) with Some t => 1800 <=? secs (Z.max 0 (now - t)) | None => true end in
      (mkWatch w.(wa_last_move) w.(wa_last_error) w.(wa_was_stalled) w.(wa_stalled_since) w.(wa_fork_depth) (Some since)
         (if due then Some now else w.(wa_split_alerted)),
       if due then on_stall (note_stall_reason (unix_secs ck) "legacy-split" EmptyString (split_text behind best tip) tip) l else l)
  end.

(** The stall goes on: parked sources are freed every ten slots. *)
Definition watch_unpark (now blocktime : Z) (fired : bool) w l : Watch * Live :=
  let s := l.(lv_stall) in
  let due := fired || match w.(wa_last_error) with Some t => 10 * blocktime <=? secs (Z.max 0 (now - t)) | None => true end in
  let error (o : option Z) := mkWatch w.(wa_last_move) o w.(wa_was_stalled) w.(wa_stalled_since) w.(wa_fork_depth) w.(wa_split_since) w.(wa_split_alerted) in
  if s.(sl_stalled) && due then (error (Some now), on_table (fun t => (unpark_blocks now t).1) l)
  else if negb s.(sl_stalled) then (error None, l) else (w, l).

(** The iroh peers ahead, the fastest first. *)
Definition iroh_ahead (tip : Z) l : list IrohPeerInfo :=
  take 3 (sort_by latency_le (List.filter (fun p => (tip <? p.(ip_height)) && (p.(ip_failures) <? 3)) (iroh_snapshot l.(lv_iroh)))).

Definition pull_text (height : Z) (e : Error) : string :=
  "iroh peer at " +:+ group height +:+ " did not deliver the gap: " +:+ err_text e.

(** They are asked in turn until the tip moves; [fills id] is how the peer answers and what happens meanwhile. *)
Fixpoint watch_pull ck (tip : Z) (fills : string -> (nat -> Live -> Live) * (Z -> Z -> IrohReply)) (peers : list IrohPeerInfo) l : Live :=
  match peers with
  | [] => l
  | p :: peers =>
      let '(pause, peer) := fills p.(ip_id) in
      match fill_gap_from n verify pause ck p.(ip_id) p.(ip_height) peer l with
      | (l, Ok t) => if tip <? t.(tip_height) then l else watch_pull ck tip fills peers l
      | (l, Err e) =>
          watch_pull ck tip fills peers
            (on_stall (note_stall_reason (unix_secs ck) "iroh-pull-failed" (fmt_short p.(ip_id)) (pull_text p.(ip_height) e) tip) l)
      end
  end.

Definition forked_text (ours theirs ip : string) (tip : Z) : string :=
  "our block " +:+ id10 ours +:+ " at " +:+ group tip +:+ " is not on the network branch (peer " +:+ ip +:+ " has " +:+ id10 theirs +:+ ")".
Definition rollback_text (target : Z) (e : Error) : string := "rollback to " +:+ group target +:+ " failed: " +:+ err_text e.

(** A stall that outlives one slot is acted on; [true] when a fork was rolled back, which ends the turn. *)
Definition watch_recover ck (tip : Z) (answers : string -> option (list Block)) (pause : nat -> Live -> Live)
    (fills : string -> (nat -> Live -> Live) * (Z -> Z -> IrohReply)) w l : Watch * Live * bool :=
  let note kind peer text := on_stall (note_stall_reason (unix_secs ck) kind peer text tip) in
  let pull l := watch_pull ck tip fills (iroh_ahead tip l) l in
  let check := branch_check ck.(ck_now) answers l in
  let l := pause 0%nat l in
  match check with
  | Some (ours, theirs, ip) =>
      if String.eqb ours theirs then
        (w, pull (note "pull-broken" ip ("tip " +:+ group tip +:+ " is on the network branch (confirmed by " +:+ ip
                    +:+ ") but the follow loop delivered no block for " +:+ fmt_u l.(lv_stall).(sl_seconds) +:+ "s") l), false)
      else
        let target := rollback_target l.(lv_store) tip w.(wa_fork_depth) in
        let l := pause 1%nat (note "fork" ip (forked_text ours theirs ip tip) l) in
        let '(s, r) := rollback_to n l.(lv_store) target in
        let l := on_store (fun _ => s) l in
        match r with
        | Ok _ => (mkWatch w.(wa_last_move) w.(wa_last_error) w.(wa_was_stalled) w.(wa_stalled_since) (next_fork_depth w.(wa_fork_depth))
                     w.(wa_split_since) w.(wa_split_alerted), l, true)
        | Err e => (w, pull (note "rollback-failed" ip (rollback_text target e) l), false)
        end
  | None => (w, pull (note "no-legacy-peers" EmptyString ("no legacy peer answered getBlocks(" +:+ group tip +:+ ") — legacy connectivity lost") l), false)
  end.

(** The end of a turn: the stall begins or is over. *)
Definition watch_end ck (tip best : Z) (stalled : bool) w l : Watch * Live :=
  let now := ck.(ck_now) in
  let since := if stalled && negb (is_some w.(wa_stalled_since)) then Some (tip, now) else w.(wa_stalled_since) in
  if w.(wa_was_stalled) && negb stalled then
    let '(h0, t0) := default (tip, now) since in
    (mkWatch w.(wa_last_move) w.(wa_last_error) stalled None 1 w.(wa_split_since) w.(wa_split_alerted),
     on_stall (note_stall_recovered (unix_secs ck) h0 (secs (Z.max 0 (now - t0))) best tip) l)
  else (mkWatch w.(wa_last_move) w.(wa_last_error) stalled since w.(wa_fork_depth) w.(wa_split_since) w.(wa_split_alerted), l).

(** One turn of [spawn_stall_watchdog]; [blocktime] was read before the sleep. *)
Definition watch_turn ck (blocktime : Z) (answers : string -> option (list Block)) (pause : nat -> Live -> Live)
    (fills : string -> (nat -> Live -> Live) * (Z -> Z -> IrohReply)) w l : Watch * Live :=
  let now := ck.(ck_now) in
  let tip := get_last_height l.(lv_store) in
  let peers := table_snapshot now l.(lv_table) in
  let ahead := (Z.of_nat (length (List.filter (fun p => negb (is_banned now p) && (tip <? p.(pe_height))) peers))
                + Z.of_nat (length (List.filter (fun p => tip <? p.(ip_height)) (iroh_snapshot l.(lv_iroh)))),
                Z.max (best_height now l.(lv_table)) (iroh_best_height l.(lv_iroh))) in
  let '(fired, last_move, stall) := stall_check tip ahead blocktime now w.(wa_last_move) l.(lv_stall) in
  let w := mkWatch last_move w.(wa_last_error) w.(wa_was_stalled) w.(wa_stalled_since)
             w.(wa_fork_depth) w.(wa_split_since) w.(wa_split_alerted) in
  let l := on_stall (fun _ => stall) l in
  let '(w, l) := watch_split ck tip w l in
  let '(w, l) := watch_unpark now blocktime fired w l in
  let '(w, l, again) := if stall.(sl_stalled) && negb fired then watch_recover ck tip answers pause fills w l else (w, l, false) in
  if again then (w, l) else watch_end ck tip ahead.2 stall.(sl_stalled) w l.

(** ** Orphans *)

(** What the peers have at the height of the forged block: ours, other ids. *)
Definition poll_orphan (id : string) (answers : list (string * option string)) : nat * list (string * string) :=
  (length (List.filter (fun a => match a.2 with Some their => String.eqb their id | None => false end) answers),
   omap (fun a => match a.2 with Some their => if String.eqb their id then None else Some (a.1, their) | None => None end) answers).

(** [spawn_orphan_watchdog] once two slots have passed; [answer ip] is the id of the block the peer sends. *)
Definition orphan_check (now height : Z) (id : string) (answer : string -> option string) (pause : nat -> Live -> Live) l : Live :=
  match res_ok (get_block_by_height n l.(lv_store) height) with
  | Some (Some b) =>
      if bool_decide (b.(b_id) = Some id) then
        let asked := best_peers now 5 l.(lv_table) in
        let l := pause 0%nat l in
        let '(same, other) := poll_orphan id ((fun ip => (ip, answer ip)) <$> asked) in
        if (2 <=? length other)%nat && (same <? length other)%nat
        then on_store (fun s => (rollback_to n s (height - 1)).1) (pause 1%nat l)
        else l
      else l
  | _ => l
  end.
End watchdog.
