(* ===== verification/Forger.v ===== *)
(** * The forger

    [src/src/delegate/forger.rs]: the loop that works out the slot, waits until enough peers are on our tip, and
    forges, applies and hands out a block.  A tick is one step; the answers of the peers, the clocks, and what
    the other tasks do while it waits are arguments.  The double-forge guard, the pool, the builder and the
    acceptance of the block are the components themselves.  Sockets, log lines and the texts of the console are not
    modelled. *)

From S2P Require Import Prelude Floats Models Env Bytes Crypto Keys Config TxCodec BlockCodec BlockVerify Wallet Rules Round Tree Storage Chain Sync.
From S2P Require Import AntiSpam Mempool Intake Guard Builder PushServer NodePool PeerHealth IrohPeers CatchUp Live.

(** One peer's view of the chain tip. *)
Record PeerView : Type := mkView { pv_ip : string; pv_height : Z; pv_id : string; pv_iroh_id : option string }.

Definition minority_rule (ahead same responders needed : Z) : bool :=
  (0 <? ahead) && (ahead * 3 <? responders) && (needed <=? same).

Record ForgerOptions : Type := mkForgerOptions {
  fo_broadcast_fanout : nat; fo_max_lag : Z; fo_quorum_share : F64; fo_min_quorum_peers : Z; fo_forge_over_minority : bool; fo_iroh : bool
}.
Definition half : F64 := f64_div (f64_of 1) (f64_of 2).
Definition forger_options_default : ForgerOptions := mkForgerOptions 6 1 half 3 true false.

(** Peers that have to agree, out of [responders]. *)
Definition needed_of (o : ForgerOptions) (responders : Z) : Z :=
  Z.max (f64_ceil_usize (f64_mul (f64_of responders) (f64_clamp (f64_of 0) (f64_of 1) o.(fo_quorum_share)))) (Z.max o.(fo_min_quorum_peers) 1).

Definition on_tip (height : Z) (id : string) (v : PeerView) : bool := (v.(pv_height) =? height) && String.eqb v.(pv_id) id.
Definition count (p : PeerView -> bool) (views : list PeerView) : Z := Z.of_nat (length (List.filter p views)).
Definition above (height : Z) (v : PeerView) : bool := height <? v.(pv_height).

(** A probe that was asked, and how the [k]-th of them ends, in the order in which they end. *)
Definition Asked : Type := string * option string.  (* text of the peer, iroh id *)
Inductive Reached : Type :=
| Answered (latency_ms : Z) (path : option string) (height : Z) (id : option string)
| Refused
| TimedOut.

(** ** Status *)

Record SlotInfo : Type := mkSlotInfo { si_slot : Z; si_delegate : string; si_starts_at_unix : Z }.
Record ForgedInfo : Type := mkForged { fi_height : Z; fi_id : string; fi_transactions : Z; fi_at_unix : Z; fi_accepted_by : Z }.
Record SkippedSlot : Type := mkSkipped { sk_slot : Z; sk_delegate : string; sk_reason : string; sk_at_unix : Z }.
Record DelegateStatus : Type := mkDelegateStatus {
  ds_username : string; ds_public_key : string; ds_address : string; ds_rank : option Z; ds_active : bool; ds_pq_registered : bool; ds_pq_secret : bool
}.
Record ForgingStatus : Type := mkForging {
  fs_delegates : list DelegateStatus; fs_next_slot : option SlotInfo; fs_last_forged : option ForgedInfo; fs_skipped : list SkippedSlot; fs_forged_count : Z
}.
Definition forging_default : ForgingStatus := mkForging [] None None [] 0.

Definition SKIPPED : nat := 20.
Definition record_skip (now_unix slot : Z) (delegate reason : string) (s : ForgingStatus) : ForgingStatus :=
  mkForging s.(fs_delegates) s.(fs_next_slot) s.(fs_last_forged)
    ((if (SKIPPED <=? length s.(fs_skipped))%nat then tail s.(fs_skipped) else s.(fs_skipped)) ++ [mkSkipped slot delegate reason now_unix])
    s.(fs_forged_count).
Definition announce (info : SlotInfo) (s : ForgingStatus) : ForgingStatus :=
  mkForging s.(fs_delegates) (Some info) s.(fs_last_forged) s.(fs_skipped) s.(fs_forged_count).
Definition note_forged (info : ForgedInfo) (s : ForgingStatus) : ForgingStatus :=
  mkForging s.(fs_delegates) s.(fs_next_slot) (Some info) s.(fs_skipped) (as_u64 (s.(fs_forged_count) + 1)).
Definition set_delegates (l : list DelegateStatus) (s : ForgingStatus) : ForgingStatus :=
  mkForging l s.(fs_next_slot) s.(fs_last_forged) s.(fs_skipped) s.(fs_forged_count).

(** When the loop wakes: just after a second begins, and once in its middle. *)
Definition wake_after (sub : Z) : Z := if sub <? 25 then 25 - sub else if sub <? 525 then 525 - sub else 1025 - sub.

Section forger.
Context `{E : Env} `{PO : PeerOrder} `{HO : HashOrder} `{SG : Signer}.
Variables (n : Network) (gc : DoubleForgeGuardConfig) (own_keys : gset string) (mc : MempoolConfig) (json_len : Transaction -> Z).
Variables (keys : list KeyPair) (pq_keys : list PqKeyPair) (opts : ForgerOptions) (fmt_short : string -> string).
Implicit Types (l : Live) (views : list PeerView).

(** ** The view of the network *)

(** The best legacy peers and the healthy iroh peers. *)
Definition probes (now : Z) (k : nat) l : list Asked :=
  ((fun ip => (ip, None)) <$> best_peers now k l.(lv_table)) ++
  (if opts.(fo_iroh)
   then (fun p => ("iroh:" +:+ fmt_short p.(ip_id), Some p.(ip_id))) <$> take k (List.filter (fun p => p.(ip_failures) <? 3) (iroh_snapshot l.(lv_iroh)))
   else []).

Definition heard (now : Z) (a : Asked) (r : Reached) l : Live :=
  match a.2, r with
  | Some id, Answered ms path height _ =>
      on_iroh (fun m => let m := iroh_record_rpc now id (Some ms) (Some height) m in
                        match path with Some kind => iroh_set_path now id kind m | None => m end) l
  | Some id, Refused => on_iroh (iroh_record_rpc now id None None) l
  | _, _ => l
  end.

(** [network_view]: the answers so far, until they are enough or everybody ended. *)
Fixpoint network_view (enough : list PeerView -> Z -> bool) (now : Z) (asked : list Asked) (arrivals : list (nat * Reached)) views l : list PeerView * Live :=
  match arrivals with
  | [] => (views, l)
  | (i, r) :: arrivals =>
      match asked !! i with
      | None => network_view enough now asked arrivals views l
      | Some a =>
          let l := heard now a r l in
          match r with
          | Answered _ _ height id =>
              let views := views ++ [mkView a.1 height (ostr id) a.2] in
              if enough views (Z.of_nat (length asked)) then (views, l) else network_view enough now asked arrivals views l
          | _ => network_view enough now asked arrivals views l
          end
      end
  end.

Definition quorum_now (tip_h : Z) (tip_id : string) views (asked : Z) : bool :=
  (needed_of opts asked <=? count (on_tip tip_h tip_id) views) && forallb (fun v => v.(pv_height) <=? tip_h) views.

(** ** Waiting for the quorum *)

(** One turn of the loop: clocks, answers, and how the peers ahead hand out their blocks; a pull over iroh
    may run out of time, what it did by then is done by the other tasks. *)
Record Look : Type := mkLook {
  lk_ck : Clocks; lk_pause : nat -> Live -> Live; lk_arrivals : list (nat * Reached);
  lk_pull_at : Z; lk_mid_at : Z; lk_end_at : Z;
  lk_pulls : string -> (nat -> Live -> Live) * (Z -> Z -> Reply);
  lk_fills : string -> (nat -> Live -> Live) * option (Z -> Z -> IrohReply)
}.
Inductive Decision : Type := Build (tip : Block) | SkipSlot (reason : string).

Definition pull_from (k : Look) (target : Z) (v : PeerView) l : Live * option (Res ChainTip) :=
  match v.(pv_iroh_id) with
  | Some id =>
      if opts.(fo_iroh) then
        match lk_fills k id with
        | (pause, Some peer) => let '(l, r) := fill_gap_from n true pause k.(lk_ck) id target peer l in (l, Some r)
        | (pause, None) => (pause 0%nat l, Some (Err (ESync "timeout")))
        end
      else (l, None)
  | None => let '(pause, peer) := lk_pulls k v.(pv_ip) in
            let '(l, r) := pull_gap_from n true pause k.(lk_ck) v.(pv_ip) target peer l in (l, Some r)
  end.

(** [pull_ahead]: from up to three of the peers ahead, iroh first; whether the tip moved. *)
Fixpoint pull_each (k : Look) (tip_h target : Z) views l : Live * bool :=
  match views with
  | [] => (l, false)
  | v :: views =>
      match pull_from k target v l with
      | (l, Some (Ok t)) => if tip_h <? t.(tip_height) then (l, true) else pull_each k tip_h target views l
      | (l, _) => pull_each k tip_h target views l
      end
  end.
Definition pull_ahead (k : Look) views (tip_h target : Z) l : Live * bool :=
  let ahead := List.filter (above tip_h) views in
  pull_each k tip_h target
    (take 3 (List.filter (fun v => is_some v.(pv_iroh_id)) ahead ++ List.filter (fun v => negb (is_some v.(pv_iroh_id))) ahead)) l.

Definition heights_text views : string := String.concat ", " ((fun v => v.(pv_ip) +:+ "=" +:+ fmt_u v.(pv_height)) <$> views).
Definition isolated_text views : string :=
  "only " +:+ fmt_u (Z.of_nat (length views)) +:+ " peer(s) reachable [" +:+ heights_text views +:+ "], need at least "
  +:+ fmt_u opts.(fo_min_quorum_peers) +:+ " agreeing — refusing to forge in isolation".
Definition disagree_text (tip : Block) views (same needed : Z) : string :=
  "local tip " +:+ fmt_u tip.(b_height) +:+ " (" +:+ short_id tip.(b_id) +:+ ") vs peers [" +:+ heights_text views +:+ "]: " +:+ fmt_u same
  +:+ " of " +:+ fmt_u (Z.of_nat (length views)) +:+ " peers agree with us (need " +:+ fmt_u needed +:+ ")".

Definition note_views (now : Z) views l : Live :=
  foldl (fun l v => if starts_with "iroh:" v.(pv_ip) then l
                    else on_table (record_success now v.(pv_ip) (from_millis 500) (Some v.(pv_height))) l) l views.

(** What is decided once the views are there; [pulled] is the height pulled for last, [failed] the one that could not be pulled. *)
Definition settle_views (deadline mid_slot : Z) (k : Look) (tip : Block) views (pulled failed : Z) l : Live * (Z * Z) * option Decision :=
  let max_h := foldl Z.max 0 (pv_height <$> views) in
  let same := count (fun v => (v.(pv_height) =? tip.(b_height)) && bool_decide (Some v.(pv_id) = tip.(b_id))) views in
  let responders := Z.of_nat (length views) in
  let needed := needed_of opts responders in
  if (max_h <=? tip.(b_height)) && (needed <=? same) then (l, (pulled, failed), Some (Build tip)) else
  let try_pull := (tip.(b_height) <? max_h) && (max_h - tip.(b_height) <=? 3) && negb (pulled =? max_h) && (k.(lk_pull_at) <? deadline) in
  let '(l, moved) := if try_pull then pull_ahead k views tip.(b_height) max_h l else (l, false) in
  let pulled := if try_pull then max_h else pulled in
  if moved then (l, (pulled, failed), None) else
  let failed := if try_pull then max_h else failed in
  if opts.(fo_forge_over_minority) && (tip.(b_height) <? max_h) && (failed =? max_h) && (mid_slot <=? k.(lk_mid_at))
     && minority_rule (count (above tip.(b_height)) views) same responders needed
  then (l, (pulled, failed), Some (Build tip))
  else if deadline <=? k.(lk_end_at) then
    (l, (pulled, failed), Some (SkipSlot (if responders <? opts.(fo_min_quorum_peers) then isolated_text views else disagree_text tip views same needed)))
  else (l, (pulled, failed), None).

Definition quorum_look (deadline mid_slot : Z) (k : Look) (st : Z * Z) l : Live * (Z * Z) * option Decision :=
  let l := k.(lk_pause) 0%nat l in
  match res_ok (get_last_block n l.(lv_store)) with
  | Some (Some tip) =>
      let now := k.(lk_ck).(ck_now) in
      let asked := probes now 8 l in
      let l := k.(lk_pause) 1%nat l in
      let '(views, l) := network_view (quorum_now tip.(b_height) (ostr tip.(b_id))) now asked k.(lk_arrivals) [] l in
      match views with
      | [] => (l, st, Some (if f64_leb opts.(fo_quorum_share) (f64_of 0) then Build tip else SkipSlot "no legacy peer answered getStatus"))
      | _ => settle_views deadline mid_slot k tip views st.1 st.2 (note_views now views l)
      end
  | _ => (l, st, Some (SkipSlot "empty database"))
  end.

(** [wait_for_quorum]; nothing is decided while the looks last. *)
Fixpoint wait_for_quorum (deadline mid_slot : Z) (looks : list Look) (st : Z * Z) l : Live * option Decision :=
  match looks with
  | [] => (l, None)
  | k :: looks =>
      match quorum_look deadline mid_slot k st l with
      | (l, _, Some d) => (l, Some d)
      | (l, st, None) => wait_for_quorum deadline mid_slot looks st l
      end
  end.

(** ** The delegates of the node *)

(** The configured quantum key that matches the registered one. *)
Definition pq_key_for (public_key : string) l : option PqKeyPair :=
  match find_wallet l.(lv_store) public_key ≫= ws_pq_key with
  | None => None
  | Some registered => List.find (fun k => String.eqb (pq_public_key_hex k) registered.(pk_public_key)) pq_keys
  end.
Definition delegate_name (public_key : string) l : string :=
  default "<unregistered>"%string (find_wallet l.(lv_store) public_key ≫= ws_username).

(** [log_loaded]: what the status says of every configured key. *)
Definition delegate_status l (k : KeyPair) : DelegateStatus :=
  let s := l.(lv_store) in
  let count := (milestone n (Z.max (get_last_height s) 1)).(m_active_delegates) in
  let pk := public_key_hex k in
  let rank := (fun x => Z.of_nat x.1 + 1) <$> list_find (fun w => w.1.(ws_public_key) = Some pk) (delegate_ranking s) in
  mkDelegateStatus (delegate_name pk l) pk (default EmptyString (res_ok (kp_address k n.(n_pubkey_hash)))) rank
    (opt_test (fun r => r <=? count) rank) (is_some (find_wallet s pk ≫= ws_pq_key)) (is_some (pq_key_for pk l)).
Definition log_loaded l (s : ForgingStatus) : ForgingStatus := set_delegates (delegate_status l <$> keys) s.
Definition has_unresolved_delegate (s : ForgingStatus) : bool := existsb (fun d => negb (is_some d.(ds_rank))) s.(fs_delegates).

(** ** A tick *)

Record Forging : Type := mkForgingState { fg_live : Live; fg_status : ForgingStatus; fg_last_slot : Z; fg_announced : Z }.
Implicit Types (f : Forging).

(** How a tick ends; [Waits] while the quorum is undecided, [Panics] where an index is out of bounds. *)
Inductive Tick : Type :=
| Idle
| Skips (reason : string)
| Forges (block : Block)
| Fails (e : Error)
| Panics
| Waits.

Record TickInput : Type := mkTick {
  ti_now : Z;         (* network time in seconds, at the start *)
  ti_unix : Z;        (* unix time in seconds *)
  ti_quorum_now : Z;  (* network time when the deadline is fixed *)
  ti_instant : Z;     (* monotone clock, then *)
  ti_looks : list Look;
  ti_ck : Clocks;     (* clocks when the block is applied *)
  ti_pause : nat -> Live -> Live
}.

Definition key_of (public_key : string) : option KeyPair := List.find (fun k => String.eqb (public_key_hex k) public_key) keys.
Definition skips (t : TickInput) (slot : Z) (name reason : string) f : Forging * Tick :=
  (mkForgingState f.(fg_live) (record_skip t.(ti_unix) slot name reason f.(fg_status)) f.(fg_last_slot) f.(fg_announced), Skips reason).
Definition at_live l f : Forging := mkForgingState l f.(fg_status) f.(fg_last_slot) f.(fg_announced).

Definition slot_taken (height : Z) : string := "a block for this slot already exists (height " +:+ fmt_u height +:+ ")".
Definition pq_missing : string := "BlockPqKeyMissingError: pq.blocks requires a registered PQ key + delegate.pq_secrets".

(** The block is built on [tip], signed and applied; [next_height] is of the start of the tick. *)
Definition forge_and_apply (t : TickInput) (k : KeyPair) (name : string) (slot next_height blocktime : Z) (pq : option PqKeyPair) (tip : Block) f : Forging * Tick :=
  let l := f.(fg_live) in
  let built :=
    let? txs := select_transactions n l.(lv_store) ((hm_iter l.(lv_pool).(pl_txs)).*2) next_height in
    forge_block_with n k pq tip (slot_start slot blocktime) txs in
  match built with
  | Err e => (f, Fails e)
  | Ok block =>
      let ck := t.(ti_ck) in
      match apply n true ck [block] (mkTip tip.(b_height) tip.(b_id)) (t.(ti_pause) 0%nat l) with
      | (l, Err e) => (at_live l f, Fails e)
      | (l, Ok _) =>
          let l := record_block n ck Forged name block.(b_height) block.(b_timestamp) block.(b_generator_public_key) l in
          let l := tell_guard n gc own_keys (OwnForged (ostr block.(b_id))) l in
          let l := on_pool (fun p => (prune_confirmed mc n l.(lv_store) json_len ck.(ck_now) p).1) l in
          (mkForgingState l (note_forged (mkForged block.(b_height) (ostr block.(b_id)) (Z.of_nat (length block.(b_transactions))) t.(ti_unix) 0) f.(fg_status))
             f.(fg_last_slot) f.(fg_announced), Forges block)
      end
  end.

(** The slot is ours and the guard lets it pass. *)
Definition forge_slot (t : TickInput) (k : KeyPair) (expected name : string) (slot next_height blocktime : Z) f : Forging * Tick :=
  let remaining := as_u64 (Z.max (slot_start (slot + 1) blocktime - t.(ti_quorum_now)) 1) in
  let deadline := t.(ti_instant) + from_secs (Z.max (sat_sub remaining 2) 1) in
  let mid_slot := t.(ti_instant) + from_secs (sat_sub remaining (blocktime / 2)) in
  match wait_for_quorum deadline mid_slot t.(ti_looks) (0, 0) f.(fg_live) with
  | (l, None) => (at_live l f, Waits)
  | (l, Some (SkipSlot reason)) => skips t slot name reason (at_live l f)
  | (l, Some (Build tip)) =>
      let f := at_live l f in
      if slot <=? slot_number tip.(b_timestamp) blocktime then skips t slot name (slot_taken tip.(b_height)) f else
      let '(v1_ok, v0_ok) := block_versions_allowed n next_height in
      let pq := if v1_ok then pq_key_for expected l else None in
      if v1_ok && negb (is_some pq) && negb v0_ok then skips t slot name pq_missing f
      else forge_and_apply t k name slot next_height blocktime pq tip f
  end.

(** One key of ours owns the slot: the guard is asked first. *)
Definition own_slot (t : TickInput) (k : KeyPair) (expected : string) (slot next_height active blocktime : Z) f : Forging * Tick :=
  let f := mkForgingState f.(fg_live) f.(fg_status) slot f.(fg_announced) in
  let name := delegate_name expected f.(fg_live) in
  let '(reason, g) := take_slot gc t.(ti_unix) expected next_height active f.(fg_live).(lv_guard) in
  let f := at_live (on_guard (fun _ => g) f.(fg_live)) f in
  match reason with
  | Some reason => skips t slot name reason f
  | None => forge_slot t k expected name slot next_height blocktime f
  end.

(** The next slot is announced once when it is ours. *)
Definition announce_next (slot blocktime : Z) (next_pk : string) f : Forging :=
  if f.(fg_announced) =? slot + 1 then f else
  match key_of next_pk with
  | None => f
  | Some _ => mkForgingState f.(fg_live)
      (announce (mkSlotInfo (slot + 1) (delegate_name next_pk f.(fg_live)) (epoch_to_unix n (slot_start (slot + 1) blocktime))) f.(fg_status))
      f.(fg_last_slot) (slot + 1)
  end.

Definition tick (t : TickInput) f : Forging * Tick :=
  match get_last_block n f.(fg_live).(lv_store) with
  | Err e => (f, Fails e)
  | Ok None => (f, Idle)
  | Ok (Some tip) =>
      let next_height := as_u64 (tip.(b_height) + 1) in
      let m := milestone n next_height in
      let blocktime := m.(m_blocktime) in
      let active := m.(m_active_delegates) in
      let slot := slot_number t.(ti_now) blocktime in
      let info := round_info next_height active in
      match forging_order f.(fg_live).(lv_store) info.(ri_round) with
      | None => (mkForgingState f.(fg_live) f.(fg_status) slot f.(fg_announced), Idle)
      | Some [] => (f, Idle)
      | Some order =>
          match order !! Z.to_nat ((slot + 1) mod active) with
          | None => (f, Panics)
          | Some next =>
              let f := announce_next slot blocktime next.(dr_public_key) f in
              if (slot =? f.(fg_last_slot)) || (slot <=? slot_number tip.(b_timestamp) blocktime) then (f, Idle) else
              match order !! Z.to_nat (slot mod active) with
              | None => (f, Panics)
              | Some d =>
                  match key_of d.(dr_public_key) with
                  | None => (f, Idle)
                  | Some k => own_slot t k d.(dr_public_key) slot next_height active blocktime f
                  end
              end
          end
      end
  end.

(** [run]: every thirty seconds the delegates are looked up again while one is unknown.  A failed tick is only
    logged; a panic ends the task. *)
Definition wake (ticks : Z) f : Forging :=
  if (ticks mod 60 =? 0) && has_unresolved_delegate f.(fg_status)
  then mkForgingState f.(fg_live) (log_loaded f.(fg_live) f.(fg_status)) f.(fg_last_slot) f.(fg_announced) else f.
Fixpoint run (ticks : Z) (ts : list ((Live -> Live) * TickInput)) f : Forging * list Tick :=
  match ts with
  | [] => (f, [])
  | (meanwhile, t) :: ts =>
      let f := at_live (meanwhile f.(fg_live)) f in
      match tick t (wake (ticks + 1) f) with
      | (f, Panics) => (f, [Panics])
      | (f, Waits) => (f, [Waits])
      | (f, o) => let '(f, os) := run (ticks + 1) ts f in (f, o :: os)
      end
  end.

(** ** Handing the block out *)

(** How one legacy peer takes the block. *)
Definition delivered (height : Z) (r : result PostBlockResponse string) : bool :=
  match r with
  | Ok r => r.(ps_status) || (negb (r.(ps_height) + 1 <? height) && (height <=? r.(ps_height)))
  | Err _ => false
  end.
Definition broadcast_peers (now : Z) l : list string :=
  best_peers now (Nat.max opts.(fo_broadcast_fanout) (alive now l.(lv_table))) l.(lv_table).
Definition broadcast (now height : Z) (answers : list (string * result PostBlockResponse string)) f : Forging :=
  let l := foldl (fun l a => match a.2 with Err _ => on_table (record_failure now a.1) l | Ok _ => l end) f.(fg_live) answers in
  let accepted := Z.of_nat (length (List.filter (fun a => delivered height a.2) answers)) in
  let status := f.(fg_status) in
  mkForgingState l
    (match status.(fs_last_forged) with
     | Some last => if last.(fi_height) =? height
                    then mkForging status.(fs_delegates) status.(fs_next_slot) (Some (mkForged last.(fi_height) last.(fi_id) last.(fi_transactions) last.(fi_at_unix) accepted))
                           status.(fs_skipped) status.(fs_forged_count)
                    else status
     | None => status
     end) f.(fg_last_slot) f.(fg_announced).
End forger.
