(* ===== verification/ForgerFacts.v ===== *)
(** * What the forger promises

    A slot is used only on a tip that enough different peers report, the wait for them ends at its deadline, and no
    slot is used twice. *)

From S2P Require Import Prelude Floats Models Env Bytes Crypto Keys Config TxCodec BlockCodec BlockVerify Wallet Rules Round Tree Storage Chain Sync.
From S2P Require Import AntiSpam Mempool Intake Guard Builder PushServer NodePool PeerHealth IrohPeers CatchUp Live Forger.

Section facts.
Context `{E : Env} `{PO : PeerOrder} `{HO : HashOrder} `{SG : Signer}.
Variables (n : Network) (opts : ForgerOptions) (fmt_short : string -> string).
Implicit Types (l : Live) (views : list PeerView).

(** ** Votes *)

(** The views are answers that arrived, each to another of the probes that were asked. *)
Definition from_probes (asked : list Asked) (arrivals : list (nat * Reached)) (ks : list nat) views : Prop :=
  Forall2 (fun i v => asked !! i = Some (v.(pv_ip), v.(pv_iroh_id)) /\
                      exists ms path id, (i, Answered ms path v.(pv_height) id) ∈ arrivals /\ v.(pv_id) = ostr id) ks views.

Lemma network_view_probes enough now asked all arrivals : forall views l ks, (forall x, x ∈ arrivals -> x ∈ all) ->
  NoDup (ks ++ arrivals.*1) -> from_probes asked all ks views ->
  exists ks', NoDup ks' /\ from_probes asked all ks' (network_view enough now asked arrivals views l).1.
Proof.
  induction arrivals as [|[i r] arrivals IH]; intros views l ks Hall Hn Hf; cbn [network_view fmap list_fmap] in *.
  { exists ks. by rewrite app_nil_r in Hn. }
  assert (Hall' : forall x, x ∈ arrivals -> x ∈ all) by (intros x Hx; apply Hall; by right).
  assert (Hn' : NoDup ((ks ++ [i]) ++ arrivals.*1)) by (by rewrite <- app_assoc).
  assert (Hskip : NoDup (ks ++ arrivals.*1)).
  { eapply sublist_NoDup; [exact Hn|]. apply sublist_app; [done|]. by apply sublist_cons. }
  destruct (asked !! i) as [a|] eqn:Ha; [|by apply (IH views l ks)].
  destruct r as [ms path height mid| |]; [|by apply (IH _ _ ks)..].
  assert (Hf' : from_probes asked all (ks ++ [i]) (views ++ [mkView a.1 height (ostr mid) a.2])).
  { apply Forall2_app; [done|]. constructor; [|constructor]. split; [transitivity (Some a); [exact Ha|by destruct a]|].
    exists ms, path, mid. split; [apply Hall; by left|done]. }
  destruct (enough _ _); [|by apply (IH _ _ (ks ++ [i]))]. exists (ks ++ [i]). split; [|done].
  apply NoDup_app in Hn' as [H _]. done.
Qed.

(** What a look hears: whom it asks is settled before the answers come in, and it stops listening when they suffice. *)
Definition asked_at (k : Look) l : list Asked := probes opts fmt_short k.(lk_ck).(ck_now) 8 (k.(lk_pause) 0%nat l).
Definition views_at (k : Look) (tip : Block) l : list PeerView :=
  (network_view (quorum_now opts tip.(b_height) (ostr tip.(b_id))) k.(lk_ck).(ck_now) (asked_at k l) k.(lk_arrivals) []
     (k.(lk_pause) 1%nat (k.(lk_pause) 0%nat l))).1.

(** How many of [views] report exactly [tip]. *)
Definition same_tip (tip : Block) views : Z := count (fun v => (v.(pv_height) =? tip.(b_height)) && bool_decide (Some v.(pv_id) = tip.(b_id))) views.
(** Enough of them do. *)
Definition confirmed (tip : Block) views : Prop := needed_of opts (Z.of_nat (length views)) <= same_tip tip views.

(** What allows a block on [tip] at a look that starts in [l]: nobody answered and no share is asked for; or of the
    answers that arrived, each to another probe, enough report the tip, and nobody is above it; or fewer than a third
    are, and half of the slot has passed. *)
Definition allowed (mid_slot : Z) (k : Look) (tip : Block) l : Prop :=
  let views := views_at k tip l in
  (views = [] /\ f64_leb opts.(fo_quorum_share) (f64_of 0) = true) \/
  (views <> [] /\ (exists ks, NoDup ks /\ from_probes (asked_at k l) k.(lk_arrivals) ks views) /\ confirmed tip views /\
   (Forall (fun v => v.(pv_height) <= tip.(b_height)) views \/
    (opts.(fo_forge_over_minority) = true /\ mid_slot <= k.(lk_mid_at) /\
     3 * count (above tip.(b_height)) views < Z.of_nat (length views)))).

Lemma foldl_max_le (xs : list Z) a b : foldl Z.max a xs <= b -> a <= b /\ Forall (fun x => x <= b) xs.
Proof.
  revert a; induction xs as [|x xs IH]; intros a H; cbn in H; [done|]. apply IH in H as [H1 H2]. split; [lia|]. constructor; [lia|done].
Qed.

Lemma settle_views_confirms deadline mid_slot k tip views pulled failed l l' st t :
  settle_views n opts deadline mid_slot k tip views pulled failed l = (l', st, Some (Build t)) ->
  t = tip /\ confirmed tip views /\
  (Forall (fun v => v.(pv_height) <= tip.(b_height)) views \/
   (opts.(fo_forge_over_minority) = true /\ mid_slot <= k.(lk_mid_at) /\ 3 * count (above tip.(b_height)) views < Z.of_nat (length views))).
Proof.
  unfold settle_views. set (same := count _ views). set (needed := needed_of _ _).
  assert (Hc : needed <= same -> confirmed tip views) by done.
  destruct (_ <=? tip.(b_height)) eqn:Hmax; cbn [andb].
  - destruct (Z.leb_spec needed same) as [Hle|_].
    { intros [= _ _ <-]. split_and!; [done|by apply Hc|left]. apply Z.leb_le in Hmax. apply foldl_max_le in Hmax as [_ Hmax]. by rewrite Forall_fmap in Hmax. }
    match goal with |- context [let '(_, _) := ?x in _] => destruct x as [l1 moved] end. destruct moved; [done|]. destruct (_ && minority_rule _ _ _ _) eqn:Hm.
    { exfalso. repeat rewrite andb_true_iff in Hm. destruct Hm as [[[[_ H] _] _] _]. apply Z.ltb_lt in H. apply Z.leb_le in Hmax. lia. }
    by destruct (deadline <=? _).
  - match goal with |- context [let '(_, _) := ?x in _] => destruct x as [l1 moved] end. destruct moved; [done|]. destruct (_ && minority_rule _ _ _ _) eqn:Hm; [|by destruct (deadline <=? _)].
    intros [= _ _ <-]. rewrite !andb_true_iff in Hm. destruct Hm as [[[[Ho _] _] Hmid] Hr].
    unfold minority_rule in Hr. rewrite !andb_true_iff in Hr. destruct Hr as [[_ H2] H3].
    apply Z.ltb_lt in H2. apply Z.leb_le in H3, Hmid. split_and!; [done|by apply Hc|right]. split_and!; [done..|lia].
Qed.

(** The state in which the look [k] starts. *)
Inductive at_look (deadline mid_slot : Z) : list Look -> Z * Z -> Live -> Look -> Live -> Prop :=
| at_first k looks st l : at_look deadline mid_slot (k :: looks) st l k l
| at_next k looks st l st1 l1 k' l' : quorum_look n opts fmt_short deadline mid_slot k st l = (l1, st1, None) ->
    at_look deadline mid_slot looks st1 l1 k' l' -> at_look deadline mid_slot (k :: looks) st l k' l'.


(** However the share is set, a confirmed tip is reported by the minimum of peers. *)
Lemma confirmed_minimum tip views : confirmed tip views ->
  Z.max opts.(fo_min_quorum_peers) 1 <= same_tip tip views.
Proof. unfold confirmed, needed_of. lia. Qed.

(** ** The wait ends *)

Definition past (deadline : Z) (k : Look) : Prop := deadline <= k.(lk_pull_at) /\ deadline <= k.(lk_end_at).

Lemma look_past_decides deadline mid_slot k st l : past deadline k -> (quorum_look n opts fmt_short deadline mid_slot k st l).2 <> None.
Proof.
  intros [H1 H2]. unfold quorum_look. destruct (res_ok _) as [[tip|]|]; [|done..].
  destruct (network_view _ _ _ _ _ _) as [[|v views] l3]; [done|]. unfold settle_views. destruct (_ && (needed_of _ _ <=? _)); [done|].
  rewrite (proj2 (Z.ltb_ge (lk_pull_at k) deadline)) by done. rewrite andb_false_r. destruct (_ && minority_rule _ _ _ _); [done|].
  by rewrite (proj2 (Z.leb_le _ _) H2).
Qed.

(** The wait for the quorum ends: the first look after the deadline decides, whatever the peers answered and however
    often blocks were pulled before. *)
Theorem quorum_wait_ends deadline mid_slot looks st l (H : Exists (past deadline) looks) :
  exists l' d, wait_for_quorum n opts fmt_short deadline mid_slot looks st l = (l', Some d).
Proof.
  revert st l; induction H as [k looks Hk|k looks _ IH]; intros st l; cbn [wait_for_quorum].
  - pose proof (look_past_decides deadline mid_slot k st l Hk) as Hd.
    destruct (quorum_look _ _ _ _ _ _ _ _) as [[l1 st1] [d|]]; [eauto|done].
  - destruct (quorum_look _ _ _ _ _ _ _ _) as [[l1 st1] [d|]]; [eauto|apply IH].
Qed.
End facts.

(** ** A slot is used once *)

Section slots.
Context `{E : Env} `{PO : PeerOrder} `{HO : HashOrder} `{SG : Signer}.
Variables (n : Network) (gc : DoubleForgeGuardConfig) (own_keys : gset string) (mc : MempoolConfig) (json_len : Transaction -> Z).
Variables (keys : list KeyPair) (pq_keys : list PqKeyPair) (opts : ForgerOptions) (fmt_short : string -> string).
Implicit Types (f : Forging).
#[local] Abbreviation tick := (Forger.tick n gc own_keys mc json_len keys pq_keys opts fmt_short).
#[local] Abbreviation run := (Forger.run n gc own_keys mc json_len keys pq_keys opts fmt_short).

Lemma forged_head k pq previous timestamp txs block :
  forge_block_with n k pq previous timestamp txs = Ok block ->
  block.(b_timestamp) = timestamp /\ block.(b_height) = as_u64 (previous.(b_height) + 1).
Proof.
  unfold forge_block_with. intros H. apply rbind_ok_inv in H as (sizes & _ & H). apply rbind_ok_inv in H as (ph & _ & H).
  apply rbind_ok_inv in H as (hash & _ & H). apply rbind_ok_inv in H as (sig & _ & H). apply rbind_ok_inv in H as (b1 & H1 & H).
  apply rbind_ok_inv in H as (bid & _ & H). apply Ok_inj in H as <-. cbn [b_timestamp b_height b_set_transactions b_set_id].
  destruct pq as [pq|]; [|by apply Ok_inj in H1 as <-]. destruct (_ && _); [|by apply Ok_inj in H1 as <-].
  apply rbind_ok_inv in H1 as (m & _ & H1). apply rbind_ok_inv in H1 as (s & _ & H1). by apply Ok_inj in H1 as <-.
Qed.

Lemma forge_and_apply_slot t k name slot next bt pq tip f :
  let r := forge_and_apply n gc own_keys mc json_len t k name slot next bt pq tip f in
  r.1.(fg_last_slot) = f.(fg_last_slot) /\ forall b, r.2 = Forges b -> b.(b_timestamp) = slot_start slot bt.
Proof.
  unfold forge_and_apply. destruct (rbind _ _) as [block|e] eqn:Hb; [|done].
  apply rbind_ok_inv in Hb as (txs & _ & Hb). apply forged_head in Hb as [Hb _].
  destruct (apply _ _ _ _ _ _) as [l [t'|e]]; [|done]. cbn [fst snd fg_last_slot]. split; [done|]. by intros b [= <-].
Qed.

Lemma forge_slot_slot t k expected name slot next bt f :
  let r := forge_slot n gc own_keys mc json_len pq_keys opts fmt_short t k expected name slot next bt f in
  r.1.(fg_last_slot) = f.(fg_last_slot) /\ forall b, r.2 = Forges b -> b.(b_timestamp) = slot_start slot bt.
Proof.
  unfold forge_slot. destruct (wait_for_quorum _ _ _ _ _ _ _ _) as [l [[tip|reason]|]]; [|done..].
  destruct (slot <=? _); [done|]. destruct (block_versions_allowed n next) as [v1 v0]. destruct (_ && negb v0); [done|].
  exact (forge_and_apply_slot t k name slot next bt _ tip (at_live l f)).
Qed.

Lemma announce_next_slot slot bt pk f : (announce_next n keys slot bt pk f).(fg_last_slot) = f.(fg_last_slot) /\
  (announce_next n keys slot bt pk f).(fg_live) = f.(fg_live).
Proof. unfold announce_next. destruct (_ =? _); [done|]. by destruct (key_of keys pk). Qed.

Lemma wake_slot ticks f : (wake n keys pq_keys ticks f).(fg_last_slot) = f.(fg_last_slot).
Proof. unfold wake. by destruct (_ && _). Qed.

(** What a tick does to the slot it remembers. *)
Lemma tick_slot bt t f (Hbt : forall h, (milestone n h).(m_blocktime) = bt) :
  let slot := slot_number t.(ti_now) bt in
  let r := tick t f in
  (r.1.(fg_last_slot) = f.(fg_last_slot) \/ r.1.(fg_last_slot) = slot) /\
  forall b, r.2 = Forges b -> f.(fg_last_slot) <> slot /\ r.1.(fg_last_slot) = slot /\ b.(b_timestamp) = slot_start slot bt.
Proof.
  unfold Forger.tick. destruct (get_last_block n _) as [[tip|]|]; [|split; [by left|done]..]. rewrite Hbt.
  set (slot := slot_number (ti_now t) bt). destruct (forging_order _ _) as [[|d0 order]|]; [split; [by left|done]| |split; [by right|done]].
  destruct ((d0 :: order) !! _) as [next|]; [|split; [by left|done]].
  set (f1 := announce_next _ _ _ _ _ _). assert (Hf1 : f1.(fg_last_slot) = f.(fg_last_slot)) by apply announce_next_slot.
  destruct ((slot =? fg_last_slot f1) || _) eqn:Hg; [split; [by left|done]|]. apply orb_false_iff in Hg as [Hg _]. apply Z.eqb_neq in Hg.
  destruct ((d0 :: order) !! _) as [d|]; [|split; [by left|done]]. destruct (key_of keys _) as [k|]; [|split; [by left|done]].
  unfold own_slot. destruct (take_slot _ _ _ _ _ _) as [[reason|] g]; [split; [by right|done]|].
  match goal with |- context [forge_slot _ _ _ _ _ _ _ _ ?t ?k ?e ?nm ?sl ?nx ?b ?f2] => pose proof (forge_slot_slot t k e nm sl nx b f2) as [H1 H2] end.
  split; [by right|]. intros b Hb. rewrite <- Hf1. split_and!; [congruence|exact H1|by apply H2].
Qed.

Definition forged_times (os : list Tick) : list Z := omap (fun o => match o with Forges b => Some b.(b_timestamp) | _ => None end) os.

Lemma slot_start_mono bt a b (Hb : 1 <= bt) (Hn : in_u32 b) (Ha : 0 <= a) :
  slot_number a bt < slot_number b bt -> slot_start (slot_number a bt) bt < slot_start (slot_number b bt) bt.
Proof.
  unfold slot_start, slot_number. intros H. pose proof (Z.div_mod b bt ltac:(lia)). pose proof (Z.mod_pos_bound b bt ltac:(lia)).
  assert (0 <= a / bt) by (apply Z.div_pos; lia). assert (Hid : forall x, 0 <= x <= b / bt -> as_u32 (as_u64 (x * bt)) = x * bt).
  { intros x Hx. assert (0 <= x * bt <= b) by nia. rewrite as_u64_id by (bounds; lia). rewrite as_u32_id by (bounds; lia). done. }
  rewrite !Hid by lia. nia.
Qed.

(** C22: the forger never uses a slot twice.  While the clock does not run backwards, the blocks a run of the loop forges lie
    in later and later slots, whatever happens to the chain, the peers, the guard and the pool in between. *)
Theorem one_block_per_slot bt ticks ts f
    (Hbt : forall h, (milestone n h).(m_blocktime) = bt) (Hb : 1 <= bt)
    (Hc : StronglySorted (fun x y => x.2.(ti_now) <= y.2.(ti_now)) ts) (Hr : Forall (fun x => in_u32 x.2.(ti_now)) ts)
    (Hl : Forall (fun x => f.(fg_last_slot) <= slot_number x.2.(ti_now) bt) ts) :
  StronglySorted Z.lt (forged_times (run ticks ts f).2).
Proof.
  enough (H : StronglySorted Z.lt (forged_times (run ticks ts f).2) /\
    Forall (fun x => exists y, y ∈ ts /\ x = slot_start (slot_number y.2.(ti_now) bt) bt /\ f.(fg_last_slot) < slot_number y.2.(ti_now) bt)
      (forged_times (run ticks ts f).2)) by apply H.
  revert ticks f Hl; induction Hc as [|[meanwhile t] ts _ IH Hle]; intros ticks f Hl; cbn [Forger.run]; [by split; constructor|].
  apply Forall_cons in Hr as [Hr1 Hr]. apply Forall_cons in Hl as [Hl1 Hl]. cbn [snd] in Hr1, Hl1.
  set (f0 := wake _ _ _ _ _). assert (Hf0 : f0.(fg_last_slot) = f.(fg_last_slot)) by (unfold f0; by rewrite wake_slot).
  pose proof (tick_slot bt t f0 Hbt) as [Hlast Hforge]. destruct (tick t f0) as [f1 o]. cbn [fst snd] in Hlast, Hforge. rewrite Hf0 in Hlast.
  set (slot := slot_number (ti_now t) bt) in *.
  assert (Hl' : Forall (fun x => fg_last_slot f1 <= slot_number x.2.(ti_now) bt) ts).
  { rewrite Forall_forall in Hl, Hle |- *. intros x Hx. destruct Hlast as [->| ->]; [by apply Hl|]. apply Z.div_le_mono; [lia|]. by apply (Hle x). }
  destruct (IH Hr (ticks + 1) f1 Hl') as [Hs Hin].
  assert (Hin' : Forall (fun x => exists y, y ∈ (meanwhile, t) :: ts /\ x = slot_start (slot_number y.2.(ti_now) bt) bt
      /\ f.(fg_last_slot) < slot_number y.2.(ti_now) bt) (forged_times (run (ticks + 1) ts f1).2)).
  { eapply Forall_impl; [exact Hin|]. intros x (y & Hy & Hx & Hlt). exists y. split_and!; [by right|done|].
    destruct Hlast as [He|He]; rewrite He in Hlt; lia. }
  destruct (run (ticks + 1) ts f1) as [f2 os]. cbn [snd] in *. destruct o as [| |b| | |]; cbn [snd]; try (by split; [done|done]); try (by split; constructor).
  destruct (Hforge b eq_refl) as (Hne & Hf1 & Hts). rewrite Hf0 in Hne. cbn [forged_times omap list_omap]. fold (forged_times os). rewrite Hts. split; constructor; try done.
  - rewrite Forall_forall. rewrite Forall_forall in Hin. intros x Hx. apply Hin in Hx as (y & Hy & -> & Hlt). rewrite Hf1 in Hlt.
    apply slot_start_mono; [done|exact (proj1 (Forall_forall _ _) Hr y Hy)|bounds; lia|done].
  - exists (meanwhile, t). split_and!; [by left|done|]. cbn. fold slot. lia.
Qed.

(** A round with fewer delegates than the milestone names ends the forger.  The order of the round is indexed with the
    slot modulo the milestone's number: at the first slot whose successor falls behind the end of the order, the task
    panics and no later tick is run, whoever owns the slots. *)
Theorem short_round_stops_forger ticks meanwhile t ts f tip order :
  let l := meanwhile f.(fg_live) in
  let m := milestone n (as_u64 (tip.(b_height) + 1)) in
  forall (Ht : get_last_block n l.(lv_store) = Ok (Some tip))
    (Ho : forging_order l.(lv_store) (round_info (as_u64 (tip.(b_height) + 1)) m.(m_active_delegates)).(ri_round) = Some order)
    (Hne : order <> [])
    (Hs : Z.of_nat (length order) <= (slot_number t.(ti_now) m.(m_blocktime) + 1) mod m.(m_active_delegates)),
  exists f', run ticks ((meanwhile, t) :: ts) f = (f', [Panics]).
Proof.
  intros l m Ht Ho Hne Hs. cbn [Forger.run]. set (f0 := wake _ _ _ _ _).
  assert (Hl : f0.(fg_live) = l) by (unfold f0, wake; by destruct (_ && _)).
  unfold Forger.tick. rewrite Hl, Ht. cbv zeta. fold m. rewrite Ho. destruct order as [|d order]; [done|].
  rewrite (lookup_ge_None_2 (d :: order)) by lia. eauto.
Qed.
End slots.
