(* ===== verification/Node.v ===== *)
(** * The node as a whole

    The tasks of a running node on the state they share: each handler of [Live], [FollowLive], [Watchdog], [Forger],
    [CatchUp] and [Finality] is a step of the process ([node_step]), with whatever the others do while it waits.  The
    process refines [Ledger.ledger_step]: no path changes the chain in another way than those four, so the invariants
    proved there hold of the node.  Of the lists of blocks a peer sends, one with the greatest [u64] as a height is
    left out ([low]): no chain gets there. *)

From S2P Require Import Prelude Floats Models Env Bytes Crypto Keys Config TxCodec BlockCodec BlockVerify Wallet Rules Round Tree.
From S2P Require Import Storage Chain Sync AntiSpam Mempool Intake Guard Builder PushServer NodePool PeerHealth IrohPeers CatchUp CatchUpFacts.
From S2P Require Import Finality FinalityFacts Ledger Live FollowLive Watchdog Forger ForgerFacts.

Definition low_blocks {X} (r : result (list Block) X) : Prop := match r with Ok bs => Forall low bs | Err _ => True end.

(** ** Heights that were decoded *)

Section heights.
Context `{E : Env}.
Variable n : Network.

Lemma r_u32_range r v r' : r_u32_le r = Ok (v, r') -> in_u32 v.
Proof.
  unfold r_u32_le, r_le, r_bytes. intros H. apply rbind_ok_inv in H as ([b r1] & Hb & H). injection H as <- _.
  pose proof (le_value_range b) as Hr. assert (length b = 4%nat) as Hl.
  { destruct (_ <? _)%nat eqn:Hlt in Hb; [done|]. injection Hb as <- _. rewrite length_take, length_drop. apply Nat.ltb_ge in Hlt. unfold r_remaining in Hlt. lia. }
  rewrite Hl in Hr. bounds. lia.
Qed.
Lemma u32_low b : in_u32 b.(b_height) -> low b.
Proof. unfold low. bounds. lia. Qed.

Lemma parse_header_height b strict block k : parse_header b n strict = Ok (block, k) -> in_u32 block.(b_height).
Proof.
  unfold parse_header. intros H. apply rbind_ok_inv in H as ([ver r1] & _ & H). apply rbind_ok_inv in H as ([ts r2] & _ & H).
  apply rbind_ok_inv in H as ([height r3] & Hh & H). apply r_u32_range in Hh. do 10 (apply rbind_ok_inv in H as ([? ?] & _ & H)).
  destruct (strict && _); [done|]. apply rbind_ok_inv in H as (id & _ & H). by injection H as <- _.
Qed.

Lemma decode_transactions_height fuel b : forall pos seq block block', decode_transactions fuel b pos seq block = Ok block' -> block'.(b_height) = block.(b_height).
Proof.
  induction fuel as [|fuel IH]; intros pos seq block block' H; cbn [decode_transactions] in H; [by injection H as <-|].
  apply rbind_ok_inv in H as ([[raw p]|] & _ & H); [|by injection H as <-]. apply rbind_ok_inv in H as (tx & _ & H). by apply IH in H.
Qed.

Lemma decode_block_height b block : decode_block b n = Ok block -> in_u32 block.(b_height).
Proof.
  unfold decode_block, deserialize_block_header, rmap. intros H. apply rbind_ok_inv in H as (f & _ & H). apply rbind_ok_inv in H as ([h p] & _ & H).
  apply rbind_ok_inv in H as (b1 & Hb & H). apply rbind_ok_inv in Hb as ([b2 k] & Hb & Hb2). injection Hb2 as <-. apply parse_header_height in Hb.
  apply decode_transactions_height in H. by rewrite H.
Qed.

Lemma stored_low s h b : get_block_by_height n s h = Ok (Some b) -> in_u32 b.(b_height).
Proof.
  unfold get_block_by_height. destruct (_ !! _); [|done]. intros H. apply rbind_ok_inv in H as (b' & Hb & H). injection H as <-. by eapply decode_block_height.
Qed.

Lemma tip_low s b : get_last_block n s = Ok (Some b) -> in_u32 b.(b_height).
Proof. unfold get_last_block. destruct (_ =? 0); [done|]. apply stored_low. Qed.

Lemma read_transactions_height lens bytes : forall off seq block block', read_transactions lens bytes off seq block = Ok block' -> block'.(b_height) = block.(b_height).
Proof.
  induction lens as [|len lens IH]; intros off seq block block' H; cbn [read_transactions] in H; [by injection H as <-|].
  apply rbind_ok_inv in H as (raw & _ & H). apply rbind_ok_inv in H as (tx & _ & H). by apply IH in H.
Qed.

Lemma pushed_low bytes block : decode_full_block n bytes = Ok block -> low block.
Proof.
  unfold decode_full_block, deserialize_block_header_prefix. intros H. apply rbind_ok_inv in H as ([b k] & Hb & H). destruct (_ || _); [done|].
  apply rbind_ok_inv in H as ([lens off] & _ & H). apply read_transactions_height in H. apply u32_low. rewrite H. by eapply parse_header_height.
Qed.
End heights.

Section node.
Context `{E : Env} `{PO : PeerOrder} `{HO : HashOrder} `{SG : Signer}.
Variables (n : Network) (gc : DoubleForgeGuardConfig) (own_keys : gset string) (mc : MempoolConfig) (json_len : Transaction -> Z) (verify : bool).
Variables (keys : list KeyPair) (pq_keys : list PqKeyPair) (opts : ForgerOptions) (fmt_short : string -> string) (parallel : Z).
Implicit Types (l : Live) (ck : Clocks) (pause : nat -> Live -> Live).

(** ** The handlers *)

Definition reaches l l' : Prop := rtc (ledger_step n) l.(lv_store) l'.(lv_store).
Definition calm pause : Prop := forall k l, reaches l (pause k l).

#[local] Instance reaches_preorder : PreOrder reaches.
Proof. split; [intros l; apply rtc_refl|intros l1 l2 l3 H1 H2; unfold reaches in *; by etrans]. Qed.

Lemma reaches_same l l' : l'.(lv_store) = l.(lv_store) -> reaches l l'.
Proof. unfold reaches. by intros ->. Qed.
Lemma reaches_step l l' : ledger_step n l.(lv_store) l'.(lv_store) -> reaches l l'.
Proof. apply rtc_once. Qed.

Lemma low_one b : low b -> Forall low [b].
Proof. intros H. constructor; [done|constructor]. Qed.

Lemma apply_reaches v ck blocks tip l : Forall low blocks -> reaches l (apply n v ck blocks tip l).1.
Proof.
  intros Hl. unfold apply. set (l1 := match future_block _ _ _ _ with Some _ => _ | None => l end).
  assert (H1 : lv_store l1 = lv_store l) by (unfold l1; by destruct (future_block _ _ _ _) as [[b early]|]).
  apply reaches_step. rewrite <- H1.
  pose proof (ls_accept n v (lv_undo_enabled l1) (ck_epoch ck) (ck_unix_ms ck) blocks tip (lv_store l1) Hl) as Hs.
  destruct (sync_apply_blocks _ _ _ _ _ _ _ _) as [[s []] [t|]]; exact Hs.
Qed.

Lemma pull_gap_reaches v pause ck ip target peer l : calm pause -> (forall a b, low_blocks (peer a b).(rp_blocks)) ->
  reaches l (pull_gap_from n v pause ck ip target peer l).1.
Proof.
  intros Hp Hl. unfold pull_gap_from. destruct (tip_of _ _) as [tip|]; [|done]. destruct (_ <=? _); [done|]. set (want := as_u32 _).
  specialize (Hl (tip_height tip) want). transitivity (pause 0%nat l); [apply Hp|].
  destruct (Live.fetch_range _ _ _) as [t r] eqn:Hf. set (l1 := on_table _ _). transitivity l1; [by apply reaches_same|].
  assert (Hr : low_blocks r) by (unfold Live.fetch_range in Hf; destruct (rp_blocks _) as [[|]|]; injection Hf as <- <-; done).
  destruct r as [blocks|]; [|done]. transitivity (pause 1%nat l1); [apply Hp|]. by apply apply_reaches.
Qed.

Definition low_iroh (peer : Z -> Z -> IrohReply) : Prop := forall a b, match (peer a b).(ir_blocks) with Ok (Some bs) => Forall low bs | _ => True end.

Lemma fill_rounds_reaches v rounds : forall k pause ck id target peer tip l, calm pause -> low_iroh peer ->
  reaches l (fill_rounds n v rounds k pause ck id target peer tip l).1.
Proof.
  induction rounds as [|rounds IH]; intros k pause ck id target peer tip l Hp Hl; cbn [fill_rounds]; [done|]. destruct (_ <=? _); [done|].
  specialize (Hl (tip_height tip) MAX_BLOCKS_PER_REQUEST) as Hl1. transitivity (pause k l); [apply Hp|]. destruct (fetch_blocks _ _ _) as [m r] eqn:Hf.
  set (l1 := on_iroh _ _). transitivity l1; [by apply reaches_same|].
  assert (Hr : low_blocks r) by (unfold fetch_blocks in Hf; destruct (ir_blocks _) as [[bs|]|]; injection Hf as <- <-; done).
  destruct r as [[|b bs]|]; [done| |done]. transitivity (pause (S k) l1); [apply Hp|].
  pose proof (apply_reaches v ck (b :: bs) tip (pause (S k) l1) Hr) as Ha.
  destruct (apply _ _ _ _ _ _) as [l2 [tip2|e]]; [|exact Ha]. transitivity l2; [exact Ha|by apply IH].
Qed.

Lemma fill_gap_reaches v pause ck id target peer l : calm pause -> low_iroh peer -> reaches l (fill_gap_from n v pause ck id target peer l).1.
Proof. intros Hp Hl. unfold fill_gap_from. destruct (tip_of _ _); [|done]. by apply fill_rounds_reaches. Qed.

Lemma rival_reaches ck peer ours theirs l : reaches l (rival n gc own_keys ck peer ours theirs l).1.
Proof.
  unfold rival. set (l1 := tell_guard _ _ _ _ l). pose proof (ls_swap n (lv_undo_enabled l1) ours theirs (lv_store l1)) as H.
  destruct (prefer_earlier_slot _ _ _ _ _) as [s b]. apply reaches_step. exact H.
Qed.

Lemma on_seen_store f l : (on_seen f l).(lv_store) = l.(lv_store).
Proof. unfold on_seen. by destruct (f _). Qed.

Lemma tip_of_height s tip : tip_of n s = Ok tip -> in_u32 tip.(tip_height).
Proof.
  unfold tip_of. destruct (get_last_block n s) as [[b|]|] eqn:Hb; cbn [rbind]; [| |done]; intros [= <-]; cbn; [by eapply tip_low|bounds; lia].
Qed.

Lemma on_block_reaches pause ck from id block peer l : calm pause -> low_iroh peer ->
  reaches l (on_block n gc own_keys verify pause ck from id block peer l).1.
Proof.
  intros Hp Hl. unfold on_block. destruct (tip_of _ _) as [tip|] eqn:Ht; [|done]. apply tip_of_height in Ht. destruct (_ <=? _).
  { destruct (_ <=? _); [|done]. destruct (get_block_by_height _ _ _) as [[ours|]|]; [|done..]. destruct (same_id _ _); [done|apply rival_reaches]. }
  destruct (Z.eqb_spec (b_height block) (as_u64 (tip_height tip + 1))) as [Hb|_].
  - assert (Hlow : low block) by (unfold low; rewrite Hb, as_u64_id; bounds; lia).
    transitivity (pause 0%nat l); [apply Hp|]. pose proof (apply_reaches verify ck [block] tip (pause 0%nat l) (low_one block Hlow)) as Ha.
    destruct (apply _ _ _ _ _ _) as [l2 [tip2|e]]; [|exact Ha]. transitivity l2; [exact Ha|]. apply reaches_same. cbn [fst]. by rewrite on_seen_store.
  - pose proof (fill_gap_reaches verify pause ck id (b_height block) peer l Hp Hl) as Ha.
    destruct (fill_gap_from _ _ _ _ _ _ _ _) as [l2 [tip2|e]]; [|exact Ha]. transitivity l2; [exact Ha|]. apply reaches_same. cbn [fst]. by rewrite on_seen_store.
Qed.

Lemma push_known_reaches ck ip block tip l : reaches l (push_known n gc own_keys ck ip block tip l).1.
Proof.
  unfold push_known. destruct (get_block_by_height _ _ _) as [[ours|]|]; [|done..]. destruct (negb _ && _); [|done].
  pose proof (rival_reaches ck ip ours block l) as Hr. by destruct (rival _ _ _ _ _ _ _ _) as [l1 []].
Qed.

Lemma push_apply_reaches pause ck ip block tip l : calm pause -> low block -> reaches l (push_apply n gc own_keys mc json_len verify pause ck ip block tip l).1.
Proof.
  intros Hp Hb. unfold push_apply. transitivity (pause 2%nat l); [apply Hp|].
  pose proof (apply_reaches verify ck [block] tip (pause 2%nat l) (low_one block Hb)) as Ha.
  destruct (apply _ _ _ _ _ _) as [l2 [tip2|[]]]; exact Ha.
Qed.

Lemma post_block_reaches pause ck ip bytes peer l : calm pause -> (forall a b, low_blocks (peer a b).(rp_blocks)) ->
  reaches l (post_block n gc own_keys mc json_len verify pause ck ip bytes peer l).1.
Proof.
  intros Hp Hl. unfold post_block. destruct (decode_full_block n bytes) as [block|] eqn:Hd; [|done]. apply pushed_low in Hd.
  destruct (tip_of _ _) as [tip|]; [|done]. destruct (_ <=? _); [apply push_known_reaches|]. set (l1 := if _ && _ then _ else l).
  assert (H1 : reaches l l1) by (unfold l1; destruct (_ && _); [by apply pull_gap_reaches|done]). transitivity l1; [done|]. clearbody l1.
  destruct (tip_of _ _) as [tip1|]; [|done]. destruct (_ <=? _); [done|]. destruct (_ || _); [done|]. by apply push_apply_reaches.
Qed.

(** ** Following *)

Definition turn_ok (t : FollowLive.Turn) : Prop := calm t.(tn_pause) /\ forall a b, low_blocks (t.(tn_blocks) a b).

Lemma follow_fork_reaches t ss first tip f : turn_ok t -> reaches f.(fo_live) (follow_fork n t ss first tip f).(fo_live).
Proof.
  intros [Hp _]. unfold follow_fork. set (l1 := tn_pause t 1%nat _). transitivity l1; [apply Hp|]. set (target := Z.max _ _).
  pose proof (ls_rollback n target (lv_store l1)) as H. destruct (rollback_to n (lv_store l1) target) as [s []]; apply reaches_step; exact H.
Qed.

Lemma follow_apply_reaches t ss blocks last tip f : turn_ok t -> Forall low blocks ->
  reaches f.(fo_live) (follow_apply n gc own_keys verify t ss blocks last tip f).(fo_live).
Proof.
  intros [Hp _] Hl. unfold follow_apply. set (l1 := tn_pause t 1%nat _). transitivity l1; [apply Hp|].
  pose proof (apply_reaches verify (tn_ck t) blocks tip l1 Hl) as Ha. destruct (apply _ _ _ _ _ _) as [l2 [t2|[]]]; exact Ha.
Qed.

Lemma take_blocks_reaches t ss tip f : turn_ok t -> reaches f.(fo_live) (take_blocks n gc own_keys verify t ss tip f).1.(fo_live).
Proof.
  intros Ht. pose proof Ht as [Hp Hb]. specialize (Hb (tip_height tip) MAX_BLOCKS_PER_REQUEST). unfold take_blocks.
  transitivity (tn_pause t 0%nat (fo_live f)); [apply Hp|].
  destruct (tn_blocks t _ _) as [[|first blocks]|]; [done| |done]. cbn [low_blocks] in Hb. set (f1 := set_live _ _).
  change (reaches (fo_live f1) (match tip_of n (lv_store (tn_pause t 0%nat (fo_live f))) with
    | Err e => (f1, Some (Broken e)) | Ok current => if negb (current.(tip_height) =? tip.(tip_height)) then (set_session (Some (fetched true ss)) f1, None)
      else if forked tip (first :: blocks) then (follow_fork n t ss first.(b_height) tip.(tip_height) f1, None)
      else (follow_apply n gc own_keys verify t ss (first :: blocks) (List.last (first :: blocks) first) tip f1, None) end).1.(fo_live)).
  destruct (tip_of _ _) as [current|]; [|done]. destruct (negb _); [done|]. destruct (forked _ _); [by apply follow_fork_reaches|by apply follow_apply_reaches].
Qed.

Lemma follow_turn_reaches t f : turn_ok t -> reaches f.(fo_live) (follow_turn n gc own_keys verify t f).1.(fo_live).
Proof.
  intros Ht. unfold follow_turn. destruct (fo_session f) as [ss|].
  - unfold poll. destruct (tip_of _ _) as [tip|]; [|done]. destruct (tn_status t) as [state|text]; [|destruct (_ || _); by apply reaches_same].
    destruct (lagging_peer _ _ _ _ _ _) as [lagging since]. destruct lagging; [by apply reaches_same|]. destruct (_ <=? _); [by apply reaches_same|]. destruct (_ <? _); [by apply reaches_same|].
    set (f1 := set_session _ _). transitivity (fo_live f1); [by apply reaches_same|by apply take_blocks_reaches].
  - cbn [fst]. unfold connect. destruct (best_for_blocks _ _ _) as [|ip ips].
    + destruct (unpark_blocks _ _) as [table unparked]. by apply reaches_same.
    + destruct (tn_connected t); by apply reaches_same.
Qed.

(** ** The watchdogs *)

Definition fills_ok (fills : string -> (nat -> Live -> Live) * (Z -> Z -> IrohReply)) : Prop := forall id, calm (fills id).1 /\ low_iroh (fills id).2.

Lemma watch_pull_reaches ck tip fills peers : forall l, fills_ok fills -> reaches l (watch_pull n verify fmt_short ck tip fills peers l).
Proof.
  induction peers as [|p peers IH]; intros l Hf; cbn [watch_pull]; [done|]. destruct (Hf (ip_id p)) as [Hp Hl]. destruct (fills (ip_id p)) as [pause peer].
  pose proof (fill_gap_reaches verify pause ck (ip_id p) (ip_height p) peer l Hp Hl) as Ha.
  destruct (fill_gap_from _ _ _ _ _ _ _ _) as [l1 [t|e]]; cbn [fst] in Ha; [destruct (_ <? _); [done|]|].
  - transitivity l1; [exact Ha|by apply IH].
  - transitivity l1; [exact Ha|]. set (l2 := on_stall _ l1). transitivity l2; [by apply reaches_same|by apply IH].
Qed.

Lemma watch_recover_reaches ck tip answers pause fills w l : calm pause -> fills_ok fills ->
  reaches l (watch_recover n verify fmt_short ck tip answers pause fills w l).1.2.
Proof.
  intros Hp Hf. unfold watch_recover. set (l1 := pause 0%nat l). transitivity l1; [apply Hp|].
  destruct (branch_check _ _ _ _) as [[[ours theirs] ip]|].
  - destruct (String.eqb ours theirs); [set (l2 := on_stall _ l1); transitivity l2; [by apply reaches_same|by apply watch_pull_reaches]|].
    set (l2 := on_stall _ l1). set (target := rollback_target _ _ _). set (l3 := pause 1%nat l2). transitivity l3; [transitivity l2; [by apply reaches_same|apply Hp]|].
    pose proof (ls_rollback n target (lv_store l3)) as H. destruct (rollback_to n (lv_store l3) target) as [s [t|e]]; cbn [fst snd] in H |- *; [by apply reaches_step|].
    set (l4 := on_stall _ _). transitivity l4; [by apply reaches_step|by apply watch_pull_reaches].
  - set (l2 := on_stall _ l1). transitivity l2; [by apply reaches_same|by apply watch_pull_reaches].
Qed.

Lemma watch_turn_reaches ck blocktime answers pause fills w l : calm pause -> fills_ok fills ->
  reaches l (watch_turn n verify fmt_short ck blocktime answers pause fills w l).2.
Proof.
  intros Hp Hf. unfold watch_turn. destruct (stall_check _ _ _ _ _ _) as [[fired last_move] stall]. set (w1 := mkWatch last_move _ _ _ _ _ _).
  set (l1 := on_stall _ l). destruct (watch_split _ _ w1 l1) as [w2 l2] eqn:H2.
  assert (E2 : lv_store l2 = lv_store l).
  { unfold watch_split in H2. destruct (legacy_split _ _) as [[behind best]|]; injection H2 as _ <-; [by destruct (_ && _)|done]. }
  destruct (watch_unpark _ _ _ w2 l2) as [w3 l3] eqn:H3.
  assert (E3 : lv_store l3 = lv_store l).
  { unfold watch_unpark in H3. rewrite <- E2. destruct (_ && _); [by injection H3 as _ <-|]. destruct (negb _); by injection H3 as _ <-. }
  assert (H4 : reaches l (if sl_stalled stall && negb fired then watch_recover n verify fmt_short ck (get_last_height (lv_store l)) answers pause fills w3 l3 else (w3, l3, false)).1.2).
  { transitivity l3; [by apply reaches_same|]. destruct (_ && _); [by apply watch_recover_reaches|done]. }
  destruct (if _ && _ then _ else _) as [[w4 l4] again]. cbn [fst snd] in H4. destruct again; [done|]. transitivity l4; [done|]. apply reaches_same.
  unfold watch_end. destruct (wa_was_stalled w4 && _); [|done]. by destruct (default _ _) as [h0 t0].
Qed.

Lemma orphan_reaches now height id answer pause l : calm pause -> reaches l (orphan_check n now height id answer pause l).
Proof.
  intros Hp. unfold orphan_check. destruct (res_ok _) as [[b|]|]; [|done..]. destruct (bool_decide _); [|done].
  destruct (poll_orphan _ _) as [same other]. set (l1 := pause 0%nat l). transitivity l1; [apply Hp|]. destruct (_ && _); [|done].
  set (l2 := pause 1%nat l1). transitivity l2; [apply Hp|]. apply reaches_step. apply ls_rollback.
Qed.

(** ** The forger *)

Record look_ok (k : Look) : Prop := {
  lo_calm : calm k.(lk_pause);
  lo_pulls : forall ip, calm (k.(lk_pulls) ip).1 /\ forall a b, low_blocks ((k.(lk_pulls) ip).2 a b).(rp_blocks);
  lo_fills : forall id, calm (k.(lk_fills) id).1 /\ match (k.(lk_fills) id).2 with Some peer => low_iroh peer | None => True end
}.

Lemma pull_from_reaches k target v l : look_ok k -> reaches l (pull_from n opts k target v l).1.
Proof.
  intros [_ Hp Hf]. unfold pull_from. destruct (pv_iroh_id v) as [id|].
  - destruct (fo_iroh opts); [|done]. specialize (Hf id). destruct (lk_fills k id) as [pause [peer|]]; destruct Hf as [Hc Hl].
    + pose proof (fill_gap_reaches true pause (lk_ck k) id target peer l Hc Hl) as H. by destruct (fill_gap_from _ _ _ _ _ _ _ _).
    + apply Hc.
  - specialize (Hp (pv_ip v)). destruct (lk_pulls k (pv_ip v)) as [pause peer]. destruct Hp as [Hc Hl].
    pose proof (pull_gap_reaches true pause (lk_ck k) (pv_ip v) target peer l Hc Hl) as H. by destruct (pull_gap_from _ _ _ _ _ _ _ _).
Qed.

Lemma pull_each_reaches k tip_h target views : forall l, look_ok k -> reaches l (pull_each n opts k tip_h target views l).1.
Proof.
  induction views as [|v views IH]; intros l Hk; cbn [pull_each]; [done|]. pose proof (pull_from_reaches k target v l Hk) as H.
  destruct (pull_from _ _ _ _ _ _) as [l1 [[t|e]|]]; cbn [fst] in H; [destruct (_ <? _); [done|]|..]; (transitivity l1; [exact H|by apply IH]).
Qed.

Lemma heard_store now a r l : (heard now a r l).(lv_store) = l.(lv_store).
Proof. unfold heard. destruct (a.2); [|done]. by destruct r. Qed.

Lemma network_view_store enough now asked arrivals : forall views l, (network_view enough now asked arrivals views l).2.(lv_store) = l.(lv_store).
Proof.
  induction arrivals as [|[i r] arrivals IH]; intros views l; cbn [network_view]; [done|]. destruct (asked !! i) as [a|]; [|apply IH].
  destruct r; [destruct (enough _ _)|..]; rewrite ?IH; apply heard_store.
Qed.

Lemma note_views_store now views : forall l, (note_views now views l).(lv_store) = l.(lv_store).
Proof. induction views as [|v views IH]; intros l; [done|]. cbn [note_views foldl]. change (foldl _ ?l0 views) with (note_views now views l0). rewrite IH. by destruct (starts_with _ _). Qed.

Lemma settle_views_reaches deadline mid k tip views pulled failed l : look_ok k ->
  reaches l (settle_views n opts deadline mid k tip views pulled failed l).1.1 /\
  forall t, (settle_views n opts deadline mid k tip views pulled failed l).2 = Some (Build t) -> t = tip.
Proof.
  intros Hk. unfold settle_views. destruct (_ && (needed_of _ _ <=? _)); [split; [done|by intros t [= <-]]|]. set (try_pull := _ && _ && _ && _).
  set (x := if try_pull then _ else _). assert (Hx : reaches l x.1) by (unfold x; destruct try_pull; [apply pull_each_reaches, Hk|done]).
  destruct x as [l1 moved]. destruct moved; [done|]. destruct (_ && minority_rule _ _ _ _); [split; [done|by intros t [= <-]]|]. by destruct (deadline <=? _).
Qed.

Lemma quorum_look_reaches deadline mid k st l : look_ok k ->
  reaches l (quorum_look n opts fmt_short deadline mid k st l).1.1 /\
  forall t, (quorum_look n opts fmt_short deadline mid k st l).2 = Some (Build t) -> in_u32 t.(b_height).
Proof.
  intros Hk. unfold quorum_look. set (l1 := lk_pause k 0%nat l). assert (H1 : reaches l l1) by apply (lo_calm k Hk).
  destruct (get_last_block n (lv_store l1)) as [[tip|]|] eqn:Ht; cbn [res_ok]; [|done..]. apply tip_low in Ht.
  set (l2 := lk_pause k 1%nat l1). assert (H2 : reaches l l2) by (transitivity l1; [done|apply (lo_calm k Hk)]).
  pose proof (network_view_store (quorum_now opts (b_height tip) (ostr (b_id tip))) (ck_now (lk_ck k)) (probes opts fmt_short (ck_now (lk_ck k)) 8 l1) (lk_arrivals k) [] l2) as Hs.
  destruct (network_view _ _ _ _ [] l2) as [views l3]. cbn [snd] in Hs. assert (H3 : reaches l l3) by (transitivity l2; [done|by apply reaches_same]).
  destruct views as [|v views]; [split; [done|]; destruct (f64_leb _ _); by intros t [= <-]|].
  destruct (settle_views_reaches deadline mid k tip (v :: views) st.1 st.2 (note_views (ck_now (lk_ck k)) (v :: views) l3) Hk) as [H4 H5].
  split; [|intros t Hd; by rewrite (H5 t Hd)]. etrans; [exact H3|]. etrans; [|exact H4]. apply reaches_same, note_views_store.
Qed.

Lemma wait_reaches deadline mid looks : forall st l, Forall look_ok looks ->
  reaches l (wait_for_quorum n opts fmt_short deadline mid looks st l).1 /\
  forall t, (wait_for_quorum n opts fmt_short deadline mid looks st l).2 = Some (Build t) -> in_u32 t.(b_height).
Proof.
  induction looks as [|k looks IH]; intros st l Hk; cbn [wait_for_quorum]; [done|]. apply Forall_cons in Hk as [Hk Hks].
  destruct (quorum_look_reaches deadline mid k st l Hk) as [H1 H2]. destruct (quorum_look _ _ _ _ _ _ _ _) as [[l1 st1] [d|]]; cbn [fst snd] in *; [done|].
  destruct (IH st1 l1 Hks) as [H3 H4]. split; [by transitivity l1|done].
Qed.

Definition tick_ok (t : TickInput) : Prop := Forall look_ok t.(ti_looks) /\ calm t.(ti_pause).
#[local] Abbreviation tick := (Forger.tick n gc own_keys mc json_len keys pq_keys opts fmt_short).

Lemma forge_and_apply_reaches t k name slot next bt pq tip f : tick_ok t -> in_u32 tip.(b_height) ->
  reaches f.(fg_live) (forge_and_apply n gc own_keys mc json_len t k name slot next bt pq tip f).1.(fg_live).
Proof.
  intros [_ Hp] Ht. unfold forge_and_apply. destruct (rbind _ _) as [block|e] eqn:Hb; [|done].
  apply rbind_ok_inv in Hb as (txs & _ & Hb). apply forged_head in Hb as [_ Hh].
  assert (Hl : low block) by (unfold low; rewrite Hh, as_u64_id; bounds; lia).
  set (l1 := ti_pause t 0%nat _). transitivity l1; [apply Hp|]. pose proof (apply_reaches true (ti_ck t) [block] (mkTip (b_height tip) (b_id tip)) l1 (low_one block Hl)) as H.
  destruct (apply _ _ _ _ _ _) as [l2 [t2|e]]; exact H.
Qed.

Lemma forge_slot_reaches t k expected name slot next bt f : tick_ok t ->
  reaches f.(fg_live) (forge_slot n gc own_keys mc json_len pq_keys opts fmt_short t k expected name slot next bt f).1.(fg_live).
Proof.
  intros Ht. unfold forge_slot. cbv zeta.
  match goal with |- context [wait_for_quorum n opts fmt_short ?d ?m ?ks ?st ?l] => pose proof (wait_reaches d m ks st l (proj1 Ht)) as [H1 H2];
    destruct (wait_for_quorum n opts fmt_short d m ks st l) as [l1 [[tip|reason]|]] end; [|exact H1..]. specialize (H2 tip eq_refl). cbn [fst] in H1.
  destruct (slot <=? _); [exact H1|]. destruct (block_versions_allowed n next) as [v1 v0]. destruct (_ && negb v0); [exact H1|].
  set (f1 := at_live l1 f). transitivity (fg_live f1); [exact H1|by apply forge_and_apply_reaches].
Qed.

Lemma tick_reaches t f : tick_ok t -> reaches f.(fg_live) (tick t f).1.(fg_live).
Proof.
  intros Ht. unfold Forger.tick. destruct (get_last_block n _) as [[tip|]|]; [|done..]. destruct (forging_order _ _) as [[|d0 order]|]; [done| |done].
  destruct ((d0 :: order) !! _) as [next|]; [|done]. set (f1 := announce_next _ _ _ _ _ _).
  assert (H1 : fg_live f1 = fg_live f) by apply announce_next_slot. rewrite <- H1. destruct (_ || _); [done|].
  destruct ((d0 :: order) !! _) as [d|]; [|done]. destruct (key_of keys _) as [k|]; [|done]. unfold own_slot.
  destruct (take_slot _ _ _ _ _ _) as [[reason|] g]; [by apply reaches_same|].
  match goal with |- context [forge_slot _ _ _ _ _ _ _ _ ?t ?k ?e ?nm ?sl ?nx ?b ?f2] => transitivity (fg_live f2); [by apply reaches_same|by apply forge_slot_reaches] end.
Qed.

(** ** The catch-up *)

(** What was fetched and not yet applied. *)
Definition low_fetched (f : Fetched) : Prop := match f.(ft_blocks) with Some bs => Forall low bs | None => True end.
Record low_catch_up (c : CatchUp) : Prop := {
  lc_pending : map_Forall (fun _ x => Forall low x.2) c.(cu_pending);
  lc_channel : Forall low_fetched c.(cu_channel)
}.
(** The changes other paths make come from the process. *)
Definition low_event (e : CatchUp.Event) : Prop :=
  match e with Answer _ _ _ reply => low_blocks reply | OtherPath _ => False | _ => True end.

Definition moves (c c' : CatchUp) : Prop := rtc (ledger_step n) c.(cu_store) c'.(cu_store).

Lemma punish_parts now src c : (punish now src c).(cu_store) = c.(cu_store) /\ (punish now src c).(cu_pending) = c.(cu_pending) /\ (punish now src c).(cu_channel) = c.(cu_channel).
Proof. by destruct src. Qed.

Lemma settle_fork_moves ck src c : low_catch_up c -> moves c (settle_fork n ck src c).1 /\ low_catch_up (settle_fork n ck src c).1.
Proof.
  intros [Hp Hc]. unfold settle_fork. set (c1 := match cu_supplier c !! _ with Some _ => _ | None => c end).
  assert (H1 : cu_store c1 = cu_store c /\ cu_pending c1 = cu_pending c /\ cu_channel c1 = cu_channel c).
  { unfold c1. destruct (_ !! _) as [bad|]; [|done]. destruct (negb _); [apply punish_parts|done]. }
  destruct H1 as (S1 & P1 & C1). set (target := Z.max _ _). unfold moves. rewrite <- S1.
  pose proof (ls_rollback n target (cu_store c1)) as H. destruct (tip_of _ _); cbn; (split; [by apply rtc_once|split; cbn; rewrite ?P1, ?C1; done]).
Qed.

Lemma settle_moves undo ck c c' o : settle n verify undo ck c = Some (c', o) -> low_catch_up c -> moves c c' /\ low_catch_up c'.
Proof.
  unfold settle. destruct (cu_pending c !! _) as [[src blocks]|] eqn:Hp; [|done]. intros [= H] [Lp Lc].
  pose proof (Lp _ _ Hp) as Hb. cbn [snd] in Hb. set (c1 := on_pending _ c) in H.
  assert (L1 : low_catch_up c1) by (split; [by apply map_Forall_delete|done]).
  destruct (forked _ _); [pose proof (settle_fork_moves ck src c1 L1) as H1; by rewrite H in H1|].
  pose proof (ls_accept n verify undo (ck_epoch ck) (ck_unix_ms ck) blocks (cu_tip c1) (cu_store c1) Hb) as Hs.
  destruct (sync_apply_blocks _ _ _ _ _ _ _ _) as [[s ex] [tip|]]; cbn [fst] in Hs; [injection H as <- _; split; [by apply rtc_once|by destruct L1]|].
  assert (Hrej : forall c2, c2 = on_sched (restart_at (tip_height (cu_tip c))) (on_pending (fun _ => ∅) (punish (ck_now ck) src (at_tip s (cu_tip c1) c1))) ->
    moves c c2 /\ low_catch_up c2).
  { intros c2 ->. set (c3 := at_tip s (cu_tip c1) c1). destruct (punish_parts (ck_now ck) src c3) as (S2 & _ & C2).
    set (c4 := punish _ _ c3) in *. split; [|split; [apply map_Forall_empty|change (Forall low_fetched (cu_channel c4)); rewrite C2; exact Lc]].
    unfold moves. change (rtc (ledger_step n) (cu_store c) (cu_store c4)). rewrite S2. by apply rtc_once. }
  destruct ex as [|[]|]; try (injection H as <- _; by apply Hrej). destruct (tip_of _ _) as [t|]; injection H as <- _; (split; [by apply rtc_once|]); [|by destruct L1].
  destruct L1 as [Lp1 Lc1]. split; [|done]. intros k x Hk. apply map_lookup_filter_Some in Hk as [Hk _]. by apply (Lp1 k x).
Qed.

Lemma drain_moves undo fuel ck : forall c, low_catch_up c -> moves c (drain n verify undo fuel ck c).1 /\ low_catch_up (drain n verify undo fuel ck c).1.
Proof.
  induction fuel as [|fuel IH]; intros c Hc; cbn [drain]; [by split; [apply rtc_refl|]|]. destruct (settle _ _ _ _ _) as [[c1 o]|] eqn:Hs; [|by split; [apply rtc_refl|]].
  apply settle_moves in Hs as [H1 H2]; [|done]. destruct (IH c1 H2) as [H3 H4]. destruct o; try (destruct (drain _ _ _ _ _ c1) as [c2 os]; cbn in *); (split; [|done]); [unfold moves in *; by etrans..|done].
Qed.

Lemma receive_low probes f c : low_fetched f -> low_catch_up c ->
  (receive parallel probes f c).(cu_store) = c.(cu_store) /\ low_catch_up (receive parallel probes f c).
Proof.
  intros Hf [Hp Hc]. destruct (receive_same parallel probes f c) as (_ & C & _). split; [apply receive_store|]. split; [|by rewrite C].
  destruct (receive_pending parallel probes f c) as [->|(b & bs & Hb & ->)]; [done|]. apply map_Forall_insert_2; [|done]. unfold low_fetched in Hf. by rewrite Hb in Hf.
Qed.

Lemma fetch_range_low now latency src reply c : low_blocks reply ->
  (CatchUp.fetch_range now latency src reply c).1.(cu_store) = c.(cu_store) /\ (CatchUp.fetch_range now latency src reply c).1.(cu_pending) = c.(cu_pending) /\
  (CatchUp.fetch_range now latency src reply c).1.(cu_channel) = c.(cu_channel) /\
  match (CatchUp.fetch_range now latency src reply c).2 with Some bs => Forall low bs | None => True end.
Proof. intros H. destruct src, reply as [[|b bs]|[]]; by repeat split. Qed.

Lemma catch_up_moves undo c e : low_catch_up c -> low_event e ->
  moves c (CatchUp.step n verify undo parallel c e).1 /\ low_catch_up (CatchUp.step n verify undo parallel c e).1.
Proof.
  intros Hc He. destruct e as [now|k now latency reply|ck probes|s|table iroh]; cbn [CatchUp.step low_event] in *.
  - destruct (take_job _ _ _ _) as [s job]. split; [apply rtc_refl|]. by destruct Hc.
  - destruct (cu_jobs c !! k) as [job|]; [|by split; [apply rtc_refl|]]. destruct (fetch_range_low now latency (jb_source job) reply c He) as (S1 & P1 & C1 & B1).
    destruct (CatchUp.fetch_range _ _ _ _ _) as [c1 blocks]. cbn [fst snd] in *. split; [unfold moves; cbn; by rewrite S1|]. destruct Hc as [Hp Hch].
    split; cbn; [by rewrite P1|]. rewrite C1. apply Forall_app. split; [done|]. constructor; [done|constructor].
  - destruct (finished c); [by split; [apply rtc_refl|]|]. destruct (cu_channel c) as [|f rest] eqn:Hch; [by split; [apply rtc_refl|]|]. destruct Hc as [Hp Hc].
    rewrite Hch in Hc. apply Forall_cons in Hc as [Hf Hc]. destruct (receive_low probes f (set_traffic (cu_jobs c) rest c) Hf ltac:(by split)) as [S1 L1].
    set (c1 := receive _ _ _ _) in *. destruct (drain_moves undo (S (size (cu_pending c1))) ck c1 L1) as [H1 L2]. destruct (drain _ _ _ _ _ c1) as [c2 os]. cbn [fst] in *.
    split; [|by destruct L2]. change (cu_store c1 = cu_store c) in S1. unfold moves in *. rewrite S1 in H1. exact H1.
  - done.
  - split; [apply rtc_refl|by destruct Hc].
Qed.
End node.
