(* ===== verification/Process.v ===== *)
(** * The process

    The state the tasks of a running node share and one step of any of them.  What a task does while it waits is
    [pause]: any number of changes the others make ([calm]).  [node_refines] is the refinement of the abstract
    chain of [Ledger]; the other theorems are what it gives for every interleaving of the tasks. *)

From S2P Require Import Prelude Floats Models Env Bytes Crypto Keys Config TxCodec BlockCodec BlockVerify Wallet Rules Round Tree.
From S2P Require Import Storage Chain ChainRounds Sync AntiSpam Mempool Intake Guard Builder PushServer NodePool PeerHealth IrohPeers CatchUp.
From S2P Require Import Finality FinalityFacts Ledger RestSync Live FollowLive Watchdog Forger ForgerFacts Node.

(** The shared state, the finality tracker, and what the catch-up keeps between its turns. *)
Record Process : Type := mkProcess { pr_live : Live; pr_tracker : Inner; pr_catch_up : CatchUp }.
Definition store_of (p : Process) : Store := p.(pr_live).(lv_store).
Definition with_live (l : Live) (p : Process) : Process := mkProcess l p.(pr_tracker) p.(pr_catch_up).

Section process.
Context `{E : Env} `{PO : PeerOrder} `{HO : HashOrder} `{SG : Signer}.
Variables (n : Network) (gc : DoubleForgeGuardConfig) (own_keys : gset string) (mc : MempoolConfig) (json_len : Transaction -> Z) (verify : bool).
Variables (keys : list KeyPair) (pq_keys : list PqKeyPair) (opts : ForgerOptions) (fmt_short : string -> string) (parallel : Z).
Implicit Types (p : Process) (l : Live) (ck : Clocks) (pause : nat -> Live -> Live).

(** The catch-up works on the store and the tables of the process. *)
Definition shared p : CatchUp :=
  let c := p.(pr_catch_up) in
  set_peers p.(pr_live).(lv_table) ((fun _ => p.(pr_live).(lv_iroh)) <$> c.(cu_iroh)) (at_tip (store_of p) c.(cu_tip) c).
Definition caught_up (c : CatchUp) p : Process :=
  let l := on_table (fun _ => c.(cu_table)) (on_iroh (fun m => default m c.(cu_iroh)) p.(pr_live)) in
  mkProcess (on_store (fun _ => c.(cu_store)) l) p.(pr_tracker) c.

Inductive node_step : Process -> Process -> Prop :=
| ns_push pause ck ip bytes peer p : calm n pause -> (forall a b, low_blocks (peer a b).(rp_blocks)) ->
    node_step p (with_live (post_block n gc own_keys mc json_len verify pause ck ip bytes peer p.(pr_live)).1 p)
| ns_gossip pause ck from id block peer p : calm n pause -> low_iroh peer ->
    node_step p (with_live (on_block n gc own_keys verify pause ck from id block peer p.(pr_live)).1 p)
| ns_follow t f p : turn_ok n t -> f.(fo_live) = p.(pr_live) ->
    node_step p (with_live (follow_turn n gc own_keys verify t f).1.(fo_live) p)
| ns_watch ck blocktime answers pause fills w p : calm n pause -> fills_ok n fills ->
    node_step p (with_live (watch_turn n verify fmt_short ck blocktime answers pause fills w p.(pr_live)).2 p)
| ns_orphan now height id answer pause p : calm n pause ->
    node_step p (with_live (orphan_check n now height id answer pause p.(pr_live)) p)
| ns_forger t f p : tick_ok n t -> f.(fg_live) = p.(pr_live) ->
    node_step p (with_live (Forger.tick n gc own_keys mc json_len keys pq_keys opts fmt_short t f).1.(fg_live) p)
| ns_catch_up e p : low_event e ->
    node_step p (caught_up (CatchUp.step n verify p.(pr_live).(lv_undo_enabled) parallel (shared p) e).1 p)
| ns_sync status_text cfg first rounds p : Forall (calm_round n) rounds ->
    node_step p (with_live (on_store (fun s => (sync_run n status_text cfg p.(pr_live).(lv_undo_enabled) first rounds s).1) p.(pr_live)) p)
| ns_tracker s i p : tracker_step n (store_of p, p.(pr_tracker)) (s, i) ->
    node_step p (mkProcess (on_store (fun _ => s) p.(pr_live)) i p.(pr_catch_up))
| ns_rest l p : l.(lv_store) = store_of p -> node_step p (with_live l p). (* pool, peers, guard, statistics *)

(** What holds of a process from its start on. *)
Record well p : Prop := {
  we_tracker : votes_ok p.(pr_tracker);
  we_catch_up : low_catch_up p.(pr_catch_up)
}.
End process.

Section facts.
Context `{E : Env} `{PO : PeerOrder} `{HO : HashOrder} `{SG : Signer} `{EL : !EnvLaws E} `{LS : !SignerLaws E SG}.
Variables (n : Network) (gc : DoubleForgeGuardConfig) (own_keys : gset string) (mc : MempoolConfig) (json_len : Transaction -> Z) (verify : bool).
Variables (keys : list KeyPair) (pq_keys : list PqKeyPair) (opts : ForgerOptions) (fmt_short : string -> string) (parallel : Z).
Implicit Types (p : Process).
#[local] Abbreviation node_step := (node_step n gc own_keys mc json_len verify keys pq_keys opts fmt_short parallel).

Lemma track_ledger s s' : rtc (track n) s s' -> rtc (ledger_step n) s s'.
Proof. apply rtc_subrel. intros x y. apply ls_track. Qed.

Lemma step_refines p p' : node_step p p' -> well p -> well p' /\ rtc (ledger_step n) (store_of p) (store_of p').
Proof.
  intros H [Wt Wc]. destruct H as [pause ck ip bytes peer p Hp Hl|pause ck from id block peer p Hp Hl|t f p Ht Hf|ck bt answers pause fills w p Hp Hf
    |now height id answer pause p Hp|t f p Ht Hf|e p He|status_text cfg first rounds p Hr|s i p H|l p H].
  - split; [done|by apply post_block_reaches].
  - split; [done|by apply on_block_reaches].
  - split; [done|]. unfold store_of. rewrite <- Hf. by apply follow_turn_reaches.
  - split; [done|by apply watch_turn_reaches].
  - split; [done|by apply orphan_reaches].
  - split; [done|]. unfold store_of. rewrite <- Hf. by apply tick_reaches.
  - destruct (catch_up_moves n verify parallel (lv_undo_enabled (pr_live p)) (shared p) e ltac:(by destruct Wc) He) as [H1 H2]. by split.
  - split; [done|by apply sync_run_ledger].
  - destruct (tracker_tracks n _ _ _ _ Wt H) as [Wt' Ht]. split; [done|by apply track_ledger].
  - split; [done|]. change (rtc (ledger_step n) (store_of p) (lv_store l)). by rewrite H.
Qed.

Lemma run_refines p p' : rtc node_step p p' -> well p -> well p' /\ rtc (ledger_step n) (store_of p) (store_of p').
Proof.
  induction 1 as [p|p p1 p' H _ IH]; intros W; [done|]. apply step_refines in H as [W1 H1]; [|done]. destruct (IH W1) as [W2 H2]. split; [done|by etrans].
Qed.


(** C7: the stored blocks are the heights from one to the tip, without a gap and with nothing above, after every run of
    the node: no race between the paths blocks come in by leaves a hole or a second tip. *)
Theorem chain_gapless p p' (W : well p) (H : rtc node_step p p') (G : gapless (store_of p)) : gapless (store_of p').
Proof. apply run_refines in H as [_ H]; [|done]. by eapply gapless_kept. Qed.

(** C4: finality.  While every height from the certificate's on is in hard finality mode, what a certificate covers stays: whatever the node does from then on, its tip never falls
    below the certified height, the records of the blocks up to it are the same bytes, and the certificate stays. *)
Theorem certified_history_kept p p' h (W : well p) (H : rtc node_step p p') (H0 : 0 < h) (Hh : h <= get_last_height (store_of p) < u64_max)
    (Ha : forall k, h <= k -> (milestone n k).(m_finality).(fp_active) = true)
    (Ok' : certs_ok (store_of p)) (Hc : is_Some ((store_of p).(st_finality) !! h)) :
  h <= get_last_height (store_of p') /\ is_Some ((store_of p').(st_finality) !! h) /\
  forall k, k <= h -> (store_of p').(st_blocks) !! k = (store_of p).(st_blocks) !! k.
Proof.
  apply run_refines in H as [_ H]; [|done].
  destruct (keeps_kept n h (store_of p).(st_blocks) _ _ ltac:(lia) Ha H) as [_ C T B]; [split; (done || lia)|]. split_and!; [lia|done|done].
Qed.

End facts.
