(* ===== verification/GossipFacts.v ===== *)
(** * What gossip promises

    The tasks of [Gossip] are runs of the process of [Process.v], so its theorems hold with them.  A proof of a double
    vote is passed on once: the heights of the proofs against one key rise.  What a peer claims, on the other hand,
    decides what this node publishes: an id heard in any message, valid or not, and a height heard once, are never
    published from here. *)

From S2P Require Import Prelude Models Env Bytes Crypto Keys Config TxCodec BlockCodec BlockVerify Wallet Rules Round Tree Storage Chain Sync.
From S2P Require Import AntiSpam Mempool Intake Guard Builder PushServer NodePool PeerHealth NetAddr IrohPeers AddrBook LegacyWire CatchUp.
From S2P Require Import Finality FinalityFacts Ledger Live FollowLive Watchdog Forger ForgerFacts Node Process Gossip.

Section facts.
Context `{E : Env} `{EL : !EnvLaws E} `{SG : Signer} `{SL : !SignerLaws E SG} `{PO : PeerOrder} `{HO : HashOrder} `{IK : IrohKeys} `{BO : BookOrder}.
Variables (n : Network) (gc : DoubleForgeGuardConfig) (own_keys : gset string) (mc : MempoolConfig) (json_len : Transaction -> Z) (verify : bool).
Variables (legacy : bool) (dc : DiscoveryConfig) (core_version me : string) (secret : list byte) (fmt_short : string -> string).
Variables (keys : list KeyPair) (pq_keys : list PqKeyPair) (opts : ForgerOptions) (parallel : Z).
Implicit Types (w : Swarm) (ck : Clocks) (s : Store) (p : EquivocationProof).

(** ** Runs of the process *)

Definition process_of (c : CatchUp) w : Process := mkProcess w.(sw_live) w.(sw_finality) c.
#[local] Abbreviation node_step := (node_step n gc own_keys mc json_len verify keys pq_keys opts fmt_short parallel).
Definition runs c w w' : Prop := rtc node_step (process_of c w) (process_of c w').

#[local] Instance runs_preorder c : PreOrder (runs c).
Proof. split; [intros w; apply rtc_refl|intros w1 w2 w3 H1 H2; unfold runs in *; by etrans]. Qed.

(** Peers, the pool and what was seen are beside the chain. *)
Lemma rest_runs c w w' : w'.(sw_finality) = w.(sw_finality) -> store w' = store w -> runs c w w'.
Proof.
  intros Hf Hs. apply rtc_once. pose proof (ns_rest n gc own_keys mc json_len verify keys pq_keys opts fmt_short parallel w'.(sw_live) (process_of c w) Hs) as H.
  unfold with_live, process_of in *. rewrite Hf. exact H.
Qed.
Lemma tracker_runs c w s i : tracker_step n (store w, w.(sw_finality)) (s, i) -> runs c w (at_finality s i w).
Proof. intros H. apply rtc_once. exact (ns_tracker n gc own_keys mc json_len verify keys pq_keys opts fmt_short parallel s i (process_of c w) H). Qed.

Lemma on_peers_runs c ck from hints gateway w : runs c w (on_peers legacy ck from hints gateway w).
Proof. unfold on_peers. destruct (negb legacy); by apply rest_runs. Qed.
Lemma on_delegates_runs c ck from announces w : runs c w (on_delegates ck from announces w).
Proof. unfold on_delegates. destruct (record_announces _ _ _ _ _) as [m ok]. destruct (_ <? _)%nat; by apply rest_runs. Qed.

Lemma finality_msg_runs c ck from msg w : runs c w (on_finality_msg n ck from msg w).1.
Proof.
  destruct msg as [b|txs|hints gateway|announces|votes|proof|records]; cbn [on_finality_msg]; try done.
  - set (w1 := heard _ _ _ w). transitivity w1; [by apply rest_runs|]. pose proof (step_record n votes (store w1) w1.(sw_finality)) as H.
    destruct (Finality.record n votes _ _) as [[[s i] k] proofs]. cbn [fst snd] in *. by apply tracker_runs.
  - pose proof (step_proof n proof (store w) w.(sw_finality)) as H. destruct (adopt_proof n proof _) as [s [[]|]]; cbn [fst] in *; by apply tracker_runs.
Qed.

Lemma block_msg_runs c pause ck from peer msg w : calm n pause -> low_iroh peer ->
  runs c w (on_block_msg n gc own_keys verify legacy fmt_short pause ck from peer msg w).
Proof.
  intros Hp Hl. destruct msg as [b|txs|hints gateway|announces|votes|proof|records]; cbn [on_block_msg]; try done; [|apply on_peers_runs|apply on_delegates_runs].
  set (w1 := heard _ _ _ w). transitivity w1; [by apply rest_runs|]. apply rtc_once.
  exact (ns_gossip n gc own_keys mc json_len verify keys pq_keys opts fmt_short parallel pause ck (fmt_short from) from b peer (process_of c w1) Hp Hl).
Qed.

Lemma tx_msg_runs c ck from msg w : runs c w (on_tx_msg n mc json_len legacy ck from msg w).
Proof.
  destruct msg as [b|txs|hints gateway|announces|votes|proof|records]; cbn [on_tx_msg]; try done; [|apply on_peers_runs|apply on_delegates_runs].
  apply rest_runs; [done|]. exact (on_seen_store _ _).
Qed.

Lemma note_sent_runs c (sent : nat -> Sent) ks : forall w, runs c w (at_finality (store w) (foldl (fun i k => note_sent (sent k) i) w.(sw_finality) ks) w).
Proof.
  induction ks as [|k ks IH]; intros w; cbn [foldl]; [by apply rest_runs|].
  set (w1 := at_finality (store w) (note_sent (sent k) w.(sw_finality)) w). transitivity w1; [|exact (IH w1)].
  unfold w1. destruct (sent k); [by apply rest_runs| |]; apply tracker_runs, step_unsent.
Qed.

Lemma publish_finality_runs c ck ks sent voted w : Forall signs ks ->
  (forall b id, get_last_block n (store w) = Ok (Some b) -> b.(b_id) = Some id -> slen id = 64) ->
  runs c w (publish_finality n ck ks sent voted w).1.1.
Proof.
  intros Hk Hid. unfold publish_finality. destruct (get_last_block n (store w)) as [[tip|]|] eqn:Ht; [|done..]. cbn [res_ok].
  destruct (b_id tip) as [id|] eqn:Hb; [|done]. destruct ks as [|k ks]; [done|]. destruct (_ && negb _); [done|].
  pose proof (step_own n (unix_secs ck) (k :: ks) (b_height tip) id (store w) w.(sw_finality) (Hid _ _ eq_refl Hb) Hk) as H.
  destruct (own_votes _ _ _ _ _ _ _) as [[s i] votes]. cbn [fst] in H. destruct votes as [|v votes]; [by apply tracker_runs|].
  cbn [fst]. transitivity (at_finality s i w); [by apply tracker_runs|]. exact (note_sent_runs c sent _ (at_finality s i w)).
Qed.

Lemma adopt_from_runs c ck ours reply ids : forall w, runs c w (adopt_from n ck ours reply ids w).
Proof.
  induction ids as [|id ids IH]; intros w; cbn [adopt_from]; [done|]. destruct (fetch_finality _ _ _ _) as [m cert]. set (w1 := on_live _ w).
  transitivity w1; [by apply rest_runs|]. destruct cert as [cert|]; [|apply IH]. destruct (_ <=? _); [apply IH|].
  pose proof (step_adopt n cert (store w1) w1.(sw_finality)) as H. destruct (adopt_certificate n cert (store w1)) as [s [[]|]]; cbn [fst] in H.
  - by apply tracker_runs.
  - etrans; [by apply tracker_runs|apply IH].
  - etrans; [by apply tracker_runs|apply IH].
Qed.

Lemma sync_finality_runs c ck reply w : runs c w (sync_finality n me ck reply w).
Proof. unfold sync_finality. destruct (_ <=? _); [done|]. destruct (finalized _) as [[h i]|]; apply adopt_from_runs. Qed.

Lemma relay_down_rest ck answer w : (relay_down n legacy dc me ck answer w).(sw_finality) = w.(sw_finality) /\ store (relay_down n legacy dc me ck answer w) = store w.
Proof.
  unfold relay_down. destruct (sw_book w); [|done]. set (w1 := if legacy then _ else w).
  assert (H1 : w1.(sw_finality) = w.(sw_finality) /\ store w1 = store w) by (unfold w1; by destruct legacy). destruct H1 as [<- <-].
  generalize (List.filter (fun a => negb (String.eqb (ea_id a) me)) (omap direct_only_addr match sw_book w1 with Some b => fresh (unix_secs ck) MAX_RECORDS b | None => [] end)).
  clearbody w1. intros l. revert w1. induction l as [|x l IH]; intros w1; [done|]. cbn [foldl]. exact (IH (pin ck x w1)).
Qed.

(** One thing the gossip tasks do. *)
Inductive gossip_step : Swarm -> Swarm -> Prop :=
| gs_finality ck e w out : gossip_step w (on_finality n ck e (w, out)).1
| gs_blocks pause ck peer e w : calm n pause -> low_iroh peer -> gossip_step w (on_blocks n gc own_keys verify legacy fmt_short pause ck peer e w)
| gs_txs ck e w : gossip_step w (on_txs n mc json_len legacy ck e w)
| gs_addrs ck e w : gossip_step w (on_addrs n dc me ck e w)
| gs_votes ck ks sent voted w : Forall signs ks ->
    (forall b id, get_last_block n (store w) = Ok (Some b) -> b.(b_id) = Some id -> slen id = 64) -> gossip_step w (publish_finality n ck ks sent voted w).1.1
| gs_sync ck reply w : gossip_step w (sync_finality n me ck reply w)
| gs_delegates ck announce ks w : gossip_step w (publish_delegates core_version me ck announce ks w).1
| gs_rejoin ck urls connected bootstrap answer r w : gossip_step w (rejoin_turn n legacy dc me ck urls connected bootstrap answer r w).1.2.

(** Every event of a topic and every turn of a gossip task is a run of the process. *)
Lemma gossip_step_runs c w w' : gossip_step w w' -> runs c w w'.
Proof.
  intros [ck e w0 out|pause ck peer e w0 Hp Hl|ck e w0|ck e w0|ck ks sent voted w0 Hk Hid|ck reply w0|ck announce ks w0|ck urls connected bootstrap answer r w0].
  - destruct e as [from [msg|]|id|id| |]; cbn [on_finality]; [|try (by apply rest_runs)..].
    pose proof (finality_msg_runs c ck from msg w0) as H. destruct (on_finality_msg _ _ _ _ _). exact H.
  - destruct e as [from [msg|]|id|id| |]; cbn [on_blocks]; [by apply block_msg_runs|by apply rest_runs..].
  - destruct e as [from [msg|]|id|id| |]; cbn [on_txs]; [by apply tx_msg_runs|by apply rest_runs..].
  - destruct e as [from [[]|]|id|id| |]; by apply rest_runs.
  - by apply publish_finality_runs.
  - apply sync_finality_runs.
  - unfold publish_delegates. destruct ks; [done|]. destruct (negb announce); by apply rest_runs.
  - unfold rejoin_turn. destruct urls as [|u urls]; [done|]. destruct connected; [|done]. cbn zeta. destruct (_ <=? _); [|done].
    destruct (relay_down_rest ck answer w0). by apply rest_runs.
Qed.

Lemma gossip_runs c w w' : rtc gossip_step w w' -> runs c w w'.
Proof. induction 1 as [|w1 w2 w3 H _ IH]; [done|]. transitivity w2; [by apply gossip_step_runs|done]. Qed.

(** The gossip layer adds no way to change the chain: whatever the topics deliver, in whatever order, and whatever the
    publishers, the certificate catch-up and the rejoining do, the store changes only as the abstract chain does. *)
Theorem gossip_refines w w' : votes_ok w.(sw_finality) -> rtc gossip_step w w' ->
  votes_ok w'.(sw_finality) /\ rtc (ledger_step n) (store w) (store w').
Proof.
  intros Hv H. set (c := CatchUp.start 1 (store w) (sw_live w).(lv_table) None 0 (mkTip 0 None)). apply (gossip_runs c) in H.
  assert (W : well (process_of c w)) by (split; [done|]; split; [apply map_Forall_empty|constructor]).
  apply run_refines in H as [[Hv' _] H]; [by split|done].
Qed.

(** ** Proofs go round once *)

Definition history s (k : string) (q : EquivocationProof) : Prop := exists h, s.(st_equivocations) !! (k, h) = Some q.

Lemma elem_of_history s k q : q ∈ equivocation_history s k <-> history s k q.
Proof.
  unfold equivocation_history, history. rewrite sort_by_Permutation, list_elem_of_fmap. split.
  - intros ([[k' h] q'] & -> & H). rewrite list_elem_of_In, filter_In, <- list_elem_of_In, elem_of_map_to_list in H. destruct H as [H Hk]. cbn in *. apply String.eqb_eq in Hk as <-. eauto.
  - intros [h H]. exists ((k, h), q). split; [done|]. rewrite list_elem_of_In, filter_In, <- list_elem_of_In, elem_of_map_to_list. split; [done|apply String.eqb_refl].
Qed.

(** A proof that is kept is above all that were kept against the key. *)
Lemma equivocation_top s k q : history s k q -> exists top, equivocation s k = Some top /\ q.(eq_height) <= top.(eq_height).
Proof.
  intros H. apply elem_of_history in H. unfold equivocation. assert (Hs : StronglySorted eq_height_le (equivocation_history s k)).
  { apply Sorted_StronglySorted; [intros x y z; unfold eq_height_le; lia|]. apply Sorted_sort_by. intros x y. unfold eq_height_le. lia. }
  destruct (equivocation_history s k) as [|x l _] using rev_ind; [by apply elem_of_nil in H|]. rewrite last_snoc. exists x. split; [done|].
  apply StronglySorted_app in Hs as (Hx & _ & _). apply elem_of_app in H as [H|H%list_elem_of_singleton]; [|subst; lia]. apply (Hx q); [done|by left].
Qed.

Lemma adopted_above p s : (adopt_proof n p s).2 = Ok true -> (forall q, history s p.(eq_public_key) q -> q.(eq_height) < p.(eq_height)) /\
  (exists q, history (adopt_proof n p s).1 p.(eq_public_key) q /\ q.(eq_height) = p.(eq_height)).
Proof.
  unfold adopt_proof. destruct (verify_proof _ _ _); [|done]. cbn [eq_public_key eq_height with_ban]. destruct (equivocation s (eq_public_key p)) as [have|] eqn:He; cbn [opt_test].
  - destruct (Z.leb_spec (eq_height p) (eq_height have)); [done|]. intros _. split.
    + intros q Hq. destruct (equivocation_top _ _ _ Hq) as (top & Ht & Hle). rewrite He in Ht. injection Ht as <-. lia.
    + eexists. split; [exists (eq_height p); cbn; apply lookup_insert_eq|done].
  - intros _. split; [intros q Hq; destruct (equivocation_top _ _ _ Hq) as (top & Ht & _); congruence|].
    eexists. split; [exists (eq_height p); cbn; apply lookup_insert_eq|done].
Qed.

(** Nothing is forgotten, up to a greater height. *)
Definition remembers s s' : Prop := forall k q, history s k q -> exists q', history s' k q' /\ q.(eq_height) <= q'.(eq_height).
#[local] Instance remembers_preorder : PreOrder remembers.
Proof.
  split; [intros s k q H; exists q; split; [done|lia]|]. intros s1 s2 s3 H1 H2 k q H. destruct (H1 k q H) as (q1 & Hq1 & ?). destruct (H2 k q1 Hq1) as (q2 & ? & ?).
  exists q2. split; [done|lia].
Qed.

Lemma adopt_remembers p s : remembers s (adopt_proof n p s).1.
Proof.
  intros k q [h H]. unfold adopt_proof. destruct (verify_proof _ _ _); [|exists q; split; [by exists h|lia]]. cbn [eq_public_key eq_height with_ban].
  destruct (equivocation s (eq_public_key p)) as [have|] eqn:He; cbn [opt_test]; [destruct (Z.leb_spec (eq_height p) (eq_height have)); [exists q; split; [by exists h|lia]|]|].
  - cbn. destruct (decide ((k, h) = (eq_public_key p, eq_height p))) as [[= -> ->]|Hne].
    + eexists. split; [exists (eq_height p); cbn; apply lookup_insert_eq|]. cbn. destruct (equivocation_top s (eq_public_key p) q ltac:(by exists (eq_height p))) as (top & Ht & Hle).
      rewrite He in Ht. injection Ht as <-. lia.
    + exists q. split; [exists h; cbn; by rewrite lookup_insert_ne|lia].
  - cbn. destruct (decide ((k, h) = (eq_public_key p, eq_height p))) as [[= -> ->]|Hne].
    + destruct (equivocation_top s (eq_public_key p) q ltac:(by exists (eq_height p))) as (top & Ht & _). congruence.
    + exists q. split; [exists h; cbn; by rewrite lookup_insert_ne|lia].
Qed.

(** The heights of the proofs against a key, in the order they are sent. *)
Definition against (k : string) (out : list EquivocationProof) : list Z := eq_height <$> List.filter (fun p => String.eqb p.(eq_public_key) k) out.

Record relayed s s' (out : list EquivocationProof) : Prop := {
  rl_rise k : StronglySorted Z.lt (against k out);
  rl_above k h q : h ∈ against k out -> history s k q -> q.(eq_height) < h;
  rl_kept k h : h ∈ against k out -> exists q, history s' k q /\ h <= q.(eq_height);
  rl_remembers : remembers s s'
}.

Lemma relayed_nil s s' : remembers s s' -> relayed s s' [].
Proof. intros H. split; [intros k; constructor|by intros k h q ?%elem_of_nil|by intros k h ?%elem_of_nil|done]. Qed.

Lemma against_app k l1 l2 : against k (l1 ++ l2) = against k l1 ++ against k l2.
Proof. unfold against. by rewrite List.filter_app, fmap_app. Qed.

Lemma relayed_app s1 s2 s3 l1 l2 : relayed s1 s2 l1 -> relayed s2 s3 l2 -> relayed s1 s3 (l1 ++ l2).
Proof.
  intros [R1 A1 K1 M1] [R2 A2 K2 M2]. split.
  - intros k. rewrite against_app. apply StronglySorted_app. split; [|by split]. intros h1 h2 H1 H2. destruct (K1 k h1 H1) as (q & Hq & ?). specialize (A2 k h2 q H2 Hq). lia.
  - intros k h q. rewrite against_app, elem_of_app. intros [H|H] Hq; [by eapply A1|]. destruct (M1 k q Hq) as (q1 & Hq1 & ?). specialize (A2 k h q1 H Hq1). lia.
  - intros k h. rewrite against_app, elem_of_app. intros [H|H]; [|by apply K2]. destruct (K1 k h H) as (q & Hq & ?). destruct (M2 k q Hq) as (q2 & ? & ?). exists q2. split; [done|lia].
  - by transitivity s2.
Qed.

Lemma adopt_relayed p s : relayed s (adopt_proof n p s).1 (match (adopt_proof n p s).2 with Ok true => [p] | _ => [] end).
Proof.
  pose proof (adopted_above p s) as Ha. pose proof (adopt_remembers p s) as Hm. destruct (adopt_proof n p s) as [s' [[]|]]; cbn [fst snd] in *; try (by apply relayed_nil).
  destruct (Ha eq_refl) as [Hab (q & Hq & Hh)]. split; [| | |done]; unfold against; cbn [List.filter]; intros k.
  - destruct (String.eqb _ k); cbn; repeat constructor.
  - intros h q0. destruct (String.eqb_spec (eq_public_key p) k) as [<-|]; cbn; [|by intros ?%elem_of_nil]. intros ->%list_elem_of_singleton. apply Hab.
  - intros h. destruct (String.eqb_spec (eq_public_key p) k) as [<-|]; cbn; [|by intros ?%elem_of_nil]. intros ->%list_elem_of_singleton. exists q. split; [done|lia].
Qed.

Lemma same_remembers s s' : s'.(st_equivocations) = s.(st_equivocations) -> remembers s s'.
Proof. intros H k q [h Hq]. exists q. split; [exists h; by rewrite H|lia]. Qed.

Lemma certify_remembers h id s i : remembers s (try_certify n h id s i).
Proof.
  apply same_remembers. unfold try_certify. destruct (is_final _ _); [done|]. destruct (_ ≫= _); [|done]. destruct (_ <? _); [done|]. by destruct (negb _).
Qed.

Lemma record_vote_relayed tip r v : exists out, (record_vote n tip r v).(rc_proofs) = r.(rc_proofs) ++ out /\ relayed r.(rc_store) (record_vote n tip r v).(rc_store) out.
Proof.
  unfold record_vote. set (x := if in_range tip v then _ else _). destruct x as [cache active]. destruct (_ || _).
  { exists []. rewrite app_nil_r. split; [done|]. by apply relayed_nil. }
  set (i := put_vote v _). destruct (conflict_of _ v) as [[id sig]|]; cbn [rc_store rc_proofs].
  - set (p := make_proof n _ v id sig). pose proof (adopt_relayed p r.(rc_store)) as H. destruct (adopt_proof n p _) as [s' res]; cbn [fst snd] in H.
    exists (match res with Ok true => [p] | _ => [] end). split; [by destruct res as [[]|]; rewrite ?app_nil_r|].
    assert (H' : relayed (rc_store r) (try_certify n (fv_height v) (fv_block_id v) s' i) ((match res with Ok true => [p] | _ => [] end) ++ [])) by (eapply relayed_app; [exact H|apply relayed_nil, certify_remembers]).
    rewrite app_nil_r in H'. by destruct res as [[]|].
  - exists []. rewrite app_nil_r. split; [done|]. apply relayed_nil, certify_remembers.
Qed.

Lemma record_all_relayed tip l : forall r, exists out, (foldl (record_vote n tip) r l).(rc_proofs) = r.(rc_proofs) ++ out /\ relayed r.(rc_store) (foldl (record_vote n tip) r l).(rc_store) out.
Proof.
  induction l as [|v l IH]; intros r; cbn [foldl].
  - exists []. rewrite app_nil_r. split; [done|]. by apply relayed_nil.
  - destruct (record_vote_relayed tip r v) as (o1 & H1 & R1). destruct (IH (record_vote n tip r v)) as (o2 & H2 & R2). exists (o1 ++ o2).
    rewrite H2, H1, <- app_assoc. split; [done|by eapply relayed_app].
Qed.

Definition proofs_of (out : list GossipMessage) : list EquivocationProof := omap (fun m => match m with MEquivocation p => Some p | _ => None end) out.
Lemma proofs_of_map l : proofs_of (MEquivocation <$> l) = l.
Proof. induction l as [|p l IH]; [done|]. exact (f_equal (cons p) IH). Qed.

Lemma msg_relayed ck from msg w : relayed (store w) (store (on_finality_msg n ck from msg w).1) (proofs_of (on_finality_msg n ck from msg w).2).
Proof.
  destruct msg as [b|txs|hints gateway|announces|votes|proof|records]; cbn [on_finality_msg]; try (by apply relayed_nil).
  - destruct (record_all_relayed (get_last_height (store w)) (take 64 votes) (mkRecording (store w) w.(sw_finality) ∅ 0 [])) as (out & Ho & Hr).
    set (r := foldl _ _ _) in Ho, Hr. change (relayed (store w) r.(rc_store) (proofs_of (MEquivocation <$> r.(rc_proofs)))). rewrite proofs_of_map.
    rewrite Ho. exact Hr.
  - pose proof (adopt_relayed proof (store w)) as H. destruct (adopt_proof n proof (store w)) as [s [[]|]]; exact H.
Qed.

(** The messages of the finality topic, with whatever else the node does in between. *)
Inductive passing : Swarm -> list GossipMessage -> Swarm -> Prop :=
| pa_done w : passing w [] w
| pa_msg ck from msg w out w' : passing (on_finality_msg n ck from msg w).1 out w' -> passing w ((on_finality_msg n ck from msg w).2 ++ out) w'
| pa_other w w1 out w' : (store w1).(st_equivocations) = (store w).(st_equivocations) -> passing w1 out w' -> passing w out w'.

(** C19: However often and from however many peers a proof of a double vote arrives, alone or found again among the votes, this
    node sends it once: the heights of the proofs it passes on against one key rise, above those it already had. *)
Theorem proofs_relayed_once w out w' k : passing w out w' ->
  StronglySorted Z.lt (against k (proofs_of out)) /\
  forall p q, p ∈ proofs_of out -> history (store w) p.(eq_public_key) q -> q.(eq_height) < p.(eq_height).
Proof.
  intros H. assert (R : relayed (store w) (store w') (proofs_of out)).
  { induction H as [w|ck from msg w out w' _ IH|w w1 out w' He _ IH]; [by apply relayed_nil| |].
    - unfold proofs_of. rewrite omap_app. eapply relayed_app; [apply msg_relayed|exact IH].
    - change (proofs_of out) with ([] ++ proofs_of out). eapply relayed_app; [apply relayed_nil, same_remembers, He|exact IH]. }
  destruct R as [R A _ _]. split; [apply R|]. intros p q Hp. apply A. unfold against. apply list_elem_of_fmap. exists p. split; [done|].
  rewrite list_elem_of_In, filter_In, <- list_elem_of_In. split; [done|apply String.eqb_refl].
Qed.

(** ** What is never published *)

Lemma remembered ck from txs w id : id ∈ omap tx_id txs ->
  Z.of_nat (size (list_to_set (omap tx_id txs) ∪ w.(sw_live).(lv_tx_ids) : gset string)) <= 16384 ->
  id ∈ (on_tx_msg n mc json_len legacy ck from (MTransactions txs) w).(sw_live).(lv_tx_ids).
Proof.
  intros Hid Hs. cbn [on_tx_msg]. unfold on_live, admit_txs, remember_ids, on_seen, trim. cbn [fst snd sw_live lv_tx_ids on_pool].
  destruct (Z.ltb_spec 16384 (Z.of_nat (size (list_to_set (omap tx_id txs) ∪ lv_tx_ids (sw_live (heard (ck_now ck) from None w)) : gset string)))) as [Hlt|_].
  - exfalso. change (lv_tx_ids (sw_live (heard (ck_now ck) from None w))) with (lv_tx_ids (sw_live w)) in Hlt. lia.
  - cbn. by apply elem_of_union_l, elem_of_list_to_set.
Qed.

(** An id heard in a message of any peer silences the transaction that has it: whether the pool took what the peer sent or
    refused it, the transaction is not published to gossip when the pool admits it, as long as the record of ids
    is not emptied. *)
Theorem claimed_id_silences ck from txs w tx id : tx.(tx_id) = Some id -> id ∈ omap tx_id txs ->
  Z.of_nat (size (list_to_set (omap tx_id txs) ∪ w.(sw_live).(lv_tx_ids) : gset string)) <= 16384 ->
  let w' := on_tx_msg n mc json_len legacy ck from (MTransactions txs) w in
  forall l, w'.(sw_live).(lv_tx_ids) ⊆ l.(lv_tx_ids) -> publish_transactions true [tx] l = [].
Proof.
  intros Ht Hid Hs w' l Hl. pose proof (remembered ck from txs w id Hid Hs) as Hr. unfold publish_transactions. cbn [List.filter].
  rewrite Ht, bool_decide_true; [done|]. by apply Hl.
Qed.

(** Of a block that came over gossip the height is remembered, so after a rollback another block at that height is not
    published from here. *)
Lemma replacement_unpublished last h l1 l2 : h <= last -> h ∈ l2.(lv_heights) -> get_last_height l2.(lv_store) = h ->
  publish_blocks n Applied (publish_blocks n (RolledBack (h - 1)) last l1).1 l2 = (h, []).
Proof.
  intros Hl Hh Ht. cbn [publish_blocks fst]. rewrite Ht, Z.min_r by lia. destruct (Z.leb_spec h (h - 1)); [lia|]. destruct (_ || _); [done|].
  replace (h - (h - 1)) with 1 by lia. replace (h - 1 + 1) with h by lia. change (seqZ h 1) with [Z.of_nat 0 + h]. cbn [omap list_omap]. by rewrite Z.add_0_l, bool_decide_true.
Qed.

(** ** Delegates *)

(** Only the holder of a key, and only for the node that sent the message, gets it into the registry. *)
Lemma recorded_signed now instant from announces m k info : (record_announces now instant from announces m).1 !! k = Some info -> m !! k <> Some info ->
  info.(rd_node) = from /\ exists a, a ∈ announces /\ a.(da_public_key) = k /\ verify_announce now a from = true.
Proof.
  unfold record_announces. set (l := take 64 announces). assert (Hsub : forall a, a ∈ l -> a ∈ announces).
  { intros a Ha. unfold l in Ha. rewrite <- (take_drop 64 announces). apply elem_of_app. by left. }
  clearbody l. revert Hsub. generalize O. revert m. induction l as [|a l IH]; intros m ok Hsub Hk Hm; cbn [foldl] in Hk; [done|].
  destruct (verify_announce now a from) eqn:Hv; [|eapply IH; [intros; apply Hsub, elem_of_cons; by right|exact Hk|done]].
  destruct (decide (<[a.(da_public_key) := mkRustDelegate a.(da_version) from instant]> m !! k = Some info)) as [Hi|Hi].
  - apply lookup_insert_Some in Hi as [[<- <-]|[_ Hi]]; [|done]. split; [done|]. exists a. split; [apply Hsub, elem_of_cons; by left|done].
  - eapply IH; [intros; apply Hsub, elem_of_cons; by right|exact Hk|done].
Qed.

(** Its own announces pass at every node whose clock is within ten minutes, unless a signature has the length of a Schnorr one. *)
Lemma announces_accepted version now now' ks node a : Forall (fun k => secp_derive k.(kp_private_key) = Some k.(kp_public_key)) ks ->
  a ∈ sign_announces version now ks node -> Z.abs (now - now') <= MAX_SKEW ->
  (forall b, hex_decode a.(da_signature) = Some b -> length b <> 64%nat) -> verify_announce now' a node = true.
Proof.
  intros Hk Ha Hs Hlen. unfold sign_announces in Ha. apply list_elem_of_omap in Ha as (k & Hin & Ha). rewrite Forall_forall in Hk. specialize (Hk k Hin).
  destruct (sign_ecdsa _ _) as [sg|] eqn:Hsg; [|done]. injection Ha as <-. unfold verify_announce. cbn in *. destruct (Z.ltb_spec MAX_SKEW (Z.abs (now - now'))); [lia|].
  destruct (ecdsa_sign_verify _ _ _ _ Hk Hsg) as (b & Hb & Hver). unfold verify_signature, hex_dec, public_key_hex. rewrite Hb. cbn.
  destruct (Nat.eqb_spec (length b) 64) as [H64|_]; [by apply Hlen in Hb|]. by rewrite Hver.
Qed.
End facts.
