(* ===== verification/SnapshotFacts.v ===== *)
(** * What an import does to the chain

    Whatever the files hold, an import only appends blocks the way the node itself does; an interrupted import is taken
    up where it stopped; and the import of a dump writes the records the dump was made from. *)

From S2P Require Import Prelude Floats Models Env Bytes Crypto Config TxCodec TxWire TxRoundtrip BlockCodec Wallet Rules BlockVerify Round Tree Storage.
From S2P Require Import StorageFacts Deltas Chain ChainFacts ChainRounds Sync SyncFacts Finality FinalityFacts Ledger Snapshot Node.

Section imports.
Context `{E : Env} `{A : Archive}.
Variables (n : Network) (net_name : string) (chunk : nat) (opts : ImportOptions) (undo : bool) (clock : Z -> Z).
Implicit Types (s : Store) (block : Block) (i : Import) (d : Dir).
#[local] Abbreviation import_go := (import_go n chunk opts undo clock).
#[local] Abbreviation take_block := (take_block n opts).
#[local] Abbreviation write_chunk := (write_chunk n opts undo).

(** ** A chunk *)

(** A block as the loop takes it: its id is that of its bytes; it verifies at a time of the import, or, when the import is
    to be fast, its payload hash is that of its transactions. *)
Record checked block : Prop := {
  ck_id : exists id, block.(b_id) = Some id /\ (1 < block.(b_height) -> block_id block = Ok id);
  ck_height : in_u32 block.(b_height);
  ck_passed : if opts.(io_fast) then 1 < block.(b_height) -> block_payload_hash block = Ok block.(b_payload_hash)
              else exists k, (verify_block block n (clock k)).(bv_verified) = true
}.

Lemma check_passed k block : check_imported n opts.(io_fast) (clock k) block = Ok tt ->
  if opts.(io_fast) then 1 < block.(b_height) -> block_payload_hash block = Ok block.(b_payload_hash)
  else exists k, (verify_block block n (clock k)).(bv_verified) = true.
Proof.
  unfold check_imported. destruct (io_fast opts).
  - intros H Hb. rewrite (proj2 (Z.ltb_lt _ _) Hb) in H. apply rbind_ok_inv in H as (h & Hh & H). rewrite Hh. f_equal.
    by destruct (String.eqb_spec h (b_payload_hash block)).
  - intros H. exists k. by destruct (bv_verified _).
Qed.

(** Blocks that follow each other on a tip. *)
Fixpoint chained (tip : ChainTip) (blocks : list Block) : Prop :=
  match blocks with
  | [] => True
  | b :: blocks => b.(b_height) = tip.(tip_height) + 1 /\ (forall prev, tip.(tip_id) = Some prev -> b.(b_previous_block) = prev) /\
                   chained (mkTip b.(b_height) b.(b_id)) blocks
  end.

Definition tip_after (tip : ChainTip) (blocks : list Block) : ChainTip :=
  match last blocks with Some b => mkTip b.(b_height) b.(b_id) | None => tip end.

Lemma tip_after_snoc tip blocks b : tip_after tip (blocks ++ [b]) = mkTip b.(b_height) b.(b_id).
Proof. unfold tip_after. by rewrite last_snoc. Qed.

Lemma tip_after_cons tip b blocks : tip_after tip (b :: blocks) = tip_after (mkTip b.(b_height) b.(b_id)) blocks.
Proof. unfold tip_after. rewrite last_cons. by destruct (last blocks). Qed.

Lemma chained_snoc tip blocks b : chained tip blocks -> chained (tip_after tip blocks) [b] -> chained tip (blocks ++ [b]).
Proof.
  revert tip; induction blocks as [|b1 blocks IH]; intros tip H Hb; [done|]. destruct H as (H1 & H2 & H3). cbn [app chained].
  split_and!; [done..|]. apply IH; [done|]. by rewrite <- (tip_after_cons tip).
Qed.

(** What may be applied on a tip: blocks that follow it, each checked, and with [strict] the rules of the wallets. *)
Record fit (tip : ChainTip) s (blocks : list Block) : Prop := {
  fit_chain : chained tip blocks;
  fit_checked : Forall checked blocks;
  fit_rules : opts.(io_strict) = true -> check_stateful_rules n s blocks = Ok tt
}.
(** One chunk after the other, the first on the tip of the store. *)
Inductive chunk_step : ChainTip * Store -> ChainTip * Store -> Prop :=
| chunk_applied tip s blocks s1 : fit tip s blocks -> apply_blocks n s blocks undo = (s1, Done) ->
    chunk_step (tip, s) (tip_after tip blocks, s1).
(** The last chunk may fail in the store. *)
Definition imported tip s s' : Prop :=
  exists tip1 s1, rtc chunk_step (tip, s) (tip1, s1) /\ (s' = s1 \/ exists blocks, fit tip1 s1 blocks /\ s' = (apply_blocks n s1 blocks undo).1).

(** What the loop keeps: the blocks of the chunk wait on [tip]. *)
Record ready tip i : Prop := {
  rd_from : chained tip i.(im_chunk) /\ i.(im_tip) = tip_after tip i.(im_chunk) /\ 0 <= tip.(tip_height) <= u32_max;
  rd_checked : Forall checked i.(im_chunk);
  rd_tip : 0 <= i.(im_tip).(tip_height) <= u32_max
}.

Lemma header_id_of record block : deserialize_block_header record n = Ok block ->
  exists id, block.(b_id) = Some id /\ (1 < block.(b_height) -> block_id block = Ok id).
Proof.
  unfold deserialize_block_header. intros H. destruct (parse_header record n true) as [[b k]|e] eqn:Hp; [|done]. apply Ok_inj in H as <-. cbn [fst].
  unfold parse_header in Hp. repeat (apply rbind_ok_inv in Hp as ([? ?] & _ & Hp)).
  destruct (true && _); [done|]. apply rbind_ok_inv in Hp as (id & Hid & Hp). apply Ok_inj, pair_eq in Hp as [<- _]. exists id. split; [done|]. cbn.
  intros Hh. destruct (Z.eqb_spec z1 1); [lia|]. rewrite <- Hid. done.
Qed.

Lemma take_ready record tip k block i i' : ready tip i -> deserialize_block_header record n = Ok block -> take_block (clock k) block i = Ok i' -> ready tip i' /\
  i'.(im_store) = i.(im_store) /\ exists b, i'.(im_chunk) = i.(im_chunk) ++ [b] /\ i'.(im_tip) = mkTip b.(b_height) b.(b_id).
Proof.
  intros [(Hc & Ht & Hlt) Hf Hb] Hd H. pose proof (header_id_of _ _ Hd) as Hid.
  assert (Hh : in_u32 block.(b_height)).
  { unfold deserialize_block_header in Hd. destruct (parse_header record n true) as [[b k0]|e] eqn:Hp; [|done]. apply Ok_inj in Hd as <-. by eapply parse_header_height. }
  unfold Snapshot.take_block in H. destruct (Z.eqb_spec block.(b_height) (tip_height (im_tip i) + 1)) as [Hn|]; [|done].
  destruct (match tip_id (im_tip i) with Some prev => _ | None => true end) eqn:Hp; [|done].
  apply rbind_ok_inv in H as ([b txs] & Hb2 & H). apply rbind_ok_inv in H as ([] & Hck & H). apply Ok_inj in H as <-.
  assert (Hs : exists l, b = b_set_transactions l block).
  { destruct (0 <? _); [destruct (_ =? _); [|done]|]; apply Ok_inj, pair_eq in Hb2 as [<- _]; [by eexists|]. exists block.(b_transactions). by destruct block. }
  destruct Hs as [l ->]. split; [|split; [done|by exists (b_set_transactions l block)]]. split.
  - cbn [im_push im_chunk im_tip]. split_and!; [|by rewrite tip_after_snoc|lia..]. apply chained_snoc; [done|]. rewrite <- Ht. cbn. split_and!; [done| |done].
    intros prev Hprev. rewrite Hprev in Hp. by apply String.eqb_eq in Hp.
  - cbn [im_push im_chunk]. apply Forall_app_2; [done|]. constructor; [|constructor]. split; [exact Hid|exact Hh|by apply (check_passed k)].
  - cbn. bounds; lia.
Qed.

(** Seen from the far future no block is early. *)
Definition long_after : Z := (n.(n_epoch_unix) + u32_max) * 1000.
Lemma never_early block : future_slot_ms n long_after block = None.
Proof.
  unfold future_slot_ms, long_after, FUTURE_SLOT_GRACE_MS, epoch_to_unix. set (st := slot_start _ _).
  assert (0 <= st <= u32_max) by (pose proof (Z.mod_pos_bound (as_u64 (slot_number (b_timestamp block) (m_blocktime (milestone n (b_height block))) * m_blocktime (milestone n (b_height block)))) 4294967296); unfold st, slot_start, as_u32; bounds; lia). destruct (Z.ltb_spec 1000 ((n_epoch_unix n + st) * 1000 - (n_epoch_unix n + u32_max) * 1000)); [|done].
  lia.
Qed.

Lemma chunk_links blocks : forall tip, chained tip blocks -> Forall checked blocks -> 0 <= tip.(tip_height) <= u32_max ->
  exists t, rfold (link n long_after) blocks tip = Ok t.
Proof.
  induction blocks as [|b blocks IH]; intros tip Hc Hf Ht; [by eexists|]. destruct Hc as (Hh & Hp & Hc). apply Forall_cons in Hf as [[(id & Hid & _) Hb _] Hf].
  cbn [rfold]. unfold link at 1. rewrite as_u64_id by (bounds; lia). rewrite Hh, Z.eqb_refl. cbn [negb]. rewrite never_early, Hid. cbn [ok_or rbind].
  assert (Hr : match tip_id tip with
     | Some prev => if String.eqb (b_previous_block b) prev then Ok (mkTip (b_height b) (Some id)) else Err (EBlockValidation ("block " +:+ fmt_u (b_height b) +:+ " (" +:+ id +:+ ") previousBlock "
                 +:+ b.(b_previous_block) +:+ " does not match local tip " +:+ prev))
     | None => Ok (mkTip (b_height b) (Some id)) end = Ok (mkTip (b_height b) (Some id))).
  { destruct (tip_id tip) as [prev|]; [|done]. by rewrite (Hp prev), String.eqb_refl. }
  rewrite <- Hh, Hr. cbn [rbind]. rewrite Hid in Hc. apply IH; [done..|]. cbn. bounds; lia.
Qed.

Lemma checked_crypto epoch blocks : Forall checked blocks -> rfold (fun _ (r : Res unit) => r) (crypto_check n false epoch <$> blocks) tt = Ok tt.
Proof.
  induction 1 as [|b blocks [(id & Hid & Hb) _ _] _ IH]; [done|]. cbn [fmap list_fmap rfold]. unfold crypto_check at 1. rewrite Hid. cbn [ok_or rbind].
  destruct (Z.ltb_spec 1 b.(b_height)) as [Hh|]; [|exact IH]. rewrite (Hb Hh). cbn [rbind]. by rewrite String.eqb_refl.
Qed.

(** Writing a chunk is a batch the node accepts. *)
Lemma chunk_accepted tip s blocks : chained tip blocks -> Forall checked blocks -> 0 <= tip.(tip_height) <= u32_max ->
  ledger_step n s (apply_blocks n s blocks undo).1.
Proof.
  intros Hc Hf Ht. destruct (chunk_links blocks tip Hc Hf Ht) as [t Hl].
  assert (Hs : (sync_apply_blocks n s false undo 0 long_after blocks tip).1.1 = (apply_blocks n s blocks undo).1).
  { unfold sync_apply_blocks, accept. rewrite Hl. cbn [rbind]. rewrite (checked_crypto 0 _ Hf). cbn [rbind]. by destruct (apply_blocks n s blocks undo) as [s1 []]. }
  rewrite <- Hs. apply ls_accept. apply (Forall_impl _ _ _ Hf). intros b [_ Hb _]. by apply u32_low.
Qed.

Lemma fit_step tip s blocks : fit tip s blocks -> 0 <= tip.(tip_height) <= u32_max -> ledger_step n s (apply_blocks n s blocks undo).1.
Proof. intros [Hc Hf _]. by apply chunk_accepted. Qed.

Lemma chained_low blocks : forall tip, Forall checked blocks -> 0 <= tip.(tip_height) <= u32_max -> 0 <= (tip_after tip blocks).(tip_height) <= u32_max.
Proof.
  intros tip Hf Ht. unfold tip_after. destruct (last blocks) as [b|] eqn:Hl; [|done]. apply last_Some_elem_of in Hl. rewrite Forall_forall in Hf.
  destruct (Hf b Hl) as [_ Hh _]. cbn. exact Hh.
Qed.

Lemma chunks_reach p q : rtc chunk_step p q -> 0 <= p.1.(tip_height) <= u32_max -> rtc (ledger_step n) p.2 q.2 /\ 0 <= q.1.(tip_height) <= u32_max.
Proof.
  induction 1 as [p|p1 p2 p3 [tip s blocks s1 Hfit Ha] _ IH]; intros Ht; [done|]. cbn [fst snd] in *.
  destruct IH as [H1 H2]; [by apply chained_low; [destruct Hfit|]|]. split; [|done]. eapply rtc_l; [|exact H1].
  pose proof (fit_step _ _ _ Hfit Ht) as Hs. by rewrite Ha in Hs.
Qed.

Lemma imported_reaches tip s s' : imported tip s s' -> 0 <= tip.(tip_height) <= u32_max -> rtc (ledger_step n) s s'.
Proof.
  intros (tip1 & s1 & H & Hs) Ht. apply chunks_reach in H as [H Ht1]; [|done]. destruct Hs as [->|(blocks & Hf & ->)]; [done|].
  eapply rtc_r; [exact H|]. by apply (fit_step tip1).
Qed.

Lemma write_reaches tip i : ready tip i -> let r := write_chunk i in
  imported tip i.(im_store) r.1.(im_store) /\
  (r.2 = Done -> ready r.1.(im_tip) r.1 /\ r.1.(im_chunk) = [] /\ rtc chunk_step (tip, i.(im_store)) (r.1.(im_tip), r.1.(im_store))).
Proof.
  intros [(Hc & Ht & Hlt) Hf Hb]. cbn zeta. unfold Snapshot.write_chunk.
  destruct (if io_strict opts then _ else _) as [[]|e] eqn:Hr; [|split; [exists tip, (im_store i); split; [apply rtc_refl|by left]|done]].
  assert (Hfit : fit tip (im_store i) (im_chunk i)) by (split; [done|done|intros Hst; by rewrite Hst in Hr]).
  assert (Hi : imported tip (im_store i) (apply_blocks n (im_store i) (im_chunk i) undo).1).
  { exists tip, (im_store i). split; [apply rtc_refl|]. right. by exists (im_chunk i). }
  destruct (apply_blocks _ _ _ _) as [s1 []] eqn:Ha; cbn [fst] in Hi; (split; [done|]); [|done..].
  intros _. cbn. split_and!; [|done|].
  - by split; cbn.
  - apply rtc_once. rewrite Ht. by constructor.
Qed.

(** ** The whole import *)

Lemma imported_after tip s tip1 s1 s' : rtc chunk_step (tip, s) (tip1, s1) -> imported tip1 s1 s' -> imported tip s s'.
Proof. intros H (tip2 & s2 & H2 & Hs). exists tip2, s2. split; [by etrans|done]. Qed.

Lemma go_reaches cancel fault fuel : forall tip count rest i, ready tip i ->
  let r := import_go cancel fuel fault count rest i in
  imported tip i.(im_store) r.1.(im_store) /\
  (match r.2 with Broken _ => True | _ => exists tip', ready tip' r.1 /\ rtc chunk_step (tip, i.(im_store)) (tip', r.1.(im_store)) end).
Proof.
  assert (Hstay : forall tip i, imported tip (im_store i) (im_store i)) by (intros tip i; exists tip, (im_store i); split; [apply rtc_refl|by left]).
  assert (Hend : forall tip i, ready tip i -> exists tip', ready tip' i /\ rtc chunk_step (tip, im_store i) (tip', im_store i)) by (intros tip i; by exists tip).
  induction fuel as [|fuel IH]; intros tip count rest i Hr; cbn zeta; [split; [done|by apply Hend]|]. cbn [Snapshot.import_go].
  destruct (next_record fault count rest) as [[[record rest']|]|e]; [|split; [done|first [done|by apply Hend]]..].
  destruct (deserialize_block_header record n) as [block|e] eqn:Hd; [|split; [done|first [done|by apply Hend]]].
  destruct (b_height block <=? tip_height (im_tip i)); [apply (IH tip (count + 1) rest' (im_skip i)); by destruct Hr|].
  destruct (take_block (clock count) block i) as [i1|e] eqn:Ht; [|split; [done|first [done|by apply Hend]]].
  apply (take_ready record tip) in Ht as (Hr1 & Hs1 & _); [|done..]. rewrite <- Hs1. destruct (chunk <=? length (im_chunk i1))%nat; [|by apply IH].
  destruct (write_reaches tip i1 Hr1) as [Hw Hok]. destruct (write_chunk i1) as [i2 []]; cbn [fst snd] in *; [|by split..].
  destruct (Hok eq_refl) as (Hr2 & _ & Hstep). destruct (cancel (im_imported i2)); [split; [done|by exists (im_tip i2)]|].
  destruct (IH (im_tip i2) (count + 1) rest' i2 Hr2) as [H1 H2]. split; [by eapply imported_after|].
  destruct (import_go cancel fuel fault (count + 1) rest' i2) as [i3 [| |x]]; cbn [fst snd] in *; [..|done];
    destruct H2 as (tip' & Hr3 & H2); exists tip'; (split; [done|by etrans]).
Qed.

Lemma finish_reaches tip s p : imported tip s p.1.(im_store) ->
  (match p.2 with Broken _ => True | _ => exists tip', ready tip' p.1 /\ rtc chunk_step (tip, s) (tip', p.1.(im_store)) end) ->
  imported tip s (finish_import n opts undo p).1.(im_store).
Proof.
  destruct p as [i [| |x]]; cbn [fst snd]; intros Hi Hr; [..|done]; cbn [finish_import]; destruct (im_chunk i) eqn:Hc; try done;
    destruct Hr as (tip' & Hr & Hst); destruct (write_reaches tip' i Hr) as [Hw _]; apply (imported_after _ _ _ _ _ Hst) in Hw; by destruct (write_chunk i) as [i2 []].
Qed.

Lemma tip_now_low s tip : tip_now n s = Ok tip -> 0 <= tip.(tip_height) <= u32_max.
Proof.
  unfold tip_now. intros H. apply rbind_ok_inv in H as (o & Ho & H). apply Ok_inj in H as <-. destruct o as [b|]; cbn; [|bounds; lia].
  apply tip_low in Ho. bounds; lia.
Qed.

End imports.

(** ** The records of applied blocks *)

Section applied.
Context `{E : Env} (n : Network).
Implicit Types (s : Store) (b : Block) (blocks : list Block).

Definition encodes b : Prop := exists e, encode_block b n = Ok e.
Definition put_record (m : gmap Z (list byte)) b : gmap Z (list byte) :=
  match encode_block b n with Ok e => <[b.(b_height) := e]> m | Err _ => m end.

(** [s'] is [s] with the records of [blocks] on top of the tip. *)
Record applied s blocks s' : Prop := {
  ap_blocks : s'.(st_blocks) = foldl put_record s.(st_blocks) blocks;
  ap_last : get_last_height s' = get_last_height s + Z.of_nat (length blocks);
  ap_encodes : Forall encodes blocks
}.
Definition next_heights s blocks : Prop := b_height <$> blocks = seqZ (get_last_height s + 1) (Z.of_nat (length blocks)) /\ Forall low blocks.

Lemma applied_nil s : applied s [] s.
Proof. split; [done|cbn; lia|constructor]. Qed.

Lemma applied_trans s1 l1 s2 l2 s3 : applied s1 l1 s2 -> applied s2 l2 s3 -> applied s1 (l1 ++ l2) s3.
Proof.
  intros [B1 L1 E1] [B2 L2 E2]. split; [by rewrite foldl_app, B2, B1|rewrite length_app; lia|by apply Forall_app_2].
Qed.

Lemma next_heights_app s1 l1 s2 l2 : next_heights s1 (l1 ++ l2) -> next_heights s1 l1 /\ (applied s1 l1 s2 -> next_heights s2 l2).
Proof.
  intros [H Hl]. apply Forall_app in Hl as [Hl1 Hl2]. rewrite fmap_app, length_app, Nat2Z.inj_add, seqZ_app in H by lia.
  apply app_inj_1 in H as [H1 H2]; [|by rewrite length_fmap, length_seqZ, Nat2Z.id]. split; [by split|].
  intros [_ L _]. split; [|done]. rewrite L, H2. f_equal. lia.
Qed.

Lemma prepared_records blocks : forall prepared m, rmapM (prepare_block n) blocks = Ok prepared ->
  foldl (fun m (p : Block * list byte) => <[p.1.(b_height) := p.2]> m) m prepared = foldl put_record m blocks /\ Forall encodes blocks.
Proof.
  induction blocks as [|b blocks IH]; intros prepared m H; cbn [rmapM] in H; [by apply Ok_inj in H as <-|].
  apply rbind_ok_inv in H as ([b' enc] & Hb & H). apply rbind_ok_inv in H as (l & Hl & H). apply Ok_inj in H as <-.
  pose proof (prepare_encoded n _ _ _ Hb) as He. apply prepare_block_height in Hb. cbn [foldl fst snd]. destruct (IH l (put_record m b) Hl) as [H1 H2].
  split; [|constructor; [by eexists|done]]. rewrite <- H1. unfold put_record. by rewrite He, Hb.
Qed.

Lemma write_blocks_applied prepared : forall s s',
  rfold (fun s (p : Block * list byte) => write_block p.1 p.2 n.(n_pubkey_hash) s) prepared s = Ok s' ->
  b_height <$> prepared.*1 = seqZ (get_last_height s + 1) (Z.of_nat (length prepared)) -> 0 <= get_last_height s ->
  s'.(st_blocks) = foldl (fun m (p : Block * list byte) => <[p.1.(b_height) := p.2]> m) s.(st_blocks) prepared /\
  get_last_height s' = get_last_height s + Z.of_nat (length prepared).
Proof.
  induction prepared as [|[b enc] prepared IH]; intros s s' H Hh H0; cbn [rfold] in H; [apply Ok_inj in H as <-; cbn; split; [done|lia]|].
  apply rbind_ok_inv in H as (s1 & H1 & H). cbn [fst snd] in H1. apply write_block_ok in H1 as (B & _ & L).
  cbn [fmap list_fmap length fst] in Hh. rewrite seqZ_cons in Hh by lia. injection Hh as Hb Hh.
  rewrite Hb in L. rewrite (proj2 (Z.ltb_lt _ _)) in L by lia. assert (Hl1 : get_last_height s1 = get_last_height s + 1) by (unfold get_last_height at 1; by rewrite L).
  destruct (IH s1 s' H) as [H2 H3]; [rewrite Hh, Hl1; f_equal; lia|lia|]. split; [by rewrite H2, B|cbn [length]; lia].
Qed.

Lemma apply_locked_applied s blocks force undo s' : apply_locked n s blocks force undo = (s', Done) -> next_heights s blocks ->
  0 <= get_last_height s -> applied s blocks s'.
Proof.
  intros H [Hh Hl] H0. unfold apply_locked in H. destruct (rmapM _ _) as [prepared|e] eqn:Hp; [|done].
  destruct (prepared_records _ _ s.(st_blocks) Hp) as [Hrec Henc]. pose proof (prepared_heights n _ _ Hp) as Hph.
  destruct (batch_deltas _ _ _) as [ds|e]; [|done]. destruct prepared as [|[b enc] prepared]; [done|]. cbn [fmap list_fmap fst] in H.
  destruct (commit _ _ _ _ _ _) as [s1|e] eqn:Hcm; [|done]. unfold commit in Hcm. apply rbind_ok_inv in Hcm as ([] & _ & Hcm).
  apply rbind_ok_inv in Hcm as ([[s2 ur] out] & Hw & Hcm). apply rbind_ok_inv in Hcm as (s3 & Hwr & Hcm). apply Ok_inj in Hcm as <-.
  apply write_wallets_ok in Hw as (_ & _ & _ & Hch). unfold chain in Hch. injection Hch as B _ _ _ _ _ _ _ _ L _.
  assert (Hlen : length ((b, enc) :: prepared) = length blocks) by (apply (f_equal length) in Hph; rewrite !length_fmap in Hph; done).
  assert (Hl2 : get_last_height s2 = get_last_height s) by (unfold get_last_height; by rewrite L).
  destruct (write_blocks_applied _ _ _ Hwr) as [B3 L3]; [by rewrite Hph, Hh, Hl2, Hlen|lia|].
  set (s4 := if force || undo then keep_undo (b_height b) ur s3 else s3) in H. assert (Hs4 : spine s4 = spine s3).
  { unfold s4. destruct (force || undo); [|done]. unfold spine. by destruct (keep_undo_parts (b_height b) ur s3) as (-> & _ & _ & -> & -> & _). }
  assert (Hs : spine s' = spine s4).
  { apply (f_equal fst) in H. cbn [fst] in H. rewrite <- H. apply ledger_spine. rewrite (record_all_frame n ledger) by done.
    destruct (last _); [|done]. by rewrite (snapshot_frame n ledger). }
  rewrite Hs4 in Hs. injection Hs as Bs _ Ls. split; [by rewrite Bs, B3, B|unfold get_last_height at 1; rewrite Ls; unfold get_last_height in L3, Hl2 |- *; lia|done].
Qed.

Lemma run_all_applied {X} (f : Store -> X -> Store * Exit) (g : X -> list Block) xs : forall s s',
  (forall s x s', x ∈ xs -> f s x = (s', Done) -> next_heights s (g x) -> 0 <= get_last_height s -> applied s (g x) s') ->
  run_all f xs s = (s', Done) -> next_heights s (concat (g <$> xs)) -> 0 <= get_last_height s -> applied s (concat (g <$> xs)) s'.
Proof.
  induction xs as [|x xs IH]; intros s s' Hf H Hh H0; cbn [run_all] in H; [injection H as <-; apply applied_nil|].
  destruct (f s x) as [s1 []] eqn:Hx; [|done..]. cbn [fmap list_fmap concat] in Hh |- *. destruct (next_heights_app s (g x) s1 _ Hh) as [Hh1 Hh2].
  assert (Ha : applied s (g x) s1) by (apply Hf; [by left|done..]). apply (applied_trans s (g x) s1); [done|]. apply IH; [|done|by apply Hh2|destruct Ha; lia].
  intros s2 y s3 Hy. apply Hf. by right.
Qed.

Lemma concat_singles {X} (l : list X) : concat ((fun x => [x]) <$> l) = l.
Proof. induction l as [|x l IH]; [done|]. cbn. by f_equal. Qed.

Lemma apply_blocks_applied s blocks undo s' : apply_blocks n s blocks undo = (s', Done) -> next_heights s blocks -> 0 <= get_last_height s ->
  applied s blocks s'.
Proof.
  intros H Hh H0. destruct blocks as [|b [|b2 blocks]]; [injection H as <-; apply applied_nil|by eapply apply_locked_applied|].
  cbn [apply_blocks] in H. destruct undo.
  - rewrite <- (concat_singles (b :: b2 :: blocks)) in Hh |- *. apply (run_all_applied (fun s b => apply_locked n s [b] true true) (fun x => [x])); [|done..].
    intros s1 x s2 _. apply apply_locked_applied.
  - rewrite bulk_run in H. pose proof (batches_concat n [] (b :: b2 :: blocks) ltac:(done)) as Hcat. cbn [app] in Hcat. rewrite <- Hcat in Hh |- *.
    rewrite <- (list_fmap_id (batches n [] (b :: b2 :: blocks))) in Hh |- *. apply (run_all_applied (fun s l => apply_locked n s l false false) id); [|done..].
    intros s1 x s2 _. apply apply_locked_applied.
Qed.

Lemma records_elsewhere blocks : forall m k, Forall (fun b => b.(b_height) <> k) blocks -> foldl put_record m blocks !! k = m !! k.
Proof.
  induction blocks as [|b blocks IH]; intros m k H; [done|]. apply Forall_cons in H as [Hb H]. cbn [foldl]. rewrite IH by done.
  unfold put_record. destruct (encode_block b n); [by apply lookup_insert_ne|done].
Qed.

(** The record of each of the blocks. *)
Lemma applied_record s blocks b s' : applied s blocks s' -> next_heights s blocks -> b ∈ blocks ->
  exists e, encode_block b n = Ok e /\ s'.(st_blocks) !! b.(b_height) = Some e.
Proof.
  intros [B _ En] [Hh _] Hb. apply list_elem_of_split in Hb as (l1 & l2 & ->). apply Forall_app in En as [_ En]. apply Forall_cons in En as [[e He] _].
  assert (Hnd : NoDup (b_height <$> (l1 ++ b :: l2))) by (rewrite Hh; apply NoDup_seqZ). rewrite fmap_app in Hnd. apply NoDup_app in Hnd as (_ & _ & Hnd).
  cbn [fmap list_fmap] in Hnd. apply NoDup_cons in Hnd as [Hnd _]. exists e. split; [done|]. rewrite B, foldl_app. cbn [foldl]. rewrite records_elsewhere.
  - unfold put_record. rewrite He. apply lookup_insert_eq.
  - apply Forall_forall. intros b2 Hb2 He2. apply Hnd. rewrite <- He2. apply list_elem_of_fmap. by exists b2.
Qed.

Lemma applied_below s blocks s' k : applied s blocks s' -> next_heights s blocks -> k <= get_last_height s -> s'.(st_blocks) !! k = s.(st_blocks) !! k.
Proof.
  intros [B _ _] [Hh _] Hk. rewrite B. apply records_elsewhere. apply (Forall_fmap b_height (fun h => h <> k)). rewrite Hh. apply Forall_seqZ. lia.
Qed.

(** The record of the last block. *)
Lemma applied_tip s blocks b s' : applied s (blocks ++ [b]) s' -> next_heights s (blocks ++ [b]) ->
  get_last_height s' = b.(b_height) /\ exists e, encode_block b n = Ok e /\ s'.(st_blocks) !! b.(b_height) = Some e.
Proof.
  intros [B L En] [Hh _]. apply Forall_app in En as [_ En]. apply Forall_cons in En as [[e He] _].
  rewrite fmap_app, length_app, Nat2Z.inj_add, seqZ_app in Hh by lia. apply app_inj_1 in Hh as [_ Hh]; [|by rewrite length_fmap, length_seqZ, Nat2Z.id].
  cbn [fmap list_fmap length] in Hh. rewrite seqZ_cons in Hh by lia. injection Hh as Hh. split; [rewrite L, length_app; cbn [length]; lia|].
  exists e. split; [done|]. rewrite B, foldl_app. cbn [foldl]. unfold put_record at 1. rewrite He. apply lookup_insert_eq.
Qed.
End applied.

(** ** A header is the bytes it was read from *)

Section canonical.
Context `{E : Env} `{L : !EnvLaws E}.
Variable n : Network.

Lemma r_le_inv k pre suf v r : r_le k (rd pre suf) = Ok (v, r) ->
  exists suf', suf = le_bytes k v ++ suf' /\ 0 <= v < 256 ^ Z.of_nat k /\ r = rd (pre ++ le_bytes k v) suf'.
Proof.
  unfold r_le. intros H. apply rbind_ok_inv in H as ([b r1] & Hb & H). apply Ok_inj, pair_eq in H as [<- <-].
  apply r_bytes_inv in Hb as (suf' & -> & <- & ->). exists suf'. rewrite le_bytes_value. split_and!; [done|apply le_value_range..|done].
Qed.

Lemma r_hex_inv k pre suf s r : r_hex k (rd pre suf) = Ok (s, r) ->
  exists b suf', suf = b ++ suf' /\ length b = k /\ s = hex_encode b /\ r = rd (pre ++ b) suf'.
Proof.
  unfold r_hex. intros H. apply rbind_ok_inv in H as ([b r1] & Hb & H). apply Ok_inj, pair_eq in H as [<- <-].
  apply r_bytes_inv in Hb as (suf' & -> & <- & ->). by exists b, suf'.
Qed.

Ltac read_le H v suf Hv :=
  apply rbind_ok_inv in H as ([v ?r] & Hv & H);
  match type of Hv with _ = Ok (_, ?r) => unfold r_u32_le, r_u64_le, r_u16_le, r_u8 in Hv; apply r_le_inv in Hv as (suf & -> & Hv & ->) end.
Ltac read_hex H s b suf Hb :=
  apply rbind_ok_inv in H as ([s ?r] & Hb & H); apply r_hex_inv in Hb as (b & suf & -> & Hb & -> & ->).

Lemma signature_read pre suf sig r :
  (if (2 <=? r_remaining (rd pre suf))%nat then
     let? len := match r_peek_u8 1 (rd pre suf) with Some l => Ok (Z.to_nat l + 2)%nat | None => Err (ser_err "truncated block signature") end in
     let? (s, r) := r_hex len (rd pre suf) in Ok (Some s, r)
   else Ok (None, rd pre suf)) = Ok (sig, r) ->
  exists sb suf', suf = sb ++ suf' /\ r = rd (pre ++ sb) suf' /\
    forall w, match sig with Some s => w_hex s w | None => Ok w end = Ok (w_put sb w).
Proof.
  destruct (2 <=? _)%nat; intros H.
  - apply rbind_ok_inv in H as (len & _ & H). read_hex H s b suf' Hb. apply Ok_inj, pair_eq in H as [<- <-]. exists b, suf'.
    split_and!; [done..|]. intros w. apply w_hex_encode.
  - apply Ok_inj, pair_eq in H as [<- <-]. exists [], suf. rewrite app_nil_r. split_and!; [done..|]. intros w. by rewrite w_put_nil.
Qed.

Lemma pq_read v pre suf pq r :
  (if (BLOCK_VERSION_PQ <=? v) && (3 <=? r_remaining (rd pre suf))%nat then
     let? (algorithm, r) := r_u8 (rd pre suf) in
     let? (len, r) := r_u16_le r in
     let? (s, r) := r_hex (Z.to_nat len) r in Ok (Some (mkPqBlock algorithm s), r)
   else Ok (None, rd pre suf)) = Ok (pq, r) ->
  exists pb suf', suf = pb ++ suf' /\ r = rd (pre ++ pb) suf' /\
    forall w, (if BLOCK_VERSION_PQ <=? v then
                 match pq with
                 | Some q => let? sig := hex_dec q.(pb_signature) in
                     Ok (w_bytes sig (w_u16_le (as_u16 (Z.of_nat (length sig))) (w_u8 q.(pb_algorithm) w)))
                 | None => Ok w
                 end else Ok w) = Ok (w_put pb w).
Proof.
  destruct (BLOCK_VERSION_PQ <=? v); cbn [andb]; [destruct (3 <=? _)%nat|]; intros H.
  - read_le H alg q1 Ha. read_le H len q2 Hl. read_hex H s b suf' Hb. apply Ok_inj, pair_eq in H as [<- <-].
    exists (le_bytes 1 alg ++ le_bytes 2 len ++ b), suf'. split_and!; [by rewrite <- !app_assoc|by rewrite <- !app_assoc|].
    intros w. cbn [pb_signature pb_algorithm]. rewrite hex_dec_encode. cbn [rbind]. change (256 ^ Z.of_nat 2) with 65536 in Hl.
    replace (as_u16 (Z.of_nat (length b))) with len by (unfold as_u16; rewrite Hb, Z2Nat.id by lia; rewrite Z.mod_small; lia).
    unfold w_bytes, w_u16_le, w_u8. by rewrite !w_put_put, <- ?app_assoc.
  - apply Ok_inj, pair_eq in H as [<- <-]. exists [], suf. rewrite app_nil_r. split_and!; [done..|]. intros w. by rewrite w_put_nil.
  - apply Ok_inj, pair_eq in H as [<- <-]. exists [], suf. rewrite app_nil_r. split_and!; [done..|]. intros w. by rewrite w_put_nil.
Qed.

(** The one text a header has: reading takes no second spelling. *)
Lemma header_canonical record block : deserialize_block_header record n = Ok block -> serialize_block block true = Ok record.
Proof.
  unfold deserialize_block_header. intros H. destruct (parse_header record n true) as [[b k]|e] eqn:Hp; [|done]. apply Ok_inj in H as <-. cbn [fst].
  unfold parse_header in Hp. cbn zeta in Hp. rewrite r_new_rd in Hp.
  read_le Hp v q1 Hv. read_le Hp ts q2 Hts. read_le Hp h q3 Hh. read_hex Hp prev b1 q4 Hb1. read_le Hp cnt q5 Hc. read_le Hp am q6 Ha.
  read_le Hp fee q7 Hf. read_le Hp rw q8 Hr. read_le Hp pl q9 Hl. read_hex Hp ph b2 q10 Hb2. read_hex Hp g0 b3 q11 Hb3.
  apply rbind_ok_inv in Hp as ([sig r] & Hsig & Hp). apply signature_read in Hsig as (sb & q12 & -> & -> & Hsig).
  apply rbind_ok_inv in Hp as ([pq r] & Hpq & Hp). apply pq_read in Hpq as (pb & q13 & -> & -> & Hpq).
  rewrite r_remaining_rd in Hp. cbn [andb] in Hp. destruct q13 as [|? ?]; [|done]. cbn [length Nat.ltb Nat.leb] in Hp.
  apply rbind_ok_inv in Hp as (id & _ & Hp). apply Ok_inj, pair_eq in Hp as [<- _].
  unfold serialize_block, serialize_block_parts, b_set_id.
  cbn [b_version b_timestamp b_height b_previous_block b_number_of_transactions b_total_amount b_total_fee
       b_reward b_payload_length b_payload_hash b_generator_public_key b_block_signature b_pq_signature andb].
  unfold slen. rewrite hex_encode_length, Hb1. change (Z.of_nat (2 * 32) =? 64) with true. cbn [negb].
  rewrite !w_hex_encode. cbn [rbind]. rewrite w_hex_encode. cbn [rbind]. rewrite w_hex_encode. cbn [rbind]. rewrite Hsig. cbn [rbind]. rewrite Hpq. cbn [rbind].
  change (256 ^ Z.of_nat 4) with 4294967296 in *. replace (as_u32 h) with h by (unfold as_u32; rewrite Z.mod_small; lia).
  unfold w_u32_le, w_u64_le, w_into_inner. rewrite !w_put_put. cbn [w_put w_buf w_new app]. rewrite !app_nil_r, <- ?app_assoc. done.
Qed.

(** A transaction whose bytes fit a frame and are read. *)
Definition readable (tx : Transaction) : Prop :=
  forall x, tx_bytes n tx = Ok x -> fits_frame x /\ exists tx', deserialize_transaction x = Ok tx'.

Lemma frames_read l : Forall readable l -> forall out x, block_frames n l out = Ok x ->
  exists p, x = out ++ p /\ (length l <= length p)%nat /\
    forall fuel pre seq blk, (length l < fuel)%nat -> exists b', decode_transactions fuel (pre ++ p) (length pre) seq blk = Ok b' /\
      b'.(b_height) = blk.(b_height) /\ b'.(b_id) = blk.(b_id).
Proof.
  induction 1 as [|tx l Htx _ IH]; intros out x H.
  { apply Ok_inj in H as <-. exists []. split_and!; [by rewrite app_nil_r|done|]. intros [|fuel] pre seq blk Hf; [cbn in Hf; lia|].
    cbn [decode_transactions]. rewrite app_nil_r, next_frame_end. by exists blk. }
  unfold block_frames in H. cbn [rfold] in H. apply rbind_ok_inv in H as (out1 & H1 & H). apply rbind_ok_inv in H1 as (raw & Hraw & H1).
  apply Ok_inj in H1 as <-. destruct (Htx raw Hraw) as [Hfit [tx' Hd]]. apply IH in H as (p & -> & Hlen & Hp).
  exists (frame raw ++ p). split_and!; [by rewrite app_assoc|rewrite length_app; unfold frame; rewrite length_app, le_bytes_length; cbn [length]; lia|].
  intros [|fuel] pre seq blk Hf; [lia|]. cbn [decode_transactions length] in *. rewrite (next_frame_rd pre raw p Hfit). cbn [rbind]. rewrite Hd. cbn [rbind].
  rewrite app_assoc. set (blk1 := b_set_transactions _ _). destruct (Hp fuel (pre ++ frame raw) (as_u32 (seq + 1)) blk1) as (b' & Hb & Hh & Hi); [lia|].
  exists b'. by rewrite Hb, Hh, Hi.
Qed.

(** The record of an imported block is read back as a block of its height and id. *)
Lemma imported_record record block l e : deserialize_block_header record n = Ok block -> fits_frame record -> Forall readable l ->
  encode_block (b_set_transactions l block) n = Ok e ->
  exists b', decode_block e n = Ok b' /\ b'.(b_height) = block.(b_height) /\ b'.(b_id) = block.(b_id).
Proof.
  intros Hd Hfit Hl H. pose proof (header_canonical _ _ Hd) as Hs. unfold encode_block in H.
  change (serialize_block (b_set_transactions l block) true) with (serialize_block block true) in H. rewrite Hs in H. cbn [rbind] in H.
  apply (frames_read l Hl) in H as (p & -> & Hlen & Hp). unfold decode_block. pose proof (next_frame_rd [] record p Hfit) as Hn. cbn [app length] in Hn. rewrite Hn.
  cbn [rbind ok_or]. rewrite Hd. cbn [rbind]. destruct (Hp (S (length (frame record ++ p))) (frame record) 0 block) as (b' & Hb & Hh & Hi).
  - rewrite length_app. lia.
  - by exists b'.
Qed.
End canonical.

(** ** An interrupted import is taken up where it stopped *)

Section resume.
Context `{E : Env} `{L : !EnvLaws E} `{A : Archive}.
Variables (n : Network) (net_name : string) (chunk : nat) (opts : ImportOptions) (undo : bool) (clock : Z -> Z).
Implicit Types (s : Store) (block : Block) (i j : Import) (d : Dir).
#[local] Abbreviation import_go := (import_go n chunk opts undo clock).
#[local] Abbreviation take_block := (take_block n opts).
#[local] Abbreviation write_chunk := (write_chunk n opts undo).

Definition never : Z -> bool := fun _ => false.

(** Two states that go on alike, the first with [k] more blocks behind it: what is left of the transactions below the tip
    does not matter. *)
Record alike (k : Z) i j : Prop := {
  al_store : i.(im_store) = j.(im_store);
  al_tip : i.(im_tip) = j.(im_tip);
  al_chunk : i.(im_chunk) = j.(im_chunk);
  al_txs : forall h, i.(im_tip).(tip_height) < h -> i.(im_txs) !! h = j.(im_txs) !! h;
  al_count : i.(im_imported) = k + j.(im_imported)
}.

Lemma take_alike k now block i j : alike k i j ->
  match take_block now block i, take_block now block j with Ok i', Ok j' => alike k i' j' | Err e, Err e' => e = e' | _, _ => False end.
Proof.
  intros [Hs Ht Hc Hx Hk]. unfold Snapshot.take_block. rewrite <- Ht. destruct (Z.eqb_spec block.(b_height) (tip_height (im_tip i) + 1)) as [Hn|]; [|done].
  destruct (match tip_id (im_tip i) with Some prev => _ | None => true end); [|done]. rewrite <- (Hx (b_height block)) by lia.
  destruct (0 <? b_number_of_transactions block); [destruct (as_u32 _ =? _); [|done]|]; cbn [rbind]; (destruct (check_imported _ _ _ _); cbn [rbind]; [|done]);
    (split; cbn [im_push im_store im_tip im_chunk im_txs im_imported tip_height b_height b_set_transactions]; [done|done|by rewrite Hc| |done]); intros h Hh.
  - rewrite !lookup_delete_ne by lia. apply Hx. lia.
  - apply Hx. lia.
Qed.

Lemma write_alike k i j : alike k i j -> alike k (write_chunk i).1 (write_chunk j).1 /\ (write_chunk i).2 = (write_chunk j).2.
Proof.
  intros [Hs Ht Hc Hx Hk]. unfold Snapshot.write_chunk. rewrite <- Hs, <- Hc. destruct (if io_strict opts then _ else _); [|by split].
  destruct (apply_blocks _ _ _ _) as [s1 []]; (split; [split|]; cbn; try done). rewrite Hc. lia.
Qed.

Lemma go_alike k fuel fault : forall count rest i j, alike k i j ->
  alike k (import_go never fuel fault count rest i).1 (import_go never fuel fault count rest j).1 /\
  (import_go never fuel fault count rest i).2 = (import_go never fuel fault count rest j).2.
Proof.
  induction fuel as [|fuel IH]; intros count rest i j H; [done|]. cbn [Snapshot.import_go].
  destruct (next_record fault count rest) as [[[record rest']|]|e]; [|done..]. destruct (deserialize_block_header record n) as [block|e]; [|done].
  rewrite <- (al_tip _ _ _ H). destruct (b_height block <=? tip_height (im_tip i)); [apply IH; by destruct H|].
  pose proof (take_alike k (clock count) block i j H) as Ht. destruct (take_block (clock count) block i) as [i1|e], (take_block (clock count) block j) as [j1|e']; try done.
  2: { by rewrite Ht. }
  rewrite <- (al_chunk _ _ _ Ht). destruct (chunk <=? length (im_chunk i1))%nat; [|by apply IH].
  destruct (write_alike k i1 j1 Ht) as [Hw He]. destruct (write_chunk i1) as [i2 x], (write_chunk j1) as [j2 y]. cbn [fst snd] in Hw, He. subst y.
  destruct x; [|done..]. by apply IH.
Qed.

Lemma finish_alike k p q : alike k p.1 q.1 -> p.2 = q.2 ->
  alike k (finish_import n opts undo p).1 (finish_import n opts undo q).1 /\ (finish_import n opts undo p).2 = (finish_import n opts undo q).2.
Proof.
  destruct p as [i x], q as [j y]. cbn [fst snd]. intros H <-. pose proof (write_alike k i j H) as [Hw He]. unfold finish_import. rewrite <- (al_chunk _ _ _ H).
  destruct x; try done; (destruct (im_chunk i); [done|]); destruct (write_chunk i) as [i2 x], (write_chunk j) as [j2 y]; cbn [fst snd] in Hw, He; subst y; by destruct x.
Qed.

(** ** The tip of a written chunk *)

Definition from_file block : Prop := exists record blk l, deserialize_block_header record n = Ok blk /\ fits_frame record /\ Forall (readable n) l /\
  block = b_set_transactions l blk.

(** The chunk waits right on the tip of the store, and all of it can be read back. *)
Record waiting i : Prop := {
  wt_next : next_heights i.(im_store) i.(im_chunk);
  wt_tip : i.(im_tip).(tip_height) = get_last_height i.(im_store) + Z.of_nat (length i.(im_chunk));
  wt_last : forall l b, i.(im_chunk) = l ++ [b] -> i.(im_tip) = mkTip b.(b_height) b.(b_id);
  wt_files : Forall from_file i.(im_chunk);
  wt_txs : map_Forall (fun _ l => Forall (readable n) l) i.(im_txs);
  wt_positive : 0 <= get_last_height i.(im_store)
}.

Lemma take_waiting record now block i j : waiting i -> deserialize_block_header record n = Ok block -> fits_frame record ->
  take_block now block i = Ok j -> waiting j /\ (forall h, j.(im_tip).(tip_height) < h -> j.(im_txs) !! h = i.(im_txs) !! h) /\
    i.(im_tip).(tip_height) <= j.(im_tip).(tip_height) /\ b_height block <= j.(im_tip).(tip_height) /\ j.(im_store) = i.(im_store) /\ j.(im_chunk) <> [].
Proof.
  intros [[Hn Hlow] Htip Hlast Hf Hx H0] Hd Hfit H.
  assert (Hh : in_u32 block.(b_height)).
  { unfold deserialize_block_header in Hd. destruct (parse_header record n true) as [[b k]|e] eqn:Hp; [|done]. apply Ok_inj in Hd as <-. by eapply parse_header_height. }
  unfold Snapshot.take_block in H. destruct (Z.eqb_spec block.(b_height) (tip_height (im_tip i) + 1)) as [Hb|]; [|done].
  destruct (match tip_id (im_tip i) with Some prev => _ | None => true end); [|done].
  apply rbind_ok_inv in H as ([b txs] & Hb2 & H). apply rbind_ok_inv in H as ([] & _ & H). apply Ok_inj in H as <-.
  assert (Hs : exists l, b = b_set_transactions l block /\ Forall (readable n) l /\ map_Forall (fun _ l => Forall (readable n) l) txs /\
            forall h, b_height block < h -> txs !! h = im_txs i !! h).
  { destruct (0 <? _); [destruct (_ =? _); [|done]|]; apply Ok_inj, pair_eq in Hb2 as [<- <-].
    - eexists. split_and!; [done| |by apply map_Forall_delete|intros h Hlt; apply lookup_delete_ne; lia]. destruct (im_txs i !! b_height block) eqn:He; [by apply (Hx _ _ He)|constructor].
    - exists []. split_and!; [|constructor|done..]. unfold deserialize_block_header in Hd. destruct (parse_header record n true) as [[b k]|e] eqn:Hp; [|done].
      apply Ok_inj in Hd as <-. cbn [fst]. unfold parse_header in Hp. repeat (apply rbind_ok_inv in Hp as ([? ?] & _ & Hp)).
      destruct (true && _); [done|]. apply rbind_ok_inv in Hp as (id & _ & Hp). by apply Ok_inj, pair_eq in Hp as [<- _]. }
  destruct Hs as (l & -> & Hl & Hx2 & Hd2). split; [|cbn [im_push im_tip im_txs im_store im_chunk tip_height b_height b_set_transactions]; split_and!; [done|lia|lia|done|by destruct (im_chunk i)]].
  split; cbn [im_push im_store im_chunk im_tip im_txs tip_height b_height b_set_transactions].
  - split.
    + rewrite fmap_app, length_app, Hn, Nat2Z.inj_add, seqZ_app by lia. f_equal. cbn [fmap list_fmap length b_height b_set_transactions]. rewrite seqZ_cons by lia.
      rewrite seqZ_nil by lia. f_equal. lia.
    + apply Forall_app_2; [done|]. constructor; [by apply u32_low|constructor].
  - rewrite length_app. cbn [length]. lia.
  - intros l1 b1 He. apply app_inj_tail in He as [_ <-]. done.
  - apply Forall_app_2; [done|]. constructor; [|constructor]. by exists record, block, l.
  - done.
  - done.
Qed.

Lemma write_waiting i j : waiting i -> i.(im_chunk) <> [] -> write_chunk i = (j, Done) ->
  waiting j /\ tip_now n j.(im_store) = Ok j.(im_tip) /\ j.(im_chunk) = [] /\ j.(im_tip) = i.(im_tip) /\ j.(im_txs) = i.(im_txs).
Proof.
  intros [Hn Htip Hlast Hf Hx H0] Hne H. unfold Snapshot.write_chunk in H. destruct (if io_strict opts then _ else _); [|done].
  destruct (apply_blocks _ _ _ _) as [s1 []] eqn:Ha; [|done..]. injection H as <-. apply apply_blocks_applied in Ha; [|done..].
  destruct (exists_last Hne) as (l & b & Hl). pose proof (Hlast l b Hl) as Htb. rewrite Hl in Ha, Hn, Hf. destruct (applied_tip n _ _ _ _ Ha Hn) as [Hlh (e & He & Hst)].
  pose proof (ap_last _ _ _ _ Ha) as Hlen. rewrite <- Hl in Hlen.
  cbn [im_written im_store im_tip im_chunk im_txs]. split_and!; [|clear Htip|done..].
  - split; cbn [im_written im_store im_tip im_chunk im_txs length]; [split; [reflexivity|constructor]|lia| |constructor|done|lia]. intros [|? ?] ? ?; done.
  - apply Forall_app in Hf as [_ Hf]. apply Forall_cons in Hf as [(record & blk & txs & Hd & Hfit & Hr & ->) _].
    destruct (imported_record n record blk txs e Hd Hfit Hr He) as (b' & Hb & Hbh & Hbi). unfold tip_now, get_last_block, get_block_by_height. rewrite Hlh, Hst, Hb.
    cbn [b_height b_set_transactions] in Hlh |- *. rewrite Hl, length_app in Hlen. cbn [length] in Hlen. destruct (Z.eqb_spec (b_height blk) 0); [lia|]. cbn [rbind].
    by rewrite Htb, Hbh, Hbi.
Qed.

(** ** The two runs *)

Lemma next_record_fits fault count rest record rest' : next_record fault count rest = Ok (Some (record, rest')) -> fits_frame record.
Proof.
  unfold next_record. destruct (_ <? _)%nat; [destruct fault as [[[] ?]|]; done|]. set (len := Z.to_nat (le_value (take 4 rest))).
  destruct (_ <? len)%nat; [done|]. intros H. injection H as <- _. unfold fits_frame. rewrite length_take.
  pose proof (le_value_range (take 4 rest)) as Hr. assert (Z.of_nat (length (take 4 rest)) <= 4) by (rewrite length_take; lia).
  assert (256 ^ Z.of_nat (length (take 4 rest)) <= 256 ^ 4) by (apply Z.pow_le_mono_r; lia). change (256 ^ 4) with 4294967296 in *. bounds. lia.
Qed.

(** Where a run was interrupted: the run that goes on goes on from there, and a run that starts with the tip reached
    passes over everything before. *)
Record stopped fuel fault count rest i j : Prop := {
  sp_tip : tip_now n j.(im_store) = Ok j.(im_tip);
  sp_chunk : j.(im_chunk) = [];
  sp_above : i.(im_tip).(tip_height) <= j.(im_tip).(tip_height);
  sp_txs : forall h, j.(im_tip).(tip_height) < h -> j.(im_txs) !! h = i.(im_txs) !! h;
  sp_rest : exists fuel' count' rest', import_go never fuel fault count rest i = import_go never fuel' fault count' rest' j /\
    forall k, k.(im_tip) = j.(im_tip) -> exists k', alike 0 k' k /\ import_go never fuel fault count rest k = import_go never fuel' fault count' rest' k'
}.

Lemma alike_refl i : alike 0 i i.
Proof. by split. Qed.

Lemma go_stopped cancel fuel fault : forall count rest i j, waiting i -> import_go cancel fuel fault count rest i = (j, Interrupted) -> stopped fuel fault count rest i j.
Proof.
  induction fuel as [|fuel IH]; intros count rest i j Hi H; [done|]. cbn [Snapshot.import_go] in H.
  destruct (next_record fault count rest) as [[[record rest']|]|e] eqn:Hn; [|done..]. pose proof (next_record_fits _ _ _ _ _ Hn) as Hfit.
  destruct (deserialize_block_header record n) as [block|e] eqn:Hd; [|done].
  (* a run that starts from the tip of [j] passes over this record when its height is not above *)
  assert (Hpass : forall j, block.(b_height) <= j.(im_tip).(tip_height) -> forall k, k.(im_tip) = j.(im_tip) ->
            import_go never (S fuel) fault count rest k = import_go never fuel fault (count + 1) rest' (im_skip k)).
  { intros j' Hle k Hk. cbn [Snapshot.import_go]. rewrite Hn, Hd, Hk. by rewrite (proj2 (Z.leb_le _ _) Hle). }
  destruct (Z.leb_spec (b_height block) (tip_height (im_tip i))) as [Hle|Hgt].
  - destruct (IH (count + 1) rest' (im_skip i) j) as [T C U X (f' & c' & r' & H1 & H2)]; [by destruct Hi|done|].
    split; [done..|]. exists f', c', r'. split; [by rewrite (Hpass i Hle i eq_refl), H1|]. intros k Hk.
    destruct (H2 (im_skip k) Hk) as (k' & Hk' & He). cbn in U. exists k'. split; [by destruct Hk'|]. rewrite (Hpass j); [done|lia|done].
  - destruct (take_block (clock count) block i) as [i1|e] eqn:Ht; [|done].
    destruct (take_waiting record _ _ _ _ Hi Hd Hfit Ht) as (Hi1 & Hx1 & Hle1 & Hb1 & _ & Hne).
    assert (Hgo1 : import_go never (S fuel) fault count rest i = (if (chunk <=? length (im_chunk i1))%nat then
         match write_chunk i1 with (i2, Done) => import_go never fuel fault (count + 1) rest' i2 | (i2, x) => (i2, Broken x) end
         else import_go never fuel fault (count + 1) rest' i1)).
    { cbn [Snapshot.import_go]. rewrite Hn, Hd. rewrite (proj2 (Z.leb_gt _ _) Hgt), Ht. done. }
    destruct (chunk <=? length (im_chunk i1))%nat.
    + destruct (write_chunk i1) as [i2 []] eqn:Hw; [|done..]. destruct (write_waiting i1 i2 Hi1 Hne Hw) as (Hi2 & Ht2 & Hc2 & Htip2 & Htx2).
      destruct (cancel (im_imported i2)).
      * injection H as <-. split; [done|done|by rewrite Htip2|intros h Hh; rewrite Htx2; apply Hx1; by rewrite <- Htip2|]. exists fuel, (count + 1), rest'.
        split; [done|]. intros k Hk. exists (im_skip k). split; [by split|]. apply (Hpass i2); [by rewrite Htip2|done].
      * destruct (IH (count + 1) rest' i2 j Hi2 H) as [T C U X (f' & c' & r' & H1 & H2)]. rewrite Htip2 in U.
        split; [done|done|lia|intros h Hh; rewrite (X h Hh), Htx2; apply Hx1; lia|]. exists f', c', r'. split; [by rewrite Hgo1, H1|]. intros k Hk.
        destruct (H2 (im_skip k) Hk) as (k' & Hk' & He). exists k'. split; [by destruct Hk'|]. rewrite (Hpass j); [done|lia|done].
    + destruct (IH (count + 1) rest' i1 j Hi1 H) as [T C U X (f' & c' & r' & H1 & H2)].
      split; [done|done|lia|intros h Hh; rewrite (X h Hh); apply Hx1; lia|]. exists f', c', r'. split; [by rewrite Hgo1, H1|]. intros k Hk.
      destruct (H2 (im_skip k) Hk) as (k' & Hk' & He). exists k'. split; [by destruct Hk'|]. rewrite (Hpass j); [done|lia|done].
Qed.

(** What the two runs report: the second starts where the first one ended, and together they are the whole. *)
Definition continues (first second whole : Imported) : Prop :=
  match first, second, whole with
  | Reported r1, Reported r2, Reported r =>
      r2.(ir_start_height) = r1.(ir_end_height) /\ r2.(ir_end_height) = r.(ir_end_height) /\
      r1.(ir_imported) + r2.(ir_imported) = r.(ir_imported) /\ r2.(ir_interrupted) = false /\ r.(ir_interrupted) = false
  | Reported _, Refused x, Refused y => x = y
  | _, _, _ => False
  end.

Lemma never_interrupted fuel fault : forall count rest i, (import_go never fuel fault count rest i).2 <> Interrupted.
Proof.
  induction fuel as [|fuel IH]; intros count rest i; [done|]. cbn [Snapshot.import_go].
  destruct (next_record _ _ _) as [[[record rest']|]|e]; [|done..]. destruct (deserialize_block_header record n) as [block|e]; [|done].
  destruct (_ <=? _); [apply IH|]. destruct (take_block _ _ _) as [i1|e]; [|done]. destruct (chunk <=? _)%nat; [|apply IH].
  destruct (write_chunk i1) as [i2 []]; [apply IH|done..].
Qed.

(** C12: An import that is interrupted loses nothing: running it again on the same files ends in the very store, and with the same
    outcome, as an import that is left to run; the two reports together are the whole.  The transactions of the dump must
    be readable from their own bytes, which the store needs to read the tip back. *)
Theorem interrupted_import_resumes cancel s d meta txs tip reader s1 r1 :
  prepare_import n net_name s d = Ok (meta, txs, tip, reader) -> tip.(tip_height) = get_last_height s -> 0 <= get_last_height s ->
  map_Forall (fun _ l => Forall (readable n) l) txs ->
  import_snapshot n net_name chunk opts undo clock cancel s d = (s1, Reported r1) -> r1.(ir_interrupted) = true ->
  let whole := import_snapshot n net_name chunk opts undo clock never s d in
  let second := import_snapshot n net_name chunk opts undo clock never s1 d in
  second.1 = whole.1 /\ continues (Reported r1) second.2 whole.2.
Proof.
  intros Hp Htip H0 Htx Himp Hint. cbn zeta. unfold import_snapshot in *. rewrite Hp in Himp |- *.
  set (fuel := S (length (sr_bytes reader))) in *. set (go := import_go never fuel (sr_fault reader) 0 (sr_bytes reader)) in *. set (i0 := mkImport s tip txs [] 0 0) in *.
  assert (Hi0 : waiting i0) by (split; cbn; [by split; [reflexivity|constructor]|lia|intros [|? ?] ? ?; done|constructor|done|done]).
  destruct (import_go cancel fuel (sr_fault reader) 0 (sr_bytes reader) i0) as [j e] eqn:Hgo.
  assert (e = Interrupted) as ->.
  { unfold finish_import in Himp. destruct e as [| |x]; [|done|done].
    destruct (im_chunk j); [injection Himp as _ <-; done|]. destruct (write_chunk j) as [j2 []]; [injection Himp as _ <-; done|done..]. }
  destruct (go_stopped cancel fuel _ _ _ i0 j Hi0 Hgo) as [Tj Cj Uj Xj (fuel' & count' & rest' & H1 & H2)].
  cbn [finish_import] in Himp. rewrite Cj in Himp. injection Himp as <- <-.
  assert (Hp2 : prepare_import n net_name (im_store j) d = Ok (meta, txs, im_tip j, reader)).
  { unfold prepare_import in Hp |- *. destruct (read_meta d) as [m|]; [|done]. cbn [rbind] in Hp |- *. destruct (String.eqb _ _); [|done]. destruct (String.eqb _ _); [|done].
    destruct (load_transactions d m) as [l|]; [|done]. cbn [rbind] in Hp |- *. destruct (_ =? _); [|done]. rewrite Tj. destruct (tip_now n s); [|done].
    cbn [rbind] in Hp |- *. destruct (open_records _ _ _); [|done]. cbn [rbind] in Hp |- *. apply Ok_inj in Hp. by injection Hp as -> -> _ ->. }
  rewrite Hp2. fold fuel. set (k0 := mkImport (im_store j) (im_tip j) txs [] 0 0).
  destruct (H2 k0 eq_refl) as (k' & Hk' & Hk). subst go. fold k0. rewrite H1, Hk.
  assert (Ha : alike (im_imported j) j k').
  { destruct Hk' as [S' T' C' X' I']. cbn in S', T', C', X', I'. split; [done|done|by rewrite Cj, C'|intros h Hh; rewrite (Xj h Hh), X'; [done|by rewrite T']|lia]. }
  destruct (go_alike _ fuel' (sr_fault reader) count' rest' j k' Ha) as [Hg He].
  pose proof (never_interrupted fuel' (sr_fault reader) count' rest' j) as Hnj.
  destruct (finish_alike _ _ _ Hg He) as [[S' T' _ _ I'] He'].
  set (p := import_go never fuel' (sr_fault reader) count' rest' j) in *. set (q := import_go never fuel' (sr_fault reader) count' rest' k') in *.
  assert (Hb : forall b, (finish_import n opts undo p).2 = inr b -> b = false).
  { intros b. unfold finish_import. destruct p as [i [| |x]]; cbn [snd] in Hnj; [|done|done]. destruct (im_chunk i); [by intros [= <-]|].
    destruct (write_chunk i) as [? []]; [by intros [= <-]|done..]. }
  destruct (finish_import n opts undo p) as [a x], (finish_import n opts undo q) as [b y]. cbn [fst snd] in *. subst y.
  destruct x as [x|b0]; cbn; [done|]. rewrite (Hb b0 eq_refl). split; [done|]. split_and!; [done|by rewrite T'|lia|done|done].
Qed.
End resume.

(** ** A dump imported again

    The dump of a chain, imported into an empty store or into one that already has its first blocks, leaves the records
    the dump was made from, unless the store itself refuses a block. *)

Section trip.
Context `{E : Env} `{L : !EnvLaws E} `{A : Archive} `{AL : !ArchiveLaws A}.
Variables (n : Network) (net_name : string) (chunk : nat) (opts : ImportOptions) (undo : bool) (clock : Z -> Z).
Implicit Types (s : Store) (b block : Block) (bs : list Block) (i : Import) (tx : Transaction).

(** ** A block of the chain that is dumped *)

Definition header_bytes b : list byte := default [] (res_ok (serialize_block b true)).
Definition raw_bytes tx : list byte := default [] (res_ok (tx_bytes n tx)).
Definition buffer b (seq : nat) tx : list byte := default [] (res_ok (write_value (transaction_value b.(b_height) b seq tx (raw_bytes tx)))).
Definition buffers b : list (list byte) := imap (buffer b) b.(b_transactions).

(** What is asked of it: it is read from a record of the store that was written from a block the format can carry. *)
Record carried (v : list byte) b : Prop := {
  ca_header : serialize_block b true = Ok (header_bytes b);
  ca_parse : deserialize_block_header (header_bytes b) n = Ok (b_header b);
  ca_fits : fits_frame (header_bytes b);
  ca_id : is_Some b.(b_id);
  ca_height : in_u32 b.(b_height);
  ca_txs : forall seq tx, b.(b_transactions) !! seq = Some tx -> tx_bytes n tx = Ok (raw_bytes tx) /\
    exists w, deserialize_transaction (raw_bytes tx) = Ok w /\ is_Some w.(tx_id) /\ tx = tx_set_sequence (Some (Z.of_nat seq)) (tx_set_block_height (Some b.(b_height)) (tx_set_block_id b.(b_id) w));
  ca_count : Z.of_nat (length b.(b_transactions)) <= u32_max;
  ca_encode : encode_block b n = Ok v
}.

Lemma restored_frames bid h l : forall k out, block_frames n (imap (fun j => restored n bid h (k + j)%nat) l) out = block_frames n l out.
Proof.
  unfold block_frames. induction l as [|tx l IH]; intros k out; [done|]. cbn [imap rfold]. change (tx_bytes n (restored n bid h (k + 0) tx)) with (tx_bytes n tx).
  destruct (tx_bytes n tx) as [x|e]; [|done]. cbn [rbind]. rewrite <- (IH (S k)). f_equal. apply imap_ext. intros j y _. cbn. f_equal. lia.
Qed.

Lemma record_carried v w : wire_record n w -> encode_block w n = Ok v -> exists b, decode_block v n = Ok b /\ carried v b /\ b.(b_height) = w.(b_height) /\
  b.(b_number_of_transactions) = w.(b_number_of_transactions) /\ length b.(b_transactions) = length w.(b_transactions).
Proof.
  intros Hw Hv. destruct (record_roundtrip n w Hw) as (h & p & Hs & He & Hd). rewrite Hv in He. apply Ok_inj in He as <-. destruct Hw as [Hh Hfit Htx Hc].
  set (b := b_set_transactions _ _) in Hd. exists b. split_and!; [done| |done|done|by cbn; rewrite length_imap].
  assert (Hsb : serialize_block b true = Ok h) by done. assert (Hb : header_bytes b = h) by (unfold header_bytes; by rewrite Hsb).
  destruct (header_roundtrip w Hh) as (h' & Hs' & Hr). rewrite Hs in Hs'. apply Ok_inj in Hs' as <-. split; rewrite ?Hb.
  - done.
  - unfold deserialize_block_header. pose proof (Hr n true [] ltac:(by left) ltac:(done)) as Hp. rewrite app_nil_r in Hp. by rewrite Hp.
  - by apply Hfit.
  - by eexists.
  - apply Hh.
  - intros seq tx Hx. cbn in Hx. rewrite list_lookup_imap in Hx. apply fmap_Some in Hx as (t & Ht & ->). rewrite Forall_lookup in Htx. destruct (Htx seq t Ht) as [Hwt _].
    destruct (wire_roundtrip t n.(n_pubkey_hash) Hwt) as (x & Hx & Hdx). fold (tx_bytes n t) in Hx.
    assert (Hrb : tx_bytes n (restored n (Some (header_id n w h)) (b_height w) seq t) = Ok x) by done. unfold raw_bytes. rewrite Hrb. cbn. split; [done|].
    eexists. split; [exact Hdx|]. split; [by eexists|]. unfold restored, tx_hash_id. by rewrite Hx.
  - cbn. by rewrite length_imap.
  - unfold encode_block. rewrite Hsb. cbn [rbind b_transactions b_set_transactions b]. rewrite <- Hv. unfold encode_block. rewrite Hs. cbn [rbind].
    apply (restored_frames (Some (header_id n w h)) (b_height w) (b_transactions w) 0).
Qed.

Lemma carried_sequences v b : carried v b -> forall seq tx, b.(b_transactions) !! seq = Some tx -> tx.(tx_sequence) = Some (Z.of_nat seq) /\
  tx.(tx_block_height) = Some b.(b_height) /\ tx.(tx_block_id) = b.(b_id) /\ is_Some tx.(tx_id).
Proof. intros Hc seq tx Hx. destruct (ca_txs _ _ Hc seq tx Hx) as (_ & w & _ & Hi & ->). done. Qed.

(** ** Records of transactions *)

(** The text of one transaction, read back. *)
Lemma buffer_read v b seq tx : carried v b -> b.(b_transactions) !! seq = Some tx ->
  write_value (transaction_value b.(b_height) b seq tx (raw_bytes tx)) = Ok (buffer b seq tx) /\ decode_transaction_record (buffer b seq tx) = Ok tx.
Proof.
  intros Hc Hx. destruct (value_back (transaction_value b.(b_height) b seq tx (raw_bytes tx))) as (buf & Hw & Hr). unfold buffer. rewrite Hw. cbn [res_ok default from_option Datatypes.id]. split; [done|].
  destruct (ca_txs _ _ Hc seq tx Hx) as (_ & w & Hd & [txid Hid] & Htx). destruct (ca_id _ _ Hc) as [bid Hbid]. pose proof (ca_height _ _ Hc) as Hh.
  assert (Hseq : (seq < length b.(b_transactions))%nat) by (by eapply lookup_lt_Some). pose proof (ca_count _ _ Hc) as Hcount.
  unfold decode_transaction_record. rewrite Hr. cbn [map_err rbind]. unfold transaction_value. rewrite array_back. cbn [ok_or rbind length Nat.leb lookup list_lookup mbind option_bind].
  rewrite !str_back. cbn [ok_or rbind]. rewrite u64_back by (bounds; lia). cbn [ok_or rbind].
  assert (Hs : tx.(tx_sequence) = Some (Z.of_nat seq)) by (by rewrite Htx). rewrite Hs. cbn [default from_option Datatypes.id]. rewrite u64_back by (bounds; lia). cbn [ok_or rbind].
  rewrite binary_back. cbn [rbind]. rewrite Hd. cbn [rbind]. assert (Hti : tx.(tx_id) = Some txid) by (by rewrite Htx). rewrite Hti, Hid. cbn [default from_option].
  rewrite bool_decide_true by done. rewrite as_u32_id by (bounds; lia). rewrite Hbid in Htx |- *. f_equal. symmetry. exact Htx.
Qed.

(** ** The dump *)

Definition frames (l : list (list byte)) : list byte := concat (frame <$> l).
Lemma frames_app l1 l2 : frames (l1 ++ l2) = frames l1 ++ frames l2.
Proof. unfold frames. by rewrite fmap_app, concat_app. Qed.

Lemma dump_transactions b l : forall k acc,
  (forall j tx, l !! j = Some tx -> tx_bytes n tx = Ok (raw_bytes tx) /\
     write_value (transaction_value b.(b_height) b (k + j) tx (raw_bytes tx)) = Ok (buffer b (k + j) tx)) ->
  rfold (dump_transaction n b.(b_height) b) (imap (fun j tx => (k + j, tx)%nat) l) acc
  = Ok (mkDump acc.(du_blocks) (acc.(du_transactions) ++ frames (imap (fun j => buffer b (k + j)) l)) (acc.(du_count) + Z.of_nat (length l))).
Proof.
  induction l as [|tx l IH]; intros k acc H.
  { cbn. rewrite app_nil_r, Z.add_0_r. by destruct acc. }
  cbn [imap rfold]. destruct (H 0%nat tx eq_refl) as [Hr Hw]. unfold dump_transaction at 1. cbn [fst snd]. rewrite Hr. cbn [rbind]. rewrite Hw. cbn [map_err rbind].
  assert (Hs : forall j, (k + S j)%nat = (S k + j)%nat) by lia.
  rewrite (imap_ext (compose (fun j tx => (k + j, tx)%nat) S) (fun j tx => (S k + j, tx)%nat)) by (intros j t _; unfold compose; by rewrite Hs).
  rewrite IH. 2: { intros j t Ht. rewrite <- Hs. by apply (H (S j)). }
  cbn [du_blocks du_transactions du_count length]. f_equal. f_equal; [|lia]. unfold frames. cbn [imap fmap list_fmap concat]. rewrite <- app_assoc. do 2 f_equal.
  f_equal. f_equal. apply imap_ext. intros j t _. unfold compose. by rewrite Hs.
Qed.

(** The blocks of a store as they are read. *)
Definition stored s b : Prop := get_block_by_height n s b.(b_height) = Ok (Some b) /\ exists v, s.(st_blocks) !! b.(b_height) = Some v /\ carried v b.
Definition tx_count bs : Z := zsum ((fun b => Z.of_nat (length b.(b_transactions))) <$> bs).

Lemma dump_blocks s bs : forall acc, Forall (stored s) bs ->
  rfold (dump_height n s) (b_height <$> bs) acc
  = Ok (mkDump (acc.(du_blocks) ++ frames (header_bytes <$> bs)) (acc.(du_transactions) ++ frames (concat (buffers <$> bs))) (acc.(du_count) + tx_count bs)).
Proof.
  induction bs as [|b bs IH]; intros acc H.
  { cbn. rewrite !app_nil_r, Z.add_0_r. by destruct acc. }
  apply Forall_cons in H as [(Hg & v & _ & Hc) H]. cbn [fmap list_fmap rfold]. unfold dump_height at 1. rewrite Hg. cbn [rbind ok_or].
  rewrite (ca_header _ _ Hc). cbn [rbind].
  pose proof (dump_transactions b b.(b_transactions) 0 (mkDump (acc.(du_blocks) ++ frame (header_bytes b)) acc.(du_transactions) acc.(du_count))) as Hd.
  change (imap pair (b_transactions b)) with (imap (fun j tx => (0 + j, tx)%nat) (b_transactions b)). rewrite Hd; clear Hd.
  2: { intros j tx Hx. destruct (ca_txs _ _ Hc j tx Hx) as [Hr _]. split; [done|]. by apply (buffer_read v). }
  cbn [rbind du_blocks du_transactions du_count]. rewrite (IH _ H). cbn [du_blocks du_transactions du_count]. f_equal. f_equal.
  - unfold frames. cbn [fmap list_fmap concat]. by rewrite <- app_assoc.
  - cbn [fmap list_fmap concat]. rewrite frames_app, <- app_assoc. done.
  - unfold tx_count. cbn [fmap list_fmap zsum foldr]. fold (zsum ((fun b => Z.of_nat (length b.(b_transactions))) <$> bs)). lia.
Qed.

(** ** Loading the transactions *)

Lemma next_record_frame fault count x rest : fits_frame x -> next_record fault count (frame x ++ rest) = Ok (Some (x, rest)).
Proof.
  intros Hx. unfold fits_frame in Hx. unfold next_record, frame. rewrite !length_app, le_bytes_length.
  destruct (Nat.ltb_spec (4 + length x + length rest) 4); [lia|]. rewrite <- app_assoc, (take_app_length' (le_bytes 4 _)), (drop_app_length' (le_bytes 4 _)) by done.
  rewrite le_value_bytes. unfold as_u32. rewrite Z.mod_mod by lia. change (256 ^ Z.of_nat 4) with 4294967296. rewrite Z.mod_small by (bounds; lia). rewrite Nat2Z.id.
  rewrite length_app. destruct (Nat.ltb_spec (length x + length rest) (length x)); [lia|]. by rewrite take_app_length, drop_app_length.
Qed.

Lemma frame_length x : (4 <= length (frame x))%nat.
Proof. unfold frame. rewrite length_app, le_bytes_length. lia. Qed.

Definition grouped (txs : list Transaction) (m : gmap Z (list Transaction)) : gmap Z (list Transaction) := foldl (fun m tx => push_tx tx m) m txs.

Lemma load_frames bufs txs : Forall2 (fun x tx => fits_frame x /\ decode_transaction_record x = Ok tx) bufs txs ->
  forall fuel count m, (length (frames bufs) < fuel)%nat -> load_go fuel None count (frames bufs) m = Ok (grouped txs m).
Proof.
  induction 1 as [|x tx bufs txs [Hf Hd] _ IH]; intros [|fuel] count m Hl; [lia|done|lia|]. unfold frames in *. cbn [fmap list_fmap concat] in *.
  rewrite length_app in Hl. pose proof (frame_length x). cbn [load_go]. rewrite next_record_frame by done. cbn [rbind]. rewrite Hd. cbn [rbind]. rewrite IH by lia. done.
Qed.

(** All of the transactions of one height. *)
Lemma grouped_height h l : Forall (fun tx => tx.(tx_block_height) = Some h) l -> forall m,
  grouped l m = match l with [] => m | _ => <[h := default [] (m !! h) ++ l]> m end.
Proof.
  induction 1 as [|tx l Hh _ IH]; intros m; [done|]. unfold grouped in *. cbn [foldl]. rewrite IH. unfold push_tx. rewrite Hh. cbn [default from_option].
  destruct l as [|tx2 l]; [done|]. cbv [Datatypes.id]. rewrite lookup_insert_eq. cbn [default from_option]. rewrite insert_insert_eq. cbv [Datatypes.id]. by rewrite <- app_assoc.
Qed.

(** The map that is loaded: the transactions of each block that has some. *)
Definition put_txs (m : gmap Z (list Transaction)) b : gmap Z (list Transaction) :=
  match b.(b_transactions) with [] => m | l => <[b.(b_height) := l]> m end.
Definition by_height bs : gmap Z (list Transaction) := foldl put_txs ∅ bs.

Lemma grouped_chain bs : forall m, Forall (fun b => exists v, carried v b) bs -> NoDup (b_height <$> bs) -> (forall b, b ∈ bs -> m !! b.(b_height) = None) ->
  grouped (concat (b_transactions <$> bs)) m = foldl put_txs m bs.
Proof.
  induction bs as [|b bs IH]; intros m H Hn Hm; [done|]. apply Forall_cons in H as [[v Hc] H]. cbn [fmap list_fmap] in Hn. apply NoDup_cons in Hn as [Hnb Hn].
  cbn [fmap list_fmap concat foldl]. unfold grouped. rewrite foldl_app. change (foldl _ m (b_transactions b)) with (grouped (b_transactions b) m).
  rewrite (grouped_height b.(b_height)). 2: { apply Forall_lookup_2. intros j tx Hx. by destruct (carried_sequences v b Hc j tx Hx) as (_ & ? & _). }
  assert (Hm0 : m !! b_height b = None) by (apply Hm; by left). unfold put_txs at 2.
  destruct (b_transactions b) as [|tx l] eqn:Hl; [apply IH; [done..|]; intros; apply Hm; by right|]. rewrite Hm0. cbn [default from_option app].
  apply IH; [done|done|]. intros b' Hb'.
  rewrite lookup_insert_ne; [apply Hm; by right|]. intros He. apply Hnb. rewrite He. apply list_elem_of_fmap. by exists b'.
Qed.

Lemma by_height_lookup bs : NoDup (b_height <$> bs) -> forall m (h : Z),
  foldl put_txs m bs !! h
  = match List.find (fun b => b.(b_height) =? h) bs with
    | Some b => match b.(b_transactions) with [] => m !! h | l => Some l end
    | None => m !! h
    end.
Proof.
  induction bs as [|b bs IH]; intros Hn m h; [done|]. cbn [fmap list_fmap] in Hn. apply NoDup_cons in Hn as [Hnb Hn]. cbn [foldl List.find]. rewrite IH by done. unfold put_txs.
  destruct (Z.eqb_spec b.(b_height) h) as [He|He].
  - destruct (List.find _ bs) as [b2|] eqn:Hf.
    + apply find_some in Hf as [Hin Hf]. apply Z.eqb_eq in Hf. destruct Hnb. apply list_elem_of_fmap. exists b2. split; [lia|]. by apply list_elem_of_In.
    + destruct (b_transactions b); [done|]. by rewrite <- He, lookup_insert_eq.
  - destruct (b_transactions b); [done|]. rewrite lookup_insert_ne by done. done.
Qed.

Lemma find_at bs b : NoDup (b_height <$> bs) -> b ∈ bs -> List.find (fun b' => b'.(b_height) =? b.(b_height)) bs = Some b.
Proof.
  induction bs as [|b1 bs IH]; intros Hn Hb; [by apply elem_of_nil in Hb|]. cbn [fmap list_fmap] in Hn. apply NoDup_cons in Hn as [Hnb Hn]. cbn [List.find].
  apply elem_of_cons in Hb as [->|Hb]; [by rewrite Z.eqb_refl|]. destruct (Z.eqb_spec b1.(b_height) b.(b_height)) as [He|]; [|by apply IH].
  destruct Hnb. rewrite He. apply list_elem_of_fmap. by exists b.
Qed.

Lemma by_height_at bs b : NoDup (b_height <$> bs) -> b ∈ bs -> default [] (by_height bs !! b.(b_height)) = b.(b_transactions).
Proof. intros Hn Hb. unfold by_height. rewrite by_height_lookup, (find_at _ _ Hn Hb) by done. rewrite lookup_empty. by destruct (b_transactions b). Qed.

Lemma by_height_total bs : NoDup (b_height <$> bs) -> forall m, (forall b, b ∈ bs -> m !! b.(b_height) = None) ->
  tx_total (foldl put_txs m bs) = tx_total m + tx_count bs.
Proof.
  induction bs as [|b bs IH]; intros Hn m Hm; [cbn; lia|]. cbn [fmap list_fmap] in Hn. apply NoDup_cons in Hn as [Hnb Hn]. cbn [foldl]. unfold put_txs at 2. rewrite IH; [|done|].
  - unfold tx_count. cbn [fmap list_fmap]. cbn [zsum foldr]. fold (zsum ((fun b => Z.of_nat (length b.(b_transactions))) <$> bs)).
    destruct (b_transactions b) as [|tx l] eqn:Hl; [cbn [length]; lia|]. unfold tx_total. rewrite map_sum_insert_new by (apply Hm; by left). lia.
  - intros b' Hb'. destruct (b_transactions b); [apply Hm; by right|]. rewrite lookup_insert_ne; [apply Hm; by right|].
    intros He. apply Hnb. rewrite He. apply list_elem_of_fmap. by exists b'.
Qed.

Lemma sequence_sorted v b : carried v b -> StronglySorted file_seq_le b.(b_transactions).
Proof.
  intros Hc. assert (H : forall l k, (forall j tx, l !! j = Some tx -> tx.(tx_sequence) = Some (Z.of_nat (k + j)%nat)) -> StronglySorted file_seq_le l).
  { induction l as [|tx l IH]; intros k Hl; constructor.
    - apply (IH (S k)). intros j t Ht. rewrite (Hl (S j) t Ht). do 2 f_equal. lia.
    - apply Forall_lookup_2. intros j t Ht. unfold file_seq_le, file_seq. rewrite (Hl (S j) t Ht), (Hl 0%nat tx eq_refl). cbn. lia. }
  apply (H _ 0%nat). intros j tx Hx. by destruct (carried_sequences v b Hc j tx Hx) as (? & _).
Qed.

Lemma sorted_map bs : Forall (fun b => exists v, carried v b) bs -> forall m, sort_by file_seq_le <$> m = m ->
  sort_by file_seq_le <$> foldl put_txs m bs
  = foldl put_txs m bs.
Proof.
  induction 1 as [|b bs [v Hc] _ IH]; intros m Hm; [done|]. cbn [foldl]. apply IH. pose proof (sequence_sorted v b Hc) as Hs. unfold put_txs.
  destruct (b_transactions b) as [|tx l]; [done|]. by rewrite fmap_insert, Hm, sort_by_sorted.
Qed.

(** ** What a chain must be for its dump *)

(** What the record of a transaction takes fits its length prefix. *)
Definition buffers_fit b : Prop := Forall fits_frame (buffers b).

Lemma buffers_decoded v b : carried v b -> buffers_fit b -> Forall2 (fun x tx => fits_frame x /\ decode_transaction_record x = Ok tx) (buffers b) b.(b_transactions).
Proof.
  intros Hc Hf. apply Forall2_same_length_lookup_2; [unfold buffers; apply length_imap|]. intros j x tx Hx Ht.
  unfold buffers_fit in Hf. rewrite Forall_lookup in Hf. split; [by eapply Hf|]. unfold buffers in Hx. rewrite list_lookup_imap, Ht in Hx. injection Hx as <-. by apply (buffer_read v).
Qed.

Lemma load_dump bs d meta : Forall (fun b => exists v, carried v b) bs -> Forall buffers_fit bs -> NoDup (b_height <$> bs) ->
  d.(d_files) !! "transactions"%string = Some (gzip (frames (concat (buffers <$> bs)))) -> meta.(sm_skip_compression) = false ->
  load_transactions d meta = Ok (by_height bs) /\ tx_total (by_height bs) = tx_count bs.
Proof.
  intros Hc Hf Hn Hd Hm. assert (H2 : Forall2 (fun x tx => fits_frame x /\ decode_transaction_record x = Ok tx) (concat (buffers <$> bs)) (concat (b_transactions <$> bs))).
  { clear Hn Hd. induction Hc as [|b bs [v Hv] _ IH]; [constructor|]. apply Forall_cons in Hf as [Hb Hf]. cbn [fmap list_fmap concat]. apply Forall2_app; [by apply (buffers_decoded v)|by apply IH]. }
  unfold load_transactions, open_records. rewrite Hd, Hm. cbn [negb rbind]. rewrite gunzip_gzip. cbn [sr_bytes sr_fault].
  rewrite (load_frames _ _ H2) by lia. cbn [rbind]. rewrite grouped_chain by (done || (intros; apply lookup_empty)). split.
  - f_equal. apply sorted_map; [done|apply fmap_empty].
  - unfold by_height. rewrite by_height_total by (done || (intros; apply lookup_empty)). unfold tx_total. rewrite map_sum_empty. lia.
Qed.

(** ** The import of a dump *)

(** A chain whose blocks are stored, linked, complete, pass the checks and fit the files. *)
Record exportable s bs : Prop := {
  ex_stored : Forall (stored s) bs;
  ex_heights : b_height <$> bs = seqZ 1 (Z.of_nat (length bs));
  ex_linked : forall j b b', bs !! j = Some b -> bs !! S j = Some b' -> b.(b_id) = Some b'.(b_previous_block);
  ex_complete : Forall (fun b => b.(b_number_of_transactions) = Z.of_nat (length b.(b_transactions))) bs;
  ex_passes : Forall (fun b => forall now, check_imported n opts.(io_fast) now b = Ok tt) bs;
  ex_fits : Forall buffers_fit bs
}.

(** Only the store, or the rules that were asked for, can refuse a block of the chain. *)
Definition refused bs (x : Exit) : Prop := exists t blocks, Forall (fun b => b ∈ bs) blocks /\
  ((opts.(io_strict) = true /\ exists e, check_stateful_rules n t blocks = Err e /\ x = Failed e) \/ (exists t', apply_blocks n t blocks undo = (t', x) /\ x <> Done)).

Section course.
Variables (s t : Store) (bs : list Block).
Hypothesis (Hex : exportable s bs).
#[local] Abbreviation k := (get_last_height t).
Hypothesis (Hk : 0 <= k <= Z.of_nat (length bs)).

Definition tip_at (h : Z) : ChainTip :=
  match bs !! Z.to_nat (h - 1) with Some b => if h =? 0 then mkTip 0 None else mkTip h b.(b_id) | None => mkTip 0 None end.

Lemma at_height j b : bs !! j = Some b -> b.(b_height) = Z.of_nat j + 1.
Proof.
  intros H. pose proof (ex_heights _ _ Hex) as Hh. assert (Hl : (b_height <$> bs) !! j = Some b.(b_height)) by (by rewrite list_lookup_fmap, H).
  rewrite Hh in Hl. apply lookup_seqZ in Hl as [-> _]. lia.
Qed.

Lemma tip_at_height h : 0 <= h <= Z.of_nat (length bs) -> (tip_at h).(tip_height) = h.
Proof.
  intros Hh. unfold tip_at. destruct (Z.eqb_spec h 0) as [->|]; [by destruct (bs !! _)|]. destruct (lookup_lt_is_Some_2 bs (Z.to_nat (h - 1))) as [b ->]; [lia|done].
Qed.

Lemma tip_at_block j b : bs !! j = Some b -> tip_at (Z.of_nat j + 1) = mkTip b.(b_height) b.(b_id).
Proof.
  intros H. unfold tip_at. replace (Z.to_nat (Z.of_nat j + 1 - 1)) with j by lia. rewrite H. destruct (Z.eqb_spec (Z.of_nat j + 1) 0); [lia|]. by rewrite (at_height _ _ H).
Qed.

Lemma chain_nodup : NoDup (b_height <$> bs).
Proof. rewrite (ex_heights _ _ Hex). apply NoDup_seqZ. Qed.

Lemma in_chain b : b ∈ bs -> stored s b /\ b.(b_number_of_transactions) = Z.of_nat (length b.(b_transactions)) /\ (forall now, check_imported n opts.(io_fast) now b = Ok tt).
Proof.
  intros Hb. pose proof (ex_stored _ _ Hex) as H1. pose proof (ex_complete _ _ Hex) as H2. pose proof (ex_passes _ _ Hex) as H3. rewrite Forall_forall in H1, H2, H3. auto.
Qed.

(** How far the import is after [h] records. *)
Record course (h : Z) i : Prop := {
  cs_tip : i.(im_tip) = tip_at (Z.max k h);
  cs_next : next_heights i.(im_store) i.(im_chunk);
  cs_last : get_last_height i.(im_store) + Z.of_nat (length i.(im_chunk)) = Z.max k h;
  cs_above : k <= get_last_height i.(im_store);
  cs_chunk : Forall (fun b => b ∈ bs) i.(im_chunk);
  cs_txs : forall h', Z.max k h < h' -> i.(im_txs) !! h' = by_height bs !! h';
  cs_records : forall j, 1 <= j <= get_last_height i.(im_store) -> i.(im_store).(st_blocks) !! j = s.(st_blocks) !! j;
  cs_imported : i.(im_imported) = get_last_height i.(im_store) - k;
  cs_skipped : i.(im_skipped) = Z.min h k
}.

Lemma write_course h i : course h i -> let r := write_chunk n opts undo i in
  match r.2 with Done => course h r.1 /\ r.1.(im_chunk) = [] | x => refused bs x end.
Proof.
  intros [T N La Ab C X R I S]. cbn zeta. unfold write_chunk. destruct (if io_strict opts then _ else _) as [[]|e] eqn:Hr.
  2: { cbn. exists (im_store i), (im_chunk i). split; [done|]. left. destruct (io_strict opts); [|done]. split; [done|by exists e]. }
  destruct (apply_blocks n (im_store i) (im_chunk i) undo) as [t1 x] eqn:Ha. destruct x as [|e|].
  2,3: cbn; exists (im_store i), (im_chunk i); (split; [done|]); right; by exists t1.
  cbn [fst snd]. split; [|done]. apply apply_blocks_applied in Ha; [|done|lia]. pose proof (ap_last _ _ _ _ Ha) as Hlast.
  split; cbn [im_written im_store im_tip im_chunk im_txs im_imported im_skipped length]; try done; try lia.
  - intros j Hj. destruct (decide (j <= get_last_height (im_store i))); [rewrite (applied_below _ _ _ _ _ Ha N) by lia; apply R; lia|].
    pose proof (ap_last _ _ _ _ Ha) as Hl. assert (Hin : exists b, b ∈ im_chunk i /\ b.(b_height) = j).
    { assert (Hj2 : j ∈ (b_height <$> im_chunk i)) by (rewrite (proj1 N); apply elem_of_seqZ; lia). apply list_elem_of_fmap in Hj2 as (b & -> & Hb). by exists b. }
    destruct Hin as (b & Hb & <-). destruct (applied_record _ _ _ _ _ Ha N Hb) as (e & He & ->). rewrite Forall_forall in C.
    destruct (in_chain b (C b Hb)) as [(_ & v & Hv & Hc) _]. rewrite Hv. rewrite (ca_encode _ _ Hc) in He. by apply Ok_inj in He as ->.
Qed.

Lemma take_course now b pre post i : bs = pre ++ b :: post -> k <= Z.of_nat (length pre) -> course (Z.of_nat (length pre)) i ->
  exists i', take_block n opts now (b_header b) i = Ok i' /\ course (Z.of_nat (length pre) + 1) i'.
Proof.
  intros Hbs Hge [T N La Ab C X R I S]. assert (Hb : bs !! length pre = Some b) by (by rewrite Hbs, list_lookup_middle).
  pose proof (at_height _ _ Hb) as Hh. rewrite Z.max_r in T, La, X by lia. assert (Hin : b ∈ bs) by (by eapply list_elem_of_lookup_2).
  destruct (in_chain b Hin) as [(_ & v & _ & Hc) [Hn Hp]]. assert (Hlen : (length pre < length bs)%nat) by (by eapply lookup_lt_Some).
  pose proof (by_height_at bs b chain_nodup Hin) as Hx. pose proof (ca_count _ _ Hc) as Hcount.
  set (txs := if 0 <? Z.of_nat (length b.(b_transactions)) then delete b.(b_height) i.(im_txs) else i.(im_txs)).
  exists (im_push b txs i). split.
  - unfold take_block. change (b_height (b_header b)) with (b_height b). rewrite T, tip_at_height by lia. rewrite Hh, Z.eqb_refl.
    assert (Hprev : match tip_id (tip_at (Z.of_nat (length pre))) with Some prev => String.eqb (b_previous_block (b_header b)) prev | None => true end = true).
    { destruct (length pre) as [|j] eqn:Hj; [unfold tip_at; by destruct (bs !! _)|]. destruct (lookup_lt_is_Some_2 bs j) as [b0 Hb0]; [lia|].
      replace (Z.of_nat (Datatypes.S j)) with (Z.of_nat j + 1) by lia. rewrite (tip_at_block _ _ Hb0). cbn [tip_id]. rewrite (ex_linked _ _ Hex j b0 b Hb0 Hb). apply String.eqb_refl. }
    rewrite Hprev. change (b_number_of_transactions (b_header b)) with (b_number_of_transactions b). change (b_height (b_header b)) with (b_height b).
    rewrite <- Hh. rewrite (X (b_height b)) by lia. rewrite Hx, Hn. unfold txs. destruct (Z.ltb_spec 0 (Z.of_nat (length (b_transactions b)))) as [Hpos|Hzero].
    + rewrite as_u32_id by (bounds; lia). rewrite Z.eqb_refl. cbn [rbind]. assert (Hset : b_set_transactions (b_transactions b) (b_header b) = b) by (by destruct b).
      rewrite Hset, Hp. done.
    + cbn [rbind]. assert (Hset : b_header b = b) by (destruct b as [? ? ? ? ? ? ? ? ? ? ? ? ? ? l]; cbn in Hzero |- *; by destruct l). rewrite Hset, Hp. done.
  - split; cbn [im_push im_store im_tip im_chunk im_txs im_imported im_skipped]; try done; try lia.
    + rewrite Z.max_r by lia. symmetry. by apply tip_at_block.
    + destruct N as [N1 N2]. split.
      * rewrite fmap_app, length_app, N1, Nat2Z.inj_add, seqZ_app by lia. f_equal. cbn [fmap list_fmap length]. rewrite seqZ_cons, seqZ_nil by lia. f_equal. lia.
      * apply Forall_app_2; [done|]. constructor; [apply u32_low, (ca_height _ _ Hc)|constructor].
    + rewrite length_app. cbn [length]. lia.
    + apply Forall_app_2; [done|]. by constructor.
    + intros h' Hh'. rewrite Z.max_r in Hh' by lia. unfold txs. destruct (0 <? _); [rewrite lookup_delete_ne by lia|]; apply X; lia.
Qed.

Lemma go_course post : forall pre fuel count i, bs = pre ++ post -> course (Z.of_nat (length pre)) i -> (length (frames (header_bytes <$> post)) < fuel)%nat ->
  let r := import_go n chunk opts undo clock never fuel None count (frames (header_bytes <$> post)) i in
  match r.2 with AtEnd => course (Z.of_nat (length bs)) r.1 | Broken x => refused bs x | Interrupted => False end.
Proof.
  induction post as [|b post IH]; intros pre [|fuel] count i Hbs Hi Hf; try lia; cbn zeta.
  { cbn. rewrite app_nil_r in Hbs. by subst pre. }
  assert (Hb : bs !! length pre = Some b) by (by rewrite Hbs, list_lookup_middle). pose proof (at_height _ _ Hb) as Hh.
  destruct (in_chain b (list_elem_of_lookup_2 _ _ _ Hb)) as [(_ & v & _ & Hc) _].
  unfold frames in Hf |- *. cbn [fmap list_fmap concat] in Hf |- *. rewrite length_app in Hf. pose proof (frame_length (header_bytes b)).
  fold (frames (header_bytes <$> post)) in Hf |- *. cbn [import_go]. rewrite next_record_frame by apply (ca_fits _ _ Hc). rewrite (ca_parse _ _ Hc).
  change (b_height (b_header b)) with (b_height b).
  assert (Hbs' : bs = (pre ++ [b]) ++ post) by (by rewrite <- app_assoc). assert (Hlen : Z.of_nat (length (pre ++ [b])) = Z.of_nat (length pre) + 1) by (rewrite length_app; cbn; lia).
  assert (Hlt : (length pre < length bs)%nat) by (by eapply lookup_lt_Some).
  rewrite (cs_tip _ _ Hi), tip_at_height by lia. destruct (Z.leb_spec (b_height b) (k `max` Z.of_nat (length pre))) as [Hle|Hgt].
  - apply (IH (pre ++ [b])); [done| |lia]. rewrite Hlen. replace (Z.max k (Z.of_nat (length pre))) with k in Hle by lia.
    destruct Hi as [T N La Ab C X R I S]. split; cbn [im_skip im_store im_tip im_chunk im_txs im_imported im_skipped]; try done; try lia.
    + rewrite T. f_equal. lia.
    + intros h' Hh'. apply X. lia.
  - destruct (take_course (clock count) b pre post i Hbs ltac:(lia) Hi) as (i1 & Ht & Hi1). rewrite Ht.
    destruct (chunk <=? length (im_chunk i1))%nat; [|apply (IH (pre ++ [b])); [done|by rewrite Hlen|lia]].
    pose proof (write_course _ i1 Hi1) as Hw. cbn zeta in Hw. destruct (write_chunk n opts undo i1) as [i2 []]; cbn [fst snd] in Hw; [|done..].
    apply (IH (pre ++ [b])); [done|rewrite Hlen; apply Hw|lia].
Qed.

Lemma finish_course p : match p.2 with AtEnd => course (Z.of_nat (length bs)) p.1 | Broken x => refused bs x | Interrupted => False end ->
  match (finish_import n opts undo p).2 with
  | inr b => b = false /\ course (Z.of_nat (length bs)) (finish_import n opts undo p).1 /\ (finish_import n opts undo p).1.(im_chunk) = []
  | inl x => refused bs x
  end.
Proof.
  destruct p as [i [| |x]]; cbn [fst snd]; [|done|done]. intros Hi. unfold finish_import. destruct (im_chunk i) eqn:Hc; [done|].
  pose proof (write_course _ i Hi) as Hw. cbn zeta in Hw. by destruct (write_chunk n opts undo i) as [i2 []].
Qed.

(** The tip of the store that is imported into. *)
Lemma tip_now_at : (forall j, 1 <= j <= k -> t.(st_blocks) !! j = s.(st_blocks) !! j) -> tip_now n t = Ok (tip_at k).
Proof.
  intros Hsame. unfold tip_now, get_last_block. destruct (Z.eqb_spec k 0) as [H0|H0]; [by rewrite H0; unfold tip_at; destruct (bs !! _)|].
  destruct (lookup_lt_is_Some_2 bs (Z.to_nat (k - 1))) as [b Hb]; [lia|]. pose proof (at_height _ _ Hb) as Hh.
  destruct (in_chain b (list_elem_of_lookup_2 _ _ _ Hb)) as [(Hg & _) _]. replace (b_height b) with k in Hg by lia.
  unfold get_block_by_height in Hg |- *. rewrite Hsame by lia. rewrite Hg. cbn [rbind]. replace k with (Z.of_nat (Z.to_nat (k - 1)) + 1) by lia. by rewrite (tip_at_block _ _ Hb).
Qed.
End course.

End trip.
