(* ===== verification/WalletApi.v ===== *)
(** * The wallet protocols

    [src/src/p2p_iroh/wallet_api.rs]: requests over iroh, answered in an envelope signed by the node, and the sessions
    that push blocks, transactions and balances to a wallet.  The router the requests are run against is a value the
    server holds; streams are lists of bytes, or of the events a session hears; a frame a session sends is its JSON value
    with the codec it goes out in.  MessagePack, base64 and Ed25519 are other crates'. *)

From Stdlib Require Import Floats.SpecFloat.
From S2P Require Import Prelude Floats Models Env Bytes Crypto Config TxCodec BlockCodec Wallet Rules Round Tree Storage Chain Reads.
From S2P Require Import AntiSpam Mempool NodePool PeerHealth NetAddr IrohPeers AddrBook Render StoreAudit Api.

#[local] Open Scope string_scope.
#[local] Open Scope list_scope.
#[local] Open Scope Z_scope.

Definition MAX_REQUEST : Z := 2 * 1024 * 1024.
Definition MAX_RESPONSE : Z := 8 * 1024 * 1024.
Definition MAX_COMMAND : Z := 64 * 1024.
Definition MAX_REPLAY : nat := 200.
Definition TOPICS : list string := ["blocks"; "wallet"; "mempool"; "dex"].

Record MeshPacket : Type := mkPacket {
  mp_target_provider : string; mp_method : string; mp_path : string; mp_body : list byte; mp_headers : gmap string string; mp_ttl : Z; mp_request_id : string
}.
Definition packet_new (method path : string) (body : list byte) (id : list byte) `{Env} : MeshPacket := mkPacket "" method path body ∅ 5 (hex_encode id).

Class WalletWire : Type := {
  (** serde's reading of a packet, and its writing *)
  packet_parse : list byte -> result MeshPacket string;
  packet_print : MeshPacket -> list byte;
  (** MessagePack of a JSON value; an error says what is wrong *)
  msgpack_parse : list byte -> result Value string;
  msgpack_print : Value -> list byte;
  (** the text of a read that fails, serde's complaint about a text, the debug forms of a text *)
  read_error : string;
  json_error : list byte -> string;
  debug_str : string -> string;
  debug_text : option string -> string
}.

(** ** Frames *)

(** What is read of a stream, and what is left of it; none at its end. *)
Definition read_frame `{WalletWire} (max : Z) (b : list byte) : result (option (list byte * list byte)) string :=
  match b with
  | [] => Ok None
  | _ =>
      if (length b <? 4)%nat then Err read_error else
      let len := le_value (take 4 b) in
      if (len =? 0) || (max <? len) then Err ("frame length " +:+ fmt_u len +:+ " out of range (max " +:+ fmt_u max +:+ ")") else
      let rest := drop 4 b in
      if (length rest <? Z.to_nat len)%nat then Err read_error else Ok (Some (take (Z.to_nat len) rest, drop (Z.to_nat len) rest))
  end.
Definition write_frame (body : list byte) : list byte := le_bytes 4 (as_u32 (Z.of_nat (length body))) ++ body.

Inductive Encoding := Json | MsgPack.
#[export] Instance encoding_dec : EqDecision Encoding.
Proof. solve_decision. Defined.
Definition encoding_parse (t : string) : option Encoding :=
  if String.eqb t "json" then Some Json else if String.eqb t "msgpack" || String.eqb t "messagepack" then Some MsgPack else None.
Definition encoding_name (e : Encoding) : string := match e with Json => "json" | MsgPack => "msgpack" end.
Definition ENCODINGS : list string := ["json"; "msgpack"].

Definition encode_frame `{JsonText, WalletWire} (v : Value) (e : Encoding) : list byte :=
  match e with Json => json_print v | MsgPack => msgpack_print v end.
(** A frame that begins with a brace is JSON. *)
Definition decode_frame `{JsonText, WalletWire} (b : list byte) : result (Value * Encoding) string :=
  if bool_decide (head b = Some x7b) then
    match json_parse b with Some v => Ok (v, Json) | None => Err ("invalid JSON: " +:+ json_error b) end
  else rmap (fun v => (v, MsgPack)) (msgpack_parse b).

(** ** The server *)

(** [WalletApiConfig] of [src/src/node_config.rs]. *)
Record WalletApiConfig : Type := mkWalletConfig {
  wc_enabled : bool; wc_max_connections : Z; wc_max_addresses : Z; wc_rate_limit_rps : Z; wc_idle_timeout_secs : Z; wc_startup_qr : bool
}.
Definition wallet_config_default : WalletApiConfig := mkWalletConfig true 2000 64 20 300 true.

(** One bucket of tokens for each peer; the counters wrap. *)
Record Bucket : Type := mkBucket { bu_tokens : F64; bu_updated : Z }.
Record ClientEvent : Type := mkClientEvent { ce_at_unix : Z; ce_alpn : string; ce_remote : string; ce_peer : option string; ce_outcome : string }.
Record Stats : Type := mkStats {
  sx_requests : Z; sx_rate_limited : Z; sx_events_sent : Z; sx_connections : Z; sx_sessions : Z; sx_rejected_busy : Z; sx_handshake_failed : Z;
  sx_recent : list ClientEvent
}.
Definition stats_default : Stats := mkStats 0 0 0 0 0 0 0 [].
Definition RECENT_CLIENTS : nat := 20.
Definition record_client (e : ClientEvent) (x : Stats) : Stats :=
  mkStats x.(sx_requests) x.(sx_rate_limited) x.(sx_events_sent) x.(sx_connections) x.(sx_sessions) x.(sx_rejected_busy) x.(sx_handshake_failed)
    ((if (RECENT_CLIENTS <=? length x.(sx_recent))%nat then tail x.(sx_recent) else x.(sx_recent)) ++ [e]).
(** The end of a handshake: the peer, or why it failed. *)
Definition accepted (now : Z) (alpn remote : string) (outcome : string + string) (x : Stats) : Stats :=
  match outcome with
  | inr peer => record_client (mkClientEvent now alpn remote (Some peer) "ok") x
  | inl e =>
      record_client (mkClientEvent now alpn remote None e)
        (mkStats x.(sx_requests) x.(sx_rate_limited) x.(sx_events_sent) x.(sx_connections) x.(sx_sessions) x.(sx_rejected_busy)
           (as_u64 (x.(sx_handshake_failed) + 1)) x.(sx_recent))
  end.

(** The answer of the router to a method, a path, headers and a body: a status and bytes; none when the request cannot be built. *)
Definition Router : Type := string -> string -> list (string * string) -> list byte -> Z * list byte + string.

Record WalletApi : Type := mkWalletApi {
  wa_secret : list byte; wa_attached : option (Router * WalletApiConfig); wa_limiter : gmap string Bucket; wa_stats : Stats
}.
Definition on_stats (f : Stats -> Stats) (a : WalletApi) : WalletApi := mkWalletApi a.(wa_secret) a.(wa_attached) a.(wa_limiter) (f a.(wa_stats)).
Definition api_new (secret : list byte) : WalletApi := mkWalletApi secret None ∅ stats_default.
(** A second call is ignored. *)
Definition attach (r : Router) (cfg : WalletApiConfig) (a : WalletApi) : WalletApi :=
  match a.(wa_attached) with Some _ => a | None => mkWalletApi a.(wa_secret) (Some (r, cfg)) a.(wa_limiter) a.(wa_stats) end.
Definition api_config (a : WalletApi) : option WalletApiConfig := snd <$> a.(wa_attached).

(** A connection takes its place, or is turned away; a place is given back when it ends. *)
Definition leave (a : WalletApi) : WalletApi :=
  on_stats (fun x => mkStats x.(sx_requests) x.(sx_rate_limited) x.(sx_events_sent) (as_u64 (x.(sx_connections) - 1)) x.(sx_sessions) x.(sx_rejected_busy)
                       x.(sx_handshake_failed) x.(sx_recent)) a.
Definition enter (a : WalletApi) : WalletApi * bool :=
  let max := default 0 (wc_max_connections <$> api_config a) in
  let now := as_u64 (a.(wa_stats).(sx_connections) + 1) in
  let a := on_stats (fun x => mkStats x.(sx_requests) x.(sx_rate_limited) x.(sx_events_sent) now x.(sx_sessions) x.(sx_rejected_busy)
                                x.(sx_handshake_failed) x.(sx_recent)) a in
  if (0 <? max) && (max <? now) then
    (leave (on_stats (fun x => mkStats x.(sx_requests) x.(sx_rate_limited) x.(sx_events_sent) x.(sx_connections) x.(sx_sessions)
                                 (as_u64 (x.(sx_rejected_busy) + 1)) x.(sx_handshake_failed) x.(sx_recent)) a), false)
  else (a, true).

(** [Duration::as_secs_f64]: whole seconds and nanoseconds over a billion, added up. *)
Definition secs_f64 (ns : Z) : F64 := f64_add (f64_of (ns / 1000000000)) (f64_div (f64_of (ns mod 1000000000)) (f64_of 1000000000)).

(** As many requests a second as configured, twice as many at once; [now] is in nanoseconds. *)
Definition allow (now : Z) (peer : string) (a : WalletApi) : WalletApi * bool :=
  let rps := default 0 (wc_rate_limit_rps <$> api_config a) in
  if rps =? 0 then (a, true) else
  let burst := f64_mul (f64_of rps) (f64_of 2) in
  let buckets := if 10000 <? Z.of_nat (size a.(wa_limiter)) then filter (fun e => now - e.2.(bu_updated) < 60 * 1000000000) a.(wa_limiter) else a.(wa_limiter) in
  let b := default (mkBucket burst now) (buckets !! peer) in
  let refilled := f64_add b.(bu_tokens) (f64_mul (secs_f64 (sat_sub now b.(bu_updated))) (f64_of rps)) in
  let tokens := if f64_ltb burst refilled then burst else refilled in
  if f64_leb (f64_of 1) tokens then
    (mkWalletApi a.(wa_secret) a.(wa_attached) (<[peer := mkBucket (f64_sub tokens (f64_of 1)) now]> buckets) a.(wa_stats), true)
  else
    (on_stats (fun x => mkStats x.(sx_requests) (as_u64 (x.(sx_rate_limited) + 1)) x.(sx_events_sent) x.(sx_connections) x.(sx_sessions) x.(sx_rejected_busy)
                          x.(sx_handshake_failed) x.(sx_recent))
       (mkWalletApi a.(wa_secret) a.(wa_attached) (<[peer := mkBucket tokens now]> buckets) a.(wa_stats)), false).

Section server.
Context `{E : Env} `{IK : IrohKeys} `{J : JsonText} `{WW : WalletWire}.

Definition node_id (a : WalletApi) : string := iroh_public a.(wa_secret).

(** What the signature of an answer covers. *)
Definition canon (id : string) (status signed_at : Z) (raw : list byte) : list byte :=
  bytes_of (id +:+ "|" +:+ fmt_u status +:+ "|" +:+ fmt_u signed_at +:+ "|") ++ raw.
Definition pdata_json (a : WalletApi) (name : string) (status signed_at : Z) (raw : list byte) : Value :=
  obj [("v", VNumber 1); ("node_id", VString (node_id a)); ("name", VString (if String.eqb name EmptyString then "sth-core" else name));
       ("status", VNumber status); ("signed_at", VNumber signed_at); ("relayed", VBool false); ("alg", VString "ed25519");
       ("sig", VString (hex_encode (iroh_sign a.(wa_secret) (canon (node_id a) status signed_at raw)))); ("body_b64", VString (base64_encode raw))].
Definition finalize (a : WalletApi) (now : Z) (name : string) (status : Z) (raw : list byte) : list byte :=
  let pdata := pdata_json a name status now raw in
  match json_parse raw with
  | Some (VObject m) => json_print (VObject (o_insert "pdata" pdata m))
  | _ => json_print (obj [("pdata", pdata)])
  end.

Definition error_body (status : Z) (error detail : string) : list byte :=
  json_print (obj [("statusCode", VNumber status); ("error", VString error); ("message", VString detail)]).

Definition SKIPPED_HEADERS : list string := ["host"; "connection"; "content-length"; "transfer-encoding"; "upgrade"; "origin"; "referer"; "user-agent"].
(** [method_ok] says which methods HTTP has, [header_ok] which headers. *)
Definition api_path (path : string) : string :=
  let path := if starts_with "/" path then path else "/" +:+ path in
  let root := String.eqb path "/" || starts_with "/?" path || String.eqb path "/status" || starts_with "/status?" path in
  if negb root && negb (starts_with "/api/" path || String.eqb path "/api" || starts_with "/api?" path) then "/api" +:+ path else path.
Definition packet_headers (header_ok : string * string -> bool) (p : MeshPacket) : list (string * string) :=
  let kept := List.filter (fun e => negb (existsb (String.eqb (ascii_lower e.1)) SKIPPED_HEADERS)) (bt_entries p.(mp_headers)) in
  let has_ct := existsb (fun e => String.eqb (ascii_lower e.1) "content-type") kept in
  List.filter header_ok kept ++ (if negb (bool_decide (p.(mp_body) = [])) && negb has_ct then [("content-type", "application/json")] else []).
(** A body above the limit is dropped, its status stays. *)
Definition execute (r : Router) (method_ok : string -> string) (header_ok : string * string -> bool) (p : MeshPacket) : Z * list byte :=
  match r (method_ok p.(mp_method)) (api_path p.(mp_path)) (packet_headers header_ok p) p.(mp_body) with
  | inl (status, body) => (status, if MAX_RESPONSE <? Z.of_nat (length body) then [] else body)
  | inr e => (400, error_body 400 "Bad Request" e)
  end.

Definition count_request (a : WalletApi) : WalletApi :=
  on_stats (fun x => mkStats (as_u64 (x.(sx_requests) + 1)) x.(sx_rate_limited) x.(sx_events_sent) x.(sx_connections) x.(sx_sessions) x.(sx_rejected_busy)
                       x.(sx_handshake_failed) x.(sx_recent)) a.

(** The stream of one request and the bytes it is answered with; [v1] says whether the packet comes in a frame. *)
Definition serve_request (method_ok : string -> string) (header_ok : string * string -> bool) (now unix : Z) (peer : string) (v1 : bool)
    (stream : list byte) (a : WalletApi) : WalletApi * result (list byte) string :=
  let body := if v1 then match read_frame MAX_REQUEST stream with
                         | Ok (Some (b, _)) => Ok b
                         | Ok None => Err "empty stream"
                         | Err e => Err e
                         end
              else if MAX_REQUEST <? Z.of_nat (length stream) then Err read_error else Ok stream in
  match body with
  | Err e => (a, Err e)
  | Ok b =>
      let a := count_request a in
      match packet_parse b with
      | Err e => (a, Ok (finalize a unix "" 400 (error_body 400 "Bad Request" ("invalid MeshPacket: " +:+ e))))
      | Ok p =>
          let reply a status b := (a, Ok (finalize a unix p.(mp_target_provider) status b)) in
          match a.(wa_attached) with
          | None => reply a 503 (error_body 503 "Service Unavailable" "wallet api is disabled on this node")
          | Some (r, _) =>
              let '(a, ok) := allow now peer a in
              if negb ok then reply a 429 (error_body 429 "Too Many Requests" "rate limit exceeded for this EndpointId")
              else if eq_ignore_case p.(mp_method) "WS"
              then reply a 400 (error_body 400 "Bad Request" "WS tunnels are not served here — use ALPN sth/events/1")
              else let '(status, b) := execute r method_ok header_ok p in reply a status b
          end
      end
  end.

(** *** The other side *)

Record ApiResponse : Type := mkApiResponse { ar_status : Z; ar_body : Value; ar_pdata : Value }.

Definition verify_pdata (id : string) (p : Value) : bool :=
  match as_str (vget "node_id" p), as_number (vget "status" p), as_number (vget "signed_at" p), as_str (vget "sig" p), as_str (vget "body_b64" p) with
  | Some named, Some status, Some signed_at, Some sig, Some body =>
      String.eqb named id
      && match base64_decode body, hex_decode sig with
         | Some raw, Some sig => (length sig =? 64)%nat && iroh_verify id (canon named status signed_at raw) sig
         | _, _ => false
         end
  | _, _, _, _, _ => false
  end.
(** The reading half of [call_on]; [remote] is the peer the connection was made to. *)
Definition read_answer (remote : string) (raw : list byte) : Res ApiResponse :=
  if MAX_RESPONSE <? Z.of_nat (length raw) then Err (ESync read_error) else
  match json_parse raw with
  | None => Err (EJson (json_error raw))
  | Some v =>
      match v with
      | VObject m =>
          match o_get "pdata" m with
          | None => Err (ESync "response without pdata")
          | Some p =>
              if negb (verify_pdata remote p) then Err (ESync "pdata signature does not verify against the node EndpointId") else
              let body : option Value := (as_str (vget "body_b64" p) ≫= base64_decode) ≫= json_parse in
              Ok (mkApiResponse (as_u16 (default 0 (as_number (vget "status" p)))) (default (VObject (o_remove "pdata" m)) body) p)
          end
      | _ => Err (ESync "response without pdata")
      end
  end.
End server.

(** ** Sessions *)

Record Topics : Type := mkTopics { tp_blocks : bool; tp_wallet : bool; tp_mempool : bool; tp_dex : bool }.
Definition topics_default : Topics := mkTopics false true true false.
Definition topics_none : Topics := mkTopics false false false false.

Definition topic_on (t : Topics) (o : option string) : option Topics :=
  match o with
  | Some k => if String.eqb k "blocks" then Some (mkTopics true t.(tp_wallet) t.(tp_mempool) t.(tp_dex))
              else if String.eqb k "wallet" then Some (mkTopics t.(tp_blocks) true t.(tp_mempool) t.(tp_dex))
              else if String.eqb k "mempool" then Some (mkTopics t.(tp_blocks) t.(tp_wallet) true t.(tp_dex))
              else if String.eqb k "dex" then Some (mkTopics t.(tp_blocks) t.(tp_wallet) t.(tp_mempool) true) else None
  | None => None
  end.
Fixpoint topics_go `{WalletWire} (l : list Value) (t : Topics) : result Topics string :=
  match l with
  | [] => Ok t
  | v :: l =>
      match topic_on t (as_str v) with
      | Some t => topics_go l t
      | None => Err ("unknown topic " +:+ debug_text (as_str v) +:+ " (known: " +:+ String.concat ", " TOPICS +:+ ")")
      end
  end.
Definition topics_parse `{WalletWire} (v : Value) : result Topics string :=
  match as_array v with None => Ok topics_default | Some l => topics_go l topics_none end.
Definition topics_names (t : Topics) : list string :=
  omap (fun p => if p.1 : bool then Some p.2 else None) [(t.(tp_blocks), "blocks"); (t.(tp_wallet), "wallet"); (t.(tp_mempool), "mempool"); (t.(tp_dex), "dex")].

Record Session : Type := mkSession { se_addresses : gset string; se_topics : Topics; se_tokens : gset string; se_encoding : Encoding }.
Definition session_new : Session := mkSession ∅ topics_default ∅ Json.
Definition set_encoding (e : Encoding) (x : Session) : Session := mkSession x.(se_addresses) x.(se_topics) x.(se_tokens) e.

(** What a session has sent, and the error that ends it. *)
Definition Sent : Type := list (Encoding * Value).
Definition Step : Type := Session * Sent * option string.
Definition emit (x : Session) (v : Value) : Sent := [(x.(se_encoding), v)].
Definition error_frame (code message : string) : Value := obj [("type", VString "error"); ("code", VString code); ("message", VString message)].

Section session.
Context `{E : Env} `{IK : IrohKeys} `{J : JsonText} `{WW : WalletWire} `{HO : HashOrder}.
Variables (n : Network) (wcfg : WalletApiConfig) (cfg : MempoolConfig) (json_len : Transaction -> Z).
Implicit Types (s : Store) (x : Session) (tx : Transaction) (b : Block).

(** The subscribed addresses a transaction touches. *)
Definition hits x tx : list string :=
  List.filter (fun a => bool_decide (a ∈ x.(se_addresses))) (match tx_addresses tx n.(n_pubkey_hash) with Ok l => l | Err _ => [] end).

Definition hello (a : WalletApi) (version : string) s x : Value :=
  obj [("type", VString "hello"); ("nodeId", VString (node_id a)); ("nethash", VString n.(n_nethash)); ("height", VNumber (get_last_height s));
       ("coreVersion", VString version); ("topics", vstrings TOPICS); ("encodings", vstrings ENCODINGS); ("encoding", VString (encoding_name x.(se_encoding)));
       ("limits", obj [("maxAddresses", VNumber wcfg.(wc_max_addresses)); ("idleTimeoutSecs", VNumber wcfg.(wc_idle_timeout_secs));
                       ("maxReplay", VNumber (Z.of_nat MAX_REPLAY))])].

Definition balance_frame s (address : string) : Value :=
  obj [("type", VString "balance"); ("address", VString address);
       ("wallet", match get_wallet s address with
                  | Some w => wallet_json n w None None
                  | None => obj [("address", VString address); ("publicKey", VNull); ("balance", VString "0"); ("nonce", VString "0"); ("attributes", obj [])]
                  end)].

(** *** Replay *)

(** The entries of the addresses one after the other, each id once; at most [MAX_REPLAY]. *)
Fixpoint collect (l : list TxIndexEntry) (seen : gset string) (out : list TxIndexEntry) : list TxIndexEntry * bool :=
  match l with
  | [] => (out, false)
  | e :: l =>
      if bool_decide (e.(ie_id) ∈ seen) then collect l seen out
      else if (MAX_REPLAY <=? length out)%nat then (out, true)
      else collect l ({[e.(ie_id)]} ∪ seen) (out ++ [e])
  end.
Definition entry_le (e f : TxIndexEntry) : Prop := pos_le (e.(ie_height), e.(ie_seq)) (f.(ie_height), f.(ie_seq)).
#[local] Instance entry_le_dec : RelDecision entry_le := fun e f => pos_le_dec _ _.
Definition missed s (addresses : list string) (since : Z) : list TxIndexEntry :=
  concat ((fun a => transaction_index s (Some a) (since + 1) (get_last_height s) true) <$> addresses).
Definition replay s (addresses : list string) (since : Z) : list TxIndexEntry * bool :=
  let '(l, resync) := collect (missed s addresses since) ∅ [] in (sort_by entry_le l, resync).

Definition tx_frame s x tx (height : Z) (replayed : bool) (ts : option Z) (tip : Z) : Value :=
  obj ([("type", VString "tx"); ("addresses", vstrings (hits x tx)); ("height", VNumber height)]
       ++ (if replayed then [("replay", VBool true)] else []) ++ [("tx", tx_json n s tx ts false tip)]).
Fixpoint replay_frames s x (tip : Z) (l : list TxIndexEntry) : list Value * option string :=
  match l with
  | [] => ([], None)
  | e :: l =>
      match get_transaction n s e.(ie_id) with
      | Err er => ([], Some (err_text er))
      | Ok o =>
          let '(rest, end_) := replay_frames s x tip l in
          (match o with
           | Some tx => tx_frame s x tx e.(ie_height) true (match get_block_by_height n s e.(ie_height) with Ok (Some b) => Some b.(b_timestamp) | _ => None end) tip :: rest
           | None => rest
           end, end_)
      end
  end.

(** *** Commands *)

Definition texts (v : Value) : list string := omap as_str (default [] (as_array v)).
Definition bad_address (addresses : list string) : option string := List.find (fun a => negb (validate_address a n.(n_pubkey_hash))) addresses.
Definition subscribed (addresses : list string) (t : Topics) (tokens : option (gset string)) (tip replayed : Z) : Value :=
  obj ([("type", VString "subscribed"); ("addresses", vstrings addresses); ("topics", vstrings (topics_names t))]
       ++ field "tokens" (fun g : gset string => vstrings (elements g)) tokens ++ [("height", VNumber tip); ("replayed", VNumber replayed)]).
Definition resync_frame (reason : string) : Value := obj [("type", VString "resync"); ("reason", VString reason)].
Definition REPLAY_REASON : string :=
  "more than 200 transactions since the given height — page /api/wallets/<address>/transactions over the API".

Definition subscribe s x (cmd : Value) : Step :=
  let tip := get_last_height s in
  let addresses := texts (vget "addresses" cmd) in
  let count := Z.of_nat (length addresses) in
  if wcfg.(wc_max_addresses) <? count then
    (x, emit x (error_frame "too_many_addresses" (fmt_u count +:+ " addresses requested, this node allows " +:+ fmt_u wcfg.(wc_max_addresses))), None) else
  match bad_address addresses with
  | Some bad => (x, emit x (error_frame "bad_address" ("invalid address " +:+ bad)), None)
  | None =>
      match topics_parse (vget "topics" cmd) with
      | Err m => (x, emit x (error_frame "bad_topic" m), None)
      | Ok t =>
          let x := mkSession (list_to_set addresses) t (list_to_set (texts (vget "tokens" cmd))) x.(se_encoding) in
          let '(l, resync) :=
            match as_number (vget "sinceHeight" cmd) with
            | Some since => if (since <? tip) && t.(tp_wallet) then replay s addresses since else ([], false)
            | None => ([], false)
            end in
          let send l := (pair x.(se_encoding)) <$> l in
          let '(frames, end_) := replay_frames s x tip l in
          match end_ with
          | Some e => (x, send frames, Some e)
          | None =>
              let balances := if t.(tp_wallet) then balance_frame s <$> addresses else [] in
              let again := if resync then [resync_frame REPLAY_REASON] else [] in
              (x, send (frames ++ balances ++ again ++ [subscribed addresses t (Some x.(se_tokens)) tip (Z.of_nat (length frames))]), None)
          end
      end
  end.

Definition handle_command (unix : Z) s x (bytes : list byte) : Step :=
  match decode_frame bytes with
  | Err e => (x, emit x (error_frame "bad_frame" e), None)
  | Ok (cmd, _) =>
      let asked := as_str (vget "encoding" cmd) in
      match asked, asked ≫= encoding_parse with
      | Some enc, None =>
          (x, emit x (error_frame "bad_encoding" ("unknown encoding " +:+ debug_str enc +:+ " (known: " +:+ String.concat ", " ENCODINGS +:+ ")")), None)
      | _, found =>
          let x := match found with Some e => set_encoding e x | None => x end in
          let tip := get_last_height s in
          let kind := as_str (vget "type" cmd) in
          if bool_decide (kind = Some "ping") then
            (x, emit x (obj [("type", VString "pong"); ("height", VNumber tip); ("time", VNumber unix)]), None)
          else if bool_decide (kind = Some "encoding") then
            (x, emit x (obj [("type", VString "encoding"); ("encoding", VString (encoding_name x.(se_encoding)))]), None)
          else if bool_decide (kind = Some "unsubscribe") then
            let x := mkSession ∅ topics_none ∅ x.(se_encoding) in (x, emit x (subscribed [] topics_none None tip 0), None)
          else if bool_decide (kind = Some "subscribe") then subscribe s x cmd
          else (x, emit x (error_frame "unknown_command" ("unknown command " +:+ debug_text kind +:+ " (subscribe | unsubscribe | ping | encoding)")), None)
      end
  end.

(** *** What happens on the chain and in the pool *)

Definition order_action (k : Z) : string := if k =? token.SELL then "sell" else if k =? token.BUY then "buy" else "cancel".
Definition symbol_of (t : option TokenState) : Value := vopt (fun t => VString t.(ts_symbol)) t.
Definition trade_value (tr : TokenTrade) : Value :=
  obj [("txId", VString tr.(tt_tx_id)); ("orderId", VString tr.(tt_order_id)); ("buyer", VString tr.(tt_buyer)); ("seller", VString tr.(tt_seller));
       ("amount", VString (fmt_u tr.(tt_amount))); ("price", VString (fmt_u tr.(tt_price))); ("total", VString (fmt_u tr.(tt_total)));
       ("height", VNumber tr.(tt_height)); ("timestamp", VNumber tr.(tt_timestamp))].
(** An order that was made, filled or withdrawn; of a purchase also the trade, among the newest 64. *)
Definition dex_frames s x tx : list Value :=
  match token_asset tx with
  | None => []
  | Some a =>
      let k := tx.(tx_type_) in
      if negb ((k =? token.SELL) || (k =? token.BUY) || (k =? token.CANCEL))
         || negb (bool_decide (x.(se_tokens) = ∅) || bool_decide (a.(ta_id) ∈ x.(se_tokens))) then [] else
      let order_id := if k =? token.SELL then tx.(tx_id) else a.(ta_order_id) in
      let t := token_state s a.(ta_id) in
      match order_id ≫= token_order s with
      | Some o => [obj [("type", VString "order"); ("tokenId", VString a.(ta_id)); ("symbol", symbol_of t); ("action", VString (order_action k));
                        ("txId", vstr tx.(tx_id)); ("order", order_json o t)]]
      | None => []
      end
      ++ (if k =? token.BUY then
            match List.find (fun tr => bool_decide (tx.(tx_id) = Some tr.(tt_tx_id))) (take 64 (token_trades s a.(ta_id))) with
            | Some tr => [obj [("type", VString "trade"); ("tokenId", VString a.(ta_id)); ("symbol", symbol_of t); ("trade", trade_value tr)]]
            | None => []
            end
          else [])
  end.

Definition confirmed_by b tx : Transaction :=
  let tx := tx_set_block_height (Some b.(b_height)) tx in if is_some tx.(tx_block_id) then tx else tx_set_block_id b.(b_id) tx.
Definition block_tx_frames s x b tx : list Value :=
  (if negb (bool_decide (hits x tx = [])) && x.(se_topics).(tp_wallet)
   then [obj [("type", VString "tx"); ("addresses", vstrings (hits x tx)); ("height", VNumber b.(b_height));
              ("tx", tx_json n s (confirmed_by b tx) (Some b.(b_timestamp)) false b.(b_height))]] else [])
  ++ (if x.(se_topics).(tp_dex) then dex_frames s x tx else []).

(** The subscribed addresses whose balance a block can have changed. *)
Definition touched x b : list string :=
  let by_txs := concat (hits x <$> b.(b_transactions)) in
  let generator := match address_from_public_key b.(b_generator_public_key) n.(n_pubkey_hash) with
                   | Ok g => if bool_decide (g ∈ x.(se_addresses)) && ((0 <? b.(b_total_fee)) || (0 <? b.(b_reward))) then [g] else []
                   | Err _ => []
                   end in
  dedup_sorted (sort_by str_le (by_txs ++ generator)).
Definition on_block s x b : list Value :=
  (if x.(se_topics).(tp_blocks) then [obj [("type", VString "block"); ("block", block_json n s b false b.(b_height))]] else [])
  ++ (if bool_decide (x.(se_addresses) = ∅) && negb x.(se_topics).(tp_dex) then [] else
      concat (block_tx_frames s x b <$> b.(b_transactions)) ++ (if x.(se_topics).(tp_wallet) then balance_frame s <$> touched x b else [])).

Definition mempool_frame s x tx : option Value :=
  if bool_decide (hits x tx = []) then None else
  let frame := obj [("type", VString "mempoolTx"); ("addresses", vstrings (hits x tx)); ("tx", tx_json n s tx None false (get_last_height s))] in
  Some (match hint_json n s cfg json_len tx with Some h => vset "feeHint" h frame | None => frame end).
Definition on_mempool s x (txs : list Transaction) : list Value :=
  if negb x.(se_topics).(tp_mempool) || bool_decide (x.(se_addresses) = ∅) then [] else omap (mempool_frame s x) txs.

(** *** The loop *)

Inductive Heard : Type :=
| Command (unix : Z) (bytes : list byte)
| Hung                                  (* the wallet closed the stream *)
| Broken (e : string)                   (* the stream failed, or a frame is out of range *)
| Applied (b : Block)
| RolledBack (height : Z)
| Lagged (dropped : Z)
| ChainClosed
| PoolHeard (txs : list Transaction)
| PoolLagged
| PoolClosed
| Idle.

Definition idle_secs : Z := Z.max wcfg.(wc_idle_timeout_secs) 30.
(** The second part says whether the session goes on. *)
Definition heard s x (h : Heard) : Session * Sent * bool :=
  let send l := (x, pair x.(se_encoding) <$> l, true) in
  match h with
  | Command unix bytes => let '(x, out, end_) := handle_command unix s x bytes in (x, out, negb (is_some end_))
  | Hung | Broken _ | ChainClosed | PoolClosed => (x, [], false)
  | Applied b => send (on_block s x b)
  | RolledBack h => send [obj [("type", VString "rollback"); ("height", VNumber h)]]
  | Lagged k => send [resync_frame (fmt_u k +:+ " chain events dropped — refresh over the API")]
  | PoolHeard txs => send (on_mempool s x txs)
  | PoolLagged => send []
  | Idle => (x, emit x (error_frame "idle" ("no command for " +:+ fmt_u idle_secs +:+ " s — send ping to keep the session")), false)
  end.
(** Each event with the store it is handled on. *)
Fixpoint session_run (l : list (Store * Heard)) x : Session * Sent :=
  match l with
  | [] => (x, [])
  | (s, h) :: l =>
      let '(x, out, go_on) := heard s x h in
      if go_on then let '(x, rest) := session_run l x in (x, out ++ rest) else (x, out)
  end.
Definition session (a : WalletApi) (version : string) s (l : list (Store * Heard)) : Sent :=
  emit session_new (hello a version s session_new) ++ (session_run l session_new).2.
End session.

(** ** A signed answer *)

Section answers.
Context `{E : Env} `{L : !EnvLaws E} `{IK : IrohKeys} `{LK : !IrohKeysLaws IK} `{J : JsonText} `{LJ : !JsonTextLaws J} `{WW : WalletWire}.

Lemma pdata_fields a name status now raw : let p := pdata_json a name status now raw in
  as_str (vget "node_id" p) = Some (node_id a) /\ vget "status" p = VNumber status /\ vget "signed_at" p = VNumber now
  /\ as_str (vget "sig" p) = Some (hex_encode (iroh_sign a.(wa_secret) (canon (node_id a) status now raw)))
  /\ as_str (vget "body_b64" p) = Some (base64_encode raw) /\ float_free p = true.
Proof.
  cbv zeta. unfold pdata_json. generalize (node_id a) (if (name =? "")%string then "sth-core" else name) (hex_encode (iroh_sign (wa_secret a) (canon (node_id a) status now raw))) (base64_encode raw).
  intros t1 t2 t3 t4. by vm_compute.
Qed.

Lemma canonical_insert d k v m : canonical d v = true -> canonical (S d) (VObject m) = true -> canonical (S d) (VObject (o_insert k v m)) = true.
Proof.
  intros Hv H. cbn [canonical] in *. apply andb_prop in H as [Ha Hf]. apply andb_true_iff. split; [by apply ascending_insert|]. clear Ha.
  induction m as [|[j w] m IH]; cbn [o_insert forallb] in *; [by rewrite Hv|]. apply andb_prop in Hf as [Hw Hf].
  destruct (String.eqb k j); [cbn [forallb]; by rewrite Hv|]. destruct (String.ltb k j); cbn [forallb]; [by rewrite Hv, Hw|]. by rewrite Hw, IH.
Qed.

Lemma canonical_obj d l : Forall (fun e => canonical d e.2 = true) l -> canonical (S d) (obj l) = true.
Proof.
  unfold obj. assert (H0 : canonical (S d) (VObject []) = true) by done. revert H0. generalize (@nil (string * Value)) as m.
  induction l as [|[k v] l IH]; intros m Hm H; [done|]. apply Forall_cons in H as [Hv H]. cbn [foldl]. apply IH; [by apply canonical_insert|done].
Qed.

Lemma pdata_canonical a name status now raw : 0 <= status <= u64_max -> 0 <= now <= u64_max -> canonical 126 (pdata_json a name status now raw) = true.
Proof.
  intros Hs Hn. assert (Hr : forall z, 0 <= z <= u64_max -> canonical 125 (VNumber z) = true) by (intros z Hz; cbn [canonical]; bounds; lia).
  unfold pdata_json. apply canonical_obj. repeat (apply Forall_cons; split; [first [reflexivity|apply Hr; bounds; lia]|]). by apply Forall_nil.
Qed.

(** C35: A wallet that asks a node accepts its answer, and gets the status and the JSON the router produced: what [finalize] signs is what
    [read_answer] checks, through the JSON text, base64 and the key in the node's name. *)
Theorem answer_accepted a now name status raw v : 0 <= status <= u16_max -> 0 <= now <= u64_max -> json_parse raw = Some v ->
  Z.of_nat (length (finalize a now name status raw)) <= MAX_RESPONSE ->
  exists p, read_answer (node_id a) (finalize a now name status raw) = Ok (mkApiResponse status v p)
            /\ as_str (vget "node_id" p) = Some (node_id a) /\ as_number (vget "signed_at" p) = Some now.
Proof.
  intros Hs Hn Hv Hlen. set (p := pdata_json a name status now raw). exists p. destruct (pdata_fields a name status now raw) as (Hid & Hst & Hat & Hsig & Hb & Hff).
  fold p in Hid, Hst, Hat, Hsig, Hb, Hff. assert (Hc : canonical 126 p = true) by (apply pdata_canonical; bounds; lia).
  assert (Hpd : pdata_json a name status now raw = p) by reflexivity. clearbody p.
  assert (Hnum : forall z, 0 <= z <= u64_max -> as_number (VNumber z) = Some z).
  { intros z Hz. cbn. rewrite (proj2 (Z.leb_le 0 z)), (proj2 (Z.leb_le z u64_max)) by lia. done. }
  assert (Hobj : exists m, canonical JSON_DEPTH (VObject m) = true /\ o_get "pdata" m = Some p /\ finalize a now name status raw = json_print (VObject m)).
  { unfold finalize. rewrite Hv, Hpd. pose proof (json_parse_canonical raw v Hv) as Hcv. destruct v as [| | | | | |m].
    1-6: exists [("pdata", p)]; split; [apply (canonical_obj 126 [("pdata", p)]); by apply Forall_singleton|split; reflexivity].
    exists (o_insert "pdata" p m). split; [by apply (canonical_insert 126)|split; [apply o_get_insert|reflexivity]]. }
  destruct Hobj as (m & Hcm & Hg & Hf). rewrite Hf in Hlen |- *. destruct (json_print_object m Hcm) as (m' & Hp & Hkeep).
  unfold read_answer. rewrite (proj2 (Z.ltb_ge _ _) Hlen), Hp, (Hkeep _ _ Hg Hff). unfold verify_pdata. rewrite Hid, Hst, Hat, Hsig, Hb.
  rewrite (Hnum status), (Hnum now), String.eqb_refl, base64_decode_encode, hex_decode_encode by (bounds; lia). rewrite iroh_sign_length. cbn [Nat.eqb andb].
  change (iroh_verify (node_id a)) with (iroh_verify (iroh_public a.(wa_secret))). rewrite iroh_sign_verifies. cbn [negb].
  change (Some (base64_encode raw) ≫= base64_decode) with (base64_decode (base64_encode raw)). rewrite base64_decode_encode.
  change (Some raw ≫= json_parse) with (json_parse raw). rewrite Hv. split; [|by split]. change (default 0 (Some status)) with status.
  unfold as_u16. by rewrite Z.mod_small by (bounds; lia).
Qed.
End answers.

(** ** Frames *)

Lemma mesh_frame_roundtrip `{WalletWire} max body rest : 0 < Z.of_nat (length body) <= max -> max <= u32_max ->
  read_frame max (write_frame body ++ rest) = Ok (Some (body, rest)).
Proof.
  intros Hb Hm. unfold read_frame, write_frame. assert (Hu : as_u32 (Z.of_nat (length body)) = Z.of_nat (length body)) by (unfold as_u32; rewrite Z.mod_small; bounds; lia).
  rewrite Hu. set (h := le_bytes 4 _). assert (Hh : length h = 4%nat) by apply le_bytes_length. assert (Hl : le_value h = Z.of_nat (length body)).
  { unfold h. rewrite le_value_bytes, Z.mod_small; [done|]. change (256 ^ Z.of_nat 4) with 4294967296. bounds; lia. }
  destruct ((h ++ body) ++ rest) as [|y l] eqn:He; [destruct h; done|]. rewrite <- He. clear He y l. rewrite <- app_assoc.
  rewrite length_app. rewrite (proj2 (Nat.ltb_ge _ 4)) by lia. rewrite (take_app_length' h) by done. rewrite (drop_app_length' h) by done. rewrite Hl.
  rewrite (proj2 (Z.eqb_neq _ 0)), (proj2 (Z.ltb_ge max _)) by lia. cbn [orb]. rewrite Nat2Z.id, length_app. rewrite (proj2 (Nat.ltb_ge _ _)) by lia.
  by rewrite take_app_length, drop_app_length.
Qed.

(** ** Replay *)

Section replays.
Context `{E : Env} `{IK : IrohKeys} `{J : JsonText} `{WW : WalletWire}.
Variables (n : Network) (wcfg : WalletApiConfig).
Implicit Types (s : Store) (e : TxIndexEntry).

Lemma collect_spec l seen out r full : collect l seen out = (r, full) -> (forall id, id ∈ seen <-> id ∈ ie_id <$> out) -> NoDup (ie_id <$> out) -> (length out <= MAX_REPLAY)%nat ->
  NoDup (ie_id <$> r) /\ (forall e, e ∈ r -> e ∈ out \/ e ∈ l) /\ (forall e, e ∈ out -> e ∈ r) /\ (length r <= MAX_REPLAY)%nat /\
  (if full : bool then length r = MAX_REPLAY /\ exists e, e ∈ l /\ e.(ie_id) ∉ ie_id <$> r else forall e, e ∈ l -> e.(ie_id) ∈ ie_id <$> r).
Proof.
  revert seen out. induction l as [|e l IH]; intros seen out H Hseen Hnd Hlen.
  { injection H as <- <-. split_and!; [done|auto|auto|done|by intros e ?%elem_of_nil]. }
  cbn [collect] in H. case_bool_decide as Hin.
  - destruct (IH _ _ H Hseen Hnd Hlen) as (H1 & H2 & H3 & H4 & H5). split_and!; [done| |done|done|].
    + intros x Hx. destruct (H2 x Hx); [by left|right; by right].
    + destruct full; [destruct H5 as (? & x & Hx & Hn); split; [done|]; exists x; split; [by right|done]|].
      intros x [->|Hx]%elem_of_cons; [|auto]. apply Hseen, list_elem_of_fmap in Hin as (y & -> & Hy). apply list_elem_of_fmap. exists y. auto.
  - destruct (Nat.leb_spec MAX_REPLAY (length out)) as [Hfull|Hroom].
    + injection H as <- <-. split_and!; [done|auto|auto|done|lia|]. exists e. split; [by left|]. by rewrite <- Hseen.
    + destruct (IH _ _ H) as (H1 & H2 & H3 & H4 & H5).
      * intros id. rewrite fmap_app, elem_of_union, elem_of_singleton, elem_of_app, Hseen. cbn. rewrite list_elem_of_singleton. tauto.
      * rewrite fmap_app. apply NoDup_app. split; [done|]. split; [|repeat constructor; by intros ?%elem_of_nil].
        intros id Hid [->|[]%elem_of_nil]%elem_of_cons. apply Hin. by apply Hseen.
      * rewrite length_app. cbn. lia.
      * split_and!; [done| | |done|].
        -- intros x Hx. destruct (H2 x Hx) as [[Ho| ->%list_elem_of_singleton]%elem_of_app|Hl]; [by left|right; by left|right; by right].
        -- intros x Hx. apply H3, elem_of_app. by left.
        -- assert (He : e ∈ r) by (apply H3, elem_of_app; right; by left). destruct full; [destruct H5 as (? & x & Hx & Hn); split; [done|]; exists x; split; [by right|done]|].
           intros x [->|Hx]%elem_of_cons; [apply list_elem_of_fmap; by exists e|auto].
Qed.

(** A transaction that the index of an address has above a height. *)
Definition indexed_above s (since : Z) (addresses : list string) e : Prop :=
  exists a, a ∈ addresses /\ s.(st_wallet_tx) !! (a, e.(ie_height), e.(ie_seq)) = Some e.(ie_id)
            /\ since < e.(ie_height) <= get_last_height s /\ 0 <= e.(ie_seq) <= u32_max.

Lemma elem_of_missed s addresses since e : (forall k id, s.(st_wallet_tx) !! k = Some id -> 0 <= k.2 <= u32_max) ->
  e ∈ missed s addresses since <-> indexed_above s since addresses e.
Proof.
  intros Hseq. unfold missed, indexed_above. rewrite list_elem_of_In, in_concat. split.
  - intros (l & Hl & He). apply list_elem_of_In in Hl. apply list_elem_of_In in He. apply list_elem_of_fmap in Hl as (a & -> & Ha). apply elem_of_wallet_index in He as (Hw & H1 & H2).
    specialize (Hseq _ _ Hw). unfold pos_le in *. cbn in *. exists a. split_and!; try done; lia.
  - intros (a & Ha & Hw & Hh & Hq). exists (transaction_index s (Some a) (since + 1) (get_last_height s) true). rewrite <- !list_elem_of_In. split.
    + apply list_elem_of_fmap. by exists a.
    + apply elem_of_wallet_index. split_and!; [done| |]; unfold pos_le; cbn; lia.
Qed.

#[local] Instance entry_le_decidable : RelDecision entry_le := fun e f => pos_le_dec _ _.
#[local] Instance entry_le_total : Total entry_le.
Proof. intros e f. unfold entry_le, pos_le. cbn. lia. Qed.
#[local] Instance entry_le_transitive : Transitive entry_le.
Proof. intros e f g. unfold entry_le, pos_le. cbn. lia. Qed.

Lemma replay_frames_found s x tip l : Forall (fun e => exists tx, get_transaction n s e.(ie_id) = Ok (Some tx)) l ->
  exists frames, replay_frames n s x tip l = (frames, None) /\
    Forall2 (fun e f => exists tx ts, get_transaction n s e.(ie_id) = Ok (Some tx) /\ f = tx_frame n s x tx e.(ie_height) true ts tip) l frames.
Proof.
  induction 1 as [|e l [tx Htx] _ (frames & Hf & H2)]; [by exists []|]. cbn [replay_frames]. rewrite Htx, Hf. eexists. split; [done|]. constructor; [|done]. by eexists _, _.
Qed.

(** C34: A wallet that subscribes with the height it has seen is sent the transactions of its addresses above it: each once, in the order of the chain,
    none that is not theirs, and none missing, unless it is told to page, which happens only when there are more than two hundred. *)
Theorem subscribe_replays s x cmd since t : let addresses := texts (vget "addresses" cmd) in
  (forall k id, s.(st_wallet_tx) !! k = Some id -> 0 <= k.2 <= u32_max) ->
  (forall e, indexed_above s since addresses e -> exists tx, get_transaction n s e.(ie_id) = Ok (Some tx)) ->
  Z.of_nat (length addresses) <= wcfg.(wc_max_addresses) -> bad_address n addresses = None -> topics_parse (vget "topics" cmd) = Ok t -> t.(tp_wallet) = true ->
  as_number (vget "sinceHeight" cmd) = Some since -> since < get_last_height s ->
  exists l frames full, let x' := mkSession (list_to_set addresses) t (list_to_set (texts (vget "tokens" cmd))) x.(se_encoding) in
    subscribe n wcfg s x cmd
    = (x', pair x.(se_encoding) <$> frames ++ (balance_frame n s <$> addresses) ++ (if full : bool then [resync_frame REPLAY_REASON] else [])
                                   ++ [subscribed addresses t (Some x'.(se_tokens)) (get_last_height s) (Z.of_nat (length frames))], None) /\
    Forall2 (fun e f => exists tx ts, get_transaction n s e.(ie_id) = Ok (Some tx) /\ f = tx_frame n s x' tx e.(ie_height) true ts (get_last_height s)) l frames /\
    StronglySorted entry_le l /\ NoDup (ie_id <$> l) /\ Forall (indexed_above s since addresses) l /\
    (if full then length l = MAX_REPLAY /\ exists e, indexed_above s since addresses e /\ e.(ie_id) ∉ ie_id <$> l
     else forall e, indexed_above s since addresses e -> e.(ie_id) ∈ ie_id <$> l).
Proof.
  intros addresses Hseq Hfound Hmax Hgood Htop Hwal Hsince Hlow. destruct (collect (missed s addresses since) ∅ []) as [r full] eqn:Hc.
  destruct (collect_spec _ _ _ _ _ Hc) as (Hnd & Hin & _ & _ & Hcov); [set_solver|constructor|cbn; lia|].
  set (l := sort_by entry_le r). assert (Hperm : l ≡ₚ r) by apply sort_by_Permutation.
  assert (Hall : Forall (indexed_above s since addresses) l).
  { apply Forall_forall. intros e He. rewrite Hperm in He. destruct (Hin e He) as [[]%elem_of_nil|Hm]. by apply elem_of_missed in Hm. }
  set (x' := mkSession (list_to_set addresses) t (list_to_set (texts (vget "tokens" cmd))) x.(se_encoding)).
  destruct (replay_frames_found s x' (get_last_height s) l) as (frames & Hf & H2); [eapply Forall_impl; [exact Hall|]; auto|].
  exists l, frames, full. cbv zeta. fold x'. split; [|split; [exact H2|split; [apply (StronglySorted_sort_by entry_le); apply _|split; [by rewrite Hperm|split; [done|]]]]].
  - unfold subscribe. fold addresses. rewrite (proj2 (Z.ltb_ge _ _) Hmax), Hgood, Htop, Hsince, (proj2 (Z.ltb_lt _ _) Hlow), Hwal. cbn [andb].
    assert (Hrep : replay s addresses since = (l, full)) by (unfold replay; by rewrite Hc). rewrite Hrep. cbv beta iota zeta. fold x'. rewrite Hf. reflexivity.
  - destruct full.
    + destruct Hcov as (Hlen & e & He & Hno). split; [by rewrite (Permutation_length Hperm)|]. exists e. split; [by apply elem_of_missed in He|by rewrite Hperm].
    + intros e He. rewrite Hperm. apply Hcov. by apply elem_of_missed.
Qed.
End replays.
