(* ===== verification/ChainDemo.v ===== *)
(** * A concrete chain

    Two blocks on an empty store in the concrete environment: a delegate registers and votes for
    itself, then pays somebody.  The theorems on the store, the deltas and the chain are applied to
    it, so their hypotheses hold together. *)

From S2P Require Import Prelude Models Env Bytes Crypto Config TxCodec TxRoundtrip BlockCodec Wallet Round Tree.
From S2P Require Import Storage StorageFacts Deltas TokenFlow Chain ChainFacts ChainRounds.

#[local] Existing Instance TestEnv.env.
#[local] Existing Instance TestEnv.laws.

(** A round of two, one slot every eight seconds, hard finality. *)
Definition demo_milestone : Milestone :=
  mkMilestone 1 100 2 8 block_params_default "" ∅ 255 256 true true true false false false token_fees_default 64
    (mkMarket false 0) masternodes_default false false "" pq_params_default (mkFinality true 0 false 0).
Definition demo_net : Network := mkNetwork 63 "" "" 0 "" 0 demo_milestone [].

Definition demo_head (type_ nonce fee : Z) (a : TransactionAsset) : Transaction :=
  tx_set_signature (Some demo_signature) (tx_set_asset (Some a) (tx_head 2 63 TYPE_GROUP_CORE type_ nonce demo_key fee)).
Definition demo_register : Transaction :=
  demo_head tx_type.DELEGATE_REGISTRATION 1 0 (as_set_delegate (Some (mkDelegate "alice")) asset_default).
Definition demo_vote : Transaction :=
  demo_head tx_type.VOTE 2 0 (as_set_votes (Some [("+" +:+ demo_key)%string]) asset_default).
Definition demo_pay : Transaction :=
  tx_set_recipient_id (Some demo_address) (tx_set_expiration (Some 0) (tx_set_amount 40
    (tx_set_signature (Some demo_signature) (tx_head 2 63 TYPE_GROUP_CORE tx_type.TRANSFER 3 demo_key 5)))).

Definition demo_b (height timestamp fee reward : Z) (txs : list Transaction) : Block :=
  mkBlock None 0 timestamp demo_hash height (Z.of_nat (length txs)) 0 fee reward 0 demo_hash demo_key
    (Some (hex_encode demo_der)) None txs.
Definition demo_b1 : Block := demo_b 1 8 0 1000 [demo_register; demo_vote].
Definition demo_b2 : Block := demo_b 2 24 5 100 [demo_pay].

Definition demo_s1 : Store := (apply_block demo_net store_empty demo_b1 false).1.
Definition demo_s2 : Store := (apply_block demo_net demo_s1 demo_b2 false).1.
Definition demo_s3 : Store := (rollback_last_block demo_net demo_s2).1.

Definition demo_sender : string := default EmptyString (res_ok (address_from_public_key demo_key 63)).


Lemma demo_apply2 : apply_block demo_net demo_s1 demo_b2 false = (demo_s2, Done).
Proof.
  assert (H : (apply_block demo_net demo_s1 demo_b2 false).2 = Done) by (vm_compute; reflexivity).
  by rewrite (surjective_pairing (apply_block demo_net demo_s1 demo_b2 false)), H.
Qed.

Lemma demo_rollback : rollback_last_block demo_net demo_s2 = (demo_s3, Ok 1).
Proof.
  assert (H : (rollback_last_block demo_net demo_s2).2 = Ok 1) by (vm_compute; reflexivity).
  by rewrite (surjective_pairing (rollback_last_block demo_net demo_s2)), H.
Qed.

Lemma demo_height1 : get_last_height demo_s1 = 1.
Proof. vm_compute. reflexivity. Qed.
Lemma demo_height2 : get_last_height demo_s2 = 2.
Proof. vm_compute. reflexivity. Qed.

Lemma demo_votes0 : vote_index_ok store_empty.
Proof. intros pk. cbn. by rewrite lookup_empty, map_sum_empty. Qed.

(** ** Witnesses *)

Lemma apply_block_once_witness :
  get_last_height demo_s2 = 2 /\ exists e, apply_block demo_net demo_s2 demo_b2 false = (demo_s2, Failed e).
Proof.
  pose proof (apply_block_once demo_net demo_s1 demo_b2 false demo_s2 demo_apply2 ltac:(cbn; bounds; lia)
    ltac:(rewrite demo_height1; bounds; lia)) as (H1 & _ & H2).
  split; [exact H1|]. apply H2. cbn. lia.
Defined.

Lemma supply_follows_block_witness : supply_of demo_s2 = supply_of demo_s1 + 100.
Proof.
  pose proof (supply_follows_block demo_net demo_s1 demo_b2 false demo_s2 demo_apply2) as (b & enc & Hp & _ & H).
  assert (Hb : b = (default (demo_b2, []) (res_ok (prepare_block demo_net demo_b2))).1) by (by rewrite Hp).
  rewrite H.
  - rewrite Hb. vm_compute. reflexivity.
  - rewrite Hb. vm_compute. reflexivity.
  - rewrite Hb. repeat constructor; vm_compute; reflexivity.
Defined.

Lemma rollback_restores_witness : demo_s3.(st_wallets) = demo_s1.(st_wallets) /\ get_last_height demo_s3 = 1.
Proof.
  pose proof (rollback_restores demo_net demo_s1 demo_b2 false demo_s2 demo_s3 1 demo_apply2 demo_rollback
    ltac:(rewrite demo_height1; bounds; lia)) as (_ & H1 & H2 & _).
  split; [exact H2|]. rewrite H1. exact demo_height1.
Defined.

Lemma vote_index_kept_witness :
  exists s u out, write_wallets_undo store_empty {[ "a"%string := dl_on_balance (fun _ => 5) delta_default ]} true = Ok (s, u, out) /\
    vote_index_ok s.
Proof.
  eexists _, _, _. split; [vm_compute; reflexivity|].
  apply (vote_index_kept store_empty {[ "a"%string := dl_on_balance (fun _ => 5) delta_default ]} true _ [("a"%string, None)]
    [mkWallet "a" None 5 0 None None None 0 0 0 None false ∅ None ∅ None None ∅ ∅]).
  - vm_compute. reflexivity.
  - vm_compute. discriminate.
  - exact demo_votes0.
Defined.

Lemma rebuild_vote_index_exact_witness : vote_index_ok (rebuild_vote_index demo_s2).
Proof. exact (proj1 (rebuild_vote_index_exact demo_s2 ltac:(vm_compute; discriminate))). Defined.

Lemma active_delegates_top_witness : Z.of_nat (length (active_delegates_excluding demo_s2 2 [])) <= 2.
Proof. exact (proj1 (active_delegates_top demo_s2 2 [] ltac:(lia))). Defined.

Definition demo_deltas : gmap string WalletDelta :=
  default ∅ (res_ok (accumulate_deltas demo_net demo_s1 demo_b2 [demo_b2] ∅)).

Lemma demo_accumulate : accumulate_deltas demo_net demo_s1 demo_b2 [demo_b2] ∅ = Ok demo_deltas.
Proof.
  unfold demo_deltas. assert (H : is_ok (accumulate_deltas demo_net demo_s1 demo_b2 [demo_b2] ∅) = true) by (vm_compute; reflexivity).
  by destruct (accumulate_deltas demo_net demo_s1 demo_b2 [demo_b2] ∅).
Qed.

Lemma block_conserves_witness : net demo_deltas = net ∅ + 100.
Proof.
  apply (block_conserves demo_net demo_s1 demo_b2 [demo_b2] ∅ demo_deltas demo_accumulate).
  - vm_compute. reflexivity.
  - repeat constructor; vm_compute; reflexivity.
Defined.

Lemma nonce_counts_witness : nonce_of demo_sender demo_deltas = 1.
Proof.
  rewrite (nonce_counts demo_net demo_s1 demo_sender demo_b2 [demo_b2] ∅ demo_deltas demo_accumulate
    ltac:(vm_compute; split; discriminate)).
  vm_compute. reflexivity.
Defined.

(** Two claims of one lock in the same batch. *)
Definition demo_lock : Transaction := tx_set_id (Some "lock"%string) demo_pay.
Definition demo_lock_block : Block := demo_b 3 32 0 0 [demo_lock].

Lemma claim_pays_without_lock_witness :
  exists d1 d2, claim_deltas demo_net demo_s2 ∅ [demo_lock_block] (mkClaim "lock" "") = Ok d1 /\
    claim_deltas demo_net demo_s2 d1 [demo_lock_block] (mkClaim "lock" "") = Ok d2 /\ net d2 = net ∅ + 2 * 40.
Proof.
  apply (claim_pays_without_lock demo_net demo_s2 ∅ [demo_lock_block] (mkClaim "lock" "") demo_lock demo_sender).
  - vm_compute. reflexivity.
  - vm_compute. reflexivity.
  - eexists. vm_compute. reflexivity.
Defined.

Definition demo_cert : FinalityCert := mkCert 2 "" ∅.
Definition demo_final : Store := put_finality_cert demo_cert demo_s2.

Lemma demo_final_ok : certs_ok demo_final.
Proof.
  apply put_cert_ok. unfold certs_ok. assert (demo_s2.(st_finality) = ∅) as -> by (vm_compute; reflexivity).
  apply map_Forall_empty.
Qed.

Lemma certified_blocks_final_witness : exists e, rollback_last_block demo_net demo_final = (demo_final, Err e).
Proof.
  assert (H1 : demo_final.(st_finality) !! 2 = Some demo_cert) by (vm_compute; reflexivity).
  assert (H2 : get_last_height demo_final <= 2) by (vm_compute; discriminate).
  assert (H3 : (milestone demo_net (get_last_height demo_final)).(m_finality).(fp_active) = true) by (vm_compute; reflexivity).
  exact (proj1 (certified_blocks_final demo_net demo_final 2 demo_cert demo_final_ok H1 H2 H3)).
Defined.

Lemma rollback_to_reaches_witness : exists s, rollback_to demo_net demo_s2 1 = (s, Ok 1) /\ get_last_height s = 1.
Proof.
  exists (rollback_to demo_net demo_s2 1).1.
  assert (H : rollback_to demo_net demo_s2 1 = ((rollback_to demo_net demo_s2 1).1, Ok 1)).
  { assert (H : (rollback_to demo_net demo_s2 1).2 = Ok 1) by (vm_compute; reflexivity).
    by rewrite (surjective_pairing (rollback_to demo_net demo_s2 1)), H at 1. }
  split; [exact H|].
  exact (proj2 (rollback_to_reaches demo_net demo_s2 1 _ 1 H ltac:(lia) ltac:(vm_compute; discriminate))).
Defined.

Lemma round_snapshot_witness : forging_order demo_s2 2 = Some (shuffle (active_delegates demo_net demo_s2 2) 2).
Proof.
  exact (proj1 (round_snapshot demo_net demo_s1 demo_b2 false demo_s2 demo_apply2 ltac:(cbn; bounds; lia))).
Defined.

Lemma missed_slots_in_range_witness : (record_missed_slots demo_net store_empty 8 demo_b2).2 = Done.
Proof. apply (missed_slots_in_range demo_net store_empty 8 demo_b2). intros l Hl. vm_compute in Hl. discriminate. Defined.

(** One delegate in a round of two: the second slot of the round has nobody. *)
Lemma missed_slots_short_round_witness :
  (record_missed_slots demo_net demo_s1 0 (demo_b 2 16 0 0 [])).2 = Panicked /\
  (apply_block demo_net (apply_block demo_net store_empty (demo_b 1 0 0 0 [demo_register]) false).1 (demo_b 2 16 0 0 []) false).2 = Panicked.
Proof.
  split; [|vm_compute; reflexivity].
  apply (missed_slots_short_round demo_net demo_s1 0 (demo_b 2 16 0 0 []) [mkRank demo_key 1000] 1).
  - vm_compute. reflexivity.
  - vm_compute. split; reflexivity.
  - vm_compute. discriminate.
  - vm_compute. discriminate.
Defined.

(** A rollback on a store whose tip is at height 11. *)
Definition demo_tip11 : Store := on_last_height (fun _ => Some 11) store_empty.
Definition demo_s12 : Store := (apply_block demo_network demo_tip11 demo_block false).1.

Lemma demo_apply12 : apply_block demo_network demo_tip11 demo_block false = (demo_s12, Done).
Proof.
  assert (H : (apply_block demo_network demo_tip11 demo_block false).2 = Done) by (vm_compute; reflexivity).
  by rewrite (surjective_pairing (apply_block demo_network demo_tip11 demo_block false)), H.
Qed.

Lemma rollback_succeeds_witness : exists s, rollback_last_block demo_network demo_s12 = (s, Ok 11).
Proof.
  assert (H : latest_finality_cert demo_s12 = None) by (vm_compute; reflexivity).
  exact (rollback_succeeds demo_network demo_tip11 demo_block false demo_s12 demo_apply12 demo_record_wire
    ltac:(cbn; bounds; lia) ltac:(intros c Hc; rewrite H in Hc; discriminate)).
Defined.

(** ** A delegate that is not one

    A wallet that existed before registers a delegate name and the block is rolled back: the wallet
    loses the name, but the name index keeps its entry, so the wallet stays in the ranking and in
    the forging set of the rounds that follow. *)

Definition demo_g1 : Store := (apply_block demo_net store_empty (demo_b 1 8 0 1000 [demo_vote]) false).1.
Definition demo_g2 : Store := (apply_block demo_net demo_g1 (demo_b 2 16 0 100 [demo_register]) false).1.
Definition demo_g3 : Store := (rollback_last_block demo_net demo_g2).1.

Lemma ghost_delegate_after_rollback :
  (rollback_last_block demo_net demo_g2).2 = Ok 1 /\
  (ws_username <$> get_wallet demo_g3 demo_sender) = Some None /\
  active_delegates_ranked demo_g1 2 = [] /\
  active_delegates_ranked demo_g3 2 = [mkRank demo_key 1000].
Proof. vm_compute. auto. Qed.

(** ** A mint that does not count

    The issuer of a token mints and hands the ticker object over in the same block.  The token
    state that moves to the new owner is the stored one, and the pending supply change stays behind
    on the entry that is removed: fifty units exist that the supply does not know, so the new owner
    can mint them again below the cap. *)

Definition demo_token : string := "t".
Definition demo_issuer : WalletState :=
  mkWallet demo_sender (Some demo_key) 1000 0 None None None 0 0 0 None false ∅ None
    {[ demo_token := mkSobj token.TICKER_SOBJ_TYPE 0 (mkSobjData (Some "TKN"%string) None) false None ]} None None
    {[ demo_token := 100 ]} {[ demo_token := mkTokenState "TKN" 0 token.FLAG_MINTABLE 100 200 demo_sender 1 None ]}.
Definition demo_issued : Store :=
  on_sobj_owner (insert demo_token demo_sender) (on_token_owner (insert demo_token demo_sender)
    (on_wallets (insert demo_sender demo_issuer) store_empty)).

Definition demo_mint_asset : TokenAsset :=
  mkToken demo_token None None None None None None (Some 50) (Some demo_sender) None None None.
Definition demo_minting : Transaction :=
  tx_set_id (Some "m"%string) (tx_set_asset (Some (as_set_extra {[ "token"%string := token_to_value demo_mint_asset ]} asset_default))
    (tx_head 2 63 TYPE_GROUP_TOKEN token.MINT 1 demo_key 0)).
Definition demo_handing : Transaction :=
  tx_set_id (Some "h"%string) (tx_set_asset (Some (as_set_extra (sobj_into_map (mkSobjAsset token.TICKER_SOBJ_TYPE 0
      sobj.ACTION_TRANSFER (Some demo_token) (Some demo_address) None (mkSobjData None None))) asset_default))
    (tx_head 2 63 TYPE_GROUP_SOBJ sobj.TYPE 2 demo_key 0)).
Definition demo_lost_block : Block := demo_b 2 16 0 0 [demo_minting; demo_handing].

(** Supply in the token state, sum of the balances. *)
Definition demo_supply (s : Store) : option Z := ts_supply <$> token_state s demo_token.
Definition demo_held (s : Store) : Z := map_sum (fun w => default 0 (w.(ws_tokens) !! demo_token)) s.(st_wallets).

Definition demo_after (s : Store) (b : Block) : Store :=
  match accumulate_deltas demo_net s b [b] ∅ with
  | Ok ds => match write_wallets_undo s ds true with Ok (s, _, _) => s | Err _ => s end
  | Err _ => s
  end.

Lemma mint_lost_on_handover :
  let s := demo_after demo_issued demo_lost_block in
  (demo_supply demo_issued, demo_held demo_issued) = (Some 100, 100) /\
  (token_owner_of s demo_token, demo_supply s, demo_held s) = (Some demo_address, Some 100, 150).
Proof. split; unfold demo_held; rewrite map_sum_entries; vm_compute; reflexivity. Qed.

Lemma handover_drops_pending_supply_witness :
  exists df, hand_over demo_issued (add_supply demo_sender demo_token 50 ∅) demo_sender demo_address demo_token
      (mkSobj token.TICKER_SOBJ_TYPE 0 (mkSobjData None None) false None) !! demo_sender = Some df /\
    df.(dl_token_supply) !! demo_token = Some 50 /\
    forall w w', wallet_apply w df = Ok w' -> w'.(ws_tokens_issued) !! demo_token = None.
Proof.
  pose proof (handover_drops_pending_supply demo_issued (add_supply demo_sender demo_token 50 ∅) demo_sender demo_address demo_token
    (mkSobj token.TICKER_SOBJ_TYPE 0 (mkSobjData None None) false None)
    (mkTokenState "TKN" 0 token.FLAG_MINTABLE 100 200 demo_sender 1 None)) as H.
  destruct H as (df & dt & H1 & _ & _ & _ & H2 & H3).
  - vm_compute. reflexivity.
  - vm_compute. discriminate.
  - intros d Hd. assert (He : (add_supply demo_sender demo_token 50 ∅) !! demo_sender = Some (dl_on_token_supply (add_in demo_token 50) delta_default))
      by (vm_compute; reflexivity).
    rewrite He in Hd. injection Hd as <-. reflexivity.
  - exists df. split; [exact H1|]. split; [rewrite H2; vm_compute; reflexivity|exact H3].
Defined.

(** A block that mints fifty, offers thirty of them and sells ten. *)
Definition demo_market_tx (type_ nonce : Z) (id : string) (a : TokenAsset) : Transaction :=
  tx_set_id (Some id) (tx_set_asset (Some (as_set_extra {[ "token"%string := token_to_value a ]} asset_default))
    (tx_head 2 63 TYPE_GROUP_TOKEN type_ nonce demo_key 0)).
Definition demo_sell_asset : TokenAsset :=
  mkToken demo_token None None None None None None (Some 30) None None (Some 2) None.
Definition demo_buy_asset : TokenAsset :=
  mkToken demo_token None None None None None None (Some 10) None None (Some 2) (Some "s"%string).
Definition demo_market_block : Block :=
  demo_b 2 16 0 0 [demo_minting; demo_market_tx token.SELL 2 "s" demo_sell_asset; demo_market_tx token.BUY 3 "b" demo_buy_asset].
Definition demo_market_deltas : gmap string WalletDelta :=
  default ∅ (res_ok (accumulate_deltas demo_net demo_issued demo_market_block [demo_market_block] ∅)).

Lemma tokens_conserved_witness :
  circulating demo_token demo_market_deltas + escrow demo_issued demo_token demo_market_deltas = 50 /\
  supplied demo_token demo_market_deltas = 50 /\
  circulating demo_token demo_market_deltas = 30.
Proof.
  assert (H : accumulate_deltas demo_net demo_issued demo_market_block [demo_market_block] ∅ = Ok demo_market_deltas).
  { unfold demo_market_deltas.
    assert (H : is_ok (accumulate_deltas demo_net demo_issued demo_market_block [demo_market_block] ∅) = true) by (vm_compute; reflexivity).
    by destruct (accumulate_deltas demo_net demo_issued demo_market_block [demo_market_block] ∅). }
  assert (Ho : demo_issued.(st_orders) = ∅) by reflexivity.
  destruct (tokens_conserved demo_net demo_issued demo_token demo_market_block demo_market_deltas H) as (H1 & H2 & _).
  - repeat constructor; vm_compute; discriminate.
  - rewrite Ho. apply map_Forall_empty.
  - intros g Hg. assert (Hg' : address_from_public_key demo_market_block.(b_generator_public_key) demo_net.(n_pubkey_hash) = Ok demo_sender)
      by (vm_compute; reflexivity).
    rewrite Hg in Hg'. apply Ok_inj in Hg' as ->. vm_compute. reflexivity.
  - split_and!.
    + rewrite H1. unfold escrow. rewrite map_sum_entries. vm_compute. reflexivity.
    + rewrite H2. vm_compute. reflexivity.
    + unfold circulating. rewrite map_sum_entries. vm_compute. reflexivity.
Defined.
