(* ===== verification/SyncDemo.v ===== *)
(** * Concrete batches

    Batches the checks of [src/src/sync.rs] accept, for the witnesses of [SyncFacts] and
    [SyncBalance], and what they accept that they should not: a transaction a second time, which pays twice or
    destroys the tokens of a sell order; a block of somebody who is no delegate; and a refund that names two locks.  Then a
    synchronisation over REST, for the witness of [RestSync], and where it punishes or trusts the wrong node. *)

From S2P Require Import Prelude Floats Models Env Bytes Crypto Config TxCodec TxRoundtrip BlockCodec BlockVerify Wallet Rules RulesFacts Round Tree.
From S2P Require Import Storage StorageFacts Deltas TokenFlow Chain ChainFacts Sync SyncFacts SyncBalance NodePool CatchUp RestSync ChainDemo.

#[local] Existing Instance TestEnv.env.
#[local] Existing Instance TestEnv.laws.

(** Everything is enabled, small token fees. *)
Definition strict_milestone : Milestone :=
  mkMilestone 1 100 2 8 block_params_default "2017-03-21T13:00:00.000Z" ∅ 255 256 true true true true false true
    (mkTokenFees 30 3 0 3 3 3 50 3 3 3) 64 (mkMarket true 0) masternodes_default true true "" pq_params_default
    (mkFinality true 0 false 0).
Definition strict_net : Network := mkNetwork 63 "" "" 0 "" 0 strict_milestone [].

Definition sealed_sig : string := hex_encode [x30; x06; x02; x01; x05; x02; x01; x05].

(** A block with its payload hash and id computed. *)
Definition sealed (height timestamp : Z) (prev : string) (txs : list Transaction) : Block :=
  let b := mkBlock None 0 timestamp prev height (Z.of_nat (length txs)) (zsum (tx_amount <$> txs)) (zsum (tx_fee <$> txs)) 100 0
             demo_hash demo_key (Some sealed_sig) None txs in
  let b := b_set_payload_hash (default EmptyString (res_ok (block_payload_hash b))) b in
  b_set_id (res_ok (block_id b)) b.

Definition with_own_id (tx : Transaction) : Transaction := tx_set_id (res_ok (transaction_id tx)) tx.

Definition buyer_key : string := hex_encode (replicate 33 x04).
Definition buyer : string := default EmptyString (res_ok (address_from_public_key buyer_key 63)).

(** Seller and buyer of a market; the seller also pays the buyer. *)
Definition market_store : Store :=
  on_sobj_owner (insert demo_token_id demo_sender) (on_token_owner (insert demo_token_id demo_sender)
    (on_wallets (insert buyer (ws_set_balance 30 (wallet_new buyer)))
    (on_wallets (insert demo_sender
      (mkWallet demo_sender (Some demo_key) 60 0 None None None 0 0 0 None false ∅ None
        {[ demo_token_id := mkSobj token.TICKER_SOBJ_TYPE 0 (mkSobjData (Some "TKN"%string) None) false None ]} None None
        {[ demo_token_id := 100 ]} {[ demo_token_id := mkTokenState "TKN" 0 token.FLAG_MINTABLE 100 200 demo_sender 1 None ]}))
      (on_last_height (fun _ => Some 1) store_empty)))).

Definition market_tx (key : string) (type_ nonce : Z) (a : TokenAsset) : Transaction :=
  with_own_id (tx_set_signature (Some demo_signature) (tx_set_asset (Some (as_set_extra {[ "token"%string := token_to_value a ]} asset_default))
    (tx_head 2 63 TYPE_GROUP_TOKEN type_ nonce key 3))).
Definition market_sell : Transaction :=
  tx_set_id (Some demo_order_id) (market_tx demo_key token.SELL 1 (mkToken demo_token_id None None None None None None (Some 30) None None (Some 2) None)).
Definition market_pay : Transaction :=
  with_own_id (tx_set_recipient_id (Some buyer) (tx_set_expiration (Some 0) (tx_set_amount 40
    (tx_set_signature (Some demo_signature) (tx_head 2 63 TYPE_GROUP_CORE tx_type.TRANSFER 2 demo_key 5))))).
Definition market_buy : Transaction :=
  market_tx buyer_key token.BUY 1 (mkToken demo_token_id None None None None None None (Some 30) None None (Some 2) (Some demo_order_id)).
Definition market_block : Block := sealed 2 24 demo_hash [market_sell; market_pay; market_buy].
Definition market_deltas : gmap string WalletDelta := default ∅ (res_ok (batch_deltas strict_net market_store [market_block])).

(** ** Witnesses *)

Lemma market_accepted : check_stateful_rules strict_net market_store [market_block] = Ok tt.
Proof. vm_compute. reflexivity. Qed.

Lemma market_batch : batch_deltas strict_net market_store [market_block] = Ok market_deltas.
Proof.
  unfold market_deltas. assert (H : is_ok (batch_deltas strict_net market_store [market_block]) = true) by (vm_compute; reflexivity).
  by destruct (batch_deltas strict_net market_store [market_block]).
Qed.

Lemma market_orders : market_store.(st_orders) = ∅.
Proof. reflexivity. Qed.

Lemma market_sells : sell_ids (all_txs [market_block]) = [demo_order_id].
Proof. vm_compute. reflexivity. Qed.

Lemma market_fresh id : id ∈ sell_ids (all_txs [market_block]) -> market_store.(st_orders) !! id = None.
Proof. by rewrite market_orders, lookup_empty. Qed.

Lemma market_nodup : NoDup (sell_ids (all_txs [market_block])).
Proof. rewrite market_sells. apply NoDup_singleton. Qed.

(** The token asset of a concrete transaction. *)
Ltac by_asset :=
  let a := fresh "a" in let Ha := fresh "Ha" in
  intros a Ha; vm_compute in Ha; first [discriminate Ha|injection Ha as <-; vm_compute; repeat split; discriminate].

Lemma market_typed : Forall typed_tx (all_txs [market_block]).
Proof.
  change (all_txs [market_block]) with [market_sell; market_pay; market_buy].
  repeat apply Forall_cons_2; [..|constructor]; split; first [by_asset|vm_compute; split; congruence].
Qed.

Lemma market_covered : Forall (covered_block strict_net) [market_block].
Proof.
  constructor; [|constructor]. split_and!; [split; vm_compute; reflexivity|vm_compute; discriminate|].
  change (b_transactions market_block) with [market_sell; market_pay; market_buy]. pose proof market_typed as Ht.
  change (all_txs [market_block]) with [market_sell; market_pay; market_buy] in Ht. rewrite !Forall_cons in Ht.
  destruct Ht as (T1 & T2 & T3 & _).
  repeat apply Forall_cons_2; [..|constructor]; (split_and!; [done|split|vm_compute; reflexivity]);
    first [by_asset|vm_compute; discriminate|apply Forall_nil_2].
Qed.

Lemma market_balances a : 0 <= stored market_store a.
Proof.
  unfold stored, balance_of, get_wallet, market_store. cbn [on_sobj_owner on_token_owner on_wallets on_last_height st_wallets store_empty].
  destruct (decide (buyer = a)) as [<-|H1]; [by rewrite lookup_insert_eq|]. rewrite lookup_insert_ne by done.
  destruct (decide (demo_sender = a)) as [<-|H2]; [by rewrite lookup_insert_eq|]. by rewrite lookup_insert_ne, lookup_empty.
Qed.

Lemma accepted_batch_conserves_tokens_witness :
  circulating demo_token_id market_deltas = 0 /\ escrow market_store demo_token_id market_deltas = 0.
Proof.
  destruct (accepted_batch_conserves_tokens strict_net market_store demo_token_id [market_block] market_deltas
    market_accepted market_batch market_typed ltac:(rewrite market_orders; apply map_Forall_empty) market_nodup market_fresh) as [H _].
  assert (H1 : circulating demo_token_id market_deltas = 0) by (unfold circulating; rewrite map_sum_entries; vm_compute; reflexivity).
  split; [exact H1|]. rewrite H1 in H. unfold escrow in H |- *. rewrite map_sum_entries. vm_compute. reflexivity.
Defined.

Lemma no_overdraft_witness : lead buyer market_deltas = - 23 /\ 0 <= stored market_store buyer + lead buyer market_deltas.
Proof.
  split; [vm_compute; reflexivity|].
  apply (no_overdraft strict_net market_store [market_block] market_deltas market_accepted market_batch market_covered
    ltac:(rewrite market_orders; apply map_Forall_empty) market_nodup market_fresh market_balances).
Defined.

(** ** A transaction twice, a block of a stranger *)

Definition paid_once : Transaction := with_own_id demo_pay.
Definition rich_store : Store :=
  on_last_height (fun _ => Some 1) (on_wallets (insert demo_sender (ws_set_balance 1000 (wallet_new demo_sender))) store_empty).
Definition replay_2 : Block := sealed 2 24 demo_hash [paid_once].
Definition replay_3 : Block := sealed 3 32 (default EmptyString replay_2.(b_id)) [paid_once].
Definition replay_tip : ChainTip := mkTip 1 (Some demo_hash).
Definition replayed : Store * Exit * option ChainTip :=
  sync_apply_blocks strict_net rich_store true true 1000 1000000000000000 [replay_2; replay_3] replay_tip.

Lemma accepted_blocks_link_witness :
  exists tip, accept strict_net rich_store true 1000 1000000000000000 [replay_2; replay_3] replay_tip = Ok tip /\
    tip.(tip_height) = 3 /\ tip.(tip_id) = replay_3.(b_id).
Proof.
  assert (H : accept strict_net rich_store true 1000 1000000000000000 [replay_2; replay_3] replay_tip
            = Ok (mkTip 3 replay_3.(b_id))) by (vm_compute; reflexivity).
  pose proof (accepted_blocks_link strict_net rich_store true true 1000 1000000000000000 [replay_2; replay_3] replay_tip
    ltac:(cbn; lia) ltac:(vm_compute; discriminate)) as HT. rewrite H in HT. destruct HT as (H1 & H2 & _).
  exists (mkTip 3 replay_3.(b_id)). split; [exact H|]. split; [exact H1|exact H2].
Defined.

(** Nonces, repetitions and the forging order are not part of acceptance.  With every check on,
    two blocks that hold the same signed transfer are accepted and applied and the recipient is paid
    twice; the nonce of the transfer is 3 while its sender has sent nothing; and the generator of the
    blocks has no delegate name and is in no forging order. *)
Theorem acceptance_gaps :
  let s := replayed.1.1 in
  replay_2.(b_transactions) = replay_3.(b_transactions) /\
  (exists tip, replayed.1.2 = Done /\ replayed.2 = Some tip /\ tip.(tip_height) = 3) /\
  (ws_balance <$> get_wallet rich_store demo_address, ws_balance <$> get_wallet s demo_address) = (None, Some (2 * paid_once.(tx_amount))) /\
  (paid_once.(tx_nonce), ws_nonce <$> get_wallet rich_store demo_sender, ws_nonce <$> get_wallet s demo_sender) = (Some 3, Some 0, Some 2) /\
  address_from_public_key replay_2.(b_generator_public_key) 63 = Ok demo_sender /\
  (ws_username <$> get_wallet s demo_sender) = Some None /\
  active_delegates strict_net rich_store 2 = [].
Proof. cbv zeta. split_and!; [|exists (mkTip 3 replay_3.(b_id)); split_and!|..]; vm_compute; reflexivity. Qed.

(** ** Outside the conditions of the theorems *)

(** The same sell order in two blocks: the tokens are taken twice, the order holds them once. *)
Definition same_sell : Transaction := with_own_id market_sell.
Definition sell_2 : Block := sealed 2 24 demo_hash [same_sell].
Definition sell_3 : Block := sealed 3 32 (ostr sell_2.(b_id)) [same_sell].
Definition resold : gmap string WalletDelta := default ∅ (res_ok (batch_deltas strict_net market_store [sell_2; sell_3])).

Example repeated_sell_destroys_tokens :
  is_ok (accept strict_net market_store true 1000 1000000000000000 [sell_2; sell_3] replay_tip) = true /\
  (circulating demo_token_id resold, escrow market_store demo_token_id resold) = (- 60, 30).
Proof. vm_compute. auto. Qed.

(** A refund that also carries a claim: the checks credit its sender with the lock of the claim, the store with that of the
    refund, which is none. *)
Definition locked_tx (type_ nonce amount fee : Z) (a : TransactionAsset) : Transaction :=
  with_own_id (tx_set_recipient_id (Some buyer) (tx_set_expiration (Some 0) (tx_set_amount amount
    (tx_set_asset (Some a) (tx_set_signature (Some demo_signature) (tx_head 2 63 TYPE_GROUP_CORE type_ nonce demo_key fee)))))).
Definition trick_lock : Transaction :=
  locked_tx tx_type.HTLC_LOCK 1 990 5 (mkAsset None None None None None None (Some (mkLockAsset demo_hash (mkExpiration 1 100))) None None ∅).
Definition trick_refund : Transaction :=
  tx_set_recipient_id None (locked_tx tx_type.HTLC_REFUND 2 0 0
    (mkAsset None None None None None None None (Some (mkClaim (ostr trick_lock.(tx_id)) demo_hash)) (Some (mkRefund demo_hash)) ∅)).
Definition trick_pay : Transaction := with_own_id (tx_set_recipient_id (Some buyer) (tx_set_expiration (Some 0) (tx_set_amount 300
    (tx_set_signature (Some demo_signature) (tx_head 2 63 TYPE_GROUP_CORE tx_type.TRANSFER 3 demo_key 0))))).
Definition trick_block : Block := sealed 2 24 demo_hash [trick_lock; trick_refund; trick_pay].
Definition tricked : Store * Exit * option ChainTip := sync_apply_blocks strict_net rich_store true true 1000 1000000000000000 [trick_block] replay_tip.

Example refund_of_two_locks : tricked.1.2 = Done /\ (ws_balance <$> get_wallet tricked.1.1 demo_sender) = Some (- 190).
Proof. vm_compute. auto. Qed.

(** ** Over REST *)

Definition rest_cfg : SyncConfig := mkSyncConfig ["https://a"; "https://b"] 2 8 (from_secs 30) true 3 false false rate_limit_default.
Definition at_a : Lease := mkLease 0 "https://a" "a" 0.
Definition at_b : Lease := mkLease 1 "https://b" "b" 0.
(** Two blocks, the first with a transaction, and a node that has them after one that is down. *)
Definition quiet_4 : Block := sealed 4 40 (ostr replay_3.(b_id)) [].
Definition rest_down : Attempt := mkAttempt at_b (NoResponse (ESync "timeout")) [].
Definition rest_answer : Attempt := mkAttempt at_a (Responded 200 (Ok [header quiet_4; header replay_3])) [(at_b, Responded 200 (Ok [paid_once]))].

Lemma range_fetched_witness : (fetch_range fmt_u rest_cfg 3 4 [rest_down; rest_answer]).2 = Some (Ok [replay_3; quiet_4]).
Proof.
  apply (range_fetched fmt_u rest_cfg 3 4 [replay_3; quiet_4] [rest_down] rest_answer []).
  - constructor; [|constructor; [|constructor]]; (split; [vm_compute; reflexivity|vm_compute; by eexists|repeat constructor|apply NoDup_singleton || constructor]).
  - repeat constructor.
  - constructor; [by eexists|constructor].
  - cbn. lia.
  - split; [exists 200, [header quiet_4; header replay_3]; split_and!; [lia|lia|done|apply perm_swap]|].
    exists [(at_b, Responded 200 (Ok [paid_once]))], []. split; [|done].
    apply (sb_full replay_3 [quiet_4] [(at_b, Responded 200 (Ok [paid_once]))] []); [done| |by repeat constructor].
    constructor; [|constructor]. exists 200. by split; [lia|].
Defined.

(** The node that answered for the blocks is parked for a page another node refused. *)
Example answering_node_parked :
  (fetch_range_go fmt_u rest_cfg 3 3 1 None [mkAttempt at_a (Responded 200 (Ok [header replay_3])) [(at_b, Responded 429 (Err (ESync "")))]]).1 =
  [Status; RateLimited at_b; Status; RateLimited at_a; Status; Status].
Proof. vm_compute. reflexivity. Qed.

(** An answer that lacks the last block of its range is taken for the whole range; the next range no longer fits, and
    to fetch that one again does not help. *)
Definition tip_at_2 : Store := (sync_apply_blocks strict_net rich_store true true 1000 1000000000000000 [replay_2] replay_tip).1.1.
Definition rest_turn (attempts retry : list Attempt) : SyncTurn := mkTurn false attempts retry (fun _ s => s) (fun _ => mkClocks 0 1000 1000000000000000).
Definition quiet_5 : Block := sealed 5 48 (ostr quiet_4.(b_id)) [].
Definition short_3 : Attempt := mkAttempt at_b (Responded 200 (Ok [header replay_3])) [(at_a, Responded 200 (Ok [paid_once]))].
Definition whole_5 : Attempt := mkAttempt at_a (Responded 200 (Ok [quiet_5])) [].

Definition rest_sync (first : Attempt) : Z * option bool :=
  let '(s, out) := sync_until strict_net fmt_u rest_cfg true (mkTip 2 replay_2.(b_id)) 5
                     [rest_turn [first] [rest_answer]; rest_turn [whole_5] [whole_5]] tip_at_2 in
  (get_last_height s, is_ok <$> out).

Example truncated_page_stops_sync : rest_sync rest_answer = (5, Some true) /\ rest_sync short_3 = (3, Some false).
Proof. vm_compute. auto. Qed.
