(* ===== verification/MempoolDemo.v ===== *)
(** * A concrete pool

    Two senders and a handful of transfers in the concrete environment, for the witnesses of
    [MempoolFacts]; a sender under two spellings of its key, and a race of two calls. *)

From S2P Require Import Prelude Floats Models Env Bytes Crypto Config TxCodec TxRoundtrip BlockCodec Wallet Rules RulesFacts Round Tree.
From S2P Require Import Storage StorageFacts Deltas Sync SyncDemo AntiSpam Mempool MempoolFacts ChainDemo.

#[local] Existing Instance TestEnv.env.
#[local] Existing Instance TestEnv.laws.

(** The order a [HashMap] happens to have. *)
#[local] Instance demo_order : HashOrder := { hm_iter := map_to_list; hm_iter_perm := fun m => reflexivity _ }.

Definition pool_cfg : MempoolConfig :=
  mkMempoolConfig 2 1000 (mkDynamicFees true 0 0 ∅) false 100 10 (mkAntiSpamConfig true 2 1000 100 20 10 true [] 500).
Definition no_json (tx : Transaction) : Z := 0.

Lemma no_json_nonneg tx : 0 <= no_json tx.
Proof. done. Qed.

Definition pool_pay (key : string) (nonce amount fee : Z) : Transaction :=
  with_own_id (tx_set_recipient_id (Some buyer) (tx_set_expiration (Some 0) (tx_set_amount amount
    (tx_set_signature (Some demo_signature) (tx_head 2 63 TYPE_GROUP_CORE tx_type.TRANSFER nonce key fee))))).

Definition pay_1 : Transaction := pool_pay demo_key 1 100 300.
Definition pay_2 : Transaction := pool_pay demo_key 2 100 300.
Definition pool_1 : Pool := (add_many pool_cfg strict_net rich_store no_json 5 [pay_1] (pool_new 0)).1.1.

Lemma pool_invariant_witness :
  size pool_1.(pl_txs) = 1%nat /\ pool_1.(pl_bytes) = map_sum (tx_size strict_net no_json) pool_1.(pl_txs) /\ pool_1.(pl_bytes) = 156.
Proof.
  assert (H : pool_ok pool_cfg strict_net no_json pool_1).
  { apply (pool_invariant pool_cfg strict_net no_json no_json_nonneg pool_1); [apply reach_add, reach_new|vm_compute; discriminate..]. }
  split_and!; [vm_compute; reflexivity|apply H|vm_compute; reflexivity].
Defined.

Definition pay_dear : Transaction := pool_pay buyer_key 1 10 900.

Lemma evicted_pay_less_witness :
  eviction_candidates strict_net no_json pool_1.(pl_txs) pay_dear 156 1 0 = Ok [default EmptyString pay_1.(tx_id)] /\
  exists t, victim strict_net no_json pool_1.(pl_txs) pay_dear (rate 900 156) (default EmptyString pay_1.(tx_id)) t.
Proof.
  assert (H : eviction_candidates strict_net no_json pool_1.(pl_txs) pay_dear 156 1 0 = Ok [default EmptyString pay_1.(tx_id)])
    by (vm_compute; reflexivity).
  split; [exact H|]. destruct (evicted_pay_less strict_net no_json _ _ _ _ _ _ H) as (_ & Hv & _). apply Hv. left.
Defined.

Lemma pool_solvent_witness : funded strict_net rich_store (add_many pool_cfg strict_net rich_store no_json 5 [pay_1; pay_2] (pool_new 0)).1.1.
Proof.
  apply (pool_solvent pool_cfg strict_net no_json no_json_nonneg rich_store 5 [pay_1; pay_2] Local (pool_new 0)).
  - apply pool_new_ok; vm_compute; discriminate.
  - split; [apply map_Forall_empty|]. intros pk a _. cbn [pool_new pl_txs]. rewrite map_sum_empty. apply Z.le_max_l.
  - repeat constructor; vm_compute; discriminate.
Defined.

(** The second transfer is pending, the first is not (it expired): its nonce is refused. *)
Definition pool_gap : Pool := mkPool {[ default EmptyString pay_2.(tx_id) := pay_2 ]} ∅ 156 0 0 (antispam_new 0).

Lemma missing_nonce_refused_witness :
  exists code message, (validate pool_cfg strict_net rich_store no_json 5 pay_1 pool_gap).2 = Err (code, message).
Proof.
  assert (Hn : default 0 (ws_nonce <$> get_wallet rich_store demo_sender) = 0) by (vm_compute; reflexivity).
  apply (missing_nonce_refused pool_cfg strict_net no_json rich_store 5 pool_gap pay_1 demo_sender);
    rewrite ?Hn; vm_compute; congruence.
Defined.

(** ** One key, two spellings *)

(** The limits of a sender are counted for the text of its key: spelled in capitals it is another sender with the same
    address, so one nonce is pending twice, and both transactions together exceed the balance. *)
Fixpoint in_capitals (s : string) : string :=
  match s with String c s => String (if Ascii.eqb c "b" then "B"%char else c) (in_capitals s) | EmptyString => EmptyString end.
Definition low_key : string := hex_encode (replicate 33 x0b).
Definition key_address : string := default EmptyString (res_ok (address_from_public_key low_key 63)).
Definition spelled_store : Store := on_wallets (insert key_address (ws_set_balance 1000 (wallet_new key_address))) rich_store.
Definition pay_both (key : string) (nonce fee : Z) : Transaction :=
  with_own_id (tx_set_expiration (Some 0) (tx_set_asset (Some (as_set_payments (Some [mkPayment 300 buyer; mkPayment 301 demo_sender]) asset_default))
    (tx_set_signature (Some demo_signature) (tx_head 2 63 TYPE_GROUP_CORE tx_type.MULTI_PAYMENT nonce key fee)))).
Definition spelled : Pool :=
  (add_many pool_cfg strict_net spelled_store no_json 5 [pool_pay low_key 1 600 300; pay_both (in_capitals low_key) 1 300] (pool_new 0)).1.1.

Example two_spellings_two_senders :
  address_from_public_key (in_capitals low_key) 63 = Ok key_address /\ size spelled.(pl_txs) = 2%nat /\
  zsum ((fun q => pool_spent strict_net spelled_store q.2) <$> map_to_list spelled.(pl_txs)) = 1801.
Proof. vm_compute. split_and!; reflexivity. Qed.

(** ** Two calls at once *)

(** A second call is checked and entered between the check and the entry of the first: one sender has two transactions of
    one nonce. *)
Definition meanwhile (p : Pool) : Pool := (add_many pool_cfg strict_net rich_store no_json 5 [pay_both demo_key 1 300] p).1.1.
Definition raced : Pool := (add_one_at pool_cfg strict_net rich_store no_json meanwhile 5 (pool_new 0, response_default, ∅) pay_1).1.1.

Example two_calls_one_nonce :
  ((fun q => (q.2.(tx_sender_public_key), q.2.(tx_nonce))) <$> map_to_list raced.(pl_txs)) = [(demo_key, Some 1); (demo_key, Some 1)].
Proof. vm_compute. reflexivity. Qed.
