(* ===== verification/DelegateDemo.v ===== *)
(** * What a delegate signs, on concrete inputs

    Votes of two delegates for two blocks of one height, for the witnesses of [FinalityFacts]; a block with pending
    transfers, for those of [BuilderFacts]. *)

From S2P Require Import Prelude Models Env Bytes Crypto Keys Config TxCodec TxRoundtrip BlockCodec Wallet Rules RulesFacts BlockVerify Round Tree.
From S2P Require Import Storage Chain Sync Builder BuilderFacts Finality FinalityFacts ChainDemo SyncDemo.

#[local] Existing Instance TestEnv.env.
#[local] Existing Instance TestEnv.laws.
#[local] Existing Instance TestSigner.signer.
#[local] Existing Instance TestSigner.signer_laws.

(** ** Votes *)

Definition fin_round : list DelegateRank := [mkRank demo_key 10; mkRank buyer_key 5].
Definition fin_store (b : Block) : Store :=
  on_rounds (insert 1 fin_round)
    (sync_apply_blocks strict_net rich_store true true 1000 1000000000000000 [b] replay_tip).1.1.
Definition fin_other : Block := sealed 2 32 demo_hash [].
Definition fin_id_1 : string := default EmptyString replay_2.(b_id).
Definition fin_id_2 : string := default EmptyString fin_other.(b_id).
Definition fin_s1 : Store := fin_store replay_2.
Definition fin_s2 : Store := fin_store fin_other.

Definition fin_vote (key id : string) : FinalityVote := mkVote 2 id key demo_signature.
Definition fin_cert (id : string) : FinalityCert := mkCert 2 id {[ demo_key := demo_signature; buyer_key := demo_signature ]}.
Definition fin_key : KeyPair :=
  let public := default [] (TestEnv.dec demo_key) in mkKeyPair (drop 1 public) public.
Definition fin_signed (id : string) : FinalityVote := default (fin_vote demo_key id) (sign_vote fin_key 2 id).

Lemma certificates_sound_witness :
  let s := (record strict_net [fin_vote demo_key fin_id_1; fin_vote buyer_key fin_id_1] fin_s1 inner_default).1.1.1 in
  s.(st_finality) !! 2 = Some (fin_cert fin_id_1) /\ sound strict_net fin_s1 (fin_cert fin_id_1).
Proof.
  set (votes := [fin_vote demo_key fin_id_1; fin_vote buyer_key fin_id_1]). cbv zeta.
  assert (H : (record strict_net votes fin_s1 inner_default).1.1.1.(st_finality) !! 2 = Some (fin_cert fin_id_1)) by (vm_compute; reflexivity).
  split; [exact H|].
  pose proof (step_record strict_net votes fin_s1 inner_default) as Hstep.
  pose proof (certificates_sound strict_net fin_s1 inner_default _ _ votes_ok_default Hstep) as [_ [_ Hc]].
  destruct (Hc 2 _ H) as [Hold|Hs]; [|exact Hs].
  assert (Hn : fin_s1.(st_finality) !! 2 = None) by (vm_compute; reflexivity). rewrite Hn in Hold. discriminate Hold.
Defined.

Lemma one_vote_per_height_witness :
  let out := (acts strict_net [ActVote 9 [fin_key] 2 fin_id_1 fin_s1; ActRecord [] fin_s1; ActVote 9 [fin_key] 2 fin_id_2 fin_s2] inner_default).2 in
  out = [fin_signed fin_id_1] /\ forall v, v ∈ out -> v.(fv_block_id) = fin_id_1.
Proof.
  cbv zeta. set (l := [ActVote _ _ _ _ _; _; _]).
  assert (Ho : (acts strict_net l inner_default).2 = [fin_signed fin_id_1]) by (vm_compute; reflexivity).
  split; [exact Ho|]. intros v Hv.
  assert (Hh : v.(fv_height) = 2) by (rewrite Ho in Hv; apply list_elem_of_singleton in Hv as ->; reflexivity).
  refine (one_vote_per_height strict_net 2 l inner_default _ _ v (fin_signed fin_id_1) Hv _ Hh eq_refl).
  - discriminate.
  - repeat constructor. vm_compute. discriminate.
  - rewrite Ho. left.
Defined.

Lemma certificates_convict_witness :
  exists pk, verify_proof strict_net fin_s1 (mkEquivocation 2 pk (fin_id_1, fin_id_2) (demo_signature, demo_signature) 0 0) = Ok tt.
Proof.
  assert (H1 : adopt_certificate strict_net (fin_cert fin_id_1) fin_s1 = (put_finality_cert (fin_cert fin_id_1) fin_s1, Ok true)).
  { apply adopted_true. vm_compute. reflexivity. }
  assert (H2 : adopt_certificate strict_net (fin_cert fin_id_2) fin_s2 = (put_finality_cert (fin_cert fin_id_2) fin_s2, Ok true)).
  { apply adopted_true. vm_compute. reflexivity. }
  assert (Hid : fin_id_1 <> fin_id_2) by (vm_compute; discriminate).
  assert (Hr : forall b, get_round (fin_store b) 1 = Some fin_round).
  { intros b. unfold get_round, fin_store. cbn [on_rounds st_rounds]. apply lookup_insert_eq. }
  assert (Ho : round_of strict_net 2 = 1) by (vm_compute; reflexivity).
  destruct (certificates_convict strict_net fin_s1 fin_s2 fin_s1 (fin_cert fin_id_1) (fin_cert fin_id_2) _ _ true true fin_round
    H1 H2 eq_refl Hid) as (pk & x & y & Hx & Hy & Hv); [cbn [fin_cert fc_height]; rewrite Ho; apply Hr..|vm_compute; reflexivity|].
  exists pk.
  assert (Hsig : forall z, (fin_cert fin_id_1).(fc_votes) !! pk = Some z -> z = demo_signature).
  { intros z Hz. cbn [fin_cert fc_votes] in Hz. apply lookup_insert_Some in Hz as [[_ <-]|[_ Hz]]; [reflexivity|].
    apply lookup_singleton_Some in Hz as [_ <-]. reflexivity. }
  rewrite <-(Hsig x Hx) at 1. rewrite <-(Hsig y Hy). apply Hv.
Defined.

Definition fin_proof : EquivocationProof :=
  mkEquivocation 2 demo_key (fin_id_1, fin_id_2) (demo_signature, demo_signature) 2 31.

Lemma ban_evaded_witness :
  exists s, adopt_proof strict_net (with_ban 0 fin_proof) fin_s1 = (s, Ok true) /\ adopt_proof strict_net fin_proof s = (s, Ok false) /\
    demo_key ∉ banned_delegates strict_net s 1 3.
Proof.
  apply (ban_evaded strict_net fin_s1 fin_proof 3 1).
  - vm_compute. reflexivity.
  - vm_compute. discriminate.
  - discriminate.
  - assert (He : fin_s1.(st_equivocations) = ∅) by (vm_compute; reflexivity). intros k q Hq. rewrite He in Hq. discriminate.
Defined.

(** ** A block *)

Definition wait_pay (nonce fee : Z) : Transaction :=
  with_own_id (tx_set_recipient_id (Some buyer) (tx_set_expiration (Some 0) (tx_set_amount 10
    (tx_set_signature (Some demo_signature) (tx_head 2 63 TYPE_GROUP_CORE tx_type.TRANSFER nonce demo_key fee))))).

(** The dearer one has the later nonce, and one has a nonce too far ahead. *)
Definition waiting : list Transaction := [wait_pay 2 400; wait_pay 5 500; wait_pay 1 300].
Definition picked : list Transaction := [wait_pay 1 300; wait_pay 2 400].

Lemma waiting_fit : nonces_fit strict_net rich_store waiting.
Proof. repeat constructor; vm_compute; discriminate. Qed.

Lemma selection_sound_witness :
  select_transactions strict_net rich_store waiting 3 = Ok picked /\
  nonces demo_key picked = seqZ (base strict_net rich_store demo_key + 1) 2.
Proof.
  assert (H : select_transactions strict_net rich_store waiting 3 = Ok picked) by (vm_compute; reflexivity).
  split; [exact H|].
  destruct (selection_sound strict_net rich_store waiting 3 picked waiting_fit ltac:(vm_compute; discriminate) ltac:(vm_compute; discriminate) H) as (_ & _ & _ & Hn).
  exact (Hn demo_key).
Defined.

Lemma selection_complete_witness :
  select_transactions strict_net rich_store waiting 3 = Ok picked /\
  Forall (fun tx => nonce_of tx = next_after strict_net rich_store picked tx.(tx_sender_public_key) ->
    (milestone strict_net 3).(m_block).(bp_max_payload) < zsum (size_of strict_net <$> picked) + size_of strict_net tx) waiting.
Proof.
  assert (H : select_transactions strict_net rich_store waiting 3 = Ok picked) by (vm_compute; reflexivity).
  split; [exact H|].
  exact (selection_complete strict_net rich_store waiting 3 picked waiting_fit ltac:(vm_compute; discriminate) ltac:(vm_compute; discriminate) H ltac:(vm_compute; reflexivity)).
Defined.

Definition forger_sk : list byte := replicate 32 x05.
Definition forger_keys : KeyPair := mkKeyPair forger_sk (x02 :: forger_sk).

Lemma picked_valid : Forall (valid_block_tx (milestone strict_net 3) 3) picked.
Proof.
  assert (H : (verify_block (sealed 3 32 demo_hash picked) strict_net 1000).(bv_verified) = true) by (vm_compute; reflexivity).
  apply verify_block_decides in H. exact (vb_txs _ _ _ H).
Qed.

Lemma picked_nodup : NoDup (tx_id <$> picked).
Proof. eapply bool_decide_unpack. vm_compute. exact I. Qed.

Lemma forged_block_verifies_witness :
  exists block, forge_block_with strict_net forger_keys None replay_2 32 picked = Ok block /\
    (verify_block block strict_net 1000).(bv_verified) = true /\ block.(b_height) = 3.
Proof.
  assert (Hok : is_ok (forge_block_with strict_net forger_keys None replay_2 32 picked) = true) by (vm_compute; reflexivity).
  destruct (forge_block_with strict_net forger_keys None replay_2 32 picked) as [block|] eqn:H; [|discriminate Hok].
  exists block. split; [reflexivity|].
  assert (Hk : from_private_key forger_sk = Ok forger_keys) by (vm_compute; reflexivity).
  destruct (forged_block_verifies strict_net forger_sk forger_keys None replay_2 32 picked 1000 block Hk
    ltac:(vm_compute; discriminate) ltac:(vm_compute; discriminate) ltac:(split; [vm_compute; reflexivity|intros _; vm_compute; reflexivity])
    picked_valid picked_nodup ltac:(vm_compute; discriminate) ltac:(vm_compute; discriminate)
    ltac:(split; vm_compute; discriminate) ltac:(split; vm_compute; discriminate) ltac:(vm_compute; discriminate) H) as (H1 & H2 & _).
  split; [exact H1|exact H2].
Defined.
