(* ===== verification/NetworkDemo.v ===== *)
(** * What the network does to one node, on concrete inputs

    A delegate key that is loaded on two nodes, for the witnesses of [Guard]; an exchange of the tip, for that of
    [Intake]; a catch-up of two blocks and the race that stops it, for those of [CatchUpFacts]; and an address
    book on concrete records, for those of [AddrBookFacts]. *)

From S2P Require Import Prelude Models Env Bytes Crypto Config TxCodec TxRoundtrip BlockCodec Wallet Rules RulesFacts BlockVerify Round Tree Storage Chain.
From S2P Require Import Sync Intake Guard NodePool PeerHealth NetAddr IrohPeers AddrBook AddrBookFacts CatchUp CatchUpFacts ChainDemo SyncDemo.

#[local] Existing Instance TestEnv.env.
#[local] Existing Instance TestEnv.laws.

(** ** A key on two nodes *)

(** The key forges on another node: its block of height 1000 comes back from the network. *)
Definition guarded_keys : gset string := {[ "03aa"%string ]}.
Definition foreign_block : Block := mkBlock (Some "f1"%string) 0 5000 EmptyString 1000 0 0 0 0 0 EmptyString "03aa" None None [].
Definition foreign_arrives : Guard.Event := Accepted 5008 7000 PullLegacy "1.2.3.4" foreign_block.

Lemma slot_yielded_with_cause_witness :
  is_Some (take_slot guard_config_default 7010 "03aa" 1004 2 (hear_all demo_net guard_config_default guarded_keys None [foreign_arrives] state_default)).1 /\
  (take_slot guard_config_default 7010 "03aa" 1005 2 (hear_all demo_net guard_config_default guarded_keys None [foreign_arrives] state_default)).1 = None /\
  ("03aa"%string ∈ guarded_keys).
Proof.
  assert (H : is_Some (take_slot guard_config_default 7010 "03aa" 1004 2
    (hear_all demo_net guard_config_default guarded_keys None [foreign_arrives] state_default)).1) by (vm_compute; eexists; reflexivity).
  split; [exact H|]. split; [vm_compute; reflexivity|].
  destruct (slot_yielded_with_cause demo_net guard_config_default guarded_keys None [foreign_arrives] 7010 "03aa" 1004 2
    ltac:(vm_compute; split; discriminate) ltac:(vm_compute; discriminate)) as [_ Hc].
  exact (proj1 (Hc H)).
Defined.

Lemma foreign_block_protects_witness :
  is_Some (take_slot guard_config_default 7010 "03aa" 1004 2
    (hear demo_net guard_config_default guarded_keys None state_default foreign_arrives)).1.
Proof.
  apply (foreign_block_protects demo_net guard_config_default guarded_keys None 5008 7000 7010 PullLegacy "1.2.3.4" foreign_block state_default 1004 2);
    try reflexivity; try (vm_compute; split; discriminate); try (vm_compute; discriminate); cbn [foreign_block b_id b_generator_public_key ostr].
  - intros H. by apply elem_of_nil in H.
  - intros f H. by apply elem_of_nil in H.
Defined.

(** ** An exchange of the tip *)

(** The tip of the node, and what a peer offers for the slot before it: a block with the key of the peer
    in which somebody else pays the peer, without any signature. *)
Definition swap_ours : Block := sealed 2 24 demo_hash [].
Definition swap_theft : Transaction :=
  tx_set_id (Some demo_order_id) (tx_set_recipient_id (Some buyer) (tx_set_expiration (Some 0) (tx_set_amount 900
    (tx_head 2 63 TYPE_GROUP_CORE tx_type.TRANSFER 1 demo_key 5)))).
Definition swap_theirs : Block :=
  mkBlock (Some demo_hash) 0 16 demo_hash 2 1 900 5 100 0 demo_hash buyer_key (Some sealed_sig) None [swap_theft].
Definition swap_store : Store :=
  (sync_apply_blocks strict_net rich_store true true 1000 1000000000000000 [swap_ours] replay_tip).1.1.
Definition swapped : Store * bool := prefer_earlier_slot strict_net true swap_store swap_ours swap_theirs.

Lemma earlier_slot_wins_witness :
  swapped.2 = true /\ forall u, prefer_earlier_slot strict_net u swapped.1 swap_theirs swap_ours = (swapped.1, false).
Proof.
  assert (H2 : swapped.2 = true) by (vm_compute; reflexivity).
  split; [exact H2|].
  assert (H : prefer_earlier_slot strict_net true swap_store swap_ours swap_theirs = (swapped.1, true)).
  { rewrite <-H2. unfold swapped. destruct (prefer_earlier_slot _ _ _ _ _). reflexivity. }
  destruct (earlier_slot_wins strict_net true swap_store swap_ours swap_theirs swapped.1 H ltac:(vm_compute; split; [discriminate|reflexivity]))
    as (_ & _ & _ & Hb).
  exact Hb.
Defined.

(** The block of the earlier slot is not verified.  Only the signature by the key the block names is
    checked before the tip is exchanged for it: not whether that key is a delegate, nor the transactions,
    their ids or their signatures, nor the balances.  A node gives up its tip for a block in which a
    transfer nobody signed takes the coins of a wallet; [verify_block] and the rules of [sync.rs] would
    both have refused it. *)
Theorem tip_swap_unchecked :
  swapped.2 = true /\
  verify_transaction_signature swap_theft = Ok false /\
  (verify_block swap_theirs strict_net 1000).(bv_verified) = false /\
  (ws_username <$> get_wallet swapped.1 buyer) = Some None /\
  (ws_balance <$> get_wallet swap_store demo_sender, ws_balance <$> get_wallet swap_store buyer) = (Some 1100, None) /\
  (ws_balance <$> get_wallet swapped.1 demo_sender, ws_balance <$> get_wallet swapped.1 buyer) = (Some 95, Some 1005).
Proof. vm_compute. repeat split. Qed.

(** ** A catch-up of two blocks *)

#[local] Instance demo_peer_order : PeerOrder := { ih_values := fun m => (map_to_list m).*2; ih_values_perm := fun m => reflexivity _ }.

Definition far_2 : Block := sealed 2 24 demo_hash [].
Definition far_3 : Block := sealed 3 32 (default EmptyString far_2.(b_id)) [].
Definition one_peer : PeerTable := record_success 5 "10.0.0.1" 1000000 (Some 3) (table_new 4001 ["10.0.0.1"%string]).
Definition behind : CatchUp := start 1 rich_store one_peer None 10 replay_tip.
Definition clocks : Clocks := mkClocks 30 1000 1000000000000000.
Definition run_demo : CatchUp -> list Event -> CatchUp * list Outcome := CatchUp.run strict_net true true 1.

(** The first answer holds one block only, the second is late and empty, the third brings the rest. *)
Definition slow_peer : list Event :=
  [Worker 10; Answer 0 20 5 (Ok [far_2]); Turn clocks []; Worker 2000000000; Answer 0 2000000010 5 (Err true); Turn clocks []].

Lemma needed_range_awaited_witness :
  (run_demo behind slow_peer).1.(cu_tip).(tip_height) = 2 /\
  exists to, (2, to) ∈ awaited (run_demo behind slow_peer).1 \/
    is_Some (next_range (run_demo behind slow_peer).1.(cu_sched)) /\ awaited (run_demo behind slow_peer).1 = [] /\
    (run_demo behind slow_peer).1.(cu_sched).(sc_next_from) = 2.
Proof.
  assert (Ht : (run_demo behind slow_peer).1.(cu_tip).(tip_height) = 2) by (vm_compute; reflexivity).
  split; [exact Ht|]. rewrite <- Ht.
  apply (needed_range_awaited strict_net true true 1 rich_store one_peer None 10 replay_tip slow_peer).
  - vm_compute. discriminate.
  - assert (Hj : forall job, (CatchUp.step strict_net true true 1 behind (Worker 10)).1.(cu_jobs) !! 0%nat = Some job -> job.(jb_range) = (1, 3)).
    { intros job. assert (Hr : fmap jb_range ((CatchUp.step strict_net true true 1 behind (Worker 10)).1.(cu_jobs) !! 0%nat) = Some (1, 3)) by (vm_compute; reflexivity).
      intros H. rewrite H in Hr. by injection Hr. }
    cbn [honest_run slow_peer honest_reply]. split_and!; try exact I.
    intros job H. rewrite (Hj job H). vm_compute. split; [reflexivity|discriminate].
  - assert (Ho : (run_demo behind slow_peer).2 = [Applied]) by (vm_compute; reflexivity). unfold run_demo, behind in Ho. rewrite Ho. by repeat constructor.
  - vm_compute. reflexivity.
Defined.

(** The peer is asked for both blocks; before they come, the first arrives on another path. *)
Definition gossiped : Store := (sync_apply_blocks strict_net rich_store true true 1000 1000000000000000 [far_2] replay_tip).1.1.
Definition race : list Event := [Worker 10; OtherPath gossiped; Answer 0 20 5 (Ok [far_2; far_3]); Turn clocks []].
Definition raced : CatchUp := (run_demo behind race).1.

Lemma raced_lost : lost raced.
Proof. split; [vm_compute; reflexivity..|vm_compute; constructor|vm_compute; reflexivity]. Qed.

(** A block that arrives on another path can stop the catch-up.  The peer delivers the two blocks that
    are missing; the first one was applied by the gossip meanwhile, so the batch is refused as stale and the
    tip is read again, but the rest of the range is not queued: nothing is outstanding, nothing will be taken
    for the block after the tip, and the loop neither finishes nor fails. *)
Theorem race_stops_catch_up :
  (run_demo behind race).2 = [Stale] /\ lost raced /\ awaited raced = [] /\ next_range raced.(cu_sched) = None /\
  finished raced = false /\ (raced.(cu_tip).(tip_height), raced.(cu_sched).(sc_target), raced.(cu_sched).(sc_next_from)) = (2, 3, 3) /\
  (run_demo behind [Worker 10; Answer 0 20 5 (Ok [far_2; far_3]); Turn clocks []]).2 = [Applied].
Proof. split; [vm_compute; reflexivity|]. split; [apply raced_lost|]. vm_compute. repeat split. Qed.

Lemma lost_range_stays_lost_witness :
  finished (run_demo raced [Worker 50; Turn clocks []; OtherPath rich_store; Worker 60]).1 = false.
Proof.
  exact (proj1 (proj2 (proj2 (lost_range_stays_lost strict_net true true 1 raced [Worker 50; Turn clocks []; OtherPath rich_store; Worker 60]
    raced_lost ltac:(vm_compute; constructor) ltac:(repeat constructor))))).
Defined.

(** ** An address book on concrete records

    An instance of [IrohKeys] with its laws, a record that is signed, altered on the way and stored, and the witnesses of
    [AddrBookFacts]. *)

#[local] Existing Instance TestEnv.env.
#[local] Existing Instance TestEnv.laws.

Module TestIroh.
(** A key is its own public half, an id its hex text, and a signature the key with the digest. *)
Definition pad (k : nat) (b : list byte) : list byte := take k (b ++ repeat x00 k).
Lemma pad_length k b : length (pad k b) = k.
Proof. unfold pad. rewrite length_take, length_app, repeat_length. lia. Qed.

#[export] Instance keys : IrohKeys := {|
  endpoint_parse s := match hex_decode s with Some b => if (length b =? 32)%nat then Some (hex_encode b) else None | None => None end;
  relay_parse s := if starts_with "https://" s then Some s else None;
  iroh_public sk := hex_encode (pad 32 sk);
  iroh_sign sk m := pad 32 sk ++ pad 32 m;
  iroh_verify id m sig := match hex_decode id with Some b => bool_decide (sig = pad 32 b ++ pad 32 m) | None => false end
|}.

Lemma pad_same b : length b = 32%nat -> pad 32 b = b.
Proof. intros H. unfold pad. by rewrite <- H, take_app_length. Qed.

#[export] Instance iroh_laws : IrohKeysLaws keys.
Proof.
  split; intros; cbn -[pad hex_encode hex_decode].
  - rewrite hex_decode_encode, pad_length. reflexivity.
  - rewrite length_app, !pad_length. reflexivity.
  - rewrite hex_decode_encode, (pad_same (pad 32 _)) by apply pad_length. by apply bool_decide_true.
Qed.
End TestIroh.
#[local] Existing Instance TestIroh.keys.

Definition book_order : BookOrder := {| bk_items := bt_entries; bk_items_perm := bt_entries_perm |}.
#[local] Existing Instance book_order.
#[local] Instance peer_order : PeerOrder := {| ih_values m := (map_to_list m).*2; ih_values_perm m := reflexivity _ |}.

Definition secret : list byte := repeat x07 32.
Definition address : string := "185.199.110.5:4004".
Definition record : SignedAddr := sign_addr "0.26.0" secret "abcd" [address; address]%string None 1000000.
Definition peer : string := iroh_public secret.
Definition altered : SignedAddr := shifted [] "185.199.110.5:40" "04" record.
Definition cfg : DiscoveryConfig := discovery_default.

Example record_once : record.(sa_addrs) = [address].
Proof. vm_compute. reflexivity. Qed.
Example record_accepted : verify_addr "abcd" 1000000 (expire_secs cfg) record = Ok peer.
Proof. vm_compute. reflexivity. Qed.
Example other_network : is_ok (verify_addr "other" 1000000 (expire_secs cfg) record) = false.
Proof. vm_compute. reflexivity. Qed.
Example private_address : is_ok (verify_addr "abcd" 1000000 (expire_secs cfg) (sign_addr "0.26.0" secret "abcd" ["192.168.1.2:4004"]%string None 1000000)) = false.
Proof. vm_compute. reflexivity. Qed.
(** A private address written as an IPv6 one passes. *)
Example mapped_address : public_text "[::ffff:192.168.1.2]:4004" = true /\ public_text "192.168.1.2:4004" = false /\ public_text "[fe80::1]:4004" = false.
Proof. vm_compute. auto. Qed.

Lemma record_end_unsigned_witness :
  (insert_addr cfg "abcd" "me" 1000000 "gossip" altered (book_new (Some ∅) (Some []))).2 = Ok true /\
  (endpoint_addr peer altered).(ea_ips) = omap parse_socket ["185.199.110.5:40"]%string.
Proof.
  assert (H1 : record.(sa_addrs) = [] ++ ["185.199.110.5:40" +:+ "04"]%string) by (vm_compute; reflexivity).
  assert (H2 : public_text "185.199.110.5:40" = true) by (vm_compute; reflexivity).
  assert (H3 : peer <> "me"%string) by (vm_compute; discriminate).
  destruct (record_end_unsigned cfg "abcd" "me" 1000000 "gossip" "rpc" [] "185.199.110.5:40" "04" record peer (book_new (Some ∅) (Some [])) H1 H2 record_accepted H3 eq_refl eq_refl) as (Ha & _ & _ & Hb).
  exact (conj Ha Hb).
Defined.

(** ** A run *)

Definition fresh_book : AddrBook := (load cfg "abcd" 999999 (book_new (Some ∅) (Some []))).1.
Definition learned : AddrBook := (insert_addr cfg "abcd" "me" 1000000 "gossip" record fresh_book).1.
Definition answered : AddrBook := mark 1000010 peer true learned.
Definition later : Z := 1000010 + 31 * 86400.

Lemma address_book_sound_witness :
  (exists e, answered.(ab_entries) !! peer = Some e /\ genuine "abcd" peer e.(en_record)) /\ Z.of_nat (size answered.(ab_entries)) <= 2000.
Proof.
  assert (Hk : keyed ∅) by (intros k e H; by apply lookup_empty_Some in H).
  assert (Hr : rtc (book_step cfg "abcd" "me") fresh_book answered).
  { eapply rtc_l; [exact (bs_insert cfg "abcd" "me" 1000000 "gossip" record fresh_book)|]. apply rtc_once. exact (bs_mark cfg "abcd" "me" 1000010 peer true learned). }
  destruct (address_book_sound cfg "abcd" "me" 999999 ∅ answered Hk Hr) as (H1 & _ & H2 & _). split.
  - destruct (answered.(ab_entries) !! peer) as [e|] eqn:He; [exists e; split; [reflexivity|exact (proj1 (H1 peer e He))]|].
    exfalso. vm_compute in He. discriminate He.
  - exact H2.
Defined.

Example silent_peer_forgotten : (evict cfg later answered).2 = 1%nat /\ size (evict cfg later answered).1.(ab_entries) = 0%nat.
Proof. vm_compute. auto. Qed.
Example answered_is_fresh : fresh 1000020 10 answered = [record] /\ fresh 1000020 10 learned = [].
Proof. vm_compute. auto. Qed.

(** The node is gone; every request to it fails. *)
Definition gone_peers : IrohPeers := iroh_seen (from_secs 1) peer None ∅.
Definition after_failure : IrohPeers := iroh_record_rpc (from_secs 5000) peer None None gone_peers.
Definition kept : AddrBook := crawl_alive "me" later (from_secs 5300) (iroh_snapshot after_failure) answered.

Example gone_peer_shared : (evict cfg later kept).2 = 0%nat /\ fresh later 10 kept = [record].
Proof. vm_compute. auto. Qed.

Lemma failed_requests_keep_alive_witness : exists e', kept.(ab_entries) !! peer = Some e' /\ is_fresh later e' = true.
Proof.
  assert (He : exists e, answered.(ab_entries) !! peer = Some e) by (eexists; vm_compute; reflexivity). destruct He as [e He].
  assert (Hm : forall k p, gone_peers !! k = Some p -> p.(ip_id) = k).
  { intros k p H. unfold gone_peers, iroh_seen, iroh_entry in H. apply lookup_insert_Some in H as [[<- <-]|[_ H]]; [reflexivity|by apply lookup_empty_Some in H]. }
  assert (Hne : peer <> "me"%string) by (vm_compute; discriminate).
  destruct (failed_requests_keep_alive cfg "me" later (from_secs 5300) (from_secs 5000) peer gone_peers answered e eq_refl Hm Hne eq_refl He) as (e' & H & _ & _ & Hf & _).
  exact (ex_intro _ e' (conj H Hf)).
Defined.

(** A node that spells its id in another way gets another key of the tree: the book holds one entry, the tree both, and a
    restart takes back the older record. *)
Definition caller : list byte := xab :: repeat x07 31.
Definition plain : SignedAddr := sign_addr "0.26.0" caller "abcd" [address]%string None 1000000.
Definition loud : string := "AB07070707070707070707070707070707070707070707070707070707070707".
Definition shouted : SignedAddr :=
  mkSigned 1 loud [address] None 1000500 "0.26.0" (hex_encode (iroh_sign caller (addr_message "abcd" loud 1000500 [address] None))).
Definition both : AddrBook :=
  (insert_addr cfg "abcd" "me" 1000600 "gossip" shouted (insert_addr cfg "abcd" "me" 1000600 "gossip" plain fresh_book).1).1.
Definition restarted : AddrBook := (load cfg "abcd" 1000700 (book_new both.(ab_disk) (Some []))).1.
Definition seqs (b : AddrBook) : list Z := (fun x => x.2.(en_record).(sa_seq)) <$> bt_entries b.(ab_entries).

Example respelled_kept_twice : seqs both = [1000500] /\ option_map size both.(ab_disk) = Some 2%nat /\ seqs restarted = [1000000].
Proof. vm_compute. auto. Qed.
