(* ===== verification/ForgerDemo.v ===== *)
(** * Concrete slots

    A delegate with one key and three peers, in the concrete environment, for the witnesses of [ForgerFacts], and two
    slots that go wrong: a round with too few delegates, and a block pulled across the end of a round. *)

From S2P Require Import Prelude Floats Models Env Bytes Crypto Keys Config TxCodec TxRoundtrip BlockCodec BlockVerify Wallet Rules RulesFacts Round Tree.
From S2P Require Import Storage Chain Sync ChainDemo SyncDemo AntiSpam Mempool MempoolDemo Intake Guard Builder DelegateDemo PushServer NodePool PeerHealth.
From S2P Require Import IrohPeers CatchUp Live Forger ForgerFacts.

#[local] Existing Instance TestEnv.env.
#[local] Existing Instance TestEnv.laws.
#[local] Existing Instance TestSigner.signer.
#[local] Existing Instance TestSigner.signer_laws.
#[local] Instance demo_hash_order : HashOrder := { hm_iter := map_to_list; hm_iter_perm := fun m => reflexivity _ }.
#[local] Instance demo_peer_order : PeerOrder := { ih_values := fun m => (map_to_list m).*2; ih_values_perm := fun m => reflexivity _ }.

(** Three peers that answered before. *)
Definition three_peers : PeerTable :=
  foldl (fun t ip => record_success 5 ip 1000000 (Some 2) t) (table_new 4001 ["10.0.0.1"; "10.0.0.2"; "10.0.0.3"]%string)
    ["10.0.0.1"; "10.0.0.2"; "10.0.0.3"]%string.
Definition forger_key : string := public_key_hex forger_keys.
Definition forge_store (round : Z) (order : list string) : Store :=
  on_rounds (insert round ((fun k => mkRank k 10) <$> order))
    (sync_apply_blocks strict_net rich_store true true 1000 1000000000000000 [replay_2] replay_tip).1.1.
Definition live_of (s : Store) : Live :=
  mkLive s true three_peers ∅ state_default intake_default stall_default (Mempool.pool_new 0) ∅ ∅.
Definition quiet (k : nat) (l : Live) : Live := l.

(** Everybody reports the tip, each of the first answers is enough only with the third. *)
Definition tip_2 : string := default EmptyString replay_2.(b_id).
Definition agree (i : nat) : nat * Reached := (i, Answered 10 None 2 (Some tip_2)).
Definition look_at (arrivals : list (nat * Reached)) (at_ : Z) : Look :=
  mkLook (mkClocks 10 1000 1000000000000000) quiet arrivals at_ at_ at_
    (fun _ => (quiet, fun _ _ => mkReply at_ 0 (Err "gone"%string))) (fun _ => (quiet, None)).

Definition our_live : Live := live_of (forge_store 2 [forger_key; demo_key]).
Definition our_tip : Block := default replay_2 (res_ok (get_last_block strict_net our_live.(lv_store)) ≫= id).
Definition two_looks : list Look := [look_at [agree 0; (1%nat, Refused)] 20; look_at [agree 2; agree 0; agree 1] 30].


Lemma quorum_wait_ends_witness :
  exists l' d, wait_for_quorum strict_net forger_options_default id 100 50 [look_at [] 20; look_at [agree 0] 100] (0, 0) our_live = (l', Some d).
Proof.
  apply (quorum_wait_ends strict_net forger_options_default id 100 50). apply Exists_cons_tl, Exists_cons_hd. split; vm_compute; discriminate.
Defined.

(** ** Three ticks, two of them in one slot *)

Definition forger_at (now : Z) (looks : list Look) : TickInput :=
  mkTick now (now + 1000) now 0 looks (mkClocks 10 1000 1000000000000000) quiet.
Definition demo_run : list ((Live -> Live) * TickInput) -> Forging -> Forging * list Tick :=
  Forger.run strict_net guard_config_default {[ forger_key ]} pool_cfg no_json [forger_keys] [] forger_options_default id 0.
Definition forging (l : Live) : Forging := mkForgingState l forging_default 0 0.
Definition calm (t : TickInput) : (Live -> Live) * TickInput := (fun l => l, t).
Definition all_agree (height : Z) (id : string) : Look :=
  look_at ((fun i => (i, Answered 10 None height (Some id))) <$> [0; 1; 2]%nat) 1.
Definition ticks_1 : list ((Live -> Live) * TickInput) := [calm (forger_at 40 [all_agree 2 tip_2]); calm (forger_at 44 [all_agree 2 tip_2])].
Definition block_3 : string := match (demo_run ticks_1 (forging our_live)).2 with Forges b :: _ => ostr b.(b_id) | _ => EmptyString end.
Definition ticks_2 : list ((Live -> Live) * TickInput) := ticks_1 ++ [calm (forger_at 56 [all_agree 3 block_3])].

Lemma strict_blocktime h : m_blocktime (milestone strict_net h) = 8.
Proof. unfold milestone. cbn [milestones strict_net n_milestones_rest rev app List.find n_milestone0]. by destruct (_ : bool). Qed.

Lemma one_block_per_slot_witness :
  forged_times (demo_run ticks_2 (forging our_live)).2 = [40; 56] /\ StronglySorted Z.lt (forged_times (demo_run ticks_2 (forging our_live)).2).
Proof.
  split; [vm_compute; reflexivity|]. apply (one_block_per_slot _ _ _ _ _ _ _ _ _ 8); [exact strict_blocktime|lia|..].
  - repeat constructor; vm_compute; discriminate.
  - repeat constructor; vm_compute; discriminate.
  - repeat constructor; vm_compute; discriminate.
Defined.

(** ** A round with one delegate where the milestone has two *)

Definition short_live : Live := live_of (forge_store 2 [forger_key]).
Lemma short_round_stops_forger_witness :
  (demo_run [calm (forger_at 32 [all_agree 2 tip_2]); calm (forger_at 40 [all_agree 2 tip_2])] (forging short_live)).2 = [Panics] /\
  exists f', demo_run [calm (forger_at 32 [all_agree 2 tip_2]); calm (forger_at 40 [all_agree 2 tip_2])] (forging short_live) = (f', [Panics]).
Proof.
  split; [vm_compute; reflexivity|].
  apply (short_round_stops_forger _ _ _ _ _ _ _ _ _ 0 (fun l => l) (forger_at 32 [all_agree 2 tip_2]) _ (forging short_live) our_tip [mkRank forger_key 10]).
  - vm_compute. reflexivity.
  - vm_compute. reflexivity.
  - discriminate.
  - vm_compute. discriminate.
Defined.

(** ** Half of the peers is enough *)

Definition fork_a : Block := sealed 2 24 demo_hash [].
Definition fork_b : Block := sealed 2 16 demo_hash [].
Definition halves : list PeerView :=
  (fun i => mkView (fmt_u i) 2 (ostr (if i <? 4 then fork_a else fork_b).(b_id)) None) <$> seqZ 0 8.

(** A majority is not needed: when eight peers answer, four on each of two blocks of the same height, the default share
    of a half lets a delegate forge on the one and another delegate on the other. *)
Theorem both_halves_forge k l :
  fork_a.(b_id) <> fork_b.(b_id) /\
  (settle_views strict_net forger_options_default 100 50 k fork_a halves 0 0 l).2 = Some (Build fork_a) /\
  (settle_views strict_net forger_options_default 100 50 k fork_b halves 0 0 l).2 = Some (Build fork_b).
Proof. split; [vm_compute; discriminate|]. split; vm_compute; reflexivity. Qed.
