(* ===== verification/LegacyServerDemo.v ===== *)
(** * A concrete server of the legacy network

    A codec for the request, and a node whose chain has two empty blocks: for the witness of [LegacyServer]. *)

From S2P Require Import Prelude Floats Models Env Bytes Crypto Config TxCodec TxWire TxRoundtrip BlockCodec BlockVerify Wallet Rules Round Tree Storage Chain.
From S2P Require Import Sync ChainDemo SyncDemo AntiSpam Mempool MempoolDemo Intake Guard PushServer PeerHealth IrohPeers LegacyWire CatchUp Finality.
From S2P Require Import FinalityFacts Ledger Live LegacyServer Forger ForgerDemo.

#[local] Existing Instance TestEnv.env.
#[local] Existing Instance TestEnv.laws.
#[local] Existing Instance TestProto.proto.
#[local] Existing Instance TestProto.proto_laws.
#[local] Existing Instance demo_hash_order.
#[local] Existing Instance demo_peer_order.

(** The four fields one after the other. *)
Definition put_flag (b : bool) : byte := if b then x01 else x00.
Definition put_request (r : GetBlocksRequest) : list byte :=
  TestProto.put_int r.(br_last_block_height) ++ TestProto.put_int r.(br_block_limit) ++ [put_flag r.(br_headers_only); put_flag r.(br_serialized)].
Definition get_flag (b : byte) : bool := match b with x00 => false | _ => true end.
Definition get_request (b : list byte) : result GetBlocksRequest string :=
  match TestProto.get_int b with
  | Some (from, b) =>
      match TestProto.get_int b with
      | Some (limit, [h; s]) => Ok (mkBlocksRequest from limit (get_flag h) (get_flag s))
      | _ => Err "malformed"%string
      end
  | None => Err "malformed"%string
  end.

#[local] Instance demo_messages : Messages := {|
  status_encode _ := []; peers_encode _ := []; common_decode _ := Err "malformed"%string; common_encode _ := [];
  blocks_req_encode := put_request; blocks_req_decode := get_request;
  push_req_encode := id; push_decode := Ok; push_encode _ := []; push_resp_decode _ := None;
  txs_encode _ := []; txs_decode _ := Ok []; ids_encode _ := []; ids_decode _ := None
|}.

#[local] Instance demo_messages_laws : MessagesLaws demo_messages.
Proof.
  split. intros [from limit h s] Hf Hl. cbn [blocks_req_encode blocks_req_decode demo_messages]. unfold get_request, put_request.
  cbn [br_last_block_height br_block_limit br_headers_only br_serialized]. rewrite TestProto.get_put_int by done.
  rewrite TestProto.get_put_int by done. by destruct h, s.
Qed.

Definition chain_id (height timestamp : Z) : string :=
  if height =? 1 then EmptyString (* the id of the genesis block is the network's *)
  else "00000000" +:+ hex_encode (le_bytes 4 timestamp) +:+ hex_encode (le_bytes 4 height) +:+ "1111111111111111111111111111111111111111".
Definition chain_block (height timestamp : Z) : Block :=
  mkBlock (Some (chain_id height timestamp)) 0 timestamp demo_hash height 0 0 0 0 0 demo_hash demo_key None None [].
Definition chain_record (height timestamp : Z) : list byte :=
  match encode_block (chain_block height timestamp) strict_net with Ok b => b | Err _ => [] end.
Definition serving : Store :=
  on_last_height (fun _ => Some 2) (on_blocks (fun _ => <[2 := chain_record 2 16]> {[1 := chain_record 1 8]}) rich_store).

Ltac served :=
  split; [eexists; split; [reflexivity|vm_compute; reflexivity]|repeat constructor; vm_compute; reflexivity|discriminate
    |repeat constructor; vm_compute; discriminate|repeat constructor; vm_compute; discriminate|split; [constructor|vm_compute; discriminate]
    |intros bodies H; apply Ok_inj in H as <-; split; [constructor|vm_compute; discriminate]].
Lemma block_1_served : wire_served strict_net (chain_block 1 8).
Proof. served. Qed.
Lemma block_2_served : wire_served strict_net (chain_block 2 16).
Proof. served. Qed.

Lemma serving_gapless : gapless serving.
Proof.
  split; [vm_compute; split; reflexivity|]. intros k.
  change (is_Some ((<[2 := chain_record 2 16]> {[1 := chain_record 1 8]} : gmap Z (list byte)) !! k) <-> 1 <= k <= 2).
  rewrite lookup_insert_is_Some, lookup_singleton_is_Some. lia.
Qed.

Lemma serving_serves : serves strict_net serving.
Proof.
  intros h v Hv. change ((<[2 := chain_record 2 16]> {[1 := chain_record 1 8]} : gmap Z (list byte)) !! h = Some v) in Hv.
  apply lookup_insert_Some in Hv as [[<- <-]|[_ [<- <-]%lookup_singleton_Some]].
  - exists (chain_block 2 16). split_and!; [vm_compute; reflexivity|done|exact block_2_served].
  - exists (chain_block 1 8). split_and!; [vm_compute; reflexivity|done|exact block_1_served].
Qed.

(** A ping of the socket, one of the other node and a late answer. *)
Definition stray : list WsMessage := [WsPing; WsBinary (encode_frame TYPE_PING 0 EmptyString []); WsText (encode_frame TYPE_REQUEST 6 EmptyString [])].
Lemma stray_passed : Forall (passed_over 7) stray.
Proof. repeat constructor; (eexists; split; [vm_compute; reflexivity|reflexivity]). Qed.

Definition pulled (last_height limit : Z) : Res (list Block) :=
  ask_blocks "10.0.0.1" (over "10.0.0.1" 7 stray (fun data =>
    (handle_frame strict_net (mkTexts "demo" "-" "STH" "STH") guard_config_default ∅ pool_cfg no_json true true 6100 quiet
       (mkClocks 10 1000 1000000000000000) "10.0.0.2" (Ok []) (fun _ _ => mkReply 0 0 (Err "gone"%string)) data (live_of serving)).2)) last_height limit.

(** Both blocks come back, and the request for what is above the tip has an empty answer. *)
Lemma pulled_blocks_in_sequence_witness :
  (exists bs, pulled 0 400 = Ok bs /\ b_height <$> bs = [1; 2]) /\ (exists bs, pulled 2 400 = Ok bs /\ b_height <$> bs = []).
Proof.
  split.
  - destruct (pulled_blocks_in_sequence strict_net (mkTexts "demo" "-" "STH" "STH") guard_config_default ∅ pool_cfg no_json true true 6100 "10.0.0.1" 7 stray quiet
      (mkClocks 10 1000 1000000000000000) "10.0.0.2" (Ok []) (fun _ _ => mkReply 0 0 (Err "gone"%string)) (live_of serving) 0 400
      serving_gapless serving_serves) as (bs & Hb & Hh & _); [bounds; lia|bounds; lia|exact stray_passed|].
    exists bs. split; [exact Hb|]. rewrite Hh. vm_compute. reflexivity.
  - destruct (pulled_blocks_in_sequence strict_net (mkTexts "demo" "-" "STH" "STH") guard_config_default ∅ pool_cfg no_json true true 6100 "10.0.0.1" 7 stray quiet
      (mkClocks 10 1000 1000000000000000) "10.0.0.2" (Ok []) (fun _ _ => mkReply 0 0 (Err "gone"%string)) (live_of serving) 2 400
      serving_gapless serving_serves) as (bs & Hb & Hh & _); [bounds; lia|bounds; lia|exact stray_passed|].
    exists bs. split; [exact Hb|]. rewrite Hh. vm_compute. reflexivity.
Defined.
