(* ===== verification/StoreDemo.v ===== *)
(** * A concrete audit and a concrete search

    A chain of three payments, one of them taken back, for the witness of [AuditFacts]; two stores on which the repair of
    the audit takes coins away; and a search for a time on the chain of [LegacyServerDemo], for the witness of [ReadsFacts]. *)

From S2P Require Import Prelude Floats Models Env Bytes Crypto Config TxCodec TxWire TxRoundtrip BlockCodec Wallet Rules Round Tree Storage.
From S2P Require Import StorageFacts Reads Deltas Chain ChainFacts Sync SyncBalance LegacyWire Ledger ReadsFacts StoreAudit AuditFacts Live.
From S2P Require Import LegacyServer ChainDemo SyncDemo LegacyServerDemo.

#[local] Existing Instance TestEnv.env.
#[local] Existing Instance TestEnv.laws.

(** ** A clean chain *)

Definition paying (nonce : Z) : Transaction :=
  tx_set_signature (Some demo_signature) (tx_set_recipient_id (Some demo_address) (tx_set_expiration (Some 0) (tx_set_amount 40
    (tx_head 2 63 TYPE_GROUP_CORE tx_type.TRANSFER nonce demo_key 5)))).
Definition pay_block (k : Z) : Block := demo_b k (8 * k) 5 100 [paying k].

Definition au_1 : Store := (apply_block demo_net store_empty (pay_block 1) true).1.
Definition au_2 : Store := (apply_block demo_net au_1 (pay_block 2) true).1.
Definition au_3 : Store := (rollback_last_block demo_net au_2).1.

Lemma paying_wire k : in_u64 k -> wire_tx (paying k).
Proof.
  intros Hk. apply (wire_tx_intro (tx_head 2 63 TYPE_GROUP_CORE tx_type.TRANSFER k demo_key 5)
    (tx_set_recipient_id (Some demo_address) (tx_set_expiration (Some 0) (tx_set_amount 40 (tx_head 2 63 TYPE_GROUP_CORE tx_type.TRANSFER k demo_key 5))))).
  - apply (wire_base_intro 2 63 TYPE_GROUP_CORE tx_type.TRANSFER k demo_key 5 None);
      try (unfold TYPE_GROUP_CORE, tx_type.TRANSFER; bounds; lia); try apply demo_key_ok; done.
  - apply wp_core; [done|]. apply wc_transfer; [done|bounds; lia|bounds; lia|apply demo_address_ok].
  - apply (wsig_schnorr _ (Some demo_signature) None []); [done|apply demo_signature_ok|done|done|constructor..|cbn; lia].
Qed.

Lemma pay_header_wire k : 1 <= k <= 2 -> wire_header (pay_block k).
Proof.
  intros Hk. assert (hex_str 32 demo_hash) by (by exists (replicate 32 x11)).
  split; cbn [pay_block demo_b b_version b_timestamp b_height b_previous_block b_number_of_transactions b_total_amount
    b_total_fee b_reward b_payload_length b_payload_hash b_generator_public_key b_block_signature b_pq_signature length];
    try (bounds; lia); try done; try apply demo_key_ok.
  exists demo_der. split; [|done]. by exists x30, x02, [x01; x01].
Qed.

Lemma pay_record_wire k : k = 1 \/ k = 2 -> wire_record demo_net (pay_block k).
Proof.
  assert (H : forall (m : Res (list byte)), (match m with Ok x => (Z.of_nat (length x) <=? u32_max) | Err _ => true end) = true ->
     forall x, m = Ok x -> fits_frame x).
  { intros m Hm x ->. apply Z.leb_le, Hm. }
  intros Hk. split.
  - apply pay_header_wire. lia.
  - apply H. destruct Hk as [-> | ->]; vm_compute; reflexivity.
  - constructor; [|constructor]. split; [apply paying_wire; destruct Hk as [-> | ->]; bounds; lia|].
    apply H. destruct Hk as [-> | ->]; vm_compute; reflexivity.
  - cbn. bounds. lia.
Qed.

Lemma turn_one `{E : Env} n s tx a : address_from_public_key tx.(tx_sender_public_key) n.(n_pubkey_hash) = Ok a ->
  tx.(tx_nonce) = Some (stored_nonce s a + 1) -> in_turn n s [tx].
Proof.
  intros Ha Hn c. cbn [List.filter]. unfold sent_by. rewrite Ha. destruct (bool_decide_reflect (a = c)) as [->|]; [|done].
  cbn [length Z.of_nat]. rewrite seqZ_cons, seqZ_nil by lia. cbn. by rewrite Hn.
Qed.

Lemma pay_clean s k : k = 1 \/ k = 2 -> get_last_height s = k - 1 -> stored_nonce s demo_sender = k - 1 -> clean demo_net s (pay_block k).
Proof.
  intros Hk Hl Hn. split; [by apply pay_record_wire|change (k = get_last_height s + 1); lia|change (k < u64_max); bounds; lia| |].
  - by repeat constructor.
  - apply (turn_one _ _ _ demo_sender); [vm_compute; reflexivity|]. rewrite Hn. change (Some k = Some (k - 1 + 1)). f_equal. lia.
Qed.

Lemma done_of (r : Store * Exit) : r.2 = Done -> r = (r.1, Done).
Proof. destruct r as [s x]. cbn. by intros ->. Qed.
Lemma ok_of (r : Store * Res Z) h : r.2 = Ok h -> r = (r.1, Ok h).
Proof. destruct r as [s x]. cbn. by intros ->. Qed.

Lemma au_1_grown : grown demo_net au_1.
Proof.
  apply (gw_block demo_net store_empty (pay_block 1) true); [apply gw_empty|apply pay_clean; [by left|done|done]|].
  apply done_of. vm_compute. reflexivity.
Qed.

(** Two payments, the second one taken back: the sender has paid once. *)
Lemma audit_finds_no_drift_witness :
  audit_all demo_net au_3 = Ok (mkChainAudit 1 2 2 0 []) /\ stored_balance au_3 demo_address = 40.
Proof.
  assert (H2 : apply_block demo_net au_1 (pay_block 2) true = (au_2, Done)) by (apply done_of; vm_compute; reflexivity).
  assert (H3 : rollback_last_block demo_net au_2 = (au_3, Ok 1)) by (apply ok_of; vm_compute; reflexivity).
  assert (Hg : grown demo_net au_3).
  { apply (gw_undo demo_net au_1 (pay_block 2) true au_2 au_3 1 au_1_grown); [|exact H2|exact H3].
    apply pay_clean; [by right|vm_compute; reflexivity|vm_compute; reflexivity]. }
  destruct (audit_finds_no_drift demo_net au_3 Hg) as [H _]. split; [rewrite H; vm_compute; reflexivity|vm_compute; reflexivity].
Defined.

(** ** The repair takes coins *)

Definition trade_tx (key : string) (type_ nonce : Z) (a : TokenAsset) : Transaction :=
  with_own_id (tx_set_signature (Some demo_signature) (tx_set_asset (Some (as_set_extra {[ "token"%string := token_to_value a ]} asset_default))
    (tx_head 2 63 TYPE_GROUP_TOKEN type_ nonce key 0))).
Definition trade_init : Transaction := trade_tx demo_key token.INIT 1 (mkToken demo_hash (Some 0) (Some 0) (Some 100) (Some 100) None None None None None None None).
Definition trade_sell : Transaction := trade_tx demo_key token.SELL 2 (mkToken demo_hash None None None None None None (Some 30) None None (Some 2) None).
Definition trade_id : string := default EmptyString trade_sell.(tx_id).
Definition trade_buy : Transaction := trade_tx buyer_key token.BUY 1 (mkToken demo_hash None None None None None None (Some 30) None None None (Some trade_id)).
(** The buyer forges both blocks, so that its coins come from the rewards. *)
Definition buyer_block (height : Z) (txs : list Transaction) : Block :=
  mkBlock None 0 (8 * height) demo_hash height (Z.of_nat (length txs)) 0 0 100 0 demo_hash buyer_key (Some (hex_encode demo_der)) None txs.
Definition trade_1 : Store := (apply_block demo_net store_empty (buyer_block 1 [trade_init; trade_sell]) true).1.
Definition trade_2 : Store := (apply_block demo_net trade_1 (buyer_block 2 [trade_buy]) true).1.

Definition fixed_by (r : Res (ChainAudit * Store)) : list string * Store :=
  match r with Ok (report, s) => (wa_address <$> report.(ca_drifted), s) | Err _ => ([], store_empty) end.

(** The forger whose transaction was paid twice. *)
Definition twice_1 : Store := (apply_block demo_net store_empty (demo_b 1 8 0 1000 []) true).1.
Definition twice_2 : Store := (apply_block demo_net twice_1 (demo_b 2 16 5 100 [paying 1]) true).1.
Definition twice_3 : Store := (apply_block demo_net twice_2 (demo_b 3 24 5 100 [paying 1]) true).1.
Definition fixed_wallet (r : Res (WalletAudit * Store)) : Store := match r with Ok (_, s) => s | Err _ => store_empty end.

Lemma fixed_report (r : Res (ChainAudit * Store)) (P : list string * Store -> Prop) : is_ok r = true -> P (fixed_by r) ->
  exists report s, r = Ok (report, s) /\ P (wa_address <$> report.(ca_drifted), s).
Proof. destruct r as [[report s]|]; [|done]. intros _ HP. by exists report, s. Qed.

(** The repair of the audit takes coins from honest wallets.  A wallet whose sell order was filled is reported as
    drifted, since the audit passes over the buyer but books nothing for the seller, and the repair removes what it
    earned; and the repair of a single forger whose nonce is found wrong overwrites the balance too, although the audit
    of one wallet cannot know the forged coins and says that the balance is in order. *)
Theorem repair_takes_coins :
  ((apply_block demo_net store_empty (buyer_block 1 [trade_init; trade_sell]) true).2 = Done /\
   (apply_block demo_net trade_1 (buyer_block 2 [trade_buy]) true).2 = Done /\
   stored_balance trade_2 demo_sender = 60 /\
   exists report s, audit_fix demo_net trade_2 = Ok (report, s) /\ wa_address <$> report.(ca_drifted) = [demo_sender] /\
     stored_balance s demo_sender = 0 /\ supply_of s = supply_of trade_2 - 60) /\
  (stored_balance twice_3 demo_sender = 1120 /\
   exists a s, audit_wallet_fix demo_net twice_3 demo_sender = Ok (a, s) /\ a.(wa_balance_ok) = true /\ stored_balance s demo_sender = -90).
Proof.
  split.
  - split_and!; [vm_compute; reflexivity..|].
    apply (fixed_report _ (fun r => r.1 = [demo_sender] /\ stored_balance r.2 demo_sender = 0 /\ supply_of r.2 = supply_of trade_2 - 60)).
    + vm_compute. reflexivity.
    + split_and!; vm_compute; reflexivity.
  - split; [vm_compute; reflexivity|].
    assert (H : match audit_wallet_fix demo_net twice_3 demo_sender with
                | Ok (a, s) => a.(wa_balance_ok) && (stored_balance s demo_sender =? -90) | Err _ => false end = true) by (vm_compute; reflexivity).
    destruct (audit_wallet_fix demo_net twice_3 demo_sender) as [[a s]|]; [|done]. exists a, s. apply andb_true_iff in H as [H1 H2].
    apply Z.eqb_eq in H2. done.
Qed.

(** ** A search for a time *)

Lemma two_blocks `{E : Env} n s r1 r2 b1 b2 h b : s.(st_blocks) = <[2 := r2]> {[1 := r1]} -> decode_block r1 n = Ok b1 -> decode_block r2 n = Ok b2 ->
  get_block_by_height n s h = Ok (Some b) -> h = 1 /\ b = b1 \/ h = 2 /\ b = b2.
Proof.
  intros Hs H1 H2. unfold get_block_by_height. rewrite Hs.
  destruct (decide (h = 2)) as [->|Hn2]; [rewrite lookup_insert_eq, H2; intros [= <-]; by right|]. rewrite lookup_insert_ne by done.
  destruct (decide (h = 1)) as [->|Hn1]; [rewrite lookup_singleton_eq, H1; intros [= <-]; by left|]. by rewrite lookup_singleton_ne.
Qed.

Lemma serving_blocks h b : get_block_by_height strict_net serving h = Ok (Some b) -> h = 1 /\ b = chain_block 1 8 \/ h = 2 /\ b = chain_block 2 16.
Proof. apply (two_blocks strict_net serving (chain_record 1 8) (chain_record 2 16)); [reflexivity|vm_compute; reflexivity|vm_compute; reflexivity]. Qed.

Lemma serving_timeline : timeline strict_net serving.
Proof.
  split; [exact serving_gapless| |].
  - intros h v Hv. destruct (serving_serves h v Hv) as (b & Hb & _). by exists b.
  - intros h h' b b' Hh H H'. apply serving_blocks in H as [[-> ->]|[-> ->]], H' as [[-> ->]|[-> ->]]; cbn; lia.
Qed.

(** From 9 on there is the second block; between 9 and 15 there is none. *)
Lemma heights_for_timestamps_exact_witness :
  (exists r, heights_for_timestamps strict_net serving (Some 9) None = Ok (Some r) /\ in_heights r 2) /\
  (exists r, heights_for_timestamps strict_net serving (Some 9) (Some 15) = Ok (Some r) /\ forall h b, get_block_by_height strict_net serving h = Ok (Some b) -> ~ in_heights r h).
Proof.
  split.
  - destruct (heights_for_timestamps_exact strict_net serving serving_timeline (Some 9) None) as (r & Hr & H & _); [done|]. exists r. split; [exact Hr|].
    apply (H 2 (chain_block 2 16)); [vm_compute; reflexivity|]. split; [intros f [= <-]; cbn; lia|done].
  - destruct (heights_for_timestamps_exact strict_net serving serving_timeline (Some 9) (Some 15)) as (r & Hr & H & _); [intros t [= <-]; bounds; lia|].
    exists r. split; [exact Hr|]. intros h b Hb Hin. apply (H h b Hb) in Hin as [H1 H2]. specialize (H1 9 eq_refl). specialize (H2 15 eq_refl).
    apply serving_blocks in Hb as [[_ ->]|[_ ->]]; cbn in H1, H2; lia.
Defined.
