(* ===== verification/ProcessDemo.v ===== *)
(** * A concrete process

    A node hears a block over gossip, then the votes that certify it; then its peers name another block and it tries to
    roll back: for the witnesses of [Process]. *)

From S2P Require Import Prelude Floats Models Env Bytes Crypto Keys Config TxCodec TxRoundtrip BlockCodec Wallet Rules BlockVerify Round Tree Storage.
From S2P Require Import Chain ChainRounds Sync AntiSpam Mempool Intake Guard Builder PushServer NodePool PeerHealth NetAddr IrohPeers AddrBook.
From S2P Require Import LegacyWire CatchUp Finality FinalityFacts Ledger Live Gossip FollowLive Watchdog Forger Node Process GossipFacts ChainDemo.
From S2P Require Import SyncDemo MempoolDemo DelegateDemo ForgerDemo NetworkDemo.

#[local] Existing Instance TestEnv.env.
#[local] Existing Instance TestEnv.laws.
#[local] Existing Instance TestSigner.signer.
#[local] Existing Instance TestSigner.signer_laws.
#[local] Existing Instance demo_hash_order.
#[local] Existing Instance demo_peer_order.
#[local] Existing Instance TestIroh.keys.
#[local] Existing Instance book_order.

(** The chain of one block. *)
Definition proc_net : Network := mkNetwork 63 "" demo_hash 0 "" 0 strict_milestone [].
Definition block_1 : list byte := default [] (demo_s1.(st_blocks) !! 1).
Definition first_store : Store := on_rounds (insert 1 fin_round) (Tree.on_blocks (insert 1 block_1) rich_store).
Definition no_iroh : Z -> Z -> IrohReply := fun _ _ => mkIrohReply 0 0 (Err (ESync "gone")).
Definition proc_clock : Clocks := mkClocks 10 1000 1000000000000000.
Definition proc (l : Live) : Process := mkProcess l inner_default (CatchUp.start 4 first_store three_peers None 10 (mkTip 1 None)).
Definition proc_step : Process -> Process -> Prop :=
  node_step proc_net guard_config_default {[ forger_key ]} pool_cfg no_json true [forger_keys] [] forger_options_default id 4.

Definition p_start : Process := proc (live_of first_store).
Definition p_gossip : Process :=
  with_live (on_block proc_net guard_config_default {[ forger_key ]} true quiet proc_clock "peer" "peer" replay_2 no_iroh (live_of first_store)).1 p_start.
Definition proc_votes : list FinalityVote := [fin_vote demo_key fin_id_1; fin_vote buyer_key fin_id_1].
Definition p_voted : Process :=
  let r := Finality.record proc_net proc_votes (store_of p_gossip) inner_default in
  mkProcess (on_store (fun _ => r.1.1.1) p_gossip.(pr_live)) r.1.1.2 p_gossip.(pr_catch_up).
(** Every peer names another block. *)
Definition orphaned (p : Process) : Process :=
  with_live (orphan_check proc_net 10 2 fin_id_1 (fun _ => Some fin_id_2) quiet p.(pr_live)) p.

Lemma quiet_calm : Node.calm proc_net quiet.
Proof. intros k l. apply rtc_refl. Qed.

Lemma gossip_step : proc_step p_start p_gossip.
Proof. apply ns_gossip; [exact quiet_calm|intros a b; exact I]. Qed.
Lemma voted_step : proc_step p_gossip p_voted.
Proof. apply ns_tracker. apply step_record. Qed.
Lemma orphan_step p : proc_step p (orphaned p).
Proof. apply ns_orphan. exact quiet_calm. Qed.

Lemma proc_well l : well (proc l).
Proof. split; [apply votes_ok_default|split; [apply map_Forall_empty|constructor]]. Qed.


Lemma first_gapless : gapless first_store.
Proof.
  split; [vm_compute; split; reflexivity|]. intros k. change (is_Some ((<[1 := block_1]> ∅ : gmap Z (list byte)) !! k) <-> 1 <= k <= 1).
  rewrite lookup_insert_is_Some. destruct (decide (1 = k)); split; [lia|by left|intros [|[_ [x H]]]; [lia|by rewrite lookup_empty in H]|lia].
Qed.

Lemma chain_gapless_witness : gapless (store_of (orphaned p_gossip)).
Proof.
  refine (chain_gapless proc_net guard_config_default {[ forger_key ]} pool_cfg no_json true [forger_keys] [] forger_options_default id 4
            p_start (orphaned p_gossip) (proc_well _) _ first_gapless).
  eapply rtc_l; [exact gossip_step|]. apply rtc_once, orphan_step.
Defined.

Lemma voted_certs : certs_ok (store_of p_voted).
Proof.
  assert (H : (store_of p_voted).(st_finality) = {[ 2 := fin_cert fin_id_1 ]}) by (vm_compute; reflexivity). unfold certs_ok. rewrite H.
  apply map_Forall_singleton. reflexivity.
Qed.

Lemma strict_hard k : (milestone proc_net k).(m_finality).(fp_active) = true.
Proof. unfold milestone. cbn [milestones proc_net n_milestones_rest rev app List.find n_milestone0]. by destruct (_ <=? _). Qed.

Lemma certified_history_kept_witness : 2 <= get_last_height (store_of (orphaned p_voted)) /\
  (store_of (orphaned p_voted)).(st_blocks) !! 2 = (store_of p_voted).(st_blocks) !! 2.
Proof.
  assert (H2 : 2 <= get_last_height (store_of p_voted) < u64_max) by (vm_compute; split; [discriminate|reflexivity]).
  assert (Hc : is_Some ((store_of p_voted).(st_finality) !! 2)) by (exists (fin_cert fin_id_1); vm_compute; reflexivity).
  destruct (run_refines proc_net guard_config_default {[ forger_key ]} pool_cfg no_json true [forger_keys] [] forger_options_default id 4
    p_start p_voted (rtc_l _ _ _ _ gossip_step (rtc_once _ _ voted_step)) (proc_well _)) as [W _].
  destruct (certified_history_kept proc_net guard_config_default {[ forger_key ]} pool_cfg no_json true [forger_keys] [] forger_options_default id 4
    p_voted (orphaned p_voted) 2 W (rtc_once _ _ (orphan_step p_voted)) ltac:(lia) H2 (fun k _ => strict_hard k) voted_certs Hc) as (T & _ & B).
  split; [exact T|apply B; lia].
Defined.


(** ** Gossip *)

Definition swarm (s : Store) : Swarm := mkSwarm (live_of s) inner_default ∅ (Some (book_new (Some ∅) (Some []))).

(** ** A proof from two peers *)

Definition w_proof : Swarm := swarm fin_s1.
Definition once : Swarm * list GossipMessage := on_finality_msg strict_net proc_clock "a" (MEquivocation fin_proof) w_proof.
Definition twice : Swarm * list GossipMessage := on_finality_msg strict_net proc_clock "b" (MEquivocation fin_proof) once.1.

Example sent_once : once.2 = [MEquivocation fin_proof] /\ twice.2 = [].
Proof. vm_compute. auto. Qed.

Lemma proofs_relayed_once_witness :
  let out := once.2 ++ twice.2 ++ [] in proofs_of out = [fin_proof] /\ StronglySorted Z.lt (against demo_key (proofs_of out)).
Proof.
  cbv zeta. split; [vm_compute; reflexivity|]. unfold twice, once.
  exact (proj1 (proofs_relayed_once strict_net w_proof _ _ demo_key
    (pa_msg strict_net proc_clock "a" (MEquivocation fin_proof) w_proof _ _ (pa_msg strict_net proc_clock "b" (MEquivocation fin_proof) _ _ _ (pa_done strict_net _))))).
Defined.

(** ** A transaction without its signature *)

Definition stripped : Transaction := tx_set_signature None pay_1.
Definition w_tx : Swarm := swarm rich_store.
Definition w_heard : Swarm := on_tx_msg strict_net MempoolDemo.pool_cfg no_json true proc_clock "peer" (MTransactions [stripped]) w_tx.
(** The pool refused it, and takes the true one. *)
Definition pool_after : Pool * PoolResponse * Errors :=
  Mempool.add_many MempoolDemo.pool_cfg strict_net rich_store no_json 5 [pay_1] w_heard.(sw_live).(lv_pool).
Definition l_after : Live := on_pool (fun _ => pool_after.1.1) w_heard.(sw_live).

Lemma claimed_id_silences_witness :
  size w_heard.(sw_live).(lv_pool).(pl_txs) = 0%nat /\ pool_after.1.2.(pr_accept) = [default EmptyString pay_1.(tx_id)] /\
  publish_transactions true [pay_1] w_tx.(sw_live) = [MTransactions [pay_1]] /\ publish_transactions true [pay_1] l_after = [].
Proof.
  split; [vm_compute; reflexivity|]. split; [vm_compute; reflexivity|]. split; [vm_compute; reflexivity|].
  assert (Hid : pay_1.(tx_id) = Some (default EmptyString pay_1.(tx_id))) by (vm_compute; reflexivity).
  assert (Hin : default EmptyString pay_1.(tx_id) ∈ omap tx_id [stripped]) by (apply list_elem_of_omap; exists stripped; split; [left|vm_compute; reflexivity]).
  refine (claimed_id_silences strict_net MempoolDemo.pool_cfg no_json true proc_clock "peer" [stripped] w_tx pay_1 _ Hid Hin _ l_after _).
  - vm_compute. discriminate.
  - intros x Hx. exact Hx.
Defined.

(** ** A block and its votes *)

Definition w_start : Swarm := swarm first_store.
Definition w_block : Swarm := on_blocks proc_net guard_config_default {[ forger_key ]} true true id quiet proc_clock no_iroh (Received "peer" (Some (MBlock replay_2))) w_start.
Definition w_certified : Swarm := (on_finality proc_net proc_clock (Received "peer" (Some (MFinality proc_votes))) (w_block, [])).1.

Definition step : Swarm -> Swarm -> Prop :=
  GossipFacts.gossip_step proc_net guard_config_default {[ forger_key ]} MempoolDemo.pool_cfg no_json true true discovery_default "0" "me" id.

Lemma block_heard : step w_start w_block.
Proof. apply gs_blocks; [exact quiet_calm|intros a b; exact I]. Qed.
Lemma votes_heard : step w_block w_certified.
Proof. apply gs_finality. Qed.

Lemma gossip_refines_witness :
  get_last_height (store w_certified) = 2 /\ finalized (store w_certified) = Some (2, fin_id_1) /\ rtc (ledger_step proc_net) first_store (store w_certified).
Proof.
  split; [vm_compute; reflexivity|]. split; [vm_compute; reflexivity|].
  exact (proj2 (gossip_refines proc_net guard_config_default {[ forger_key ]} MempoolDemo.pool_cfg no_json true true discovery_default "0" "me" id [forger_keys] [] forger_options_default 4
    w_start w_certified votes_ok_default (rtc_l _ _ _ _ block_heard (rtc_once _ _ votes_heard)))).
Defined.
