(* ===== verification/SnapshotDemo.v ===== *)
(** * A concrete snapshot

    An instance of [Archive] with its laws, and a chain of two blocks that is dumped and imported again: for the witnesses
    of [SnapshotFacts]. *)

From S2P Require Import Prelude Floats Models Env Bytes Crypto Config TxCodec TxWire TxRoundtrip BlockCodec BlockVerify Wallet Rules Round Tree Storage Deltas.
From S2P Require Import Chain Sync Ledger Node Snapshot SnapshotFacts ChainDemo SyncDemo.

#[local] Existing Instance TestEnv.env.
#[local] Existing Instance TestEnv.laws.

Module TestArchive.
(** A number as bytes, a bit each. *)
Fixpoint pos_bytes (p : positive) : list byte :=
  match p with xH => [] | xO p => x00 :: pos_bytes p | xI p => x01 :: pos_bytes p end.
Fixpoint bytes_pos (b : list byte) : positive :=
  match b with [] => xH | x00 :: b => xO (bytes_pos b) | _ :: b => xI (bytes_pos b) end.
Lemma bytes_pos_bytes p : bytes_pos (pos_bytes p) = p.
Proof. induction p as [p IH|p IH|]; cbn; by rewrite ?IH. Qed.

(** Trees with texts, numbers and bytes at their leaves. *)
#[global] Instance byte_countable : Countable byte := inj_countable' Z_of_byte byte_of_Z byte_of_Z_of_byte.
Definition Tree : Type := gen_tree (string + Z + list byte).
#[global] Instance tree_dec : EqDecision Tree := ltac:(unfold Tree; apply _).
#[global] Instance tree_countable : Countable Tree := ltac:(unfold Tree; apply _).
Definition leaf_str (v : Tree) : option string := match v with GenLeaf (inl (inl s)) => Some s | _ => None end.
Definition leaf_z (v : Tree) : option Z := match v with GenLeaf (inl (inr z)) => Some z | _ => None end.
Definition leaf_bytes (v : Tree) : option (list byte) := match v with GenLeaf (inr b) => Some b | _ => None end.
Definition node_list (v : Tree) : option (list Tree) := match v with GenNode _ l => Some l | _ => None end.

Definition range_fields (r : MetaRange) : Z * Z * Z := (r.(mr_count), r.(mr_start), r.(mr_end)).
Definition fields_range (f : Z * Z * Z) : MetaRange := let '(c, s, e) := f in mkRange c s e.
Definition meta_fields (m : SnapshotMeta) :=
  (range_fields m.(sm_blocks), range_fields m.(sm_transactions), range_fields m.(sm_rounds), m.(sm_folder), m.(sm_skip_compression),
   m.(sm_network), m.(sm_package_version), m.(sm_codec)).
Definition fields_meta (f : (Z * Z * Z) * (Z * Z * Z) * (Z * Z * Z) * string * bool * string * string * string) : SnapshotMeta :=
  let '(b, t, r, folder, skip, net, version, codec) := f in mkMeta (fields_range b) (fields_range t) (fields_range r) folder skip net version codec.

#[global] Instance archive : Archive := {|
  gzip := id; gunzip b := mkStream b None; Value := Tree; v_array := GenNode 0; v_str s := GenLeaf (inl (inl s)); v_u64 z := GenLeaf (inl (inr z));
  v_binary b := GenLeaf (inr b); value_array := node_list; value_str := leaf_str; value_u64 := leaf_z; value_binary := leaf_bytes;
  is_string v := bool_decide (is_Some (leaf_str v)); value_text _ := "value"%string; write_value v := Ok (pos_bytes (encode v));
  read_value b := ok_or (decode (bytes_pos b)) "malformed"%string; meta_to_json m := pos_bytes (encode (meta_fields m));
  meta_from_json b := rmap fields_meta (ok_or (decode (bytes_pos b)) (EJson "malformed"))
|}.

#[global] Instance archive_laws : ArchiveLaws archive.
Proof.
  split; try done.
  - intros v. exists (pos_bytes (encode v)). split; [done|]. cbn [read_value archive]. by rewrite bytes_pos_bytes, decode_encode.
  - intros [[] [] [] ? ? ? ? ?]. cbn [meta_from_json meta_to_json archive]. by rewrite bytes_pos_bytes, decode_encode.
Qed.
End TestArchive.

#[local] Existing Instance TestArchive.archive.
#[local] Existing Instance TestArchive.archive_laws.

(** ** A chain of two blocks *)

Definition dump_net : Network := mkNetwork 63 "" demo_hash 0 "" 0 demo_milestone [].
Definition dump_source : Store := (apply_blocks dump_net store_empty [demo_b1; sealed 2 24 demo_hash [demo_pay]] true).1.
Definition read_at (h : Z) : Block := match get_block_by_height dump_net dump_source h with Ok (Some b) => b | _ => demo_b1 end.
(** The two blocks as they are read from it, worked out. *)
Definition dump_b1 : Block := Eval vm_compute in read_at 1.
Definition dump_b2 : Block := Eval vm_compute in read_at 2.
Definition dump_chain : list Block := [dump_b1; dump_b2].
Definition dump_v1 : list byte := Eval vm_compute in default [] (dump_source.(st_blocks) !! 1).
Definition dump_v2 : list byte := Eval vm_compute in default [] (dump_source.(st_blocks) !! 2).
Definition quick : ImportOptions := mkImportOptions true false.
Definition dump_dir : Dir :=
  match dump dump_net "demo" dump_source "1" "snapshots" "no such file" None with Ok d => d | Err _ => mkDir EmptyString ∅ EmptyString end.
Definition any_time : Z -> Z := fun _ => 100.

Ltac carried_block := split; [vm_compute; reflexivity|vm_compute; reflexivity|vm_compute; discriminate|eexists; reflexivity|vm_compute; split; discriminate|
  |vm_compute; discriminate|vm_compute; reflexivity].
Ltac carried_tx := split; [vm_compute; reflexivity|eexists; split; [vm_compute; reflexivity|split; [eexists; reflexivity|reflexivity]]].

Lemma carried_1 : carried dump_net dump_v1 dump_b1.
Proof. carried_block. intros [|[|seq]] tx Hx; [injection Hx as <-; carried_tx..|discriminate Hx]. Qed.
Lemma carried_2 : carried dump_net dump_v2 dump_b2.
Proof. carried_block. intros [|seq] tx Hx; [injection Hx as <-; carried_tx|discriminate Hx]. Qed.

Lemma chain_stored : Forall (stored dump_net dump_source) dump_chain.
Proof.
  constructor; [|constructor; [|constructor]]; (split; [vm_compute; reflexivity|]).
  - exists dump_v1. split; [vm_compute; reflexivity|exact carried_1].
  - exists dump_v2. split; [vm_compute; reflexivity|exact carried_2].
Qed.

Lemma chain_exportable : exportable dump_net quick dump_source dump_chain.
Proof.
  split.
  - exact chain_stored.
  - vm_compute. reflexivity.
  - intros [|[|j]] b b' Hb Hb'; try discriminate Hb'. injection Hb as <-. injection Hb' as <-. vm_compute. reflexivity.
  - repeat constructor; vm_compute; reflexivity.
  - repeat constructor; intros now; vm_compute; reflexivity.
  - repeat constructor; vm_compute; discriminate.
Qed.


(** The user stops after the first block, and starts again. *)
Definition after_one : Z -> bool := fun done => done =? 1.
Definition first_run : Store * Imported := import_snapshot dump_net "demo" 1 quick false any_time after_one store_empty dump_dir.
Definition prepared : Res (SnapshotMeta * gmap Z (list Transaction) * ChainTip * Stream) := prepare_import dump_net "demo" store_empty dump_dir.
Definition dumped_txs : gmap Z (list Transaction) := match prepared with Ok (_, txs, _, _) => txs | Err _ => ∅ end.

Lemma dumped_readable : map_Forall (fun _ l => Forall (readable dump_net) l) dumped_txs.
Proof.
  assert (H : forallb (fun l => forallb (fun tx => match tx_bytes dump_net tx with
      | Ok x => (Z.of_nat (length x) <=? u32_max) && (match deserialize_transaction x with Ok _ => true | Err _ => false end) | Err _ => true end) l) (map_to_list dumped_txs).*2 = true)
    by (vm_compute; reflexivity).
  intros h l Hl. rewrite forallb_forall in H. apply Forall_forall. intros tx Htx x Hx. apply elem_of_map_to_list in Hl.
  specialize (H l). rewrite <- list_elem_of_In in H. specialize (H ltac:(apply list_elem_of_fmap; by exists (h, l))). rewrite forallb_forall in H.
  specialize (H tx). rewrite <- list_elem_of_In in H. specialize (H Htx). rewrite Hx in H. apply andb_true_iff in H as [Hf Hd]. split; [by apply Z.leb_le in Hf|].
  destruct (deserialize_transaction x) as [tx'|e]; [by exists tx'|done].
Qed.

Lemma interrupted_import_resumes_witness :
  first_run.2 = Reported (mkReport 2 0 1 1 0 true) /\
  (import_snapshot dump_net "demo" 1 quick false any_time never first_run.1 dump_dir).1
  = (import_snapshot dump_net "demo" 1 quick false any_time never store_empty dump_dir).1.
Proof.
  assert (Hr : first_run.2 = Reported (mkReport 2 0 1 1 0 true)) by (vm_compute; reflexivity). split; [exact Hr|].
  assert (Hp : exists p, prepared = Ok p /\ p.1.2 = mkTip 0 None) by (vm_compute; eexists; split; reflexivity). destruct Hp as ([[[meta txs] tip] reader] & Hp & Ht). cbn in Ht. subst tip.
  assert (Hx : txs = dumped_txs) by (unfold dumped_txs; by rewrite Hp). unfold prepared in Hp.
  assert (Hf : import_snapshot dump_net "demo" 1 quick false any_time after_one store_empty dump_dir = (first_run.1, Reported (mkReport 2 0 1 1 0 true)))
    by (rewrite <- Hr; apply surjective_pairing).
  destruct (interrupted_import_resumes dump_net "demo" 1 quick false any_time after_one store_empty dump_dir meta txs (mkTip 0 None) reader first_run.1
    (mkReport 2 0 1 1 0 true) Hp ltac:(vm_compute; reflexivity) ltac:(vm_compute; discriminate) ltac:(rewrite Hx; exact dumped_readable) Hf ltac:(reflexivity)) as [H _].
  exact H.
Defined.

(** Of the directories in a folder the last one by name is taken, which need not be the longest chain. *)
Example shorter_snapshot_located : locate_candidate ["1-1000"; "1-900"]%string = Some "1-900"%string.
Proof. reflexivity. Qed.

(** Of the links of an index the one with the highest end. *)
Definition demo_link (href : string) : string := "<a href=" +:+ String quote EmptyString +:+ href +:+ String quote EmptyString +:+ ">".
Example latest_link : pick_latest_archive (demo_link "1-900.tgz" +:+ demo_link "/old/1-1000.tgz" +:+ demo_link "notes.txt") = Some ("/old/1-1000.tgz"%string, 1000).
Proof. vm_compute. reflexivity. Qed.
