(* ===== verification/ApiDemo.v ===== *)
(** * Concrete requests

    An instance of [JsonText] with its laws, and the chain of [SnapshotDemo] asked for its transactions, over the listings
    and over a wallet session: for the witnesses of [Api] and [WalletApi].  Two listings that answer what was not asked. *)

From Stdlib Require Import Floats.SpecFloat.
From S2P Require Import Prelude Floats Models Env Bytes Crypto Config TxCodec TxWire TxRoundtrip BlockCodec Wallet Rules Round Tree Storage Chain Reads Sync ChainDemo SyncDemo.
From S2P Require Import AddrBook NetworkDemo Snapshot SnapshotDemo Render Api WalletApi LegacyServerDemo.

#[local] Existing Instance TestEnv.env.
#[local] Existing Instance TestEnv.laws.
#[local] Existing Instance TestIroh.keys.
#[local] Existing Instance TestIroh.iroh_laws.

Module TestJson.
Import TestArchive.

(** Induction into the members of arrays and objects. *)
Lemma value_induction (P : Models.Value -> Prop) : P VNull -> (forall b, P (VBool b)) -> (forall z, P (VNumber z)) -> (forall r, P (VFloat r)) -> (forall t, P (VString t)) ->
  (forall l, Forall P l -> P (VArray l)) -> (forall m, Forall (fun e => P e.2) m -> P (VObject m)) -> forall v, P v.
Proof.
  intros H1 H2 H3 H4 H5 H6 H7. fix IH 1. intros [|b|z|r|t|l|m]; [exact H1|exact (H2 b)|exact (H3 z)|exact (H4 r)|exact (H5 t)| |].
  - apply H6. induction l as [|v l Hl]; constructor; [apply IH|exact Hl].
  - apply H7. induction m as [|[k v] m Hm]; constructor; [apply IH|exact Hm].
Qed.

Definition leaf (t : string) : Tree := GenLeaf (inl (inl t)).
Fixpoint to_tree (v : Models.Value) : Tree :=
  match v with
  | VNull => GenNode 0 []
  | VBool b => GenNode (if b then 1 else 2)%nat []
  | VNumber z => GenLeaf (inl (inr z))
  | VFloat r => GenNode 3 [leaf r]
  | VString t => leaf t
  | VArray l => GenNode 4 (List.map to_tree l)
  | VObject m => GenNode 5 (List.map (fun e => let '(k, v) := e in GenNode 6 [leaf k; to_tree v]) m)
  end.
Fixpoint of_tree (t : Tree) : option Models.Value :=
  match t with
  | GenLeaf (inl (inl t)) => Some (VString t)
  | GenLeaf (inl (inr z)) => Some (VNumber z)
  | GenNode 0 [] => Some VNull
  | GenNode 1 [] => Some (VBool true)
  | GenNode 2 [] => Some (VBool false)
  | GenNode 3 [GenLeaf (inl (inl r))] => Some (VFloat r)
  | GenNode 4 l =>
      VArray <$> (fix go (l : list Tree) : option (list Models.Value) :=
        match l with [] => Some [] | t :: l => match of_tree t, go l with Some v, Some r => Some (v :: r) | _, _ => None end end) l
  | GenNode 5 l =>
      VObject <$> (fix go (l : list Tree) : option (list (string * Models.Value)) :=
        match l with
        | [] => Some []
        | GenNode 6 [GenLeaf (inl (inl k)); t] :: l => match of_tree t, go l with Some v, Some r => Some ((k, v) :: r) | _, _ => None end
        | _ => None
        end) l
  | _ => None
  end.
Lemma of_to_tree v : of_tree (to_tree v) = Some v.
Proof.
  induction v as [| [] | | | |l IH|m IH] using value_induction; try done; cbn [to_tree of_tree].
  - match goal with |- VArray <$> ?g _ = _ => enough (Hg : g (List.map to_tree l) = Some l) by by rewrite Hg end.
    induction IH as [|v l Hv _ IH]; [done|]. cbn [List.map]. by rewrite Hv, IH.
  - match goal with |- VObject <$> ?g ?x = _ => enough (Hg : g x = Some m) by by rewrite Hg end.
    induction IH as [|[k v] m Hv _ IH]; [done|]. cbn [List.map]. cbn in Hv. unfold leaf at 1. by rewrite Hv, IH.
Qed.

Definition print (v : Models.Value) : list byte := pos_bytes (encode (to_tree v)).
Definition parse (b : list byte) : option Models.Value :=
  match decode (bytes_pos b) with
  | Some t => match of_tree t with Some v => if canonical JSON_DEPTH v then Some v else None | None => None end
  | None => None
  end.

#[export] Instance json : JsonText := {|
  json_parse := parse; json_print := print;
  tx_value tx := VObject [("id"%string, vstr tx.(tx_id))]; block_value b := VObject [("id"%string, vstr b.(b_id))]; asset_value _ := VNull;
  token_state_value t := VObject [("symbol"%string, VString t.(ts_symbol))]; sobject_record_value _ := VNull; float_value _ := VFloat "0.0"
|}.

#[export] Instance json_laws : JsonTextLaws json.
Proof.
  split.
  - intros b v H. change (parse b = Some v) in H. unfold parse in H. destruct (decode (bytes_pos b)) as [t|]; [|done]. destruct (of_tree t) as [w|]; [|done].
    destruct (canonical JSON_DEPTH w) eqn:Hc; [|done]. by injection H as <-.
  - intros m Hm. exists m. split; [|auto]. change (parse (print (VObject m)) = Some (VObject m)). unfold parse, print.
    rewrite bytes_pos_bytes, decode_encode, of_to_tree, Hm. reflexivity.
Qed.
End TestJson.
#[local] Existing Instance TestJson.json.
#[local] Existing Instance TestJson.json_laws.

#[local] Instance wire : WalletWire := {|
  packet_parse _ := Err "malformed"%string; packet_print p := p.(mp_body); msgpack_parse _ := Err "malformed"%string; msgpack_print _ := [];
  read_error := "early eof"%string; json_error _ := "malformed"%string; debug_str t := t; debug_text o := default "None"%string o
|}.

(** The example of the source. *)
Example human_time_of_a_block : human_time 1788383912 = "2026-09-02T21:18:32.000Z"%string.
Proof. vm_compute. reflexivity. Qed.

(** ** An answer *)

Definition asked : WalletApi := api_new secret.
Definition answer : Models.Value := obj [("data"%string, VArray [VNumber 7; VString "x"])].

Lemma answer_accepted_witness : exists p, read_answer (node_id asked) (finalize asked 1700000000 "sth-core" 200 (json_print answer)) = Ok (mkApiResponse 200 answer p).
Proof.
  destruct (answer_accepted asked 1700000000 "sth-core" 200 (json_print answer) answer) as (p & H & _).
  - vm_compute. split; discriminate.
  - vm_compute. split; discriminate.
  - vm_compute. reflexivity.
  - vm_compute. discriminate.
  - exists p. exact H.
Defined.

(** ** A listing *)

Section checks.
Variables (n : Network) (s : Store).
Lemma wallet_check (P : string * Z * Z -> string -> bool) :
  forallb (fun e => P e.1 e.2) (map_to_list s.(st_wallet_tx)) = true -> forall k id, s.(st_wallet_tx) !! k = Some id -> P k id = true.
Proof. intros H k id Hk. rewrite forallb_forall in H. apply (H (k, id)). by apply list_elem_of_In, elem_of_map_to_list. Qed.
Lemma list_check (P : Z * Z -> string -> bool) :
  forallb (fun e => P e.1 e.2) (map_to_list s.(st_tx_list)) = true -> forall k id, s.(st_tx_list) !! k = Some id -> P k id = true.
Proof. intros H k id Hk. rewrite forallb_forall in H. apply (H (k, id)). by apply list_elem_of_In, elem_of_map_to_list. Qed.
End checks.

Lemma dump_index_sound : sound_index dump_net dump_source.
Proof.
  split.
  - intros a h q id H. apply (wallet_check dump_source (fun k id => is_some (entry_tx dump_net dump_source (mkIndexEntry k.1.2 k.2 id)))) in H; [|vm_compute; reflexivity].
    cbn [fst snd] in H. by destruct (entry_tx _ _ _).
  - intros h q id H. apply (list_check dump_source (fun k id => is_some (entry_tx dump_net dump_source (mkIndexEntry k.1 k.2 id))
      && (0 <=? k.1) && (k.1 <=? u64_max) && (0 <=? k.2) && (k.2 <=? u32_max))) in H; [|vm_compute; reflexivity].
    cbn [fst snd] in H. rewrite !andb_true_iff in H. destruct H as ((((H & ?) & ?) & ?) & ?). split; [by destruct (entry_tx _ _ _)|]. lia.
  - vm_compute. reflexivity.
Qed.

(** Payments of at least one smartoshi, one a page. *)
Definition query : Params := [("amount.from", "1"); ("limit", "1")]%string.
Lemma listing_exact_witness :
  list_transactions dump_net dump_source query None AnyRole [] "/transactions"
  = Ok (paginate "/transactions" query (Z.of_nat (length (listed dump_net dump_source query None AnyRole [] 0 u64_max)))
          (row dump_net dump_source query <$> page_of query (listed dump_net dump_source query None AnyRole [] 0 u64_max)))
  /\ length (listed dump_net dump_source query None AnyRole [] 0 u64_max) = 1%nat.
Proof.
  split; [|vm_compute; reflexivity]. apply (listing_exact dump_net dump_source query None AnyRole [] "/transactions" 0 u64_max dump_index_sound).
  - vm_compute. reflexivity.
  - vm_compute. discriminate.
Defined.

(** ** A session *)

Definition command : Models.Value := obj [("type", VString "subscribe"); ("addresses", VArray [VString demo_sender]); ("sinceHeight", VNumber 0)]%string.
Lemma subscribe_replays_witness : exists l frames rest,
  subscribe dump_net wallet_config_default dump_source session_new command
  = (mkSession {[demo_sender]} topics_default ∅ Json, pair Json <$> frames ++ rest, None) /\ length l = length frames /\ StronglySorted entry_le l /\ NoDup (ie_id <$> l).
Proof.
  destruct (subscribe_replays dump_net wallet_config_default dump_source session_new command 0 topics_default) as (l & frames & full & H & H2 & Hs & Hnd & _).
  - intros k id H. apply (wallet_check dump_source (fun k _ => (0 <=? k.2) && (k.2 <=? u32_max))) in H; [lia|vm_compute; reflexivity].
  - intros e (a & _ & He & _). apply (wallet_check dump_source (fun _ id => match get_transaction dump_net dump_source id with Ok (Some _) => true | _ => false end)) in He;
      [|vm_compute; reflexivity]. destruct (get_transaction _ _ _) as [[tx|]|]; try done. by exists tx.
  - vm_compute. discriminate.
  - vm_compute. reflexivity.
  - vm_compute. reflexivity.
  - reflexivity.
  - vm_compute. reflexivity.
  - vm_compute. reflexivity.
  - exists l, frames. eexists. split; [|split; [by eapply Forall2_length|by split]]. rewrite H.
    match goal with |- (?a, _, _) = (?c, _, _) => replace a with c by (vm_compute; reflexivity) end. reflexivity.
Defined.

(** ** Two listings *)

(** The two blocks of [serving] have one generator.  With one row a page the first page in ascending order is the newest block, as without an order,
    while the listing without a generator begins with the oldest. *)
Definition heights_of_page (r : ApiRes Models.Value) : option (list Z) :=
  match r with Ok v => (fun l : list Models.Value => omap (fun b => as_number (vget "height" b)) l) <$> as_array (vget "data" v) | Err _ => None end.
Definition by_key (more : Params) : Params := ([("limit", "1"); ("orderBy", "height:asc")] ++ more)%list%string.
Example ascending_by_generator :
  heights_of_page (blocks_list strict_net serving (by_key [])) = Some [1]
  /\ heights_of_page (blocks_list strict_net serving (by_key [("generatorPublicKey", demo_key)]%string)) = Some [2].
Proof. vm_compute. auto. Qed.

(** Up to the last second a timestamp can name there is nothing, up to the one before it everything. *)
Example until_the_end_of_time :
  heights_of_page (blocks_list strict_net serving [("timestamp.to", "4294967294")]%string) = Some [2; 1]
  /\ heights_of_page (blocks_list strict_net serving [("timestamp.to", "4294967295")]%string) = Some [].
Proof. vm_compute. auto. Qed.

(** One request a second, two at once: the third is refused, a second later one more is let in. *)
Definition limited : WalletApi := attach (fun _ _ _ _ => inl (200, [])) (mkWalletConfig true 0 64 1 300 false) asked.
Definition ask (times : list Z) : list bool :=
  (foldl (fun st now => let '(a, ok) := allow now "peer" st.1 in (a, st.2 ++ [ok])) (limited, []) times).2.
Example budget : ask [0; 0; 0; 1000000000; 1000000000; 1500000000] = [true; true; false; true; false; false].
Proof. vm_compute. reflexivity. Qed.
